(* ===== verification/_CoqProject ===== *)
-Q . S2P
Prelude.v
Ord.v
Text.v
Settings.v
Policy.v
Subscription.v
TaskTypes.v
Events.v
Reducer.v
Journal.v
Metrics.v
SecretFilter.v
Checkpoint.v
Report.v
Progress.v
Context.v
Service.v
Live.v
Tui.v
Controller.v
Server.v
Memory.v
Database.v
TaskStore.v
Front.v
Approvals.v
Grants.v
StoreCheckpoint.v
StoreJournal.v
StoreAuthority.v
StoreOps.v
StoreBudget.v
StorePayload.v
StoreGrown.v
StoreCommit.v
StoreScan.v
StoreAnchor.v
StoreConnect.v
StoreExample.v
ConnectExample.v
TaskQueries.v
AgentPort.v
Engine.v
EngineOwner.v
EngineWork.v
EngineRecover.v
EngineRun.v
StoreFrame.v
EngineLogic.v
EngineKeeps.v
EngineStages.v
EngineCalls.v
EngineDurable.v
EngineEffects.v
EngineLive.v
EngineStuck.v
EngineDoubt.v
EngineExample.v
