(* ===== verification/Prelude.v ===== *)
(** * Carl: a verification development of the task runtime

    Carl is a local agent runtime written in Rust.  An owner gives it a task
    with a completion contract; Carl drives a model provider through a series of
    epochs, records everything that happens as events in a journal, and decides
    from recorded evidence, not from what the model says, whether the task makes
    progress, has to recover, or is complete.  This development models that
    runtime, under [src/src/], as executable definitions: the components that
    decide, the store that remembers, and the engine that drives them against an
    arbitrary outside; and it proves what they guarantee.

    ** The parts and how they interact

    - The _journal_ ([events.rs]) stores [EventEnvelope]s in four schema
      versions; task events ([runtime/task/types.rs]) are one kind of event.
    - The _task reducer_ ([runtime/task/reducer.rs]) folds the events of a task
      into its [TaskSnapshot]: status, contract, epoch, operations and, for every
      operation, a ledger of recorded and consumed evidence.
    - _Metrics_ ([runtime/task/metrics.rs]) and _checkpoints_
      ([runtime/task/checkpoint.rs]) read the same journal with tables of their
      own; a checkpoint continues from the previous one.
    - The _secret filter_ ([security/secret_filter.rs]) scans checkpoints,
      artifacts and context before they leave the runtime.
    - At the end of an epoch the provider leaves a _report_
      ([runtime/task/report.rs]); Carl checks its claims against the checkpoint.
    - _Progress_ ([runtime/task/progress.rs]) fingerprints the checkpoint, counts
      stalls and selects a recovery strategy.
    - The _context engine_ ([runtime/task/context.rs]) renders checkpoint,
      instructions and recent conversation for the next epoch within a token
      budget and decides on compaction.
    - The _store_ ([storage/repository.rs] with [migrations/]) keeps the journal
      and, beside it, tables that show what the journal replays to; every change
      of a task is one transaction over both, and opening a store replays the
      journal and refuses tables that disagree with it.
    - The same store keeps who speaks to the agent: frontend sessions and trusted
      owners, approvals and the codes that answer them, deliveries, and controls
      of tasks under idempotency keys.
    - The _engine_ ([runtime/task/engine.rs]) owns a store, starts epochs of a
      provider through a port ([runtime/agent_port.rs]), records every effect
      before it answers the request for it, takes controls of the owner, commits
      a checkpoint after every epoch, and takes up again what a crash left.
    - The _service_ ([service/protocol.rs], [service/server.rs]) executes commands
      of local clients at most once per idempotency key and publishes live
      updates of the tasks, which the _terminal_ ([tui/]) polls and shows.
    - _Memory_ ([memory/mod.rs]) ranks what was remembered for the next context.
    - Around this stand delegate _settings_ ([delegates/settings.rs]), session
      _configuration_ ([acp/config.rs]), turn _budgets_ ([runtime/budget.rs]), the
      capability _policy_ ([policy/]) and subscription _runs_
      ([runtime/subscription/types.rs]).

    ** The files

    - [Prelude]: results, the [?] operator, checked arithmetic, the tactic
      [carl_simpl] and the hint databases.  A Rust [Result] is [result E A]; an
      early return is [reject]; a possible panic is a value of [or_panic].
    - [Ord]: [Ord] as a class with laws, stable sorting, [dedup], [BTreeSet] and
      [BTreeMap] iteration.
    - [Text]: [str] as scalar values with its UTF-8 bytes, and the [str] API.
    - [Settings], [Policy], [Subscription]: the components around the core.
    - [TaskTypes], [Events]: the data of the journal and its validation.
    - [Reducer]: the reducer, the step relation [task_step], replay as the
      relation [history], and the snapshot invariant [snapshot_ok].
    - [Journal]: the class [JournalObserver], what the reducer promises to every
      other reader of the journal; [Metrics] and [Checkpoint] are instances.
    - [Metrics], [SecretFilter], [Checkpoint], [Report], [Progress], [Context],
      [Memory]: one file per component.
    - [Service]: commands, results and frames, their validation, the request
      ledger of a connection and its lines.  [Live]: the hub of live updates and
      its pages.  [Server]: receipts, dispatch, maintenance and the loop of a
      connection.
    - [Tui]: the state of the terminal; [Controller]: its controller, run against
      the pages of [Live].
    - [Database]: the tables of the journal and its projections, their [CHECK]
      constraints and transactions; the parameters and their laws are the
      classes [Uuids], [Chrono], [Serde], [SqliteJson] and [UuidLaws] and so on.
      [TaskStore]: the operations on tasks, one definition per function.
      [StoreJournal], [StoreAuthority]: the invariants [journal_ok] and
      [store_ok] and that each operation keeps them.  [StoreOps]: runs of the
      store as the step relation [store_step], and the theorems.
      [StoreBudget]: no operation changes the budget of a task.
      [StoreExample]: an instance of the parameters and a run.
    - [StoreCheckpoint]: commits of checkpoints, by both of their validators, and
      the check of stored checkpoints.  [StorePayload], [StoreGrown],
      [StoreCommit], [StoreScan], [StoreAnchor]: what is stored stays, and stays
      valid, and what the validators look for in terms of the journal.
      [StoreConnect]: several
      connections to one database as the step relation [connection_step], and the
      theorems; [ConnectExample]: two connections at work.
    - [Front], [Approvals]: the tables of frontends, owners, controls, approvals,
      codes and deliveries.  [Grants]: histories of their operations, and a logic
      of what an operation keeps.
    - [TaskQueries]: what the engine reads of a task.  [AgentPort]: the messages of
      the port and their bounds.
    - [Engine]: the state of the engine, its monad and the operations its loops are
      made of.  [EngineOwner]: controls of the owner.  [EngineWork]: an epoch of
      work.  [EngineRecover]: taking up a task.  [EngineRun]: the loop of epochs
      and the entry points.  [EngineCalls]: histories of calls and crashes.
    - [StoreFrame]: what later writes leave of earlier ones.  [EngineLogic],
      [EngineKeeps], [EngineStages]: a logic of invariants of the engine, followed
      once through all of its functions.  [EngineDurable], [EngineEffects],
      [EngineLive], [EngineStuck], [EngineDoubt]: the theorems.  [EngineExample]: an instance of
      the outside and histories of an engine over it.

    Definitions keep the names of the code; a method [T::f] is [T_f] where [f]
    alone is ambiguous, and a field or function whose name occurs in two places
    carries a prefix.  The body of a long loop or match arm has a definition of
    its own, named after what it does.

    ** What the theorems show

    - Reducer: it refines the step relation exactly; it never panics; every
      replayed snapshot satisfies the invariant; every claimed outcome rests on
      evidence recorded for that operation alone; terminal tasks are final;
      status, contract version and revision only move forward.  Every active task
      can be completed around the gate of the [Completed] event by
      [StateTransitioned] events, which is proved as it is.
    - Metrics and checkpoints agree with the reducer on every journal it accepts;
      incremental checkpoints equal checkpoints of the whole journal; digests do
      not depend on the order of collections; a chain of checkpoints loses
      nothing.
    - Secret filter: the exact set of accepted inputs, and three limits of it.
    - Reports: the parser's exact language, and completion only on owned evidence.
    - Progress: a task is declared blocked exactly when authority is missing or
      three strategies have failed in its state, stalls are counted exactly, and
      fingerprints depend on content only.
    - Context: thresholds without rounding loss, packages within budget whose
      text is exactly the included sources, and non-interference of untrusted
      content with what precedes it.
    - Service: a command is executed at most once per key through repeated
      requests and crashes, a completed command is answered from its receipt, a
      connection answers in order, and the four ways it ends are told apart; the
      bounded ledger refines the unbounded history; a poll of live updates, at once
      or after its wait, is answered without gap and repetition, or with a loss that
      is reported once.
    - Terminal: the inbox never loses an authoritative event, redelivery changes
      nothing, and polling shows each update once; three errors of the code are
      proved as they are.
    - Memory: the context is the greedy choice within its limits.
    - Store: every database the operations reach opens, its rows showing exactly
      what the journal replays to; writers serialize on the revision they
      expect; startup recovery settles every started operation or fails in SQLite
      alone; creation is idempotent; metrics of stored tasks are exact; models
      with a slash cannot be stored.  Whatever several connections write, the
      stored checkpoints pass the checks of a store that is opened, unless a
      [CompactionCompleted] event has brought a package of its own to a checkpoint
      that is stored with its content, which is proved as it is; and as long as the
      store opens, a commit accepts exactly the checkpoints that describe the
      journal, whether it reads the whole of it or only what follows the checkpoint
      it remembers.
    - Frontends: over any history an approval is granted at most once, an event is
      admitted at most once and for the trusted owner only, and answered again only
      to who sent it, and a control is fresh at most once, then pending, and then
      replays its result.
    - Engine: after any calls, any answers of the outside and crashes at any
      exchange, a store that opened opens again, and every effect that was allowed had been
      asked for by the provider, had its intent in the store, and was permitted by
      the stored mode or by an approval that is used up.  A task with a budget of
      provider requests comes to rest within it.  Three ways in which a task gets
      stuck are proved as they are: a change of the model, an interrupted recovery,
      and an operation that its epoch left in doubt, with which no task is ever
      cancelled.
    - Settings, policy, runs: precedence of layers, invariants of session
      configurations, no silent full access, exact budgets, the requests that
      can be asked about, and no promotion around the pipeline.

    ** Machine integers, parameters and fuel

    Unsigned integers are [Z]; where the code uses checked arithmetic the model
    uses [checked_add] and the like with the width written out, and [usize] has
    64 bits.  Code that is not in the repository is a parameter of the
    definitions that call it: the hash of [sha2], the serializers and readers of
    [serde_json], the formatting and parsing of [uuid] and [chrono], and the JSON
    functions of SQLite; for checkpoints, provider items and reports these are the
    classes [CheckpointJson], [ItemJson] and [RunJson].  What the theorems assume
    of them is stated as classes of laws, and instances show that the laws can
    hold.  Fresh identifiers and the current time are arguments of the store.

    For the engine everything outside is the class [Outside]: the provider, the
    owner, the clock, identifiers and the file system answer by functions of the
    transcript of all exchanges so far.  With each exchange the transcript holds the
    database as it was, which is what a process that is stopped there leaves; the
    call [Crash] continues from one of them.

    The definitions that run on fuel are [decimal_digits] of [Text], whose 20
    steps cover the 20 digits of the largest [u64], and the loops of [TaskStore]
    that read the journal page by page, whose fuel is one step more than the
    journal has events: [page_loop_exact] and [visit_pages_exact] show that this
    is enough.  The loop of a connection has a turn more than its stream has bytes,
    of which every line takes one.  The loops of the engine that wait for the outside run on fuel as
    well; when it ends the outcome is [Waiting], which is no result of the code but
    says that the run is unfinished.  The invariants hold of unfinished runs too,
    and [run_comes_to_rest] says how much fuel is enough.  Every other loop of the
    modelled code is structural.

    ** What is not modelled

    The ACP server ([acp/]), the sidecar, the provider clients and the port
    implementations, authentication, tools, staging, artifacts, terminal rendering
    and the command line: they are I/O around the modelled core.  Of the engine,
    the scheduling of its asynchronous functions: an exchange is one step, and
    [select!] is the choice of [out_ready].  Of the store, the tables of
    subscription runs, proposals and memories, the migration of old databases and
    the text of SQL statements; a statement is modelled by what it reads and
    writes.  Of the service, sockets, lock files and the thread that carries
    commands to the engine.  Derived [serde] code, [Display] texts of errors and
    tracing are left out of the modelled files. *)
From stdpp Require Import base gmap sets list sorting strings.
From Stdlib Require Import ZArith Lia.

#[global] Open Scope Z_scope.
Declare Scope carl_scope.
Delimit Scope carl_scope with carl.
#[global] Open Scope carl_scope.

(** ** Results: Rust's [Result<A, E>] and the [?] operator *)

Inductive result (E A : Type) : Type :=
| Ok (a : A)
| Err (e : E).
Arguments Ok {E A} a.
Arguments Err {E A} e.

#[export] Instance result_ret E : MRet (result E) := fun A a => Ok a.
#[export] Instance result_bind E : MBind (result E) := fun A B k r =>
  match r with Ok a => k a | Err e => Err e end.
#[export] Instance result_fmap E : FMap (result E) := fun A B f r =>
  match r with Ok a => Ok (f a) | Err e => Err e end.
#[export] Instance result_eq_dec {E A} `{EqDecision E, EqDecision A} :
  EqDecision (result E A).
Proof. solve_decision. Defined.

(** [if b { return Err(e) }] followed by the rest of the function. *)
Definition reject {E} (b : bool) (e : E) : result E unit :=
  if b then Err e else Ok tt.

(** [Result::map_err]. *)
Definition map_err {E E' A} (f : E -> E') (r : result E A) : result E' A :=
  match r with Ok a => Ok a | Err e => Err (f e) end.

(** [Option::ok_or]. *)
Definition ok_or {E A} (o : option A) (e : E) : result E A :=
  match o with Some a => Ok a | None => Err e end.

(** The outcome of code that may also panic ([expect], [unreachable!]). *)
Inductive or_panic (E : Type) : Type :=
| Panic
| Fail (e : E).
Arguments Panic {E}.
Arguments Fail {E} e.

(** A call that cannot panic, made from code that can. *)
Definition lift {E A} (r : result E A) : result (or_panic E) A := map_err Fail r.

Definition is_ok {E A} (r : result E A) : bool :=
  match r with Ok _ => true | Err _ => false end.

Definition is_some {A} (o : option A) : bool :=
  match o with Some _ => true | None => false end.

(** [Option::is_some_and]. *)
Definition is_some_and {A} (o : option A) (p : A -> bool) : bool :=
  match o with Some a => p a | None => false end.

(** A [for] loop over a slice whose body only checks and may return early. *)
Fixpoint try_for_each {E A} (f : A -> result E unit) (l : list A) : result E unit :=
  match l with
  | [] => Ok tt
  | x :: l' => _ ← f x; try_for_each f l'
  end.

(** A [for] loop that threads the mutated state and may return early;
    also [Iterator::try_fold]. *)
Fixpoint try_fold {E A S} (f : S -> A -> result E S) (s : S) (l : list A) : result E S :=
  match l with
  | [] => Ok s
  | x :: l' => s' ← f s x; try_fold f s' l'
  end.

(** [slice.windows(2).any(|pair| p pair[0] pair[1])]. *)
Fixpoint windows2_any {A} (p : A -> A -> bool) (l : list A) : bool :=
  match l with
  | x :: ((y :: _) as l') => p x y || windows2_any p l'
  | _ => false
  end.

(** ** Machine integers

    A Rust integer is a [Z]; the operations the code uses keep the width. *)

Definition u8_max : Z := 2 ^ 8 - 1.
Definition u32_max : Z := 2 ^ 32 - 1.
Definition u64_max : Z := 2 ^ 64 - 1.

Definition in_range (max x : Z) : Prop := 0 <= x <= max.
Abbreviation u8 := (in_range u8_max).
Abbreviation u32 := (in_range u32_max).
Abbreviation u64 := (in_range u64_max).

(** [checked_add], [checked_sub] and [checked_mul] at the width whose
    largest value is [max]. *)
Definition checked_add (max x y : Z) : option Z :=
  if x + y <=? max then Some (x + y) else None.
Definition checked_sub (x y : Z) : option Z :=
  if y <=? x then Some (x - y) else None.
Definition checked_mul (max x y : Z) : option Z :=
  if x * y <=? max then Some (x * y) else None.

(** Slice and string lengths; lengths are machine integers, kept in [Z]. *)
Fixpoint Zlen {A} (l : list A) : Z :=
  match l with [] => 0 | _ :: l' => 1 + Zlen l' end.

(** [slice.contains(&x)]. *)
Definition contains {A} `{EqDecision A} (x : A) (l : list A) : bool :=
  bool_decide (x ∈ l).

Notation "x ∈? l" := (contains x l) (at level 70) : carl_scope.
Notation "x =?? y" := (bool_decide (x = y)) (at level 70) : carl_scope.

(** ** Lemmas on results *)

Section Results.
Context {E A B : Type}.
Implicit Types (r : result E A) (e : E).

Lemma bind_ok r (k : A -> result E B) b :
  (r ≫= k) = Ok b <-> exists a, r = Ok a /\ k a = Ok b.
Proof. destruct r; simpl; naive_solver. Qed.

Lemma bind_err r (k : A -> result E B) e :
  (r ≫= k) = Err e <-> r = Err e \/ exists a, r = Ok a /\ k a = Err e.
Proof. destruct r; simpl; naive_solver. Qed.

Lemma fmap_ok (f : A -> B) r b :
  f <$> r = Ok b <-> exists a, r = Ok a /\ f a = b.
Proof. destruct r; simpl; naive_solver. Qed.

Lemma reject_ok (b : bool) e u : reject b e = Ok u <-> b = false.
Proof. destruct b, u; simpl; naive_solver. Qed.

Lemma reject_err (b : bool) e e' : reject b e = Err e' <-> b = true /\ e = e'.
Proof. destruct b; simpl; naive_solver. Qed.

Lemma map_err_ok {E'} (f : E -> E') r a : map_err f r = Ok a <-> r = Ok a.
Proof. destruct r; simpl; naive_solver. Qed.

Lemma map_err_err {E'} (f : E -> E') r (e' : E') :
  map_err f r = Err e' <-> exists e, r = Err e /\ f e = e'.
Proof. destruct r; simpl; naive_solver. Qed.

Lemma ok_or_ok (o : option A) e a : ok_or o e = Ok a <-> o = Some a.
Proof. destruct o; simpl; naive_solver. Qed.

Lemma ok_or_err (o : option A) e e' : ok_or o e = Err e' <-> o = None /\ e = e'.
Proof. destruct o; simpl; naive_solver. Qed.

Lemma lift_ok r a : lift r = Ok a <-> r = Ok a.
Proof. apply map_err_ok. Qed.

Lemma lift_err r x : lift r = Err x <-> exists e, r = Err e /\ x = Fail e.
Proof. unfold lift. destruct r; simpl; naive_solver. Qed.

Lemma ok_inj (a a' : A) : @Ok E A a = Ok a' <-> a = a'.
Proof. naive_solver. Qed.

(** A guard in front of the rest of a function. *)
Lemma bind_reject (b : bool) e (k : result E B) y :
  (reject b e ≫= fun _ => k) = Ok y <-> b = false /\ k = Ok y.
Proof. destruct b; simpl; naive_solver. Qed.

(** A check with the meaning [P] in front of the rest of a function. *)
Lemma bind_guard (P : Prop) (g : result E unit) (k : result E B) y :
  (g = Ok tt <-> P) -> (g ≫= fun _ => k) = Ok y <-> P /\ k = Ok y.
Proof. intros <-. destruct g as [[]|]; simpl; naive_solver. Qed.

Lemma is_ok_true r : is_ok r = true <-> exists a, r = Ok a.
Proof. destruct r; simpl; naive_solver. Qed.
End Results.

Lemma try_for_each_ok {E A} (f : A -> result E unit) l u :
  try_for_each f l = Ok u <-> Forall (fun x => f x = Ok tt) l.
Proof.
  destruct u. induction l as [|x l IH]; simpl; [done|].
  rewrite bind_ok, Forall_cons, <-IH. split.
  - by intros ([] & ? & ?).
  - intros [-> ?]. by exists tt.
Qed.

Section Folds.
Context {E A S : Type} (f : S -> A -> result E S).

Lemma try_fold_app s l1 l2 :
  try_fold f s (l1 ++ l2) = (s' ← try_fold f s l1; try_fold f s' l2).
Proof.
  revert s. induction l1 as [|x l1 IH]; intros s; simpl; [done|].
  destruct (f s x); simpl; auto.
Qed.

(** The loop invariant rule. *)
Lemma try_fold_inv (P : S -> Prop) l s s' :
  (forall s1 x s2, x ∈ l -> P s1 -> f s1 x = Ok s2 -> P s2) ->
  P s -> try_fold f s l = Ok s' -> P s'.
Proof.
  revert s. induction l as [|x l IH]; intros s Hstep Hs Hrun; simpl in *.
  - by simplify_eq.
  - apply bind_ok in Hrun as (s1 & Hx & Hrun).
    apply (IH s1); [|eapply Hstep; eauto; set_solver|done].
    intros ????. apply Hstep. set_solver.
Qed.
End Folds.

(** ** Lemmas on adjacent pairs *)

Lemma windows2_any_sorted {A} (p : A -> A -> bool) l :
  windows2_any p l = false <-> Sorted (fun x y => p x y = false) l.
Proof.
  induction l as [|x [|y l] IH]; simpl in *.
  - split; auto.
  - split; auto.
  - rewrite orb_false_iff, IH. split.
    + intros [??]. constructor; auto.
    + intros H. inversion H as [|??? H2]; inversion H2; subst. auto.
Qed.

(** The code's check [windows(2).any(|p| p[0] >= p[1])] rejects exactly the
    sequences that are not strictly increasing. *)
Lemma windows2_geb_strict (l : list Z) :
  windows2_any Z.geb l = false <-> StronglySorted Z.lt l.
Proof.
  rewrite windows2_any_sorted. split.
  - intros H. apply Sorted_StronglySorted; [intros ???; lia|].
    induction H as [|x l ? IH Hd]; constructor; auto.
    destruct Hd; constructor. lia.
  - intros H. apply StronglySorted_Sorted in H.
    induction H as [|x l ? IH Hd]; constructor; auto.
    destruct Hd; constructor. lia.
Qed.

Lemma fmap_snoc {A B} (f : A -> B) l x : f <$> (l ++ [x]) = (f <$> l) ++ [f x].
Proof. by rewrite fmap_app. Qed.

Lemma strongly_sorted_snoc {A} (R : A -> A -> Prop) l x :
  StronglySorted R (l ++ [x]) <-> StronglySorted R l /\ Forall (fun y => R y x) l.
Proof.
  induction l as [|y l IH]; simpl; [repeat split; repeat constructor|]. split.
  - intros H. inversion H as [|?? Hl Hy]; subst. apply Forall_app in Hy as [? [? _]%Forall_cons].
    apply IH in Hl as [??]. split; constructor; auto.
  - intros [Hs Hx]. inversion Hs; inversion Hx; subst. constructor; [by apply IH|].
    apply Forall_app. auto.
Qed.

Lemma length_omap {A B} (f : A -> option B) (l : list A) : (length (omap f l) <= length l)%nat.
Proof. induction l as [|x l IH]; [done|]. cbn. destruct (f x); cbn; lia. Qed.

Lemma filter_all {A} (P : A -> Prop) `{forall x, Decision (P x)} (l : list A) :
  Forall P l -> filter P l = l.
Proof. induction 1; [done|]. rewrite filter_cons_True by done. by f_equal. Qed.

Lemma filter_none {A} (P : A -> Prop) `{forall x, Decision (P x)} (l : list A) :
  Forall (fun x => ~ P x) l -> filter P l = [].
Proof. induction 1; [done|]. by rewrite filter_cons_False. Qed.

Lemma Zlen_length {A} (l : list A) : Zlen l = Z.of_nat (length l).
Proof. induction l; simpl; lia. Qed.

Lemma Zlen_nonneg {A} (l : list A) : 0 <= Zlen l.
Proof. rewrite Zlen_length. lia. Qed.

Lemma Zlen_app {A} (l1 l2 : list A) : Zlen (l1 ++ l2) = Zlen l1 + Zlen l2.
Proof. rewrite !Zlen_length, length_app. lia. Qed.

(** ** Lemmas on checked arithmetic *)

Lemma checked_add_some max x y z :
  checked_add max x y = Some z <-> x + y <= max /\ z = x + y.
Proof. unfold checked_add. case_match; split; intros; destruct_and?; simplify_eq; lia || (f_equal; lia). Qed.

Lemma checked_add_none max x y : checked_add max x y = None <-> max < x + y.
Proof. unfold checked_add. case_match; split; intros; simplify_eq; auto; lia. Qed.

Lemma checked_sub_some x y z : checked_sub x y = Some z <-> y <= x /\ z = x - y.
Proof. unfold checked_sub. case_match; split; intros; destruct_and?; simplify_eq; lia || (f_equal; lia). Qed.

Lemma checked_sub_none x y : checked_sub x y = None <-> x < y.
Proof. unfold checked_sub. case_match; split; intros; simplify_eq; auto; lia. Qed.

Lemma checked_mul_some max x y z :
  checked_mul max x y = Some z <-> x * y <= max /\ z = x * y.
Proof. unfold checked_mul. case_match; split; intros; destruct_and?; simplify_eq; lia || (f_equal; lia). Qed.

Lemma checked_add_fits max x y : x + y <= max -> checked_add max x y = Some (x + y).
Proof. intros. by apply checked_add_some. Qed.

Lemma checked_mul_fits max x y : x * y <= max -> checked_mul max x y = Some (x * y).
Proof. intros. by apply checked_mul_some. Qed.

Lemma contains_true {A} `{EqDecision A} (x : A) l : (x ∈? l) = true <-> x ∈ l.
Proof. apply bool_decide_eq_true. Qed.

Lemma contains_false {A} `{EqDecision A} (x : A) l : (x ∈? l) = false <-> x ∉ l.
Proof. apply bool_decide_eq_false. Qed.

Lemma existsb_false {A} (p : A -> bool) l :
  existsb p l = false <-> Forall (fun x => p x = false) l.
Proof.
  induction l; simpl; [done|].
  by rewrite orb_false_iff, Forall_cons, IHl.
Qed.

Lemma forallb_true {A} (p : A -> bool) l :
  forallb p l = true <-> Forall (fun x => p x = true) l.
Proof.
  induction l; simpl; [done|].
  by rewrite andb_true_iff, Forall_cons, IHl.
Qed.

Lemma is_some_true {A} (o : option A) : is_some o = true <-> is_Some o.
Proof. destruct o; simpl; split; intros; done. Qed.

Lemma is_some_false {A} (o : option A) : is_some o = false <-> o = None.
Proof. destruct o; simpl; split; done. Qed.

(** ** Automation

    [carl_simpl] takes a run of the error monad that succeeded (or failed)
    apart into the facts its guards established. *)

Create HintDb carl discriminated.
Create Rewrite HintDb carl.
#[export] Hint Resolve Zlen_nonneg : carl.

(** [autorewrite with carl] turns a statement that guarded code succeeded into
    the conjunction of what its guards say. *)
#[export] Hint Rewrite @bind_reject @reject_ok @map_err_ok @lift_ok @ok_or_ok @ok_inj
  @orb_false_iff @andb_true_iff @negb_false_iff @negb_true_iff @bool_decide_eq_true
  @bool_decide_eq_false @is_some_false @Z.leb_gt @Z.ltb_ge @Z.leb_le @Z.ltb_lt : carl.

Ltac carl_simpl_step :=
  match goal with
  | H : (_ ≫= _) = Ok _ |- _ => apply bind_ok in H as (? & ? & H); simpl in H
  | H : _ <$> _ = Ok _ |- _ => apply fmap_ok in H as (? & ? & ?)
  | H : reject _ _ = Ok _ |- _ => apply reject_ok in H
  | H : reject _ _ = Err _ |- _ => apply reject_err in H as [??]
  | H : lift _ = Ok _ |- _ => apply (proj1 (lift_ok _ _)) in H
  | H : lift _ = Err _ |- _ => apply lift_err in H as (? & ? & ?)
  | H : map_err _ _ = Ok _ |- _ => apply (proj1 (map_err_ok _ _ _)) in H
  | H : map_err _ _ = Err _ |- _ => apply map_err_err in H as (? & ? & ?)
  | H : ok_or _ _ = Ok _ |- _ => apply ok_or_ok in H
  | H : ok_or _ _ = Err _ |- _ => apply ok_or_err in H as [??]
  | H : orb _ _ = false |- _ => apply orb_false_iff in H as [??]
  | H : andb _ _ = true |- _ => apply andb_true_iff in H as [??]
  | H : negb _ = true |- _ => apply negb_true_iff in H
  | H : negb _ = false |- _ => apply negb_false_iff in H
  | H : bool_decide _ = true |- _ => apply bool_decide_eq_true in H
  | H : bool_decide _ = false |- _ => apply bool_decide_eq_false in H
  | H : contains _ _ = true |- _ => apply contains_true in H
  | H : contains _ _ = false |- _ => apply contains_false in H
  | H : existsb _ _ = false |- _ => apply existsb_false in H
  | H : forallb _ _ = true |- _ => apply forallb_true in H
  | H : is_some _ = true |- _ => apply is_some_true in H
  | H : is_some _ = false |- _ => apply is_some_false in H
  | H : try_for_each _ _ = Ok _ |- _ => apply try_for_each_ok in H
  | H : checked_add _ _ _ = Some _ |- _ => apply checked_add_some in H as [??]
  | H : checked_add _ _ _ = None |- _ => apply checked_add_none in H
  | H : checked_sub _ _ = Some _ |- _ => apply checked_sub_some in H as [??]
  | H : checked_sub _ _ = None |- _ => apply checked_sub_none in H
  | H : checked_mul _ _ _ = Some _ |- _ => apply checked_mul_some in H as [??]
  | H : mret _ = Ok _ |- _ => unfold mret, result_ret in H
  | u : unit |- _ => destruct u
  | _ => progress simplify_eq
  end.
Ltac carl_simpl := repeat carl_simpl_step.
