(* ===== verification/Ord.v ===== *)
(** * Rust's [Ord], sorting and the ordered collections

    The checkpoint, report and progress components of the runtime make their
    data canonical with [Vec::sort], [Vec::dedup], [BTreeSet] and [BTreeMap].
    This file gives [Ord] as a type class with its laws, the instances that
    [derive(Ord)] generates for integers, strings, tuples and options, the
    (stable) sort and [dedup], and the two collections: a [BTreeSet] is read
    as the strictly increasing list it iterates over, a [BTreeMap] is a [gmap]
    iterated in key order.  The lemmas say that the results depend only on the
    contents and never on the order of the input. *)
From S2P Require Import Prelude.
From stdpp Require Import base gmap sets list sorting strings.
From Stdlib Require Import ZArith Lia.

(** ** The trait and its laws *)

Class Ord (A : Type) := cmp : A -> A -> comparison.

Class OrdLaws (A : Type) `{Ord A} : Prop := {
  cmp_eq (x y : A) : cmp x y = Eq <-> x = y;
  cmp_antisym (x y : A) : cmp y x = CompOpp (cmp x y);
  cmp_lt_trans (x y z : A) : cmp x y = Lt -> cmp y z = Lt -> cmp x z = Lt
}.

(** [Ordering::then_with]. *)
Definition then_with (c d : comparison) : comparison :=
  match c with Eq => d | _ => c end.

#[export] Instance Z_ord : Ord Z := Z.compare.

#[export] Instance prod_ord {A B} `{Ord A, Ord B} : Ord (A * B) := fun p q =>
  then_with (cmp p.1 q.1) (cmp p.2 q.2).

#[export] Instance option_ord {A} `{Ord A} : Ord (option A) := fun x y =>
  match x, y with
  | None, None => Eq
  | None, Some _ => Lt
  | Some _, None => Gt
  | Some a, Some b => cmp a b
  end.

#[export] Instance list_ord {A} `{Ord A} : Ord (list A) :=
  fix go l k :=
    match l, k with
    | [], [] => Eq
    | [], _ :: _ => Lt
    | _ :: _, [] => Gt
    | x :: l', y :: k' => then_with (cmp x y) (go l' k')
    end.

(** The order a record derives from its fields, given as a tuple [key]. *)
Definition ord_by {A B} `{Ord B} (key : A -> B) : Ord A := fun x y => cmp (key x) (key y).

(** ** [slice::sort_by] (stable), [sort], [sort_by_key], [Vec::dedup] *)

Fixpoint insert_by {A} (c : A -> A -> comparison) (x : A) (l : list A) : list A :=
  match l with
  | [] => [x]
  | y :: l' => match c x y with Gt => y :: insert_by c x l' | _ => x :: y :: l' end
  end.

Definition sort_by {A} (c : A -> A -> comparison) (l : list A) : list A :=
  foldr (insert_by c) [] l.

Definition sort {A} `{Ord A} : list A -> list A := sort_by cmp.

Definition sort_by_key {A K} `{Ord K} (key : A -> K) : list A -> list A :=
  sort_by (fun x y => cmp (key x) (key y)).

Fixpoint dedup {A} `{EqDecision A} (l : list A) : list A :=
  match l with
  | x :: ((y :: _) as l') => if decide (x = y) then dedup l' else x :: dedup l'
  | _ => l
  end.

(** [iter.collect::<BTreeSet<_>>().into_iter().collect::<Vec<_>>()]. *)
Definition btree_set {A} `{Ord A, EqDecision A} (l : list A) : list A := dedup (sort l).

(** [map.iter()] and [map.values()] of a [BTreeMap]. *)
Definition btree_iter {K V} `{Countable K, Ord K} (m : gmap K V) : list (K * V) :=
  sort_by_key fst (map_to_list m).
Definition btree_values {K V} `{Countable K, Ord K} (m : gmap K V) : list V :=
  (btree_iter m).*2.

(** ** The derived instances are lawful *)

#[export] Instance Z_ord_laws : OrdLaws Z.
Proof.
  split.
  - apply Z.compare_eq_iff.
  - intros x y. apply Z.compare_antisym.
  - intros x y z. unfold cmp, Z_ord. rewrite !Z.compare_lt_iff. lia.
Qed.

Lemma ord_by_laws {A B} `{OrdLaws B} (key : A -> B) :
  Inj (=) (=) key -> @OrdLaws A (ord_by key).
Proof.
  intros Hinj. split; unfold cmp, ord_by.
  - intros x y. rewrite cmp_eq. split; [apply Hinj|congruence].
  - intros x y. apply cmp_antisym.
  - intros x y z. apply cmp_lt_trans.
Qed.

Lemma cmp_pair {A B} `{Ord A, Ord B} (a a' : A) (b b' : B) :
  cmp (a, b) (a', b') = then_with (cmp a a') (cmp b b').
Proof. done. Qed.

Lemma cmp_cons {A} `{Ord A} (x y : A) l k :
  cmp (x :: l) (y :: k) = then_with (cmp x y) (cmp l k).
Proof. done. Qed.

Lemma cmp_refl {A} `{OrdLaws A} (x : A) : cmp x x = Eq.
Proof. by apply cmp_eq. Qed.

Lemma then_with_eq c d : then_with c d = Eq <-> c = Eq /\ d = Eq.
Proof. destruct c; simpl; naive_solver. Qed.

Lemma then_with_opp c d : then_with (CompOpp c) (CompOpp d) = CompOpp (then_with c d).
Proof. by destruct c. Qed.

Lemma then_with_lt_trans {A} `{OrdLaws A} (x y z : A) d1 d2 d3 :
  (d1 = Lt -> d2 = Lt -> d3 = Lt) ->
  then_with (cmp x y) d1 = Lt -> then_with (cmp y z) d2 = Lt ->
  then_with (cmp x z) d3 = Lt.
Proof.
  intros Hd Hxy Hyz.
  destruct (cmp x y) eqn:Exy, (cmp y z) eqn:Eyz; simplify_eq/=.
  - apply cmp_eq in Exy as ->. apply cmp_eq in Eyz as ->. rewrite cmp_refl. auto.
  - apply cmp_eq in Exy as ->. by rewrite Eyz.
  - apply cmp_eq in Eyz as ->. by rewrite Exy.
  - by rewrite (cmp_lt_trans _ _ _ Exy Eyz).
Qed.

#[export] Instance prod_ord_laws {A B} `{OrdLaws A, OrdLaws B} : OrdLaws (A * B).
Proof.
  split.
  - intros [a b] [a' b']. rewrite cmp_pair, then_with_eq, !cmp_eq. naive_solver.
  - intros [a b] [a' b']. by rewrite !cmp_pair, (cmp_antisym a), (cmp_antisym b), then_with_opp.
  - intros [a b] [a' b'] [a'' b'']. rewrite !cmp_pair.
    apply then_with_lt_trans, cmp_lt_trans.
Qed.

#[export] Instance option_ord_laws {A} `{OrdLaws A} : OrdLaws (option A).
Proof.
  split.
  - intros [a|] [b|]; try done. change (cmp a b = Eq <-> Some a = Some b).
    rewrite cmp_eq. naive_solver.
  - intros [a|] [b|]; try done. apply (cmp_antisym a b).
  - intros [a|] [b|] [c|]; try done. apply (cmp_lt_trans a b c).
Qed.

#[export] Instance list_ord_laws {A} `{OrdLaws A} : OrdLaws (list A).
Proof.
  split.
  - induction x as [|a x IH]; intros [|b y]; try done.
    rewrite cmp_cons, then_with_eq, cmp_eq, IH. naive_solver.
  - induction x as [|a x IH]; intros [|b y]; try done.
    by rewrite !cmp_cons, (cmp_antisym a), IH, then_with_opp.
  - induction x as [|a x IH]; intros [|b y] [|c z]; try done.
    rewrite !cmp_cons. apply then_with_lt_trans, IH.
Qed.

(** ** Sorting *)

Definition ord_lt {A} `{Ord A} (x y : A) : Prop := cmp x y = Lt.
Definition ord_le {A} `{Ord A} (x y : A) : Prop := cmp x y <> Gt.

Section Order.
Context {A : Type} `{OrdLaws A}.

#[export] Instance ord_lt_strict : StrictOrder (ord_lt (A := A)).
Proof.
  split.
  - intros x. unfold complement, ord_lt. by rewrite cmp_refl.
  - intros x y z. apply cmp_lt_trans.
Qed.

Lemma ord_le_lt_eq (x y : A) : ord_le x y <-> ord_lt x y \/ x = y.
Proof.
  unfold ord_le, ord_lt. rewrite <-cmp_eq. destruct (cmp x y); naive_solver.
Qed.

#[export] Instance ord_le_trans : Transitive (ord_le (A := A)).
Proof.
  intros x y z. rewrite !ord_le_lt_eq. intros [?| ->] [?| ->]; auto.
  left. by trans y.
Qed.

#[export] Instance ord_le_antisym : AntiSymm (=) (ord_le (A := A)).
Proof.
  intros x y. unfold ord_le. rewrite (cmp_antisym x y). intros H1 H2.
  apply cmp_eq. by destruct (cmp x y).
Qed.

Lemma ord_not_le (x y : A) : cmp x y = Gt -> ord_le y x.
Proof. unfold ord_le. rewrite (cmp_antisym x y). by intros ->. Qed.
End Order.

Section SortBy.
Context {A : Type} (c : A -> A -> comparison).

Lemma insert_by_perm x l : insert_by c x l ≡ₚ x :: l.
Proof.
  induction l as [|y l IH]; simpl; [done|].
  destruct (c x y); try done. rewrite IH. apply Permutation_swap.
Qed.

Lemma sort_by_perm l : sort_by c l ≡ₚ l.
Proof.
  induction l as [|x l IH]; simpl; [done|]. by rewrite insert_by_perm, IH.
Qed.

Lemma elem_of_sort_by x l : x ∈ sort_by c l <-> x ∈ l.
Proof. by rewrite sort_by_perm. Qed.

Lemma Forall_sort_by (P : A -> Prop) l : Forall P (sort_by c l) <-> Forall P l.
Proof. by rewrite sort_by_perm. Qed.
End SortBy.

Section Sort.
Context {A : Type} `{OrdLaws A}.

Lemma insert_by_sorted (x : A) l :
  StronglySorted ord_le l -> StronglySorted ord_le (insert_by cmp x l).
Proof.
  induction l as [|y l IH]; simpl; intros Hl; [repeat constructor|].
  apply StronglySorted_inv in Hl as [Hl Hy].
  assert (cmp x y <> Gt -> StronglySorted ord_le (x :: y :: l)) as Hle.
  { intros Hxy. constructor; [by constructor|]. constructor; [done|].
    eapply Forall_impl; [exact Hy|]. intros z Hyz. by trans y. }
  destruct (cmp x y) eqn:Hxy; try by apply Hle.
  constructor; [by apply IH|]. rewrite insert_by_perm.
  constructor; [by apply ord_not_le|done].
Qed.

Lemma sort_sorted (l : list A) : StronglySorted ord_le (sort l).
Proof. induction l; simpl; [constructor|by apply insert_by_sorted]. Qed.

(** A sorted list is determined by its contents, so [sort] does not depend
    on the order of its input. *)
Lemma sort_unique (l k : list A) :
  StronglySorted ord_le l -> StronglySorted ord_le k -> l ≡ₚ k -> l = k.
Proof. intros. by apply (StronglySorted_unique ord_le). Qed.

Lemma sort_perm_eq (l k : list A) : l ≡ₚ k -> sort l = sort k.
Proof.
  intros Hlk. apply sort_unique; try apply sort_sorted.
  unfold sort. by rewrite !sort_by_perm.
Qed.

Lemma sort_id (l : list A) : StronglySorted ord_le l -> sort l = l.
Proof. intros. apply sort_unique; [apply sort_sorted|done|apply sort_by_perm]. Qed.
End Sort.

(** ** [dedup] and [BTreeSet] *)

Section Dedup.
Context {A : Type} `{Ho : Ord A, !OrdLaws A, !EqDecision A}.
Implicit Types (l k : list A).

Lemma dedup_cons2 (a b : A) l :
  dedup (a :: b :: l) = if decide (a = b) then dedup (b :: l) else a :: dedup (b :: l).
Proof. done. Qed.

Lemma elem_of_dedup x l : x ∈ dedup l <-> x ∈ l.
Proof.
  induction l as [|a [|b l] IH]; [done|done|]. rewrite dedup_cons2.
  case_decide as Hab; subst; [rewrite IH; set_solver|].
  rewrite !(elem_of_cons _ _ a), IH. done.
Qed.

Lemma length_dedup l : (length (dedup l) <= length l)%nat.
Proof.
  induction l as [|a [|b l] IH]; [done|done|]. rewrite dedup_cons2.
  case_decide; simpl in *; lia.
Qed.

Lemma dedup_strict l : StronglySorted ord_le l -> StronglySorted ord_lt (dedup l).
Proof.
  induction l as [|a [|b l] IH]; [constructor|repeat constructor|].
  intros [Hl Ha]%StronglySorted_inv. rewrite dedup_cons2.
  case_decide as Hab; [by apply IH|].
  constructor; [by apply IH|].
  assert (ord_lt a b) as Hlt.
  { apply Forall_cons in Ha as [[?|?]%ord_le_lt_eq _]; [done|congruence]. }
  apply Forall_forall. intros x Hx. rewrite elem_of_dedup, elem_of_cons in Hx.
  destruct Hx as [->|Hx]; [done|].
  apply StronglySorted_inv in Hl as [_ Hb]. rewrite Forall_forall in Hb.
  destruct (proj1 (ord_le_lt_eq b x) (Hb x Hx)) as [?|<-]; [by trans b|done].
Qed.

Lemma strict_NoDup l : StronglySorted ord_lt l -> NoDup l.
Proof.
  induction 1 as [|a l _ IH Ha]; constructor; [|done].
  rewrite Forall_forall in Ha. intros Hin. by apply (irreflexivity ord_lt a), Ha.
Qed.

Lemma strict_le l : StronglySorted ord_lt l -> StronglySorted ord_le l.
Proof.
  induction 1 as [|a l _ IH Ha]; constructor; [done|].
  eapply Forall_impl; [exact Ha|]. intros x. rewrite ord_le_lt_eq. auto.
Qed.

Lemma strict_ext l k :
  StronglySorted ord_lt l -> StronglySorted ord_lt k ->
  (forall x, x ∈ l <-> x ∈ k) -> l = k.
Proof.
  intros Hl Hk Hlk. apply sort_unique; auto using strict_le.
  apply NoDup_Permutation; auto using strict_NoDup.
Qed.

Lemma elem_of_btree_set x l : x ∈ btree_set l <-> x ∈ l.
Proof. unfold btree_set, sort. by rewrite elem_of_dedup, elem_of_sort_by. Qed.

Lemma btree_set_strict l : StronglySorted ord_lt (btree_set l).
Proof. apply dedup_strict, sort_sorted. Qed.

Lemma btree_set_NoDup l : NoDup (btree_set l).
Proof. apply strict_NoDup, btree_set_strict. Qed.

Lemma btree_set_id l : StronglySorted ord_lt l -> btree_set l = l.
Proof.
  intros Hl. apply strict_ext; [apply btree_set_strict|done|intros x; apply elem_of_btree_set].
Qed.
End Dedup.

(** Two lists with the same elements, whatever the order and multiplicity. *)
Definition same_elements {A} (l k : list A) : Prop := forall x, x ∈ l <-> x ∈ k.

#[export] Instance same_elements_equiv {A} : Equivalence (same_elements (A := A)).
Proof. split; unfold same_elements; intros ?; naive_solver. Qed.

#[export] Instance app_same_elements {A} :
  Proper (same_elements ==> same_elements ==> same_elements) (app (A := A)).
Proof. intros l l' Hl k k' Hk x. rewrite !elem_of_app, (Hl x), (Hk x). done. Qed.

#[export] Instance btree_set_proper {A} `{Ho : Ord A, !OrdLaws A, !EqDecision A} :
  Proper (same_elements ==> eq) (btree_set (A := A)).
Proof.
  intros l k Hlk. apply strict_ext; try apply btree_set_strict.
  intros x. rewrite !elem_of_btree_set. apply Hlk.
Qed.

Lemma btree_set_same {A} `{Ho : Ord A, !OrdLaws A, !EqDecision A} (l : list A) :
  same_elements (btree_set l) l.
Proof. intros x. apply elem_of_btree_set. Qed.

Lemma btree_set_idemp {A} `{Ho : Ord A, !OrdLaws A, !EqDecision A} (l : list A) :
  btree_set (btree_set l) = btree_set l.
Proof. apply btree_set_proper, btree_set_same. Qed.

Lemma dedup_sort_idemp {A} `{Ho : Ord A, !OrdLaws A, !EqDecision A} (l : list A) :
  dedup (sort (dedup (sort l))) = dedup (sort l).
Proof. apply btree_set_idemp. Qed.

(** ** [sort_by_key] *)

Section SortByKey.
Context {A K : Type} `{OrdLaws K} (key : A -> K).
Implicit Types (l k : list A).

Lemma fmap_sort_by_key l : key <$> sort_by_key key l = sort (key <$> l).
Proof.
  unfold sort_by_key, sort, sort_by. induction l as [|x l IH]; [done|].
  rewrite fmap_cons. simpl. rewrite <-IH. generalize (foldr (insert_by (fun x y => cmp (key x) (key y))) [] l).
  clear. intros l. induction l as [|y l IH]; [done|]. simpl.
  destruct (cmp (key x) (key y)); [done|done|]. simpl. f_equal. apply IH.
Qed.

Lemma sort_by_key_sorted l : StronglySorted ord_le (key <$> sort_by_key key l).
Proof. rewrite fmap_sort_by_key. apply sort_sorted. Qed.

(** The sort is stable, so it leaves sorted lists as they are. *)
Lemma sort_by_key_id l : StronglySorted ord_le (key <$> l) -> sort_by_key key l = l.
Proof.
  unfold sort_by_key, sort_by. induction l as [|x l IH]; intros Hs; [done|].
  rewrite fmap_cons in Hs. apply StronglySorted_inv in Hs as [Hs Hx]. simpl. rewrite (IH Hs).
  destruct l as [|y l]; [done|]. simpl. rewrite fmap_cons in Hx. apply Forall_cons in Hx as [Hxy _].
  unfold ord_le in Hxy. by destruct (cmp (key x) (key y)).
Qed.

Lemma sort_by_key_idemp l : sort_by_key key (sort_by_key key l) = sort_by_key key l.
Proof. apply sort_by_key_id, sort_by_key_sorted. Qed.

Lemma sort_NoDup_strict (ks : list K) : NoDup ks -> StronglySorted ord_lt (sort ks).
Proof.
  intros Hnd. assert (NoDup (sort ks)) as Hnd' by (unfold sort; by rewrite sort_by_perm).
  pose proof (sort_sorted ks) as Hs. induction Hs as [|x l Hs IH Hx]; constructor.
  - apply IH. by apply NoDup_cons in Hnd' as [_ ?].
  - apply NoDup_cons in Hnd' as [Hnin _]. rewrite Forall_forall in *. intros y Hy.
    destruct (proj1 (ord_le_lt_eq x y) (Hx y Hy)) as [?| ->]; [done|]. by destruct Hnin.
Qed.

(** With distinct keys the result is determined by the contents. *)
Lemma sort_by_key_perm l k : NoDup (key <$> l) -> l ≡ₚ k -> sort_by_key key l = sort_by_key key k.
Proof.
  intros Hnd Hlk.
  assert (sort_by_key key l ≡ₚ sort_by_key key k) as Hp by (unfold sort_by_key; by rewrite !sort_by_perm).
  assert (key <$> sort_by_key key l = key <$> sort_by_key key k) as Hkey.
  { rewrite !fmap_sort_by_key. apply sort_perm_eq. by rewrite Hlk. }
  assert (NoDup (key <$> sort_by_key key l)) as Hnd'.
  { rewrite fmap_sort_by_key. unfold sort. by rewrite sort_by_perm. }
  revert Hp Hkey Hnd'. generalize (sort_by_key key l) (sort_by_key key k). clear.
  intros l. induction l as [|x l IH]; intros [|y k] Hp Hkey Hnd; try done.
  rewrite !fmap_cons in *. injection Hkey as Hxy Hkey. apply NoDup_cons in Hnd as [Hnin Hnd].
  assert (x = y) as ->.
  { assert (y ∈ x :: l) as [->|Hy]%elem_of_cons by (rewrite Hp; set_solver); [done|].
    destruct Hnin. rewrite Hxy. apply list_elem_of_fmap. eauto. }
  f_equal. apply IH; [by apply Permutation.Permutation_cons_inv in Hp|done|done].
Qed.

(** More generally the key has to determine the element. *)
Lemma sort_by_key_determined l k :
  (forall x y, x ∈ l -> y ∈ l -> key x = key y -> x = y) -> l ≡ₚ k ->
  sort_by_key key l = sort_by_key key k.
Proof.
  intros Hinj Hlk.
  assert (key <$> sort_by_key key l = key <$> sort_by_key key k) as Hkey.
  { rewrite !fmap_sort_by_key. apply sort_perm_eq. by rewrite Hlk. }
  assert (forall x, x ∈ sort_by_key key l -> x ∈ l) as Hl by (intros x; apply elem_of_sort_by).
  assert (forall x, x ∈ sort_by_key key k -> x ∈ l) as Hk.
  { intros x. rewrite Hlk. apply elem_of_sort_by. }
  revert Hkey Hl Hk. generalize (sort_by_key key l) (sort_by_key key k). clear Hlk k.
  intros a. induction a as [|x a IH]; intros [|y b] Hkey Ha Hb; try done.
  rewrite !fmap_cons in Hkey. injection Hkey as Hxy Hkey. f_equal; [apply Hinj|apply IH]; set_solver.
Qed.
End SortByKey.

(** ** [BTreeMap] iteration *)

Section BTreeMap.
Context {K V : Type} `{Countable K, Ord K}.
Implicit Types (m : gmap K V).

Lemma elem_of_btree_iter m k v : (k, v) ∈ btree_iter m <-> m !! k = Some v.
Proof. unfold btree_iter, sort_by_key. by rewrite elem_of_sort_by, elem_of_map_to_list. Qed.

Lemma btree_iter_perm m : btree_iter m ≡ₚ map_to_list m.
Proof. apply sort_by_perm. Qed.

Lemma elem_of_btree_values m v : v ∈ btree_values m <-> exists k, m !! k = Some v.
Proof.
  unfold btree_values. rewrite list_elem_of_fmap. split.
  - intros ([k v'] & -> & Hin). exists k. by apply elem_of_btree_iter.
  - intros [k Hk]. exists (k, v). split; [done|]. by apply elem_of_btree_iter.
Qed.

(** The keys of a map are iterated in strictly increasing order. *)
Lemma btree_iter_keys `{!OrdLaws K} m : StronglySorted ord_lt (btree_iter m).*1.
Proof.
  unfold btree_iter. rewrite fmap_sort_by_key. apply sort_NoDup_strict, NoDup_fst_map_to_list.
Qed.

(** Iterating a map through a function of its values. *)
Lemma btree_iter_fmap {W} (f : V -> W) m : btree_iter (f <$> m) = prod_map id f <$> btree_iter m.
Proof.
  unfold btree_iter. rewrite map_to_list_fmap.
  assert (forall l : list (K * V), sort_by_key fst (prod_map id f <$> l)
            = prod_map id f <$> sort_by_key fst l) as Hsort.
  { unfold sort_by_key, sort_by. intros l. induction l as [|x l IH]; [done|].
    rewrite fmap_cons. simpl. rewrite IH. generalize (foldr (insert_by (fun x y : K * V => cmp x.1 y.1)) [] l).
    clear. intros l. induction l as [|y l IH]; [done|]. simpl.
    destruct (cmp x.1 y.1); [done|done|]. simpl. f_equal. apply IH. }
  by rewrite Hsort.
Qed.

Lemma btree_values_fmap {W} (f : V -> W) m : btree_values (f <$> m) = f <$> btree_values m.
Proof. unfold btree_values. by rewrite btree_iter_fmap, <-!list_fmap_compose. Qed.
End BTreeMap.
