(* ===== verification/Text.v ===== *)
(** * Rust's [str]

    A [str] is the list of its Unicode scalar values (as [Z]); [utf8] is its
    byte representation and [len] its length in bytes, which is what
    [str::len] returns.  [from_utf8] is [std::str::from_utf8], and the first
    group of lemmas shows the two are inverse on valid text, so that reading a
    [str] as scalar values or as bytes is the same thing.  The rest of the file
    is the part of the [str] API the runtime uses: [trim], [is_control],
    [lines], [find], [split_once], [to_ascii_lowercase] and the like.  The code
    slices strings only at the positions of ASCII delimiters, so the byte
    offsets of the source and the positions in the list of scalar values cut a
    string at the same places. *)
From S2P Require Import Prelude.
From stdpp Require Import base list strings.
From Stdlib Require Import ZArith Lia Ascii String.
#[local] Open Scope list_scope.
#[local] Open Scope Z_scope.

Abbreviation char := Z (only parsing).
Abbreviation str := (list Z) (only parsing).
Abbreviation bytes := (list Z) (only parsing).

(** A string literal of the source. *)
Fixpoint lit (s : string) : str :=
  match s with
  | EmptyString => []
  | String a s' => Z.of_N (N_of_ascii a) :: lit s'
  end.

(** ** UTF-8 *)

Definition is_scalar (c : char) : bool :=
  ((0 <=? c) && (c <=? 0xD7FF)) || ((0xE000 <=? c) && (c <=? 0x10FFFF)).

Definition valid_str (s : str) : Prop := Forall (fun c => is_scalar c = true) s.

Definition encode_char (c : char) : bytes :=
  if c <? 0x80 then [c]
  else if c <? 0x800 then [0xC0 + c / 64; 0x80 + c mod 64]
  else if c <? 0x10000 then [0xE0 + c / 4096; 0x80 + (c / 64) mod 64; 0x80 + c mod 64]
  else [0xF0 + c / 262144; 0x80 + (c / 4096) mod 64; 0x80 + (c / 64) mod 64; 0x80 + c mod 64].

Fixpoint utf8 (s : str) : bytes :=
  match s with [] => [] | c :: s' => encode_char c ++ utf8 s' end.

(** [str::len]. *)
Definition len (s : str) : Z := Zlen (utf8 s).

Definition is_cont (b : Z) : bool := (0x80 <=? b) && (b <=? 0xBF).

Definition decode2 (b0 b1 : Z) : option char :=
  let c := (b0 - 0xC0) * 64 + (b1 - 0x80) in
  if (0xC2 <=? b0) && (b0 <=? 0xDF) && is_cont b1 then Some c else None.

Definition decode3 (b0 b1 b2 : Z) : option char :=
  let c := (b0 - 0xE0) * 4096 + (b1 - 0x80) * 64 + (b2 - 0x80) in
  if (0xE0 <=? b0) && (b0 <=? 0xEF) && is_cont b1 && is_cont b2
     && (0x800 <=? c) && is_scalar c then Some c else None.

Definition decode4 (b0 b1 b2 b3 : Z) : option char :=
  let c := (b0 - 0xF0) * 262144 + (b1 - 0x80) * 4096 + (b2 - 0x80) * 64 + (b3 - 0x80) in
  if (0xF0 <=? b0) && (b0 <=? 0xF4) && is_cont b1 && is_cont b2 && is_cont b3
     && (0x10000 <=? c) && is_scalar c then Some c else None.

(** [std::str::from_utf8]: the shortest-form, surrogate-free decoder. *)
Fixpoint from_utf8 (b : bytes) : option str :=
  match b with
  | [] => Some []
  | b0 :: r0 =>
    if (0 <=? b0) && (b0 <? 0x80) then cons b0 <$> from_utf8 r0
    else match r0 with
    | [] => None
    | b1 :: r1 =>
      match decode2 b0 b1 with
      | Some c => cons c <$> from_utf8 r1
      | None =>
        match r1 with
        | [] => None
        | b2 :: r2 =>
          match decode3 b0 b1 b2 with
          | Some c => cons c <$> from_utf8 r2
          | None =>
            match r2 with
            | [] => None
            | b3 :: r3 =>
              match decode4 b0 b1 b2 b3 with
              | Some c => cons c <$> from_utf8 r3
              | None => None
              end
            end
          end
        end
      end
    end
  end.

(** ** Characters *)

(** [char::is_control]: general category Cc. *)
Definition is_control (c : char) : bool :=
  ((0 <=? c) && (c <=? 0x1F)) || ((0x7F <=? c) && (c <=? 0x9F)).

(** [char::is_whitespace]: the Unicode property White_Space. *)
Definition is_whitespace (c : char) : bool :=
  ((9 <=? c) && (c <=? 13)) || (c =? 0x20) || (c =? 0x85) || (c =? 0xA0)
  || (c =? 0x1680) || ((0x2000 <=? c) && (c <=? 0x200A)) || (c =? 0x2028)
  || (c =? 0x2029) || (c =? 0x202F) || (c =? 0x205F) || (c =? 0x3000).

Definition is_ascii_digit (c : char) : bool := (48 <=? c) && (c <=? 57).
Definition is_ascii_uppercase (c : char) : bool := (65 <=? c) && (c <=? 90).
Definition is_ascii_lowercase (c : char) : bool := (97 <=? c) && (c <=? 122).
Definition is_ascii_alphanumeric (c : char) : bool :=
  is_ascii_digit c || is_ascii_uppercase c || is_ascii_lowercase c.

Definition to_ascii_lowercase (s : str) : str :=
  map (fun c => if is_ascii_uppercase c then c + 32 else c) s.

(** A byte of a lower-case hexadecimal digest,
    [byte.is_ascii_digit() || (b'a'..=b'f').contains(&byte)]. *)
Definition is_hex_byte (b : Z) : bool := is_ascii_digit b || ((97 <=? b) && (b <=? 102)).

(** [value.len() == 64 && value.bytes().all(..)], the shape of a SHA-256
    digest in text that every component of the runtime checks. *)
Definition is_hex64 (s : str) : bool := (len s =? 64) && forallb is_hex_byte (utf8 s).

(** ** Slices of a string *)

Definition is_empty {A} (l : list A) : bool := match l with [] => true | _ => false end.

(** [trim_start_matches] and [trim_end_matches] with a predicate. *)
Fixpoint trim_start_matches (p : char -> bool) (s : str) : str :=
  match s with
  | c :: s' => if p c then trim_start_matches p s' else s
  | [] => []
  end.
Definition trim_end_matches (p : char -> bool) (s : str) : str :=
  reverse (trim_start_matches p (reverse s)).
Definition trim_matches (p : char -> bool) (s : str) : str :=
  trim_end_matches p (trim_start_matches p s).
Definition trim (s : str) : str := trim_matches is_whitespace s.

Fixpoint starts_with (p s : str) : bool :=
  match p, s with
  | [], _ => true
  | a :: p', b :: s' => (a =? b) && starts_with p' s'
  | _ :: _, [] => false
  end.
Definition ends_with (p s : str) : bool := starts_with (reverse p) (reverse s).

(** [str::find] with a string pattern: the position of its first occurrence. *)
Fixpoint find_str (p s : str) : option nat :=
  if starts_with p s then Some 0%nat
  else match s with
       | [] => None
       | _ :: s' => S <$> find_str p s'
       end.
Definition contains_str (p s : str) : bool := is_some (find_str p s).

(** [str::find] with a character predicate. *)
Fixpoint find_char (p : char -> bool) (s : str) : option nat :=
  match s with
  | [] => None
  | c :: s' => if p c then Some 0%nat else S <$> find_char p s'
  end.

(** [split_once(d)] and [rsplit_once(d)] for a character delimiter. *)
Fixpoint split_once (d : char) (s : str) : option (str * str) :=
  match s with
  | [] => None
  | c :: s' =>
    if c =? d then Some ([], s')
    else match split_once d s' with Some (a, b) => Some (c :: a, b) | None => None end
  end.
Definition rsplit_once (d : char) (s : str) : option (str * str) :=
  match split_once d (reverse s) with
  | Some (a, b) => Some (reverse b, reverse a)
  | None => None
  end.

(** [s.split(p).next()]: the text before the first delimiter. *)
Fixpoint split_next (p : char -> bool) (s : str) : str :=
  match s with
  | [] => []
  | c :: s' => if p c then [] else c :: split_next p s'
  end.

(** [s.split(d)] for a character delimiter: always at least one piece. *)
Fixpoint split_char (d : char) (s : str) : list str :=
  match s with
  | [] => [[]]
  | c :: s' =>
    if c =? d then [] :: split_char d s'
    else match split_char d s' with
         | piece :: rest => (c :: piece) :: rest
         | [] => [[c]]
         end
  end.

(** [str::lines]: split at ["\n"], drop a final empty piece, and drop one
    ["\r"] before the newline it ends with. *)
Definition strip_cr (s : str) : str :=
  match reverse s with 13 :: r => reverse r | _ => s end.
Fixpoint lines_of (acc : str) (s : str) : list str :=
  match s with
  | [] => if is_empty acc then [] else [reverse acc]
  | c :: s' => if c =? 10 then strip_cr (reverse acc) :: lines_of [] s'
               else lines_of (c :: acc) s'
  end.
Definition lines (s : str) : list str := lines_of [] s.

(** [Display] of an unsigned integer of at most 64 bits: at most 20 digits. *)
Fixpoint decimal_digits (fuel : nat) (n : Z) (acc : str) : str :=
  match fuel with
  | O => acc
  | S fuel =>
      let acc := 48 + n mod 10 :: acc in
      if n <? 10 then acc else decimal_digits fuel (n / 10) acc
  end.
Definition display_u64 (n : Z) : str := decimal_digits 20 n [].

(** [str::replace(a, b)] for single characters. *)
Definition replace_char (a b : char) (s : str) : str :=
  map (fun c => if c =? a then b else c) s.

(** [s.split(p)] without the empty pieces: [split_whitespace] and
    [split_ascii_whitespace] for their separators. *)
Fixpoint split_tokens_from (p : char -> bool) (acc s : str) : list str :=
  match s with
  | [] => if is_empty acc then [] else [reverse acc]
  | c :: s' =>
      if p c then
        if is_empty acc then split_tokens_from p [] s'
        else reverse acc :: split_tokens_from p [] s'
      else split_tokens_from p (c :: acc) s'
  end.
Definition split_tokens (p : char -> bool) (s : str) : list str := split_tokens_from p [] s.
Definition is_ascii_whitespace (c : char) : bool :=
  (c =? 9) || (c =? 10) || (c =? 12) || (c =? 13) || (c =? 32).
Definition split_whitespace (s : str) : list str := split_tokens is_whitespace s.
Definition split_ascii_whitespace (s : str) : list str := split_tokens is_ascii_whitespace s.

(** [str::strip_prefix]. *)
Definition strip_prefix (p s : str) : option str :=
  if starts_with p s then Some (drop (List.length p) s) else None.

(** [slice.join(separator)]. *)
Fixpoint join (separator : str) (pieces : list str) : str :=
  match pieces with
  | [] => []
  | [piece] => piece
  | piece :: rest => piece ++ separator ++ join separator rest
  end.

(** [str::parse::<usize>()] with 64 bits: an optional plus sign and at least one
    decimal digit, without overflow. *)
Fixpoint parse_digits (acc : Z) (s : str) : option Z :=
  match s with
  | [] => Some acc
  | c :: s' =>
      if is_ascii_digit c then
        let acc := acc * 10 + (c - 48) in
        if acc <=? u64_max then parse_digits acc s' else None
      else None
  end.
Definition parse_usize (s : str) : option Z :=
  let digits := match s with 43 :: digits => digits | _ => s end in
  if is_empty digits then None else parse_digits 0 digits.

(** ** UTF-8 round trips *)

Lemma is_scalar_range c :
  is_scalar c = true -> 0 <= c <= 0xD7FF \/ 0xE000 <= c <= 0x10FFFF.
Proof. unfold is_scalar. lia. Qed.

#[local] Ltac Zify.zify_post_hook ::= Z.to_euclidean_division_equations.

Lemma decode2_spec b0 b1 c :
  decode2 b0 b1 = Some c -> is_scalar c = true /\ encode_char c = [b0; b1].
Proof.
  unfold decode2, encode_char, is_cont, is_scalar. intros H. case_match; simplify_eq.
  split; [lia|]. repeat (case_match; try lia). f_equal; [lia|]. f_equal. lia.
Qed.

Lemma decode3_spec b0 b1 b2 c :
  decode3 b0 b1 b2 = Some c -> is_scalar c = true /\ encode_char c = [b0; b1; b2].
Proof.
  unfold decode3, encode_char, is_cont. intros H. case_match; carl_simpl.
  split; [done|]. unfold is_scalar in *. repeat (case_match; try lia).
  repeat (f_equal; [lia|]). f_equal. lia.
Qed.

Lemma decode4_spec b0 b1 b2 b3 c :
  decode4 b0 b1 b2 b3 = Some c -> is_scalar c = true /\ encode_char c = [b0; b1; b2; b3].
Proof.
  unfold decode4, encode_char, is_cont. intros H. case_match; carl_simpl.
  split; [done|]. unfold is_scalar in *. repeat (case_match; try lia).
  repeat (f_equal; [lia|]). f_equal. lia.
Qed.

(** Whatever [from_utf8] accepts is well-formed text whose bytes are the input. *)
Lemma from_utf8_sound b s : from_utf8 b = Some s -> valid_str s /\ utf8 s = b.
Proof.
  revert s. induction b as [b IH] using (Wf_nat.induction_ltof1 _ (@List.length Z)).
  intros s H. destruct b as [|b0 r0]; simplify_eq/=; [by split; [constructor|]|].
  assert (forall c k r, (List.length r < List.length (b0 :: r0))%nat -> cons c <$> from_utf8 r = Some s ->
            is_scalar c = true /\ encode_char c = k ->
            valid_str s /\ utf8 s = k ++ r) as Hstep.
  { intros c k r Hlt Hr [Hc <-]. apply fmap_Some in Hr as (s' & Hr & ->).
    destruct (IH r Hlt s' Hr) as [Hv <-]. split; [by constructor|done]. }
  destruct ((0 <=? b0) && (b0 <? 0x80)) eqn:E0.
  { apply (Hstep b0 [b0] r0); [simpl; lia|done|].
    unfold is_scalar, encode_char. split; [lia|]. case_match; [done|lia]. }
  destruct r0 as [|b1 r1]; [done|]. destruct (decode2 b0 b1) as [c|] eqn:E2.
  { eapply (Hstep c [b0; b1] r1); [simpl; lia|done|by apply decode2_spec]. }
  destruct r1 as [|b2 r2]; [done|]. destruct (decode3 b0 b1 b2) as [c|] eqn:E3.
  { eapply (Hstep c [b0; b1; b2] r2); [simpl; lia|done|by apply decode3_spec]. }
  destruct r2 as [|b3 r3]; [done|]. destruct (decode4 b0 b1 b2 b3) as [c|] eqn:E4; [|done].
  eapply (Hstep c [b0; b1; b2; b3] r3); [simpl; lia|done|by apply decode4_spec].
Qed.

Lemma decode2_high b0 b1 : 0xDF < b0 -> decode2 b0 b1 = None.
Proof. intros. unfold decode2. case_match; [lia|done]. Qed.

Lemma decode3_high b0 b1 b2 : 0xEF < b0 -> decode3 b0 b1 b2 = None.
Proof. intros. unfold decode3. case_match; [lia|done]. Qed.

Lemma from_utf8_encode c r :
  is_scalar c = true -> from_utf8 (encode_char c ++ r) = cons c <$> from_utf8 r.
Proof.
  intros Hc. unfold encode_char. pose proof (is_scalar_range c Hc) as Hr.
  repeat case_match; cbn [app from_utf8].
  - case_match; [done|lia].
  - case_match; [lia|].
    assert (decode2 (192 + c / 64) (128 + c mod 64) = Some c) as ->; [|done].
    unfold decode2, is_cont. case_match; [f_equal|]; lia.
  - case_match; [lia|]. rewrite decode2_high by lia.
    assert (decode3 (224 + c / 4096) (128 + (c / 64) mod 64) (128 + c mod 64) = Some c)
      as ->; [|done].
    unfold decode3, is_cont.
    replace (_ + _ + _) with c by lia. rewrite Hc. case_match; [done|lia].
  - case_match; [lia|]. rewrite decode2_high, decode3_high by lia.
    assert (decode4 (240 + c / 262144) (128 + (c / 4096) mod 64) (128 + (c / 64) mod 64)
              (128 + c mod 64) = Some c) as ->; [|done].
    unfold decode4, is_cont.
    replace (_ + _ + _ + _) with c by lia. rewrite Hc. case_match; [done|lia].
Qed.

(** Every well-formed text is read back from its bytes. *)
Lemma from_utf8_complete s : valid_str s -> from_utf8 (utf8 s) = Some s.
Proof.
  induction 1 as [|c s Hc _ IH]; [done|]. cbn [utf8].
  by rewrite from_utf8_encode, IH.
Qed.

Lemma utf8_app s t : utf8 (s ++ t) = utf8 s ++ utf8 t.
Proof. induction s; simpl; [done|]. by rewrite IHs, app_assoc. Qed.

Lemma len_app s t : len (s ++ t) = len s + len t.
Proof. unfold len. by rewrite utf8_app, Zlen_app. Qed.

Lemma len_nonneg s : 0 <= len s.
Proof. apply Zlen_nonneg. Qed.

(** On ASCII text the bytes are the characters. *)
Lemma utf8_ascii s : Forall (fun c => 0 <= c < 0x80) s -> utf8 s = s.
Proof.
  induction 1 as [|c s Hc _ IH]; [done|]. simpl. unfold encode_char.
  case_match; [by rewrite IH|lia].
Qed.

Lemma encode_char_ascii c b : b ∈ encode_char c -> b < 0x80 -> encode_char c = [c] /\ b = c.
Proof.
  unfold encode_char. intros Hb Hlt.
  repeat case_match; rewrite ?elem_of_cons, elem_of_nil in Hb; [naive_solver|..]; exfalso.
  all: repeat destruct Hb as [->|Hb]; lia || done.
Qed.

(** A string whose bytes are all ASCII is ASCII. *)
Lemma utf8_all_ascii s (p : Z -> bool) :
  (forall b, p b = true -> 0 <= b < 0x80) -> forallb p (utf8 s) = true -> utf8 s = s.
Proof.
  intros Hp Hs. apply forallb_true in Hs. induction s as [|c s IH]; [done|].
  simpl in *. apply Forall_app in Hs as [Hc Hs]. rewrite (IH Hs).
  assert (exists b, b ∈ encode_char c) as [b Hb].
  { unfold encode_char. repeat case_match; eexists; apply elem_of_cons; by left. }
  rewrite Forall_forall in Hc.
  destruct (encode_char_ascii c b Hb) as [-> _]; [|done]. apply Hp, Hc, Hb.
Qed.

(** ** Trimming *)

Lemma trim_start_matches_empty p s :
  trim_start_matches p s = [] <-> Forall (fun c => p c = true) s.
Proof.
  induction s as [|c s IH]; simpl; [done|]. rewrite Forall_cons.
  destruct (p c) eqn:E; [|naive_solver]. rewrite IH. naive_solver.
Qed.

Lemma trim_start_matches_suffix p s : exists k, s = k ++ trim_start_matches p s.
Proof.
  induction s as [|c s [k IH]]; simpl; [by exists []|].
  destruct (p c); [exists (c :: k); by rewrite IH at 1|by exists []].
Qed.

(** [value.trim().is_empty()] holds exactly of the blank strings. *)
Lemma trim_empty s : is_empty (trim s) = true <-> Forall (fun c => is_whitespace c = true) s.
Proof.
  unfold trim, trim_matches, trim_end_matches.
  rewrite <-(trim_start_matches_empty is_whitespace s).
  destruct (trim_start_matches is_whitespace s) as [|c t] eqn:E; [done|].
  split; [|done]. intros H. exfalso.
  assert (trim_start_matches is_whitespace (reverse (c :: t)) = []) as H0.
  { destruct (trim_start_matches is_whitespace (reverse (c :: t))) eqn:E'; [done|].
    rewrite reverse_cons in H. by destruct (reverse l). }
  apply trim_start_matches_empty in H0. rewrite Forall_reverse, Forall_cons in H0.
  destruct H0 as [Hc _]. clear H. revert c t E Hc.
  induction s as [|d s IH]; intros c t E Hc; simplify_eq/=.
  destruct (is_whitespace d) eqn:Ed; [eauto|]. simplify_eq. congruence.
Qed.
