(* ===== verification/Settings.v ===== *)
(** * Errors, delegate settings, session configuration and turn budgets

    - [src/error.rs]: the error type and its public codes;
    - [src/delegates/settings.rs]: model identifiers, reasoning efforts and the
      layered resolution of the settings of a delegate;
    - [src/acp/config.rs]: the model catalog and the configuration of a session,
      with the permission modes;
    - [src/runtime/budget.rs]: the counters of a turn.

    The theorems state that resolution takes each value from the closest layer
    that sets it and labels it with that layer, that a session configuration
    always names a model of its catalog with an effort that model supports, that
    a remote request cannot switch a session to full access without
    confirmation, and that a budget admits exactly its limit. *)
From S2P Require Import Prelude Ord Text.
From stdpp Require Import base gmap list strings.
From Stdlib Require Import ZArith Lia.
#[local] Open Scope list_scope.
#[local] Open Scope Z_scope.

(** ** Errors ([src/error.rs]) *)

Module ErrorCode.
Inductive ErrorCode : Set :=
| Configuration | Authentication | Provider | RateLimit | Policy | Validation
| Tool | Storage | Channel | Timeout | Cancelled | BudgetExceeded.
End ErrorCode.
Abbreviation ErrorCode := ErrorCode.ErrorCode.

Definition ErrorCode_as_str (code : ErrorCode) : str :=
  match code with
  | ErrorCode.Configuration => lit "configuration_error"
  | ErrorCode.Authentication => lit "authentication_error"
  | ErrorCode.Provider => lit "provider_error"
  | ErrorCode.RateLimit => lit "rate_limit"
  | ErrorCode.Policy => lit "policy_error"
  | ErrorCode.Validation => lit "validation_error"
  | ErrorCode.Tool => lit "tool_error"
  | ErrorCode.Storage => lit "storage_error"
  | ErrorCode.Channel => lit "channel_error"
  | ErrorCode.Timeout => lit "timeout"
  | ErrorCode.Cancelled => lit "cancelled"
  | ErrorCode.BudgetExceeded => lit "budget_exceeded"
  end.

Module BudgetResource.
Inductive BudgetResource : Set :=
| Iterations | ToolCalls | MemoryItems | MemoryBytes | MemoryProposals.
End BudgetResource.
Abbreviation BudgetResource := BudgetResource.BudgetResource.

Module CarlError.
Inductive CarlError : Set :=
| Configuration (detail : str)
| Authentication (detail : str)
| Provider (detail : str)
| RateLimit (detail : str)
| Policy (detail : str)
| Validation (detail : str)
| Tool (detail : str)
| Storage (detail : str)
| Channel (detail : str)
| Timeout (detail : str)
| Cancelled (detail : str)
| BudgetExceeded (resource : BudgetResource) (limit : Z).
End CarlError.
Abbreviation CarlError := CarlError.CarlError.

Definition CarlError_code (e : CarlError) : ErrorCode :=
  match e with
  | CarlError.Configuration _ => ErrorCode.Configuration
  | CarlError.Authentication _ => ErrorCode.Authentication
  | CarlError.Provider _ => ErrorCode.Provider
  | CarlError.RateLimit _ => ErrorCode.RateLimit
  | CarlError.Policy _ => ErrorCode.Policy
  | CarlError.Validation _ => ErrorCode.Validation
  | CarlError.Tool _ => ErrorCode.Tool
  | CarlError.Storage _ => ErrorCode.Storage
  | CarlError.Channel _ => ErrorCode.Channel
  | CarlError.Timeout _ => ErrorCode.Timeout
  | CarlError.Cancelled _ => ErrorCode.Cancelled
  | CarlError.BudgetExceeded _ _ => ErrorCode.BudgetExceeded
  end.

Definition validation_error (detail : str) : CarlError := CarlError.Validation detail.

(** ** Delegate settings ([src/delegates/settings.rs]) *)

Definition MAX_DELEGATE_TASK_BYTES : Z := 32 * 1024.
Definition MAX_MODEL_ID_BYTES : Z := 128.

Abbreviation ModelId := str (only parsing).

(** The identifier alphabet of model, actor and tool names:
    [byte.is_ascii_alphanumeric() || matches!(byte, b'-' | b'_' | b'.' | b':')]. *)
Definition is_name_byte (b : Z) : bool :=
  is_ascii_alphanumeric b || (b =? 45) || (b =? 95) || (b =? 46) || (b =? 58).

Definition ModelId_parse (value : str) : result CarlError ModelId :=
  let valid :=
    negb (is_empty value)
    && (len value <=? MAX_MODEL_ID_BYTES)
    && forallb (fun segment =>
         negb (is_empty segment)
         && negb ((segment =?? lit ".") || (segment =?? lit ".."))
         && forallb is_name_byte (utf8 segment)) (split_char 47 value) in
  if negb valid then Err (validation_error (lit "delegate model identifier is invalid"))
  else Ok value.

Abbreviation BoundedDelegateTask := str (only parsing).

Definition BoundedDelegateTask_parse (value : str) : result CarlError BoundedDelegateTask :=
  if is_empty (trim value)
     || (MAX_DELEGATE_TASK_BYTES <? len value)
     || (0 ∈? utf8 value)
  then Err (validation_error (lit "delegate task is invalid"))
  else Ok value.

Module ReasoningEffort.
Inductive ReasoningEffort : Set := Low | Medium | High | XHigh | Max | Ultra.
End ReasoningEffort.
Abbreviation ReasoningEffort := ReasoningEffort.ReasoningEffort.
#[export] Instance ReasoningEffort_eq_dec : EqDecision ReasoningEffort.
Proof. solve_decision. Defined.

Definition as_codex_value (effort : ReasoningEffort) : str :=
  match effort with
  | ReasoningEffort.Low => lit "low"
  | ReasoningEffort.Medium => lit "medium"
  | ReasoningEffort.High => lit "high"
  | ReasoningEffort.XHigh => lit "xhigh"
  | ReasoningEffort.Max => lit "max"
  | ReasoningEffort.Ultra => lit "ultra"
  end.

Record DelegateSettings := {
  ds_model : option ModelId;
  ds_effort : option ReasoningEffort
}.

Module SettingSource.
Inductive SettingSource : Set := ProviderDefault | Personal | Project | Session | PerRun.
End SettingSource.
Abbreviation SettingSource := SettingSource.SettingSource.
#[export] Instance SettingSource_eq_dec : EqDecision SettingSource.
Proof. solve_decision. Defined.

Definition SettingSource_as_str (source : SettingSource) : str :=
  match source with
  | SettingSource.ProviderDefault => lit "provider_default"
  | SettingSource.Personal => lit "personal"
  | SettingSource.Project => lit "project"
  | SettingSource.Session => lit "session"
  | SettingSource.PerRun => lit "per_run"
  end.

Definition SettingSource_parse (value : str) : result CarlError SettingSource :=
  if value =?? lit "provider_default" then Ok SettingSource.ProviderDefault
  else if value =?? lit "personal" then Ok SettingSource.Personal
  else if value =?? lit "project" then Ok SettingSource.Project
  else if value =?? lit "session" then Ok SettingSource.Session
  else if value =?? lit "per_run" then Ok SettingSource.PerRun
  else Err (validation_error (lit "delegate setting source is invalid")).

Record DelegateSettingsLayers := {
  personal : option DelegateSettings;
  project : option DelegateSettings;
  session : option DelegateSettings;
  per_run : option DelegateSettings
}.

Record ResolvedDelegateSettings := {
  rs_model : option ModelId;
  rs_model_source : SettingSource;
  rs_effort : option ReasoningEffort;
  rs_effort_source : SettingSource
}.

(** [Iterator::find_map]. *)
Fixpoint find_map {A B} (f : A -> option B) (l : list A) : option B :=
  match l with
  | [] => None
  | x :: l' => match f x with Some b => Some b | None => find_map f l' end
  end.

Definition resolve (self : DelegateSettingsLayers) : ResolvedDelegateSettings :=
  let ordered :=
    [ (self.(per_run), SettingSource.PerRun);
      (self.(session), SettingSource.Session);
      (self.(project), SettingSource.Project);
      (self.(personal), SettingSource.Personal) ] in
  let '(model, model_source) :=
    match find_map (fun '(settings, source) =>
            (fun model => (model, source)) <$> (settings ≫= ds_model)) ordered with
    | None => (None, SettingSource.ProviderDefault)
    | Some (value, source) => (Some value, source)
    end in
  let '(effort, effort_source) :=
    match find_map (fun '(settings, source) =>
            (fun effort => (effort, source)) <$> (settings ≫= ds_effort)) ordered with
    | None => (None, SettingSource.ProviderDefault)
    | Some (value, source) => (Some value, source)
    end in
  {| rs_model := model; rs_model_source := model_source;
     rs_effort := effort; rs_effort_source := effort_source |}.

(** ** Session configuration ([src/acp/config.rs]) *)

Definition MAX_MODELS : Z := 64.
Definition MAX_DISPLAY_NAME_BYTES : Z := 128.

Module ConfigErrorCode.
Inductive ConfigErrorCode : Set := InvalidValue | UnknownModel | UnsupportedEffort | InvalidCatalog.
End ConfigErrorCode.
Abbreviation ConfigErrorCode := ConfigErrorCode.ConfigErrorCode.

Module PermissionMode.
Inductive PermissionMode : Set :=
| Plan | Default | AcceptEdits | DontAsk | FullAccess | BypassPermissions.
End PermissionMode.
Abbreviation PermissionMode := PermissionMode.PermissionMode.
#[export] Instance PermissionMode_eq_dec : EqDecision PermissionMode.
Proof. solve_decision. Defined.

Module PermissionProfile.
Inductive PermissionProfile : Set := ReadOnly | Approval | FullAccess.
End PermissionProfile.
Abbreviation PermissionProfile := PermissionProfile.PermissionProfile.
#[export] Instance PermissionProfile_eq_dec : EqDecision PermissionProfile.
Proof. solve_decision. Defined.

Definition as_wire_str (mode : PermissionMode) : str :=
  match mode with
  | PermissionMode.Plan => lit "plan"
  | PermissionMode.Default => lit "default"
  | PermissionMode.AcceptEdits => lit "acceptEdits"
  | PermissionMode.DontAsk => lit "dontAsk"
  | PermissionMode.FullAccess => lit "fullAccess"
  | PermissionMode.BypassPermissions => lit "bypassPermissions"
  end.

Definition profile (mode : PermissionMode) : PermissionProfile :=
  match mode with
  | PermissionMode.Plan => PermissionProfile.ReadOnly
  | PermissionMode.Default | PermissionMode.AcceptEdits => PermissionProfile.Approval
  | PermissionMode.DontAsk => PermissionProfile.ReadOnly
  | PermissionMode.FullAccess | PermissionMode.BypassPermissions => PermissionProfile.FullAccess
  end.

Definition PermissionMode_from_str (value : str) : result ConfigErrorCode PermissionMode :=
  if value =?? lit "plan" then Ok PermissionMode.Plan
  else if value =?? lit "default" then Ok PermissionMode.Default
  else if value =?? lit "acceptEdits" then Ok PermissionMode.AcceptEdits
  else if value =?? lit "dontAsk" then Ok PermissionMode.DontAsk
  else if value =?? lit "fullAccess" then Ok PermissionMode.FullAccess
  else if value =?? lit "bypassPermissions" then Ok PermissionMode.BypassPermissions
  else Err ConfigErrorCode.InvalidValue.

Module ModeActivation.
Inductive ModeActivation : Set := LocalExplicit | RemoteUnconfirmed | RemoteConfirmed.
End ModeActivation.
Abbreviation ModeActivation := ModeActivation.ModeActivation.
#[export] Instance ModeActivation_eq_dec : EqDecision ModeActivation.
Proof. solve_decision. Defined.

Module ConfigChange.
Inductive ConfigChange : Set :=
| Applied
| PendingBypass (display_code : str)
| Rejected (code : ConfigErrorCode).
End ConfigChange.
Abbreviation ConfigChange := ConfigChange.ConfigChange.

Record ModelDescriptor := {
  md_id : ModelId;
  display_name : str;
  supported_efforts : list ReasoningEffort
}.

(** [collect::<HashSet<_>>().len() != len()]: some value occurs twice. *)
Definition has_duplicates {A} `{EqDecision A} (l : list A) : bool :=
  negb (bool_decide (NoDup l)).

Definition ModelDescriptor_new (id : ModelId) (display_name : str)
    (supported_efforts : list ReasoningEffort) : result ConfigErrorCode ModelDescriptor :=
  if is_empty display_name
     || (MAX_DISPLAY_NAME_BYTES <? len display_name)
     || (0 ∈? utf8 display_name)
     || is_empty supported_efforts
     || has_duplicates supported_efforts
  then Err ConfigErrorCode.InvalidCatalog
  else Ok {| md_id := id; display_name := display_name;
             supported_efforts := supported_efforts |}.

Definition supports_effort (self : ModelDescriptor) (effort : ReasoningEffort) : bool :=
  effort ∈? self.(supported_efforts).

Abbreviation ModelCatalog := (list ModelDescriptor) (only parsing).

Definition ModelCatalog_new (models : list ModelDescriptor) : result ConfigErrorCode ModelCatalog :=
  if is_empty models || (MAX_MODELS <? Zlen models) || has_duplicates (md_id <$> models)
  then Err ConfigErrorCode.InvalidCatalog
  else Ok models.

Fixpoint ModelCatalog_find (self : ModelCatalog) (id : ModelId) : option ModelDescriptor :=
  match self with
  | [] => None
  | model :: rest =>
    if md_id model =?? id then Some model else ModelCatalog_find rest id
  end.

Record SessionConfiguration := {
  catalog : ModelCatalog;
  sc_model : ModelId;
  sc_effort : ReasoningEffort;
  sc_mode : PermissionMode
}.

Definition SessionConfiguration_new (catalog : ModelCatalog) (model : ModelId)
    (effort : ReasoningEffort) (mode : PermissionMode)
    : result ConfigErrorCode SessionConfiguration :=
  descriptor ← ok_or (ModelCatalog_find catalog model) ConfigErrorCode.UnknownModel;
  _ ← reject (negb (supports_effort descriptor effort)) ConfigErrorCode.UnsupportedEffort;
  Ok {| catalog := catalog; sc_model := model; sc_effort := effort; sc_mode := mode |}.

Definition set_model (self : SessionConfiguration) (model : ModelId)
    : SessionConfiguration * ConfigChange :=
  match ModelCatalog_find self.(catalog) model with
  | None => (self, ConfigChange.Rejected ConfigErrorCode.UnknownModel)
  | Some descriptor =>
    if negb (supports_effort descriptor self.(sc_effort))
    then (self, ConfigChange.Rejected ConfigErrorCode.UnsupportedEffort)
    else ({| catalog := self.(catalog); sc_model := model;
             sc_effort := self.(sc_effort); sc_mode := self.(sc_mode) |},
          ConfigChange.Applied)
  end.

Definition set_effort (self : SessionConfiguration) (effort : ReasoningEffort)
    : SessionConfiguration * ConfigChange :=
  match ModelCatalog_find self.(catalog) self.(sc_model) with
  | None => (self, ConfigChange.Rejected ConfigErrorCode.UnknownModel)
  | Some descriptor =>
    if negb (supports_effort descriptor effort)
    then (self, ConfigChange.Rejected ConfigErrorCode.UnsupportedEffort)
    else ({| catalog := self.(catalog); sc_model := self.(sc_model);
             sc_effort := effort; sc_mode := self.(sc_mode) |},
          ConfigChange.Applied)
  end.

(** [fresh] is the text of [Uuid::new_v4().simple()]. *)
Definition set_mode (fresh : str) (self : SessionConfiguration) (mode : PermissionMode)
    (activation : ModeActivation) : SessionConfiguration * ConfigChange :=
  if (profile mode =?? PermissionProfile.FullAccess)
     && (activation =?? ModeActivation.RemoteUnconfirmed)
  then (self, ConfigChange.PendingBypass (take 10 fresh))
  else ({| catalog := self.(catalog); sc_model := self.(sc_model);
           sc_effort := self.(sc_effort); sc_mode := mode |},
        ConfigChange.Applied).

(** ** Turn budgets ([src/runtime/budget.rs]) *)

Record TurnBudget := { max_iterations : Z; max_tool_calls : Z }.

Record BudgetTracker := {
  bt_budget : TurnBudget;
  iterations : Z;
  tool_calls : Z
}.

Definition BudgetTracker_new (budget : TurnBudget) : BudgetTracker :=
  {| bt_budget := budget; iterations := 0; tool_calls := 0 |}.

Definition try_increment (current limit : Z) (resource : BudgetResource) : result CarlError Z :=
  if limit <=? current then Err (CarlError.BudgetExceeded resource limit)
  else ok_or (checked_add u32_max current 1) (CarlError.BudgetExceeded resource limit).

Definition try_record_iteration (self : BudgetTracker) : result CarlError BudgetTracker :=
  current ← try_increment self.(iterations) self.(bt_budget).(max_iterations)
              BudgetResource.Iterations;
  Ok {| bt_budget := self.(bt_budget); iterations := current; tool_calls := self.(tool_calls) |}.

Definition try_record_tool_call (self : BudgetTracker) : result CarlError BudgetTracker :=
  current ← try_increment self.(tool_calls) self.(bt_budget).(max_tool_calls)
              BudgetResource.ToolCalls;
  Ok {| bt_budget := self.(bt_budget); iterations := self.(iterations); tool_calls := current |}.

(** ** Properties *)

Section Settings.

(** The layers from the closest to the farthest, as the code orders them. *)
Definition layer_order (layers : DelegateSettingsLayers) :=
  [ (layers.(per_run), SettingSource.PerRun);
    (layers.(session), SettingSource.Session);
    (layers.(project), SettingSource.Project);
    (layers.(personal), SettingSource.Personal) ].

(** A layer provides a value when it is present and sets it. *)
Definition provides {A} (field : DelegateSettings -> option A)
    (layer : option DelegateSettings * SettingSource) : option A := layer.1 ≫= field.

(** The specification of resolution for one field: the value and source come
    from one layer, and every closer layer leaves the field unset; with no layer
    setting it, the value is absent and labelled as the provider's default. *)
Definition resolved_from {A} (field : DelegateSettings -> option A)
    (layers : DelegateSettingsLayers) (value : option A) (source : SettingSource) : Prop :=
  (exists before after settings v,
     layer_order layers = before ++ (Some settings, source) :: after
     /\ field settings = Some v /\ value = Some v
     /\ Forall (fun layer => provides field layer = None) before)
  \/ (Forall (fun layer => provides field layer = None) (layer_order layers)
      /\ value = None /\ source = SettingSource.ProviderDefault).

Lemma find_map_layers {A} (field : DelegateSettings -> option A) l :
  match find_map (fun '(settings, source) =>
          (fun value => (value, source)) <$> (settings ≫= field)) l with
  | Some (v, source) =>
    exists before after settings, l = before ++ (Some settings, source) :: after
      /\ field settings = Some v
      /\ Forall (fun layer => provides field layer = None) before
  | None => Forall (fun layer => provides field layer = None) l
  end.
Proof.
  induction l as [|[o source] l IH]; simpl; [done|].
  destruct (o ≫= field) as [v|] eqn:E; simpl.
  - apply bind_Some in E as (settings & -> & Hv).
    by exists [], l, settings.
  - destruct (find_map _ l) as [[v source']|].
    + destruct IH as (before & after & settings & -> & ? & ?).
      exists ((o, source) :: before), after, settings. by repeat constructor.
    + by constructor.
Qed.

Lemma resolve_spec layers :
  resolved_from ds_model layers (rs_model (resolve layers)) (rs_model_source (resolve layers))
  /\ resolved_from ds_effort layers (rs_effort (resolve layers)) (rs_effort_source (resolve layers)).
Proof.
  unfold resolve, resolved_from.
  pose proof (find_map_layers ds_model (layer_order layers)) as Hm.
  pose proof (find_map_layers ds_effort (layer_order layers)) as He.
  unfold layer_order in *.
  destruct (find_map _ _) as [[m ms]|] in Hm |- *; destruct (find_map _ _) as [[e es]|] in He |- *;
    simpl; naive_solver.
Qed.

(** settings resolution implements its specification for both fields: each
    value comes from the closest layer (per-run, session, project, personal)
    that sets it, labelled with that layer, and falls back to the provider's
    default exactly when no layer sets it. *)
Theorem resolve_precedence layers :
  resolved_from ds_model layers (rs_model (resolve layers)) (rs_model_source (resolve layers))
  /\ resolved_from ds_effort layers (rs_effort (resolve layers)) (rs_effort_source (resolve layers)).
Proof. apply resolve_spec. Qed.

End Settings.

Section Configuration.

(** A well-formed session configuration: its model is in the catalog and
    supports its effort. *)
Definition configuration_ok (c : SessionConfiguration) : Prop :=
  exists descriptor, ModelCatalog_find c.(catalog) c.(sc_model) = Some descriptor
    /\ supports_effort descriptor c.(sc_effort) = true.

(** A change of the configuration a frontend can request; [fresh] is the text
    of the UUID drawn for a confirmation code. *)
Inductive config_op :=
| SetModel (model : ModelId)
| SetEffort (effort : ReasoningEffort)
| SetMode (fresh : str) (mode : PermissionMode) (activation : ModeActivation).

Definition apply_config (c : SessionConfiguration) (op : config_op) :=
  match op with
  | SetModel model => set_model c model
  | SetEffort effort => set_effort c effort
  | SetMode fresh mode activation => set_mode fresh c mode activation
  end.

Definition run_config (c : SessionConfiguration) (ops : list config_op) : SessionConfiguration :=
  foldl (fun c op => (apply_config c op).1) c ops.

Lemma apply_config_ok c op : configuration_ok c -> configuration_ok (apply_config c op).1.
Proof.
  intros Hc. destruct op; simpl; unfold set_model, set_effort, set_mode.
  - case_match eqn:Hf; [|done]. case_match eqn:Hs; [done|]. simpl.
    eexists. split; [done|]. by apply negb_false_iff.
  - case_match eqn:Hf; [|done]. case_match eqn:Hs; [done|]. simpl.
    eexists. split; [done|]. by apply negb_false_iff.
  - by case_match.
Qed.

(** whatever sequence of changes is requested of a session that
    [SessionConfiguration::new] accepted, its model stays in the catalog and its
    effort stays one the model supports; the catalog itself never changes. *)
Theorem configuration_invariant cat model effort mode c ops :
  SessionConfiguration_new cat model effort mode = Ok c ->
  configuration_ok (run_config c ops) /\ catalog (run_config c ops) = cat.
Proof.
  unfold SessionConfiguration_new. intros H. carl_simpl.
  assert (forall c0, configuration_ok c0 -> configuration_ok (run_config c0 ops)
            /\ catalog (run_config c0 ops) = catalog c0) as Hrun.
  { induction ops as [|op ops IH]; intros c0 Hc0; [done|].
    destruct (IH (apply_config c0 op).1) as [Hok Hcat]; [by apply apply_config_ok|].
    split; [done|]. unfold run_config in *. simpl. rewrite Hcat.
    destruct op; simpl; unfold set_model, set_effort, set_mode; by repeat case_match. }
  apply (Hrun {| catalog := cat; sc_model := model; sc_effort := effort; sc_mode := mode |}).
  by eexists.
Qed.

(** The operations a remote peer can cause before the owner confirms. *)
Definition unconfirmed (op : config_op) : bool :=
  match op with
  | SetMode _ _ ModeActivation.RemoteUnconfirmed => true
  | SetMode _ _ _ => false
  | _ => true
  end.

(** no sequence of requests without a local or confirmed activation raises a
    session to the full-access profile. *)
Theorem unconfirmed_never_full_access c ops :
  profile (sc_mode c) <> PermissionProfile.FullAccess ->
  forallb unconfirmed ops = true ->
  profile (sc_mode (run_config c ops)) <> PermissionProfile.FullAccess.
Proof.
  intros Hc Hops. apply forallb_true in Hops. revert c Hc.
  induction Hops as [|op ops Hop _ IH]; intros c Hc; [done|]. apply IH.
  destruct op as [| |fresh mode []]; simpl in *; try done;
    unfold set_model, set_effort, set_mode; repeat case_match; try done.
  simpl. match goal with H : _ && _ = false |- _ => apply andb_false_iff in H as [H|H] end;
    by carl_simpl.
Qed.

End Configuration.

(** A catalog with one model, and a session on it. *)
Definition example_catalog : ModelCatalog :=
  [ {| md_id := lit "gpt-5"; display_name := lit "GPT-5";
       supported_efforts := [ReasoningEffort.Low; ReasoningEffort.High] |} ].

Section Budget.

Definition record (t : BudgetTracker) (resource : bool) : result CarlError BudgetTracker :=
  if resource then try_record_iteration t else try_record_tool_call t.

(** How often a resource is used in a run; [true] stands for an iteration and
    [false] for a tool call. *)
Fixpoint uses (resource : bool) (ops : list bool) : Z :=
  match ops with
  | [] => 0
  | r :: ops' => (if Bool.eqb r resource then 1 else 0) + uses resource ops'
  end.

Lemma uses_nonneg resource ops : 0 <= uses resource ops.
Proof. induction ops as [|r ops IH]; simpl; [done|]. destruct (Bool.eqb r resource); lia. Qed.

Definition budget_u32 (b : TurnBudget) : Prop :=
  u32 b.(max_iterations) /\ u32 b.(max_tool_calls).

Lemma try_increment_ok current limit resource z :
  u32 limit -> try_increment current limit resource = Ok z <-> current < limit /\ z = current + 1.
Proof.
  unfold try_increment, in_range. intros Hl. case_match.
  - split; [done|lia].
  - rewrite ok_or_ok, checked_add_some. lia.
Qed.

Lemma record_ok b i c r t :
  budget_u32 b ->
  record {| bt_budget := b; iterations := i; tool_calls := c |} r = Ok t
  <-> (if r then i < max_iterations b else c < max_tool_calls b)
      /\ t = {| bt_budget := b; iterations := i + (if r then 1 else 0);
                tool_calls := c + (if r then 0 else 1) |}.
Proof.
  intros [Hi Ht]. destruct r; simpl; rewrite Z.add_0_r.
  all: unfold try_record_iteration, try_record_tool_call; rewrite bind_ok; simpl.
  all: setoid_rewrite try_increment_ok; [|done]; naive_solver.
Qed.

Lemma record_run b ops t i c :
  budget_u32 b -> 0 <= i <= max_iterations b -> 0 <= c <= max_tool_calls b ->
  try_fold record {| bt_budget := b; iterations := i; tool_calls := c |} ops = Ok t
  <-> i + uses true ops <= max_iterations b /\ c + uses false ops <= max_tool_calls b
      /\ t = {| bt_budget := b; iterations := i + uses true ops;
                tool_calls := c + uses false ops |}.
Proof.
  intros Hb. revert i c. induction ops as [|r ops IH]; intros i c Hi Hc; simpl.
  { rewrite !Z.add_0_r. naive_solver lia. }
  rewrite bind_ok. setoid_rewrite record_ok; [|done].
  pose proof (uses_nonneg true ops). pose proof (uses_nonneg false ops).
  destruct r; simpl; rewrite !Z.add_assoc, Z.add_0_r; (split; [intros (t' & [? ->] & Hrun)|intros (? & ? & ->)]).
  1, 3: rewrite ?Z.add_0_r in Hrun; apply IH in Hrun; auto with lia.
  all: eexists; split; [split; [lia|done]|]; rewrite ?Z.add_0_r; apply IH; auto with lia.
Qed.

(** a run of a fresh budget tracker succeeds exactly when it uses each
    resource at most as often as its limit allows, whatever the order, and then
    the counters are exactly the uses. *)
Theorem budget_exact b ops t :
  budget_u32 b ->
  try_fold record (BudgetTracker_new b) ops = Ok t
  <-> uses true ops <= max_iterations b /\ uses false ops <= max_tool_calls b
      /\ t = {| bt_budget := b; iterations := uses true ops; tool_calls := uses false ops |}.
Proof.
  intros Hb. destruct (Hb) as [[??] [??]]. apply (record_run b ops t 0 0); auto with lia.
Qed.

End Budget.

