(* ===== verification/Policy.v ===== *)
(** * Digests, capability requests and the default policy

    - [src/policy/capability.rs]: SHA-256 digests and their text form, actor
      identities, frontends and the capability request of an external agent;
    - [src/policy/mod.rs]: the policy that decides a request.

    [sha2::Sha256] and [serde_json] are not part of the repository: a function
    that hashes or serialises takes them as arguments.  The theorems give the
    round trip between a digest and its text in both directions, and the exact
    set of requests that the default policy lets the owner be asked about; no
    request is ever allowed outright. *)
From S2P Require Import Prelude Ord Text Settings.
From stdpp Require Import base gmap list strings.
From Stdlib Require Import ZArith Lia.
#[local] Open Scope list_scope.
#[local] Open Scope Z_scope.

(** ** Digests *)

Definition MAX_ACTOR_ID_BYTES : Z := 128.
Definition MAX_TOOL_NAME_BYTES : Z := 128.

(** A [[u8; 32]]. *)
Abbreviation Sha256Digest := (list Z) (only parsing).

Definition wf_digest (d : Sha256Digest) : Prop := length d = 32%nat /\ Forall (fun b => u8 b) d.

Definition hex_nibble (byte : Z) : Z :=
  if (48 <=? byte) && (byte <=? 57) then byte - 48
  else if (97 <=? byte) && (byte <=? 102) then byte - 97 + 10
  else 0.

(** [chunks_exact(2)] with the body of the loop that fills the array. *)
Fixpoint hex_pairs (value : bytes) : bytes :=
  match value with
  | a :: b :: rest => Z.lor (Z.shiftl (hex_nibble a) 4) (hex_nibble b) :: hex_pairs rest
  | _ => []
  end.

Definition Sha256Digest_parse (value : str) : result CarlError Sha256Digest :=
  if negb (len value =? 64) || negb (forallb is_hex_byte (utf8 value))
  then Err (validation_error (lit "SHA-256 digest is invalid"))
  else Ok (hex_pairs (utf8 value)).

(** One hexadecimal digit of [{byte:02x}]. *)
Definition hex_digit (n : Z) : char := if n <? 10 then 48 + n else 97 + (n - 10).

(** [fmt::Display]: [write!(formatter, "{byte:02x}")] for each byte. *)
Definition Sha256Digest_display (d : Sha256Digest) : str :=
  d ≫= fun byte => [hex_digit (Z.shiftr byte 4); hex_digit (Z.land byte 15)].

(** ** Actors and frontends *)

Abbreviation ActorId := str (only parsing).

Definition ActorId_parse (value : str) : result CarlError ActorId :=
  let valid :=
    negb (is_empty value)
    && (len value <=? MAX_ACTOR_ID_BYTES)
    && forallb is_name_byte (utf8 value) in
  if negb valid then Err (validation_error (lit "actor identifier is invalid"))
  else Ok value.

Module Frontend.
Inductive Frontend : Set := Cli | Tui | Telegram | Acp | Buzz.
End Frontend.
Abbreviation Frontend := Frontend.Frontend.
#[export] Instance Frontend_eq_dec : EqDecision Frontend.
Proof. solve_decision. Defined.

Definition Frontend_as_str (frontend : Frontend) : str :=
  match frontend with
  | Frontend.Cli => lit "cli"
  | Frontend.Tui => lit "tui"
  | Frontend.Telegram => lit "telegram"
  | Frontend.Acp => lit "acp"
  | Frontend.Buzz => lit "buzz"
  end.

Definition Frontend_parse (value : str) : result CarlError Frontend :=
  if value =?? lit "cli" then Ok Frontend.Cli
  else if value =?? lit "tui" then Ok Frontend.Tui
  else if value =?? lit "telegram" then Ok Frontend.Telegram
  else if value =?? lit "acp" then Ok Frontend.Acp
  else if value =?? lit "buzz" then Ok Frontend.Buzz
  else Err (validation_error (lit "frontend is invalid")).

Record ActorIdentity := { actor_id : ActorId; actor_frontend : Frontend }.

(** ** Capability requests *)

Module ProviderNetwork.
Inductive ProviderNetwork : Set := OpenAiCodex | XaiGrok.
End ProviderNetwork.
Abbreviation ProviderNetwork := ProviderNetwork.ProviderNetwork.
#[export] Instance ProviderNetwork_eq_dec : EqDecision ProviderNetwork.
Proof. solve_decision. Defined.

Module EnvironmentGrant.
Inductive EnvironmentGrant : Set := Credential | UserHome | NetworkProxy.
End EnvironmentGrant.
Abbreviation EnvironmentGrant := EnvironmentGrant.EnvironmentGrant.

Inductive SideEffect : Set := ExternalAgent.
Inductive RiskClass : Set := High.

(** Uuids are their 128-bit value. *)
Abbreviation SessionId := Z (only parsing).
Abbreviation TurnId := Z (only parsing).

Record CapabilityRequest := {
  tool : str;
  cr_schema_version : Z;
  actor : ActorIdentity;
  cr_session_id : SessionId;
  turn_id : TurnId;
  prompt_digest : Sha256Digest;
  stage_manifest_digest : Sha256Digest;
  verification_specification_digest : Sha256Digest;
  cr_model : option ModelId;
  cr_effort : option ReasoningEffort;
  provider_network : ProviderNetwork;
  environment_grants : list EnvironmentGrant;
  side_effect : SideEffect;
  risk : RiskClass;
  live_workspace_writable : bool
}.

Definition external_agent (tool : str) (actor : ActorIdentity) (session_id : SessionId)
    (turn_id : TurnId) (prompt_digest stage_manifest_digest
    verification_specification_digest : Sha256Digest) (model : option ModelId)
    (effort : option ReasoningEffort) (provider_network : ProviderNetwork)
    (environment_grants : list EnvironmentGrant) (live_workspace_writable : bool)
    : result CarlError CapabilityRequest :=
  let valid_tool :=
    negb (is_empty tool)
    && (len tool <=? MAX_TOOL_NAME_BYTES)
    && forallb is_name_byte (utf8 tool) in
  if negb valid_tool then Err (validation_error (lit "capability tool name is invalid"))
  else Ok
    {| tool := tool; cr_schema_version := 2; actor := actor; cr_session_id := session_id;
       turn_id := turn_id; prompt_digest := prompt_digest;
       stage_manifest_digest := stage_manifest_digest;
       verification_specification_digest := verification_specification_digest;
       cr_model := model; cr_effort := effort; provider_network := provider_network;
       environment_grants := environment_grants; side_effect := ExternalAgent; risk := High;
       live_workspace_writable := live_workspace_writable |}.

Definition CapabilityRequest_digest (to_vec : CapabilityRequest -> bytes) (sha256 : bytes -> bytes)
    (self : CapabilityRequest) : Sha256Digest := sha256 (to_vec self).

Definition provider_matches_tool (self : CapabilityRequest) : bool :=
  ((self.(tool) =?? lit "delegate.codex")
     && (self.(provider_network) =?? ProviderNetwork.OpenAiCodex))
  || ((self.(tool) =?? lit "delegate.grok")
     && (self.(provider_network) =?? ProviderNetwork.XaiGrok)).

(** ** The default policy ([src/policy/mod.rs]) *)

Module PolicyDisposition.
Inductive PolicyDisposition : Set := Allow | Ask | Deny.
End PolicyDisposition.
Abbreviation PolicyDisposition := PolicyDisposition.PolicyDisposition.

Module PolicyReasonCode.
Inductive PolicyReasonCode : Set :=
| ExternalAgentRequiresApproval | LiveWorkspaceExposure
| EnvironmentGrantForbidden | ProviderNetworkMismatch.
End PolicyReasonCode.
Abbreviation PolicyReasonCode := PolicyReasonCode.PolicyReasonCode.

Record PolicyDecision := { disposition : PolicyDisposition; reason : PolicyReasonCode }.

Definition PolicyDecision_ask (reason : PolicyReasonCode) : PolicyDecision :=
  {| disposition := PolicyDisposition.Ask; reason := reason |}.
Definition PolicyDecision_deny (reason : PolicyReasonCode) : PolicyDecision :=
  {| disposition := PolicyDisposition.Deny; reason := reason |}.

Definition DefaultPolicy_evaluate (request : CapabilityRequest) : PolicyDecision :=
  if request.(live_workspace_writable)
  then PolicyDecision_deny PolicyReasonCode.LiveWorkspaceExposure
  else if negb (is_empty request.(environment_grants))
  then PolicyDecision_deny PolicyReasonCode.EnvironmentGrantForbidden
  else if negb (provider_matches_tool request)
  then PolicyDecision_deny PolicyReasonCode.ProviderNetworkMismatch
  else PolicyDecision_ask PolicyReasonCode.ExternalAgentRequiresApproval.

(** ** Properties *)

Lemma hex_byte_range b : is_hex_byte b = true -> 48 <= b <= 57 \/ 97 <= b <= 102.
Proof. unfold is_hex_byte, is_ascii_digit. lia. Qed.

Lemma hex_nibble_range b : 0 <= hex_nibble b < 16.
Proof. unfold hex_nibble. repeat case_match; lia. Qed.

Lemma hex_digit_nibble b : is_hex_byte b = true -> hex_digit (hex_nibble b) = b.
Proof.
  intros H%hex_byte_range. unfold hex_digit, hex_nibble. repeat case_match; lia.
Qed.

Lemma hex_nibble_digit n : 0 <= n < 16 -> hex_nibble (hex_digit n) = n.
Proof. intros H. unfold hex_digit, hex_nibble. repeat case_match; lia. Qed.

Lemma hex_digit_byte n : 0 <= n < 16 -> is_hex_byte (hex_digit n) = true.
Proof. intros H. unfold hex_digit, is_hex_byte, is_ascii_digit. case_match; lia. Qed.

(** A byte is its two nibbles. *)
Lemma nibbles_lor h l : 0 <= h < 16 -> 0 <= l < 16 -> Z.lor (Z.shiftl h 4) l = 16 * h + l.
Proof.
  intros Hh Hl. rewrite Z.shiftl_mul_pow2 by lia.
  rewrite <-Z.lxor_lor, <-Z.add_nocarry_lxor; [lia|..].
  all: apply Z.bits_inj'; intros n Hn; rewrite Z.land_spec, Z.bits_0.
  all: destruct (Z.ltb_spec n 4).
  all: try (rewrite Z.mul_pow2_bits_low by lia; done).
  all: rewrite (Z.bits_above_log2 l n), andb_false_r; [done|lia|].
  all: destruct (Z.eq_dec l 0) as [->|]; [simpl; lia|].
  all: apply Z.log2_lt_pow2; [lia|].
  all: apply Z.lt_le_trans with (2 ^ 4); [lia|apply Z.pow_le_mono_r; lia].
Qed.

Lemma byte_high b : u8 b -> 0 <= Z.shiftr b 4 < 16.
Proof. unfold in_range, u8_max. rewrite Z.shiftr_div_pow2 by lia. Z.to_euclidean_division_equations. lia. Qed.

Lemma byte_low b : Z.land b 15 = b mod 16.
Proof. apply (Z.land_ones b 4). lia. Qed.

Lemma display_cons b (d : Sha256Digest) :
  Sha256Digest_display (b :: d)
  = hex_digit (Z.shiftr b 4) :: hex_digit (Z.land b 15) :: Sha256Digest_display d.
Proof. done. Qed.

Lemma hex_pairs_spec n (l : bytes) :
  length l = (2 * n)%nat -> Forall (fun b => is_hex_byte b = true) l ->
  length (hex_pairs l) = n /\ Forall (fun b => u8 b) (hex_pairs l)
  /\ Sha256Digest_display (hex_pairs l) = l.
Proof.
  revert l. induction n as [|n IH]; intros l Hlen Hl.
  { destruct l; [|done]. repeat split; constructor. }
  destruct l as [|a [|b l]]; [done|simpl in Hlen; lia|].
  apply Forall_cons in Hl as [Ha [Hb Hl]%Forall_cons].
  destruct (IH l) as (Hn & Hu & Hd); [simpl in Hlen; lia|done|].
  pose proof (hex_nibble_range a). pose proof (hex_nibble_range b).
  cbn [hex_pairs]. rewrite nibbles_lor, display_cons by lia. split; [simpl; lia|]. split.
  - constructor; [unfold in_range, u8_max; lia|done].
  - rewrite Hd, byte_low, Z.shiftr_div_pow2 by lia.
    replace ((16 * hex_nibble a + hex_nibble b) / 2 ^ 4) with (hex_nibble a)
      by (change (2 ^ 4) with 16; Z.to_euclidean_division_equations; lia).
    replace ((16 * hex_nibble a + hex_nibble b) mod 16) with (hex_nibble b)
      by (Z.to_euclidean_division_equations; lia).
    by rewrite !hex_digit_nibble.
Qed.

Lemma display_hex (d : Sha256Digest) :
  Forall (fun b => u8 b) d ->
  Forall (fun b => is_hex_byte b = true) (Sha256Digest_display d)
  /\ Zlen (Sha256Digest_display d) = 2 * Zlen d
  /\ hex_pairs (Sha256Digest_display d) = d.
Proof.
  induction 1 as [|b d Hb _ (IH1 & IH2 & IH3)]; [done|].
  pose proof (byte_high b Hb) as Hh. pose proof (byte_low b) as Hlow.
  assert (0 <= Z.land b 15 < 16) as Hl by (rewrite Hlow; Z.to_euclidean_division_equations; lia).
  rewrite display_cons. cbn [hex_pairs Zlen]. split; [|split].
  - repeat constructor; auto using hex_digit_byte.
  - lia.
  - rewrite !hex_nibble_digit, nibbles_lor by done. f_equal; [|exact IH3].
    rewrite Hlow, Z.shiftr_div_pow2 by lia. change (2 ^ 4) with 16.
    Z.to_euclidean_division_equations; lia.
Qed.

Lemma utf8_hex s : forallb is_hex_byte (utf8 s) = true -> utf8 s = s.
Proof. apply utf8_all_ascii. intros b H%hex_byte_range. lia. Qed.

Lemma utf8_hex_str s : Forall (fun b => is_hex_byte b = true) s -> utf8 s = s.
Proof.
  intros H. apply utf8_ascii. eapply Forall_impl; [exact H|].
  intros b Hb%hex_byte_range. lia.
Qed.

(** the text form of a digest and its parser are inverse: a string parses to
    [d] exactly when [d] is 32 bytes and the string is the text [d] prints as,
    so no two strings denote one digest and no digest is lost by printing. *)
Theorem digest_roundtrip s d :
  Sha256Digest_parse s = Ok d <-> wf_digest d /\ s = Sha256Digest_display d.
Proof.
  unfold Sha256Digest_parse. split.
  - intros H. case_match; [done|]. carl_simpl.
    assert (utf8 s = s) as Hs by (by apply utf8_hex, forallb_true).
    unfold len in *. rewrite Hs, ?Zlen_length in *.
    destruct (hex_pairs_spec 32 s) as (? & ? & ?); [lia|done|]. split; [by split|done].
  - intros [[Hlen Hd] ->]. destruct (display_hex d Hd) as (Hhex & Hz & Hp).
    assert (forallb is_hex_byte (Sha256Digest_display d) = true) as Hb by by apply forallb_true.
    unfold len. rewrite utf8_hex_str, Hb, Hz, Zlen_length, Hlen, Hp by done. done.
Qed.

(** the default policy never allows a request by itself.  It lets the owner
    be asked exactly when the live workspace is not writable, no environment is
    granted, and the tool talks to its own provider's network; every other
    request is denied. *)
Theorem default_policy_exact request :
  disposition (DefaultPolicy_evaluate request) <> PolicyDisposition.Allow
  /\ (disposition (DefaultPolicy_evaluate request) = PolicyDisposition.Ask
      <-> live_workspace_writable request = false
          /\ environment_grants request = []
          /\ ((tool request = lit "delegate.codex"
               /\ provider_network request = ProviderNetwork.OpenAiCodex)
              \/ (tool request = lit "delegate.grok"
                  /\ provider_network request = ProviderNetwork.XaiGrok))).
Proof.
  assert (provider_matches_tool request = true <->
    (tool request = lit "delegate.codex" /\ provider_network request = ProviderNetwork.OpenAiCodex)
    \/ (tool request = lit "delegate.grok" /\ provider_network request = ProviderNetwork.XaiGrok))
    as Hmatch.
  { unfold provider_matches_tool. by rewrite orb_true_iff, !andb_true_iff, !bool_decide_eq_true. }
  unfold DefaultPolicy_evaluate. rewrite <-Hmatch.
  destruct (live_workspace_writable request), (environment_grants request),
    (provider_matches_tool request); simpl; naive_solver.
Qed.
