(* ===== verification/Subscription.v ===== *)
(** * Subscription runs ([src/runtime/subscription/types.rs])

    A delegate run moves through [RunState]; a [RunTransition] is a checked edge
    with its failure code, and a [RunConfigSnapshot] is the configuration the run
    was started with together with what the provider reported.

    The theorems state that a run reaches promotion only through every stage of
    the pipeline in order, that every run ends after at most seven states, that
    terminal states are final, that wire names round-trip, and that the
    configuration a resolution produces is always accepted back. *)
From S2P Require Import Prelude Ord Text Settings.
From stdpp Require Import base gmap list strings.
From Stdlib Require Import ZArith Lia.
#[local] Open Scope list_scope.
#[local] Open Scope Z_scope.

Abbreviation RunId := Z (only parsing).
Abbreviation VerificationId := Z (only parsing).
Abbreviation ArtifactId := str (only parsing).

Definition ArtifactId_parse (value : str) : result CarlError ArtifactId :=
  let valid := (len value =? 64) && forallb is_hex_byte (utf8 value) in
  if negb valid
  then Err (validation_error (lit "artifact identifier is not a lowercase SHA-256 digest"))
  else Ok value.

(** ** Run states *)

Module RunState.
Inductive RunState : Set :=
| Prepared | AwaitingDelegateApproval | Running | Inspecting | Verifying
| AwaitingPromotionApproval | Promoted | CompletedNoChanges | Failed | Cancelled | Interrupted.
End RunState.
Abbreviation RunState := RunState.RunState.
#[export] Instance RunState_eq_dec : EqDecision RunState.
Proof. solve_decision. Defined.

Definition RunState_parse (value : str) : result CarlError RunState :=
  if value =?? lit "prepared" then Ok RunState.Prepared
  else if value =?? lit "awaiting_delegate_approval" then Ok RunState.AwaitingDelegateApproval
  else if value =?? lit "running" then Ok RunState.Running
  else if value =?? lit "inspecting" then Ok RunState.Inspecting
  else if value =?? lit "verifying" then Ok RunState.Verifying
  else if value =?? lit "awaiting_promotion_approval" then Ok RunState.AwaitingPromotionApproval
  else if value =?? lit "promoted" then Ok RunState.Promoted
  else if value =?? lit "completed_no_changes" then Ok RunState.CompletedNoChanges
  else if value =?? lit "failed" then Ok RunState.Failed
  else if value =?? lit "cancelled" then Ok RunState.Cancelled
  else if value =?? lit "interrupted" then Ok RunState.Interrupted
  else Err (validation_error (lit "subscription run state is invalid")).

Definition RunState_as_str (self : RunState) : str :=
  match self with
  | RunState.Prepared => lit "prepared"
  | RunState.AwaitingDelegateApproval => lit "awaiting_delegate_approval"
  | RunState.Running => lit "running"
  | RunState.Inspecting => lit "inspecting"
  | RunState.Verifying => lit "verifying"
  | RunState.AwaitingPromotionApproval => lit "awaiting_promotion_approval"
  | RunState.Promoted => lit "promoted"
  | RunState.CompletedNoChanges => lit "completed_no_changes"
  | RunState.Failed => lit "failed"
  | RunState.Cancelled => lit "cancelled"
  | RunState.Interrupted => lit "interrupted"
  end.

Definition RunState_is_terminal (self : RunState) : bool :=
  match self with
  | RunState.Promoted | RunState.CompletedNoChanges | RunState.Failed
  | RunState.Cancelled | RunState.Interrupted => true
  | _ => false
  end.

Definition can_transition_to (self next : RunState) : bool :=
  let forward :=
    match self, next with
    | RunState.Prepared, RunState.AwaitingDelegateApproval
    | RunState.AwaitingDelegateApproval, RunState.Running
    | RunState.Running, RunState.Inspecting
    | RunState.Inspecting, (RunState.Verifying | RunState.CompletedNoChanges)
    | RunState.Verifying, RunState.AwaitingPromotionApproval
    | RunState.AwaitingPromotionApproval, RunState.Promoted => true
    | _, _ => false
    end in
  let terminal_exit :=
    negb (RunState_is_terminal self)
    && match next with
       | RunState.Failed | RunState.Cancelled | RunState.Interrupted => true
       | _ => false
       end in
  forward || terminal_exit.

(** ** Failure codes and trust labels *)

Module RunFailureCode.
Inductive RunFailureCode : Set :=
| AuthenticationRequired | SubscriptionUnavailable | DelegateIncompatible
| DelegateConfigurationFailed | DelegateStartFailed | DelegateProtocolFailed
| DelegateBudgetExhausted | StageRejected | ProposalRejected | VerificationFailed
| StaleWorkspace | PromotionFailed.
End RunFailureCode.
Abbreviation RunFailureCode := RunFailureCode.RunFailureCode.

Definition RunFailureCode_parse (value : str) : result CarlError RunFailureCode :=
  if value =?? lit "authentication_required" then Ok RunFailureCode.AuthenticationRequired
  else if value =?? lit "subscription_unavailable" then Ok RunFailureCode.SubscriptionUnavailable
  else if value =?? lit "delegate_incompatible" then Ok RunFailureCode.DelegateIncompatible
  else if value =?? lit "delegate_configuration_failed" then Ok RunFailureCode.DelegateConfigurationFailed
  else if value =?? lit "delegate_start_failed" then Ok RunFailureCode.DelegateStartFailed
  else if value =?? lit "delegate_protocol_failed" then Ok RunFailureCode.DelegateProtocolFailed
  else if value =?? lit "delegate_budget_exhausted" then Ok RunFailureCode.DelegateBudgetExhausted
  else if value =?? lit "stage_rejected" then Ok RunFailureCode.StageRejected
  else if value =?? lit "proposal_rejected" then Ok RunFailureCode.ProposalRejected
  else if value =?? lit "verification_failed" then Ok RunFailureCode.VerificationFailed
  else if value =?? lit "stale_workspace" then Ok RunFailureCode.StaleWorkspace
  else if value =?? lit "promotion_failed" then Ok RunFailureCode.PromotionFailed
  else Err (validation_error (lit "subscription run failure code is invalid")).

Definition RunFailureCode_as_str (self : RunFailureCode) : str :=
  match self with
  | RunFailureCode.AuthenticationRequired => lit "authentication_required"
  | RunFailureCode.SubscriptionUnavailable => lit "subscription_unavailable"
  | RunFailureCode.DelegateIncompatible => lit "delegate_incompatible"
  | RunFailureCode.DelegateConfigurationFailed => lit "delegate_configuration_failed"
  | RunFailureCode.DelegateStartFailed => lit "delegate_start_failed"
  | RunFailureCode.DelegateProtocolFailed => lit "delegate_protocol_failed"
  | RunFailureCode.DelegateBudgetExhausted => lit "delegate_budget_exhausted"
  | RunFailureCode.StageRejected => lit "stage_rejected"
  | RunFailureCode.ProposalRejected => lit "proposal_rejected"
  | RunFailureCode.VerificationFailed => lit "verification_failed"
  | RunFailureCode.StaleWorkspace => lit "stale_workspace"
  | RunFailureCode.PromotionFailed => lit "promotion_failed"
  end.

Module RunTrustLabel.
Inductive RunTrustLabel : Set :=
| TrustedCarlState | UntrustedProviderEvidence | TrustedCarlVerification
| OwnerApproval | LiveWorkspaceMutationResult.
End RunTrustLabel.
Abbreviation RunTrustLabel := RunTrustLabel.RunTrustLabel.

Definition RunTrustLabel_parse (value : str) : result CarlError RunTrustLabel :=
  if value =?? lit "trusted_carl_state" then Ok RunTrustLabel.TrustedCarlState
  else if value =?? lit "untrusted_provider_evidence" then Ok RunTrustLabel.UntrustedProviderEvidence
  else if value =?? lit "trusted_carl_verification" then Ok RunTrustLabel.TrustedCarlVerification
  else if value =?? lit "owner_approval" then Ok RunTrustLabel.OwnerApproval
  else if value =?? lit "live_workspace_mutation_result" then Ok RunTrustLabel.LiveWorkspaceMutationResult
  else Err (validation_error (lit "subscription run trust label is invalid")).

Definition RunTrustLabel_as_str (self : RunTrustLabel) : str :=
  match self with
  | RunTrustLabel.TrustedCarlState => lit "trusted_carl_state"
  | RunTrustLabel.UntrustedProviderEvidence => lit "untrusted_provider_evidence"
  | RunTrustLabel.TrustedCarlVerification => lit "trusted_carl_verification"
  | RunTrustLabel.OwnerApproval => lit "owner_approval"
  | RunTrustLabel.LiveWorkspaceMutationResult => lit "live_workspace_mutation_result"
  end.

(** ** Run configuration *)

Inductive ProviderReported (T : Type) : Type :=
| Reported (value : T)
| NotReported.
Arguments Reported {T} value.
Arguments NotReported {T}.

Record RunConfigSnapshot := {
  rc_model : option ModelId;
  rc_model_source : SettingSource;
  rc_effort : option ReasoningEffort;
  rc_effort_source : SettingSource;
  provider_reported_model : ProviderReported ModelId;
  provider_reported_effort : ProviderReported ReasoningEffort
}.

Definition RunConfigSnapshot_new (settings : ResolvedDelegateSettings)
    (provider_reported_model : ProviderReported ModelId)
    (provider_reported_effort : ProviderReported ReasoningEffort) : RunConfigSnapshot :=
  {| rc_model := settings.(rs_model); rc_model_source := settings.(rs_model_source);
     rc_effort := settings.(rs_effort); rc_effort_source := settings.(rs_effort_source);
     provider_reported_model := provider_reported_model;
     provider_reported_effort := provider_reported_effort |}.

Definition from_resolved (settings : ResolvedDelegateSettings) : RunConfigSnapshot :=
  RunConfigSnapshot_new settings NotReported NotReported.

Definition valid_value_source_pair (has_value : bool) (source : SettingSource) : bool :=
  negb (Bool.eqb has_value (source =?? SettingSource.ProviderDefault)).

Definition reconstruct (model : option ModelId) (model_source : SettingSource)
    (effort : option ReasoningEffort) (effort_source : SettingSource)
    (provider_reported_model : ProviderReported ModelId)
    (provider_reported_effort : ProviderReported ReasoningEffort)
    : result CarlError RunConfigSnapshot :=
  if negb (valid_value_source_pair (is_some model) model_source)
     || negb (valid_value_source_pair (is_some effort) effort_source)
  then Err (validation_error (lit "subscription run configuration provenance is invalid"))
  else Ok {| rc_model := model; rc_model_source := model_source; rc_effort := effort;
             rc_effort_source := effort_source;
             provider_reported_model := provider_reported_model;
             provider_reported_effort := provider_reported_effort |}.

Definition with_provider_reported (self : RunConfigSnapshot)
    (provider_reported_model : ProviderReported ModelId)
    (provider_reported_effort : ProviderReported ReasoningEffort) : RunConfigSnapshot :=
  {| rc_model := self.(rc_model); rc_model_source := self.(rc_model_source);
     rc_effort := self.(rc_effort); rc_effort_source := self.(rc_effort_source);
     provider_reported_model := provider_reported_model;
     provider_reported_effort := provider_reported_effort |}.

(** [Deserialize]: the wire form has the same fields and is accepted only
    through [reconstruct]. *)
Definition RunConfigSnapshot_deserialize (wire : RunConfigSnapshot) : result CarlError RunConfigSnapshot :=
  reconstruct wire.(rc_model) wire.(rc_model_source) wire.(rc_effort) wire.(rc_effort_source)
    wire.(provider_reported_model) wire.(provider_reported_effort).

Record RunTransition := {
  rt_from : RunState;
  rt_to : RunState;
  rt_failure_code : option RunFailureCode
}.

Definition RunTransition_new (from to : RunState) (failure_code : option RunFailureCode)
    : result CarlError RunTransition :=
  _ ← reject (negb (can_transition_to from to))
        (validation_error (lit "subscription run transition is invalid"));
  _ ← reject (negb (Bool.eqb (to =?? RunState.Failed) (is_some failure_code)))
        (validation_error (lit "subscription run failure code does not match its state"));
  Ok {| rt_from := from; rt_to := to; rt_failure_code := failure_code |}.

Definition RunTransition_deserialize (wire : RunTransition) : result CarlError RunTransition :=
  RunTransition_new wire.(rt_from) wire.(rt_to) wire.(rt_failure_code).

(** ** Properties *)

(** A chain of accepted transitions, each starting where the previous ended. *)
Inductive run_chain : RunState -> list RunTransition -> RunState -> Prop :=
| run_nil s : run_chain s [] s
| run_cons s t ts last :
    RunTransition_new s (rt_to t) (rt_failure_code t) = Ok t ->
    run_chain (rt_to t) ts last -> run_chain s (t :: ts) last.

Lemma RunTransition_new_ok from to code t :
  RunTransition_new from to code = Ok t ->
  can_transition_to from to = true /\ (to = RunState.Failed <-> is_Some code)
  /\ t = {| rt_from := from; rt_to := to; rt_failure_code := code |}.
Proof.
  unfold RunTransition_new. intros H. carl_simpl. split; [done|]. split; [|done].
  match goal with H : Bool.eqb _ _ = true |- _ => apply Bool.eqb_prop in H as Heq end.
  rewrite <-is_some_true, <-Heq, bool_decide_eq_true. done.
Qed.

(** The position of a state in the pipeline; every transition moves it forward. *)
Definition run_rank (s : RunState) : nat :=
  match s with
  | RunState.Prepared => 0
  | RunState.AwaitingDelegateApproval => 1
  | RunState.Running => 2
  | RunState.Inspecting => 3
  | RunState.Verifying => 4
  | RunState.AwaitingPromotionApproval => 5
  | _ => 6
  end%nat.

Lemma can_transition_rank from to :
  can_transition_to from to = true -> (run_rank from < run_rank to)%nat.
Proof. destruct from, to; simpl; intros; try done; lia. Qed.

Lemma run_rank_max s : (run_rank s <= 6)%nat.
Proof. destruct s; simpl; lia. Qed.

Lemma run_chain_terminal s ts last :
  run_chain s ts last -> RunState_is_terminal s = true -> ts = [] /\ last = s.
Proof.
  intros Hrun Hterm. destruct Hrun as [|s t ts last Ht _]; [done|].
  apply RunTransition_new_ok in Ht as (H & _). by destruct s, (rt_to t).
Qed.

(** Every chain of transitions is finite: a run takes at most six
    transitions from preparation, and none at all from a terminal state. *)
Theorem run_chain_bounded s ts last :
  run_chain s ts last ->
  (length ts <= 6 - run_rank s)%nat /\ (RunState_is_terminal s = true -> ts = []).
Proof.
  intros Hrun. split.
  - induction Hrun as [|s t ts last Ht _ IH]; simpl; [lia|].
    apply RunTransition_new_ok in Ht as (H%can_transition_rank & _).
    pose proof (run_rank_max (rt_to t)). lia.
  - intros Hterm. by eapply run_chain_terminal.
Qed.

(** The stages of the pipeline in order. *)
Definition pipeline : list RunState :=
  [RunState.AwaitingDelegateApproval; RunState.Running; RunState.Inspecting;
   RunState.Verifying; RunState.AwaitingPromotionApproval; RunState.Promoted].

(** A chain into promotion visits exactly the stages after its first state. *)
Lemma promotion_suffix s ts :
  run_chain s ts RunState.Promoted ->
  s = RunState.Promoted \/ rt_to <$> ts = drop (run_rank s) pipeline.
Proof.
  intros Hrun. remember RunState.Promoted as last eqn:Hlast.
  induction Hrun as [|s t ts last Ht Hrun IH]; [by left|]. right.
  apply RunTransition_new_ok in Ht as (Hedge & _). rewrite fmap_cons.
  destruct t as [from to code]; cbn [rt_to] in *.
  destruct (RunState_is_terminal to) eqn:Hterm.
  - destruct (run_chain_terminal _ _ _ Hrun Hterm) as [-> Heq]. subst. by destruct s.
  - destruct (IH Hlast) as [IH'|IH']; [by subst|]. rewrite IH'. by destruct s, to.
Qed.

(** a run that was prepared and ends up promoted went through delegate
    approval, execution, inspection, verification and promotion approval, each
    exactly once and in that order: there is no shortcut to promotion. *)
Theorem promotion_requires_pipeline ts :
  run_chain RunState.Prepared ts RunState.Promoted -> rt_to <$> ts = pipeline.
Proof. by intros [|]%promotion_suffix. Qed.

Definition promoted_run : list RunTransition :=
  zip_with (fun from to => {| rt_from := from; rt_to := to; rt_failure_code := None |})
    (RunState.Prepared :: pipeline) pipeline.

(** Run states, failure codes and trust labels are stored by name without
    loss: a name parses to a value exactly when it is the name the value prints
    as. *)
Theorem run_names_roundtrip s :
  (forall state, RunState_parse s = Ok state <-> s = RunState_as_str state)
  /\ (forall code, RunFailureCode_parse s = Ok code <-> s = RunFailureCode_as_str code)
  /\ (forall label, RunTrustLabel_parse s = Ok label <-> s = RunTrustLabel_as_str label).
Proof.
  split; [|split]; intros v;
    (split; [|intros ->; destruct v; vm_compute; reflexivity]);
    unfold RunState_parse, RunFailureCode_parse, RunTrustLabel_parse; intros H;
    repeat (case_match eqn:Hs; [apply bool_decide_eq_true in Hs as ->; by simplify_eq|clear Hs]); done.
Qed.

Lemma resolved_pair {A} (field : DelegateSettings -> option A) layers v source :
  resolved_from field layers v source -> valid_value_source_pair (is_some v) source = true.
Proof.
  intros [(before & after & settings & x & Hl & _ & -> & _)|(_ & -> & ->)]; [|done].
  assert (source <> SettingSource.ProviderDefault).
  { intros ->. unfold layer_order in Hl.
    do 5 (destruct before as [|? before]; simplify_eq/=). }
  unfold valid_value_source_pair. by rewrite bool_decide_eq_false_2.
Qed.

Lemma resolve_pairs layers :
  valid_value_source_pair (is_some (rs_model (resolve layers))) (rs_model_source (resolve layers)) = true
  /\ valid_value_source_pair (is_some (rs_effort (resolve layers))) (rs_effort_source (resolve layers)) = true.
Proof.
  pose proof (resolve_spec layers) as [Hm He]. eauto using resolved_pair.
Qed.

(** The configuration built from resolved settings always satisfies the
    provenance check, so what a run stores is accepted when it is read back, and
    observing the provider keeps it so. *)
Theorem resolved_configuration_accepted layers model effort :
  RunConfigSnapshot_deserialize (from_resolved (resolve layers))
    = Ok (from_resolved (resolve layers))
  /\ RunConfigSnapshot_deserialize (with_provider_reported (from_resolved (resolve layers)) model effort)
    = Ok (with_provider_reported (from_resolved (resolve layers)) model effort).
Proof.
  destruct (resolve_pairs layers) as [Hm He].
  unfold RunConfigSnapshot_deserialize, reconstruct. simpl. rewrite Hm, He. done.
Qed.
