(* ===== verification/TaskTypes.v ===== *)
(** * Task types ([src/runtime/task/types.rs])

    The data of the long-horizon task engine: the completion contract, task and
    operation statuses, the evidence ledger of an operation, the task snapshot
    and the task events, with the validation every event passes before it is
    reduced or stored.

    UUIDs are their 128-bit values, sequence numbers and counters are [Z] with
    the checked arithmetic of their width, a [PathBuf] is its bytes (Unix), a
    [BTreeMap] is a [gmap] and a [BTreeSet<u64>] a [gset].  The two enums of
    [progress.rs] that events carry are declared here.

    The theorems of this file are about validation and the evidence ledger: the
    validator of a contract accepts exactly the well-formed contracts, the
    streaming visitor for evidence sequences agrees with the validator that runs
    on the finished list, and a transition can only consume evidence that was
    recorded for the operation after its last transition and never before. *)
From S2P Require Import Prelude Ord Text Settings Policy.
From stdpp Require Import base gmap list sorting strings.
From Stdlib Require Import ZArith Lia.
#[local] Open Scope list_scope.
#[local] Open Scope Z_scope.

Definition MAX_CONTRACT_TEXT_BYTES : Z := 16 * 1024.
Definition MAX_CLAUSES : Z := 64.
Definition MAX_CONSTRAINTS : Z := 128.
Definition MAX_TASK_EVENT_TEXT_BYTES : Z := 16 * 1024.
Definition MAX_TASK_EVENT_IDENTIFIER_BYTES : Z := 128.
Definition MAX_TASK_EVENT_EVIDENCE_SEQUENCES : Z := 256.
Definition MAX_FILE_POSTCONDITION_ENTRIES : Z := 256.
Definition MAX_FILE_POSTCONDITION_PATH_BYTES : Z := 4 * 1024.
Definition DEFAULT_SOFT_EPOCH_SECONDS : Z := 15 * 60.
Definition DEFAULT_SOFT_EPOCH_TOOL_CALLS : Z := 40.

Abbreviation TaskId := Z (only parsing).
Abbreviation EpochId := Z (only parsing).
Abbreviation OperationId := Z (only parsing).
Abbreviation CheckpointId := Z (only parsing).
Abbreviation ContextPackageId := Z (only parsing).
Abbreviation PathBuf := (list Z) (only parsing).

(** ** Completion contracts *)

Module ClauseStatus.
Inductive ClauseStatus : Set := Pending | Satisfied | Failed.
End ClauseStatus.
Abbreviation ClauseStatus := ClauseStatus.ClauseStatus.
#[export] Instance ClauseStatus_eq_dec : EqDecision ClauseStatus.
Proof. solve_decision. Defined.

Record EvidenceRef := {
  event_sequence : Z;
  artifact_digest : option str;
  er_operation_id : option OperationId
}.
#[export] Instance EvidenceRef_eq_dec : EqDecision EvidenceRef.
Proof. solve_decision. Defined.

Record CompletionClause := {
  clause_id : str;
  description : str;
  required : bool;
  clause_status : ClauseStatus;
  clause_evidence : list EvidenceRef
}.
#[export] Instance CompletionClause_eq_dec : EqDecision CompletionClause.
Proof. solve_decision. Defined.

Record CompletionContract := {
  version : Z;
  goal : str;
  constraints : list str;
  clauses : list CompletionClause
}.
#[export] Instance CompletionContract_eq_dec : EqDecision CompletionContract.
Proof. solve_decision. Defined.

Module TaskValidationErrorCode.
Inductive TaskValidationErrorCode : Set :=
| EmptyGoal | EmptyClauseId | DuplicateClauseId | TooManyClauses | TooManyConstraints
| TextTooLong | ControlCharacter | EmptyEventField | InvalidWorkspace
| TooManyEvidenceSequences | InvalidEvidenceSequence | InvalidFilePostcondition | InvalidBudget.
End TaskValidationErrorCode.
Abbreviation TaskValidationErrorCode := TaskValidationErrorCode.TaskValidationErrorCode.
#[export] Instance TaskValidationErrorCode_eq_dec : EqDecision TaskValidationErrorCode.
Proof. solve_decision. Defined.

Definition validate_text (value : str) : result TaskValidationErrorCode unit :=
  _ ← reject (MAX_CONTRACT_TEXT_BYTES <? len value) TaskValidationErrorCode.TextTooLong;
  reject (existsb is_control value) TaskValidationErrorCode.ControlCharacter.

(** The body of the loop over the clauses; [clause_ids] is the [HashSet]. *)
Definition validate_clause (clause_ids : gset str) (clause : CompletionClause)
    : result TaskValidationErrorCode (gset str) :=
  _ ← reject (is_empty clause.(clause_id)) TaskValidationErrorCode.EmptyClauseId;
  _ ← validate_text clause.(clause_id);
  _ ← validate_text clause.(description);
  _ ← reject (bool_decide (clause.(clause_id) ∈ clause_ids))
        TaskValidationErrorCode.DuplicateClauseId;
  _ ← try_for_each (fun evidence =>
        match evidence.(artifact_digest) with
        | Some digest => validate_text digest
        | None => Ok tt
        end) clause.(clause_evidence);
  Ok ({[clause.(clause_id)]} ∪ clause_ids).

Definition CompletionContract_validate (self : CompletionContract)
    : result TaskValidationErrorCode unit :=
  _ ← reject (is_empty (trim self.(goal))) TaskValidationErrorCode.EmptyGoal;
  _ ← validate_text self.(goal);
  _ ← reject (MAX_CONSTRAINTS <? Zlen self.(constraints)) TaskValidationErrorCode.TooManyConstraints;
  _ ← reject (MAX_CLAUSES <? Zlen self.(clauses)) TaskValidationErrorCode.TooManyClauses;
  _ ← try_for_each validate_text self.(constraints);
  _ ← try_fold validate_clause ∅ self.(clauses);
  Ok tt.

Definition required_clauses_satisfied (self : CompletionContract) : bool :=
  forallb (fun clause =>
    (clause.(clause_status) =?? ClauseStatus.Satisfied) && negb (is_empty clause.(clause_evidence)))
    (filter (fun clause => clause.(required) = true) self.(clauses)).

(** ** Statuses *)

Module TaskStatus.
Inductive TaskStatus : Set :=
| Queued | Active | Checkpointing | Paused | Blocked | Cancelling | Cancelled
| Completing | Completed | Failed.
End TaskStatus.
Abbreviation TaskStatus := TaskStatus.TaskStatus.
#[export] Instance TaskStatus_eq_dec : EqDecision TaskStatus.
Proof. solve_decision. Defined.

Definition TaskStatus_is_terminal (self : TaskStatus) : bool :=
  match self with
  | TaskStatus.Cancelled | TaskStatus.Completed | TaskStatus.Failed => true
  | _ => false
  end.

Module OperationStatus.
Inductive OperationStatus : Set :=
| IntentRecorded | Started | Succeeded | Failed | Cancelled | Uncertain | Reconciled.
End OperationStatus.
Abbreviation OperationStatus := OperationStatus.OperationStatus.
#[export] Instance OperationStatus_eq_dec : EqDecision OperationStatus.
Proof. solve_decision. Defined.

Definition is_resolved (self : OperationStatus) : bool :=
  match self with
  | OperationStatus.Succeeded | OperationStatus.Failed
  | OperationStatus.Cancelled | OperationStatus.Reconciled => true
  | _ => false
  end.

Definition requires_terminal_evidence (self : OperationStatus) : bool :=
  negb (match self with
        | OperationStatus.IntentRecorded | OperationStatus.Started => true
        | _ => false
        end).

Definition legal_operation_edge (from to : OperationStatus) : bool :=
  match from, to with
  | OperationStatus.IntentRecorded, OperationStatus.Started
  | OperationStatus.Started,
    (OperationStatus.Succeeded | OperationStatus.Failed
     | OperationStatus.Cancelled | OperationStatus.Uncertain)
  | OperationStatus.Uncertain, OperationStatus.Reconciled => true
  | _, _ => false
  end.

(** ** The evidence ledger of an operation *)

Module OperationEvidenceError.
Inductive OperationEvidenceError : Set := IllegalTransition | Missing | Invalid.
End OperationEvidenceError.
Abbreviation OperationEvidenceError := OperationEvidenceError.OperationEvidenceError.

Record OperationEvidenceState := {
  recorded_sequences : gset Z;
  consumed_sequences : list Z
}.
#[export] Instance OperationEvidenceState_eq_dec : EqDecision OperationEvidenceState.
Proof. solve_decision. Defined.

Definition OperationEvidenceState_default : OperationEvidenceState :=
  {| recorded_sequences := ∅; consumed_sequences := [] |}.

Definition from_consumed (consumed : list Z) : OperationEvidenceState :=
  {| recorded_sequences := ∅; consumed_sequences := consumed |}.

Definition OperationEvidenceState_record (self : OperationEvidenceState)
    (status : OperationStatus) (last_transition_sequence sequence : Z)
    : result OperationEvidenceError OperationEvidenceState :=
  if negb (match status with
           | OperationStatus.Started | OperationStatus.Uncertain => true
           | _ => false
           end)
     || (sequence <=? last_transition_sequence)
     || bool_decide (sequence ∈ self.(recorded_sequences))
  then Err OperationEvidenceError.Invalid
  else Ok {| recorded_sequences := {[sequence]} ∪ self.(recorded_sequences);
             consumed_sequences := self.(consumed_sequences) |}.

Definition OperationEvidenceState_transition (self : OperationEvidenceState)
    (status from to : OperationStatus) (last_transition_sequence transition_sequence : Z)
    (evidence_sequences : list Z) : result OperationEvidenceError OperationEvidenceState :=
  _ ← reject (negb (status =?? from) || negb (legal_operation_edge from to))
        OperationEvidenceError.IllegalTransition;
  _ ← reject ((head evidence_sequences =?? Some 0)
              || windows2_any Z.geb evidence_sequences
              || existsb (fun sequence => transition_sequence <=? sequence) evidence_sequences)
        OperationEvidenceError.Invalid;
  if negb (requires_terminal_evidence to) then Ok self
  else
    _ ← reject (is_empty evidence_sequences) OperationEvidenceError.Missing;
    _ ← reject (existsb (fun sequence =>
                  (sequence <=? last_transition_sequence)
                  || negb (bool_decide (sequence ∈ self.(recorded_sequences)))
                  || (sequence ∈? self.(consumed_sequences))) evidence_sequences)
          OperationEvidenceError.Invalid;
    Ok {| recorded_sequences := self.(recorded_sequences);
          consumed_sequences := self.(consumed_sequences) ++ evidence_sequences |}.

(** ** Budgets and small enums *)

Module EffectClass.
Inductive EffectClass : Set := Observation | IdempotentMutation | AmbiguousConsequential.
End EffectClass.
Abbreviation EffectClass := EffectClass.EffectClass.
#[export] Instance EffectClass_eq_dec : EqDecision EffectClass.
Proof. solve_decision. Defined.

Module EpochInterruptReason.
Inductive EpochInterruptReason : Set := PermissionTightening.
End EpochInterruptReason.
Abbreviation EpochInterruptReason := EpochInterruptReason.EpochInterruptReason.

Module TaskControlKind.
Inductive TaskControlKind : Set := Resume | Cancel.
End TaskControlKind.
Abbreviation TaskControlKind := TaskControlKind.TaskControlKind.

Module NormalizedOperationEvidence.
Inductive NormalizedOperationEvidence : Set :=
| Command (completed : bool) (exit_code : option Z)
| FileChange (completed : bool) (artifact_digests : list str).
End NormalizedOperationEvidence.
Abbreviation NormalizedOperationEvidence := NormalizedOperationEvidence.NormalizedOperationEvidence.

Module ProviderRequestPurpose.
Inductive ProviderRequestPurpose : Set := ContractPlanning | Work | Recovery.
End ProviderRequestPurpose.
Abbreviation ProviderRequestPurpose := ProviderRequestPurpose.ProviderRequestPurpose.

Record TaskBudget := {
  max_wall_time_seconds : option Z;
  max_provider_requests : option Z;
  tb_max_tool_calls : option Z;
  soft_epoch_seconds : Z;
  soft_epoch_tool_calls : Z
}.
#[export] Instance TaskBudget_eq_dec : EqDecision TaskBudget.
Proof. solve_decision. Defined.

Definition TaskBudget_validate (self : TaskBudget) : result TaskValidationErrorCode unit :=
  reject ((self.(soft_epoch_seconds) =? 0) || (self.(soft_epoch_tool_calls) =? 0))
    TaskValidationErrorCode.InvalidBudget.

(** [!(lo..=hi).contains(&value)]. *)
Definition outside (lo hi value : Z) : bool := negb ((lo <=? value) && (value <=? hi)).

Definition validate_for_admission (self : TaskBudget) : result TaskValidationErrorCode unit :=
  _ ← TaskBudget_validate self;
  reject (is_some_and self.(max_wall_time_seconds) (outside 1 86400)
          || is_some_and self.(max_provider_requests) (outside 1 10000)
          || is_some_and self.(tb_max_tool_calls) (outside 1 100000)
          || outside 30 3600 self.(soft_epoch_seconds)
          || outside 1 1000 self.(soft_epoch_tool_calls))
    TaskValidationErrorCode.InvalidBudget.

Definition TaskBudget_default : TaskBudget :=
  {| max_wall_time_seconds := None; max_provider_requests := None; tb_max_tool_calls := None;
     soft_epoch_seconds := DEFAULT_SOFT_EPOCH_SECONDS;
     soft_epoch_tool_calls := DEFAULT_SOFT_EPOCH_TOOL_CALLS |}.

(** ** File postconditions *)

Record FilePostconditionEntry := {
  relative_path : str;
  regular_file_digest : option Sha256Digest
}.
#[export] Instance FilePostconditionEntry_eq_dec : EqDecision FilePostconditionEntry.
Proof. solve_decision. Defined.

Abbreviation FilePostcondition := (list FilePostconditionEntry) (only parsing).

Definition FilePostconditionEntry_validate (self : FilePostconditionEntry)
    : result TaskValidationErrorCode unit :=
  let path := self.(relative_path) in
  reject (is_empty path
          || (MAX_FILE_POSTCONDITION_PATH_BYTES <? len path)
          || existsb (fun c => (c =? 92) || (c =? 0) || (c =? 58)) path
          || existsb is_control path
          || existsb (fun component =>
               is_empty component || (component =?? lit ".") || (component =?? lit ".."))
               (split_char 47 path))
    TaskValidationErrorCode.InvalidFilePostcondition.

Definition FilePostconditionEntry_new (path : str) (digest : option Sha256Digest)
    : result TaskValidationErrorCode FilePostconditionEntry :=
  let entry := {| relative_path := path; regular_file_digest := digest |} in
  _ ← FilePostconditionEntry_validate entry;
  Ok entry.

(** [a >= b] on strings. *)
Definition str_ge (a b : str) : bool := match cmp a b with Lt => false | _ => true end.

Definition FilePostcondition_new (entries : list FilePostconditionEntry)
    : result TaskValidationErrorCode FilePostcondition :=
  _ ← reject (is_empty entries
              || (MAX_FILE_POSTCONDITION_ENTRIES <? Zlen entries)
              || windows2_any (fun a b => str_ge a.(relative_path) b.(relative_path)) entries)
        TaskValidationErrorCode.InvalidFilePostcondition;
  _ ← try_for_each FilePostconditionEntry_validate entries;
  Ok entries.

Definition FilePostcondition_validate (self : FilePostcondition) : result TaskValidationErrorCode unit :=
  _ ← FilePostcondition_new self;
  Ok tt.

(** ** Recovery strategies ([src/runtime/task/progress.rs]) *)

Module RecoveryStrategy.
Inductive RecoveryStrategy : Set :=
| ReconstructFromEvidence | ReplaceApproach | FreshContextDiagnosis
| MinimizeReproduction | DeclareBlocked.
End RecoveryStrategy.
Abbreviation RecoveryStrategy := RecoveryStrategy.RecoveryStrategy.
#[export] Instance RecoveryStrategy_eq_dec : EqDecision RecoveryStrategy.
Proof. solve_decision. Defined.

Module RecoveryAttemptOutcome.
Inductive RecoveryAttemptOutcome : Set := Succeeded | Failed.
End RecoveryAttemptOutcome.
Abbreviation RecoveryAttemptOutcome := RecoveryAttemptOutcome.RecoveryAttemptOutcome.
#[export] Instance RecoveryAttemptOutcome_eq_dec : EqDecision RecoveryAttemptOutcome.
Proof. solve_decision. Defined.

(** ** Task snapshots *)

Record OperationSnapshot := {
  os_epoch_id : EpochId;
  os_status : OperationStatus;
  last_transition_sequence : Z;
  postcondition_digest : option Sha256Digest;
  file_postcondition : option FilePostcondition;
  evidence : OperationEvidenceState
}.
#[export] Instance OperationSnapshot_eq_dec : EqDecision OperationSnapshot.
Proof. solve_decision. Defined.

Record TaskSnapshot := {
  task_id : TaskId;
  session_id : SessionId;
  status : TaskStatus;
  contract : CompletionContract;
  budget : TaskBudget;
  active_epoch : option EpochId;
  latest_checkpoint : option CheckpointId;
  provider_context : option str;
  revision : Z;
  operations : gmap OperationId OperationSnapshot;
  pending_recovery : option (EpochId * RecoveryStrategy * str)
}.
#[export] Instance TaskSnapshot_eq_dec : EqDecision TaskSnapshot.
Proof. solve_decision. Defined.

(** Field assignments. *)
Definition with_status (s : TaskStatus) (st : TaskSnapshot) : TaskSnapshot :=
  {| task_id := st.(task_id); session_id := st.(session_id); status := s;
     contract := st.(contract); budget := st.(budget); active_epoch := st.(active_epoch);
     latest_checkpoint := st.(latest_checkpoint); provider_context := st.(provider_context);
     revision := st.(revision); operations := st.(operations);
     pending_recovery := st.(pending_recovery) |}.
Definition with_contract (c : CompletionContract) (st : TaskSnapshot) : TaskSnapshot :=
  {| task_id := st.(task_id); session_id := st.(session_id); status := st.(status);
     contract := c; budget := st.(budget); active_epoch := st.(active_epoch);
     latest_checkpoint := st.(latest_checkpoint); provider_context := st.(provider_context);
     revision := st.(revision); operations := st.(operations);
     pending_recovery := st.(pending_recovery) |}.
Definition with_active_epoch (e : option EpochId) (st : TaskSnapshot) : TaskSnapshot :=
  {| task_id := st.(task_id); session_id := st.(session_id); status := st.(status);
     contract := st.(contract); budget := st.(budget); active_epoch := e;
     latest_checkpoint := st.(latest_checkpoint); provider_context := st.(provider_context);
     revision := st.(revision); operations := st.(operations);
     pending_recovery := st.(pending_recovery) |}.
Definition with_latest_checkpoint (c : option CheckpointId) (st : TaskSnapshot) : TaskSnapshot :=
  {| task_id := st.(task_id); session_id := st.(session_id); status := st.(status);
     contract := st.(contract); budget := st.(budget); active_epoch := st.(active_epoch);
     latest_checkpoint := c; provider_context := st.(provider_context);
     revision := st.(revision); operations := st.(operations);
     pending_recovery := st.(pending_recovery) |}.
Definition with_provider_context (c : option str) (st : TaskSnapshot) : TaskSnapshot :=
  {| task_id := st.(task_id); session_id := st.(session_id); status := st.(status);
     contract := st.(contract); budget := st.(budget); active_epoch := st.(active_epoch);
     latest_checkpoint := st.(latest_checkpoint); provider_context := c;
     revision := st.(revision); operations := st.(operations);
     pending_recovery := st.(pending_recovery) |}.
Definition with_revision (r : Z) (st : TaskSnapshot) : TaskSnapshot :=
  {| task_id := st.(task_id); session_id := st.(session_id); status := st.(status);
     contract := st.(contract); budget := st.(budget); active_epoch := st.(active_epoch);
     latest_checkpoint := st.(latest_checkpoint); provider_context := st.(provider_context);
     revision := r; operations := st.(operations);
     pending_recovery := st.(pending_recovery) |}.
Definition with_operations (ops : gmap OperationId OperationSnapshot) (st : TaskSnapshot) : TaskSnapshot :=
  {| task_id := st.(task_id); session_id := st.(session_id); status := st.(status);
     contract := st.(contract); budget := st.(budget); active_epoch := st.(active_epoch);
     latest_checkpoint := st.(latest_checkpoint); provider_context := st.(provider_context);
     revision := st.(revision); operations := ops;
     pending_recovery := st.(pending_recovery) |}.
Definition with_pending_recovery (p : option (EpochId * RecoveryStrategy * str))
    (st : TaskSnapshot) : TaskSnapshot :=
  {| task_id := st.(task_id); session_id := st.(session_id); status := st.(status);
     contract := st.(contract); budget := st.(budget); active_epoch := st.(active_epoch);
     latest_checkpoint := st.(latest_checkpoint); provider_context := st.(provider_context);
     revision := st.(revision); operations := st.(operations);
     pending_recovery := p |}.

Definition TaskSnapshot_created (task_id : TaskId) (session_id : SessionId)
    (contract : CompletionContract) (budget : TaskBudget) : TaskSnapshot :=
  {| task_id := task_id; session_id := session_id; status := TaskStatus.Queued;
     contract := contract; budget := budget; active_epoch := None; latest_checkpoint := None;
     provider_context := None; revision := 1; operations := ∅; pending_recovery := None |}.

Definition operation_status (self : TaskSnapshot) (operation_id : OperationId)
    : option OperationStatus :=
  os_status <$> self.(operations) !! operation_id.

(** [BTreeMap::insert] returns the value it displaced. *)
Definition insert_operation (self : TaskSnapshot) (operation_id : OperationId)
    (epoch_id : EpochId) (sequence : Z) : TaskSnapshot * option OperationStatus :=
  (with_operations
     (<[operation_id :=
        {| os_epoch_id := epoch_id; os_status := OperationStatus.IntentRecorded;
           last_transition_sequence := sequence; postcondition_digest := None;
           file_postcondition := None; evidence := OperationEvidenceState_default |}]>
        self.(operations)) self,
   os_status <$> self.(operations) !! operation_id).

Definition operation (self : TaskSnapshot) (operation_id : OperationId)
    : option (EpochId * OperationStatus * Z) :=
  (fun op => (op.(os_epoch_id), op.(os_status), op.(last_transition_sequence)))
    <$> self.(operations) !! operation_id.

Definition bind_legacy_operation_postcondition (self : TaskSnapshot) (operation_id : OperationId)
    (digest : Sha256Digest) : TaskSnapshot * bool :=
  match self.(operations) !! operation_id with
  | None => (self, false)
  | Some op =>
    if negb (op.(os_status) =?? OperationStatus.IntentRecorded)
       || is_some op.(postcondition_digest)
    then (self, false)
    else (with_operations
            (<[operation_id :=
               {| os_epoch_id := op.(os_epoch_id); os_status := op.(os_status);
                  last_transition_sequence := op.(last_transition_sequence);
                  postcondition_digest := Some digest;
                  file_postcondition := op.(file_postcondition);
                  evidence := op.(evidence) |}]> self.(operations)) self, true)
  end.

Definition bind_operation_file_postcondition (self : TaskSnapshot) (operation_id : OperationId)
    (postcondition : FilePostcondition) : TaskSnapshot * bool :=
  match self.(operations) !! operation_id with
  | None => (self, false)
  | Some op =>
    if negb (op.(os_status) =?? OperationStatus.Started) || is_some op.(file_postcondition)
    then (self, false)
    else (with_operations
            (<[operation_id :=
               {| os_epoch_id := op.(os_epoch_id); os_status := op.(os_status);
                  last_transition_sequence := op.(last_transition_sequence);
                  postcondition_digest := op.(postcondition_digest);
                  file_postcondition := Some postcondition;
                  evidence := op.(evidence) |}]> self.(operations)) self, true)
  end.

Definition start_recovery (self : TaskSnapshot) (epoch_id : EpochId)
    (strategy : RecoveryStrategy) (strategy_fingerprint : str) : TaskSnapshot * bool :=
  if is_some self.(pending_recovery) then (self, false)
  else (with_pending_recovery (Some (epoch_id, strategy, strategy_fingerprint)) self, true).

Definition finish_recovery (self : TaskSnapshot) : TaskSnapshot := with_pending_recovery None self.

(** [expect("operation existence checked before transition")] panics on a
    missing operation. *)
Definition transition_operation (self : TaskSnapshot) (operation_id : OperationId)
    (from to : OperationStatus) (sequence : Z) (evidence_sequences : list Z)
    : result (or_panic OperationEvidenceError) TaskSnapshot :=
  op ← ok_or (self.(operations) !! operation_id) Panic;
  evidence ← lift (OperationEvidenceState_transition op.(evidence) op.(os_status) from to
               op.(last_transition_sequence) sequence evidence_sequences);
  Ok (with_operations
        (<[operation_id :=
           {| os_epoch_id := op.(os_epoch_id); os_status := to;
              last_transition_sequence := sequence;
              postcondition_digest := op.(postcondition_digest);
              file_postcondition := op.(file_postcondition);
              evidence := evidence |}]> self.(operations)) self).

Definition record_operation_evidence (self : TaskSnapshot) (operation_id : OperationId)
    (sequence : Z) : result (or_panic OperationEvidenceError) TaskSnapshot :=
  op ← ok_or (self.(operations) !! operation_id) Panic;
  evidence ← lift (OperationEvidenceState_record op.(evidence) op.(os_status)
               op.(last_transition_sequence) sequence);
  Ok (with_operations
        (<[operation_id :=
           {| os_epoch_id := op.(os_epoch_id); os_status := op.(os_status);
              last_transition_sequence := op.(last_transition_sequence);
              postcondition_digest := op.(postcondition_digest);
              file_postcondition := op.(file_postcondition);
              evidence := evidence |}]> self.(operations)) self).

Definition has_unresolved_operations (self : TaskSnapshot) : bool :=
  existsb (fun op => negb (is_resolved op.(os_status))) (btree_values self.(operations)).

Definition unresolved_operation_count (self : TaskSnapshot) : Z :=
  Zlen (filter (fun op => is_resolved op.(os_status) = false) (btree_values self.(operations))).

Definition has_in_flight_operations (self : TaskSnapshot) : bool :=
  existsb (fun op => match op.(os_status) with
                     | OperationStatus.IntentRecorded | OperationStatus.Started => true
                     | _ => false
                     end) (btree_values self.(operations)).

Definition started_operation_ids (self : TaskSnapshot) : list OperationId :=
  omap (fun '(operation_id, op) =>
          if op.(os_status) =?? OperationStatus.Started then Some operation_id else None)
    (btree_iter self.(operations)).

(** ** Task events *)

Module TaskEvent.
Inductive TaskEvent :=
| Created (session_id : SessionId) (workspace : PathBuf) (contract : CompletionContract)
    (budget : TaskBudget) (model : ModelId) (effort : ReasoningEffort)
    (permission_mode : PermissionMode)
| StateTransitioned (from to : TaskStatus) (reason : str)
| ContractRevised (contract : CompletionContract)
| EpochStarted (epoch_id : EpochId) (objective : str)
| EpochFinished (epoch_id : EpochId) (report_digest : str)
| EpochInterrupted (epoch_id : EpochId) (reason : EpochInterruptReason)
| ConfigurationQueued (control_id : str) (model : ModelId) (effort : ReasoningEffort)
    (permission_mode : PermissionMode)
| ConfigurationApplied (control_id : str)
| ControlRequested (control_id : str) (kind : TaskControlKind)
| ProviderRequestRecorded (epoch_id : EpochId) (purpose : ProviderRequestPurpose)
    (request_sequence : Z) (request_digest : str)
| ProviderEpochBound (epoch_id : EpochId) (provider_epoch_id : str)
| OperationIntentRecorded (operation_id : OperationId) (epoch_id : EpochId) (item_id : str)
    (effect_class : EffectClass) (request_digest : str)
| OperationPostconditionBound (operation_id : OperationId) (postcondition_digest : Sha256Digest)
| OperationFilePostconditionBound (operation_id : OperationId) (postcondition : FilePostcondition)
| OperationTransitioned (operation_id : OperationId) (from to : OperationStatus)
    (evidence_sequences : list Z)
| OperationEvidenceRecorded (operation_id : OperationId) (result_digest : str)
| NormalizedOperationEvidenceRecorded (operation_id : OperationId)
    (evidence : NormalizedOperationEvidence)
| UsageObserved (epoch_id : EpochId) (total_tokens : Z) (context_window : option Z)
| ProgressAssessed (fingerprint : str) (stalled : bool)
| RecoveryAttemptStarted (epoch_id : EpochId) (strategy : RecoveryStrategy)
    (strategy_fingerprint : str)
| RecoveryAttemptRecorded (epoch_id : EpochId) (strategy : RecoveryStrategy)
    (strategy_fingerprint : str) (outcome : RecoveryAttemptOutcome)
| CheckpointCommitted (checkpoint_id : CheckpointId) (digest : str)
| CompactionRequested (generation : Z) (reason : str)
| CompactionCompleted (generation : Z) (checkpoint_id : CheckpointId)
    (context_package_id : ContextPackageId)
| ProviderContextBound (context_id : str)
| ProviderContextLost (context_id : str) (reason : str)
| SteeringQueued (steering_sequence : Z) (text_digest : str)
| BackgroundProcessTerminationRecorded (process_id item_id : str) (terminated : bool)
| CancellationRequested
| Blocked (reason : str)
| Completed.
End TaskEvent.
Abbreviation TaskEvent := TaskEvent.TaskEvent.

(** ** Validation of events *)

Definition is_lowercase_sha256 (value : str) : bool :=
  (len value =? 64) && forallb is_hex_byte (utf8 value).

Definition validate_control_id (value : str) : result TaskValidationErrorCode unit :=
  if is_lowercase_sha256 value then Ok tt else Err TaskValidationErrorCode.EmptyEventField.

Definition validate_event_string (value : str) (max_bytes : Z) : result TaskValidationErrorCode unit :=
  _ ← reject (is_empty (trim value)) TaskValidationErrorCode.EmptyEventField;
  _ ← reject (max_bytes <? len value) TaskValidationErrorCode.TextTooLong;
  reject (existsb is_control value) TaskValidationErrorCode.ControlCharacter.

Definition validate_event_text (value : str) : result TaskValidationErrorCode unit :=
  validate_event_string value MAX_TASK_EVENT_TEXT_BYTES.

Definition validate_event_identifier (value : str) : result TaskValidationErrorCode unit :=
  validate_event_string value MAX_TASK_EVENT_IDENTIFIER_BYTES.

(** [Path::has_root] on Unix. *)
Definition has_root (path : PathBuf) : bool := head path =?? Some 47.

Definition validate_workspace (workspace : PathBuf) : result TaskValidationErrorCode unit :=
  workspace_text ← ok_or (from_utf8 workspace) TaskValidationErrorCode.InvalidWorkspace;
  reject (negb (has_root workspace)
          || (MAX_TASK_EVENT_TEXT_BYTES <? len workspace_text)
          || existsb is_control workspace_text)
    TaskValidationErrorCode.InvalidWorkspace.

Definition validate_evidence_sequences (sequences : list Z) : result TaskValidationErrorCode unit :=
  _ ← reject (MAX_TASK_EVENT_EVIDENCE_SEQUENCES <? Zlen sequences)
        TaskValidationErrorCode.TooManyEvidenceSequences;
  reject ((head sequences =?? Some 0) || windows2_any Z.geb sequences)
    TaskValidationErrorCode.InvalidEvidenceSequence.

(** The two ways [visit_seq] refuses its input. *)
Inductive visit_error : Set := TooMany | NotStrictlyOrdered.

(** [EvidenceSequencesVisitor::visit_seq]: the streaming reader of a list of
    evidence sequences; [values] is what it has pushed so far. *)
Fixpoint visit_seq (values : list Z) (sequence : list Z) : result visit_error (list Z) :=
  match sequence with
  | [] => Ok values
  | value :: sequence' =>
    if Zlen values =? MAX_TASK_EVENT_EVIDENCE_SEQUENCES then Err TooMany
    else if (value =? 0) || is_some_and (last values) (fun previous => value <=? previous)
    then Err NotStrictlyOrdered
    else visit_seq (values ++ [value]) sequence'
  end.

Definition validate_normalized_evidence (evidence : NormalizedOperationEvidence)
    : result TaskValidationErrorCode unit :=
  match evidence with
  | NormalizedOperationEvidence.Command _ _ => Ok tt
  | NormalizedOperationEvidence.FileChange _ artifact_digests =>
    if (MAX_TASK_EVENT_EVIDENCE_SEQUENCES <? Zlen artifact_digests)
       || existsb (fun digest => negb (is_lowercase_sha256 digest)) artifact_digests
    then Err TaskValidationErrorCode.InvalidEvidenceSequence
    else Ok tt
  end.

Definition TaskEvent_validate (self : TaskEvent) : result TaskValidationErrorCode unit :=
  match self with
  | TaskEvent.Created _ workspace contract budget _ _ _ =>
    _ ← validate_workspace workspace;
    _ ← CompletionContract_validate contract;
    TaskBudget_validate budget
  | TaskEvent.StateTransitioned _ _ reason
  | TaskEvent.CompactionRequested _ reason
  | TaskEvent.Blocked reason => validate_event_text reason
  | TaskEvent.ContractRevised contract => CompletionContract_validate contract
  | TaskEvent.EpochStarted _ objective => validate_event_text objective
  | TaskEvent.EpochFinished _ report_digest => validate_event_identifier report_digest
  | TaskEvent.ProviderRequestRecorded _ _ _ request_digest =>
    validate_event_identifier request_digest
  | TaskEvent.ConfigurationQueued control_id _ _ _
  | TaskEvent.ConfigurationApplied control_id
  | TaskEvent.ControlRequested control_id _ => validate_control_id control_id
  | TaskEvent.ProviderEpochBound _ provider_epoch_id => validate_event_identifier provider_epoch_id
  | TaskEvent.OperationIntentRecorded _ _ item_id _ request_digest =>
    _ ← validate_event_identifier item_id;
    validate_event_identifier request_digest
  | TaskEvent.OperationPostconditionBound _ _ => Ok tt
  | TaskEvent.OperationFilePostconditionBound _ postcondition =>
    FilePostcondition_validate postcondition
  | TaskEvent.OperationTransitioned _ _ _ evidence_sequences =>
    validate_evidence_sequences evidence_sequences
  | TaskEvent.OperationEvidenceRecorded _ result_digest => validate_event_identifier result_digest
  | TaskEvent.NormalizedOperationEvidenceRecorded _ evidence =>
    validate_normalized_evidence evidence
  | TaskEvent.ProgressAssessed fingerprint _ => validate_event_identifier fingerprint
  | TaskEvent.RecoveryAttemptStarted _ strategy strategy_fingerprint
  | TaskEvent.RecoveryAttemptRecorded _ strategy strategy_fingerprint _ =>
    reject ((strategy =?? RecoveryStrategy.DeclareBlocked)
            || negb (is_lowercase_sha256 strategy_fingerprint))
      TaskValidationErrorCode.EmptyEventField
  | TaskEvent.CheckpointCommitted _ digest => validate_event_identifier digest
  | TaskEvent.ProviderContextBound context_id => validate_event_identifier context_id
  | TaskEvent.ProviderContextLost context_id reason =>
    _ ← validate_event_identifier context_id;
    validate_event_text reason
  | TaskEvent.SteeringQueued _ text_digest => validate_event_identifier text_digest
  | TaskEvent.BackgroundProcessTerminationRecorded process_id item_id _ =>
    _ ← validate_event_identifier process_id;
    validate_event_identifier item_id
  | TaskEvent.UsageObserved _ _ _
  | TaskEvent.EpochInterrupted _ _
  | TaskEvent.CompactionCompleted _ _ _
  | TaskEvent.CancellationRequested
  | TaskEvent.Completed => Ok tt
  end.

(** ** Effect classification *)

Module AgentEffectKind.
Inductive AgentEffectKind : Set := Command | FileChange | Network | External.
End AgentEffectKind.
Abbreviation AgentEffectKind := AgentEffectKind.AgentEffectKind.

(** [src/runtime/agent_port.rs]; [changes] is a JSON value, kept as its text. *)
Module AgentItem.
Inductive AgentItem : Set :=
| Command (item_id command : str) (cwd : PathBuf) (item_status : str) (exit_code : option Z)
    (aggregated_output process_id : option str)
| FileChange (item_id item_status changes : str)
| ContextCompaction (item_id : str)
| Other (item_id item_type : str).
End AgentItem.
Abbreviation AgentItem := AgentItem.AgentItem.

Definition AgentItem_item_id (self : AgentItem) : str :=
  match self with
  | AgentItem.Command item_id _ _ _ _ _ _
  | AgentItem.FileChange item_id _ _
  | AgentItem.ContextCompaction item_id
  | AgentItem.Other item_id _ => item_id
  end.

Record AgentEffectRequest := {
  ae_context_id : str;
  ae_epoch_id : str;
  ae_request_id : str;
  ae_item_id : str;
  ae_kind : AgentEffectKind;
  ae_summary : str;
  ae_request_digest : Sha256Digest
}.

Definition classify_effect (request : AgentEffectRequest) (item : AgentItem) : EffectClass :=
  match request.(ae_kind), item with
  | AgentEffectKind.FileChange, AgentItem.FileChange item_id _ _ =>
    if request.(ae_item_id) =?? item_id then EffectClass.IdempotentMutation
    else EffectClass.AmbiguousConsequential
  | _, _ => EffectClass.AmbiguousConsequential
  end.

(** ** Properties of validation *)

(** What a well-formed contract is, stated without the order of the checks. *)
Definition text_ok (value : str) : Prop :=
  len value <= MAX_CONTRACT_TEXT_BYTES /\ Forall (fun c => is_control c = false) value.

Definition clause_ok (clause : CompletionClause) : Prop :=
  clause.(clause_id) <> [] /\ text_ok clause.(clause_id) /\ text_ok clause.(description)
  /\ Forall (fun e => forall digest, e.(artifact_digest) = Some digest -> text_ok digest)
       clause.(clause_evidence).

Definition contract_ok (c : CompletionContract) : Prop :=
  ~ Forall (fun ch => is_whitespace ch = true) c.(goal) /\ text_ok c.(goal)
  /\ Zlen c.(constraints) <= MAX_CONSTRAINTS /\ Zlen c.(clauses) <= MAX_CLAUSES
  /\ Forall text_ok c.(constraints) /\ Forall clause_ok c.(clauses)
  /\ NoDup (clause_id <$> c.(clauses)).

Lemma validate_text_ok value u : validate_text value = Ok u <-> text_ok value.
Proof.
  unfold validate_text, text_ok. rewrite <-existsb_false, bind_ok. split.
  - intros (_ & ?%reject_ok & ?%reject_ok). split; [lia|done].
  - intros [? Hc]. exists tt. rewrite !reject_ok. split; [lia|done].
Qed.

Lemma is_empty_false {A} (l : list A) : is_empty l = false <-> l <> [].
Proof. by destruct l. Qed.

Lemma validate_clause_ok ids clause ids' :
  validate_clause ids clause = Ok ids'
  <-> clause_ok clause /\ (clause.(clause_id) ∉ ids) /\ ids' = ({[clause.(clause_id)]} ∪ ids).
Proof.
  unfold validate_clause, clause_ok. split.
  - intros H. carl_simpl.
    repeat match goal with H : validate_text _ = Ok _ |- _ => apply validate_text_ok in H end.
    rewrite is_empty_false in *. split; [|done]. do 3 (split; [done|]).
    eapply Forall_impl; [eassumption|]. intros e He digest Hd. simpl in He.
    rewrite Hd in He. by apply validate_text_ok in He.
  - intros ((Hne & Hid & Hdesc & Hev) & Hfresh & ->).
    apply is_empty_false in Hne. rewrite Hne.
    apply (validate_text_ok _ tt) in Hid as ->. apply (validate_text_ok _ tt) in Hdesc as ->.
    rewrite bool_decide_eq_false_2 by done. simpl.
    assert (try_for_each (fun e => match artifact_digest e with
              | Some digest => validate_text digest | None => Ok tt end)
              (clause_evidence clause) = Ok tt) as ->; [|done].
    apply try_for_each_ok. eapply Forall_impl; [exact Hev|]. intros e He. simpl.
    destruct (artifact_digest e) as [digest|] eqn:Hd; [|done]. by apply validate_text_ok, He.
Qed.

Lemma validate_clauses_ok ids cs ids' :
  try_fold validate_clause ids cs = Ok ids' ->
  Forall clause_ok cs /\ NoDup (clause_id <$> cs) /\ Forall (fun c => c.(clause_id) ∉ ids) cs.
Proof.
  revert ids. induction cs as [|c cs IH]; intros ids H; simpl in *.
  { repeat constructor. }
  carl_simpl. match goal with H : validate_clause _ _ = Ok _ |- _ =>
    apply validate_clause_ok in H as (? & ? & ->) end.
  apply IH in H as (Hok & Hnd & Hfresh). rewrite Forall_forall in Hfresh.
  split; [by constructor|]. split.
  - apply NoDup_cons. split; [|done]. rewrite list_elem_of_fmap.
    intros (d & Heq & Hd). apply (Hfresh d Hd). set_solver.
  - constructor; [done|]. apply Forall_forall. intros d Hd Hin.
    apply (Hfresh d Hd). set_solver.
Qed.

Lemma validate_clauses_complete ids cs :
  Forall clause_ok cs -> NoDup (clause_id <$> cs) -> Forall (fun c => c.(clause_id) ∉ ids) cs ->
  exists ids', try_fold validate_clause ids cs = Ok ids'.
Proof.
  revert ids. induction cs as [|c cs IH]; intros ids Hok Hnd Hfresh; simpl; [by eexists|].
  apply Forall_cons in Hok as [Hc Hok]. apply Forall_cons in Hfresh as [Hf Hfresh].
  rewrite fmap_cons in Hnd. apply NoDup_cons in Hnd as [Hn Hnd].
  rewrite (proj2 (validate_clause_ok ids c ({[clause_id c]} ∪ ids))) by done. simpl.
  apply IH; [done|done|]. rewrite Forall_forall in *. intros d Hd Hin.
  apply elem_of_union in Hin as [Heq%elem_of_singleton|Hin]; [|by apply (Hfresh d Hd)].
  apply Hn. rewrite list_elem_of_fmap. by exists d.
Qed.

(** the validator of a completion contract accepts exactly the contracts
    with a non-blank goal, bounded control-free text, at most 128 constraints
    and 64 clauses, and pairwise distinct non-empty clause identifiers. *)
Theorem contract_validate_exact c :
  CompletionContract_validate c = Ok tt <-> contract_ok c.
Proof.
  unfold CompletionContract_validate, contract_ok. rewrite <-trim_empty. split.
  - intros H. carl_simpl.
    repeat match goal with H : validate_text _ = Ok _ |- _ => apply validate_text_ok in H end.
    match goal with H : try_fold _ _ _ = Ok _ |- _ =>
      apply validate_clauses_ok in H as (? & ? & _) end.
    split; [congruence|]. split; [done|]. split; [lia|]. split; [lia|]. split; [|done].
    eapply Forall_impl; [eassumption|]. intros x. apply validate_text_ok.
  - intros (Hgoal & Htext & Hk & Hc & Hks & Hcs & Hnd).
    apply not_true_is_false in Hgoal. rewrite Hgoal. simpl.
    apply (validate_text_ok _ tt) in Htext as ->. simpl.
    rewrite (proj2 (reject_ok _ _ tt)) by lia. simpl.
    rewrite (proj2 (reject_ok _ _ tt)) by lia. simpl.
    rewrite (proj2 (try_for_each_ok _ _ tt)).
    2: { eapply Forall_impl; [exact Hks|]. intros x. apply validate_text_ok. }
    simpl. destruct (validate_clauses_complete ∅ (clauses c)) as [ids ->]; try done.
    apply Forall_forall. set_solver.
Qed.

(** ** Evidence sequences *)

(** What both readers of evidence sequences accept: a bounded, strictly
    increasing list of positive sequence numbers. *)
Definition sequences_ok (l : list Z) : Prop :=
  Zlen l <= MAX_TASK_EVENT_EVIDENCE_SEQUENCES /\ StronglySorted Z.lt l /\ Forall (fun x => 0 < x) l.

Lemma strict_positive (l : list Z) :
  Forall (fun x => 0 <= x) l -> StronglySorted Z.lt l -> head l <> Some 0 ->
  Forall (fun x => 0 < x) l.
Proof.
  intros Hnn Hs Hh. destruct l as [|x l]; [done|].
  apply Forall_cons in Hnn as [? _]. apply StronglySorted_inv in Hs as [_ Hx].
  assert (0 < x) by (simpl in Hh; destruct (Z.eq_dec x 0); [by subst|lia]).
  constructor; [done|]. eapply Forall_impl; [exact Hx|]. simpl. lia.
Qed.

Lemma validate_evidence_sequences_ok l :
  Forall (fun x => 0 <= x) l -> validate_evidence_sequences l = Ok tt <-> sequences_ok l.
Proof.
  intros Hnn. unfold validate_evidence_sequences, sequences_ok.
  rewrite bind_ok. split.
  - intros (? & Hlen & Hrest). carl_simpl. rewrite windows2_geb_strict in *.
    split; [lia|]. split; [done|]. by apply strict_positive.
  - intros (Hlen & Hs & Hpos). exists tt. rewrite !reject_ok, orb_false_iff.
    rewrite windows2_geb_strict, bool_decide_eq_false. split; [lia|]. split; [|done].
    destruct Hpos; simpl; [done|]. intros [=]. lia.
Qed.

Lemma last_snoc_strict (l : list Z) x :
  StronglySorted Z.lt (l ++ [x]) <->
  StronglySorted Z.lt l /\ (forall y, last l = Some y -> y < x).
Proof.
  split.
  - intros H. split; [by eapply StronglySorted_app_1_l|].
    intros y Hy. apply last_Some in Hy as [l' ->].
    eapply (StronglySorted_app_1_elem_of Z.lt (l' ++ [y]) [x]); [done|set_solver|set_solver].
  - intros [Hl Hlast]. apply StronglySorted_app_2; [|done|repeat constructor].
    intros a b Ha ->%list_elem_of_singleton.
    destruct (last l) as [y|] eqn:E; [|apply last_None in E; set_solver].
    specialize (Hlast y eq_refl). apply last_Some in E as [l' ->].
    apply elem_of_app in Ha as [Ha| ->%list_elem_of_singleton]; [|done].
    enough (a < y) by lia.
    by eapply (StronglySorted_app_1_elem_of Z.lt l' [y]); [done..|set_solver].
Qed.

Lemma visit_seq_spec values l :
  sequences_ok values -> Forall (fun x => 0 <= x) l ->
  forall r, visit_seq values l = Ok r <-> r = values ++ l /\ sequences_ok (values ++ l).
Proof.
  revert values. induction l as [|x l IH]; intros values Hv Hnn r; simpl.
  { rewrite app_nil_r. naive_solver. }
  apply Forall_cons in Hnn as [Hx Hnn].
  replace (values ++ x :: l) with ((values ++ [x]) ++ l) by (by rewrite <-app_assoc).
  destruct Hv as (Hlen & Hs & Hpos).
  pose proof (Zlen_app (values ++ [x]) l) as Hlen'. rewrite (Zlen_app values [x]) in Hlen'.
  simpl in Hlen'. pose proof (Zlen_nonneg l).
  destruct (Zlen values =? MAX_TASK_EVENT_EVIDENCE_SEQUENCES) eqn:Efull.
  { split; [done|]. intros [_ [? _]]. lia. }
  destruct ((x =? 0) || is_some_and (last values) (fun previous => x <=? previous)) eqn:Ebad.
  - split; [done|]. intros [_ (_ & Hs' & Hpos')]. exfalso.
    apply StronglySorted_app_1_l in Hs'. apply last_snoc_strict in Hs' as [_ Hlast].
    rewrite !Forall_app, Forall_singleton in Hpos'.
    destruct (last values) as [y|]; simpl in Ebad; [specialize (Hlast y eq_refl)|]; lia.
  - apply IH; [|done]. apply orb_false_iff in Ebad as [? Hlast].
    split; [rewrite Zlen_app; simpl; lia|]. split.
    + apply last_snoc_strict. split; [done|]. intros y Hy. rewrite Hy in Hlast. simpl in Hlast. lia.
    + apply Forall_app. split; [done|]. constructor; [lia|done].
Qed.

(** the streaming reader of evidence sequences and the validator of a
    finished list agree: on unsigned input the reader returns the list unchanged
    exactly when the validator accepts it. *)
Theorem visit_seq_agrees l r :
  Forall (fun x => u64 x) l ->
  visit_seq [] l = Ok r <-> r = l /\ validate_evidence_sequences l = Ok tt.
Proof.
  intros Hl. assert (Forall (fun x => 0 <= x) l) as Hnn.
  { eapply Forall_impl; [exact Hl|]. unfold in_range. simpl. lia. }
  rewrite validate_evidence_sequences_ok by done.
  apply (visit_seq_spec []); [|done].
  split; [vm_compute; discriminate|]. split; constructor.
Qed.

(** ** The evidence ledger *)

(** Evidence a transition may consume: recorded for the operation, later than
    its last transition, earlier than this one, and not consumed before. *)
Definition consumable (self : OperationEvidenceState) (last now s : Z) : Prop :=
  last < s < now /\ s ∈ self.(recorded_sequences) /\ s ∉ self.(consumed_sequences).

(** The specification of a transition of the ledger. *)
Definition ledger_step (self : OperationEvidenceState) (status from to : OperationStatus)
    (last now : Z) (ev : list Z) (self' : OperationEvidenceState) : Prop :=
  status = from /\ legal_operation_edge from to = true
  /\ head ev <> Some 0 /\ StronglySorted Z.lt ev /\ Forall (fun s => s < now) ev
  /\ if requires_terminal_evidence to
     then ev <> [] /\ Forall (consumable self last now) ev
          /\ self' = {| recorded_sequences := self.(recorded_sequences);
                        consumed_sequences := self.(consumed_sequences) ++ ev |}
     else self' = self.

Lemma evidence_transition_spec self status from to last now ev self' :
  OperationEvidenceState_transition self status from to last now ev = Ok self'
  <-> ledger_step self status from to last now ev self'.
Proof.
  unfold OperationEvidenceState_transition, ledger_step. split.
  - intros H. carl_simpl. rewrite windows2_geb_strict in *.
    assert (Forall (fun s => s < now) ev) as Hnow.
    { eapply Forall_impl; [eassumption|]. simpl. lia. }
    do 5 (split; [done|]).
    destruct (requires_terminal_evidence to); simpl in *; [|congruence].
    carl_simpl. rewrite is_empty_false in *. split; [done|]. split; [|done].
    rewrite Forall_forall in *. intros s Hs. unfold consumable.
    match goal with Hev : forall x, x ∈ ev -> _ || _ = false |- _ => specialize (Hev s Hs) end.
    specialize (Hnow s Hs). carl_simpl. split; [lia|]. done.
  - intros (-> & Hedge & Hhead & Hs & Hnow & Hto).
    rewrite (bool_decide_eq_true_2 (from = from)), Hedge by done. simpl.
    rewrite (bool_decide_eq_false_2 (head ev = Some 0)) by done. apply windows2_geb_strict in Hs as ->. simpl.
    rewrite (proj2 (existsb_false (fun s => now <=? s) ev))
      by (eapply Forall_impl; [exact Hnow|]; simpl; lia).
    simpl. destruct (requires_terminal_evidence to); simpl; [|by subst].
    destruct Hto as (Hne & Hev & ->). apply is_empty_false in Hne as ->. simpl.
    rewrite (proj2 (existsb_false _ _)); [done|].
    eapply Forall_impl; [exact Hev|]. intros s (? & ? & ?). simpl.
    rewrite bool_decide_eq_true_2, (proj2 (contains_false _ _)) by done.
    rewrite orb_false_r. simpl. lia.
Qed.

Lemma evidence_record_spec self status last s self' :
  OperationEvidenceState_record self status last s = Ok self'
  <-> (status = OperationStatus.Started \/ status = OperationStatus.Uncertain)
      /\ last < s /\ (s ∉ self.(recorded_sequences))
      /\ self' = {| recorded_sequences := {[s]} ∪ self.(recorded_sequences);
                    consumed_sequences := self.(consumed_sequences) |}.
Proof.
  unfold OperationEvidenceState_record. split.
  - intros H. case_match; [done|]. carl_simpl.
    split; [destruct status; try done; auto|]. split; [lia|]. done.
  - intros (Hst & Hlt & Hfresh & ->). rewrite bool_decide_eq_false_2 by done.
    assert ((s <=? last) = false) as -> by lia. by destruct Hst as [-> | ->].
Qed.

(** The invariant of a ledger: nothing is consumed twice, everything consumed
    was recorded and is older than the last transition, and evidence has been
    consumed exactly when the status claims an outcome. *)
Definition ledger_ok (status : OperationStatus) (last : Z) (e : OperationEvidenceState) : Prop :=
  NoDup e.(consumed_sequences)
  /\ Forall (fun s => s ∈ e.(recorded_sequences) /\ s < last) e.(consumed_sequences)
  /\ (requires_terminal_evidence status = true <-> e.(consumed_sequences) <> []).

Lemma ledger_ok_default last : ledger_ok OperationStatus.IntentRecorded last OperationEvidenceState_default.
Proof. split; [constructor|]. split; [constructor|]. done. Qed.

Lemma strict_NoDup_Z (l : list Z) : StronglySorted Z.lt l -> NoDup l.
Proof.
  induction 1 as [|x l _ IH Hx]; constructor; [|done].
  rewrite Forall_forall in Hx. intros Hin. specialize (Hx x Hin). lia.
Qed.

Lemma ledger_ok_transition self status from to last now ev self' :
  ledger_ok status last self -> last < now ->
  OperationEvidenceState_transition self status from to last now ev = Ok self' ->
  ledger_ok to now self'.
Proof.
  intros (Hnd & Hc & Hne) Hlt Ht.
  apply evidence_transition_spec in Ht as (-> & Hedge & _ & Hs & _ & Hto).
  unfold ledger_ok. rewrite Forall_forall in Hc.
  destruct (requires_terminal_evidence to) eqn:Hterm.
  - destruct Hto as (Hev & Hcons & ->). simpl. rewrite Forall_forall in Hcons. split; [|split].
    + apply NoDup_app. split; [done|]. split; [|by apply strict_NoDup_Z].
      intros s Hin Hin'. by apply (Hcons s Hin').
    + apply Forall_app; split; apply Forall_forall; intros s Hin.
      * destruct (Hc s Hin). split; [done|lia].
      * destruct (Hcons s Hin) as (? & ? & _). split; [done|lia].
    + split; [|done]. intros _ Heq. by apply app_nil in Heq as [_ ?].
  - subst. split; [done|]. split.
    + apply Forall_forall. intros s Hin. destruct (Hc s Hin). split; [done|lia].
    + split; [done|]. rewrite <-Hne. by destruct from, to.
Qed.

Lemma ledger_ok_record self status last s self' :
  ledger_ok status last self ->
  OperationEvidenceState_record self status last s = Ok self' -> ledger_ok status last self'.
Proof.
  intros (Hnd & Hc & Hne) (_ & _ & _ & ->)%evidence_record_spec.
  split; [done|]. split; [|done]. eapply Forall_impl; [exact Hc|]. simpl. set_solver.
Qed.
