(* ===== verification/Events.v ===== *)
(** * Journal events ([src/events.rs])

    Everything Carl records is an [Event] in an [EventEnvelope]; task events are
    one of its variants.  The journal has had four schema versions: each has a
    payload type of its own and a conversion into the current [Event], and
    reading dispatches on the stored version.

    A [serde_json::Value] inside an event is carried and never inspected; it is
    kept as its text.  The [serde] readers of the version and of each payload
    type are parameters of [Event_deserialize].  The theorems state that every
    event an older schema can express is expressible in each later one with the
    same meaning, and that what is stored under an older schema is never a task
    event. *)
From S2P Require Import Prelude Ord Text Settings Policy Subscription TaskTypes.
From stdpp Require Import base gmap list strings.
From Stdlib Require Import ZArith Lia.
#[local] Open Scope list_scope.
#[local] Open Scope Z_scope.

Definition EVENT_SCHEMA_VERSION : Z := 4.

Abbreviation EventId := Z (only parsing).
Abbreviation ToolCallId := Z (only parsing).
Abbreviation ApprovalId := Z (only parsing).
Abbreviation Value := str (only parsing).

Module FrontendDeliveryStatus.
Inductive FrontendDeliveryStatus : Set := Pending | Delivered | Failed | Uncertain.
End FrontendDeliveryStatus.
Abbreviation FrontendDeliveryStatus := FrontendDeliveryStatus.FrontendDeliveryStatus.

Module Event.
Inductive Event :=
| UserInput (text : str)
| AssistantTextDelta (text : str)
| ProviderLifecycle (phase : str) (provider_id : option str)
| WorkspaceDiffUpdated (diff : str)
| ToolProposed (tool_call_id : ToolCallId) (tool_name : str) (arguments : Value)
| ToolDispatchAuthorized (tool_call_id : ToolCallId) (request_digest : str) (automatic : bool)
| ApprovalRequested (approval_id : ApprovalId) (tool_call_id : ToolCallId) (summary : str)
| ToolCompleted (tool_call_id : ToolCallId) (output : Value)
| TurnCompleted
| TurnInterrupted (reason : str)
| FrontendSessionBound (frontend : Frontend) (external_session_id : str) (protocol_version : Z)
| FrontendPermissionChanged (external_session_id : str) (permission_mode : PermissionMode)
| FrontendDeliveryTransitioned (action_digest : str) (status : FrontendDeliveryStatus)
| SubscriptionRunPrepared (run_id : RunId) (run_sequence : Z) (configuration : RunConfigSnapshot) (state : RunState) (trust_label : RunTrustLabel)
| SubscriptionRunConfigurationObserved (run_id : RunId) (run_sequence : Z) (configuration : RunConfigSnapshot) (trust_label : RunTrustLabel)
| SubscriptionRunTransitioned (run_id : RunId) (run_sequence : Z) (transition : RunTransition) (trust_label : RunTrustLabel)
| TaskLifecycle (task_id : TaskId) (event : TaskEvent).
End Event.
Abbreviation Event := Event.Event.

(** What [Serialize] writes: the version and the borrowed payload. *)
Module EventRef.
Inductive EventRef :=
| UserInput (text : str)
| AssistantTextDelta (text : str)
| ProviderLifecycle (phase : str) (provider_id : option str)
| WorkspaceDiffUpdated (diff : str)
| ToolProposed (tool_call_id : ToolCallId) (tool_name : str) (arguments : Value)
| ToolDispatchAuthorized (tool_call_id : ToolCallId) (request_digest : str) (automatic : bool)
| ApprovalRequested (approval_id : ApprovalId) (tool_call_id : ToolCallId) (summary : str)
| ToolCompleted (tool_call_id : ToolCallId) (output : Value)
| TurnCompleted
| TurnInterrupted (reason : str)
| FrontendSessionBound (frontend : Frontend) (external_session_id : str) (protocol_version : Z)
| FrontendPermissionChanged (external_session_id : str) (permission_mode : PermissionMode)
| FrontendDeliveryTransitioned (action_digest : str) (status : FrontendDeliveryStatus)
| SubscriptionRunPrepared (run_id : RunId) (run_sequence : Z) (configuration : RunConfigSnapshot) (state : RunState) (trust_label : RunTrustLabel)
| SubscriptionRunConfigurationObserved (run_id : RunId) (run_sequence : Z) (configuration : RunConfigSnapshot) (trust_label : RunTrustLabel)
| SubscriptionRunTransitioned (run_id : RunId) (run_sequence : Z) (transition : RunTransition) (trust_label : RunTrustLabel)
| TaskLifecycle (task_id : TaskId) (event : TaskEvent).
End EventRef.
Abbreviation EventRef := EventRef.EventRef.

Definition EventRef_from (event : Event) : EventRef :=
  match event with
  | Event.UserInput text => EventRef.UserInput text
  | Event.AssistantTextDelta text => EventRef.AssistantTextDelta text
  | Event.ProviderLifecycle phase provider_id => EventRef.ProviderLifecycle phase provider_id
  | Event.WorkspaceDiffUpdated diff => EventRef.WorkspaceDiffUpdated diff
  | Event.ToolProposed tool_call_id tool_name arguments => EventRef.ToolProposed tool_call_id tool_name arguments
  | Event.ToolDispatchAuthorized tool_call_id request_digest automatic => EventRef.ToolDispatchAuthorized tool_call_id request_digest automatic
  | Event.ApprovalRequested approval_id tool_call_id summary => EventRef.ApprovalRequested approval_id tool_call_id summary
  | Event.ToolCompleted tool_call_id output => EventRef.ToolCompleted tool_call_id output
  | Event.TurnCompleted => EventRef.TurnCompleted
  | Event.TurnInterrupted reason => EventRef.TurnInterrupted reason
  | Event.FrontendSessionBound frontend external_session_id protocol_version => EventRef.FrontendSessionBound frontend external_session_id protocol_version
  | Event.FrontendPermissionChanged external_session_id permission_mode => EventRef.FrontendPermissionChanged external_session_id permission_mode
  | Event.FrontendDeliveryTransitioned action_digest status => EventRef.FrontendDeliveryTransitioned action_digest status
  | Event.SubscriptionRunPrepared run_id run_sequence configuration state trust_label => EventRef.SubscriptionRunPrepared run_id run_sequence configuration state trust_label
  | Event.SubscriptionRunConfigurationObserved run_id run_sequence configuration trust_label => EventRef.SubscriptionRunConfigurationObserved run_id run_sequence configuration trust_label
  | Event.SubscriptionRunTransitioned run_id run_sequence transition trust_label => EventRef.SubscriptionRunTransitioned run_id run_sequence transition trust_label
  | Event.TaskLifecycle task_id event => EventRef.TaskLifecycle task_id event
  end.

Record VersionedEventRef := { ve_schema_version : Z; ve_payload : EventRef }.

Inductive SerializeError : Set := InvalidTaskEventMetadata.

Definition Event_serialize (self : Event) : result SerializeError VersionedEventRef :=
  _ ← match self with
      | Event.TaskLifecycle _ event =>
        map_err (fun _ => InvalidTaskEventMetadata) (TaskEvent_validate event)
      | _ => Ok tt
      end;
  Ok {| ve_schema_version := EVENT_SCHEMA_VERSION; ve_payload := EventRef_from self |}.

(** ** The payloads of each schema version *)

Module EventPayloadV1.
Inductive EventPayloadV1 :=
| UserInput (text : str)
| AssistantTextDelta (text : str)
| ToolProposed (tool_call_id : ToolCallId) (tool_name : str) (arguments : Value)
| ApprovalRequested (approval_id : ApprovalId) (tool_call_id : ToolCallId) (summary : str)
| ToolCompleted (tool_call_id : ToolCallId) (output : Value)
| TurnCompleted
| TurnInterrupted (reason : str).
End EventPayloadV1.
Abbreviation EventPayloadV1 := EventPayloadV1.EventPayloadV1.

Definition Event_from_v1 (payload : EventPayloadV1) : Event :=
  match payload with
  | EventPayloadV1.UserInput text => Event.UserInput text
  | EventPayloadV1.AssistantTextDelta text => Event.AssistantTextDelta text
  | EventPayloadV1.ToolProposed tool_call_id tool_name arguments => Event.ToolProposed tool_call_id tool_name arguments
  | EventPayloadV1.ApprovalRequested approval_id tool_call_id summary => Event.ApprovalRequested approval_id tool_call_id summary
  | EventPayloadV1.ToolCompleted tool_call_id output => Event.ToolCompleted tool_call_id output
  | EventPayloadV1.TurnCompleted => Event.TurnCompleted
  | EventPayloadV1.TurnInterrupted reason => Event.TurnInterrupted reason
  end.

Module EventPayloadV2.
Inductive EventPayloadV2 :=
| UserInput (text : str)
| AssistantTextDelta (text : str)
| ToolProposed (tool_call_id : ToolCallId) (tool_name : str) (arguments : Value)
| ApprovalRequested (approval_id : ApprovalId) (tool_call_id : ToolCallId) (summary : str)
| ToolCompleted (tool_call_id : ToolCallId) (output : Value)
| TurnCompleted
| TurnInterrupted (reason : str)
| SubscriptionRunPrepared (run_id : RunId) (run_sequence : Z) (configuration : RunConfigSnapshot) (state : RunState) (trust_label : RunTrustLabel)
| SubscriptionRunConfigurationObserved (run_id : RunId) (run_sequence : Z) (configuration : RunConfigSnapshot) (trust_label : RunTrustLabel)
| SubscriptionRunTransitioned (run_id : RunId) (run_sequence : Z) (transition : RunTransition) (trust_label : RunTrustLabel).
End EventPayloadV2.
Abbreviation EventPayloadV2 := EventPayloadV2.EventPayloadV2.

Definition Event_from_v2 (payload : EventPayloadV2) : Event :=
  match payload with
  | EventPayloadV2.UserInput text => Event.UserInput text
  | EventPayloadV2.AssistantTextDelta text => Event.AssistantTextDelta text
  | EventPayloadV2.ToolProposed tool_call_id tool_name arguments => Event.ToolProposed tool_call_id tool_name arguments
  | EventPayloadV2.ApprovalRequested approval_id tool_call_id summary => Event.ApprovalRequested approval_id tool_call_id summary
  | EventPayloadV2.ToolCompleted tool_call_id output => Event.ToolCompleted tool_call_id output
  | EventPayloadV2.TurnCompleted => Event.TurnCompleted
  | EventPayloadV2.TurnInterrupted reason => Event.TurnInterrupted reason
  | EventPayloadV2.SubscriptionRunPrepared run_id run_sequence configuration state trust_label => Event.SubscriptionRunPrepared run_id run_sequence configuration state trust_label
  | EventPayloadV2.SubscriptionRunConfigurationObserved run_id run_sequence configuration trust_label => Event.SubscriptionRunConfigurationObserved run_id run_sequence configuration trust_label
  | EventPayloadV2.SubscriptionRunTransitioned run_id run_sequence transition trust_label => Event.SubscriptionRunTransitioned run_id run_sequence transition trust_label
  end.

Module EventPayloadV3.
Inductive EventPayloadV3 :=
| UserInput (text : str)
| AssistantTextDelta (text : str)
| ProviderLifecycle (phase : str) (provider_id : option str)
| WorkspaceDiffUpdated (diff : str)
| ToolProposed (tool_call_id : ToolCallId) (tool_name : str) (arguments : Value)
| ApprovalRequested (approval_id : ApprovalId) (tool_call_id : ToolCallId) (summary : str)
| ToolCompleted (tool_call_id : ToolCallId) (output : Value)
| TurnCompleted
| TurnInterrupted (reason : str)
| FrontendSessionBound (frontend : Frontend) (external_session_id : str) (protocol_version : Z)
| FrontendPermissionChanged (external_session_id : str) (permission_mode : PermissionMode)
| FrontendDeliveryTransitioned (action_digest : str) (status : FrontendDeliveryStatus)
| SubscriptionRunPrepared (run_id : RunId) (run_sequence : Z) (configuration : RunConfigSnapshot) (state : RunState) (trust_label : RunTrustLabel)
| SubscriptionRunConfigurationObserved (run_id : RunId) (run_sequence : Z) (configuration : RunConfigSnapshot) (trust_label : RunTrustLabel)
| SubscriptionRunTransitioned (run_id : RunId) (run_sequence : Z) (transition : RunTransition) (trust_label : RunTrustLabel).
End EventPayloadV3.
Abbreviation EventPayloadV3 := EventPayloadV3.EventPayloadV3.

Definition Event_from_v3 (payload : EventPayloadV3) : Event :=
  match payload with
  | EventPayloadV3.UserInput text => Event.UserInput text
  | EventPayloadV3.AssistantTextDelta text => Event.AssistantTextDelta text
  | EventPayloadV3.ProviderLifecycle phase provider_id => Event.ProviderLifecycle phase provider_id
  | EventPayloadV3.WorkspaceDiffUpdated diff => Event.WorkspaceDiffUpdated diff
  | EventPayloadV3.ToolProposed tool_call_id tool_name arguments => Event.ToolProposed tool_call_id tool_name arguments
  | EventPayloadV3.ApprovalRequested approval_id tool_call_id summary => Event.ApprovalRequested approval_id tool_call_id summary
  | EventPayloadV3.ToolCompleted tool_call_id output => Event.ToolCompleted tool_call_id output
  | EventPayloadV3.TurnCompleted => Event.TurnCompleted
  | EventPayloadV3.TurnInterrupted reason => Event.TurnInterrupted reason
  | EventPayloadV3.FrontendSessionBound frontend external_session_id protocol_version => Event.FrontendSessionBound frontend external_session_id protocol_version
  | EventPayloadV3.FrontendPermissionChanged external_session_id permission_mode => Event.FrontendPermissionChanged external_session_id permission_mode
  | EventPayloadV3.FrontendDeliveryTransitioned action_digest status => Event.FrontendDeliveryTransitioned action_digest status
  | EventPayloadV3.SubscriptionRunPrepared run_id run_sequence configuration state trust_label => Event.SubscriptionRunPrepared run_id run_sequence configuration state trust_label
  | EventPayloadV3.SubscriptionRunConfigurationObserved run_id run_sequence configuration trust_label => Event.SubscriptionRunConfigurationObserved run_id run_sequence configuration trust_label
  | EventPayloadV3.SubscriptionRunTransitioned run_id run_sequence transition trust_label => Event.SubscriptionRunTransitioned run_id run_sequence transition trust_label
  end.

Module EventPayloadV4.
Inductive EventPayloadV4 :=
| UserInput (text : str)
| AssistantTextDelta (text : str)
| ProviderLifecycle (phase : str) (provider_id : option str)
| WorkspaceDiffUpdated (diff : str)
| ToolProposed (tool_call_id : ToolCallId) (tool_name : str) (arguments : Value)
| ToolDispatchAuthorized (tool_call_id : ToolCallId) (request_digest : str) (automatic : bool)
| ApprovalRequested (approval_id : ApprovalId) (tool_call_id : ToolCallId) (summary : str)
| ToolCompleted (tool_call_id : ToolCallId) (output : Value)
| TurnCompleted
| TurnInterrupted (reason : str)
| FrontendSessionBound (frontend : Frontend) (external_session_id : str) (protocol_version : Z)
| FrontendPermissionChanged (external_session_id : str) (permission_mode : PermissionMode)
| FrontendDeliveryTransitioned (action_digest : str) (status : FrontendDeliveryStatus)
| SubscriptionRunPrepared (run_id : RunId) (run_sequence : Z) (configuration : RunConfigSnapshot) (state : RunState) (trust_label : RunTrustLabel)
| SubscriptionRunConfigurationObserved (run_id : RunId) (run_sequence : Z) (configuration : RunConfigSnapshot) (trust_label : RunTrustLabel)
| SubscriptionRunTransitioned (run_id : RunId) (run_sequence : Z) (transition : RunTransition) (trust_label : RunTrustLabel)
| TaskLifecycle (task_id : TaskId) (event : TaskEvent).
End EventPayloadV4.
Abbreviation EventPayloadV4 := EventPayloadV4.EventPayloadV4.

Definition Event_from_v4 (payload : EventPayloadV4) : Event :=
  match payload with
  | EventPayloadV4.UserInput text => Event.UserInput text
  | EventPayloadV4.AssistantTextDelta text => Event.AssistantTextDelta text
  | EventPayloadV4.ProviderLifecycle phase provider_id => Event.ProviderLifecycle phase provider_id
  | EventPayloadV4.WorkspaceDiffUpdated diff => Event.WorkspaceDiffUpdated diff
  | EventPayloadV4.ToolProposed tool_call_id tool_name arguments => Event.ToolProposed tool_call_id tool_name arguments
  | EventPayloadV4.ToolDispatchAuthorized tool_call_id request_digest automatic => Event.ToolDispatchAuthorized tool_call_id request_digest automatic
  | EventPayloadV4.ApprovalRequested approval_id tool_call_id summary => Event.ApprovalRequested approval_id tool_call_id summary
  | EventPayloadV4.ToolCompleted tool_call_id output => Event.ToolCompleted tool_call_id output
  | EventPayloadV4.TurnCompleted => Event.TurnCompleted
  | EventPayloadV4.TurnInterrupted reason => Event.TurnInterrupted reason
  | EventPayloadV4.FrontendSessionBound frontend external_session_id protocol_version => Event.FrontendSessionBound frontend external_session_id protocol_version
  | EventPayloadV4.FrontendPermissionChanged external_session_id permission_mode => Event.FrontendPermissionChanged external_session_id permission_mode
  | EventPayloadV4.FrontendDeliveryTransitioned action_digest status => Event.FrontendDeliveryTransitioned action_digest status
  | EventPayloadV4.SubscriptionRunPrepared run_id run_sequence configuration state trust_label => Event.SubscriptionRunPrepared run_id run_sequence configuration state trust_label
  | EventPayloadV4.SubscriptionRunConfigurationObserved run_id run_sequence configuration trust_label => Event.SubscriptionRunConfigurationObserved run_id run_sequence configuration trust_label
  | EventPayloadV4.SubscriptionRunTransitioned run_id run_sequence transition trust_label => Event.SubscriptionRunTransitioned run_id run_sequence transition trust_label
  | EventPayloadV4.TaskLifecycle task_id event => Event.TaskLifecycle task_id event
  end.

(** ** Reading an event *)

Inductive DeserializeError : Set :=
| Malformed (detail : str)
| UnsupportedSchemaVersion (version : Z).

Section Deserialize.
Context {Json : Type}
  (read_version : Json -> result str Z)
  (read_v1 : Json -> result str EventPayloadV1)
  (read_v2 : Json -> result str EventPayloadV2)
  (read_v3 : Json -> result str EventPayloadV3)
  (read_v4 : Json -> result str EventPayloadV4).

Definition Event_deserialize (value : Json) : result DeserializeError Event :=
  version ← map_err Malformed (read_version value);
  if version =? 1 then map_err Malformed (Event_from_v1 <$> read_v1 value)
  else if version =? 2 then map_err Malformed (Event_from_v2 <$> read_v2 value)
  else if version =? 3 then map_err Malformed (Event_from_v3 <$> read_v3 value)
  else if version =? 4 then map_err Malformed (Event_from_v4 <$> read_v4 value)
  else Err (UnsupportedSchemaVersion version).

End Deserialize.

(** ** Envelopes *)

Record EventEnvelope := {
  ee_id : EventId;
  ee_session_id : SessionId;
  ee_turn_id : option TurnId;
  sequence : Z;
  timestamp : Z;
  event : Event
}.

(** ** Properties *)

(** The embedding of each schema into the next. *)
Definition upgrade_v1 (payload : EventPayloadV1) : EventPayloadV2 :=
  match payload with
  | EventPayloadV1.UserInput text => EventPayloadV2.UserInput text
  | EventPayloadV1.AssistantTextDelta text => EventPayloadV2.AssistantTextDelta text
  | EventPayloadV1.ToolProposed tool_call_id tool_name arguments => EventPayloadV2.ToolProposed tool_call_id tool_name arguments
  | EventPayloadV1.ApprovalRequested approval_id tool_call_id summary => EventPayloadV2.ApprovalRequested approval_id tool_call_id summary
  | EventPayloadV1.ToolCompleted tool_call_id output => EventPayloadV2.ToolCompleted tool_call_id output
  | EventPayloadV1.TurnCompleted => EventPayloadV2.TurnCompleted
  | EventPayloadV1.TurnInterrupted reason => EventPayloadV2.TurnInterrupted reason
  end.

Definition upgrade_v2 (payload : EventPayloadV2) : EventPayloadV3 :=
  match payload with
  | EventPayloadV2.UserInput text => EventPayloadV3.UserInput text
  | EventPayloadV2.AssistantTextDelta text => EventPayloadV3.AssistantTextDelta text
  | EventPayloadV2.ToolProposed tool_call_id tool_name arguments => EventPayloadV3.ToolProposed tool_call_id tool_name arguments
  | EventPayloadV2.ApprovalRequested approval_id tool_call_id summary => EventPayloadV3.ApprovalRequested approval_id tool_call_id summary
  | EventPayloadV2.ToolCompleted tool_call_id output => EventPayloadV3.ToolCompleted tool_call_id output
  | EventPayloadV2.TurnCompleted => EventPayloadV3.TurnCompleted
  | EventPayloadV2.TurnInterrupted reason => EventPayloadV3.TurnInterrupted reason
  | EventPayloadV2.SubscriptionRunPrepared run_id run_sequence configuration state trust_label => EventPayloadV3.SubscriptionRunPrepared run_id run_sequence configuration state trust_label
  | EventPayloadV2.SubscriptionRunConfigurationObserved run_id run_sequence configuration trust_label => EventPayloadV3.SubscriptionRunConfigurationObserved run_id run_sequence configuration trust_label
  | EventPayloadV2.SubscriptionRunTransitioned run_id run_sequence transition trust_label => EventPayloadV3.SubscriptionRunTransitioned run_id run_sequence transition trust_label
  end.

Definition upgrade_v3 (payload : EventPayloadV3) : EventPayloadV4 :=
  match payload with
  | EventPayloadV3.UserInput text => EventPayloadV4.UserInput text
  | EventPayloadV3.AssistantTextDelta text => EventPayloadV4.AssistantTextDelta text
  | EventPayloadV3.ProviderLifecycle phase provider_id => EventPayloadV4.ProviderLifecycle phase provider_id
  | EventPayloadV3.WorkspaceDiffUpdated diff => EventPayloadV4.WorkspaceDiffUpdated diff
  | EventPayloadV3.ToolProposed tool_call_id tool_name arguments => EventPayloadV4.ToolProposed tool_call_id tool_name arguments
  | EventPayloadV3.ApprovalRequested approval_id tool_call_id summary => EventPayloadV4.ApprovalRequested approval_id tool_call_id summary
  | EventPayloadV3.ToolCompleted tool_call_id output => EventPayloadV4.ToolCompleted tool_call_id output
  | EventPayloadV3.TurnCompleted => EventPayloadV4.TurnCompleted
  | EventPayloadV3.TurnInterrupted reason => EventPayloadV4.TurnInterrupted reason
  | EventPayloadV3.FrontendSessionBound frontend external_session_id protocol_version => EventPayloadV4.FrontendSessionBound frontend external_session_id protocol_version
  | EventPayloadV3.FrontendPermissionChanged external_session_id permission_mode => EventPayloadV4.FrontendPermissionChanged external_session_id permission_mode
  | EventPayloadV3.FrontendDeliveryTransitioned action_digest status => EventPayloadV4.FrontendDeliveryTransitioned action_digest status
  | EventPayloadV3.SubscriptionRunPrepared run_id run_sequence configuration state trust_label => EventPayloadV4.SubscriptionRunPrepared run_id run_sequence configuration state trust_label
  | EventPayloadV3.SubscriptionRunConfigurationObserved run_id run_sequence configuration trust_label => EventPayloadV4.SubscriptionRunConfigurationObserved run_id run_sequence configuration trust_label
  | EventPayloadV3.SubscriptionRunTransitioned run_id run_sequence transition trust_label => EventPayloadV4.SubscriptionRunTransitioned run_id run_sequence transition trust_label
  end.

(** The payload a [serde] reader of the current schema sees in what the writer
    wrote. *)
Definition v4_of_ref (payload : EventRef) : EventPayloadV4 :=
  match payload with
  | EventRef.UserInput text => EventPayloadV4.UserInput text
  | EventRef.AssistantTextDelta text => EventPayloadV4.AssistantTextDelta text
  | EventRef.ProviderLifecycle phase provider_id => EventPayloadV4.ProviderLifecycle phase provider_id
  | EventRef.WorkspaceDiffUpdated diff => EventPayloadV4.WorkspaceDiffUpdated diff
  | EventRef.ToolProposed tool_call_id tool_name arguments => EventPayloadV4.ToolProposed tool_call_id tool_name arguments
  | EventRef.ToolDispatchAuthorized tool_call_id request_digest automatic => EventPayloadV4.ToolDispatchAuthorized tool_call_id request_digest automatic
  | EventRef.ApprovalRequested approval_id tool_call_id summary => EventPayloadV4.ApprovalRequested approval_id tool_call_id summary
  | EventRef.ToolCompleted tool_call_id output => EventPayloadV4.ToolCompleted tool_call_id output
  | EventRef.TurnCompleted => EventPayloadV4.TurnCompleted
  | EventRef.TurnInterrupted reason => EventPayloadV4.TurnInterrupted reason
  | EventRef.FrontendSessionBound frontend external_session_id protocol_version => EventPayloadV4.FrontendSessionBound frontend external_session_id protocol_version
  | EventRef.FrontendPermissionChanged external_session_id permission_mode => EventPayloadV4.FrontendPermissionChanged external_session_id permission_mode
  | EventRef.FrontendDeliveryTransitioned action_digest status => EventPayloadV4.FrontendDeliveryTransitioned action_digest status
  | EventRef.SubscriptionRunPrepared run_id run_sequence configuration state trust_label => EventPayloadV4.SubscriptionRunPrepared run_id run_sequence configuration state trust_label
  | EventRef.SubscriptionRunConfigurationObserved run_id run_sequence configuration trust_label => EventPayloadV4.SubscriptionRunConfigurationObserved run_id run_sequence configuration trust_label
  | EventRef.SubscriptionRunTransitioned run_id run_sequence transition trust_label => EventPayloadV4.SubscriptionRunTransitioned run_id run_sequence transition trust_label
  | EventRef.TaskLifecycle task_id event => EventPayloadV4.TaskLifecycle task_id event
  end.

(** The journal is backward compatible: upgrading a payload to the next
    schema version and reading it there gives the event it has in its own
    version, so through any number of upgrades no stored event changes meaning. *)
Theorem schema_upgrade_preserves_events :
  (forall p, Event_from_v2 (upgrade_v1 p) = Event_from_v1 p)
  /\ (forall p, Event_from_v3 (upgrade_v2 p) = Event_from_v2 p)
  /\ (forall p, Event_from_v4 (upgrade_v3 p) = Event_from_v3 p).
Proof. split; [|split]; by intros []. Qed.

Lemma legacy_not_task (e : Event) :
  (exists p, e = Event_from_v1 p) \/ (exists p, e = Event_from_v2 p) \/ (exists p, e = Event_from_v3 p) ->
  forall task_id ev, e <> Event.TaskLifecycle task_id ev.
Proof. intros [[[] ->]|[[[] ->]|[[] ->]]]; done. Qed.

Section Journal.
Context {Json : Type}
  (read_version : Json -> result str Z)
  (read_v1 : Json -> result str EventPayloadV1)
  (read_v2 : Json -> result str EventPayloadV2)
  (read_v3 : Json -> result str EventPayloadV3)
  (read_v4 : Json -> result str EventPayloadV4).

(** reading accepts only the four schema versions, and only the current one
    can yield a task event: nothing stored before task events existed is ever
    replayed as one. *)
Theorem deserialize_versions value e :
  Event_deserialize read_version read_v1 read_v2 read_v3 read_v4 value = Ok e ->
  exists version, read_version value = Ok version /\ 1 <= version <= 4
    /\ ((exists task_id ev, e = Event.TaskLifecycle task_id ev) -> version = EVENT_SCHEMA_VERSION).
Proof.
  unfold Event_deserialize. intros H. carl_simpl. eexists. split; [done|].
  repeat case_match; carl_simpl.
  all: split; [lia|]; intros (t & ev & Heq).
  4: by unfold EVENT_SCHEMA_VERSION; lia.
  all: exfalso; eapply legacy_not_task; [|exact Heq]; eauto.
Qed.

(** What [Serialize] writes is read back as the same event, given that
    [serde]'s derived reader inverts its derived writer on the payload: the
    version written selects the reader whose conversion undoes the writer's. *)
Theorem journal_roundtrip (encode : VersionedEventRef -> Json) e w :
  (forall w, read_version (encode w) = Ok (ve_schema_version w)) ->
  (forall e w, Event_serialize e = Ok w -> read_v4 (encode w) = Ok (v4_of_ref (ve_payload w))) ->
  Event_serialize e = Ok w ->
  Event_deserialize read_version read_v1 read_v2 read_v3 read_v4 (encode w) = Ok e.
Proof.
  intros Hversion Hread Hw. unfold Event_deserialize. rewrite Hversion, (Hread _ _ Hw).
  unfold Event_serialize in Hw. carl_simpl. by destruct e.
Qed.

End Journal.

Definition example_json_version (w : VersionedEventRef) : result str Z := Ok (ve_schema_version w).
Definition example_json_v4 (w : VersionedEventRef) : result str EventPayloadV4 :=
  Ok (v4_of_ref (ve_payload w)).

