(* ===== verification/Reducer.v ===== *)
(** * The task reducer

    [src/runtime/task/reducer.rs]: the state machine that rebuilds a task from
    its journal.  [reduce_task] folds one stored event into the snapshot; every
    guard of the match is a [reject], every early return an [Err], and the
    [unreachable!] and [expect] of the code are the [Panic] outcome, which the
    theorems show no input produces.

    Replay of a journal is the inductive relation [history]; the invariant
    [snapshot_ok] is preserved by every event and holds of every snapshot a
    journal with increasing sequence numbers replays to. *)
From S2P Require Import Prelude Ord Text Settings Policy TaskTypes Events.
From stdpp Require Import base gmap sets list sorting strings.
From Stdlib Require Import ZArith Lia.
#[local] Open Scope list_scope.
#[local] Open Scope Z_scope.

Module TaskReduceErrorCode.
Inductive TaskReduceErrorCode : Set :=
| NotTaskEvent | TaskNotCreated | TaskAlreadyCreated | TaskIdMismatch | SessionMismatch
| TerminalState | IllegalStatusTransition | InvalidContract | NonMonotonicContractVersion
| EpochAlreadyActive | EpochMismatch | OperationAlreadyExists | OperationIntentMissing
| IllegalOperationTransition | OperationEvidenceMissing | InvalidOperationEvidence
| UnsafeBoundary | InvalidEventMetadata | CheckpointMissing | ProviderContextMismatch
| RequiredClauseUnsatisfied | RevisionOverflow.
End TaskReduceErrorCode.
Abbreviation TaskReduceErrorCode := TaskReduceErrorCode.TaskReduceErrorCode.
#[export] Instance TaskReduceErrorCode_eq_dec : EqDecision TaskReduceErrorCode.
Proof. solve_decision. Defined.

Definition TaskReduceErrorCode_as_str (self : TaskReduceErrorCode) : str :=
  match self with
  | TaskReduceErrorCode.NotTaskEvent => lit "not_task_event"
  | TaskReduceErrorCode.TaskNotCreated => lit "task_not_created"
  | TaskReduceErrorCode.TaskAlreadyCreated => lit "task_already_created"
  | TaskReduceErrorCode.TaskIdMismatch => lit "task_id_mismatch"
  | TaskReduceErrorCode.SessionMismatch => lit "session_mismatch"
  | TaskReduceErrorCode.TerminalState => lit "terminal_state"
  | TaskReduceErrorCode.IllegalStatusTransition => lit "illegal_status_transition"
  | TaskReduceErrorCode.InvalidContract => lit "invalid_contract"
  | TaskReduceErrorCode.NonMonotonicContractVersion => lit "non_monotonic_contract_version"
  | TaskReduceErrorCode.EpochAlreadyActive => lit "epoch_already_active"
  | TaskReduceErrorCode.EpochMismatch => lit "epoch_mismatch"
  | TaskReduceErrorCode.OperationAlreadyExists => lit "operation_already_exists"
  | TaskReduceErrorCode.OperationIntentMissing => lit "operation_intent_missing"
  | TaskReduceErrorCode.IllegalOperationTransition => lit "illegal_operation_transition"
  | TaskReduceErrorCode.OperationEvidenceMissing => lit "operation_evidence_missing"
  | TaskReduceErrorCode.InvalidOperationEvidence => lit "invalid_operation_evidence"
  | TaskReduceErrorCode.UnsafeBoundary => lit "unsafe_boundary"
  | TaskReduceErrorCode.InvalidEventMetadata => lit "invalid_event_metadata"
  | TaskReduceErrorCode.CheckpointMissing => lit "checkpoint_missing"
  | TaskReduceErrorCode.ProviderContextMismatch => lit "provider_context_mismatch"
  | TaskReduceErrorCode.RequiredClauseUnsatisfied => lit "required_clause_unsatisfied"
  | TaskReduceErrorCode.RevisionOverflow => lit "revision_overflow"
  end.

Abbreviation reduction := (result (or_panic TaskReduceErrorCode)).

Definition reduce_error (code : TaskReduceErrorCode) : or_panic TaskReduceErrorCode := Fail code.

(** ** The guards *)

Definition require_safe_boundary (state : TaskSnapshot) : reduction unit :=
  reject (is_some state.(active_epoch) || has_unresolved_operations state)
    (reduce_error TaskReduceErrorCode.UnsafeBoundary).

Definition require_active_epoch (state : TaskSnapshot) (epoch_id : EpochId) : reduction unit :=
  reject (negb (state.(active_epoch) =?? Some epoch_id)) (reduce_error TaskReduceErrorCode.EpochMismatch).

Definition legal_status_edge (from to : TaskStatus) : bool :=
  match from, to with
  | TaskStatus.Queued, (TaskStatus.Active | TaskStatus.Cancelling | TaskStatus.Failed)
  | TaskStatus.Active,
    (TaskStatus.Checkpointing | TaskStatus.Paused | TaskStatus.Blocked
     | TaskStatus.Cancelling | TaskStatus.Completing | TaskStatus.Failed)
  | TaskStatus.Checkpointing,
    (TaskStatus.Active | TaskStatus.Paused | TaskStatus.Blocked
     | TaskStatus.Cancelling | TaskStatus.Failed)
  | TaskStatus.Paused,
    (TaskStatus.Active | TaskStatus.Blocked | TaskStatus.Cancelling | TaskStatus.Failed)
  | TaskStatus.Blocked, (TaskStatus.Active | TaskStatus.Cancelling | TaskStatus.Failed)
  | TaskStatus.Cancelling, (TaskStatus.Cancelled | TaskStatus.Blocked | TaskStatus.Failed)
  | TaskStatus.Completing, (TaskStatus.Completed | TaskStatus.Active | TaskStatus.Failed) => true
  | _, _ => false
  end.

Definition transition_status (state : TaskSnapshot) (from to : TaskStatus) : reduction TaskSnapshot :=
  _ ← reject (negb (state.(status) =?? from) || negb (legal_status_edge from to))
        (reduce_error TaskReduceErrorCode.IllegalStatusTransition);
  Ok (with_status to state).

(** A panic of the callee is a panic of the caller. *)
Definition operation_evidence_error (e : or_panic OperationEvidenceError)
    : or_panic TaskReduceErrorCode :=
  match e with
  | Panic => Panic
  | Fail OperationEvidenceError.IllegalTransition =>
    reduce_error TaskReduceErrorCode.IllegalOperationTransition
  | Fail OperationEvidenceError.Missing => reduce_error TaskReduceErrorCode.OperationEvidenceMissing
  | Fail OperationEvidenceError.Invalid => reduce_error TaskReduceErrorCode.InvalidOperationEvidence
  end.

(** ** The arms of the match *)

Definition reduce_created (task_id : TaskId) (envelope : EventEnvelope) (event : TaskEvent)
    : reduction TaskSnapshot :=
  match event with
  | TaskEvent.Created session_id _ contract budget _ _ _ =>
    _ ← map_err (fun validation =>
          if validation =?? TaskValidationErrorCode.InvalidWorkspace
          then reduce_error TaskReduceErrorCode.InvalidEventMetadata
          else reduce_error TaskReduceErrorCode.InvalidContract) (TaskEvent_validate event);
    _ ← reject (negb (session_id =?? envelope.(ee_session_id)))
          (reduce_error TaskReduceErrorCode.SessionMismatch);
    _ ← map_err (fun _ => reduce_error TaskReduceErrorCode.InvalidContract)
          (CompletionContract_validate contract);
    Ok (TaskSnapshot_created task_id session_id contract budget)
  | _ => Err (reduce_error TaskReduceErrorCode.TaskNotCreated)
  end.

Definition contract_revised (state : TaskSnapshot) (revised : CompletionContract)
    : reduction TaskSnapshot :=
  _ ← map_err (fun _ => reduce_error TaskReduceErrorCode.InvalidContract)
        (CompletionContract_validate revised);
  _ ← reject (revised.(version) <=? state.(contract).(version))
        (reduce_error TaskReduceErrorCode.NonMonotonicContractVersion);
  Ok (with_contract revised state).

Definition epoch_started (state : TaskSnapshot) (epoch_id : EpochId) : reduction TaskSnapshot :=
  _ ← reject (is_some state.(active_epoch)) (reduce_error TaskReduceErrorCode.EpochAlreadyActive);
  _ ← reject (negb (state.(status) =?? TaskStatus.Active))
        (reduce_error TaskReduceErrorCode.IllegalStatusTransition);
  _ ← reject (is_some_and state.(pending_recovery)
                (fun '(pending_epoch, _, _) => negb (pending_epoch =?? epoch_id)))
        (reduce_error TaskReduceErrorCode.EpochMismatch);
  Ok (with_active_epoch (Some epoch_id) state).

(** The arms of [EpochFinished] and [EpochInterrupted]. *)
Definition epoch_ended (state : TaskSnapshot) (epoch_id : EpochId) : reduction TaskSnapshot :=
  _ ← require_active_epoch state epoch_id;
  _ ← reject (has_in_flight_operations state) (reduce_error TaskReduceErrorCode.UnsafeBoundary);
  Ok (with_active_epoch None state).

Definition operation_intent_recorded (state : TaskSnapshot) (operation_id : OperationId)
    (epoch_id : EpochId) (sequence : Z) : reduction TaskSnapshot :=
  _ ← require_active_epoch state epoch_id;
  let '(state, displaced) := insert_operation state operation_id epoch_id sequence in
  _ ← reject (is_some displaced) (reduce_error TaskReduceErrorCode.OperationAlreadyExists);
  Ok state.

(** The check that opens the four arms about an existing operation. *)
Definition require_operation (state : TaskSnapshot) (operation_id : OperationId) : reduction unit :=
  '(operation_epoch, _, _) ← ok_or (operation state operation_id)
                               (reduce_error TaskReduceErrorCode.OperationIntentMissing);
  reject (negb (state.(active_epoch) =?? Some operation_epoch))
    (reduce_error TaskReduceErrorCode.EpochMismatch).

Definition operation_postcondition_bound (state : TaskSnapshot) (operation_id : OperationId)
    (postcondition_digest : Sha256Digest) : reduction TaskSnapshot :=
  _ ← require_operation state operation_id;
  let '(state, bound) := bind_legacy_operation_postcondition state operation_id postcondition_digest in
  _ ← reject (negb bound) (reduce_error TaskReduceErrorCode.OperationAlreadyExists);
  Ok state.

Definition operation_file_postcondition_bound (state : TaskSnapshot) (operation_id : OperationId)
    (postcondition : FilePostcondition) : reduction TaskSnapshot :=
  _ ← require_operation state operation_id;
  let '(state, bound) := bind_operation_file_postcondition state operation_id postcondition in
  _ ← reject (negb bound) (reduce_error TaskReduceErrorCode.OperationAlreadyExists);
  Ok state.

Definition operation_transitioned (state : TaskSnapshot) (operation_id : OperationId)
    (from to : OperationStatus) (sequence : Z) (evidence_sequences : list Z)
    : reduction TaskSnapshot :=
  _ ← require_operation state operation_id;
  map_err operation_evidence_error
    (transition_operation state operation_id from to sequence evidence_sequences).

Definition operation_evidence_recorded (state : TaskSnapshot) (operation_id : OperationId)
    (sequence : Z) : reduction TaskSnapshot :=
  _ ← require_operation state operation_id;
  map_err operation_evidence_error (record_operation_evidence state operation_id sequence).

Definition recovery_attempt_started (state : TaskSnapshot) (epoch_id : EpochId)
    (strategy : RecoveryStrategy) (strategy_fingerprint : str) : reduction TaskSnapshot :=
  _ ← reject (negb (state.(status) =?? TaskStatus.Checkpointing))
        (reduce_error TaskReduceErrorCode.IllegalStatusTransition);
  let '(state, started) := start_recovery state epoch_id strategy strategy_fingerprint in
  _ ← reject (negb started) (reduce_error TaskReduceErrorCode.IllegalStatusTransition);
  Ok state.

Definition recovery_attempt_recorded (state : TaskSnapshot) (epoch_id : EpochId)
    (strategy : RecoveryStrategy) (strategy_fingerprint : str) : reduction TaskSnapshot :=
  let matches_pending :=
    is_some_and state.(pending_recovery)
      (fun '(pending_epoch, pending_strategy, pending_fingerprint) =>
         (pending_epoch =?? epoch_id) && (pending_strategy =?? strategy)
         && (pending_fingerprint =?? strategy_fingerprint)) in
  _ ← reject (is_some state.(active_epoch) || negb matches_pending)
        (reduce_error TaskReduceErrorCode.EpochMismatch);
  Ok (finish_recovery state).

Definition state_transitioned (state : TaskSnapshot) (from to : TaskStatus)
    : reduction TaskSnapshot :=
  _ ← (if to =?? TaskStatus.Cancelled then require_safe_boundary state else Ok tt);
  transition_status state from to.

Definition checkpoint_committed (state : TaskSnapshot) (checkpoint_id : CheckpointId)
    : reduction TaskSnapshot :=
  _ ← require_safe_boundary state;
  Ok (with_latest_checkpoint (Some checkpoint_id) state).

Definition compaction_completed (state : TaskSnapshot) (checkpoint_id : CheckpointId)
    : reduction TaskSnapshot :=
  _ ← require_safe_boundary state;
  _ ← reject (negb (state.(latest_checkpoint) =?? Some checkpoint_id))
        (reduce_error TaskReduceErrorCode.CheckpointMissing);
  Ok state.

Definition provider_context_lost (state : TaskSnapshot) (context_id : str)
    : reduction TaskSnapshot :=
  _ ← reject (negb (state.(provider_context) =?? Some context_id))
        (reduce_error TaskReduceErrorCode.ProviderContextMismatch);
  Ok (with_provider_context None state).

Definition completed (state : TaskSnapshot) : reduction TaskSnapshot :=
  _ ← require_safe_boundary state;
  _ ← reject (negb (required_clauses_satisfied state.(contract)))
        (reduce_error TaskReduceErrorCode.RequiredClauseUnsatisfied);
  transition_status state state.(status) TaskStatus.Completed.

(** The [match event { .. }] of [reduce_task]. *)
Definition apply_event (state : TaskSnapshot) (sequence : Z) (event : TaskEvent)
    : reduction TaskSnapshot :=
  match event with
  | TaskEvent.Created _ _ _ _ _ _ _ => Err Panic
  | TaskEvent.StateTransitioned from to _ => state_transitioned state from to
  | TaskEvent.ContractRevised contract => contract_revised state contract
  | TaskEvent.EpochStarted epoch_id _ => epoch_started state epoch_id
  | TaskEvent.EpochFinished epoch_id _ => epoch_ended state epoch_id
  | TaskEvent.EpochInterrupted epoch_id _ => epoch_ended state epoch_id
  | TaskEvent.ConfigurationQueued _ _ _ _
  | TaskEvent.ConfigurationApplied _
  | TaskEvent.ControlRequested _ _ => Ok state
  | TaskEvent.OperationIntentRecorded operation_id epoch_id _ _ _ =>
    operation_intent_recorded state operation_id epoch_id sequence
  | TaskEvent.OperationPostconditionBound operation_id postcondition_digest =>
    operation_postcondition_bound state operation_id postcondition_digest
  | TaskEvent.OperationFilePostconditionBound operation_id postcondition =>
    operation_file_postcondition_bound state operation_id postcondition
  | TaskEvent.OperationTransitioned operation_id from to evidence_sequences =>
    operation_transitioned state operation_id from to sequence evidence_sequences
  | TaskEvent.OperationEvidenceRecorded operation_id _ =>
    operation_evidence_recorded state operation_id sequence
  | TaskEvent.UsageObserved epoch_id _ _
  | TaskEvent.ProviderRequestRecorded epoch_id _ _ _
  | TaskEvent.ProviderEpochBound epoch_id _ =>
    _ ← require_active_epoch state epoch_id; Ok state
  | TaskEvent.RecoveryAttemptStarted epoch_id strategy strategy_fingerprint =>
    recovery_attempt_started state epoch_id strategy strategy_fingerprint
  | TaskEvent.RecoveryAttemptRecorded epoch_id strategy strategy_fingerprint _ =>
    recovery_attempt_recorded state epoch_id strategy strategy_fingerprint
  | TaskEvent.ProgressAssessed _ _
  | TaskEvent.NormalizedOperationEvidenceRecorded _ _
  | TaskEvent.CompactionRequested _ _
  | TaskEvent.BackgroundProcessTerminationRecorded _ _ _
  | TaskEvent.SteeringQueued _ _ => Ok state
  | TaskEvent.CheckpointCommitted checkpoint_id _ => checkpoint_committed state checkpoint_id
  | TaskEvent.CompactionCompleted _ checkpoint_id _ => compaction_completed state checkpoint_id
  | TaskEvent.ProviderContextBound context_id => Ok (with_provider_context (Some context_id) state)
  | TaskEvent.ProviderContextLost context_id _ => provider_context_lost state context_id
  | TaskEvent.CancellationRequested => transition_status state state.(status) TaskStatus.Cancelling
  | TaskEvent.Blocked _ => transition_status state state.(status) TaskStatus.Blocked
  | TaskEvent.Completed => completed state
  end.

Definition is_created (event : TaskEvent) : bool :=
  match event with TaskEvent.Created _ _ _ _ _ _ _ => true | _ => false end.
Definition is_contract_revised (event : TaskEvent) : bool :=
  match event with TaskEvent.ContractRevised _ => true | _ => false end.

Definition reduce_existing (state : TaskSnapshot) (task : TaskId) (envelope : EventEnvelope)
    (event : TaskEvent) : reduction TaskSnapshot :=
  _ ← reject (negb (state.(task_id) =?? task)) (reduce_error TaskReduceErrorCode.TaskIdMismatch);
  _ ← reject (negb (state.(session_id) =?? envelope.(ee_session_id)))
        (reduce_error TaskReduceErrorCode.SessionMismatch);
  _ ← reject (TaskStatus_is_terminal state.(status)) (reduce_error TaskReduceErrorCode.TerminalState);
  _ ← reject (is_created event) (reduce_error TaskReduceErrorCode.TaskAlreadyCreated);
  _ ← (if is_contract_revised event then Ok tt
       else map_err (fun _ => reduce_error TaskReduceErrorCode.InvalidEventMetadata)
              (TaskEvent_validate event));
  state ← apply_event state envelope.(sequence) event;
  revision ← ok_or (checked_add u64_max state.(revision) 1)
               (reduce_error TaskReduceErrorCode.RevisionOverflow);
  Ok (with_revision revision state).

Definition reduce_task (state : option TaskSnapshot) (envelope : EventEnvelope)
    : reduction TaskSnapshot :=
  match envelope.(event) with
  | Event.TaskLifecycle task event =>
    match state with
    | None => reduce_created task envelope event
    | Some state => reduce_existing state task envelope event
    end
  | _ => Err (reduce_error TaskReduceErrorCode.NotTaskEvent)
  end.

(** ** The specification: a declarative step relation *)

(** No epoch is running and every operation has a resolved outcome. *)
Definition safe_boundary (st : TaskSnapshot) : Prop :=
  st.(active_epoch) = None
  /\ forall id op, st.(operations) !! id = Some op -> is_resolved op.(os_status) = true.

Definition in_flight (s : OperationStatus) : bool :=
  match s with OperationStatus.IntentRecorded | OperationStatus.Started => true | _ => false end.

Definition put_operation (id : OperationId) (op : OperationSnapshot) (st : TaskSnapshot) : TaskSnapshot :=
  with_operations (<[id := op]> st.(operations)) st.

Definition fresh_operation (epoch_id : EpochId) (sequence : Z) : OperationSnapshot :=
  {| os_epoch_id := epoch_id; os_status := OperationStatus.IntentRecorded;
     last_transition_sequence := sequence; postcondition_digest := None;
     file_postcondition := None; evidence := OperationEvidenceState_default |}.

(** The operation [op] with what one event may change in it. *)
Definition revise_operation (op : OperationSnapshot) (s : OperationStatus) (last : Z)
    (digest : option Sha256Digest) (files : option FilePostcondition)
    (e : OperationEvidenceState) : OperationSnapshot :=
  {| os_epoch_id := op.(os_epoch_id); os_status := s; last_transition_sequence := last;
     postcondition_digest := digest; file_postcondition := files; evidence := e |}.

(** Events that only leave a record. *)
Definition is_note (ev : TaskEvent) : bool :=
  match ev with
  | TaskEvent.ConfigurationQueued _ _ _ _ | TaskEvent.ConfigurationApplied _
  | TaskEvent.ControlRequested _ _ | TaskEvent.ProgressAssessed _ _
  | TaskEvent.NormalizedOperationEvidenceRecorded _ _ | TaskEvent.CompactionRequested _ _
  | TaskEvent.BackgroundProcessTerminationRecorded _ _ _ | TaskEvent.SteeringQueued _ _ => true
  | _ => false
  end.

(** Events that only leave a record about the running epoch. *)
Definition epoch_note (ev : TaskEvent) : option EpochId :=
  match ev with
  | TaskEvent.UsageObserved e _ _ | TaskEvent.ProviderRequestRecorded e _ _ _
  | TaskEvent.ProviderEpochBound e _ => Some e
  | _ => None
  end.

(** The operation [id] is [op] and belongs to the running epoch. *)
Definition running (st : TaskSnapshot) (id : OperationId) (op : OperationSnapshot) : Prop :=
  st.(operations) !! id = Some op /\ st.(active_epoch) = Some op.(os_epoch_id).

Inductive task_step (st : TaskSnapshot) (now : Z) : TaskEvent -> TaskSnapshot -> Prop :=
| step_status to reason :
  legal_status_edge st.(status) to = true ->
  (to = TaskStatus.Cancelled -> safe_boundary st) ->
  task_step st now (TaskEvent.StateTransitioned st.(status) to reason) (with_status to st)
| step_contract c :
  CompletionContract_validate c = Ok tt ->
  st.(contract).(version) < c.(version) ->
  task_step st now (TaskEvent.ContractRevised c) (with_contract c st)
| step_epoch_started e objective :
  st.(active_epoch) = None -> st.(status) = TaskStatus.Active ->
  (forall e' s f, st.(pending_recovery) = Some (e', s, f) -> e' = e) ->
  task_step st now (TaskEvent.EpochStarted e objective) (with_active_epoch (Some e) st)
| step_epoch_ended ev e :
  (exists d, ev = TaskEvent.EpochFinished e d) \/ (exists r, ev = TaskEvent.EpochInterrupted e r) ->
  st.(active_epoch) = Some e ->
  (forall id op, st.(operations) !! id = Some op -> in_flight op.(os_status) = false) ->
  task_step st now ev (with_active_epoch None st)
| step_note ev : is_note ev = true -> task_step st now ev st
| step_epoch_note ev e : epoch_note ev = Some e -> st.(active_epoch) = Some e -> task_step st now ev st
| step_intent id e item class digest :
  st.(active_epoch) = Some e -> st.(operations) !! id = None ->
  task_step st now (TaskEvent.OperationIntentRecorded id e item class digest)
    (put_operation id (fresh_operation e now) st)
| step_postcondition id op digest :
  running st id op -> op.(os_status) = OperationStatus.IntentRecorded ->
  op.(postcondition_digest) = None ->
  task_step st now (TaskEvent.OperationPostconditionBound id digest)
    (put_operation id (revise_operation op op.(os_status) op.(last_transition_sequence)
       (Some digest) op.(file_postcondition) op.(evidence)) st)
| step_file_postcondition id op files :
  running st id op -> op.(os_status) = OperationStatus.Started ->
  op.(file_postcondition) = None ->
  task_step st now (TaskEvent.OperationFilePostconditionBound id files)
    (put_operation id (revise_operation op op.(os_status) op.(last_transition_sequence)
       op.(postcondition_digest) (Some files) op.(evidence)) st)
| step_operation id op from to ev ledger :
  running st id op ->
  ledger_step op.(evidence) op.(os_status) from to op.(last_transition_sequence) now ev ledger ->
  task_step st now (TaskEvent.OperationTransitioned id from to ev)
    (put_operation id (revise_operation op to now op.(postcondition_digest)
       op.(file_postcondition) ledger) st)
| step_evidence id op digest :
  running st id op ->
  op.(os_status) = OperationStatus.Started \/ op.(os_status) = OperationStatus.Uncertain ->
  op.(last_transition_sequence) < now -> now ∉ op.(evidence).(recorded_sequences) ->
  task_step st now (TaskEvent.OperationEvidenceRecorded id digest)
    (put_operation id (revise_operation op op.(os_status) op.(last_transition_sequence)
       op.(postcondition_digest) op.(file_postcondition)
       {| recorded_sequences := {[now]} ∪ op.(evidence).(recorded_sequences);
          consumed_sequences := op.(evidence).(consumed_sequences) |}) st)
| step_recovery_started e s f :
  st.(status) = TaskStatus.Checkpointing -> st.(pending_recovery) = None ->
  task_step st now (TaskEvent.RecoveryAttemptStarted e s f) (with_pending_recovery (Some (e, s, f)) st)
| step_recovery_recorded e s f outcome :
  st.(active_epoch) = None -> st.(pending_recovery) = Some (e, s, f) ->
  task_step st now (TaskEvent.RecoveryAttemptRecorded e s f outcome) (with_pending_recovery None st)
| step_checkpoint c digest :
  safe_boundary st ->
  task_step st now (TaskEvent.CheckpointCommitted c digest) (with_latest_checkpoint (Some c) st)
| step_compaction generation c package :
  safe_boundary st -> st.(latest_checkpoint) = Some c ->
  task_step st now (TaskEvent.CompactionCompleted generation c package) st
| step_context_bound c :
  task_step st now (TaskEvent.ProviderContextBound c) (with_provider_context (Some c) st)
| step_context_lost c reason :
  st.(provider_context) = Some c ->
  task_step st now (TaskEvent.ProviderContextLost c reason) (with_provider_context None st)
| step_cancel :
  legal_status_edge st.(status) TaskStatus.Cancelling = true ->
  task_step st now TaskEvent.CancellationRequested (with_status TaskStatus.Cancelling st)
| step_blocked reason :
  legal_status_edge st.(status) TaskStatus.Blocked = true ->
  task_step st now (TaskEvent.Blocked reason) (with_status TaskStatus.Blocked st)
| step_completed :
  safe_boundary st -> required_clauses_satisfied st.(contract) = true ->
  st.(status) = TaskStatus.Completing ->
  task_step st now TaskEvent.Completed (with_status TaskStatus.Completed st).

(** ** The reducer refines the specification *)

Lemma has_unresolved_false st :
  has_unresolved_operations st = false
  <-> forall id op, st.(operations) !! id = Some op -> is_resolved op.(os_status) = true.
Proof.
  unfold has_unresolved_operations. rewrite existsb_false, Forall_forall.
  setoid_rewrite elem_of_btree_values. setoid_rewrite negb_false_iff. naive_solver.
Qed.

Lemma has_in_flight_false st :
  has_in_flight_operations st = false
  <-> forall id op, st.(operations) !! id = Some op -> in_flight op.(os_status) = false.
Proof.
  unfold has_in_flight_operations. rewrite existsb_false, Forall_forall.
  setoid_rewrite elem_of_btree_values. unfold in_flight. naive_solver.
Qed.

Lemma require_safe_boundary_ok st u : require_safe_boundary st = Ok u <-> safe_boundary st.
Proof. unfold require_safe_boundary, safe_boundary. autorewrite with carl. by rewrite has_unresolved_false. Qed.

Lemma transition_status_ok st from to st' :
  transition_status st from to = Ok st'
  <-> st.(status) = from /\ legal_status_edge from to = true /\ st' = with_status to st.
Proof. unfold transition_status. autorewrite with carl. naive_solver. Qed.

Lemma require_operation_ok st id u :
  require_operation st id = Ok u <-> exists op, running st id op.
Proof.
  unfold require_operation, operation, running.
  destruct (st.(operations) !! id) as [op|]; simpl; [|naive_solver].
  autorewrite with carl. naive_solver.
Qed.

(** The arms about one operation, once it is known to be running. *)
Lemma postcondition_bound_ok st id digest st' :
  operation_postcondition_bound st id digest = Ok st'
  <-> exists op, running st id op /\ op.(os_status) = OperationStatus.IntentRecorded
      /\ op.(postcondition_digest) = None
      /\ st' = put_operation id (revise_operation op op.(os_status) op.(last_transition_sequence)
                 (Some digest) op.(file_postcondition) op.(evidence)) st.
Proof.
  unfold operation_postcondition_bound. rewrite bind_ok. setoid_rewrite require_operation_ok.
  unfold running, bind_legacy_operation_postcondition.
  destruct (st.(operations) !! id) as [op|]; [|naive_solver].
  destruct (negb _ || is_some _) eqn:Hb; simpl.
  - split; [by intros (_ & _ & ?)|]. intros (op' & [[= <-] _] & Hs & Hd & _).
    rewrite Hs, Hd in Hb. done.
  - autorewrite with carl in Hb. split.
    + intros (_ & (op' & [= <-] & Ha) & [= <-]). naive_solver.
    + intros (op' & [[= <-] Ha] & _ & _ & ->). exists tt. eauto.
Qed.

Lemma file_postcondition_bound_ok st id files st' :
  operation_file_postcondition_bound st id files = Ok st'
  <-> exists op, running st id op /\ op.(os_status) = OperationStatus.Started
      /\ op.(file_postcondition) = None
      /\ st' = put_operation id (revise_operation op op.(os_status) op.(last_transition_sequence)
                 op.(postcondition_digest) (Some files) op.(evidence)) st.
Proof.
  unfold operation_file_postcondition_bound. rewrite bind_ok. setoid_rewrite require_operation_ok.
  unfold running, bind_operation_file_postcondition.
  destruct (st.(operations) !! id) as [op|]; [|naive_solver].
  destruct (negb _ || is_some _) eqn:Hb; simpl.
  - split; [by intros (_ & _ & ?)|]. intros (op' & [[= <-] _] & Hs & Hd & _).
    rewrite Hs, Hd in Hb. done.
  - autorewrite with carl in Hb. split.
    + intros (_ & (op' & [= <-] & Ha) & [= <-]). naive_solver.
    + intros (op' & [[= <-] Ha] & _ & _ & ->). exists tt. eauto.
Qed.

Lemma operation_transitioned_ok st id from to now ev st' :
  operation_transitioned st id from to now ev = Ok st'
  <-> exists op ledger, running st id op
      /\ ledger_step op.(evidence) op.(os_status) from to op.(last_transition_sequence) now ev ledger
      /\ st' = put_operation id (revise_operation op to now op.(postcondition_digest)
                 op.(file_postcondition) ledger) st.
Proof.
  unfold operation_transitioned. rewrite bind_ok. setoid_rewrite require_operation_ok.
  setoid_rewrite map_err_ok. unfold transition_operation, running. split.
  - intros (_ & (op & Hop & Ha) & H). rewrite Hop in H. simpl in H. carl_simpl.
    setoid_rewrite <-evidence_transition_spec. eauto 10.
  - intros (op & ledger & [Hop Ha] & Hl & ->). exists tt. split; [eauto|].
    apply evidence_transition_spec in Hl. by rewrite Hop; simpl; rewrite Hl.
Qed.

Lemma evidence_recorded_ok st id now st' :
  operation_evidence_recorded st id now = Ok st'
  <-> exists op ledger, running st id op
      /\ OperationEvidenceState_record op.(evidence) op.(os_status)
           op.(last_transition_sequence) now = Ok ledger
      /\ st' = put_operation id (revise_operation op op.(os_status) op.(last_transition_sequence)
                 op.(postcondition_digest) op.(file_postcondition) ledger) st.
Proof.
  unfold operation_evidence_recorded. rewrite bind_ok. setoid_rewrite require_operation_ok.
  setoid_rewrite map_err_ok. unfold record_operation_evidence, running. split.
  - intros (_ & (op & Hop & Ha) & H). rewrite Hop in H. simpl in H. carl_simpl. eauto 10.
  - intros (op & ledger & [Hop Ha] & Hl & ->). exists tt. split; [eauto|].
    by rewrite Hop; simpl; rewrite Hl.
Qed.

Lemma intent_recorded_ok st id e now st' :
  operation_intent_recorded st id e now = Ok st'
  <-> st.(active_epoch) = Some e /\ st.(operations) !! id = None
      /\ st' = put_operation id (fresh_operation e now) st.
Proof.
  unfold operation_intent_recorded, require_active_epoch, insert_operation.
  autorewrite with carl. rewrite fmap_None. naive_solver.
Qed.

Lemma recovery_recorded_ok st e s f st' :
  recovery_attempt_recorded st e s f = Ok st'
  <-> st.(active_epoch) = None /\ st.(pending_recovery) = Some (e, s, f)
      /\ st' = with_pending_recovery None st.
Proof.
  unfold recovery_attempt_recorded, finish_recovery.
  destruct (st.(pending_recovery)) as [[[e' s'] f']|]; simpl; autorewrite with carl; naive_solver.
Qed.

Lemma contract_revised_ok st c st' :
  contract_revised st c = Ok st'
  <-> CompletionContract_validate c = Ok tt /\ st.(contract).(version) < c.(version)
      /\ st' = with_contract c st.
Proof.
  unfold contract_revised.
  rewrite (bind_guard (CompletionContract_validate c = Ok tt)) by apply map_err_ok.
  autorewrite with carl. naive_solver.
Qed.

Lemma epoch_started_ok st e st' :
  epoch_started st e = Ok st'
  <-> st.(active_epoch) = None /\ st.(status) = TaskStatus.Active
      /\ (forall e' s f, st.(pending_recovery) = Some (e', s, f) -> e' = e)
      /\ st' = with_active_epoch (Some e) st.
Proof.
  unfold epoch_started. autorewrite with carl.
  destruct (st.(pending_recovery)) as [[[e' s] f]|]; simpl; autorewrite with carl; naive_solver.
Qed.

Lemma epoch_ended_ok st e st' :
  epoch_ended st e = Ok st'
  <-> st.(active_epoch) = Some e
      /\ (forall id op, st.(operations) !! id = Some op -> in_flight op.(os_status) = false)
      /\ st' = with_active_epoch None st.
Proof.
  unfold epoch_ended, require_active_epoch. autorewrite with carl.
  rewrite has_in_flight_false. naive_solver.
Qed.

Lemma state_transitioned_ok st from to st' :
  state_transitioned st from to = Ok st'
  <-> st.(status) = from /\ legal_status_edge from to = true
      /\ (to = TaskStatus.Cancelled -> safe_boundary st) /\ st' = with_status to st.
Proof.
  unfold state_transitioned.
  rewrite (bind_guard (to = TaskStatus.Cancelled -> safe_boundary st)), transition_status_ok;
    [naive_solver|].
  case_bool_decide; [rewrite require_safe_boundary_ok|]; naive_solver.
Qed.

Lemma completed_ok st st' :
  completed st = Ok st'
  <-> safe_boundary st /\ required_clauses_satisfied st.(contract) = true
      /\ st.(status) = TaskStatus.Completing /\ st' = with_status TaskStatus.Completed st.
Proof.
  unfold completed. rewrite (bind_guard (safe_boundary st)) by apply require_safe_boundary_ok.
  rewrite bind_reject, negb_false_iff, transition_status_ok.
  split; [|intros (? & ? & Hst & ?); by rewrite Hst].
  intros (? & ? & _ & Hedge & ?). destruct (status st); naive_solver.
Qed.

Lemma checkpoint_committed_ok st c st' :
  checkpoint_committed st c = Ok st'
  <-> safe_boundary st /\ st' = with_latest_checkpoint (Some c) st.
Proof.
  unfold checkpoint_committed.
  rewrite (bind_guard (safe_boundary st)) by apply require_safe_boundary_ok. naive_solver.
Qed.

Lemma compaction_completed_ok st c st' :
  compaction_completed st c = Ok st'
  <-> safe_boundary st /\ st.(latest_checkpoint) = Some c /\ st' = st.
Proof.
  unfold compaction_completed.
  rewrite (bind_guard (safe_boundary st)) by apply require_safe_boundary_ok.
  autorewrite with carl. naive_solver.
Qed.

Lemma recovery_started_ok st e s f st' :
  recovery_attempt_started st e s f = Ok st'
  <-> st.(status) = TaskStatus.Checkpointing /\ st.(pending_recovery) = None
      /\ st' = with_pending_recovery (Some (e, s, f)) st.
Proof.
  unfold recovery_attempt_started, start_recovery. autorewrite with carl.
  destruct (st.(pending_recovery)); simpl; autorewrite with carl; naive_solver.
Qed.

#[local] Hint Constructors task_step : core.

Lemma epoch_note_ok st e st' :
  (require_active_epoch st e ≫= fun _ => Ok st) = Ok st' <-> st.(active_epoch) = Some e /\ st' = st.
Proof. unfold require_active_epoch. autorewrite with carl. naive_solver. Qed.

Lemma context_lost_ok st c st' :
  provider_context_lost st c = Ok st'
  <-> st.(provider_context) = Some c /\ st' = with_provider_context None st.
Proof. unfold provider_context_lost. autorewrite with carl. naive_solver. Qed.

Create Rewrite HintDb reducer.
#[local] Hint Rewrite contract_revised_ok epoch_started_ok epoch_ended_ok state_transitioned_ok
  completed_ok recovery_started_ok recovery_recorded_ok transition_status_ok intent_recorded_ok
  postcondition_bound_ok file_postcondition_bound_ok operation_transitioned_ok
  evidence_recorded_ok evidence_record_spec checkpoint_committed_ok compaction_completed_ok
  epoch_note_ok context_lost_ok @ok_inj : reducer.

Lemma apply_event_sound st now ev st' : apply_event st now ev = Ok st' -> task_step st now ev st'.
Proof.
  destruct ev; simpl; autorewrite with reducer; intros H; try done; destruct_and?; subst; eauto.
  all: try (destruct H as (op & Hop); destruct_and?; subst; eauto).
  - destruct Hop as (ledger & ? & ? & ->). eauto.
  - destruct Hop as (ledger & ? & Hl & ->). apply evidence_record_spec in Hl as (? & ? & ? & ->). eauto.
Qed.

Lemma apply_event_complete st now ev st' : task_step st now ev st' -> apply_event st now ev = Ok st'.
Proof.
  destruct 1; simpl; autorewrite with reducer; eauto 10.
  - match goal with H : _ \/ _ |- _ => destruct H as [[? ->]|[? ->]] end; simpl; by autorewrite with reducer.
  - by destruct ev.
  - destruct ev; simplify_eq/=; by autorewrite with reducer.
  - do 2 eexists. split; [eassumption|]. rewrite evidence_record_spec. auto 10.
Qed.

Lemma step_revision st now ev st' : task_step st now ev st' -> st'.(revision) = st.(revision).
Proof. by destruct 1. Qed.

Lemma step_not_created st now ev st' : task_step st now ev st' -> is_created ev = false.
Proof. destruct 1; try done; [naive_solver|by destruct ev|by destruct ev]. Qed.

(** What the reducer accepts of a task that exists. *)
Definition accepts (st : TaskSnapshot) (env : EventEnvelope) (ev : TaskEvent) (st' : TaskSnapshot) : Prop :=
  env.(event) = Event.TaskLifecycle st.(task_id) ev
  /\ env.(ee_session_id) = st.(session_id)
  /\ TaskStatus_is_terminal st.(status) = false
  /\ (is_contract_revised ev = false -> TaskEvent_validate ev = Ok tt)
  /\ st.(revision) + 1 <= u64_max
  /\ exists st1, task_step st env.(sequence) ev st1 /\ st' = with_revision (st.(revision) + 1) st1.

Lemma reduce_existing_spec st env st' :
  reduce_task (Some st) env = Ok st' <-> exists ev, accepts st env ev st'.
Proof.
  unfold reduce_task, accepts. split.
  - destruct (event env) eqn:Hev; try done. unfold reduce_existing. intros H. carl_simpl.
    match goal with H : apply_event _ _ _ = Ok _ |- _ => apply apply_event_sound in H as Hstep end.
    rewrite (step_revision _ _ _ _ Hstep) in *.
    lazymatch type of Hstep with task_step _ _ ?ev _ => exists ev end.
    do 3 (split; [congruence|]). split; [|eauto 10].
    intros Hrev. rewrite Hrev in *. by carl_simpl.
  - intros (ev & -> & Hs & Ht & Hv & Hr & st1 & Hstep & ->). unfold reduce_existing.
    rewrite !bind_reject, !negb_false_iff, !bool_decide_eq_true.
    do 3 (split; [done|]). split; [by eapply step_not_created|].
    rewrite (apply_event_complete _ _ _ _ Hstep). simpl. rewrite (step_revision _ _ _ _ Hstep).
    unfold checked_add. rewrite (proj2 (Z.leb_le _ _) Hr).
    destruct (is_contract_revised ev); [done|]. by rewrite (Hv eq_refl).
Qed.

Lemma reduce_created_spec env st' :
  reduce_task None env = Ok st'
  <-> exists task c b w m e p,
      env.(event) = Event.TaskLifecycle task (TaskEvent.Created env.(ee_session_id) w c b m e p)
      /\ TaskEvent_validate (TaskEvent.Created env.(ee_session_id) w c b m e p) = Ok tt
      /\ CompletionContract_validate c = Ok tt
      /\ st' = TaskSnapshot_created task env.(ee_session_id) c b.
Proof.
  unfold reduce_task, reduce_created. split.
  - intros H. repeat (case_match; try done). subst. carl_simpl. eauto 15.
  - intros (task & c & b & w & m & e & p & -> & Hv & Hc & ->).
    rewrite Hv, Hc. simpl. by rewrite bool_decide_eq_true_2.
Qed.

(** ** Histories

    A journal replayed from its creation event, the stored sequence numbers
    increasing. *)
Inductive history : list EventEnvelope -> TaskSnapshot -> Prop :=
| history_created env st : reduce_task None env = Ok st -> history [env] st
| history_step es st env st' :
  history es st -> Forall (fun e => e.(sequence) < env.(sequence)) es ->
  reduce_task (Some st) env = Ok st' -> history (es ++ [env]) st'.

(** Replay as the code does it, one event after the other. *)
Definition replay (es : list EventEnvelope) : reduction (option TaskSnapshot) :=
  try_fold (fun st env => Some <$> reduce_task st env) None es.

Definition records_evidence (id : OperationId) (env : EventEnvelope) : Prop :=
  exists task digest, env.(event) = Event.TaskLifecycle task (TaskEvent.OperationEvidenceRecorded id digest).

(** The invariant of an operation in the snapshot the journal [es] replays to. *)
Record operation_ok (es : list EventEnvelope) (active : option EpochId) (id : OperationId)
    (op : OperationSnapshot) : Prop := {
  op_ledger : ledger_ok op.(os_status) op.(last_transition_sequence) op.(evidence);
  op_traced : forall s, s ∈ op.(evidence).(recorded_sequences) ->
              exists e, e ∈ es /\ e.(sequence) = s /\ records_evidence id e;
  op_last : exists e, e ∈ es /\ e.(sequence) = op.(last_transition_sequence);
  op_epoch : in_flight op.(os_status) = true -> active = Some op.(os_epoch_id)
}.

Definition operations_ok (es : list EventEnvelope) (st : TaskSnapshot) : Prop :=
  forall id op, st.(operations) !! id = Some op -> operation_ok es st.(active_epoch) id op.

Record snapshot_ok (es : list EventEnvelope) (st : TaskSnapshot) : Prop := {
  ok_revision : st.(revision) = Zlen es /\ st.(revision) <= u64_max;
  ok_contract : CompletionContract_validate st.(contract) = Ok tt;
  ok_operations : operations_ok es st;
  ok_cancelled : st.(status) = TaskStatus.Cancelled -> safe_boundary st;
  ok_owner : Forall (fun e => e.(ee_session_id) = st.(session_id)
                    /\ exists ev, e.(event) = Event.TaskLifecycle st.(task_id) ev) es
}.

Lemma operation_ok_later es active active' id op env :
  operation_ok es active id op ->
  (in_flight op.(os_status) = true -> active = Some op.(os_epoch_id) -> active' = Some op.(os_epoch_id)) ->
  operation_ok (es ++ [env]) active' id op.
Proof.
  intros [Hl Ht (e & He & Hs) Hep] Ha. constructor; auto.
  - intros s Hs'. destruct (Ht s Hs') as (e' & ? & ? & ?). exists e'. set_solver.
  - exists e. set_solver.
Qed.

Lemma operations_ok_same es st st1 env :
  operations_ok es st -> st1.(operations) = st.(operations) ->
  (forall id op, st.(operations) !! id = Some op -> in_flight op.(os_status) = true ->
     st.(active_epoch) = Some op.(os_epoch_id) -> st1.(active_epoch) = Some op.(os_epoch_id)) ->
  operations_ok (es ++ [env]) st1.
Proof.
  intros Hok Heq Ha id op Hop. rewrite Heq in Hop.
  eapply operation_ok_later; [by apply Hok|]. by apply Ha with id.
Qed.

Lemma operations_ok_put es st id op env :
  operations_ok es st -> operation_ok (es ++ [env]) st.(active_epoch) id op ->
  operations_ok (es ++ [env]) (put_operation id op st).
Proof.
  intros Hok Hop id' op' Hl. simpl in Hl. apply lookup_insert_Some in Hl as [[<- <-]|[_ Hl]]; [done|].
  eapply operation_ok_later; [by apply Hok|]. done.
Qed.

Lemma sequences_below es (s now : Z) :
  Forall (fun e => e.(sequence) < now) es -> (exists e, e ∈ es /\ e.(sequence) = s) -> s < now.
Proof. intros H (e & He & <-). rewrite Forall_forall in H. by apply H. Qed.

(** A transition moves the operation to a state with a good ledger. *)
Lemma operation_ok_transition es st id op env from to ev ledger :
  operation_ok es st.(active_epoch) id op -> running st id op ->
  Forall (fun e => e.(sequence) < env.(sequence)) es ->
  ledger_step op.(evidence) op.(os_status) from to op.(last_transition_sequence)
    env.(sequence) ev ledger ->
  operation_ok (es ++ [env]) st.(active_epoch) id
    (revise_operation op to env.(sequence) op.(postcondition_digest) op.(file_postcondition) ledger).
Proof.
  intros [Hl Ht Hlast _] [_ Ha] Hseq Hstep. constructor; simpl; auto.
  - eapply ledger_ok_transition; [exact Hl|by eapply sequences_below|].
    apply evidence_transition_spec. exact Hstep.
  - destruct Hstep as (_ & _ & _ & _ & _ & Hto). intros s Hs.
    destruct (Ht s) as (e & ? & ? & ?); [|exists e; set_solver].
    destruct (requires_terminal_evidence to); [destruct Hto as (_ & _ & ->)|subst]; done.
  - exists env. set_solver.
Qed.

Lemma operation_ok_evidence es st id op env task digest :
  operation_ok es st.(active_epoch) id op -> running st id op ->
  env.(event) = Event.TaskLifecycle task (TaskEvent.OperationEvidenceRecorded id digest) ->
  operation_ok (es ++ [env]) st.(active_epoch) id
    (revise_operation op op.(os_status) op.(last_transition_sequence) op.(postcondition_digest)
       op.(file_postcondition)
       {| recorded_sequences := {[env.(sequence)]} ∪ op.(evidence).(recorded_sequences);
          consumed_sequences := op.(evidence).(consumed_sequences) |}).
Proof.
  intros [(Hnd & Hc & Hne) Ht (e0 & He0 & Hlast) _] [_ Ha] Hev. constructor; simpl; auto.
  - split; [done|]. split; [|done]. eapply Forall_impl; [exact Hc|]. set_solver.
  - intros s [->%elem_of_singleton|Hs]%elem_of_union.
    + exists env. split; [set_solver|]. split; [done|]. by exists task, digest.
    + destruct (Ht s Hs) as (e & ? & ? & ?). exists e. set_solver.
  - exists e0. set_solver.
Qed.

Lemma operation_ok_revised es active id op env digest files :
  operation_ok es active id op ->
  operation_ok (es ++ [env]) active id
    (revise_operation op op.(os_status) op.(last_transition_sequence) digest files op.(evidence)).
Proof.
  intros H. destruct (operation_ok_later _ _ active _ _ env H) as [? ? ? ?]; [done|]. by constructor.
Qed.

Lemma operation_ok_fresh es env st id e :
  st.(active_epoch) = Some e ->
  operation_ok (es ++ [env]) st.(active_epoch) id (fresh_operation e env.(sequence)).
Proof.
  intros Ha. constructor; simpl; auto.
  - apply ledger_ok_default.
  - set_solver.
  - exists env. set_solver.
Qed.

Lemma step_operations_ok es st env ev st1 :
  operations_ok es st -> Forall (fun e => e.(sequence) < env.(sequence)) es ->
  env.(event) = Event.TaskLifecycle st.(task_id) ev ->
  task_step st env.(sequence) ev st1 -> operations_ok (es ++ [env]) st1.
Proof.
  intros Hok Hseq Hev Hstep.
  destruct Hstep; try (eapply operations_ok_same; [exact Hok|done|simpl; done]).
  - eapply operations_ok_same; [exact Hok|done|]. simpl. congruence.
  - eapply operations_ok_same; [exact Hok|done|]. intros id op Hop Hfl.
    match goal with Hn : forall id op, _ -> in_flight _ = false |- _ => by rewrite (Hn _ _ Hop) in Hfl end.
  - apply operations_ok_put, operation_ok_fresh; done.
  - apply operations_ok_put, operation_ok_revised, Hok; [done|by destruct H].
  - apply operations_ok_put, operation_ok_revised, Hok; [done|by destruct H].
  - apply operations_ok_put; [done|]. eapply operation_ok_transition; eauto. apply Hok, H.
  - apply operations_ok_put; [done|]. eapply operation_ok_evidence; eauto. apply Hok, H.
Qed.

Lemma step_contract_ok st now ev st1 :
  CompletionContract_validate st.(contract) = Ok tt -> task_step st now ev st1 ->
  CompletionContract_validate st1.(contract) = Ok tt.
Proof. by destruct 2. Qed.

Lemma step_identity st now ev st1 :
  task_step st now ev st1 -> st1.(task_id) = st.(task_id) /\ st1.(session_id) = st.(session_id).
Proof. by destruct 1. Qed.

(** A step changes the status along a legal edge or not at all, and into
    [Cancelled] only at a safe boundary. *)
Lemma step_status_edge st now ev st1 :
  task_step st now ev st1 ->
  st1.(status) = st.(status)
  \/ legal_status_edge st.(status) st1.(status) = true
     /\ st1.(operations) = st.(operations) /\ st1.(active_epoch) = st.(active_epoch)
     /\ (st1.(status) = TaskStatus.Cancelled -> safe_boundary st).
Proof.
  destruct 1; simpl; auto; right; repeat split; auto; try done.
  match goal with H : status st = _ |- _ => by rewrite H end.
Qed.

Lemma snapshot_ok_step es st env st' :
  snapshot_ok es st -> Forall (fun e => e.(sequence) < env.(sequence)) es ->
  reduce_task (Some st) env = Ok st' -> snapshot_ok (es ++ [env]) st'.
Proof.
  intros [[Hrev _] Hc Hops Hcan Hown] Hseq
    (ev & Hev & Hses & Hterm & _ & Hmax & st1 & Hstep & ->)%reduce_existing_spec.
  destruct (step_identity _ _ _ _ Hstep) as [Ht Hs]. constructor; simpl.
  - rewrite Zlen_app. simpl. lia.
  - by eapply step_contract_ok.
  - by eapply step_operations_ok in Hstep.
  - intros Hst. destruct (step_status_edge _ _ _ _ Hstep) as [Heq|(_ & Ho & Ha & Hsafe)].
    + rewrite Heq in Hst. by rewrite Hst in Hterm.
    + unfold safe_boundary. simpl. rewrite Ho, Ha. by apply Hsafe.
  - rewrite Ht, Hs. apply Forall_app. split; [done|]. constructor; [|done]. eauto.
Qed.

Lemma snapshot_ok_created env st : reduce_task None env = Ok st -> snapshot_ok [env] st.
Proof.
  intros (task & c & b & w & m & e & p & Hev & _ & Hc & ->)%reduce_created_spec.
  constructor; simpl; try done. constructor; [|done]. eauto.
Qed.

Lemma history_ok es st : history es st -> snapshot_ok es st.
Proof. induction 1; [by apply snapshot_ok_created|by eapply snapshot_ok_step]. Qed.

Lemma replay_snoc es env :
  replay (es ++ [env]) = (st ← replay es; Some <$> reduce_task st env).
Proof.
  unfold replay. rewrite try_fold_app. destruct (try_fold _ None es); simpl; [|done].
  by destruct (reduce_task _ env).
Qed.

Lemma history_iff_replay es st :
  history es st <-> replay es = Ok (Some st) /\ StronglySorted Z.lt (sequence <$> es).
Proof.
  split.
  - induction 1 as [env st H|es st env st' _ [IH Hs] Hlt H].
    + unfold replay. simpl. rewrite H. by repeat constructor.
    + rewrite replay_snoc, IH, fmap_snoc, strongly_sorted_snoc, Forall_fmap. simpl. by rewrite H.
  - revert st. induction es as [|env es IH] using rev_ind; intros st [H Hs]; [done|].
    rewrite fmap_snoc, strongly_sorted_snoc, Forall_fmap in Hs. destruct Hs as [Hs Hlt].
    rewrite replay_snoc in H. carl_simpl.
    match goal with H : replay es = Ok ?o |- _ => destruct o as [st0|]; rename H into Hr end.
    + eapply history_step; [by apply IH|done|done].
    + replace es with (@nil EventEnvelope); [by apply history_created|].
      destruct es as [|env' es] using rev_ind; [done|]. rewrite replay_snoc in Hr. by carl_simpl.
Qed.

Lemma history_session_task es st e :
  history es st -> e ∈ es -> exists ev, e.(event) = Event.TaskLifecycle st.(task_id) ev.
Proof.
  intros [_ _ _ _ Hown]%history_ok He. rewrite Forall_forall in Hown. by destruct (Hown e He).
Qed.

(** ** The reducer never panics *)

Lemma bind_no_panic {A B} (r : reduction A) (k : A -> reduction B) :
  r <> Err Panic -> (forall a, r = Ok a -> k a <> Err Panic) -> (r ≫= k) <> Err Panic.
Proof. destruct r as [a|[|]]; simpl; auto. Qed.

Lemma reject_no_panic b code : reject b (reduce_error code) <> Err Panic.
Proof. by destruct b. Qed.

Lemma map_err_no_panic {E A} (f : E -> or_panic TaskReduceErrorCode) (r : result E A) :
  (forall e, f e <> Panic) -> map_err f r <> Err Panic.
Proof. destruct r; simpl; [done|]. intros H [=]. by eapply H. Qed.

Lemma ok_or_no_panic {A} (o : option A) code : ok_or o (reduce_error code) <> Err Panic.
Proof. by destruct o. Qed.

Create HintDb no_panic discriminated.
#[local] Hint Resolve reject_no_panic ok_or_no_panic : no_panic.

Ltac no_panic :=
  repeat first
    [ progress eauto with no_panic
    | done
    | apply bind_no_panic; [|intros ? ?]
    | apply map_err_no_panic; intros ?
    | case_match ].

Lemma require_operation_no_panic st id : require_operation st id <> Err Panic.
Proof. unfold require_operation. no_panic. Qed.
#[local] Hint Resolve require_operation_no_panic : no_panic.

(** The existence check in front of an [expect] discharges it. *)
Lemma transition_operation_no_panic st id op from to now ev :
  running st id op ->
  map_err operation_evidence_error (transition_operation st id from to now ev) <> Err Panic.
Proof.
  intros [Hop _]. unfold transition_operation. rewrite Hop. simpl.
  destruct (OperationEvidenceState_transition _ _ _ _ _ _ _) as [|[]]; done.
Qed.

Lemma record_evidence_no_panic st id op now :
  running st id op ->
  map_err operation_evidence_error (record_operation_evidence st id now) <> Err Panic.
Proof.
  intros [Hop _]. unfold record_operation_evidence. rewrite Hop. simpl.
  destruct (OperationEvidenceState_record _ _ _ _) as [|[]]; done.
Qed.

Lemma apply_event_no_panic st now ev : is_created ev = false -> apply_event st now ev <> Err Panic.
Proof.
  intros Hc. destruct ev; simpl; try done.
  all: unfold state_transitioned, contract_revised, epoch_started, epoch_ended,
    operation_intent_recorded, operation_postcondition_bound, operation_file_postcondition_bound,
    recovery_attempt_started, recovery_attempt_recorded, checkpoint_committed,
    compaction_completed, provider_context_lost, completed, transition_status,
    require_active_epoch, require_safe_boundary.
  all: try solve [no_panic].
  - apply bind_no_panic; [auto with no_panic|]. intros u (op & Hop)%require_operation_ok.
    by eapply transition_operation_no_panic.
  - apply bind_no_panic; [auto with no_panic|]. intros u (op & Hop)%require_operation_ok.
    by eapply record_evidence_no_panic.
Qed.

(** ** Properties *)

(** The specification of the whole reducer. *)
Definition lifecycle_step (o : option TaskSnapshot) (env : EventEnvelope) (st' : TaskSnapshot) : Prop :=
  match o with
  | None =>
    exists task c b w m e p,
      env.(event) = Event.TaskLifecycle task (TaskEvent.Created env.(ee_session_id) w c b m e p)
      /\ TaskEvent_validate (TaskEvent.Created env.(ee_session_id) w c b m e p) = Ok tt
      /\ CompletionContract_validate c = Ok tt
      /\ st' = TaskSnapshot_created task env.(ee_session_id) c b
  | Some st => exists ev, accepts st env ev st'
  end.

(** C1: the reducer refines its specification.  It accepts an event exactly when
    the declarative step relation has a step for it and returns exactly that
    step's snapshot, for every event, with and without an existing task. *)
Theorem reducer_refines_lifecycle o env st' :
  reduce_task o env = Ok st' <-> lifecycle_step o env st'.
Proof. destruct o; [apply reduce_existing_spec|apply reduce_created_spec]. Qed.

(** no event makes the reducer panic: the [unreachable!] arm is cut off by
    the creation guard and each [expect] by the existence check before it, for
    any snapshot, also one no journal produces. *)
Theorem reducer_never_panics o env : reduce_task o env <> Err Panic.
Proof.
  unfold reduce_task. destruct (event env); try done.
  destruct o as [st|]; [|unfold reduce_created; no_panic].
  unfold reduce_existing. do 4 (apply bind_no_panic; [auto with no_panic|]; intros).
  apply bind_no_panic; [no_panic|]. intros. apply bind_no_panic.
  - apply apply_event_no_panic. by carl_simpl.
  - intros. apply bind_no_panic; [auto with no_panic|]. done.
Qed.

(** *** Example journals *)

Definition task_event (sequence : Z) (ev : TaskEvent) : EventEnvelope :=
  {| ee_id := 1000 + sequence; ee_session_id := 5; ee_turn_id := None; sequence := sequence;
     timestamp := sequence; event := Event.TaskLifecycle 7 ev |}.

Definition example_digest : str := replicate 64 97.

Definition example_contract (version : Z) (status : ClauseStatus) (evidence : list EvidenceRef)
    : CompletionContract :=
  {| version := version; goal := lit "ship the parser"; constraints := [lit "keep the API"];
     clauses := [{| clause_id := lit "tests"; description := lit "tests pass"; required := true;
                    clause_status := status; clause_evidence := evidence |}] |}.

Definition example_creation : EventEnvelope :=
  task_event 1 (TaskEvent.Created 5 (utf8 (lit "/work")) (example_contract 1 ClauseStatus.Pending [])
    TaskBudget_default (lit "model") ReasoningEffort.High PermissionMode.Default).

(** One operation carried to success, the contract satisfied with its evidence,
    the task completed. *)
Definition example_journal : list EventEnvelope :=
  [example_creation;
   task_event 2 (TaskEvent.StateTransitioned TaskStatus.Queued TaskStatus.Active (lit "start"));
   task_event 3 (TaskEvent.EpochStarted 11 (lit "run the tests"));
   task_event 4 (TaskEvent.OperationIntentRecorded 21 11 (lit "item") EffectClass.Observation example_digest);
   task_event 5 (TaskEvent.OperationTransitioned 21 OperationStatus.IntentRecorded OperationStatus.Started []);
   task_event 6 (TaskEvent.OperationEvidenceRecorded 21 example_digest);
   task_event 7 (TaskEvent.OperationTransitioned 21 OperationStatus.Started OperationStatus.Succeeded [6]);
   task_event 8 (TaskEvent.EpochFinished 11 (lit "report"));
   task_event 9 (TaskEvent.ContractRevised (example_contract 2 ClauseStatus.Satisfied
     [{| event_sequence := 6; artifact_digest := None; er_operation_id := Some 21 |}]));
   task_event 10 (TaskEvent.StateTransitioned TaskStatus.Active TaskStatus.Completing (lit "verified"));
   task_event 11 TaskEvent.Completed].

Definition example_snapshot (n : nat) : TaskSnapshot :=
  match replay (take n example_journal) with
  | Ok (Some st) => st
  | _ => TaskSnapshot_created 7 5 (example_contract 1 ClauseStatus.Pending []) TaskBudget_default
  end.

Lemma example_replays : forall n, (1 <= n <= 11)%nat ->
  replay (take n example_journal) = Ok (Some (example_snapshot n))
  /\ StronglySorted Z.lt (sequence <$> take n example_journal).
Proof.
  intros n Hn. split.
  - assert (forallb (fun n => match replay (take n example_journal) with Ok (Some _) => true | _ => false end)
      (seq 1 11) = true) as Hall by (vm_compute; reflexivity).
    rewrite forallb_true, Forall_forall in Hall. specialize (Hall n). unfold example_snapshot.
    destruct (replay _) as [[st|]|]; [done| |]; discriminate Hall; apply elem_of_seq; lia.
  - rewrite fmap_take. apply windows2_geb_strict. do 12 (destruct n as [|n]; [done|]). lia.
Qed.

(** *** What a replayed snapshot guarantees *)

(** C17: the invariant of replay.  In the snapshot of every journal with increasing
    sequence numbers the revision counts the events, the contract is valid, every
    event belongs to the task and its session, operations in flight belong to the
    running epoch, every ledger is consistent and traced to the journal, and a
    cancelled task has nothing running and nothing unresolved. *)
Theorem replay_invariant es st :
  replay es = Ok (Some st) -> StronglySorted Z.lt (sequence <$> es) -> snapshot_ok es st.
Proof. intros. apply history_ok, history_iff_replay. done. Qed.

Lemma replay_invariant_witness : snapshot_ok (take 11 example_journal) (example_snapshot 11).
Proof. destruct (example_replays 11) as [Hr Hs]; [lia|]. apply (replay_invariant _ _ Hr Hs). Defined.

Lemma history_unique_sequence es st e1 e2 :
  history es st -> e1 ∈ es -> e2 ∈ es -> e1.(sequence) = e2.(sequence) -> e1 = e2.
Proof.
  intros [_ Hs]%history_iff_replay. apply strict_NoDup_Z in Hs.
  intros [i Hi]%list_elem_of_lookup [j Hj]%list_elem_of_lookup Heq.
  assert (i = j) as ->; [|congruence].
  apply (NoDup_lookup _ i j e1.(sequence) Hs); rewrite list_lookup_fmap.
  - by rewrite Hi.
  - by rewrite Hj, Heq.
Qed.

(** Evidence belongs to one operation: what one has recorded no other has. *)
Lemma recorded_exclusive es st id op id' op' s :
  history es st -> st.(operations) !! id = Some op -> st.(operations) !! id' = Some op' -> id' <> id ->
  s ∈ op.(evidence).(recorded_sequences) -> s ∉ op'.(evidence).(recorded_sequences).
Proof.
  intros Hh Hop Hop' Hne Hs Hs'. pose proof (history_ok _ _ Hh) as [_ _ Hops _ _].
  destruct (Hops _ _ Hop) as [_ Ht _ _], (Hops _ _ Hop') as [_ Ht' _ _].
  destruct (Ht s Hs) as (e & He & Heq & ? & ? & Hev), (Ht' s Hs') as (e' & He' & Heq' & ? & ? & Hev').
  assert (e = e') as -> by (eapply history_unique_sequence; eauto; congruence). congruence.
Qed.

Lemma consumed_recorded es st id op s :
  history es st -> st.(operations) !! id = Some op ->
  s ∈ op.(evidence).(consumed_sequences) -> s ∈ op.(evidence).(recorded_sequences).
Proof.
  intros Hh Hop Hs. pose proof (history_ok _ _ Hh) as [_ _ Hops _ _].
  destruct (Hops _ _ Hop) as [(_ & Hc & _) _ _ _]. rewrite Forall_forall in Hc. by apply Hc.
Qed.

(** C21: an operation is never claimed to have an outcome without evidence.  If
    replay gives an operation a status that claims an outcome, the journal has an
    evidence event recorded for that very operation, older than its last
    transition, that the operation has consumed and that no other operation has
    recorded or consumed. *)
Theorem outcome_has_own_evidence es st id op :
  replay es = Ok (Some st) -> StronglySorted Z.lt (sequence <$> es) ->
  st.(operations) !! id = Some op -> requires_terminal_evidence op.(os_status) = true ->
  exists e, e ∈ es /\ records_evidence id e
    /\ e.(sequence) ∈ op.(evidence).(consumed_sequences)
    /\ e.(sequence) < op.(last_transition_sequence)
    /\ forall id' op', id' <> id -> st.(operations) !! id' = Some op' ->
       (e.(sequence) ∉ op'.(evidence).(recorded_sequences))
       /\ (e.(sequence) ∉ op'.(evidence).(consumed_sequences)).
Proof.
  intros Hr Hs Hop Hterm. assert (history es st) as Hh by by apply history_iff_replay.
  pose proof (history_ok _ _ Hh) as [_ _ Hops _ _].
  destruct (Hops _ _ Hop) as [(_ & Hc & Hne) Ht _ _]. apply Hne in Hterm.
  destruct (op.(evidence).(consumed_sequences)) as [|s l]; [done|].
  apply Forall_cons in Hc as [[Hs1 Hs2] _]. destruct (Ht s Hs1) as (e & He & <- & Hrec).
  exists e. do 2 (split; [done|]). split; [set_solver|]. split; [done|].
  intros id' op' Hid Hop'. assert (sequence e ∉ recorded_sequences (evidence op')) as Hno
    by by apply (recorded_exclusive es st id op id' op').
  split; [done|]. intros Hin. by eapply Hno, consumed_recorded.
Qed.

Lemma outcome_has_own_evidence_witness :
  exists op, (example_snapshot 11).(operations) !! 21 = Some op
  /\ exists e, e ∈ take 11 example_journal /\ records_evidence 21 e
    /\ e.(sequence) ∈ op.(evidence).(consumed_sequences)
    /\ e.(sequence) < op.(last_transition_sequence)
    /\ forall id' op', id' <> 21 -> (example_snapshot 11).(operations) !! id' = Some op' ->
       (e.(sequence) ∉ op'.(evidence).(recorded_sequences))
       /\ (e.(sequence) ∉ op'.(evidence).(consumed_sequences)).
Proof.
  destruct (example_replays 11) as [Hr Hs]; [lia|].
  eexists. split; [vm_compute; reflexivity|].
  apply (outcome_has_own_evidence _ _ 21 _ Hr Hs); vm_compute; reflexivity.
Defined.

(** terminal states are final: a completed, failed or cancelled task accepts no
    event at all, and an event of its own task and session is refused as
    [TerminalState], whatever it says. *)
Theorem terminal_tasks_are_final st env :
  TaskStatus_is_terminal st.(status) = true ->
  (forall st', reduce_task (Some st) env <> Ok st')
  /\ (forall ev, env.(event) = Event.TaskLifecycle st.(task_id) ev ->
       env.(ee_session_id) = st.(session_id) ->
       reduce_task (Some st) env = Err (reduce_error TaskReduceErrorCode.TerminalState)).
Proof.
  intros Ht. split.
  - intros st' (ev & _ & _ & Hn & _)%reduce_existing_spec. congruence.
  - intros ev Hev Hs. unfold reduce_task. rewrite Hev. unfold reduce_existing. rewrite Hs, Ht.
    by rewrite !bool_decide_eq_true_2.
Qed.

Definition status_edge (a b : TaskStatus) : Prop := legal_status_edge a b = true.

Lemma reduce_edge st env st' :
  reduce_task (Some st) env = Ok st' ->
  rtc status_edge st.(status) st'.(status)
  /\ st.(contract).(version) <= st'.(contract).(version)
  /\ (st'.(contract).(version) = st.(contract).(version) -> st'.(contract) = st.(contract))
  /\ st'.(revision) = st.(revision) + 1
  /\ st'.(task_id) = st.(task_id) /\ st'.(session_id) = st.(session_id)
  /\ st'.(budget) = st.(budget).
Proof.
  intros (ev & _ & _ & _ & _ & _ & st1 & Hstep & ->)%reduce_existing_spec. simpl.
  split.
  - destruct (step_status_edge _ _ _ _ Hstep) as [-> | (He & _)]; [done|]. by apply rtc_once.
  - destruct Hstep; simpl; repeat split; auto; lia.
Qed.

(** a task only moves forward.  Continuing the replay of a journal moves the
    status along legal edges only, never lowers the contract version and never
    changes a contract without raising its version, adds one to the revision per
    event, and keeps the task's identity, session and budget. *)
Theorem replay_moves_forward es es' st st' :
  replay es = Ok (Some st) -> replay (es ++ es') = Ok (Some st') ->
  rtc status_edge st.(status) st'.(status)
  /\ st.(contract).(version) <= st'.(contract).(version)
  /\ (st'.(contract).(version) = st.(contract).(version) -> st'.(contract) = st.(contract))
  /\ st'.(revision) = st.(revision) + Zlen es'
  /\ st'.(task_id) = st.(task_id) /\ st'.(session_id) = st.(session_id)
  /\ st'.(budget) = st.(budget).
Proof.
  intros Hr. revert st'. induction es' as [|env es' IH] using rev_ind; intros st' Hr'.
  - rewrite app_nil_r, Hr in Hr'. simplify_eq. simpl. split; [done|].
    repeat split; auto; lia.
  - rewrite app_assoc, replay_snoc in Hr'. carl_simpl.
    match goal with H : replay _ = Ok ?o |- _ => destruct o as [st0|]; rename H into Hr0 end.
    + destruct (IH st0) as (? & ? & Hc & ? & ? & ? & ?); [done|].
      match goal with H : reduce_task _ _ = Ok _ |- _ =>
        apply reduce_edge in H as (? & ? & Hc' & ? & ? & ? & ?) end.
      rewrite Zlen_app. simpl. split; [by etrans|]. split; [lia|].
      split; [|repeat split; congruence || lia]. intros Hv.
      etrans; [apply Hc'|apply Hc]; lia.
    + exfalso. revert Hr0. unfold replay. rewrite try_fold_app.
      fold (replay es). rewrite Hr. simpl. clear. revert st.
      induction es' as [|e es' IH]; intros st; simpl; [done|].
      destruct (reduce_task (Some st) e); simpl; [apply IH|done].
Qed.

(** when a task becomes [Completed].  The [Completed] event is accepted only
    while completing, with no epoch running, every operation resolved and every
    required clause satisfied with evidence; the only other way in is a
    [StateTransitioned] event from [Completing], which checks none of this. *)
Theorem completed_characterised st env st' :
  reduce_task (Some st) env = Ok st' -> st'.(status) = TaskStatus.Completed ->
  st.(status) = TaskStatus.Completing
  /\ ((env.(event) = Event.TaskLifecycle st.(task_id) TaskEvent.Completed
       /\ safe_boundary st /\ required_clauses_satisfied st.(contract) = true)
      \/ exists reason, env.(event) = Event.TaskLifecycle st.(task_id)
           (TaskEvent.StateTransitioned TaskStatus.Completing TaskStatus.Completed reason)).
Proof.
  intros (ev & Hev & _ & Hterm & _ & _ & st1 & Hstep & ->)%reduce_existing_spec Hst. simpl in Hst.
  destruct Hstep; simpl in Hst; try (by rewrite Hst in Hterm); try discriminate Hst.
  - subst to. assert (status st = TaskStatus.Completing) as Heq by by destruct (status st).
    split; [done|]. right. rewrite Heq in Hev. eauto.
  - eauto.
Qed.

(** A change of the status of a task, as an event of the task. *)
Definition transition_of (st : TaskSnapshot) (from to : TaskStatus) (reason : str) (env : EventEnvelope) : Prop :=
  env.(event) = Event.TaskLifecycle st.(task_id) (TaskEvent.StateTransitioned from to reason)
  /\ env.(ee_session_id) = st.(session_id) /\ validate_event_text reason = Ok tt.

Lemma state_transition_accepted st from to reason env :
  transition_of st from to reason env -> st.(status) = from -> TaskStatus_is_terminal from = false ->
  legal_status_edge from to = true -> to <> TaskStatus.Cancelled -> st.(revision) < u64_max ->
  reduce_task (Some st) env = Ok (with_revision (st.(revision) + 1) (with_status to st)).
Proof.
  intros (Hev & Hs & Hv) <- Ht Hedge Hto Hrev. apply reduce_existing_spec. eexists. split; [exact Hev|].
  do 3 (split; [done|]). split; [lia|]. eexists. split; [|done]. by constructor.
Qed.

(** The [Completed] event is accepted only when the gate holds. *)
Lemma completed_event_gate st env st' :
  env.(event) = Event.TaskLifecycle st.(task_id) TaskEvent.Completed ->
  reduce_task (Some st) env = Ok st' -> safe_boundary st /\ required_clauses_satisfied st.(contract) = true.
Proof.
  intros Hev (ev & Hev' & _ & _ & _ & _ & st1 & Hstep & _)%reduce_existing_spec.
  rewrite Hev in Hev'. injection Hev' as <-. by inversion Hstep; simplify_eq; [destruct_or?; naive_solver|].
Qed.

(** C36: the completion gate can be passed by, in every task.  Whatever its clauses, its
    epoch and its operations are, an active task is completed by two state transitions,
    to [Completing] and to [Completed], and keeps them as they are.  The event
    [Completed], in the state between the two, is refused unless no epoch runs, every
    operation is resolved and every required clause is satisfied. *)
Theorem completion_gate_bypassed st reason env1 env2 :
  st.(status) = TaskStatus.Active -> st.(revision) + 1 < u64_max ->
  transition_of st TaskStatus.Active TaskStatus.Completing reason env1 ->
  transition_of st TaskStatus.Completing TaskStatus.Completed reason env2 ->
  exists st1 st2, reduce_task (Some st) env1 = Ok st1 /\ reduce_task (Some st1) env2 = Ok st2
    /\ st1.(status) = TaskStatus.Completing /\ st2.(status) = TaskStatus.Completed
    /\ st2.(contract) = st.(contract) /\ st2.(active_epoch) = st.(active_epoch)
    /\ st2.(operations) = st.(operations)
    /\ forall env st', env.(event) = Event.TaskLifecycle st.(task_id) TaskEvent.Completed ->
         reduce_task (Some st1) env = Ok st' ->
         safe_boundary st /\ required_clauses_satisfied st.(contract) = true.
Proof.
  intros Hst Hrev H1 H2.
  set (st1 := with_revision (st.(revision) + 1) (with_status TaskStatus.Completing st)).
  exists st1, (with_revision (st.(revision) + 1 + 1) (with_status TaskStatus.Completed st1)).
  split; [apply (state_transition_accepted st TaskStatus.Active _ reason); done || lia|].
  split; [by apply (state_transition_accepted st1 TaskStatus.Completing _ reason)|].
  split_and!; try done. intros env st' Hev Hr. by apply (completed_event_gate st1 env st').
Qed.

(** In the middle of an epoch, with an operation under way and a clause pending. *)
Lemma completion_gate_bypassed_witness :
  let st := example_snapshot 4 in
  required_clauses_satisfied st.(contract) = false /\ st.(active_epoch) = Some 11
  /\ has_unresolved_operations st = true
  /\ exists st1 st2,
       reduce_task (Some st) (task_event 5 (TaskEvent.StateTransitioned TaskStatus.Active TaskStatus.Completing (lit "x")))
         = Ok st1
       /\ reduce_task (Some st1)
            (task_event 6 (TaskEvent.StateTransitioned TaskStatus.Completing TaskStatus.Completed (lit "x"))) = Ok st2
       /\ st2.(status) = TaskStatus.Completed /\ st2.(contract) = st.(contract).
Proof.
  intros st. do 3 (split; [vm_compute; reflexivity|]).
  destruct (completion_gate_bypassed st (lit "x")
    (task_event 5 (TaskEvent.StateTransitioned TaskStatus.Active TaskStatus.Completing (lit "x")))
    (task_event 6 (TaskEvent.StateTransitioned TaskStatus.Completing TaskStatus.Completed (lit "x"))))
    as (st1 & st2 & H1 & H2 & _ & H3 & H4 & _).
  - vm_compute. reflexivity.
  - vm_compute. reflexivity.
  - split_and!; vm_compute; reflexivity.
  - split_and!; vm_compute; reflexivity.
  - exists st1, st2. split_and!; assumption.
Defined.

(** no task is ever stuck: in every non-terminal snapshot whose revision has
    room, failing the task with any valid reason is accepted and ends it. *)
Theorem failing_always_possible st env reason :
  TaskStatus_is_terminal st.(status) = false -> st.(revision) < u64_max ->
  validate_event_text reason = Ok tt -> env.(ee_session_id) = st.(session_id) ->
  env.(event) = Event.TaskLifecycle st.(task_id)
                  (TaskEvent.StateTransitioned st.(status) TaskStatus.Failed reason) ->
  exists st', reduce_task (Some st) env = Ok st' /\ st'.(status) = TaskStatus.Failed.
Proof.
  intros Ht Hrev Hv Hs Hev. exists (with_revision (st.(revision) + 1) (with_status TaskStatus.Failed st)).
  split; [|done]. apply reduce_existing_spec. eexists. split; [exact Hev|].
  do 3 (split; [done|]). split; [lia|]. eexists. split; [|done].
  constructor; [by destruct (status st)|done].
Qed.

