(* ===== verification/Journal.v ===== *)
(** * Observers of a journal

    Metrics ([metrics.rs]) and checkpoints ([checkpoint.rs]) read the same
    journal as the task reducer and keep tables of their own.  This file states
    what the reducer promises to them.  [status_event] is the status table every
    observer has to maintain, [JournalObserver] is the interface an observer
    implements, and [observer_total] is what it gets for it: an observer never
    fails on a journal the reducer accepts and ends in agreement with the
    snapshot. *)
From S2P Require Import Prelude Ord Text Settings Policy TaskTypes Events Reducer.
From stdpp Require Import base gmap sets list sorting strings.
From Stdlib Require Import ZArith Lia.
#[local] Open Scope list_scope.
#[local] Open Scope Z_scope.

Lemma history_nonempty es st : history es st -> es <> [].
Proof. destruct 1; [done|]. by destruct es. Qed.

(** ** The status table *)

Definition statuses (st : TaskSnapshot) : gmap OperationId OperationStatus :=
  os_status <$> st.(operations).

(** What an event does to the table of statuses; [None] where no journal the
    reducer accepts has the event. *)
Definition status_event (m : gmap OperationId OperationStatus) (ev : TaskEvent)
    : option (gmap OperationId OperationStatus) :=
  match ev with
  | TaskEvent.OperationIntentRecorded id _ _ _ _ =>
    match m !! id with
    | None => Some (<[id := OperationStatus.IntentRecorded]> m)
    | Some _ => None
    end
  | TaskEvent.OperationTransitioned id from to _ =>
    match m !! id with
    | Some s => if (s =?? from) && legal_operation_edge from to then Some (<[id := to]> m) else None
    | None => None
    end
  | _ => Some m
  end.

Lemma statuses_lookup st id : statuses st !! id = os_status <$> st.(operations) !! id.
Proof. apply lookup_fmap. Qed.

Lemma statuses_put st id op :
  statuses (put_operation id op st) = <[id := op.(os_status)]> (statuses st).
Proof. apply fmap_insert. Qed.

(** Revising an operation without changing its status leaves the table alone. *)
Lemma statuses_revise st id op last digest files e :
  st.(operations) !! id = Some op ->
  statuses (put_operation id (revise_operation op op.(os_status) last digest files e) st) = statuses st.
Proof.
  intros Hop. rewrite statuses_put. simpl. apply insert_id. by rewrite statuses_lookup, Hop.
Qed.

Lemma step_statuses st now ev st1 :
  task_step st now ev st1 -> status_event (statuses st) ev = Some (statuses st1).
Proof.
  destruct 1; try done.
  - match goal with H : _ \/ _ |- _ => by destruct H as [[? ->]|[? ->]] end.
  - by destruct ev.
  - by destruct ev.
  - simpl. rewrite statuses_lookup, statuses_put.
    match goal with H : operations st !! id = None |- _ => by rewrite H end.
  - by rewrite statuses_revise by apply H.
  - by rewrite statuses_revise by apply H.
  - simpl. destruct H as [Hop _]. destruct H0 as (<- & Hedge & _).
    rewrite statuses_lookup, Hop, statuses_put. simpl.
    by rewrite bool_decide_eq_true_2, Hedge by done.
  - by rewrite statuses_revise by apply H.
Qed.

(** ** Counting statuses *)

Definition b2z (b : bool) : Z := if b then 1 else 0.

Definition count_status (p : OperationStatus -> bool) (m : gmap OperationId OperationStatus) : Z :=
  map_fold (fun _ s n => n + b2z (p s)) 0 m.

Lemma count_empty p : count_status p ∅ = 0.
Proof. apply map_fold_empty. Qed.

Lemma count_insert p m id s :
  m !! id = None -> count_status p (<[id := s]> m) = count_status p m + b2z (p s).
Proof. intros H. unfold count_status. rewrite map_fold_insert_L; [done| |done]. intros. lia. Qed.

Lemma count_update p m id s0 s :
  m !! id = Some s0 ->
  count_status p (<[id := s]> m) = count_status p m + b2z (p s) - b2z (p s0).
Proof.
  intros H. rewrite <-(insert_delete_id m id s0) at 2 by done.
  rewrite <-insert_delete_eq, !count_insert by apply lookup_delete_eq. lia.
Qed.

Lemma count_mono p q m :
  (forall s, p s = true -> q s = true) -> count_status p m <= count_status q m.
Proof.
  intros Hpq. induction m as [|id s m Hm IH] using map_ind; [by rewrite !count_empty|].
  rewrite !count_insert by done. specialize (Hpq s).
  destruct (p s), (q s); simpl; lia || (discriminate Hpq; done).
Qed.

Lemma count_nonneg p m : 0 <= count_status p m.
Proof.
  induction m as [|id s m Hm IH] using map_ind; [by rewrite count_empty|].
  rewrite count_insert by done. destruct (p s); simpl; lia.
Qed.

Lemma count_negb p m :
  count_status (fun _ => true) m - count_status p m = count_status (fun s => negb (p s)) m.
Proof.
  induction m as [|id s m Hm IH] using map_ind; [by rewrite !count_empty|].
  rewrite !count_insert by done. destruct (p s); simpl in *; lia.
Qed.

Lemma count_list p m : count_status p m = Zlen (filter (fun s => p s = true) (map_to_list m).*2).
Proof.
  induction m as [|id s m Hm IH] using map_ind; [by rewrite count_empty, map_to_list_empty|].
  rewrite count_insert, IH by done. rewrite !Zlen_length, (map_to_list_insert m id s) by done.
  rewrite fmap_cons. simpl. rewrite filter_cons. destruct (p s) eqn:Hp; case_decide; simpl; lia || congruence.
Qed.

Lemma filter_fmap_length {A B} (f : A -> B) (p : B -> bool) l :
  length (filter (fun x => p (f x) = true) l) = length (filter (fun y => p y = true) (f <$> l)).
Proof.
  induction l as [|x l IH]; [done|]. rewrite fmap_cons, !filter_cons.
  destruct (decide (p (f x) = true)); simpl; lia.
Qed.

Lemma unresolved_count st :
  unresolved_operation_count st = count_status (fun s => negb (is_resolved s)) (statuses st).
Proof.
  unfold unresolved_operation_count, btree_values, statuses. rewrite count_list, !Zlen_length.
  rewrite map_to_list_fmap, <-list_fmap_compose. f_equal.
  transitivity (length (filter (fun op => negb (is_resolved (os_status op)) = true)
                               (map_to_list st.(operations)).*2)).
  - rewrite btree_iter_perm. f_equal. apply list_filter_iff. intros op. by rewrite negb_true_iff.
  - rewrite (filter_fmap_length os_status (fun s => negb (is_resolved s))), <-list_fmap_compose. done.
Qed.

(** ** Observers *)

Class JournalObserver {St E : Type} (observe : St -> EventEnvelope -> result E St) (init : St)
    (admissible : EventEnvelope -> Prop)
    (agrees : list EventEnvelope -> TaskSnapshot -> St -> Prop) := {
  observe_created env st :
    admissible env -> reduce_task None env = Ok st ->
    exists s, observe init env = Ok s /\ agrees [env] st s;
  observe_step es st env st' s :
    history es st -> Forall (fun e => e.(sequence) < env.(sequence)) es ->
    admissible env -> reduce_task (Some st) env = Ok st' -> agrees es st s ->
    exists s', observe s env = Ok s' /\ agrees (es ++ [env]) st' s'
}.

Lemma observer_total `{JournalObserver St E observe init admissible agrees} es st :
  history es st -> Forall admissible es ->
  exists s, try_fold observe init es = Ok s /\ agrees es st s.
Proof.
  induction 1 as [env st Hr|es st env st' Hh IH Hlt Hr]; intros Ha.
  - apply Forall_cons in Ha as [Ha _]. destruct (observe_created env st Ha Hr) as (s & Hs & ?).
    exists s. simpl. by rewrite Hs.
  - apply Forall_app in Ha as [Ha [Henv _]%Forall_cons]. destruct (IH Ha) as (s & Hs & Hag).
    destruct (observe_step es st env st' s Hh Hlt Henv Hr Hag) as (s' & Hs' & ?).
    exists s'. rewrite try_fold_app, Hs. simpl. by rewrite Hs'.
Qed.
