(* ===== verification/Metrics.v ===== *)
(** * Task metrics

    [src/runtime/task/metrics.rs]: the streaming reducer that derives the
    metrics of a task from its journal.  It replays the journal with the task
    reducer, keeps its own table of operations and counters, and cross-checks
    both against the authoritative snapshot at the end.

    The theorems show that the cross-checks never fail on a journal the task
    reducer accepts, and that every counter is the number the snapshot implies:
    the streaming reducer is a [JournalObserver]. *)
From S2P Require Import Prelude Ord Text Settings Policy TaskTypes Events Reducer Journal.
From stdpp Require Import base gmap sets list sorting strings.
From Stdlib Require Import ZArith Lia.
#[local] Open Scope list_scope.
#[local] Open Scope Z_scope.

Definition TASK_METRICS_SCHEMA_VERSION : Z := 1.

Module TaskMetricsErrorCode.
Inductive TaskMetricsErrorCode : Set := Storage | InvalidHistory | ArithmeticOverflow.
End TaskMetricsErrorCode.
Abbreviation TaskMetricsErrorCode := TaskMetricsErrorCode.TaskMetricsErrorCode.

Record TaskMetrics := {
  tm_schema_version : Z;
  tm_task_id : TaskId;
  tm_status : TaskStatus;
  tm_revision : Z;
  tm_durable_event_count : Z;
  tm_durable_sequence_end : Z;
  tm_provider_requests : Z;
  tm_epochs_started : Z;
  tm_epochs_completed : Z;
  tm_operation_intents : Z;
  tm_operations_succeeded : Z;
  tm_operations_failed : Z;
  tm_operations_cancelled : Z;
  tm_operations_uncertain : Z;
  tm_unresolved_operations : Z;
  tm_compactions_completed : Z;
  tm_provider_context_losses : Z;
  tm_recovery_attempts : Z;
  tm_latest_observed_tokens : option Z;
  tm_latest_context_window : option Z;
  tm_required_clauses_total : Z;
  tm_required_clauses_satisfied : Z;
  tm_budget : TaskBudget
}.

Record OperationMetricState := {
  ms_status : OperationStatus;
  terminal_classified : bool
}.

(** The [u64] counters of [TaskMetricsReducer], by the name of their field. *)
Module Counter.
Inductive Counter : Set :=
| durable_event_count | provider_requests | epochs_started | epochs_completed
| operation_intents | terminal_classifications | operations_succeeded | operations_failed
| operations_cancelled | operations_uncertain | compactions_completed
| provider_context_losses | recovery_attempts.
End Counter.
Abbreviation Counter := Counter.Counter.
#[export] Instance Counter_eq_dec : EqDecision Counter.
Proof. solve_decision. Defined.

Record TaskMetricsReducer := {
  mr_task_id : TaskId;
  replayed : option TaskSnapshot;
  last_sequence : option Z;
  counter : Counter -> Z;
  latest_observed_tokens : option Z;
  latest_context_window : option Z;
  mr_operations : gmap OperationId OperationMetricState
}.

Definition TaskMetricsReducer_new (task_id : TaskId) : TaskMetricsReducer :=
  {| mr_task_id := task_id; replayed := None; last_sequence := None; counter := fun _ => 0;
     latest_observed_tokens := None; latest_context_window := None; mr_operations := ∅ |}.

(** Field assignments. *)
Definition with_counter (f : Counter -> Z) (m : TaskMetricsReducer) : TaskMetricsReducer :=
  {| mr_task_id := m.(mr_task_id); replayed := m.(replayed); last_sequence := m.(last_sequence);
     counter := f; latest_observed_tokens := m.(latest_observed_tokens);
     latest_context_window := m.(latest_context_window); mr_operations := m.(mr_operations) |}.
Definition with_mr_operations (ops : gmap OperationId OperationMetricState)
    (m : TaskMetricsReducer) : TaskMetricsReducer :=
  {| mr_task_id := m.(mr_task_id); replayed := m.(replayed); last_sequence := m.(last_sequence);
     counter := m.(counter); latest_observed_tokens := m.(latest_observed_tokens);
     latest_context_window := m.(latest_context_window); mr_operations := ops |}.
Definition with_usage (tokens window : option Z) (m : TaskMetricsReducer) : TaskMetricsReducer :=
  {| mr_task_id := m.(mr_task_id); replayed := m.(replayed); last_sequence := m.(last_sequence);
     counter := m.(counter); latest_observed_tokens := tokens; latest_context_window := window;
     mr_operations := m.(mr_operations) |}.
Definition with_position (st : TaskSnapshot) (sequence : Z) (m : TaskMetricsReducer)
    : TaskMetricsReducer :=
  {| mr_task_id := m.(mr_task_id); replayed := Some st; last_sequence := Some sequence;
     counter := m.(counter); latest_observed_tokens := m.(latest_observed_tokens);
     latest_context_window := m.(latest_context_window); mr_operations := m.(mr_operations) |}.

Definition metrics_checked_add (left right : Z) : result TaskMetricsErrorCode Z :=
  ok_or (checked_add u64_max left right) TaskMetricsErrorCode.ArithmeticOverflow.

(** [self.c = checked_add(self.c, 1)?]. *)
Definition bump (c : Counter) (m : TaskMetricsReducer)
    : result TaskMetricsErrorCode TaskMetricsReducer :=
  value ← metrics_checked_add (m.(counter) c) 1;
  Ok (with_counter (fun c' => if c' =?? c then value else m.(counter) c') m).

Definition classify_once (state : OperationMetricState)
    : result TaskMetricsErrorCode OperationMetricState :=
  _ ← reject state.(terminal_classified) TaskMetricsErrorCode.InvalidHistory;
  Ok {| ms_status := state.(ms_status); terminal_classified := true |}.

Definition count_operation_transition (self : TaskMetricsReducer) (operation_id : OperationId)
    (from to : OperationStatus) : result TaskMetricsErrorCode TaskMetricsReducer :=
  state ← ok_or (self.(mr_operations) !! operation_id) TaskMetricsErrorCode.InvalidHistory;
  _ ← reject (negb (state.(ms_status) =?? from)) TaskMetricsErrorCode.InvalidHistory;
  '(state, self) ←
    match to with
    | OperationStatus.Succeeded =>
      state ← classify_once state;
      self ← bump Counter.operations_succeeded self;
      self ← bump Counter.terminal_classifications self;
      Ok (state, self)
    | OperationStatus.Failed =>
      state ← classify_once state;
      self ← bump Counter.operations_failed self;
      self ← bump Counter.terminal_classifications self;
      Ok (state, self)
    | OperationStatus.Cancelled =>
      state ← classify_once state;
      self ← bump Counter.operations_cancelled self;
      self ← bump Counter.terminal_classifications self;
      Ok (state, self)
    | OperationStatus.Uncertain =>
      _ ← reject state.(terminal_classified) TaskMetricsErrorCode.InvalidHistory;
      self ← bump Counter.operations_uncertain self;
      Ok (state, self)
    | OperationStatus.Reconciled =>
      state ← classify_once state;
      self ← bump Counter.terminal_classifications self;
      Ok (state, self)
    | OperationStatus.IntentRecorded | OperationStatus.Started => Ok (state, self)
    end;
  Ok (with_mr_operations
        (<[operation_id := {| ms_status := to; terminal_classified := state.(terminal_classified) |}]>
           self.(mr_operations)) self).

Definition count_event (self : TaskMetricsReducer) (event : TaskEvent)
    : result TaskMetricsErrorCode TaskMetricsReducer :=
  match event with
  | TaskEvent.ProviderRequestRecorded _ _ _ _ => bump Counter.provider_requests self
  | TaskEvent.EpochStarted _ _ => bump Counter.epochs_started self
  | TaskEvent.EpochFinished _ _ => bump Counter.epochs_completed self
  | TaskEvent.OperationIntentRecorded operation_id _ _ _ _ =>
    _ ← reject (is_some (self.(mr_operations) !! operation_id)) TaskMetricsErrorCode.InvalidHistory;
    bump Counter.operation_intents
      (with_mr_operations
         (<[operation_id := {| ms_status := OperationStatus.IntentRecorded;
                               terminal_classified := false |}]> self.(mr_operations)) self)
  | TaskEvent.OperationTransitioned operation_id from to _ =>
    count_operation_transition self operation_id from to
  | TaskEvent.UsageObserved _ total_tokens context_window =>
    Ok (with_usage (Some total_tokens) context_window self)
  | TaskEvent.CompactionCompleted _ _ _ => bump Counter.compactions_completed self
  | TaskEvent.ProviderContextLost _ _ => bump Counter.provider_context_losses self
  | TaskEvent.RecoveryAttemptStarted _ _ _ => bump Counter.recovery_attempts self
  | _ => Ok self
  end.

Definition TaskMetricsReducer_push (self : TaskMetricsReducer) (envelope : EventEnvelope)
    : result TaskMetricsErrorCode TaskMetricsReducer :=
  _ ← reject ((envelope.(sequence) =? 0)
              || is_some_and self.(last_sequence) (fun previous => envelope.(sequence) <=? previous))
        TaskMetricsErrorCode.InvalidHistory;
  match envelope.(event) with
  | Event.TaskLifecycle task event =>
    _ ← reject (negb (task =?? self.(mr_task_id))) TaskMetricsErrorCode.InvalidHistory;
    replayed ← map_err (fun _ => TaskMetricsErrorCode.InvalidHistory)
                 (reduce_task self.(replayed) envelope);
    self ← count_event self event;
    bump Counter.durable_event_count (with_position replayed envelope.(sequence) self)
  | _ => Err TaskMetricsErrorCode.InvalidHistory
  end.

(** [T::try_from(n)] for an unsigned type whose largest value is [max]. *)
Definition try_from (max n : Z) : result TaskMetricsErrorCode Z :=
  if n <=? max then Ok n else Err TaskMetricsErrorCode.ArithmeticOverflow.

Definition TaskMetricsReducer_finish (self : TaskMetricsReducer) (authoritative : TaskSnapshot)
    : result TaskMetricsErrorCode TaskMetrics :=
  replayed ← ok_or self.(replayed) TaskMetricsErrorCode.InvalidHistory;
  _ ← reject (negb (replayed =?? authoritative)
              || negb (authoritative.(task_id) =?? self.(mr_task_id)))
        TaskMetricsErrorCode.InvalidHistory;
  unresolved_operations ←
    ok_or (checked_sub (self.(counter) Counter.operation_intents)
                       (self.(counter) Counter.terminal_classifications))
      TaskMetricsErrorCode.InvalidHistory;
  authoritative_unresolved ← try_from u64_max (unresolved_operation_count authoritative);
  _ ← reject (negb (unresolved_operations =? authoritative_unresolved))
        TaskMetricsErrorCode.InvalidHistory;
  let clauses := authoritative.(contract).(clauses) in
  required_clauses_total ← try_from u32_max
    (Zlen (filter (fun clause => clause.(required) = true) clauses));
  required_clauses_satisfied ← try_from u32_max
    (Zlen (filter (fun clause => clause.(required) && (clause.(clause_status) =?? ClauseStatus.Satisfied)
                                 = true) clauses));
  durable_sequence_end ← ok_or self.(last_sequence) TaskMetricsErrorCode.InvalidHistory;
  Ok {| tm_schema_version := TASK_METRICS_SCHEMA_VERSION;
        tm_task_id := self.(mr_task_id);
        tm_status := authoritative.(status);
        tm_revision := authoritative.(revision);
        tm_durable_event_count := self.(counter) Counter.durable_event_count;
        tm_durable_sequence_end := durable_sequence_end;
        tm_provider_requests := self.(counter) Counter.provider_requests;
        tm_epochs_started := self.(counter) Counter.epochs_started;
        tm_epochs_completed := self.(counter) Counter.epochs_completed;
        tm_operation_intents := self.(counter) Counter.operation_intents;
        tm_operations_succeeded := self.(counter) Counter.operations_succeeded;
        tm_operations_failed := self.(counter) Counter.operations_failed;
        tm_operations_cancelled := self.(counter) Counter.operations_cancelled;
        tm_operations_uncertain := self.(counter) Counter.operations_uncertain;
        tm_unresolved_operations := unresolved_operations;
        tm_compactions_completed := self.(counter) Counter.compactions_completed;
        tm_provider_context_losses := self.(counter) Counter.provider_context_losses;
        tm_recovery_attempts := self.(counter) Counter.recovery_attempts;
        tm_latest_observed_tokens := self.(latest_observed_tokens);
        tm_latest_context_window := self.(latest_context_window);
        tm_required_clauses_total := required_clauses_total;
        tm_required_clauses_satisfied := required_clauses_satisfied;
        tm_budget := authoritative.(budget) |}.

Definition derive_task_metrics (task_id : TaskId) (envelopes : list EventEnvelope)
    (authoritative : TaskSnapshot) : result TaskMetricsErrorCode TaskMetrics :=
  reducer ← try_fold TaskMetricsReducer_push (TaskMetricsReducer_new task_id) envelopes;
  TaskMetricsReducer_finish reducer authoritative.

(** ** Properties *)

(** The counters an event raises. *)
Definition counts (c : Counter) (ev : TaskEvent) : bool :=
  match c, ev with
  | Counter.durable_event_count, _ => true
  | Counter.provider_requests, TaskEvent.ProviderRequestRecorded _ _ _ _
  | Counter.epochs_started, TaskEvent.EpochStarted _ _
  | Counter.epochs_completed, TaskEvent.EpochFinished _ _
  | Counter.operation_intents, TaskEvent.OperationIntentRecorded _ _ _ _ _
  | Counter.operations_succeeded, TaskEvent.OperationTransitioned _ _ OperationStatus.Succeeded _
  | Counter.operations_failed, TaskEvent.OperationTransitioned _ _ OperationStatus.Failed _
  | Counter.operations_cancelled, TaskEvent.OperationTransitioned _ _ OperationStatus.Cancelled _
  | Counter.operations_uncertain, TaskEvent.OperationTransitioned _ _ OperationStatus.Uncertain _
  | Counter.compactions_completed, TaskEvent.CompactionCompleted _ _ _
  | Counter.provider_context_losses, TaskEvent.ProviderContextLost _ _
  | Counter.recovery_attempts, TaskEvent.RecoveryAttemptStarted _ _ _ => true
  | Counter.terminal_classifications, TaskEvent.OperationTransitioned _ _ to _ => is_resolved to
  | _, _ => false
  end.

(** How often a counter is raised by the events of a journal. *)
Fixpoint occurrences (c : Counter) (es : list EventEnvelope) : Z :=
  match es with
  | [] => 0
  | env :: es' =>
    match env.(event) with
    | Event.TaskLifecycle _ ev => b2z (counts c ev) + occurrences c es'
    | _ => occurrences c es'
    end
  end.

(** The statuses a counter of operations stands for in the snapshot. *)
Definition counted_statuses (c : Counter) : option (OperationStatus -> bool) :=
  match c with
  | Counter.operation_intents => Some (fun _ => true)
  | Counter.terminal_classifications => Some is_resolved
  | Counter.operations_succeeded => Some (fun s => s =?? OperationStatus.Succeeded)
  | Counter.operations_failed => Some (fun s => s =?? OperationStatus.Failed)
  | Counter.operations_cancelled => Some (fun s => s =?? OperationStatus.Cancelled)
  | Counter.operations_uncertain =>
    Some (fun s => (s =?? OperationStatus.Uncertain) || (s =?? OperationStatus.Reconciled))
  | _ => None
  end.

(** The last usage the journal reports: its tokens and its window. *)
Fixpoint last_usage (acc : option Z * option Z) (es : list EventEnvelope) : option Z * option Z :=
  match es with
  | [] => acc
  | env :: es' =>
    match env.(event) with
    | Event.TaskLifecycle _ (TaskEvent.UsageObserved _ tokens window) =>
      last_usage (Some tokens, window) es'
    | _ => last_usage acc es'
    end
  end.

Lemma occurrences_snoc c es env task ev :
  env.(event) = Event.TaskLifecycle task ev ->
  occurrences c (es ++ [env]) = occurrences c es + b2z (counts c ev).
Proof.
  intros Hev. induction es as [|e es IH]; simpl; [rewrite Hev; lia|]. case_match; lia.
Qed.

Lemma occurrences_bound c es : 0 <= occurrences c es <= Zlen es.
Proof.
  induction es as [|e es IH]; simpl; [lia|]. unfold b2z. repeat case_match; lia.
Qed.

Lemma last_usage_app acc es es' :
  last_usage acc (es ++ es') = last_usage (last_usage acc es) es'.
Proof.
  revert acc. induction es as [|e es IH]; intros acc; simpl; [done|].
  repeat case_match; apply IH.
Qed.

Lemma status_event_count c p m ev m' :
  counted_statuses c = Some p -> status_event m ev = Some m' ->
  count_status p m' = count_status p m + b2z (counts c ev).
Proof.
  intros Hp Hm. destruct ev; simplify_eq/=; try (destruct c; simplify_eq/=; lia).
  - case_match; simplify_eq. rewrite count_insert by done. by destruct c; simplify_eq/=.
  - repeat case_match; simplify_eq. carl_simpl. erewrite count_update by done.
    destruct c; simplify_eq/=; destruct from, to; simplify_eq/=; lia.
Qed.

(** The counters of operations are determined by the snapshot. *)
Lemma occurrences_statuses c p es st :
  counted_statuses c = Some p -> history es st -> occurrences c es = count_status p (statuses st).
Proof.
  intros Hp. induction 1 as [env st Hr|es st env st' Hh IH _ Hr].
  - apply reduce_created_spec in Hr as (task & ? & ? & ? & ? & ? & ? & Hev & _ & _ & ->).
    simpl. rewrite Hev. unfold statuses. simpl. rewrite fmap_empty, count_empty.
    by destruct c; simplify_eq.
  - apply reduce_existing_spec in Hr as (ev & Hev & _ & _ & _ & _ & st1 & Hstep & ->).
    rewrite (occurrences_snoc _ _ _ _ _ Hev), IH.
    apply step_statuses in Hstep. symmetry. by eapply status_event_count.
Qed.

(** *** The streaming reducer as an observer *)

Definition metric_state (s : OperationStatus) : OperationMetricState :=
  {| ms_status := s; terminal_classified := is_resolved s |}.

Record metrics_agree (task : TaskId) (es : list EventEnvelope) (st : TaskSnapshot)
    (m : TaskMetricsReducer) : Prop := {
  ma_task : m.(mr_task_id) = task /\ st.(task_id) = task;
  ma_replayed : m.(replayed) = Some st;
  ma_last : m.(last_sequence) = sequence <$> last es;
  ma_counter : forall c, m.(counter) c = occurrences c es;
  ma_usage : (m.(latest_observed_tokens), m.(latest_context_window)) = last_usage (None, None) es;
  ma_operations : m.(mr_operations) = metric_state <$> statuses st
}.

Lemma bump_ok c m :
  m.(counter) c < u64_max ->
  bump c m = Ok (with_counter (fun c' => if c' =?? c then m.(counter) c + 1 else m.(counter) c') m).
Proof.
  intros H. unfold bump, metrics_checked_add, checked_add.
  by rewrite (proj2 (Z.leb_le _ _)) by lia.
Qed.

(** What counting an event changes. *)
Record counted (ev : TaskEvent) (table : gmap OperationId OperationStatus)
    (m m1 : TaskMetricsReducer) : Prop := {
  ct_task : m1.(mr_task_id) = m.(mr_task_id);
  ct_counter : forall c, m1.(counter) c
    = m.(counter) c + if c =?? Counter.durable_event_count then 0 else b2z (counts c ev);
  ct_usage : (m1.(latest_observed_tokens), m1.(latest_context_window))
    = match ev with
      | TaskEvent.UsageObserved _ tokens window => (Some tokens, window)
      | _ => (m.(latest_observed_tokens), m.(latest_context_window))
      end;
  ct_operations : m1.(mr_operations) = metric_state <$> table
}.

Ltac counted_tac :=
  constructor; simpl; try done;
  let c := fresh "c" in intros c; destruct c; simpl; lia.

Lemma count_transition_ok m id from to ev table table' :
  m.(mr_operations) = metric_state <$> table -> (forall c, m.(counter) c < u64_max) ->
  status_event table (TaskEvent.OperationTransitioned id from to ev) = Some table' ->
  exists m1, count_operation_transition m id from to = Ok m1
    /\ counted (TaskEvent.OperationTransitioned id from to ev) table' m m1.
Proof.
  intros Hops Hc Ht. simpl in Ht. case_match eqn:Hid; [|done]. case_match eqn:Hb; [|done].
  simplify_eq. carl_simpl. unfold count_operation_transition.
  rewrite Hops, lookup_fmap, Hid. simpl. rewrite bool_decide_eq_true_2 by done. simpl.
  destruct from, to; simplify_eq/=; rewrite ?(bump_ok _ m) by apply Hc; simpl;
    rewrite ?bump_ok by (simpl; apply Hc); simpl; (eexists; split; [reflexivity|]).
  all: constructor; simpl; try done; [intros c; destruct c; simpl; lia|].
  all: by rewrite ?Hops, fmap_insert.
Qed.

Lemma count_event_ok m ev table table' :
  m.(mr_operations) = metric_state <$> table -> (forall c, m.(counter) c < u64_max) ->
  status_event table ev = Some table' ->
  exists m1, count_event m ev = Ok m1 /\ counted ev table' m m1.
Proof.
  intros Hops Hc Ht. destruct ev; simplify_eq/=.
  all: try (rewrite bump_ok by apply Hc; eexists; split; [reflexivity|counted_tac]).
  all: try (eexists; split; [reflexivity|counted_tac]).
  - case_match eqn:Hid; simplify_eq. rewrite Hops, lookup_fmap, Hid. simpl.
    rewrite bump_ok by (simpl; apply Hc). eexists. split; [reflexivity|].
    constructor; simpl; try done; [intros c; destruct c; simpl; lia|]. by rewrite fmap_insert.
  - by eapply count_transition_ok.
Qed.

(** One push, from agreement on [es] (or from the start) to agreement on one
    more event. *)
Lemma push_ok m es env ev st' table :
  env.(event) = Event.TaskLifecycle m.(mr_task_id) ev -> env.(sequence) <> 0 ->
  Forall (fun e => e.(sequence) < env.(sequence)) es ->
  m.(last_sequence) = sequence <$> last es ->
  (forall c, m.(counter) c = occurrences c es) -> Zlen es < u64_max ->
  (m.(latest_observed_tokens), m.(latest_context_window)) = last_usage (None, None) es ->
  m.(mr_operations) = metric_state <$> table -> status_event table ev = Some (statuses st') ->
  reduce_task m.(replayed) env = Ok st' -> st'.(task_id) = m.(mr_task_id) ->
  exists m', TaskMetricsReducer_push m env = Ok m' /\ metrics_agree m.(mr_task_id) (es ++ [env]) st' m'.
Proof.
  intros Hev Hpos Hlt Hlast Hc Hlen Hu Hops Htab Hr Htask.
  assert (forall c, m.(counter) c < u64_max) as Hroom.
  { intros c. rewrite Hc. pose proof (occurrences_bound c es). lia. }
  destruct (count_event_ok m ev table _ Hops Hroom Htab) as (m1 & Hm1 & [Ht1 Hc1 Hu1 Ho1]).
  unfold TaskMetricsReducer_push. rewrite Hev, Hr, Hlast, Hm1.
  assert ((env.(sequence) =? 0) || is_some_and (sequence <$> last es) (fun p => env.(sequence) <=? p) = false) as ->.
  { apply orb_false_iff. split; [lia|]. destruct (last es) as [e|] eqn:He; simpl; [|done].
    apply last_Some_elem_of in He. rewrite Forall_forall in Hlt. specialize (Hlt e He). lia. }
  simpl. rewrite bool_decide_eq_true_2 by done. simpl.
  rewrite bump_ok by (simpl; rewrite Hc1; simpl; specialize (Hroom Counter.durable_event_count); lia).
  eexists. split; [reflexivity|]. constructor; simpl.
  - by split.
  - done.
  - by rewrite last_snoc.
  - intros c. rewrite (occurrences_snoc _ _ _ _ _ Hev), <-Hc, !Hc1. by destruct c; simpl; lia.
  - rewrite Hu1, last_usage_app, <-Hu. simpl. rewrite Hev. by destruct ev.
  - done.
Qed.

Definition metrics_admissible (task : TaskId) (env : EventEnvelope) : Prop :=
  env.(sequence) <> 0 /\ exists ev, env.(event) = Event.TaskLifecycle task ev.

#[export] Instance metrics_observer task :
  JournalObserver TaskMetricsReducer_push (TaskMetricsReducer_new task)
    (metrics_admissible task) (metrics_agree task).
Proof.
  constructor.
  - intros env st [Hpos [ev Hev]] Hr.
    pose proof (proj1 (reduce_created_spec _ _) Hr) as (t & c & b & w & mo & e & p & Hev' & _ & _ & ->).
    apply (push_ok (TaskMetricsReducer_new task) [] env ev _ ∅); simpl; try done.
    + rewrite Hev in Hev'. simplify_eq. simpl. unfold statuses. simpl. by rewrite fmap_empty.
    + congruence.
  - intros es st env st' m Hh Hlt [Hpos [ev Hev]] Hr [[<- Ht] Hrep Hlast Hc Hu Hops].
    pose proof (proj1 (reduce_existing_spec _ _ _) Hr) as (ev' & Hev' & _ & _ & _ & Hmax & st1 & Hstep & ->).
    rewrite Hev' in Hev. injection Hev as _ ->.
    apply (push_ok m es env ev _ (statuses st)); simpl; try done.
    + by rewrite <-Ht.
    + destruct (history_ok _ _ Hh) as [[Hrev _] _ _ _ _]. lia.
    + by eapply step_statuses in Hstep.
    + by rewrite Hrep.
    + rewrite <-Ht. by eapply step_identity in Hstep as [? _].
Qed.

(** *** The specification of the metrics *)

Definition status_count (p : OperationStatus -> bool) (st : TaskSnapshot) : Z :=
  count_status p (statuses st).

(** The metrics of the task [st] with the journal [es]: what concerns operations
    is counted in the snapshot, the rest in the journal. *)
Definition metrics_spec (es : list EventEnvelope) (st : TaskSnapshot) : TaskMetrics :=
  {| tm_schema_version := 1;
     tm_task_id := st.(task_id);
     tm_status := st.(status);
     tm_revision := st.(revision);
     tm_durable_event_count := Zlen es;
     tm_durable_sequence_end := default 0 (sequence <$> last es);
     tm_provider_requests := occurrences Counter.provider_requests es;
     tm_epochs_started := occurrences Counter.epochs_started es;
     tm_epochs_completed := occurrences Counter.epochs_completed es;
     tm_operation_intents := status_count (fun _ => true) st;
     tm_operations_succeeded := status_count (fun s => s =?? OperationStatus.Succeeded) st;
     tm_operations_failed := status_count (fun s => s =?? OperationStatus.Failed) st;
     tm_operations_cancelled := status_count (fun s => s =?? OperationStatus.Cancelled) st;
     tm_operations_uncertain :=
       status_count (fun s => (s =?? OperationStatus.Uncertain) || (s =?? OperationStatus.Reconciled)) st;
     tm_unresolved_operations := status_count (fun s => negb (is_resolved s)) st;
     tm_compactions_completed := occurrences Counter.compactions_completed es;
     tm_provider_context_losses := occurrences Counter.provider_context_losses es;
     tm_recovery_attempts := occurrences Counter.recovery_attempts es;
     tm_latest_observed_tokens := fst (last_usage (None, None) es);
     tm_latest_context_window := snd (last_usage (None, None) es);
     tm_required_clauses_total :=
       Zlen (filter (fun clause => clause.(required) = true) st.(contract).(clauses));
     tm_required_clauses_satisfied :=
       Zlen (filter (fun clause => clause.(required) && (clause.(clause_status) =?? ClauseStatus.Satisfied)
                                   = true) st.(contract).(clauses));
     tm_budget := st.(budget) |}.

Lemma try_from_ok max n : n <= max -> try_from max n = Ok n.
Proof. intros H. unfold try_from. by rewrite (proj2 (Z.leb_le _ _)). Qed.

Lemma contract_clause_bound c :
  CompletionContract_validate c = Ok tt -> Zlen c.(clauses) <= MAX_CLAUSES.
Proof. unfold CompletionContract_validate. intros H. carl_simpl. lia. Qed.

Lemma filter_Zlen {A} (P : A -> Prop) `{forall x, Decision (P x)} l : Zlen (filter P l) <= Zlen l.
Proof. rewrite !Zlen_length. pose proof (length_filter P l). lia. Qed.

Lemma occurrences_all es st : history es st -> occurrences Counter.durable_event_count es = Zlen es.
Proof.
  intros [_ _ _ _ Hown]%history_ok. induction Hown as [|e es [_ [ev Hev]] _ IH]; simpl; [done|].
  rewrite Hev. simpl. lia.
Qed.

(** Finishing in agreement with the authoritative snapshot. *)
Lemma finish_ok es st m :
  history es st -> metrics_agree st.(task_id) es st m ->
  TaskMetricsReducer_finish m st = Ok (metrics_spec es st).
Proof.
  intros Hh [[Ht _] Hrep Hlast Hc Hu Hops]. unfold TaskMetricsReducer_finish.
  destruct (history_ok _ _ Hh) as [[Hrev Hmax] Hcon _ _ _]. apply contract_clause_bound in Hcon.
  pose proof (count_negb is_resolved (statuses st)) as Hneg.
  pose proof (count_nonneg (fun s => negb (is_resolved s)) (statuses st)).
  pose proof (occurrences_bound Counter.operation_intents es) as Hb.
  rewrite (occurrences_statuses Counter.operation_intents _ es st eq_refl Hh) in Hb.
  pose proof (count_nonneg is_resolved (statuses st)) as Hres.
  rewrite Hrep. simpl. rewrite !bool_decide_eq_true_2 by done. simpl.
  rewrite !Hc, (occurrences_statuses Counter.operation_intents _ es st eq_refl Hh).
  rewrite (occurrences_statuses Counter.terminal_classifications _ es st eq_refl Hh).
  unfold checked_sub. rewrite (proj2 (Z.leb_le _ _)) by lia. simpl.
  rewrite unresolved_count, (try_from_ok u64_max) by lia.
  simpl. rewrite (proj2 (Z.eqb_eq _ _)) by lia. simpl.
  rewrite try_from_ok by (etrans; [apply filter_Zlen|]; etrans; [exact Hcon|]; unfold MAX_CLAUSES, u32_max; lia).
  simpl. rewrite try_from_ok by (etrans; [apply filter_Zlen|]; etrans; [exact Hcon|]; unfold MAX_CLAUSES, u32_max; lia).
  simpl. rewrite Hlast. destruct (last es) as [e|] eqn:He; [|destruct Hh; [done|by rewrite last_snoc in He]].
  simpl. unfold metrics_spec, status_count. rewrite He, <-Hu, Ht, (occurrences_all es st Hh). simpl.
  rewrite Hneg, (occurrences_statuses Counter.operations_succeeded _ es st eq_refl Hh),
    (occurrences_statuses Counter.operations_failed _ es st eq_refl Hh),
    (occurrences_statuses Counter.operations_cancelled _ es st eq_refl Hh),
    (occurrences_statuses Counter.operations_uncertain _ es st eq_refl Hh). done.
Qed.

Lemma history_admissible es st :
  history es st -> Forall (fun e => e.(sequence) <> 0) es ->
  Forall (metrics_admissible st.(task_id)) es.
Proof.
  intros [_ _ _ _ Hown]%history_ok Hpos. rewrite Forall_forall in *. intros e He.
  split; [by apply Hpos|]. by destruct (Hown e He).
Qed.

(** The derivation succeeds on every journal of the task. *)
Lemma derive_complete es st :
  history es st -> Forall (fun e => e.(sequence) <> 0) es ->
  derive_task_metrics st.(task_id) es st = Ok (metrics_spec es st).
Proof.
  intros Hh Hpos. unfold derive_task_metrics.
  destruct (observer_total (observe := TaskMetricsReducer_push) es st Hh (history_admissible _ _ Hh Hpos))
    as (m & -> & Hag).
  simpl. by apply finish_ok.
Qed.

(** *** The journal behind accepted metrics *)

Lemma bump_sound c m m1 :
  bump c m = Ok m1 ->
  m1.(mr_task_id) = m.(mr_task_id) /\ m1.(replayed) = m.(replayed)
  /\ m1.(last_sequence) = m.(last_sequence).
Proof. unfold bump. intros H. by carl_simpl. Qed.

Lemma count_event_task m ev m1 : count_event m ev = Ok m1 -> m1.(mr_task_id) = m.(mr_task_id).
Proof.
  intros H. destruct ev; simpl in H; carl_simpl; try done.
  all: try (match goal with Hb : bump _ _ = Ok _ |- _ => apply bump_sound in Hb end; naive_solver).
  unfold count_operation_transition in H. carl_simpl.
  repeat case_match; carl_simpl; simpl; try done.
  all: repeat match goal with Hb : bump _ _ = Ok _ |- _ => apply bump_sound in Hb as (? & _) end; congruence.
Qed.

Lemma push_sound m env m' :
  TaskMetricsReducer_push m env = Ok m' ->
  m'.(mr_task_id) = m.(mr_task_id) /\ m'.(last_sequence) = Some env.(sequence)
  /\ env.(sequence) <> 0 /\ (forall s, m.(last_sequence) = Some s -> s < env.(sequence))
  /\ (exists ev, env.(event) = Event.TaskLifecycle m.(mr_task_id) ev)
  /\ exists st, m'.(replayed) = Some st /\ reduce_task m.(replayed) env = Ok st.
Proof.
  unfold TaskMetricsReducer_push. intros H. carl_simpl. case_match; try done. carl_simpl.
  match goal with Hc : count_event _ _ = Ok _, Hb : bump _ _ = Ok _ |- _ =>
    apply count_event_task in Hc; apply bump_sound in Hb as (Hb1 & Hb2 & Hb3); simpl in * end.
  split; [congruence|]. split; [done|]. split; [lia|]. split; [|eauto].
  intros s Hs. rewrite Hs in *. simpl in *. lia.
Qed.

Lemma history_below es st e env :
  history es st -> last es = Some e -> e.(sequence) < env.(sequence) ->
  Forall (fun e => e.(sequence) < env.(sequence)) es.
Proof.
  intros [_ Hs]%history_iff_replay Hl Hlt. destruct es as [|e' es _] using rev_ind; [done|].
  rewrite last_snoc in Hl. simplify_eq. rewrite fmap_snoc, strongly_sorted_snoc in Hs.
  destruct Hs as [_ Hs]. rewrite Forall_fmap in Hs. apply Forall_app. split; [|by constructor].
  eapply Forall_impl; [exact Hs|]. simpl. lia.
Qed.

Lemma pushes_sound task es m :
  try_fold TaskMetricsReducer_push (TaskMetricsReducer_new task) es = Ok m ->
  m.(mr_task_id) = task /\ m.(last_sequence) = sequence <$> last es
  /\ Forall (fun e => e.(sequence) <> 0) es
  /\ match m.(replayed) with
     | None => es = []
     | Some st => history es st /\ st.(task_id) = task
     end.
Proof.
  revert m. induction es as [|env es IH] using rev_ind; intros m Hm; simpl in Hm; [by simplify_eq|].
  rewrite try_fold_app in Hm. simpl in Hm. carl_simpl.
  match goal with Hf : try_fold _ _ es = Ok ?m0, Hp : TaskMetricsReducer_push _ env = Ok _ |- _ =>
    apply IH in Hf as (Ht & Hl & Hpos & Hh);
    apply push_sound in Hp as (Ht' & Hl' & Hz & Hlt & [ev Hev] & st & Hrep & Hr) end.
  rewrite last_snoc, Hrep. split; [congruence|]. split; [done|]. split; [apply Forall_app; by repeat constructor|].
  case_match eqn:Hrep0.
  - destruct Hh as [Hh Htask]. pose proof Hr as (ev' & _ & _ & _ & _ & _ & st1 & Hstep & ->)%reduce_existing_spec.
    split; [|simpl; apply step_identity in Hstep as [-> _]; done].
    destruct (last es) as [e|] eqn:He; [|apply last_None in He; by apply history_nonempty in Hh].
    eapply history_step; [exact Hh| |exact Hr]. eapply history_below; [done..|]. by apply Hlt.
  - subst es. pose proof Hr as (t & ? & ? & ? & ? & ? & ? & Hev' & _ & _ & ->)%reduce_created_spec.
    split; [by apply history_created|]. simpl. congruence.
Qed.

(** C27: the metrics of a task are exact.  They are derived exactly for the journals
    that replay, with increasing non-zero sequence numbers, to the authoritative
    snapshot of the task, and then they are the metrics of the specification: no
    cross-check fails and no counter overflows on such a journal, every other
    input is refused. *)
Theorem metrics_exact task es st m :
  derive_task_metrics task es st = Ok m
  <-> replay es = Ok (Some st) /\ StronglySorted Z.lt (sequence <$> es)
      /\ Forall (fun e => e.(sequence) <> 0) es /\ st.(task_id) = task /\ m = metrics_spec es st.
Proof.
  unfold derive_task_metrics. split.
  - intros H. carl_simpl.
    match goal with Hf : try_fold _ _ es = Ok ?m0 |- _ =>
      destruct (pushes_sound _ _ _ Hf) as (Ht & _ & Hpos & Hh); rename Hf into Hfold end.
    unfold TaskMetricsReducer_finish in H. apply bind_ok in H as (st0 & Hrep & H).
    apply ok_or_ok in Hrep. rewrite Hrep in Hh. destruct Hh as [Hh Htask].
    assert (st0 = st) as -> by by carl_simpl.
    pose proof (proj1 (history_iff_replay _ _) Hh) as [Hr Hs]. do 4 (split; [done|]).
    pose proof (derive_complete es st Hh Hpos) as Hd. unfold derive_task_metrics in Hd.
    rewrite Htask, Hfold in Hd. simpl in Hd. unfold TaskMetricsReducer_finish in Hd.
    rewrite Hrep in Hd. simpl in Hd. congruence.
  - intros (Hr & Hs & Hpos & <- & ->). apply derive_complete; [|done]. by apply history_iff_replay.
Qed.
