(* ===== verification/Checkpoint.v ===== *)
(** * Canonical checkpoints

    [src/runtime/task/checkpoint.rs]: the builder of a checkpoint from a
    snapshot, the journal since the previous checkpoint and that checkpoint, its
    normal form, its validation and its digest.

    [sha2] and [serde_json] are outside the sources: the hash function and the
    serializer are parameters of the definitions that use them.  Derived orders
    are the lexicographic orders of the fields; a [BTreeMap] is a [gmap].  The
    sort in [build] is by sequence number.

    The theorems show that the operation table of a checkpoint agrees with the
    task reducer, that building incrementally from the previous checkpoint gives
    the table built from the whole journal, that the normal form is canonical,
    and what a built checkpoint guarantees. *)
From stdpp Require Import base gmap sets list sorting strings.
From Stdlib Require Import ZArith Lia.
From S2P Require Import Prelude Ord Text Settings Policy TaskTypes Events Reducer Journal SecretFilter.
#[local] Open Scope list_scope.
#[local] Open Scope Z_scope.

Definition CHECKPOINT_SCHEMA_VERSION : Z := 1.
Definition MAX_CHECKPOINT_BYTES : Z := 8 * 1024 * 1024.
Definition MAX_NARRATIVE_BYTES : Z := 64 * 1024.
Definition MAX_FIELD_BYTES : Z := 1024 * 1024.

(** ** Data *)

Record WorkEvidence := {
  we_summary : str;
  we_event_sequences : list Z;
  we_artifact_digests : list str
}.
#[export] Instance WorkEvidence_eq_dec : EqDecision WorkEvidence.
Proof. solve_decision. Defined.
#[export] Instance WorkEvidence_ord : Ord WorkEvidence :=
  ord_by (fun w => (w.(we_summary), w.(we_event_sequences), w.(we_artifact_digests))).

Record DecisionRecord := {
  dr_id : str;
  dr_decision : str;
  dr_rationale : str
}.
#[export] Instance DecisionRecord_eq_dec : EqDecision DecisionRecord.
Proof. solve_decision. Defined.
#[export] Instance DecisionRecord_ord : Ord DecisionRecord :=
  ord_by (fun d => (d.(dr_id), d.(dr_decision), d.(dr_rationale))).

Record ExactIdentifier := {
  ei_kind : str;
  ei_value : str
}.
#[export] Instance ExactIdentifier_eq_dec : EqDecision ExactIdentifier.
Proof. solve_decision. Defined.
#[export] Instance ExactIdentifier_ord : Ord ExactIdentifier :=
  ord_by (fun i => (i.(ei_kind), i.(ei_value))).

Record OperationCheckpoint := {
  oc_operation_id : OperationId;
  oc_status : OperationStatus;
  oc_effect_class : EffectClass;
  oc_request_digest : str;
  oc_evidence_sequences : list Z
}.
#[export] Instance OperationCheckpoint_eq_dec : EqDecision OperationCheckpoint.
Proof. solve_decision. Defined.

Record RepositoryCheckpoint := {
  workspace_digest : str;
  git_head : option str;
  git_status_digest : option str;
  diff_artifact_digest : option str;
  file_hashes : gmap str str
}.
#[export] Instance RepositoryCheckpoint_eq_dec : EqDecision RepositoryCheckpoint.
Proof. solve_decision. Defined.

Record ProcessCheckpoint := {
  pc_process_id : str;
  pc_item_id : str;
  pc_command_digest : str;
  pc_cwd_digest : str
}.
#[export] Instance ProcessCheckpoint_eq_dec : EqDecision ProcessCheckpoint.
Proof. solve_decision. Defined.
#[export] Instance ProcessCheckpoint_ord : Ord ProcessCheckpoint :=
  ord_by (fun p => (p.(pc_process_id), p.(pc_item_id), p.(pc_command_digest), p.(pc_cwd_digest))).

Record ProviderCheckpoint := {
  pv_provider : str;
  pv_model : str;
  pv_effort : str;
  pv_context_id : option str;
  observed_total_tokens : option Z;
  observed_context_window : option Z
}.
#[export] Instance ProviderCheckpoint_eq_dec : EqDecision ProviderCheckpoint.
Proof. solve_decision. Defined.

Record ClauseEvidence := {
  ce_clause_id : str;
  ce_evidence : list EvidenceRef
}.
#[export] Instance ClauseEvidence_eq_dec : EqDecision ClauseEvidence.
Proof. solve_decision. Defined.

Record CanonicalCheckpoint := {
  ck_schema_version : Z;
  ck_checkpoint_id : CheckpointId;
  ck_task_id : TaskId;
  ck_contract : CompletionContract;
  completed_work : list WorkEvidence;
  decisions : list DecisionRecord;
  exact_identifiers : list ExactIdentifier;
  ck_operations : list OperationCheckpoint;
  repository : RepositoryCheckpoint;
  running_processes : list ProcessCheckpoint;
  pending_approval_digests : list str;
  pending_steering_digests : list str;
  uncertain_delivery_digests : list str;
  ck_verification : list ClauseEvidence;
  next_objective : str;
  blockers : list str;
  provider : ProviderCheckpoint;
  compaction_generation : Z;
  source_sequence_start : Z;
  source_sequence_end : Z;
  previous_digest : option str
}.
#[export] Instance CanonicalCheckpoint_eq_dec : EqDecision CanonicalCheckpoint.
Proof. solve_decision. Defined.

Record CheckpointBuildInput := {
  bi_checkpoint_id : CheckpointId;
  bi_snapshot : TaskSnapshot;
  bi_events : list EventEnvelope;
  bi_completed_work : list WorkEvidence;
  bi_decisions : list DecisionRecord;
  bi_exact_identifiers : list ExactIdentifier;
  bi_required_identifiers : list ExactIdentifier;
  bi_repository : RepositoryCheckpoint;
  bi_running_processes : list ProcessCheckpoint;
  bi_pending_approval_digests : list str;
  bi_pending_steering_digests : list str;
  bi_uncertain_delivery_digests : list str;
  bi_next_objective : str;
  bi_blockers : list str;
  bi_provider : ProviderCheckpoint;
  bi_compaction_generation : Z;
  bi_previous_checkpoint : option CanonicalCheckpoint;
  bi_artifact_contents : gmap str bytes;
  bi_model_narrative : option str
}.

Module CheckpointError.
Inductive CheckpointError : Set :=
| MissingRequiredIdentifier | DanglingOperation | UnpairedOperation | DuplicateOperation
| InvalidEvidenceRange | InvalidArtifactDigest | ArtifactMissing | ArtifactDigestMismatch
| NonUtf8Artifact | SecretRejected | InvalidSource | InvalidSourceSequence | InvalidGeneration
| LimitExceeded | Serialization.
End CheckpointError.
Abbreviation CheckpointError := CheckpointError.CheckpointError.
#[export] Instance CheckpointError_eq_dec : EqDecision CheckpointError.
Proof. solve_decision. Defined.

Abbreviation checked := (result CheckpointError).

(** ** Field validation *)

Definition ck_validate_text (value : str) : checked unit :=
  _ ← reject (MAX_FIELD_BYTES <? len value) CheckpointError.LimitExceeded;
  reject (existsb (fun character =>
            (character =? 0)
            || (is_control character
                && negb ((character =? 10) || (character =? 13) || (character =? 9)))) value)
    CheckpointError.InvalidSource.

Definition validate_nonempty (value : str) : checked unit :=
  if is_empty (trim value) then Err CheckpointError.InvalidSource else ck_validate_text value.

Definition validate_digest (value : str) : checked unit :=
  if is_hex64 value then Ok tt else Err CheckpointError.InvalidArtifactDigest.

Definition ck_validate_evidence_sequences (sequences : list Z) (start last : Z) : checked unit :=
  reject (existsb (fun sequence => (sequence <? start) || (last <? sequence)) sequences)
    CheckpointError.InvalidEvidenceRange.

Definition validate_narrative (narrative : option str) : checked unit :=
  match narrative with
  | None => Ok tt
  | Some narrative =>
    _ ← reject (MAX_NARRATIVE_BYTES <? len narrative) CheckpointError.LimitExceeded;
    _ ← ck_validate_text narrative;
    map_err (fun _ => CheckpointError.SecretRejected) (inspect (utf8 narrative))
  end.

(** ** Source events *)

(** The body of the loop of [validate_event_order]; the state is [prior]. *)
Definition check_event_order (snapshot : TaskSnapshot) (previous : option CanonicalCheckpoint)
    (prior : option Z) (envelope : EventEnvelope) : checked (option Z) :=
  _ ← reject ((envelope.(sequence) =? 0) || (prior =?? Some envelope.(sequence)))
        CheckpointError.InvalidSourceSequence;
  _ ← reject (is_some_and previous (fun checkpoint =>
                envelope.(sequence) <=? checkpoint.(source_sequence_end)))
        CheckpointError.InvalidSourceSequence;
  match envelope.(event) with
  | Event.TaskLifecycle task _ =>
    if (task =?? snapshot.(task_id)) && (envelope.(ee_session_id) =?? snapshot.(session_id))
    then Ok (Some envelope.(sequence)) else Err CheckpointError.InvalidSource
  | _ => Err CheckpointError.InvalidSource
  end.

Definition validate_event_order (events : list EventEnvelope) (snapshot : TaskSnapshot)
    (previous : option CanonicalCheckpoint) : checked unit :=
  _ ← try_fold (check_event_order snapshot previous) None events;
  Ok tt.

Definition validate_generation (generation : Z) (previous : option CanonicalCheckpoint)
    : checked unit :=
  match previous with
  | None => if generation =? 0 then Ok tt else Err CheckpointError.InvalidGeneration
  | Some previous =>
    if is_some_and (checked_add u32_max previous.(compaction_generation) 1)
         (fun next => next =? generation)
    then Ok tt else Err CheckpointError.InvalidGeneration
  end.

Definition source_range (previous : option CanonicalCheckpoint) (events : list EventEnvelope)
    : checked (Z * Z) :=
  start ← ok_or (match previous with
                 | Some checkpoint => Some checkpoint.(source_sequence_start)
                 | None => sequence <$> head events
                 end) CheckpointError.InvalidSourceSequence;
  last ← ok_or (match last events with
                | Some event => Some event.(sequence)
                | None => source_sequence_end <$> previous
                end) CheckpointError.InvalidSourceSequence;
  if start <=? last then Ok (start, last) else Err CheckpointError.InvalidSourceSequence.

(** ** Merging with the previous checkpoint *)

Definition merge_decision (by_id : gmap str DecisionRecord) (decision : DecisionRecord)
    : checked (gmap str DecisionRecord) :=
  _ ← reject (is_some_and (by_id !! decision.(dr_id)) (fun existing => negb (existing =?? decision)))
        CheckpointError.InvalidSource;
  Ok (<[decision.(dr_id) := decision]> by_id).

Definition merge_decisions (previous : option CanonicalCheckpoint)
    (new_decisions : list DecisionRecord) : checked (list DecisionRecord) :=
  let by_id := match previous with
               | Some previous =>
                 foldl (fun m decision => <[decision.(dr_id) := decision]> m) ∅ previous.(decisions)
               | None => ∅
               end in
  by_id ← try_fold merge_decision by_id new_decisions;
  Ok (btree_values by_id).

Definition merge_identifiers (previous : option CanonicalCheckpoint)
    (identifiers : list ExactIdentifier) : list ExactIdentifier :=
  btree_set (match previous with Some checkpoint => checkpoint.(exact_identifiers) | None => [] end
             ++ identifiers).

Definition require_identifiers (identifiers required : list ExactIdentifier) : checked unit :=
  if forallb (fun identifier => identifier ∈? btree_set identifiers) required then Ok tt
  else Err CheckpointError.MissingRequiredIdentifier.

(** ** The operation table *)

Record OperationBuildState := {
  ob_checkpoint : OperationCheckpoint;
  ob_last_transition_sequence : Z;
  ob_evidence : OperationEvidenceState
}.

Definition checkpoint_operation_evidence_error (e : OperationEvidenceError) : CheckpointError :=
  match e with
  | OperationEvidenceError.IllegalTransition | OperationEvidenceError.Missing =>
    CheckpointError.UnpairedOperation
  | OperationEvidenceError.Invalid => CheckpointError.InvalidEvidenceRange
  end.

(** The table the previous checkpoint leaves. *)
Definition previous_operations (previous : option CanonicalCheckpoint)
    : gmap OperationId OperationBuildState :=
  match previous with
  | None => ∅
  | Some checkpoint =>
    foldl (fun m operation =>
      <[operation.(oc_operation_id) :=
        {| ob_checkpoint := operation;
           ob_last_transition_sequence := checkpoint.(source_sequence_end);
           ob_evidence := from_consumed operation.(oc_evidence_sequences) |}]> m)
      ∅ checkpoint.(ck_operations)
  end.

Definition build_transition (start last : Z) (operations : gmap OperationId OperationBuildState)
    (now : Z) (operation_id : OperationId) (from to : OperationStatus) (evidence_sequences : list Z)
    : checked (gmap OperationId OperationBuildState) :=
  operation ← ok_or (operations !! operation_id) CheckpointError.DanglingOperation;
  _ ← reject (existsb (fun sequence =>
                (sequence <? start) || (last <? sequence) || (now <=? sequence)) evidence_sequences)
        CheckpointError.InvalidEvidenceRange;
  evidence ← map_err checkpoint_operation_evidence_error
    (OperationEvidenceState_transition operation.(ob_evidence) operation.(ob_checkpoint).(oc_status)
       from to operation.(ob_last_transition_sequence) now evidence_sequences);
  Ok (<[operation_id :=
        {| ob_checkpoint :=
             {| oc_operation_id := operation.(ob_checkpoint).(oc_operation_id); oc_status := to;
                oc_effect_class := operation.(ob_checkpoint).(oc_effect_class);
                oc_request_digest := operation.(ob_checkpoint).(oc_request_digest);
                oc_evidence_sequences := evidence.(consumed_sequences) |};
           ob_last_transition_sequence := now;
           ob_evidence := evidence |}]> operations).

Definition build_evidence (operations : gmap OperationId OperationBuildState)
    (now : Z) (operation_id : OperationId) (result_digest : str)
    : checked (gmap OperationId OperationBuildState) :=
  _ ← validate_digest result_digest;
  operation ← ok_or (operations !! operation_id) CheckpointError.DanglingOperation;
  evidence ← map_err checkpoint_operation_evidence_error
    (OperationEvidenceState_record operation.(ob_evidence) operation.(ob_checkpoint).(oc_status)
       operation.(ob_last_transition_sequence) now);
  Ok (<[operation_id :=
        {| ob_checkpoint := operation.(ob_checkpoint);
           ob_last_transition_sequence := operation.(ob_last_transition_sequence);
           ob_evidence := evidence |}]> operations).

(** The body of the loop over the events. *)
Definition build_operation (start last : Z) (operations : gmap OperationId OperationBuildState)
    (envelope : EventEnvelope) : checked (gmap OperationId OperationBuildState) :=
  match envelope.(event) with
  | Event.TaskLifecycle _ event =>
    match event with
    | TaskEvent.OperationIntentRecorded operation_id _ _ effect_class request_digest =>
      _ ← reject (is_some (operations !! operation_id)) CheckpointError.DuplicateOperation;
      Ok (<[operation_id :=
            {| ob_checkpoint :=
                 {| oc_operation_id := operation_id; oc_status := OperationStatus.IntentRecorded;
                    oc_effect_class := effect_class; oc_request_digest := request_digest;
                    oc_evidence_sequences := [] |};
               ob_last_transition_sequence := envelope.(sequence);
               ob_evidence := OperationEvidenceState_default |}]> operations)
    | TaskEvent.OperationTransitioned operation_id from to evidence_sequences =>
      build_transition start last operations envelope.(sequence) operation_id from to evidence_sequences
    | TaskEvent.OperationEvidenceRecorded operation_id result_digest =>
      build_evidence operations envelope.(sequence) operation_id result_digest
    | _ => Ok operations
    end
  | _ => Err CheckpointError.InvalidSource
  end.

Definition build_operations (previous : option CanonicalCheckpoint) (events : list EventEnvelope)
    (start last : Z) : checked (list OperationCheckpoint) :=
  operations ← try_fold (build_operation start last) (previous_operations previous) events;
  _ ← reject (existsb (fun operation => negb (is_resolved operation.(ob_checkpoint).(oc_status)))
                (btree_values operations)) CheckpointError.UnpairedOperation;
  Ok (ob_checkpoint <$> btree_values operations).

(** ** Verification and provider metadata *)

Definition evidence_key (item : EvidenceRef) : Z * option str * option OperationId :=
  (item.(event_sequence), item.(artifact_digest), item.(er_operation_id)).

(** [evidence.sort_by_key(..); evidence.dedup()]. *)
Definition normalize_evidence (evidence : list EvidenceRef) : list EvidenceRef :=
  dedup (sort_by_key evidence_key evidence).

Definition verification_from_contract (contract : CompletionContract) : list ClauseEvidence :=
  sort_by_key ce_clause_id
    ((fun clause => {| ce_clause_id := clause.(clause_id);
                       ce_evidence := normalize_evidence clause.(clause_evidence) |})
     <$> contract.(clauses)).

(** The locals [validate_provider_metadata] folds over the events. *)
Record ExpectedProvider := {
  expected_model : option str;
  expected_effort : option str;
  expected_total_tokens : option Z;
  expected_context_window : option Z
}.

Definition expect_provider (expected : ExpectedProvider) (envelope : EventEnvelope)
    : checked ExpectedProvider :=
  match envelope.(event) with
  | Event.TaskLifecycle _ (TaskEvent.Created _ _ _ _ model effort _) =>
    Ok {| expected_model := Some model; expected_effort := Some (as_codex_value effort);
          expected_total_tokens := expected.(expected_total_tokens);
          expected_context_window := expected.(expected_context_window) |}
  | Event.TaskLifecycle _ (TaskEvent.UsageObserved _ total_tokens context_window) =>
    Ok {| expected_model := expected.(expected_model); expected_effort := expected.(expected_effort);
          expected_total_tokens := Some total_tokens;
          expected_context_window := if is_some context_window then context_window
                                     else expected.(expected_context_window) |}
  | Event.TaskLifecycle _ _ => Ok expected
  | _ => Err CheckpointError.InvalidSource
  end.

Definition validate_provider_metadata (provider' : ProviderCheckpoint) (snapshot : TaskSnapshot)
    (previous : option CanonicalCheckpoint) (events : list EventEnvelope) : checked unit :=
  let expected :=
    {| expected_model := (fun checkpoint => checkpoint.(provider).(pv_model)) <$> previous;
       expected_effort := (fun checkpoint => checkpoint.(provider).(pv_effort)) <$> previous;
       expected_total_tokens := checkpoint ← previous; checkpoint.(provider).(observed_total_tokens);
       expected_context_window :=
         checkpoint ← previous; checkpoint.(provider).(observed_context_window) |} in
  _ ← reject (is_some_and previous (fun checkpoint =>
                negb (checkpoint.(provider).(pv_provider) =?? provider'.(pv_provider))))
        CheckpointError.InvalidSource;
  expected ← try_fold expect_provider expected events;
  reject (negb (expected.(expected_model) =?? Some provider'.(pv_model))
          || negb (expected.(expected_effort) =?? Some provider'.(pv_effort))
          || negb (expected.(expected_total_tokens) =?? provider'.(observed_total_tokens))
          || negb (expected.(expected_context_window) =?? provider'.(observed_context_window))
          || negb (snapshot.(provider_context) =?? provider'.(pv_context_id)))
    CheckpointError.InvalidSource.

(** ** The normal form *)

Definition normalize_strings (values : list str) : list str := dedup (sort values).

Definition normalize_work_item (item : WorkEvidence) : WorkEvidence :=
  {| we_summary := item.(we_summary);
     we_event_sequences := dedup (sort item.(we_event_sequences));
     we_artifact_digests := normalize_strings item.(we_artifact_digests) |}.

Definition normalize_work (work : list WorkEvidence) : list WorkEvidence :=
  dedup (sort (normalize_work_item <$> work)).

Definition normalize (self : CanonicalCheckpoint) : CanonicalCheckpoint :=
  {| ck_schema_version := self.(ck_schema_version);
     ck_checkpoint_id := self.(ck_checkpoint_id);
     ck_task_id := self.(ck_task_id);
     ck_contract := self.(ck_contract);
     completed_work := normalize_work self.(completed_work);
     decisions := dedup (sort self.(decisions));
     exact_identifiers := dedup (sort self.(exact_identifiers));
     ck_operations := sort_by_key oc_operation_id self.(ck_operations);
     repository := self.(repository);
     running_processes := dedup (sort self.(running_processes));
     pending_approval_digests := normalize_strings self.(pending_approval_digests);
     pending_steering_digests := normalize_strings self.(pending_steering_digests);
     uncertain_delivery_digests := normalize_strings self.(uncertain_delivery_digests);
     ck_verification :=
       sort_by_key ce_clause_id
         ((fun clause => {| ce_clause_id := clause.(ce_clause_id);
                            ce_evidence := normalize_evidence clause.(ce_evidence) |})
          <$> self.(ck_verification));
     next_objective := self.(next_objective);
     blockers := normalize_strings self.(blockers);
     provider := self.(provider);
     compaction_generation := self.(compaction_generation);
     source_sequence_start := self.(source_sequence_start);
     source_sequence_end := self.(source_sequence_end);
     previous_digest := self.(previous_digest) |}.

(** ** Validation of the structure *)

Definition artifact_digests (self : CanonicalCheckpoint) : list str :=
  btree_set
    ((self.(completed_work) ≫= we_artifact_digests)
     ++ option_list self.(repository).(diff_artifact_digest)
     ++ (self.(ck_verification) ≫= fun clause => omap artifact_digest clause.(ce_evidence))).

Definition validate_option (f : str -> checked unit) (o : option str) : checked unit :=
  match o with Some value => f value | None => Ok tt end.

Definition validate_work_item (start last : Z) (work : WorkEvidence) : checked unit :=
  _ ← ck_validate_text work.(we_summary);
  ck_validate_evidence_sequences work.(we_event_sequences) start last.

Definition validate_decision (decision : DecisionRecord) : checked unit :=
  _ ← validate_nonempty decision.(dr_id);
  _ ← validate_nonempty decision.(dr_decision);
  validate_nonempty decision.(dr_rationale).

(** The body of the loop over the operations; the state is [operation_ids]. *)
Definition validate_operation (start last : Z) (operation_ids : gset OperationId)
    (operation : OperationCheckpoint) : checked (gset OperationId) :=
  _ ← reject (bool_decide (operation.(oc_operation_id) ∈ operation_ids))
        CheckpointError.DuplicateOperation;
  _ ← validate_digest operation.(oc_request_digest);
  _ ← reject (negb (is_resolved operation.(oc_status))) CheckpointError.UnpairedOperation;
  _ ← reject (is_empty operation.(oc_evidence_sequences)
              || (head operation.(oc_evidence_sequences) =?? Some 0)
              || windows2_any Z.geb operation.(oc_evidence_sequences))
        CheckpointError.InvalidEvidenceRange;
  _ ← ck_validate_evidence_sequences operation.(oc_evidence_sequences) start last;
  Ok ({[operation.(oc_operation_id)]} ∪ operation_ids).

Definition validate_repository (self : RepositoryCheckpoint) : checked unit :=
  _ ← validate_digest self.(workspace_digest);
  _ ← validate_option validate_digest self.(git_status_digest);
  _ ← validate_option validate_digest self.(diff_artifact_digest);
  try_for_each (fun '(path, digest) => _ ← validate_nonempty path; validate_digest digest)
    (btree_iter self.(file_hashes)).

Definition validate_process (process : ProcessCheckpoint) : checked unit :=
  _ ← validate_nonempty process.(pc_process_id);
  _ ← validate_nonempty process.(pc_item_id);
  _ ← validate_digest process.(pc_command_digest);
  validate_digest process.(pc_cwd_digest).

Definition validate_provider (self : ProviderCheckpoint) : checked unit :=
  _ ← validate_nonempty self.(pv_provider);
  _ ← validate_nonempty self.(pv_model);
  _ ← validate_nonempty self.(pv_effort);
  _ ← validate_option validate_nonempty self.(pv_context_id);
  reject (is_some_and self.(observed_context_window) (fun window => window =? 0))
    CheckpointError.InvalidSource.

Definition validate_clause_evidence (start last : Z) (clause : ClauseEvidence) : checked unit :=
  _ ← validate_nonempty clause.(ce_clause_id);
  try_for_each (fun item => ck_validate_evidence_sequences [item.(event_sequence)] start last)
    clause.(ce_evidence).

Definition validate_structure (self : CanonicalCheckpoint) : checked unit :=
  let start := self.(source_sequence_start) in
  let last := self.(source_sequence_end) in
  _ ← reject (negb (self.(ck_schema_version) =? CHECKPOINT_SCHEMA_VERSION) || (start =? 0)
              || (last <? start) || is_empty (trim self.(next_objective)))
        CheckpointError.InvalidSource;
  _ ← map_err (fun _ => CheckpointError.InvalidSource) (CompletionContract_validate self.(ck_contract));
  _ ← try_for_each (validate_work_item start last) self.(completed_work);
  _ ← try_for_each validate_decision self.(decisions);
  _ ← try_for_each (fun identifier =>
        _ ← validate_nonempty identifier.(ei_kind); validate_nonempty identifier.(ei_value))
        self.(exact_identifiers);
  _ ← try_fold (validate_operation start last) ∅ self.(ck_operations);
  _ ← validate_repository self.(repository);
  _ ← try_for_each validate_process self.(running_processes);
  _ ← try_for_each validate_digest
        (self.(pending_approval_digests) ++ self.(pending_steering_digests)
         ++ self.(uncertain_delivery_digests));
  _ ← try_for_each validate_nonempty self.(blockers);
  _ ← validate_nonempty self.(next_objective);
  _ ← validate_provider self.(provider);
  _ ← try_for_each (validate_clause_evidence start last) self.(ck_verification);
  _ ← reject (negb (self.(ck_verification) =?? verification_from_contract self.(ck_contract)))
        CheckpointError.InvalidSource;
  _ ← validate_option validate_digest self.(previous_digest);
  try_for_each validate_digest (artifact_digests self).

(** ** Digests and the builder

    The hash of [sha2] and the serializer of [serde_json]. *)
Section Builder.
Context (sha256 : bytes -> Sha256Digest) (to_vec : CanonicalCheckpoint -> option bytes).

Definition canonical_bytes (self : CanonicalCheckpoint) : checked bytes :=
  let canonical := normalize self in
  _ ← validate_structure canonical;
  bytes ← ok_or (to_vec canonical) CheckpointError.Serialization;
  _ ← reject (MAX_CHECKPOINT_BYTES <? Zlen bytes) CheckpointError.LimitExceeded;
  _ ← map_err (fun _ => CheckpointError.SecretRejected) (inspect bytes);
  Ok bytes.

(** [format!("{:x}", Sha256::digest(..))]. *)
Definition CanonicalCheckpoint_digest (self : CanonicalCheckpoint) : checked str :=
  bytes ← canonical_bytes self;
  Ok (Sha256Digest_display (sha256 bytes)).

Definition validate_artifact (contents : gmap str bytes) (digest : str) : checked unit :=
  _ ← validate_digest digest;
  bytes ← ok_or (contents !! digest) CheckpointError.ArtifactMissing;
  _ ← reject (negb (Sha256Digest_display (sha256 bytes) =?? digest))
        CheckpointError.ArtifactDigestMismatch;
  match inspect bytes with
  | Ok _ => Ok tt
  | Err SecretRule.NonUtf8 => Err CheckpointError.NonUtf8Artifact
  | Err _ => Err CheckpointError.SecretRejected
  end.

Definition validate_artifact_contents (checkpoint : CanonicalCheckpoint) (contents : gmap str bytes)
    : checked unit :=
  try_for_each (validate_artifact contents) (artifact_digests checkpoint).

Definition build (input : CheckpointBuildInput) : checked CanonicalCheckpoint :=
  let snapshot := input.(bi_snapshot) in
  let previous := input.(bi_previous_checkpoint) in
  _ ← map_err (fun _ => CheckpointError.InvalidSource) (CompletionContract_validate snapshot.(contract));
  _ ← validate_narrative input.(bi_model_narrative);
  let events := sort_by_key sequence input.(bi_events) in
  _ ← validate_event_order events snapshot previous;
  previous_digest ← match previous with
                    | Some previous => Some <$> CanonicalCheckpoint_digest previous
                    | None => Ok None
                    end;
  _ ← validate_generation input.(bi_compaction_generation) previous;
  '(source_sequence_start, source_sequence_end) ← source_range previous events;
  let completed_work :=
    normalize_work (match previous with Some checkpoint => checkpoint.(completed_work) | None => [] end
                    ++ input.(bi_completed_work)) in
  decisions ← merge_decisions previous input.(bi_decisions);
  let exact_identifiers := merge_identifiers previous input.(bi_exact_identifiers) in
  _ ← require_identifiers exact_identifiers input.(bi_required_identifiers);
  operations ← build_operations previous events source_sequence_start source_sequence_end;
  _ ← try_for_each (fun operation =>
        reject (negb (operation_status snapshot operation.(oc_operation_id) =?? Some operation.(oc_status)))
          CheckpointError.InvalidSource) operations;
  _ ← validate_provider_metadata input.(bi_provider) snapshot previous events;
  let checkpoint :=
    {| ck_schema_version := CHECKPOINT_SCHEMA_VERSION;
       ck_checkpoint_id := input.(bi_checkpoint_id);
       ck_task_id := snapshot.(task_id);
       ck_contract := snapshot.(contract);
       completed_work := completed_work;
       decisions := decisions;
       exact_identifiers := exact_identifiers;
       ck_operations := operations;
       repository := input.(bi_repository);
       running_processes := dedup (sort input.(bi_running_processes));
       pending_approval_digests := normalize_strings input.(bi_pending_approval_digests);
       pending_steering_digests := normalize_strings input.(bi_pending_steering_digests);
       uncertain_delivery_digests := normalize_strings input.(bi_uncertain_delivery_digests);
       ck_verification := verification_from_contract snapshot.(contract);
       next_objective := input.(bi_next_objective);
       blockers := normalize_strings input.(bi_blockers);
       provider := input.(bi_provider);
       compaction_generation := input.(bi_compaction_generation);
       source_sequence_start := source_sequence_start;
       source_sequence_end := source_sequence_end;
       previous_digest := previous_digest |} in
  _ ← validate_structure checkpoint;
  _ ← validate_artifact_contents checkpoint input.(bi_artifact_contents);
  Ok checkpoint.
End Builder.

(** ** The operation table agrees with the task reducer *)

(** The state of one operation in the two tables. *)
Definition operation_agrees (id : OperationId) (op : OperationSnapshot) (ob : OperationBuildState) : Prop :=
  ob.(ob_checkpoint).(oc_operation_id) = id
  /\ ob.(ob_checkpoint).(oc_status) = op.(os_status)
  /\ ob.(ob_checkpoint).(oc_evidence_sequences) = op.(evidence).(consumed_sequences)
  /\ ob.(ob_last_transition_sequence) = op.(last_transition_sequence)
  /\ ob.(ob_evidence) = op.(evidence).

Definition table_agrees (es : list EventEnvelope) (st : TaskSnapshot)
    (table : gmap OperationId OperationBuildState) : Prop :=
  forall id, match st.(operations) !! id, table !! id with
             | Some op, Some ob => operation_agrees id op ob
             | None, None => True
             | _, _ => False
             end.

(** The events a checkpoint accepts: inside its source range, with evidence from
    that range, and evidence with the digest of a result. *)
Definition checkpoint_admissible (start last : Z) (env : EventEnvelope) : Prop :=
  start <= env.(sequence) <= last
  /\ match env.(event) with
     | Event.TaskLifecycle _ (TaskEvent.OperationEvidenceRecorded _ digest) => is_hex64 digest = true
     | Event.TaskLifecycle _ (TaskEvent.OperationTransitioned _ _ _ ev) => Forall (fun s => start <= s) ev
     | _ => True
     end.

Lemma table_agrees_lookup es st table id op :
  table_agrees es st table -> st.(operations) !! id = Some op ->
  exists ob, table !! id = Some ob /\ operation_agrees id op ob.
Proof.
  intros H Hop. specialize (H id). rewrite Hop in H. destruct (table !! id) as [ob|]; [eauto|done].
Qed.

Lemma table_agrees_put es es' st table id op ob :
  table_agrees es st table -> operation_agrees id op ob ->
  table_agrees es' (put_operation id op st) (<[id := ob]> table).
Proof.
  intros H Hop id'. simpl. destruct (decide (id = id')) as [<-|Hne].
  - by rewrite !lookup_insert_eq.
  - rewrite !lookup_insert_ne by done. apply H.
Qed.

(** Changing the snapshot alone, in what the table does not track. *)
Lemma table_agrees_revise es es' st table id op digest files :
  table_agrees es st table -> st.(operations) !! id = Some op ->
  table_agrees es' (put_operation id (revise_operation op op.(os_status)
    op.(last_transition_sequence) digest files op.(evidence)) st) table.
Proof.
  intros H Hop. destruct (table_agrees_lookup _ _ _ _ _ H Hop) as (ob & Hob & Hag).
  rewrite <-(insert_id table id ob Hob). by apply table_agrees_put with es.
Qed.

Lemma table_agrees_same es es' st st1 table :
  table_agrees es st table -> st1.(operations) = st.(operations) -> table_agrees es' st1 table.
Proof. intros H Heq id. rewrite Heq. apply H. Qed.

Lemma build_transition_agrees start last es st table id op env from to ev ledger :
  table_agrees es st table -> st.(operations) !! id = Some op ->
  Forall (fun s => start <= s /\ s < env.(sequence)) ev -> env.(sequence) <= last ->
  ledger_step op.(evidence) op.(os_status) from to op.(last_transition_sequence)
    env.(sequence) ev ledger ->
  exists table', build_transition start last table env.(sequence) id from to ev = Ok table'
    /\ table_agrees (es ++ [env]) (put_operation id (revise_operation op to env.(sequence)
         op.(postcondition_digest) op.(file_postcondition) ledger) st) table'.
Proof.
  intros H Hop Hev Hlast Hstep.
  destruct (table_agrees_lookup _ _ _ _ _ H Hop) as (ob & Hob & Hid & Hst & Hcon & Hl & Hled).
  unfold build_transition. rewrite Hob. simpl.
  rewrite (proj2 (existsb_false _ _)).
  2: { eapply Forall_impl; [exact Hev|]. simpl. lia. }
  simpl. rewrite Hst, Hl, Hled. apply evidence_transition_spec in Hstep. rewrite Hstep. simpl.
  eexists. split; [reflexivity|]. by eapply table_agrees_put.
Qed.

Lemma build_evidence_agrees es st table id op now digest ledger :
  table_agrees es st table -> st.(operations) !! id = Some op -> is_hex64 digest = true ->
  OperationEvidenceState_record op.(evidence) op.(os_status) op.(last_transition_sequence) now
    = Ok ledger ->
  exists table', build_evidence table now id digest = Ok table'
    /\ table_agrees es (put_operation id (revise_operation op op.(os_status)
         op.(last_transition_sequence) op.(postcondition_digest) op.(file_postcondition) ledger) st) table'.
Proof.
  intros H Hop Hd Hrec.
  destruct (table_agrees_lookup _ _ _ _ _ H Hop) as (ob & Hob & Hid & Hst & Hcon & Hl & Hled).
  unfold build_evidence, validate_digest. rewrite Hd, Hob. simpl. rewrite Hst, Hl, Hled, Hrec. simpl.
  eexists. split; [reflexivity|]. eapply table_agrees_put; [done|].
  apply evidence_record_spec in Hrec as (_ & _ & _ & ->). by repeat split.
Qed.

Lemma build_step_agrees start last es st env ev st1 table :
  table_agrees es st table -> checkpoint_admissible start last env ->
  env.(event) = Event.TaskLifecycle st.(task_id) ev -> task_step st env.(sequence) ev st1 ->
  exists table', build_operation start last table env = Ok table' /\ table_agrees (es ++ [env]) st1 table'.
Proof.
  intros H [Hrange Hadm] Hev Hstep. unfold build_operation. rewrite Hev in *.
  destruct Hstep; try (eexists; split; [reflexivity|]; by eapply table_agrees_same).
  - match goal with H : _ \/ _ |- _ => destruct H as [[? ->]|[? ->]] end;
      (eexists; split; [reflexivity|]; by eapply table_agrees_same).
  - destruct ev; try done; (eexists; split; [reflexivity|]; by eapply table_agrees_same).
  - destruct ev; try done; (eexists; split; [reflexivity|]; by eapply table_agrees_same).
  - match goal with Hn : operations st !! id = None |- _ => pose proof (H id) as Hid; rewrite Hn in Hid end.
    destruct (table !! id); [done|]. simpl.
    eexists. split; [reflexivity|]. eapply table_agrees_put; [exact H|]. done.
  - eexists. split; [reflexivity|]. eapply table_agrees_revise; [exact H|]. by apply H0.
  - eexists. split; [reflexivity|]. eapply table_agrees_revise; [exact H|]. by apply H0.
  - eapply build_transition_agrees; [exact H|apply H0| |lia|done].
    destruct H1 as (_ & _ & _ & _ & Hnow & _). rewrite Forall_forall in *. auto.
  - eapply build_evidence_agrees in H as (table' & -> & Hag); [|apply H0|done|].
    2: { apply evidence_record_spec. eauto. }
    eexists. split; [reflexivity|]. by eapply table_agrees_same.
Qed.

#[export] Instance checkpoint_observer start last :
  JournalObserver (build_operation start last) ∅ (checkpoint_admissible start last) table_agrees.
Proof.
  constructor.
  - intros env st _ (task & c & b & w & m & e & p & Hev & _ & _ & ->)%reduce_created_spec.
    unfold build_operation. rewrite Hev. eexists. split; [reflexivity|].
    intros id. simpl. by rewrite !lookup_empty.
  - intros es st env st' table _ _ Hadm Hr Hag.
    apply reduce_existing_spec in Hr as (ev & Hev & _ & _ & _ & _ & st1 & Hstep & ->).
    destruct (build_step_agrees _ _ _ _ _ _ _ _ Hag Hadm Hev Hstep) as (table' & ? & ?). eauto.
Qed.

(** Every entry of an operation table carries its own identifier. *)
Definition keyed (table : gmap OperationId OperationBuildState) : Prop :=
  forall id ob, table !! id = Some ob -> ob.(ob_checkpoint).(oc_operation_id) = id.

Lemma keyed_empty : keyed ∅.
Proof. intros id ob H. by rewrite lookup_empty in H. Qed.

Lemma keyed_insert table id ob :
  keyed table -> ob.(ob_checkpoint).(oc_operation_id) = id -> keyed (<[id := ob]> table).
Proof. intros Hk Hid id' ob' [[<- <-]|[_ ?]]%lookup_insert_Some; auto. Qed.

Lemma keyed_ids table :
  keyed table -> oc_operation_id <$> (ob_checkpoint <$> btree_values table) = (btree_iter table).*1.
Proof.
  intros Hk. unfold btree_values. rewrite <-!list_fmap_compose. apply list_fmap_ext.
  intros i [id ob] Hi. simpl. apply Hk, elem_of_btree_iter, list_elem_of_lookup. eauto.
Qed.

Lemma ord_lt_Z (l : list Z) : StronglySorted ord_lt l -> StronglySorted Z.lt l.
Proof.
  induction 1 as [|x l _ IH Hx]; constructor; [done|].
  eapply Forall_impl; [exact Hx|]. intros y Hy. by apply Z.compare_lt_iff.
Qed.

Lemma elem_of_checkpoints table o :
  o ∈ ob_checkpoint <$> btree_values table <-> exists id ob, table !! id = Some ob /\ o = ob.(ob_checkpoint).
Proof.
  rewrite list_elem_of_fmap. setoid_rewrite elem_of_btree_values. naive_solver.
Qed.

(** What the table of a checkpoint has to say about the operations of a task. *)
Definition operations_exact (st : TaskSnapshot) (ops : list OperationCheckpoint) : Prop :=
  StronglySorted Z.lt (oc_operation_id <$> ops)
  /\ (forall o, o ∈ ops -> exists op, st.(operations) !! o.(oc_operation_id) = Some op
        /\ o.(oc_status) = op.(os_status)
        /\ o.(oc_evidence_sequences) = op.(evidence).(consumed_sequences))
  /\ (forall id op, st.(operations) !! id = Some op -> id ∈ oc_operation_id <$> ops).

Lemma table_agrees_keyed es st table : table_agrees es st table -> keyed table.
Proof.
  intros H id ob Hob. specialize (H id). rewrite Hob in H.
  destruct (st.(operations) !! id); [apply H|done].
Qed.

Lemma table_agrees_exact es st table :
  table_agrees es st table -> operations_exact st (ob_checkpoint <$> btree_values table).
Proof.
  intros H. pose proof (table_agrees_keyed _ _ _ H) as Hk. split; [|split].
  - rewrite keyed_ids by done. apply ord_lt_Z, btree_iter_keys.
  - intros o (id & ob & Hob & ->)%elem_of_checkpoints. specialize (H id). rewrite Hob in H.
    destruct (st.(operations) !! id) as [op|] eqn:Hop; [|done].
    destruct H as (-> & Hs & He & _). eauto.
  - intros id op Hop. destruct (table_agrees_lookup _ _ _ _ _ H Hop) as (ob & Hob & Hid & _).
    rewrite keyed_ids by done. apply list_elem_of_fmap. exists (id, ob).
    split; [done|]. by apply elem_of_btree_iter.
Qed.

Lemma table_agrees_unresolved es st table :
  table_agrees es st table ->
  existsb (fun ob => negb (is_resolved ob.(ob_checkpoint).(oc_status))) (btree_values table)
  = has_unresolved_operations st.
Proof.
  intros H. apply eq_true_iff_eq. unfold has_unresolved_operations. rewrite !existsb_exists.
  setoid_rewrite <-list_elem_of_In. setoid_rewrite elem_of_btree_values. split.
  - intros (ob & (id & Hob) & Hr). specialize (H id). rewrite Hob in H.
    destruct (st.(operations) !! id) as [op|] eqn:Hop; [|done].
    destruct H as (_ & Hs & _). exists op. rewrite <-Hs. eauto.
  - intros (op & (id & Hop) & Hr).
    destruct (table_agrees_lookup _ _ _ _ _ H Hop) as (ob & Hob & _ & Hs & _).
    exists ob. rewrite Hs. eauto.
Qed.

Lemma build_operations_history es st start last :
  history es st -> Forall (checkpoint_admissible start last) es ->
  if has_unresolved_operations st
  then build_operations None es start last = Err CheckpointError.UnpairedOperation
  else exists ops, build_operations None es start last = Ok ops /\ operations_exact st ops.
Proof.
  intros Hh Hadm.
  destruct (observer_total (observe := build_operation start last) es st Hh Hadm) as (table & Ht & Hag).
  unfold build_operations. simpl. rewrite Ht. simpl. rewrite (table_agrees_unresolved _ _ _ Hag).
  destruct (has_unresolved_operations st); [done|].
  eexists. split; [reflexivity|]. by eapply table_agrees_exact.
Qed.

(** C16: the operation table of a checkpoint agrees with the task reducer.  For a
    journal the reducer replays, whose events lie in the source range, the table
    is built exactly when no operation is unresolved, and then it lists every
    operation of the snapshot once, in order, with its status and the evidence
    it has consumed; otherwise the checkpoint is refused as unpaired. *)
Theorem checkpoint_operations_agree es st start last :
  replay es = Ok (Some st) -> StronglySorted Z.lt (sequence <$> es) ->
  Forall (checkpoint_admissible start last) es ->
  if has_unresolved_operations st
  then build_operations None es start last = Err CheckpointError.UnpairedOperation
  else exists ops, build_operations None es start last = Ok ops /\ operations_exact st ops.
Proof.
  intros Hr Hs. by apply build_operations_history, history_iff_replay.
Qed.

Lemma checkpoint_operations_agree_witness :
  if has_unresolved_operations (example_snapshot 8)
  then build_operations None (take 8 example_journal) 1 8 = Err CheckpointError.UnpairedOperation
  else exists ops, build_operations None (take 8 example_journal) 1 8 = Ok ops
       /\ operations_exact (example_snapshot 8) ops.
Proof.
  destruct (example_replays 8) as [Hr Hs]; [lia|].
  apply (checkpoint_operations_agree (take 8 example_journal) (example_snapshot 8) 1 8 Hr Hs).
  repeat (constructor; [split; [simpl; lia|by repeat constructor]|]). constructor.
Defined.

(** ** Incremental checkpoints *)

(** Two tables that no event tells apart: the same checkpoints, and the same
    ledgers where an operation can still change. *)
Definition same_table (t1 t2 : gmap OperationId OperationBuildState) : Prop :=
  forall id, match t1 !! id, t2 !! id with
             | Some o1, Some o2 =>
               o1.(ob_checkpoint) = o2.(ob_checkpoint)
               /\ (is_resolved o1.(ob_checkpoint).(oc_status) = true \/ o1 = o2)
             | None, None => True
             | _, _ => False
             end.

Definition same_result (r1 r2 : checked (gmap OperationId OperationBuildState)) : Prop :=
  match r1, r2 with
  | Ok t1, Ok t2 => same_table t1 t2
  | Err e1, Err e2 => e1 = e2
  | _, _ => False
  end.

Lemma same_table_insert t1 t2 id ob :
  same_table t1 t2 -> same_table (<[id := ob]> t1) (<[id := ob]> t2).
Proof.
  intros H id'. destruct (decide (id = id')) as [<-|Hne].
  - rewrite !lookup_insert_eq. auto.
  - rewrite !lookup_insert_ne by done. apply H.
Qed.

(** A resolved operation admits no transition and no evidence, whatever its
    ledger. *)
Lemma resolved_no_transition e status from to last now ev :
  is_resolved status = true ->
  OperationEvidenceState_transition e status from to last now ev
  = Err OperationEvidenceError.IllegalTransition.
Proof.
  intros Hr. unfold OperationEvidenceState_transition. destruct (decide (status = from)) as [<-|Hne].
  - by destruct status, to.
  - by rewrite (bool_decide_eq_false_2 (status = from)).
Qed.

Lemma resolved_no_evidence e status last now :
  is_resolved status = true ->
  OperationEvidenceState_record e status last now = Err OperationEvidenceError.Invalid.
Proof. intros Hr. unfold OperationEvidenceState_record. by destruct status. Qed.

Lemma same_table_step start last t1 t2 env :
  same_table t1 t2 -> same_result (build_operation start last t1 env) (build_operation start last t2 env).
Proof.
  intros H. unfold build_operation. destruct (event env); try done.
  match goal with |- same_result (match ?ev with _ => _ end) _ => destruct ev end; try done; simpl.
  - pose proof (H operation_id) as Hid. destruct (t1 !! operation_id), (t2 !! operation_id); try done.
    simpl. by apply same_table_insert.
  - unfold build_transition. pose proof (H operation_id) as Hid.
    destruct (t1 !! operation_id) as [o1|], (t2 !! operation_id) as [o2|]; try done. simpl.
    destruct Hid as [Hck Hor]. destruct (existsb _ _); [done|]. simpl. rewrite <-Hck.
    destruct Hor as [Hres|<-]; [by rewrite !resolved_no_transition|].
    destruct (OperationEvidenceState_transition _ _ _ _ _ _ _); simpl; [by apply same_table_insert|done].
  - unfold build_evidence. pose proof (H operation_id) as Hid. destruct (validate_digest _); [|done]. simpl.
    destruct (t1 !! operation_id) as [o1|], (t2 !! operation_id) as [o2|]; try done. simpl.
    destruct Hid as [Hck Hor]. rewrite <-Hck.
    destruct Hor as [Hres|<-]; [by rewrite !resolved_no_evidence|].
    destruct (OperationEvidenceState_record _ _ _ _); simpl; [by apply same_table_insert|done].
Qed.

Lemma same_table_fold start last es t1 t2 :
  same_table t1 t2 ->
  same_result (try_fold (build_operation start last) t1 es) (try_fold (build_operation start last) t2 es).
Proof.
  revert t1 t2. induction es as [|env es IH]; intros t1 t2 H; [done|]. simpl.
  pose proof (same_table_step start last t1 t2 env H) as Hstep.
  destruct (build_operation start last t1 env), (build_operation start last t2 env); simpl in *; auto; done.
Qed.

Lemma foldl_insert_lookup {K V W} `{Countable K} (key : V -> K) (f : V -> W) (l : list V)
    (m : gmap K W) :
  NoDup (key <$> l) ->
  (forall x, x ∈ l -> foldl (fun m x => <[key x := f x]> m) m l !! key x = Some (f x))
  /\ (forall k, k ∉ key <$> l -> foldl (fun m x => <[key x := f x]> m) m l !! k = m !! k).
Proof.
  induction l as [|y l IH] using rev_ind; [set_solver|].
  rewrite fmap_snoc, foldl_app. intros (Hnd & Hy & _)%NoDup_app. destruct (IH Hnd) as [Hin Hout].
  simpl. split.
  - intros x [Hx| ->%list_elem_of_singleton]%elem_of_app; [|apply lookup_insert_eq].
    rewrite lookup_insert_ne; [by apply Hin|]. intros Heq. apply (Hy (key x)); [|set_solver].
    apply list_elem_of_fmap. eauto.
  - intros k Hk. rewrite lookup_insert_ne by set_solver. apply Hout. set_solver.
Qed.

Lemma build_operation_keyed start last t env t' :
  keyed t -> build_operation start last t env = Ok t' -> keyed t'.
Proof.
  intros Hk H. unfold build_operation in H. destruct (event env); try done.
  match goal with H : (match ?ev with _ => _ end) = Ok _ |- _ => destruct ev end; carl_simpl; try done.
  - by apply keyed_insert.
  - unfold build_transition in H. carl_simpl. apply keyed_insert; [done|]. simpl. by apply Hk.
  - unfold build_evidence in H. carl_simpl. apply keyed_insert; [done|]. simpl. by apply Hk.
Qed.

Lemma build_fold_keyed start last es t t' :
  keyed t -> try_fold (build_operation start last) t es = Ok t' -> keyed t'.
Proof. intros Hk. apply try_fold_inv; [|done]. intros. by eapply build_operation_keyed. Qed.

(** The previous checkpoint stands for the table it was made from. *)
Lemma previous_operations_same prev table :
  keyed table -> (forall id ob, table !! id = Some ob -> is_resolved ob.(ob_checkpoint).(oc_status) = true) ->
  prev.(ck_operations) = ob_checkpoint <$> btree_values table ->
  same_table (previous_operations (Some prev)) table.
Proof.
  intros Hk Hres Hops id. unfold previous_operations.
  assert (NoDup (oc_operation_id <$> prev.(ck_operations))) as Hnd.
  { rewrite Hops, keyed_ids by done. apply strict_NoDup, btree_iter_keys. }
  destruct (foldl_insert_lookup oc_operation_id (fun operation =>
    {| ob_checkpoint := operation; ob_last_transition_sequence := prev.(source_sequence_end);
       ob_evidence := from_consumed operation.(oc_evidence_sequences) |}) prev.(ck_operations)
    (∅ : gmap OperationId _) Hnd) as [Hin Hout].
  destruct (table !! id) as [ob|] eqn:Hob.
  - specialize (Hin ob.(ob_checkpoint)). rewrite (Hk _ _ Hob) in Hin. rewrite Hin.
    + simpl. split; [done|]. left. by eapply Hres.
    + rewrite Hops. apply elem_of_checkpoints. eauto.
  - rewrite Hout, lookup_empty; [done|]. rewrite Hops, keyed_ids by done.
    intros ([id' ob] & -> & Hin')%list_elem_of_fmap. apply elem_of_btree_iter in Hin'. simpl in *. congruence.
Qed.

(** Inside the range its end is irrelevant. *)
Lemma build_operation_end start last last' t env :
  env.(sequence) <= last -> env.(sequence) <= last' ->
  build_operation start last t env = build_operation start last' t env.
Proof.
  intros Hl Hl'. unfold build_operation. destruct (event env); try done.
  match goal with |- (match ?ev with _ => _ end) = _ => destruct ev end; try done.
  unfold build_transition. destruct (t !! operation_id); [|done]. simpl.
  assert (forall l, existsb (fun s => (s <? start) || (last <? s) || (env.(sequence) <=? s)) l
                = existsb (fun s => (s <? start) || (last' <? s) || (env.(sequence) <=? s)) l) as ->; [|done].
  intros l. induction l as [|s l IH]; simpl; [done|]. rewrite IH. f_equal. lia.
Qed.

Lemma build_fold_end start last last' es t :
  Forall (fun e => e.(sequence) <= last) es -> last <= last' ->
  try_fold (build_operation start last) t es = try_fold (build_operation start last') t es.
Proof.
  intros Hes Hl. revert t. induction Hes as [|env es Henv _ IH]; intros t; [done|]. simpl.
  rewrite (build_operation_end start last last') by lia.
  destruct (build_operation start last' t env); simpl; auto.
Qed.

Lemma same_table_checkpoints t1 t2 :
  same_table t1 t2 -> ob_checkpoint <$> btree_values t1 = ob_checkpoint <$> btree_values t2.
Proof.
  intros H. rewrite <-!btree_values_fmap. f_equal. apply map_eq. intros id. rewrite !lookup_fmap.
  specialize (H id). destruct (t1 !! id), (t2 !! id); try done. simpl. by destruct H as [-> _].
Qed.

(** Closing the table, in terms of its checkpoints. *)
Definition close_table (ops : list OperationCheckpoint) : checked (list OperationCheckpoint) :=
  _ ← reject (existsb (fun o => negb (is_resolved o.(oc_status))) ops) CheckpointError.UnpairedOperation;
  Ok ops.

Lemma existsb_fmap {A B} (f : A -> B) (p : B -> bool) l :
  existsb p (f <$> l) = existsb (fun x => p (f x)) l.
Proof. induction l as [|x l IH]; [done|]. rewrite fmap_cons. simpl. by rewrite IH. Qed.

Lemma build_operations_close previous es start last :
  build_operations previous es start last
  = (table ← try_fold (build_operation start last) (previous_operations previous) es;
     close_table (ob_checkpoint <$> btree_values table)).
Proof.
  unfold build_operations, close_table. destruct (try_fold _ _ es) as [t|]; simpl; [|done].
  by rewrite existsb_fmap.
Qed.

(** C23: incremental checkpoints lose nothing.  Continuing from the previous
    checkpoint with the events since then gives the same table, or the same
    error, as building it from the whole journal, although the previous
    checkpoint keeps neither the recorded evidence nor the transition times. *)
Theorem incremental_checkpoint_agrees prev es1 es2 start last :
  build_operations None es1 start prev.(source_sequence_end) = Ok prev.(ck_operations) ->
  Forall (fun e => e.(sequence) <= prev.(source_sequence_end)) es1 ->
  prev.(source_sequence_end) <= last ->
  build_operations (Some prev) es2 start last = build_operations None (es1 ++ es2) start last.
Proof.
  intros Hb Hes Hl. rewrite build_operations_close in Hb.
  rewrite (build_operations_close (Some prev)), (build_operations_close None). carl_simpl.
  match goal with Hf : try_fold _ _ es1 = Ok ?t |- _ => rename t into table; rename Hf into Hfold end.
  unfold close_table in *. carl_simpl.
  assert (same_table (previous_operations (Some prev)) table) as Hsame.
  { apply previous_operations_same; [|intros id ob Hob|done].
    - eapply build_fold_keyed; [|exact Hfold]. apply keyed_empty.
    - match goal with Hf : Forall _ (_ <$> _) |- _ => rewrite Forall_forall in Hf;
        specialize (Hf (ob_checkpoint ob)) end.
      match goal with Hf : _ -> negb _ = false |- _ => apply negb_false_iff, Hf end.
      apply elem_of_checkpoints. eauto. }
  rewrite (build_fold_end _ _ last) in Hfold by done.
  rewrite try_fold_app. simpl in Hfold |- *. rewrite Hfold. simpl.
  pose proof (same_table_fold start last es2 _ _ Hsame) as Hres.
  unfold previous_operations in Hres.
  destruct (try_fold _ _ es2) as [t1|e1], (try_fold _ table es2) as [t2|e2]; simpl in Hres |- *;
    try done; [|congruence]. by rewrite (same_table_checkpoints _ _ Hres).
Qed.

(** ** The normal form is canonical *)

#[export] Instance WorkEvidence_ord_laws : OrdLaws WorkEvidence.
Proof. apply ord_by_laws. intros [] [] [=]. by subst. Qed.
#[export] Instance DecisionRecord_ord_laws : OrdLaws DecisionRecord.
Proof. apply ord_by_laws. intros [] [] [=]. by subst. Qed.
#[export] Instance ExactIdentifier_ord_laws : OrdLaws ExactIdentifier.
Proof. apply ord_by_laws. intros [] [] [=]. by subst. Qed.
#[export] Instance ProcessCheckpoint_ord_laws : OrdLaws ProcessCheckpoint.
Proof. apply ord_by_laws. intros [] [] [=]. by subst. Qed.

(** Evidence is ordered by all of its fields. *)
#[export] Instance EvidenceRef_ord : Ord EvidenceRef := ord_by evidence_key.
#[export] Instance EvidenceRef_ord_laws : OrdLaws EvidenceRef.
Proof. apply ord_by_laws. intros [] [] [=]. by subst. Qed.

Lemma normalize_evidence_idemp l : normalize_evidence (normalize_evidence l) = normalize_evidence l.
Proof. apply (btree_set_idemp (A := EvidenceRef)). Qed.

Lemma normalize_work_item_idemp w : normalize_work_item (normalize_work_item w) = normalize_work_item w.
Proof.
  unfold normalize_work_item, normalize_strings. simpl. by rewrite !dedup_sort_idemp.
Qed.

Lemma fmap_id_on {A} (f : A -> A) (l : list A) : (forall x, x ∈ l -> f x = x) -> f <$> l = l.
Proof.
  intros H. rewrite <-(list_fmap_id l) at 2. apply list_fmap_ext. intros i x Hi.
  apply H, list_elem_of_lookup. eauto.
Qed.

Lemma normalize_work_idemp l : normalize_work (normalize_work l) = normalize_work l.
Proof.
  unfold normalize_work.
  rewrite (fmap_id_on normalize_work_item (dedup _)), dedup_sort_idemp; [done|].
  intros w (w' & -> & _)%elem_of_btree_set%list_elem_of_fmap. apply normalize_work_item_idemp.
Qed.

Definition normalize_clause (clause : ClauseEvidence) : ClauseEvidence :=
  {| ce_clause_id := clause.(ce_clause_id); ce_evidence := normalize_evidence clause.(ce_evidence) |}.

Lemma normalize_clause_idemp c : normalize_clause (normalize_clause c) = normalize_clause c.
Proof. unfold normalize_clause. simpl. by rewrite normalize_evidence_idemp. Qed.

Lemma normalize_clauses_idemp l :
  sort_by_key ce_clause_id (normalize_clause <$> sort_by_key ce_clause_id (normalize_clause <$> l))
  = sort_by_key ce_clause_id (normalize_clause <$> l).
Proof.
  rewrite (fmap_id_on normalize_clause), sort_by_key_idemp; [done|].
  unfold sort_by_key. intros c Hc. rewrite elem_of_sort_by, list_elem_of_fmap in Hc.
  destruct Hc as (c' & -> & _). apply normalize_clause_idemp.
Qed.

Lemma normalize_idemp c : normalize (normalize c) = normalize c.
Proof.
  unfold normalize at 1. simpl. rewrite normalize_work_idemp, sort_by_key_idemp.
  fold normalize_clause. rewrite (normalize_clauses_idemp (ck_verification c)).
  unfold normalize_strings. rewrite !dedup_sort_idemp. done.
Qed.

(** Checkpoints that differ only in the order and repetition of what the code
    treats as sets. *)
Record same_content (c d : CanonicalCheckpoint) : Prop := {
  sc_scalars :
    (c.(ck_schema_version), c.(ck_checkpoint_id), c.(ck_task_id), c.(ck_contract), c.(repository),
     c.(next_objective), c.(provider), c.(compaction_generation), c.(source_sequence_start),
     c.(source_sequence_end), c.(previous_digest))
    = (d.(ck_schema_version), d.(ck_checkpoint_id), d.(ck_task_id), d.(ck_contract), d.(repository),
       d.(next_objective), d.(provider), d.(compaction_generation), d.(source_sequence_start),
       d.(source_sequence_end), d.(previous_digest));
  sc_work : same_elements (normalize_work_item <$> c.(completed_work))
                          (normalize_work_item <$> d.(completed_work));
  sc_decisions : same_elements c.(decisions) d.(decisions);
  sc_identifiers : same_elements c.(exact_identifiers) d.(exact_identifiers);
  sc_processes : same_elements c.(running_processes) d.(running_processes);
  sc_approvals : same_elements c.(pending_approval_digests) d.(pending_approval_digests);
  sc_steering : same_elements c.(pending_steering_digests) d.(pending_steering_digests);
  sc_deliveries : same_elements c.(uncertain_delivery_digests) d.(uncertain_delivery_digests);
  sc_blockers : same_elements c.(blockers) d.(blockers);
  sc_operations : NoDup (oc_operation_id <$> c.(ck_operations)) /\ c.(ck_operations) ≡ₚ d.(ck_operations);
  sc_verification : NoDup (ce_clause_id <$> c.(ck_verification))
    /\ normalize_clause <$> c.(ck_verification) ≡ₚ normalize_clause <$> d.(ck_verification)
}.

Lemma dedup_sort_same {A} `{Ho : Ord A, !OrdLaws A, !EqDecision A} (l k : list A) :
  same_elements l k -> dedup (sort l) = dedup (sort k).
Proof. apply btree_set_proper. Qed.

Lemma normalize_same_content c d : same_content c d -> normalize c = normalize d.
Proof.
  intros [Hs ? ? ? ? ? ? ? ? [Hnd Hops] [Hnv Hver]]. injection Hs as ? ? ? ? ? ? ? ? ? ? ?.
  unfold normalize, normalize_work, normalize_strings. f_equal; try done.
  all: try by apply dedup_sort_same.
  - by apply sort_by_key_perm.
  - apply sort_by_key_perm; [|done]. by rewrite <-list_fmap_compose.
Qed.

Section CanonicalDigest.
Context (sha256 : bytes -> Sha256Digest) (to_vec : CanonicalCheckpoint -> option bytes).

(** digests are canonical.  Two checkpoints that differ only in the order and
    repetition of their collections have the same normal form and the same
    digest, whatever the hash and the serializer are, and normalizing a
    checkpoint does not change its digest. *)
Theorem checkpoint_digest_canonical c d :
  same_content c d ->
  normalize c = normalize d
  /\ CanonicalCheckpoint_digest sha256 to_vec c = CanonicalCheckpoint_digest sha256 to_vec d
  /\ CanonicalCheckpoint_digest sha256 to_vec (normalize c) = CanonicalCheckpoint_digest sha256 to_vec c.
Proof.
  intros H%normalize_same_content. unfold CanonicalCheckpoint_digest, canonical_bytes.
  by rewrite normalize_idemp, H.
Qed.
End CanonicalDigest.

(** *** What the builder produces is already in normal form *)

Definition decisions_keyed (m : gmap str DecisionRecord) : Prop :=
  forall id d, m !! id = Some d -> d.(dr_id) = id.

Lemma decisions_keyed_insert m d : decisions_keyed m -> decisions_keyed (<[d.(dr_id) := d]> m).
Proof. intros Hm id d' [[<- <-]|[_ ?]]%lookup_insert_Some; auto. Qed.

Lemma merge_decisions_sound previous ds merged :
  merge_decisions previous ds = Ok merged ->
  exists m, decisions_keyed m /\ merged = btree_values m.
Proof.
  unfold merge_decisions. intros H. carl_simpl. eexists. split; [|done].
  match goal with Hf : try_fold _ _ ds = Ok _ |- _ => revert Hf; apply try_fold_inv end.
  - unfold merge_decision. intros ? d ? _ Hm Hd. carl_simpl. by apply decisions_keyed_insert.
  - assert (decisions_keyed ∅) as Hempty by (intros ? ? Hl; by rewrite lookup_empty in Hl).
    destruct previous as [p|]; [|done]. generalize dependent (∅ : gmap str DecisionRecord).
    induction (decisions p) as [|d l IH]; intros m Hm; simpl; [done|].
    by apply IH, decisions_keyed_insert.
Qed.

Lemma keyed_values_strict m :
  decisions_keyed m -> StronglySorted ord_lt (btree_values m).
Proof.
  intros Hm. pose proof (btree_iter_keys m) as Hs. unfold btree_values.
  assert (forall id d, (id, d) ∈ btree_iter m -> d.(dr_id) = id) as Hk
    by (intros id d ?%elem_of_btree_iter; by apply Hm).
  induction (btree_iter m) as [|[id d] l IH]; [constructor|]. rewrite !fmap_cons in *.
  apply StronglySorted_inv in Hs as [Hs Hlt]. constructor; [apply IH; [done|]; intros; apply Hk; set_solver|].
  rewrite Forall_fmap in *. rewrite Forall_fmap in Hlt. apply Forall_forall. intros [id' d'] Hin.
  rewrite Forall_forall in Hlt. specialize (Hlt _ Hin). simpl in *. unfold ord_lt in *. unfold cmp, DecisionRecord_ord, ord_by.
  rewrite !cmp_pair. rewrite (Hk id d), (Hk id' d') by set_solver. by rewrite Hlt.
Qed.

Lemma merged_decisions_normal previous ds merged :
  merge_decisions previous ds = Ok merged -> dedup (sort merged) = merged.
Proof.
  intros (m & Hm & ->)%merge_decisions_sound. by apply (btree_set_id (A := DecisionRecord)), keyed_values_strict.
Qed.

Lemma previous_operations_keyed previous : keyed (previous_operations previous).
Proof.
  unfold previous_operations. destruct previous as [p|]; [|apply keyed_empty].
  generalize (source_sequence_end p) as last. intros last.
  assert (forall m, keyed m -> keyed (foldl (fun m operation =>
    <[operation.(oc_operation_id) :=
      {| ob_checkpoint := operation; ob_last_transition_sequence := last;
         ob_evidence := from_consumed operation.(oc_evidence_sequences) |}]> m) m p.(ck_operations))) as H.
  { induction (ck_operations p) as [|o l IH]; intros m Hm; simpl; [done|]. apply IH. by apply keyed_insert. }
  apply H, keyed_empty.
Qed.

(** The table of a checkpoint: one entry per operation, in order, all resolved. *)
Lemma build_operations_sound previous es start last ops :
  build_operations previous es start last = Ok ops ->
  StronglySorted ord_lt (oc_operation_id <$> ops) /\ Forall (fun o => is_resolved o.(oc_status) = true) ops.
Proof.
  rewrite build_operations_close. unfold close_table. intros H. carl_simpl. split.
  - rewrite keyed_ids; [apply btree_iter_keys|].
    match goal with Hf : try_fold _ _ es = Ok _ |- _ => eapply build_fold_keyed; [|exact Hf] end.
    apply previous_operations_keyed.
  - eapply Forall_impl; [eassumption|]. intros o. apply negb_false_iff.
Qed.

Lemma verification_normal contract :
  sort_by_key ce_clause_id (normalize_clause <$> verification_from_contract contract)
  = verification_from_contract contract.
Proof.
  unfold verification_from_contract.
  assert ((fun clause => {| ce_clause_id := clause.(clause_id);
                            ce_evidence := normalize_evidence clause.(clause_evidence) |})
          <$> contract.(clauses)
          = normalize_clause <$> ((fun clause => {| ce_clause_id := clause.(clause_id);
                                                    ce_evidence := clause.(clause_evidence) |})
                                  <$> contract.(clauses))) as ->
    by by rewrite <-list_fmap_compose.
  apply normalize_clauses_idemp.
Qed.

Section Built.
Context (sha256 : bytes -> Sha256Digest) (to_vec : CanonicalCheckpoint -> option bytes).

(** The checkpoint [build] assembles from the parts it has computed. *)
Definition assembled (input : CheckpointBuildInput) (digest : option str) (ds : list DecisionRecord)
    (ops : list OperationCheckpoint) (start last : Z) : CanonicalCheckpoint :=
  let snapshot := input.(bi_snapshot) in
  let previous := input.(bi_previous_checkpoint) in
  {| ck_schema_version := CHECKPOINT_SCHEMA_VERSION;
     ck_checkpoint_id := input.(bi_checkpoint_id);
     ck_task_id := snapshot.(task_id);
     ck_contract := snapshot.(contract);
     completed_work :=
       normalize_work (match previous with Some checkpoint => checkpoint.(completed_work) | None => [] end
                       ++ input.(bi_completed_work));
     decisions := ds;
     exact_identifiers := merge_identifiers previous input.(bi_exact_identifiers);
     ck_operations := ops;
     repository := input.(bi_repository);
     running_processes := dedup (sort input.(bi_running_processes));
     pending_approval_digests := normalize_strings input.(bi_pending_approval_digests);
     pending_steering_digests := normalize_strings input.(bi_pending_steering_digests);
     uncertain_delivery_digests := normalize_strings input.(bi_uncertain_delivery_digests);
     ck_verification := verification_from_contract snapshot.(contract);
     next_objective := input.(bi_next_objective);
     blockers := normalize_strings input.(bi_blockers);
     provider := input.(bi_provider);
     compaction_generation := input.(bi_compaction_generation);
     source_sequence_start := start;
     source_sequence_end := last;
     previous_digest := digest |}.

(** What a successful run of [build] has checked. *)
Record build_run (input : CheckpointBuildInput) (digest : option str) (ds : list DecisionRecord)
    (ops : list OperationCheckpoint) (start last : Z) : Prop := {
  br_order : validate_event_order (sort_by_key sequence input.(bi_events)) input.(bi_snapshot)
               input.(bi_previous_checkpoint) = Ok tt;
  br_digest : match input.(bi_previous_checkpoint) with
              | Some previous => exists d, digest = Some d
                  /\ CanonicalCheckpoint_digest sha256 to_vec previous = Ok d
              | None => digest = None
              end;
  br_generation : validate_generation input.(bi_compaction_generation) input.(bi_previous_checkpoint) = Ok tt;
  br_range : source_range input.(bi_previous_checkpoint) (sort_by_key sequence input.(bi_events))
             = Ok (start, last);
  br_decisions : merge_decisions input.(bi_previous_checkpoint) input.(bi_decisions) = Ok ds;
  br_required : require_identifiers
                  (merge_identifiers input.(bi_previous_checkpoint) input.(bi_exact_identifiers))
                  input.(bi_required_identifiers) = Ok tt;
  br_operations : build_operations input.(bi_previous_checkpoint)
                    (sort_by_key sequence input.(bi_events)) start last = Ok ops;
  br_statuses : Forall (fun o => operation_status input.(bi_snapshot) o.(oc_operation_id)
                                 = Some o.(oc_status)) ops;
  br_structure : validate_structure (assembled input digest ds ops start last) = Ok tt;
  br_artifacts : validate_artifact_contents sha256 (assembled input digest ds ops start last)
                   input.(bi_artifact_contents) = Ok tt
}.

Lemma build_inv input c :
  build sha256 to_vec input = Ok c ->
  exists digest ds ops start last, build_run input digest ds ops start last
    /\ c = assembled input digest ds ops start last.
Proof.
  unfold build. intros H. carl_simpl.
  match goal with Hr : source_range _ _ = Ok ?r |- _ => destruct r as [start last] end.
  carl_simpl.
  match goal with Hd : (match bi_previous_checkpoint input with _ => _ end) = Ok ?d,
    Hm : merge_decisions _ _ = Ok ?ds, Hb : build_operations _ _ _ _ = Ok ?ops |- _ =>
    exists d, ds, ops, start, last; rename Hd into Hdigest end.
  split; [|reflexivity]. constructor; try done.
  - destruct (bi_previous_checkpoint input); carl_simpl; eauto.
  - eapply Forall_impl; [eassumption|]. intros o Ho. simpl in Ho. by carl_simpl.
Qed.
Lemma assembled_normal input digest ds ops start last :
  merge_decisions input.(bi_previous_checkpoint) input.(bi_decisions) = Ok ds ->
  StronglySorted ord_lt (oc_operation_id <$> ops) ->
  normalize (assembled input digest ds ops start last) = assembled input digest ds ops start last.
Proof.
  intros Hds Hops. unfold normalize, assembled. simpl. f_equal.
  - apply normalize_work_idemp.
  - by eapply merged_decisions_normal.
  - apply (btree_set_idemp (A := ExactIdentifier)).
  - apply sort_by_key_id. by apply strict_le.
  - apply dedup_sort_idemp.
  - apply dedup_sort_idemp.
  - apply dedup_sort_idemp.
  - apply dedup_sort_idemp.
  - apply verification_normal.
  - apply dedup_sort_idemp.
Qed.

(** a built checkpoint is canonical and complete.  It is already in normal
    form and passes its own validation; every operation in it is resolved and has
    the status of the snapshot; every required identifier is in it; every
    artifact it refers to was supplied, with contents that have the digest and
    that the secret filter accepts. *)
Theorem built_checkpoint_valid input c :
  build sha256 to_vec input = Ok c ->
  normalize c = c /\ validate_structure c = Ok tt
  /\ Forall (fun o => is_resolved o.(oc_status) = true
       /\ operation_status input.(bi_snapshot) o.(oc_operation_id) = Some o.(oc_status)) c.(ck_operations)
  /\ Forall (fun i => i ∈ c.(exact_identifiers)) input.(bi_required_identifiers)
  /\ Forall (fun digest => exists content, input.(bi_artifact_contents) !! digest = Some content
       /\ Sha256Digest_display (sha256 content) = digest /\ inspect content = Ok tt) (artifact_digests c).
Proof.
  intros (digest & ds & ops & start & last & Hrun & ->)%build_inv. destruct Hrun.
  destruct (build_operations_sound _ _ _ _ _ br_operations0) as [Hsorted Hres].
  split; [by eapply assembled_normal|]. split; [done|]. split; [|split].
  - simpl. rewrite Forall_forall in *. auto.
  - unfold require_identifiers in *. simpl. case_match; [|done]. carl_simpl.
    eapply Forall_impl; [eassumption|]. intros i Hi. simpl in Hi. carl_simpl.
    by rewrite elem_of_btree_set in Hi.
  - unfold validate_artifact_contents in *. carl_simpl. eapply Forall_impl; [eassumption|].
    intros digest' Hd. unfold validate_artifact in Hd. carl_simpl.
    match goal with Hc : _ !! _ = Some ?content |- _ => exists content end.
    repeat case_match; carl_simpl; done.
Qed.
End Built.

(** *** Chains of checkpoints *)

Lemma validate_operations_ok start last ids ops ids' :
  try_fold (validate_operation start last) ids ops = Ok ids' ->
  NoDup (oc_operation_id <$> ops) /\ Forall (fun o => (o.(oc_operation_id) ∉ ids)) ops
  /\ Forall (fun o => is_resolved o.(oc_status) = true /\ o.(oc_evidence_sequences) <> []
                      /\ StronglySorted Z.lt o.(oc_evidence_sequences)) ops.
Proof.
  revert ids. induction ops as [|o ops IH]; intros ids H; simpl in H; [by repeat constructor|].
  apply bind_ok in H as (ids1 & Ho & H). apply IH in H as (Hnd & Hnin & Hres).
  unfold validate_operation in Ho. carl_simpl. rewrite windows2_geb_strict, is_empty_false in *.
  rewrite fmap_cons. split; [|split; constructor; auto].
  - constructor; [|done]. intros (o' & Heq & Hin)%list_elem_of_fmap.
    rewrite Forall_forall in Hnin. apply (Hnin o' Hin). set_solver.
  - eapply Forall_impl; [exact Hnin|]. set_solver.
Qed.

Lemma digest_ok_operations sha256 to_vec p d :
  CanonicalCheckpoint_digest sha256 to_vec p = Ok d ->
  NoDup (oc_operation_id <$> p.(ck_operations))
  /\ Forall (fun o => is_resolved o.(oc_status) = true) p.(ck_operations).
Proof.
  unfold CanonicalCheckpoint_digest, canonical_bytes, validate_structure. intros H. carl_simpl.
  match goal with Hf : try_fold _ _ _ = Ok _ |- _ => apply validate_operations_ok in Hf as (Hnd & _ & Hres) end.
  simpl in *. rewrite fmap_sort_by_key in Hnd. unfold sort in Hnd. rewrite sort_by_perm in Hnd.
  split; [done|]. rewrite Forall_forall in *. intros o Ho. by apply Hres, elem_of_sort_by.
Qed.

(** No event changes a resolved operation. *)
Lemma build_operation_keeps start last t env t' id ob :
  build_operation start last t env = Ok t' -> t !! id = Some ob ->
  is_resolved ob.(ob_checkpoint).(oc_status) = true -> t' !! id = Some ob.
Proof.
  intros H Hob Hres. unfold build_operation in H. destruct (event env); try done.
  match goal with H : (match ?ev with _ => _ end) = Ok _ |- _ => destruct ev end; carl_simpl; try done.
  - rewrite lookup_insert_ne; [done|]. intros ->. congruence.
  - unfold build_transition in H. carl_simpl. rewrite lookup_insert_ne; [done|]. intros ->.
    simplify_eq. by rewrite resolved_no_transition in *.
  - unfold build_evidence in H. carl_simpl. rewrite lookup_insert_ne; [done|]. intros ->.
    simplify_eq. by rewrite resolved_no_evidence in *.
Qed.

Lemma build_operations_keep p es start last ops o :
  NoDup (oc_operation_id <$> p.(ck_operations)) ->
  build_operations (Some p) es start last = Ok ops -> o ∈ p.(ck_operations) ->
  is_resolved o.(oc_status) = true -> o ∈ ops.
Proof.
  intros Hnd H Ho Hres. rewrite build_operations_close in H. unfold close_table in H. carl_simpl.
  destruct (foldl_insert_lookup oc_operation_id (fun operation =>
    {| ob_checkpoint := operation; ob_last_transition_sequence := p.(source_sequence_end);
       ob_evidence := from_consumed operation.(oc_evidence_sequences) |}) p.(ck_operations)
    (∅ : gmap OperationId _) Hnd) as [Hin _]. specialize (Hin o Ho).
  match goal with Hf : try_fold _ _ es = Ok ?t |- _ =>
    assert (t !! o.(oc_operation_id) = Some
      {| ob_checkpoint := o; ob_last_transition_sequence := p.(source_sequence_end);
         ob_evidence := from_consumed o.(oc_evidence_sequences) |}) as Ht end.
  { eapply (try_fold_inv _ (fun t => t !! o.(oc_operation_id) = Some _)); [|exact Hin|eassumption].
    intros t env t' _ Ht Hb. by eapply build_operation_keeps. }
  apply elem_of_checkpoints. eauto.
Qed.

Lemma event_order_ok es snapshot previous prior prior' :
  try_fold (check_event_order snapshot previous) prior es = Ok prior' ->
  Forall (fun e => e.(sequence) <> 0
    /\ (forall p, previous = Some p -> p.(source_sequence_end) < e.(sequence))
    /\ e.(ee_session_id) = snapshot.(session_id)
    /\ exists ev, e.(event) = Event.TaskLifecycle snapshot.(task_id) ev) es.
Proof.
  revert prior. induction es as [|e es IH]; intros prior H; simpl in H; [constructor|].
  apply bind_ok in H as (prior1 & He & H). constructor; [|by eapply IH].
  unfold check_event_order in He. carl_simpl. repeat (case_match; try done). carl_simpl.
  split; [lia|]. split; [|split; [done|eauto]]. intros p ->. simpl in *. lia.
Qed.

Lemma merge_decisions_keep p ds merged d :
  NoDup (dr_id <$> p.(decisions)) -> merge_decisions (Some p) ds = Ok merged ->
  d ∈ p.(decisions) -> d ∈ merged.
Proof.
  intros Hnd H Hd. unfold merge_decisions in H. carl_simpl.
  destruct (foldl_insert_lookup dr_id (fun d => d) p.(decisions) (∅ : gmap str _) Hnd) as [Hin _].
  specialize (Hin d Hd). apply elem_of_btree_values. exists d.(dr_id).
  eapply (try_fold_inv _ (fun t => t !! d.(dr_id) = Some d)); [|exact Hin|eassumption].
  intros m d' m' _ Hm Hd'. unfold merge_decision in Hd'. carl_simpl.
  destruct (decide (d'.(dr_id) = d.(dr_id))) as [Heq|Hne]; [|by rewrite lookup_insert_ne].
  rewrite Heq, Hm in *. simpl in *. carl_simpl. by rewrite lookup_insert_eq.
Qed.

Lemma sorted_last_bound (es : list EventEnvelope) e :
  StronglySorted ord_le (sequence <$> es) -> last es = Some e ->
  Forall (fun e' => e'.(sequence) <= e.(sequence)) es.
Proof.
  intros Hs Hl. destruct es as [|e' es _] using rev_ind; [done|].
  rewrite last_snoc in Hl. simplify_eq. rewrite fmap_snoc, strongly_sorted_snoc in Hs.
  destruct Hs as [_ Hs]. rewrite Forall_fmap in Hs. apply Forall_app. split; [|by constructor].
  eapply Forall_impl; [exact Hs|]. intros e' He. simpl in He. by apply Z.compare_le_iff in He.
Qed.

Lemma source_range_extends p es start last :
  source_range (Some p) (sort_by_key sequence es) = Ok (start, last) ->
  Forall (fun e => p.(source_sequence_end) < e.(sequence)) es ->
  start = p.(source_sequence_start) /\ p.(source_sequence_end) <= last
  /\ Forall (fun e => e.(sequence) <= last) es.
Proof.
  intros H Hes. assert (forall P, Forall P (sort_by_key sequence es) <-> Forall P es) as Hp
    by (intros; apply Forall_sort_by).
  unfold source_range in H. carl_simpl. case_match; simplify_eq/=. split; [done|].
  destruct (list.last (sort_by_key sequence es)) as [e|] eqn:He; simplify_eq/=.
  - pose proof (sorted_last_bound _ _ (sort_by_key_sorted sequence es) He) as Hb.
    split; [|by apply Hp]. apply Hp in Hes. rewrite Forall_forall in Hes.
    apply last_Some_elem_of in He. specialize (Hes e He). lia.
  - split; [lia|]. apply Hp. apply last_None in He as ->. constructor.
Qed.

Section Chain.
Context (sha256 : bytes -> Sha256Digest) (to_vec : CanonicalCheckpoint -> option bytes).

(** a checkpoint built on a previous one extends it.  It carries the previous
    one's digest, the next generation and the same start of the source range,
    its events all lie after the previous range and inside its own, and it keeps
    every identifier, decision, piece of work and operation of the previous one. *)
Theorem checkpoint_extends_previous input p c :
  build sha256 to_vec input = Ok c -> input.(bi_previous_checkpoint) = Some p ->
  NoDup (dr_id <$> p.(decisions)) ->
  (exists d, CanonicalCheckpoint_digest sha256 to_vec p = Ok d /\ c.(previous_digest) = Some d)
  /\ c.(compaction_generation) = p.(compaction_generation) + 1 /\ c.(compaction_generation) <= u32_max
  /\ c.(source_sequence_start) = p.(source_sequence_start)
  /\ p.(source_sequence_end) <= c.(source_sequence_end)
  /\ Forall (fun e => p.(source_sequence_end) < e.(sequence) <= c.(source_sequence_end)) input.(bi_events)
  /\ (forall i, i ∈ p.(exact_identifiers) -> i ∈ c.(exact_identifiers))
  /\ (forall d, d ∈ p.(decisions) -> d ∈ c.(decisions))
  /\ (forall w, w ∈ p.(completed_work) -> normalize_work_item w ∈ c.(completed_work))
  /\ (forall o, o ∈ p.(ck_operations) -> o ∈ c.(ck_operations)).
Proof.
  intros (digest & ds & ops & start & last & [Hord Hdig Hgen Hrange Hds _ Hops _ _ _] & ->)%build_inv Hp Hnd.
  rewrite Hp in *. simpl. rewrite Hp. destruct Hdig as (d & -> & Hd).
  assert (Forall (fun e => p.(source_sequence_end) < e.(sequence)) input.(bi_events)) as Hafter.
  { unfold validate_event_order in Hord. carl_simpl.
    match goal with Hf : try_fold _ _ _ = Ok _ |- _ => apply event_order_ok in Hf; rename Hf into Hall end.
    rewrite Forall_forall in *. intros e He. apply Hall; [by apply elem_of_sort_by|done]. }
  destruct (source_range_extends _ _ _ _ Hrange Hafter) as (-> & Hend & Hin).
  unfold validate_generation in Hgen. case_match eqn:Hg; [|done].
  destruct (checked_add _ _ _) as [next|] eqn:Hn; [|done]. carl_simpl. apply Z.eqb_eq in Hg.
  destruct (digest_ok_operations _ _ _ _ Hd) as [Hids Hres].
  split; [eauto|]. split; [lia|]. split; [lia|]. do 2 (split; [done|]).
  split; [rewrite Forall_forall in *; auto|]. split; [|split; [|split]].
  - intros i Hi. unfold merge_identifiers. apply elem_of_btree_set, elem_of_app. auto.
  - intros d' Hd'. by eapply merge_decisions_keep.
  - intros w Hw. unfold normalize_work. apply (elem_of_btree_set (A := WorkEvidence)).
    apply list_elem_of_fmap. exists w. split; [done|]. apply elem_of_app. auto.
  - intros o Ho. eapply build_operations_keep; [done..|]. rewrite Forall_forall in Hres. auto.
Qed.
End Chain.

(** *** Size and secrets *)

Section Limits.
Context (to_vec : CanonicalCheckpoint -> option bytes).

(** the size limit of checkpoints is the scan limit of the secret filter.  A
    checkpoint of more than one mebibyte is refused although eight are allowed,
    and it is refused as secret material although it need not contain any. *)
Theorem checkpoint_scan_limit c bytes :
  validate_structure (normalize c) = Ok tt -> to_vec (normalize c) = Some bytes ->
  (forall b, canonical_bytes to_vec c = Ok b -> Zlen b <= MAX_SCAN_BYTES)
  /\ (MAX_SCAN_BYTES < Zlen bytes <= MAX_CHECKPOINT_BYTES ->
      canonical_bytes to_vec c = Err CheckpointError.SecretRejected).
Proof.
  intros Hv Hb. unfold canonical_bytes. rewrite Hv, Hb. simpl. split.
  - intros b H. unfold inspect in H. carl_simpl. lia.
  - intros [Hlo Hhi]. rewrite (proj2 (Z.ltb_ge _ _)) by done. simpl.
    unfold inspect. by rewrite (proj2 (Z.ltb_lt _ _)).
Qed.

(** What [serde_json] writes for a checkpoint: one line, that begins with the
    first field of the struct. *)
Definition writes_one_line : Prop :=
  forall c b, to_vec c = Some b ->
  exists rest, b = utf8 (schema_version_key ++ rest) /\ valid_str rest /\ Forall (fun x => x <> 10) rest.

(** no secret assignment is found in a checkpoint.  Because the serialized
    checkpoint is one line and the assignment rule looks at the first key of a
    line only, the bytes are accepted exactly when the other rules accept them,
    whatever keys and values the checkpoint contains. *)
Theorem checkpoint_assignments_unscanned c b :
  writes_one_line -> validate_structure (normalize c) = Ok tt -> to_vec (normalize c) = Some b ->
  canonical_bytes to_vec c = Ok b
  <-> Zlen b <= MAX_SCAN_BYTES /\ contains_provider_token b = false
      /\ exists text, utf8 text = b /\ valid_str text /\ is_private_key_line text = false
         /\ contains_credentialed_connection text = false.
Proof.
  intros Hw Hv Hb. unfold canonical_bytes. rewrite Hv, Hb. simpl.
  destruct (Hw _ _ Hb) as (rest & -> & Hval & Hline).
  assert (valid_str (schema_version_key ++ rest)) as Hvs by (apply Forall_app; split; [by repeat constructor|done]).
  assert (lines (schema_version_key ++ rest) = [schema_version_key ++ rest]) as Hl
    by (apply lines_single; [apply Forall_app; split; [by repeat constructor|done]|done]).
  assert (inspect (utf8 (schema_version_key ++ rest)) = Ok tt
    <-> Zlen (utf8 (schema_version_key ++ rest)) <= MAX_SCAN_BYTES
        /\ contains_provider_token (utf8 (schema_version_key ++ rest)) = false
        /\ is_private_key_line (schema_version_key ++ rest) = false
        /\ contains_credentialed_connection (schema_version_key ++ rest) = false) as Hins.
  { unfold inspect. rewrite bind_reject, Z.ltb_ge, from_utf8_complete by done.
    unfold ok_or. cbn [mbind result_bind]. unfold contains_private_key. rewrite !bind_reject, Hl.
    rewrite try_for_each_ok, Forall_singleton. unfold inspect_line. rewrite bind_reject, reject_ok.
    rewrite assignment_first_key_only. simpl. rewrite orb_false_r. naive_solver. }
  rewrite bind_reject, Z.ltb_ge. split.
  - intros [_ H]. apply bind_ok in H as ([] & H%map_err_ok & _). apply Hins in H as (? & ? & ? & ?). eauto 10.
  - intros (Hlen & Htok & text & Heq & Hvt & Hk & Hc).
    assert (text = schema_version_key ++ rest) as ->.
    { apply from_utf8_complete in Hvt. rewrite Heq, from_utf8_complete in Hvt by done. by simplify_eq. }
    split; [unfold MAX_CHECKPOINT_BYTES, MAX_SCAN_BYTES in *; lia|].
    by rewrite (proj2 Hins).
Qed.
End Limits.

(** ** Examples *)

Definition example_sha256 (b : bytes) : Sha256Digest := replicate 32 0.
Definition example_to_vec (c : CanonicalCheckpoint) : option bytes :=
  Some (utf8 (schema_version_key ++ lit "1}")).

Definition example_provider : ProviderCheckpoint :=
  {| pv_provider := lit "codex"; pv_model := lit "model"; pv_effort := as_codex_value ReasoningEffort.High;
     pv_context_id := None; observed_total_tokens := None; observed_context_window := None |}.

Definition example_identifier : ExactIdentifier := {| ei_kind := lit "path"; ei_value := lit "src/lib.rs" |}.

Definition example_input (n : nat) (events : list EventEnvelope) (generation : Z)
    (previous : option CanonicalCheckpoint) : CheckpointBuildInput :=
  {| bi_checkpoint_id := 31; bi_snapshot := example_snapshot n; bi_events := events;
     bi_completed_work := [{| we_summary := lit "tests ran"; we_event_sequences := [7; 6; 6];
                              we_artifact_digests := [] |}];
     bi_decisions := [{| dr_id := lit "d1"; dr_decision := lit "keep"; dr_rationale := lit "stable" |}];
     bi_exact_identifiers := [example_identifier]; bi_required_identifiers := [example_identifier];
     bi_repository := {| workspace_digest := example_digest; git_head := None; git_status_digest := None;
                         diff_artifact_digest := None; file_hashes := ∅ |};
     bi_running_processes := []; bi_pending_approval_digests := []; bi_pending_steering_digests := [];
     bi_uncertain_delivery_digests := []; bi_next_objective := lit "finish"; bi_blockers := [];
     bi_provider := example_provider; bi_compaction_generation := generation;
     bi_previous_checkpoint := previous; bi_artifact_contents := ∅; bi_model_narrative := None |}.

(** A first checkpoint after eight events, and one that continues from it. *)
Definition example_first : checked CanonicalCheckpoint :=
  build example_sha256 example_to_vec (example_input 8 (reverse (take 8 example_journal)) 0 None).
Definition built_or (c : CanonicalCheckpoint) (r : checked CanonicalCheckpoint) : CanonicalCheckpoint :=
  match r with Ok c => c | Err _ => c end.
Definition example_checkpoint : CanonicalCheckpoint :=
  built_or (assembled (example_input 8 [] 0 None) None [] [] 1 1) example_first.
Definition example_next_input : CheckpointBuildInput :=
  example_input 10 (drop 8 (take 10 example_journal)) 1 (Some example_checkpoint).
Definition example_next : CanonicalCheckpoint :=
  built_or example_checkpoint (build example_sha256 example_to_vec example_next_input).

Lemma example_first_builds :
  build example_sha256 example_to_vec (example_input 8 (reverse (take 8 example_journal)) 0 None)
  = Ok example_checkpoint.
Proof. vm_compute. reflexivity. Qed.

Lemma example_next_builds :
  build example_sha256 example_to_vec example_next_input = Ok example_next.
Proof. vm_compute. reflexivity. Qed.

Lemma example_structure : validate_structure (normalize example_checkpoint) = Ok tt.
Proof. vm_compute. reflexivity. Qed.

Lemma incremental_checkpoint_agrees_witness :
  build_operations (Some example_checkpoint) (drop 8 example_journal) 1 11
  = build_operations None (take 8 example_journal ++ drop 8 example_journal) 1 11.
Proof.
  apply (incremental_checkpoint_agrees example_checkpoint).
  - vm_compute. reflexivity.
  - vm_compute. repeat constructor; discriminate.
  - vm_compute. discriminate.
Defined.

Definition with_blockers (l : list str) (c : CanonicalCheckpoint) : CanonicalCheckpoint :=
  {| ck_schema_version := c.(ck_schema_version); ck_checkpoint_id := c.(ck_checkpoint_id);
     ck_task_id := c.(ck_task_id); ck_contract := c.(ck_contract);
     completed_work := c.(completed_work); decisions := c.(decisions);
     exact_identifiers := c.(exact_identifiers); ck_operations := c.(ck_operations);
     repository := c.(repository); running_processes := c.(running_processes);
     pending_approval_digests := c.(pending_approval_digests);
     pending_steering_digests := c.(pending_steering_digests);
     uncertain_delivery_digests := c.(uncertain_delivery_digests);
     ck_verification := c.(ck_verification); next_objective := c.(next_objective); blockers := l;
     provider := c.(provider); compaction_generation := c.(compaction_generation);
     source_sequence_start := c.(source_sequence_start); source_sequence_end := c.(source_sequence_end);
     previous_digest := c.(previous_digest) |}.

Lemma blockers_same_content l k c :
  same_elements l k -> NoDup (oc_operation_id <$> c.(ck_operations)) ->
  NoDup (ce_clause_id <$> c.(ck_verification)) ->
  same_content (with_blockers l c) (with_blockers k c).
Proof. intros Hlk Ho Hv. constructor; simpl; done. Qed.

Lemma no_newline (s : str) : forallb (fun x => negb (x =? 10)) s = true -> Forall (fun x => x <> 10) s.
Proof. intros H%forallb_true. eapply Forall_impl; [exact H|]. simpl. lia. Qed.

