(* ===== verification/Report.v ===== *)
(** * Epoch reports and completion decisions

    [src/runtime/task/report.rs]: the report a provider leaves at the end of an
    epoch, and the decision Carl makes of it.  [serde_json::from_str] is a
    parameter of the parser; a [HashMap] collected from an iterator is a [gmap]
    in which later entries win.

    The theorems show that completion is decided only on evidence the
    checkpoint owns, and that a claim over several operations cannot cite event
    sequences. *)
From stdpp Require Import base gmap sets list sorting strings.
From Stdlib Require Import ZArith Lia.
From S2P Require Import Prelude Ord Text Settings Policy TaskTypes Events Reducer Journal SecretFilter Checkpoint.
#[local] Open Scope list_scope.
#[local] Open Scope Z_scope.

Definition REPORT_OPEN : str := lit "<carl-epoch-report>".
Definition REPORT_CLOSE : str := lit "</carl-epoch-report>".
Definition REPORT_LIKE : str := lit "carl-epoch-report".
Definition MAX_REPORT_BYTES : Z := 64 * 1024.
Definition MAX_REPORT_TEXT_BYTES : Z := 16 * 1024.
Definition MAX_REPORT_CLAUSES : Z := 64.
Definition MAX_REPORT_IDENTIFIERS : Z := 128.
Definition MAX_REPORT_OPERATION_IDS : Z := 256.
Definition MAX_REPORT_EVIDENCE_VALUES : Z := 256.

Module EpochDisposition.
Inductive EpochDisposition : Set := Continue | Complete | Blocked.
End EpochDisposition.
Abbreviation EpochDisposition := EpochDisposition.EpochDisposition.

Record ReportedClauseEvidence := {
  rc_clause_id : str;
  rc_operation_ids : list OperationId;
  rc_event_sequences : list Z;
  rc_artifact_digests : list str
}.

Record EpochReport := {
  er_schema_version : Z;
  er_disposition : EpochDisposition;
  er_summary : str;
  er_next_objective : option str;
  er_clause_evidence : list ReportedClauseEvidence;
  er_exact_identifiers : list str
}.

Module CompletionDecision.
Inductive CompletionDecision : Set :=
| Continue (next_objective : str) | Complete | Blocked (reason : str).
End CompletionDecision.
Abbreviation CompletionDecision := CompletionDecision.CompletionDecision.

Module OperationEvidence.
Inductive OperationEvidence : Set :=
| Command (operation_id : OperationId) (completed : bool) (exit_code : option Z)
| FileChange (operation_id : OperationId) (completed : bool) (artifact_digests : list str).
End OperationEvidence.
Abbreviation OperationEvidence := OperationEvidence.OperationEvidence.

Definition OperationEvidence_operation_id (self : OperationEvidence) : OperationId :=
  match self with
  | OperationEvidence.Command operation_id _ _ | OperationEvidence.FileChange operation_id _ _ =>
    operation_id
  end.

Module ReportErrorCode.
Inductive ReportErrorCode : Set :=
| InvalidReport | UnknownClause | UnknownOperation | InsufficientEvidence | InvalidProgressInput.
End ReportErrorCode.
Abbreviation ReportErrorCode := ReportErrorCode.ReportErrorCode.

Abbreviation reported := (result ReportErrorCode).

Definition invalid_text (value : str) : bool :=
  (MAX_REPORT_TEXT_BYTES <? len value) || existsb is_control value.

Definition is_digest (value : str) : bool := is_hex64 value.

Definition validate_reported_evidence (evidence : ReportedClauseEvidence) : reported unit :=
  reject (is_empty (trim evidence.(rc_clause_id))
          || invalid_text evidence.(rc_clause_id)
          || (MAX_REPORT_OPERATION_IDS <? Zlen evidence.(rc_operation_ids))
          || (MAX_REPORT_EVIDENCE_VALUES <? Zlen evidence.(rc_event_sequences))
          || (MAX_REPORT_EVIDENCE_VALUES <? Zlen evidence.(rc_artifact_digests))
          || (0 ∈? evidence.(rc_event_sequences))
          || existsb (fun digest => negb (is_digest digest)) evidence.(rc_artifact_digests))
    ReportErrorCode.InvalidReport.

Definition validate_report (report : EpochReport) : reported unit :=
  _ ← reject (negb (report.(er_schema_version) =? 1)
              || is_empty (trim report.(er_summary))
              || invalid_text report.(er_summary)
              || (MAX_REPORT_CLAUSES <? Zlen report.(er_clause_evidence))
              || (MAX_REPORT_IDENTIFIERS <? Zlen report.(er_exact_identifiers))
              || existsb invalid_text report.(er_exact_identifiers))
        ReportErrorCode.InvalidReport;
  _ ← match report.(er_disposition), report.(er_next_objective) with
      | EpochDisposition.Continue, Some next =>
        if negb (is_empty (trim next)) && negb (invalid_text next) then Ok tt
        else Err ReportErrorCode.InvalidReport
      | EpochDisposition.Continue, None => Err ReportErrorCode.InvalidReport
      | _, Some next => reject (invalid_text next) ReportErrorCode.InvalidReport
      | _, None => Ok tt
      end;
  try_for_each validate_reported_evidence report.(er_clause_evidence).

Definition parse_epoch_report (from_str : str -> option EpochReport) (output : str)
    : reported EpochReport :=
  _ ← reject (MAX_REPORT_BYTES <? len output) ReportErrorCode.InvalidReport;
  start ← ok_or (find_str REPORT_OPEN output) ReportErrorCode.InvalidReport;
  let body_start := (start + List.length REPORT_OPEN)%nat in
  relative_end ← ok_or (find_str REPORT_CLOSE (drop body_start output)) ReportErrorCode.InvalidReport;
  let body := take relative_end (drop body_start output) in
  let suffix := drop (body_start + relative_end + List.length REPORT_CLOSE) output in
  let prefix := take start output in
  _ ← reject (contains_str REPORT_LIKE prefix || contains_str REPORT_LIKE suffix
              || negb (is_empty (trim suffix))
              || contains_str REPORT_OPEN body || contains_str REPORT_CLOSE body)
        ReportErrorCode.InvalidReport;
  report ← ok_or (from_str body) ReportErrorCode.InvalidReport;
  _ ← validate_report report;
  Ok report.

(** [collect::<BTreeSet<_>>()], used for membership only. *)
Definition canonical_artifacts (checkpoint : CanonicalCheckpoint) : list str :=
  btree_set ((checkpoint.(completed_work) ≫= we_artifact_digests)
             ++ option_list checkpoint.(repository).(diff_artifact_digest)
             ++ btree_values checkpoint.(repository).(file_hashes)).

Definition valid_normalized_evidence (evidence : OperationEvidence)
    (claimed_artifacts canonical : list str) : bool :=
  match evidence with
  | OperationEvidence.Command _ completed exit_code => completed && (exit_code =?? Some 0)
  | OperationEvidence.FileChange _ completed artifact_digests =>
    completed
    && existsb (fun digest =>
         (digest ∈? canonical) && (is_empty claimed_artifacts || (digest ∈? claimed_artifacts)))
         artifact_digests
  end.

(** The body of the loop over the operations of a claim; the state is the set
    of identifiers seen. *)
Definition validate_claimed_operation (operations : gmap OperationId OperationCheckpoint)
    (evidence : gmap OperationId OperationEvidence) (artifacts : list str)
    (claim : ReportedClauseEvidence) (operation_ids : gset OperationId) (operation_id : OperationId)
    : reported (gset OperationId) :=
  _ ← reject (bool_decide (operation_id ∈ operation_ids)) ReportErrorCode.InvalidReport;
  operation ← ok_or (operations !! operation_id) ReportErrorCode.UnknownOperation;
  normalized ← ok_or (evidence !! operation_id) ReportErrorCode.InsufficientEvidence;
  _ ← reject (negb (operation.(oc_status) =?? OperationStatus.Succeeded)
              || negb (forallb (fun sequence => sequence ∈? operation.(oc_evidence_sequences))
                         claim.(rc_event_sequences))
              || negb (valid_normalized_evidence normalized claim.(rc_artifact_digests) artifacts))
        ReportErrorCode.InsufficientEvidence;
  Ok ({[operation_id]} ∪ operation_ids).

(** The body of the loop over the claims; the state is [claimed]. *)
Definition validate_claim (clause_ids : gmap str CompletionClause)
    (operations : gmap OperationId OperationCheckpoint)
    (evidence : gmap OperationId OperationEvidence) (artifacts : list str)
    (claimed : gset str) (claim : ReportedClauseEvidence) : reported (gset str) :=
  _ ← reject (negb (is_some (clause_ids !! claim.(rc_clause_id)))) ReportErrorCode.UnknownClause;
  _ ← reject (bool_decide (claim.(rc_clause_id) ∈ claimed) || is_empty claim.(rc_operation_ids))
        ReportErrorCode.InvalidReport;
  _ ← reject (existsb (fun digest => negb (digest ∈? artifacts)) claim.(rc_artifact_digests))
        ReportErrorCode.InsufficientEvidence;
  _ ← try_fold (validate_claimed_operation operations evidence artifacts claim) ∅
        claim.(rc_operation_ids);
  Ok ({[claim.(rc_clause_id)]} ∪ claimed).

(** The loop that collects the normalized evidence. *)
Definition collect_evidence (evidence : gmap OperationId OperationEvidence) (item : OperationEvidence)
    : reported (gmap OperationId OperationEvidence) :=
  _ ← reject (is_some (evidence !! OperationEvidence_operation_id item)) ReportErrorCode.InvalidReport;
  Ok (<[OperationEvidence_operation_id item := item]> evidence).

Definition validate_claims (report : EpochReport) (checkpoint : CanonicalCheckpoint)
    (operation_evidence : list OperationEvidence) : reported (gset str) :=
  let clause_ids := foldl (fun m clause => <[clause.(clause_id) := clause]> m) (∅ : gmap str _)
                      checkpoint.(ck_contract).(clauses) in
  let operations := foldl (fun m operation => <[operation.(oc_operation_id) := operation]> m)
                      (∅ : gmap OperationId _) checkpoint.(ck_operations) in
  evidence ← try_fold collect_evidence ∅ operation_evidence;
  let artifacts := canonical_artifacts checkpoint in
  try_fold (validate_claim clause_ids operations evidence artifacts) ∅ report.(er_clause_evidence).

Definition decide_completion (report : EpochReport) (checkpoint : CanonicalCheckpoint)
    (operation_evidence : list OperationEvidence) : reported CompletionDecision :=
  _ ← validate_report report;
  claims ← validate_claims report checkpoint operation_evidence;
  match report.(er_disposition) with
  | EpochDisposition.Continue =>
    next_objective ← ok_or report.(er_next_objective) ReportErrorCode.InvalidReport;
    Ok (CompletionDecision.Continue next_objective)
  | EpochDisposition.Blocked => Ok (CompletionDecision.Blocked report.(er_summary))
  | EpochDisposition.Complete =>
    let required := btree_set (clause_id <$> filter (fun clause => clause.(required) = true)
                                               checkpoint.(ck_contract).(clauses)) in
    if forallb (fun clause_id => bool_decide (clause_id ∈ claims)) required
    then Ok CompletionDecision.Complete
    else Err ReportErrorCode.InsufficientEvidence
  end.

(** ** Properties *)

(** What a command or a file change has to show to count as evidence. *)
Definition proves_outcome (item : OperationEvidence) (claimed canonical : list str) : Prop :=
  match item with
  | OperationEvidence.Command _ completed exit_code => completed = true /\ exit_code = Some 0
  | OperationEvidence.FileChange _ completed digests =>
    completed = true
    /\ exists digest, digest ∈ digests /\ digest ∈ canonical /\ (claimed = [] \/ digest ∈ claimed)
  end.

(** A claim about a clause the checkpoint supports: it names operations, each a
    succeeded operation of the checkpoint with evidence of its outcome, and every
    event it cites is evidence of each of them. *)
Definition claim_supported (checkpoint : CanonicalCheckpoint) (evidence : list OperationEvidence)
    (claim : ReportedClauseEvidence) : Prop :=
  claim.(rc_operation_ids) <> [] /\ NoDup claim.(rc_operation_ids)
  /\ Forall (fun digest => digest ∈ canonical_artifacts checkpoint) claim.(rc_artifact_digests)
  /\ forall id, id ∈ claim.(rc_operation_ids) ->
     exists o item, o ∈ checkpoint.(ck_operations) /\ o.(oc_operation_id) = id
       /\ o.(oc_status) = OperationStatus.Succeeded
       /\ Forall (fun s => s ∈ o.(oc_evidence_sequences)) claim.(rc_event_sequences)
       /\ item ∈ evidence /\ OperationEvidence_operation_id item = id
       /\ proves_outcome item claim.(rc_artifact_digests) (canonical_artifacts checkpoint).

Lemma valid_normalized_ok item claimed canonical :
  valid_normalized_evidence item claimed canonical = true <-> proves_outcome item claimed canonical.
Proof.
  destruct item as [id completed exit_code|id completed digests]; simpl.
  - rewrite andb_true_iff, bool_decide_eq_true. done.
  - rewrite andb_true_iff, existsb_exists. apply and_iff_compat_l.
    setoid_rewrite <-list_elem_of_In. setoid_rewrite andb_true_iff. setoid_rewrite orb_true_iff.
    setoid_rewrite contains_true. destruct claimed; simpl; naive_solver.
Qed.

Lemma foldl_insert_elem {K V} `{Countable K} (key : V -> K) (l : list V) k v :
  foldl (fun m x => <[key x := x]> m) (∅ : gmap K V) l !! k = Some v -> v ∈ l /\ key v = k.
Proof.
  induction l as [|x l IH] using rev_ind; [simpl; by rewrite lookup_empty|]. rewrite foldl_app. simpl.
  intros [[<- <-]|[_ Hl]]%lookup_insert_Some; [set_solver|]. apply IH in Hl as [??]. set_solver.
Qed.

Lemma collect_evidence_ok items m :
  try_fold collect_evidence ∅ items = Ok m ->
  forall id item, m !! id = Some item -> item ∈ items /\ OperationEvidence_operation_id item = id.
Proof.
  revert m. induction items as [|x items IH] using rev_ind; intros m H id item Hl.
  - injection H as <-. by rewrite lookup_empty in Hl.
  - rewrite try_fold_app in H. simpl in H. carl_simpl. unfold collect_evidence in *. carl_simpl.
    apply lookup_insert_Some in Hl as [[<- <-]|[_ Hl]]; [set_solver|].
    match goal with Hf : try_fold _ _ items = Ok _ |- _ => destruct (IH _ Hf _ _ Hl) as [??] end.
    set_solver.
Qed.

Lemma claimed_operations_ok operations evidence artifacts claim ids0 ids ids' :
  try_fold (validate_claimed_operation operations evidence artifacts claim) ids0 ids = Ok ids' ->
  NoDup ids /\ Forall (fun id => (id ∉ ids0)) ids
  /\ Forall (fun id => exists o item, operations !! id = Some o /\ evidence !! id = Some item
       /\ o.(oc_status) = OperationStatus.Succeeded
       /\ Forall (fun s => s ∈ o.(oc_evidence_sequences)) claim.(rc_event_sequences)
       /\ proves_outcome item claim.(rc_artifact_digests) artifacts) ids.
Proof.
  revert ids0. induction ids as [|id ids IH]; intros ids0 H; simpl in H; [by repeat constructor|].
  apply bind_ok in H as (ids1 & Hid & H). apply IH in H as (Hnd & Hnin & Hall).
  unfold validate_claimed_operation in Hid. carl_simpl.
  match goal with Hv : valid_normalized_evidence _ _ _ = true |- _ => apply valid_normalized_ok in Hv end.
  split; [|split].
  - constructor; [|done]. rewrite Forall_forall in Hnin. intros Hin. apply (Hnin id Hin). set_solver.
  - constructor; [done|]. eapply Forall_impl; [exact Hnin|]. set_solver.
  - constructor; [|done]. do 2 eexists. split; [done|]. split; [done|]. split; [done|]. split; [|done].
    eapply Forall_impl; [eassumption|]. intros s. apply contains_true.
Qed.

Lemma validate_claim_fold checkpoint items clause_ids operations evidence cs claimed claims :
  (forall id o, operations !! id = Some o -> o ∈ checkpoint.(ck_operations) /\ o.(oc_operation_id) = id) ->
  (forall id item, evidence !! id = Some item -> item ∈ items /\ OperationEvidence_operation_id item = id) ->
  try_fold (validate_claim clause_ids operations evidence (canonical_artifacts checkpoint)) claimed cs
    = Ok claims ->
  Forall (claim_supported checkpoint items) cs
  /\ forall id, id ∈ claims <-> id ∈ claimed \/ exists claim, claim ∈ cs /\ claim.(rc_clause_id) = id.
Proof.
  intros Hops Hev. revert claimed. induction cs as [|claim cs IH]; intros claimed H; simpl in H.
  { simplify_eq. split; [constructor|]. set_solver. }
  apply bind_ok in H as (claimed1 & Hc & H). apply IH in H as [Hsup Hin].
  unfold validate_claim in Hc. carl_simpl. split; [|intros id; rewrite Hin; set_solver].
  constructor; [|done].
  match goal with Hf : try_fold _ _ (rc_operation_ids claim) = Ok _ |- _ =>
    apply claimed_operations_ok in Hf as (Hnd & _ & Hall) end.
  split; [by apply is_empty_false|]. split; [done|]. split.
  { eapply Forall_impl; [eassumption|]. intros digest Hd. simpl in Hd. by carl_simpl. }
  intros id Hid. rewrite Forall_forall in Hall. destruct (Hall id Hid) as (o & item & Ho & Hi & ? & ? & ?).
  apply Hops in Ho as [??]. apply Hev in Hi as [??]. exists o, item. auto 10.
Qed.

Lemma validate_claims_ok report checkpoint items claims :
  validate_claims report checkpoint items = Ok claims ->
  Forall (claim_supported checkpoint items) report.(er_clause_evidence)
  /\ forall id, id ∈ claims <-> exists claim, claim ∈ report.(er_clause_evidence) /\ claim.(rc_clause_id) = id.
Proof.
  unfold validate_claims. intros H. apply bind_ok in H as (evidence & Hev & H).
  apply (validate_claim_fold checkpoint items) in H as [Hsup Hin].
  - split; [done|]. intros id. rewrite Hin. set_solver.
  - intros id o. apply foldl_insert_elem.
  - by apply collect_evidence_ok.
Qed.

(** C26: completion needs evidence Carl owns.  A report leads to [Complete] only if
    every claim in it is supported by the checkpoint, and every required clause
    of the contract is claimed: each through at least one succeeded operation of
    the checkpoint whose recorded result is a zero exit code or an artifact of
    the checkpoint. *)
Theorem completion_needs_evidence report checkpoint items :
  decide_completion report checkpoint items = Ok CompletionDecision.Complete ->
  Forall (claim_supported checkpoint items) report.(er_clause_evidence)
  /\ forall clause, clause ∈ checkpoint.(ck_contract).(clauses) -> clause.(required) = true ->
     exists claim, claim ∈ report.(er_clause_evidence) /\ claim.(rc_clause_id) = clause.(clause_id).
Proof.
  unfold decide_completion. intros H. carl_simpl.
  match goal with Hc : validate_claims _ _ _ = Ok _ |- _ => apply validate_claims_ok in Hc as [Hsup Hin] end.
  split; [done|]. intros clause Hcl Hreq. destruct (er_disposition report); carl_simpl. case_match; [|done].
  carl_simpl. apply Hin. match goal with Hf : Forall _ (btree_set _) |- _ => rewrite Forall_forall in Hf;
    specialize (Hf (clause_id clause)); simpl in Hf; rewrite bool_decide_eq_true in Hf; apply Hf end.
  apply elem_of_btree_set, list_elem_of_fmap. exists clause. split; [done|]. by apply list_elem_of_filter.
Qed.

(** C40: a claim over several operations cannot cite an event.  Evidence belongs
    to one operation, so a report in which a claim names two operations and cites
    any event sequence is always refused, also when the events are the recorded
    evidence of the operations named. *)
Theorem shared_evidence_claims_refused es st checkpoint report items claim id1 id2 s d :
  replay es = Ok (Some st) -> StronglySorted Z.lt (sequence <$> es) ->
  operations_exact st checkpoint.(ck_operations) ->
  claim ∈ report.(er_clause_evidence) -> id1 ∈ claim.(rc_operation_ids) ->
  id2 ∈ claim.(rc_operation_ids) -> id1 <> id2 -> s ∈ claim.(rc_event_sequences) ->
  decide_completion report checkpoint items <> Ok d.
Proof.
  intros Hr Hs (_ & Hex & _) Hcl H1 H2 Hne Hin H. assert (history es st) as Hh by by apply history_iff_replay.
  unfold decide_completion in H. carl_simpl.
  match goal with Hc : validate_claims _ _ _ = Ok _ |- _ => apply validate_claims_ok in Hc as [Hsup _] end.
  rewrite Forall_forall in Hsup. destruct (Hsup claim Hcl) as (_ & _ & _ & Hops).
  destruct (Hops id1 H1) as (o1 & ? & Ho1 & <- & _ & Hs1 & _), (Hops id2 H2) as (o2 & ? & Ho2 & <- & _ & Hs2 & _).
  destruct (Hex o1 Ho1) as (op1 & Hop1 & _ & Heq1), (Hex o2 Ho2) as (op2 & Hop2 & _ & Heq2).
  rewrite Forall_forall in Hs1, Hs2. specialize (Hs1 s Hin). specialize (Hs2 s Hin).
  rewrite Heq1 in Hs1. rewrite Heq2 in Hs2.
  eapply (recorded_exclusive es st _ op1 _ op2 s Hh Hop1 Hop2); [done|by eapply consumed_recorded..].
Qed.

(** ** The report block *)

Lemma contains_str_spec p s : contains_str p s = true <-> exists a b, s = a ++ p ++ b.
Proof.
  unfold contains_str. induction s as [|c s IH]; simpl.
  - destruct (starts_with p []) eqn:Hp; simpl.
    + apply starts_with_prefix in Hp as [r Hr]. split; [intros _; by exists [], r|done].
    + split; [done|]. intros (a & b & Heq). apply symmetry, app_eq_nil in Heq as [_ Heq].
      exfalso. apply not_true_iff_false in Hp. apply Hp, starts_with_prefix. by exists b.
  - destruct (starts_with p (c :: s)) eqn:Hp; simpl.
    + apply starts_with_prefix in Hp as [r Hr]. split; [intros _; by exists [], r|done].
    + split.
      * intros H. destruct (find_str p s); [|done]. destruct IH as [IH _].
        destruct (IH eq_refl) as (a & b & ->). by exists (c :: a), b.
      * intros ([|x a] & b & Heq); simplify_eq/=.
        { apply not_true_iff_false in Hp. destruct Hp. rewrite Heq. apply starts_with_prefix. by exists b. }
        destruct (find_str p (a ++ p ++ b)); [done|]. apply IH. by exists a, b.
Qed.

Lemma find_str_sound p s i : find_str p s = Some i -> s = take i s ++ p ++ drop (i + List.length p) s.
Proof.
  revert i. induction s as [|c s IH]; intros i H; simpl in H.
  - destruct (starts_with p []) eqn:Hp; [|done]. simplify_eq.
    apply starts_with_prefix in Hp as [r Hr]. simpl. rewrite Hr at 1 2. by rewrite drop_app_length.
  - destruct (starts_with p (c :: s)) eqn:Hp.
    + simplify_eq. apply starts_with_prefix in Hp as [r Hr]. simpl. rewrite Hr. by rewrite drop_app_length.
    + apply fmap_Some in H as (j & Hj & ->). simpl. f_equal. by apply IH.
Qed.

(** The first occurrence of a pattern whose first character does not occur in
    the rest of it, behind a text that does not contain it. *)
Lemma find_str_first c p pre rest :
  c ∉ p -> contains_str (c :: p) pre = false ->
  find_str (c :: p) (pre ++ c :: p ++ rest) = Some (List.length pre).
Proof.
  intros Hc. induction pre as [|x pre IH]; intros Hpre.
  - assert (starts_with (c :: p) (c :: p ++ rest) = true) as Hs by (apply starts_with_prefix; by exists rest).
    simpl in *. by rewrite Hs.
  - cbn [app]. cbn [find_str]. rewrite IH.
    2: { apply not_true_iff_false. rewrite contains_str_spec. intros (a & b & ->).
         apply not_true_iff_false in Hpre. apply Hpre, contains_str_spec. by exists (x :: a), b. }
    destruct (starts_with (c :: p) (x :: pre ++ c :: p ++ rest)) eqn:Hs; [exfalso|done].
    apply starts_with_prefix in Hs as [r Hr].
    change (x :: pre ++ c :: p ++ rest) with ((x :: pre) ++ c :: p ++ rest) in Hr. apply app_eq_inv in Hr as [(k & Hk & _)|(k & Hk & Hr)].
    + apply not_true_iff_false in Hpre. apply Hpre, contains_str_spec. exists [], k. by rewrite Hk.
    + destruct k as [|y k].
      * rewrite app_nil_r in Hk. apply not_true_iff_false in Hpre. apply Hpre, contains_str_spec.
        exists [], []. by rewrite Hk, app_nil_r.
      * simplify_eq/=. set_solver.
Qed.

Lemma open_like s : contains_str REPORT_LIKE s = false -> contains_str REPORT_OPEN s = false.
Proof.
  rewrite <-!not_true_iff_false, !contains_str_spec. intros H (a & b & ->). apply H.
  exists (a ++ [60]), ([62] ++ b). by rewrite <-!app_assoc.
Qed.

Lemma blank_like s : is_empty (trim s) = true -> contains_str REPORT_LIKE s = false.
Proof.
  rewrite trim_empty, <-not_true_iff_false, contains_str_spec. intros H (a & b & ->).
  apply Forall_app in H as [_ H]. apply Forall_app in H as [H _]. by inversion H.
Qed.

(** The transcripts of an epoch that carry a report. *)
Definition report_block (output prefix body suffix : str) : Prop :=
  output = prefix ++ REPORT_OPEN ++ body ++ REPORT_CLOSE ++ suffix
  /\ contains_str REPORT_LIKE prefix = false /\ is_empty (trim suffix) = true
  /\ contains_str REPORT_OPEN body = false /\ contains_str REPORT_CLOSE body = false.

Lemma report_block_find output prefix body suffix :
  report_block output prefix body suffix ->
  find_str REPORT_OPEN output = Some (List.length prefix)
  /\ drop (List.length prefix + List.length REPORT_OPEN) output = body ++ REPORT_CLOSE ++ suffix
  /\ find_str REPORT_CLOSE (body ++ REPORT_CLOSE ++ suffix) = Some (List.length body).
Proof.
  intros (-> & Hp & _ & _ & Hc). split; [|split].
  - apply (find_str_first 60 (tail REPORT_OPEN)); [by apply contains_false|by apply open_like].
  - by rewrite app_assoc, <-length_app, drop_app_length.
  - by apply (find_str_first 60 (tail REPORT_CLOSE)); [apply contains_false|].
Qed.

(** the parser of epoch reports accepts exactly the transcripts, within the
    size limit, that end in one report block: nothing report-like before it, only
    blanks behind it, no second marker in it, and a body that [serde_json] reads
    as a report that passes validation; the report is the one in that block. *)
Theorem parse_epoch_report_exact from_str output report :
  parse_epoch_report from_str output = Ok report
  <-> len output <= MAX_REPORT_BYTES
      /\ exists prefix body suffix, report_block output prefix body suffix
         /\ from_str body = Some report /\ validate_report report = Ok tt.
Proof.
  unfold parse_epoch_report. split.
  - intros H. carl_simpl. split; [lia|].
    match goal with Ho : find_str REPORT_OPEN _ = Some ?i, Hc : find_str REPORT_CLOSE _ = Some ?j |- _ =>
      apply find_str_sound in Ho as Hopen; apply find_str_sound in Hc as Hclose;
      exists (take i output), (take j (drop (i + List.length REPORT_OPEN) output)),
        (drop (i + List.length REPORT_OPEN + j + List.length REPORT_CLOSE) output) end.
    split; [|done]. split; [|done]. rewrite Hopen at 1. f_equal. f_equal. rewrite Hclose at 1.
    f_equal. f_equal. rewrite drop_drop. change (List.length REPORT_OPEN) with 19%nat. f_equal. lia.
  - intros (Hlen & prefix & body & suffix & Hblock & Hfrom & Hval).
    destruct (report_block_find _ _ _ _ Hblock) as (Ho & Hd & Hc).
    destruct Hblock as (Heq & Hp & Hs & Hbo & Hbc).
    rewrite bind_reject, Z.ltb_ge. split; [done|]. rewrite Ho. cbn [ok_or mbind result_bind].
    rewrite Hd, Hc. cbn [ok_or mbind result_bind]. rewrite take_app_length.
    assert (drop (List.length prefix + List.length REPORT_OPEN + List.length body + List.length REPORT_CLOSE)
              output = suffix) as ->.
    { rewrite <-!Nat.add_assoc, Nat.add_assoc, <-drop_drop, Hd.
      by rewrite app_assoc, <-length_app, drop_app_length. }
    assert (take (List.length prefix) output = prefix) as -> by (rewrite Heq; apply take_app_length).
    rewrite Hp, (blank_like _ Hs), Hs, Hbo, Hbc. simpl. rewrite Hfrom. simpl. by rewrite Hval.
Qed.

(** ** Examples *)

Definition example_claim (ids : list OperationId) (events : list Z) : ReportedClauseEvidence :=
  {| rc_clause_id := lit "tests"; rc_operation_ids := ids; rc_event_sequences := events;
     rc_artifact_digests := [] |}.

Definition example_report (claims : list ReportedClauseEvidence) : EpochReport :=
  {| er_schema_version := 1; er_disposition := EpochDisposition.Complete; er_summary := lit "done";
     er_next_objective := None; er_clause_evidence := claims; er_exact_identifiers := [] |}.

Lemma completion_needs_evidence_witness :
  Forall (claim_supported example_checkpoint [OperationEvidence.Command 21 true (Some 0)])
    [example_claim [21] [6]]
  /\ forall clause, clause ∈ example_checkpoint.(ck_contract).(clauses) -> clause.(required) = true ->
     exists claim, claim ∈ [example_claim [21] [6]] /\ claim.(rc_clause_id) = clause.(clause_id).
Proof.
  apply (completion_needs_evidence (example_report [example_claim [21] [6]])).
  vm_compute. reflexivity.
Defined.

(** Two operations that both succeed. *)
Definition two_operations : list EventEnvelope :=
  take 7 example_journal
  ++ [task_event 8 (TaskEvent.OperationIntentRecorded 22 11 (lit "item") EffectClass.Observation example_digest);
      task_event 9 (TaskEvent.OperationTransitioned 22 OperationStatus.IntentRecorded OperationStatus.Started []);
      task_event 10 (TaskEvent.OperationEvidenceRecorded 22 example_digest);
      task_event 11 (TaskEvent.OperationTransitioned 22 OperationStatus.Started OperationStatus.Succeeded [10])].

Definition two_snapshot : TaskSnapshot :=
  match replay two_operations with Ok (Some st) => st | _ => example_snapshot 1 end.

Definition two_checkpoint : CanonicalCheckpoint :=
  assembled (example_input 7 [] 0 None) None []
    (match build_operations None two_operations 1 11 with Ok ops => ops | Err _ => [] end) 1 11.

Lemma two_operations_exact : operations_exact two_snapshot two_checkpoint.(ck_operations).
Proof.
  assert (history two_operations two_snapshot) as Hh.
  { apply history_iff_replay. split; [vm_compute; reflexivity|by apply windows2_geb_strict]. }
  pose proof (build_operations_history two_operations two_snapshot 1 11 Hh) as H.
  change (has_unresolved_operations two_snapshot) with false in H. cbv iota in H.
  destruct H as (ops & Hb & Hex).
  - repeat (constructor; [split; [simpl; lia|by repeat constructor]|]). constructor.
  - unfold two_checkpoint. simpl. by rewrite Hb.
Qed.

Lemma shared_evidence_claims_refused_witness :
  decide_completion (example_report [example_claim [21; 22] [6; 10]]) two_checkpoint
    [OperationEvidence.Command 21 true (Some 0); OperationEvidence.Command 22 true (Some 0)]
  <> Ok CompletionDecision.Complete.
Proof.
  apply (shared_evidence_claims_refused two_operations two_snapshot _ _ _ (example_claim [21; 22] [6; 10])
           21 22 6).
  - vm_compute. reflexivity.
  - by apply windows2_geb_strict.
  - exact two_operations_exact.
  - simpl. set_solver.
  - simpl. set_solver.
  - simpl. set_solver.
  - discriminate.
  - simpl. set_solver.
Defined.
