(* ===== verification/Progress.v ===== *)
(** * Progress assessment and recovery

    [src/runtime/task/progress.rs]: after every epoch Carl fingerprints what the
    checkpoint shows, counts how long the fingerprint has not changed, and
    selects a recovery strategy.  The hash of [sha2] and the serializers of
    [serde_json] are parameters; the second one cannot fail, as the code's
    [expect] says.

    The theorems characterise the assessment and the strategy selected, give
    the exact escalation of a task in which every recovery fails, and show that
    the fingerprint depends on the contents of a checkpoint only. *)
From stdpp Require Import base gmap sets list sorting strings.
From Stdlib Require Import ZArith Lia.
From S2P Require Import Prelude Ord Text Settings Policy TaskTypes Events Reducer Journal SecretFilter Checkpoint Report.
#[local] Open Scope list_scope.
#[local] Open Scope Z_scope.

Definition MAX_RECOVERY_ATTEMPTS : Z := 64.

Record RecoveryAttempt := {
  ra_strategy : RecoveryStrategy;
  ra_strategy_fingerprint : str;
  ra_outcome : RecoveryAttemptOutcome
}.

Record ProgressAssessment := {
  pa_fingerprint : str;
  new_information : bool;
  resolved_clause_ids : list str;
  stall_count : Z;
  recovery : option RecoveryStrategy
}.

(** The structs local to [fingerprint] and [recovery_attempt_fingerprint]. *)
Record VerificationOutcome := {
  vo_clause_id : str;
  vo_status : option ClauseStatus;
  vo_evidence : list (Z * option str * option OperationId)
}.

Record Fingerprint := {
  fp_changed_files : list (str * str);
  fp_verification_outcomes : list VerificationOutcome;
  fp_failure_signatures : list str;
  fp_resolved_clause_ids : list str;
  fp_decision_ids : list str;
  fp_next_objective : str
}.

Record RecoveryFingerprint := {
  rf_progress_fingerprint : str;
  rf_strategy : RecoveryStrategy
}.

Definition is_fingerprint (value : str) : bool := is_hex64 value.

Definition has_missing_authority (checkpoint : CanonicalCheckpoint) : bool :=
  existsb (fun blocker => blocker =?? lit "missing_authority") checkpoint.(blockers).

Definition validate_recovery_attempts (attempts : list RecoveryAttempt) : reported unit :=
  reject ((MAX_RECOVERY_ATTEMPTS <? Zlen attempts)
          || existsb (fun attempt =>
               (attempt.(ra_strategy) =?? RecoveryStrategy.DeclareBlocked)
               || negb (is_fingerprint attempt.(ra_strategy_fingerprint))) attempts)
    ReportErrorCode.InvalidProgressInput.

(** The derived [Ord] of [RecoveryStrategy]: the order of its variants. *)
Definition strategy_index (s : RecoveryStrategy) : Z :=
  match s with
  | RecoveryStrategy.ReconstructFromEvidence => 0
  | RecoveryStrategy.ReplaceApproach => 1
  | RecoveryStrategy.FreshContextDiagnosis => 2
  | RecoveryStrategy.MinimizeReproduction => 3
  | RecoveryStrategy.DeclareBlocked => 4
  end.
#[export] Instance RecoveryStrategy_ord : Ord RecoveryStrategy := ord_by strategy_index.

(** [{:?}] of an operation status. *)
Definition OperationStatus_debug (s : OperationStatus) : str :=
  match s with
  | OperationStatus.IntentRecorded => lit "IntentRecorded"
  | OperationStatus.Started => lit "Started"
  | OperationStatus.Succeeded => lit "Succeeded"
  | OperationStatus.Failed => lit "Failed"
  | OperationStatus.Cancelled => lit "Cancelled"
  | OperationStatus.Uncertain => lit "Uncertain"
  | OperationStatus.Reconciled => lit "Reconciled"
  end.

Definition failure_signatures (checkpoint : CanonicalCheckpoint) : list str :=
  btree_set
    (checkpoint.(blockers) ++ checkpoint.(uncertain_delivery_digests)
     ++ ((fun operation => lit "operation:" ++ operation.(oc_request_digest) ++ lit ":"
                           ++ OperationStatus_debug operation.(oc_status))
         <$> filter (fun operation => operation.(oc_status) = OperationStatus.Failed
                                      \/ operation.(oc_status) = OperationStatus.Uncertain)
               checkpoint.(ck_operations))).

Definition verification_outcomes (checkpoint : CanonicalCheckpoint) : list VerificationOutcome :=
  let statuses := foldl (fun m clause => <[clause.(clause_id) := clause.(clause_status)]> m)
                    (∅ : gmap str ClauseStatus) checkpoint.(ck_contract).(clauses) in
  sort_by_key (fun outcome => (outcome.(vo_clause_id), outcome.(vo_evidence)))
    ((fun outcome => {| vo_clause_id := outcome.(ce_clause_id);
                        vo_status := statuses !! outcome.(ce_clause_id);
                        vo_evidence := sort (evidence_key <$> outcome.(ce_evidence)) |})
     <$> checkpoint.(ck_verification)).

Section Progress.
Context (sha256 : bytes -> Sha256Digest)
  (fingerprint_to_vec : Fingerprint -> option bytes)
  (recovery_to_vec : RecoveryFingerprint -> bytes).

Definition recovery_attempt_fingerprint (progress_fingerprint : str) (strategy : RecoveryStrategy)
    : str :=
  Sha256Digest_display (sha256 (recovery_to_vec
    {| rf_progress_fingerprint := progress_fingerprint; rf_strategy := strategy |})).

Definition fingerprint (checkpoint : CanonicalCheckpoint) (resolved : list str)
    (next_objective : str) : reported str :=
  encoded ← ok_or (fingerprint_to_vec
    {| fp_changed_files := btree_iter checkpoint.(repository).(file_hashes);
       fp_verification_outcomes := verification_outcomes checkpoint;
       fp_failure_signatures := failure_signatures checkpoint;
       fp_resolved_clause_ids := resolved;
       fp_decision_ids := btree_set (dr_id <$> checkpoint.(decisions));
       fp_next_objective := next_objective |}) ReportErrorCode.InvalidReport;
  Ok (Sha256Digest_display (sha256 encoded)).

(** The strategies that have failed in the state with this fingerprint. *)
Definition failed_strategies (fp : str) (recovery_attempts : list RecoveryAttempt)
    : list RecoveryStrategy :=
  btree_set
    (ra_strategy
     <$> filter (fun attempt =>
           ((attempt.(ra_outcome) =?? RecoveryAttemptOutcome.Failed)
            && negb (attempt.(ra_strategy) =?? RecoveryStrategy.DeclareBlocked)
            && (attempt.(ra_strategy_fingerprint)
                =?? recovery_attempt_fingerprint fp attempt.(ra_strategy))) = true) recovery_attempts).

Definition select_recovery (checkpoint : CanonicalCheckpoint) (fp : str)
    (recovery_attempts : list RecoveryAttempt) : RecoveryStrategy :=
  if has_missing_authority checkpoint then RecoveryStrategy.DeclareBlocked
  else
    let failed := failed_strategies fp recovery_attempts in
    if 3 <=? Zlen failed then RecoveryStrategy.DeclareBlocked
    else
      default RecoveryStrategy.DeclareBlocked
        (List.find (fun strategy => negb (strategy ∈? failed))
           [RecoveryStrategy.ReconstructFromEvidence; RecoveryStrategy.ReplaceApproach;
            RecoveryStrategy.MinimizeReproduction; RecoveryStrategy.FreshContextDiagnosis]).

(** [iter().take_while(p).count()]. *)
Fixpoint leading {A} (p : A -> bool) (l : list A) : Z :=
  match l with
  | x :: l' => if p x then 1 + leading p l' else 0
  | [] => 0
  end.

Definition assess_progress_with_recovery_attempts (checkpoint : CanonicalCheckpoint)
    (report : EpochReport) (history : list ProgressAssessment)
    (recovery_attempts : list RecoveryAttempt) : reported ProgressAssessment :=
  _ ← validate_recovery_attempts recovery_attempts;
  let next_objective := default checkpoint.(next_objective) report.(er_next_objective) in
  _ ← reject (is_empty (trim next_objective)) ReportErrorCode.InvalidReport;
  let resolved_clause_ids :=
    btree_set (clause_id <$> filter (fun clause =>
      ((clause.(clause_status) =?? ClauseStatus.Satisfied)
       && negb (is_empty clause.(clause_evidence))) = true) checkpoint.(ck_contract).(clauses)) in
  fp ← fingerprint checkpoint resolved_clause_ids next_objective;
  let new_information :=
    negb (existsb (fun assessment => assessment.(pa_fingerprint) =?? fp) history) in
  let stall_count :=
    if new_information then 0
    else Z.min (leading (fun assessment => assessment.(pa_fingerprint) =?? fp) (reverse history)) u8_max in
  let recovery :=
    if has_missing_authority checkpoint || negb new_information
    then Some (select_recovery checkpoint fp recovery_attempts) else None in
  Ok {| pa_fingerprint := fp; new_information := new_information;
        resolved_clause_ids := resolved_clause_ids; stall_count := stall_count;
        recovery := recovery |}.

Definition assess_progress (checkpoint : CanonicalCheckpoint) (report : EpochReport)
    (history : list ProgressAssessment) : reported ProgressAssessment :=
  assess_progress_with_recovery_attempts checkpoint report history [].
End Progress.

(** ** Selecting a strategy *)

#[export] Instance RecoveryStrategy_ord_laws : OrdLaws RecoveryStrategy.
Proof. apply ord_by_laws. by intros [] []. Qed.

Section Recovery.
Context (sha256 : bytes -> Sha256Digest) (recovery_to_vec : RecoveryFingerprint -> bytes).

(** Strategy [s] was tried in the state with fingerprint [fp] and failed. *)
Definition has_failed (fp : str) (attempts : list RecoveryAttempt) (s : RecoveryStrategy) : Prop :=
  {| ra_strategy := s;
     ra_strategy_fingerprint := recovery_attempt_fingerprint sha256 recovery_to_vec fp s;
     ra_outcome := RecoveryAttemptOutcome.Failed |} ∈ attempts
  /\ s <> RecoveryStrategy.DeclareBlocked.

(** The strategies Carl works through, in order. *)
Definition escalation : list RecoveryStrategy :=
  [RecoveryStrategy.ReconstructFromEvidence; RecoveryStrategy.ReplaceApproach;
   RecoveryStrategy.MinimizeReproduction; RecoveryStrategy.DeclareBlocked].

Lemma elem_of_failed fp attempts s :
  s ∈ failed_strategies sha256 recovery_to_vec fp attempts <-> has_failed fp attempts s.
Proof.
  unfold failed_strategies, has_failed. rewrite elem_of_btree_set, list_elem_of_fmap. split.
  - intros ([s' f o] & -> & [Hp Hin]%list_elem_of_filter). simpl in *.
    rewrite !andb_true_iff, negb_true_iff, !bool_decide_eq_true, bool_decide_eq_false in Hp.
    destruct Hp as [[-> Hs] ->]. done.
  - intros [Hin Hs]. eexists. split; [|apply list_elem_of_filter; split; [|exact Hin]]; [done|]. simpl.
    rewrite !andb_true_iff, negb_true_iff, !bool_decide_eq_true, bool_decide_eq_false. done.
Qed.

Lemma select_recovery_cases ck fp attempts :
  let failed := failed_strategies sha256 recovery_to_vec fp attempts in
  let s := select_recovery sha256 recovery_to_vec ck fp attempts in
  (s = RecoveryStrategy.DeclareBlocked
   /\ (has_missing_authority ck = true \/ 3 <= Zlen failed))
  \/ (has_missing_authority ck = false /\ Zlen failed < 3
      /\ List.find (fun x => negb (x ∈? failed)) (take 3 escalation) = Some s).
Proof.
  intros failed s. subst s. unfold select_recovery. fold failed.
  destruct (has_missing_authority ck); [left; auto|].
  destruct (Z.leb_spec 3 (Zlen failed)) as [Hl|Hl]; [left; auto|right].
  split; [done|]. split; [done|]. simpl.
  destruct (RecoveryStrategy.ReconstructFromEvidence ∈? failed) eqn:H1; simpl; [|done].
  destruct (RecoveryStrategy.ReplaceApproach ∈? failed) eqn:H2; simpl; [|done].
  destruct (RecoveryStrategy.MinimizeReproduction ∈? failed) eqn:H3; simpl; [|done].
  exfalso. rewrite !contains_true in *. rewrite Zlen_length in Hl.
  assert (take 3 escalation ⊆+ failed) as Hsub%submseteq_length.
  { apply NoDup_submseteq; [by apply (bool_decide_unpack _)|].
    intros x. simpl. rewrite !elem_of_cons, elem_of_nil. by intros [->|[->|[->|[]]]]. }
  simpl in Hsub. lia.
Qed.

(** What [select_recovery] promises: *)
Definition recovery_spec (ck : CanonicalCheckpoint) (fp : str) (attempts : list RecoveryAttempt)
    (s : RecoveryStrategy) : Prop :=
  let three_failed := exists l, NoDup l /\ length l = 3%nat /\ Forall (has_failed fp attempts) l in
  (s = RecoveryStrategy.DeclareBlocked <-> has_missing_authority ck = true \/ three_failed)
  /\ (s <> RecoveryStrategy.DeclareBlocked ->
      ~ has_failed fp attempts s
      /\ exists before after, escalation = before ++ s :: after
                              /\ Forall (has_failed fp attempts) before).

Lemma find_first {A} (p : A -> bool) l x :
  List.find p l = Some x ->
  p x = true /\ exists before after, l = before ++ x :: after /\ Forall (fun y => p y = false) before.
Proof.
  induction l as [|y l IH]; simpl; [done|]. destruct (p y) eqn:Hp.
  - intros [= ->]. split; [done|]. by exists [], l.
  - intros (Hx & before & after & -> & Hb)%IH. split; [done|].
    exists (y :: before), after. auto.
Qed.

Lemma three_failed_iff fp attempts :
  (exists l, NoDup l /\ length l = 3%nat /\ Forall (has_failed fp attempts) l)
  <-> 3 <= Zlen (failed_strategies sha256 recovery_to_vec fp attempts).
Proof.
  rewrite Zlen_length. split.
  - intros (l & Hnd & Hlen & Hall).
    assert (l ⊆+ failed_strategies sha256 recovery_to_vec fp attempts) as H%submseteq_length; [|lia].
    apply NoDup_submseteq; [done|]. intros x Hx. apply elem_of_failed.
    rewrite Forall_forall in Hall. auto.
  - intros H. exists (take 3 (failed_strategies sha256 recovery_to_vec fp attempts)).
    split; [|split].
    + eapply sublist_NoDup; [apply btree_set_NoDup|apply sublist_take].
    + rewrite length_take. lia.
    + apply Forall_take, Forall_forall. intros x. apply elem_of_failed.
Qed.
(** The selection of a recovery strategy is exact.  Carl gives up exactly when
    authority is missing or three different strategies have failed in this very
    state; otherwise it selects the first strategy of the escalation that has
    not failed in it.  The fourth alternative of the code's list,
    [FreshContextDiagnosis], is never selected: before it is reached three
    others have failed. *)
Lemma recovery_selected ck fp attempts :
  recovery_spec ck fp attempts (select_recovery sha256 recovery_to_vec ck fp attempts)
  /\ select_recovery sha256 recovery_to_vec ck fp attempts <> RecoveryStrategy.FreshContextDiagnosis.
Proof.
  pose proof (select_recovery_cases ck fp attempts) as Hcases.
  unfold recovery_spec. rewrite three_failed_iff.
  destruct Hcases as [[-> H]|(Hm & Hl & (Hs & before & after & Hb & Hall)%find_first)].
  - split; [|done]. split; [tauto|done].
  - set (s := select_recovery _ _ _ _ _) in *.
    assert (s ∈ take 3 escalation) as Hin by (rewrite Hb; set_solver).
    simpl in Hin. rewrite !elem_of_cons, elem_of_nil in Hin.
    split; [|by destruct Hin as [->|[->|[->|[]]]]]. split.
    { split; [by destruct Hin as [->|[->|[->|[]]]]|]. rewrite Hm. intros [|]; [done|lia]. }
    intros _. rewrite <-elem_of_failed. apply negb_true_iff, contains_false in Hs. split; [done|].
    exists before, (after ++ [RecoveryStrategy.DeclareBlocked]).
    split; [change escalation with (take 3 escalation ++ [RecoveryStrategy.DeclareBlocked]);
            by rewrite Hb, <-app_assoc|].
    eapply Forall_impl; [exact Hall|]. intros x. rewrite negb_false_iff, contains_true.
    apply elem_of_failed.
Qed.

(** The attempts of a stalled task: each one is the strategy Carl selects,
    bound to the state, with either outcome; none follows a declared block. *)
Inductive recovering (ck : CanonicalCheckpoint) (fp : str) : list RecoveryAttempt -> Prop :=
  | recovering_start : recovering ck fp []
  | recovering_attempt attempts outcome :
      recovering ck fp attempts ->
      let s := select_recovery sha256 recovery_to_vec ck fp attempts in
      s <> RecoveryStrategy.DeclareBlocked ->
      recovering ck fp (attempts ++
        [{| ra_strategy := s;
            ra_strategy_fingerprint := recovery_attempt_fingerprint sha256 recovery_to_vec fp s;
            ra_outcome := outcome |}]).

Definition failures (attempts : list RecoveryAttempt) : list RecoveryStrategy :=
  ra_strategy <$> filter (fun a => a.(ra_outcome) = RecoveryAttemptOutcome.Failed) attempts.

Lemma failures_snoc attempts a :
  failures (attempts ++ [a])
  = failures attempts
    ++ if decide (a.(ra_outcome) = RecoveryAttemptOutcome.Failed) then [a.(ra_strategy)] else [].
Proof.
  unfold failures. rewrite filter_app, fmap_app, filter_cons, filter_nil. by case_decide.
Qed.

(** In such a sequence the strategies that failed here are those that failed. *)
Lemma recovering_failed ck fp attempts s :
  recovering ck fp attempts -> has_failed fp attempts s <-> s ∈ failures attempts.
Proof.
  induction 1 as [|attempts o _ IH s' Hs']; [unfold has_failed, failures; set_solver|].
  rewrite failures_snoc. unfold has_failed in *. simpl.
  rewrite !elem_of_app, list_elem_of_singleton, <-IH. case_decide; subst; set_solver.
Qed.

Lemma find_not_prefix n (failed : list RecoveryStrategy) :
  (n < 3)%nat -> (forall s, s ∈ failed <-> s ∈ take n escalation) ->
  List.find (fun x => negb (x ∈? failed)) (take 3 escalation) = escalation !! n.
Proof.
  intros Hn Hf.
  assert (forall x, (x ∈? failed) = bool_decide (x ∈ take n escalation)) as He.
  { intros x. apply eq_true_iff_eq. by rewrite contains_true, bool_decide_eq_true. }
  simpl. rewrite !He. destruct n as [|[|[|]]]; [done|done|done|lia].
Qed.

Lemma recovering_selects ck fp attempts n :
  has_missing_authority ck = false -> recovering ck fp attempts ->
  (n <= 3)%nat -> failures attempts = take n escalation ->
  escalation !! n = Some (select_recovery sha256 recovery_to_vec ck fp attempts).
Proof.
  intros Hm Hr Hn Hpre.
  assert (forall s, s ∈ failed_strategies sha256 recovery_to_vec fp attempts
                    <-> s ∈ take n escalation) as Hf.
  { intros s. rewrite elem_of_failed, (recovering_failed ck), <-Hpre; done. }
  assert (failed_strategies sha256 recovery_to_vec fp attempts ≡ₚ take n escalation) as Hperm.
  { apply NoDup_Permutation; [apply btree_set_NoDup| |done].
    eapply sublist_NoDup; [|apply sublist_take]. by apply (bool_decide_unpack _). }
  assert (Zlen (failed_strategies sha256 recovery_to_vec fp attempts) = Z.of_nat n) as Hz.
  { rewrite Zlen_length, Hperm, length_take. simpl. lia. }
  destruct (select_recovery_cases ck fp attempts) as [[-> [H|H]]|(_ & Hl & Hfind)].
  - congruence.
  - assert (n = 3)%nat as -> by lia. done.
  - rewrite <-Hfind. symmetry. apply find_not_prefix; [lia|done].
Qed.

Lemma recovering_prefix ck fp attempts :
  has_missing_authority ck = false -> recovering ck fp attempts ->
  exists n, (n <= 3)%nat /\ failures attempts = take n escalation.
Proof.
  intros Hm. induction 1 as [|attempts o Hr (n & Hn & Hpre) s Hs]; [by exists 0%nat; auto with lia|].
  pose proof (recovering_selects ck fp attempts n Hm Hr Hn Hpre) as Hsel. fold s in Hsel.
  rewrite failures_snoc, Hpre. simpl. case_decide.
  - exists (S n). rewrite (take_S_r _ _ _ Hsel). split; [|done].
    assert (n <> 3)%nat; [intros ->; simpl in Hsel; congruence|lia].
  - exists n. by rewrite app_nil_r.
Qed.

(** The strategies that fail are a prefix of reconstruct, replace, minimize, and the
    next one selected is the one that follows. *)
Lemma recovery_order ck fp attempts :
  has_missing_authority ck = false -> recovering ck fp attempts ->
  exists n, (n <= 3)%nat /\ failures attempts = take n escalation
            /\ escalation !! n = Some (select_recovery sha256 recovery_to_vec ck fp attempts).
Proof.
  intros Hm Hr. destruct (recovering_prefix ck fp attempts Hm Hr) as (n & Hn & Hpre).
  exists n. split; [done|]. split; [done|]. by apply recovering_selects.
Qed.

Definition three_failed (fp : str) (attempts : list RecoveryAttempt) : Prop :=
  exists l, NoDup l /\ length l = 3%nat /\ Forall (has_failed fp attempts) l.

(** C31: a blocker is declared exactly when it is due.  Whatever attempts are recorded,
    a task is declared blocked if and only if required authority is missing or three
    different strategies have failed in this very state; otherwise the strategy
    selected is one that has not failed in it.  And a task that follows the selection
    comes to that: with the authority at hand, no strategy fails twice, at most three
    attempts fail, and the task is declared blocked after the third failure, not
    before. *)
Theorem blocked_after_three_failures ck fp attempts :
  let s := select_recovery sha256 recovery_to_vec ck fp attempts in
  (s = RecoveryStrategy.DeclareBlocked <-> has_missing_authority ck = true \/ three_failed fp attempts)
  /\ (s <> RecoveryStrategy.DeclareBlocked -> ~ has_failed fp attempts s)
  /\ (has_missing_authority ck = false -> recovering ck fp attempts ->
      NoDup (failures attempts) /\ (length (failures attempts) <= 3)%nat
      /\ (s = RecoveryStrategy.DeclareBlocked <-> length (failures attempts) = 3%nat)).
Proof.
  intros s. destruct (recovery_selected ck fp attempts) as [[Hiff Hnot] _]. fold s in Hiff, Hnot.
  split; [exact Hiff|]. split; [intros Hs; by apply Hnot|]. intros Hm Hr.
  destruct (recovery_order ck fp attempts Hm Hr) as (n & Hn & -> & Hsel). fold s in Hsel.
  rewrite length_take. split_and!; [|simpl; lia|].
  - eapply sublist_NoDup; [|apply sublist_take]. by apply (bool_decide_unpack _).
  - clearbody s. destruct n as [|[|[|[|]]]]; simpl in *; [injection Hsel as <-; split; intros; done || lia..|lia].
Qed.
End Recovery.

(** ** The assessment *)

Section Assessment.
Context (sha256 : bytes -> Sha256Digest) (fingerprint_to_vec : Fingerprint -> option bytes)
  (recovery_to_vec : RecoveryFingerprint -> bytes).
#[local] Abbreviation assess :=
  (assess_progress_with_recovery_attempts sha256 fingerprint_to_vec recovery_to_vec).

Lemma assess_ok ck report history attempts a :
  assess ck report history attempts = Ok a ->
  a.(new_information) = negb (existsb (fun x => x.(pa_fingerprint) =?? a.(pa_fingerprint)) history)
  /\ a.(stall_count) = (if a.(new_information) then 0 else
       Z.min (leading (fun x => x.(pa_fingerprint) =?? a.(pa_fingerprint)) (reverse history)) u8_max)
  /\ a.(recovery) = (if has_missing_authority ck || negb a.(new_information)
       then Some (select_recovery sha256 recovery_to_vec ck a.(pa_fingerprint) attempts) else None).
Proof. unfold assess_progress_with_recovery_attempts. intros H. carl_simpl. subst. done. Qed.

Lemma leading_nonneg {A} (p : A -> bool) l : 0 <= leading p l.
Proof. induction l as [|x l IH]; simpl; [lia|]. destruct (p x); lia. Qed.

Lemma leading_seen {A} (p : A -> bool) l : 0 < leading p l -> existsb p l = true.
Proof. destruct l as [|x l]; simpl; [lia|]. destruct (p x); [done|lia]. Qed.

Lemma leading_unseen {A} (p : A -> bool) l : existsb p l = false -> leading p (reverse l) = 0.
Proof.
  intros H. pose proof (leading_nonneg p (reverse l)).
  destruct (Z.eq_dec (leading p (reverse l)) 0) as [|Hne]; [done|].
  assert (existsb p (reverse l) = true) as Hs by (apply leading_seen; lia).
  apply existsb_exists in Hs as (x & Hin & Hx). rewrite <-list_elem_of_In, elem_of_reverse in Hin.
  rewrite existsb_false, Forall_forall in H. specialize (H x Hin). congruence.
Qed.

Lemma stall_successor ck report history attempts prev ck' report' attempts' a :
  assess ck report history attempts = Ok prev ->
  assess ck' report' (history ++ [prev]) attempts' = Ok a ->
  a.(stall_count) = if a.(pa_fingerprint) =?? prev.(pa_fingerprint)
                    then Z.min (prev.(stall_count) + 1) u8_max else 0.
Proof.
  intros (Hn & Hs & _)%assess_ok (Hn' & Hs' & _)%assess_ok.
  rewrite Hs', Hn', reverse_snoc, existsb_app. simpl.
  destruct (decide (a.(pa_fingerprint) = prev.(pa_fingerprint))) as [Hfp|Hfp].
  - rewrite !bool_decide_eq_true_2 by congruence. rewrite orb_true_r. simpl.
    rewrite Hs, Hn, Hfp. destruct (existsb _ history) eqn:He; simpl.
    + unfold u8_max. lia.
    + rewrite (leading_unseen _ _ He). done.
  - rewrite !bool_decide_eq_false_2 by congruence. rewrite !orb_false_r.
    by destruct (existsb (fun x => x.(pa_fingerprint) =?? a.(pa_fingerprint)) history).
Qed.

(** the stall counter counts exactly the consecutive assessments without a
    change, up to the largest [u8]: an assessment that repeats the fingerprint
    of the one before it adds one to its count, any other one starts at zero.
    A recovery is selected exactly when the fingerprint has been seen before or
    authority is missing. *)
Theorem stall_count_exact ck report history attempts prev ck' report' attempts' a
    (Hprev : assess ck report history attempts = Ok prev)
    (Hnext : assess ck' report' (history ++ [prev]) attempts' = Ok a) :
  a.(stall_count) = (if a.(pa_fingerprint) =?? prev.(pa_fingerprint)
                     then Z.min (prev.(stall_count) + 1) u8_max else 0)
  /\ (a.(recovery) = None <->
      has_missing_authority ck' = false
      /\ a.(pa_fingerprint) ∉ pa_fingerprint <$> history ++ [prev]).
Proof.
  split; [by eapply stall_successor|]. apply assess_ok in Hnext as (Hn & _ & ->).
  rewrite Hn, negb_involutive. split.
  - destruct (has_missing_authority ck'), (existsb _ _) eqn:He; try done. intros _. split; [done|].
    rewrite existsb_false, Forall_forall in He. intros (x & Hx & Hin)%list_elem_of_fmap.
    specialize (He x Hin). rewrite bool_decide_eq_false in He. congruence.
  - intros [-> Hnot]. destruct (existsb _ _) eqn:He; [|done]. exfalso. apply Hnot.
    apply existsb_exists in He as (x & Hin & Hx%bool_decide_eq_true). rewrite <-Hx.
    apply list_elem_of_fmap_2. by apply list_elem_of_In.
Qed.

(** ** Fingerprints *)

(** Two checkpoints that show the same progress, whatever the order in which
    they list it and whatever their other fields are. *)
Record same_progress (c c' : CanonicalCheckpoint) : Prop := {
  same_files : c.(repository).(file_hashes) = c'.(repository).(file_hashes);
  same_contract : c.(ck_contract) = c'.(ck_contract);
  same_verification : exists vs, vs ≡ₚ c'.(ck_verification)
    /\ Forall2 (fun v v' => v.(ce_clause_id) = v'.(ce_clause_id)
                            /\ v.(ce_evidence) ≡ₚ v'.(ce_evidence)) c.(ck_verification) vs;
  same_blockers : same_elements c.(blockers) c'.(blockers);
  same_deliveries : same_elements c.(uncertain_delivery_digests) c'.(uncertain_delivery_digests);
  same_operations : same_elements c.(ck_operations) c'.(ck_operations);
  same_decisions : same_elements (dr_id <$> c.(decisions)) (dr_id <$> c'.(decisions))
}.

Lemma verification_outcomes_proper c c' :
  same_progress c c' -> verification_outcomes c = verification_outcomes c'.
Proof.
  intros [_ Hc (vs & Hperm & Hvs) _ _ _ _]. unfold verification_outcomes. rewrite Hc.
  match goal with |- sort_by_key _ (?f <$> _) = _ => set (outcome := f) end.
  assert (outcome <$> c.(ck_verification) = outcome <$> vs) as ->.
  { clear Hperm. induction Hvs as [|v v' l l' [Hid Hev] _ IH]; [done|].
    rewrite !fmap_cons, IH. f_equal. unfold outcome. rewrite Hid. f_equal.
    apply sort_perm_eq. by rewrite Hev. }
  apply sort_by_key_determined; [|by rewrite Hperm].
  intros x y (v & -> & _)%list_elem_of_fmap (v' & -> & _)%list_elem_of_fmap.
  unfold outcome. simpl. intros [= -> ->]. done.
Qed.

Lemma failure_signatures_proper c c' :
  same_progress c c' -> failure_signatures c = failure_signatures c'.
Proof.
  intros [_ _ _ Hb Hd Ho _]. apply btree_set_proper. rewrite Hb, Hd. do 2 f_equiv.
  intros x. rewrite !list_elem_of_fmap. split; intros (o & -> & Hin); exists o; (split; [done|]);
    rewrite list_elem_of_filter in *; by rewrite (Ho o) in *.
Qed.

(** the progress fingerprint depends on progress only.  Checkpoints with the
    same files, contract, verification, failures and decisions are assessed
    alike against the same history, in whatever order they list their parts,
    and whatever their ids, narrative, processes and provider metadata are. *)
Theorem progress_depends_on_content c c' report history attempts
    (Hsame : same_progress c c') (Hnext : c.(next_objective) = c'.(next_objective)) :
  assess c report history attempts = assess c' report history attempts.
Proof.
  assert (has_missing_authority c = has_missing_authority c') as Hm.
  { apply eq_true_iff_eq. unfold has_missing_authority. rewrite !existsb_exists.
    setoid_rewrite <-list_elem_of_In.
    split; intros (x & Hin & Hx); exists x; (split; [by apply (same_blockers _ _ Hsame)|done]). }
  unfold assess_progress_with_recovery_attempts, fingerprint, select_recovery.
  rewrite Hnext, Hm, (verification_outcomes_proper _ _ Hsame), (failure_signatures_proper _ _ Hsame).
  rewrite (same_files _ _ Hsame), (same_contract _ _ Hsame).
  by rewrite (btree_set_proper _ _ (same_decisions _ _ Hsame)).
Qed.
End Assessment.

(** ** Examples *)

Definition example_recovery_vec (r : RecoveryFingerprint) : bytes := utf8 r.(rf_progress_fingerprint).

(** Try the selected strategy and fail. *)
Definition failing_attempt (attempts : list RecoveryAttempt) : list RecoveryAttempt :=
  let s := select_recovery example_sha256 example_recovery_vec example_checkpoint example_digest attempts in
  attempts
  ++ [{| ra_strategy := s;
         ra_strategy_fingerprint :=
           recovery_attempt_fingerprint example_sha256 example_recovery_vec example_digest s;
         ra_outcome := RecoveryAttemptOutcome.Failed |}].

Lemma example_recovering :
  recovering example_sha256 example_recovery_vec example_checkpoint example_digest
    (failing_attempt (failing_attempt (failing_attempt []))).
Proof.
  apply recovering_attempt; [apply recovering_attempt; [apply recovering_attempt; [constructor|]|]|];
    by vm_compute.
Qed.

Lemma blocked_after_three_failures_witness :
  let attempts := failing_attempt (failing_attempt (failing_attempt [])) in
  (length (failures attempts) <= 3)%nat
  /\ select_recovery example_sha256 example_recovery_vec example_checkpoint example_digest attempts
     = RecoveryStrategy.DeclareBlocked.
Proof.
  intros attempts.
  destruct (blocked_after_three_failures example_sha256 example_recovery_vec example_checkpoint example_digest attempts)
    as (_ & _ & H). destruct (H eq_refl example_recovering) as (_ & Hle & Hiff). split; [exact Hle|].
  apply Hiff. reflexivity.
Defined.

(** A task that does not move: two assessments of the same checkpoint. *)
Definition example_assess (history : list ProgressAssessment) : reported ProgressAssessment :=
  assess_progress_with_recovery_attempts example_sha256 (fun _ => Some []) example_recovery_vec
    example_checkpoint (example_report []) history [].
Definition no_assessment : ProgressAssessment :=
  {| pa_fingerprint := []; new_information := false; resolved_clause_ids := []; stall_count := 0;
     recovery := None |}.
Definition example_assessment (history : list ProgressAssessment) : ProgressAssessment :=
  match example_assess history with Ok a => a | Err _ => no_assessment end.

(** The checkpoint under another id, with its parts listed in another order. *)
Definition relisted (c : CanonicalCheckpoint) : CanonicalCheckpoint :=
  {| ck_schema_version := c.(ck_schema_version); ck_checkpoint_id := c.(ck_checkpoint_id) + 1;
     ck_task_id := c.(ck_task_id); ck_contract := c.(ck_contract); completed_work := [];
     decisions := c.(decisions) ++ c.(decisions); exact_identifiers := [];
     ck_operations := reverse c.(ck_operations); repository := c.(repository);
     running_processes := []; pending_approval_digests := []; pending_steering_digests := [];
     uncertain_delivery_digests := c.(uncertain_delivery_digests);
     ck_verification := reverse c.(ck_verification); next_objective := c.(next_objective);
     blockers := c.(blockers) ++ c.(blockers); provider := c.(provider);
     compaction_generation := c.(compaction_generation) + 1;
     source_sequence_start := c.(source_sequence_start);
     source_sequence_end := c.(source_sequence_end) + 1; previous_digest := None |}.

Lemma relisted_same c : same_progress c (relisted c).
Proof.
  split; try done; simpl.
  - exists c.(ck_verification). split; [by rewrite reverse_Permutation|].
    apply Forall_Forall2_diag, Forall_forall. done.
  - intros x. set_solver.
  - intros x. by rewrite elem_of_reverse.
  - intros x. set_solver.
Qed.

