(* ===== verification/Service.v ===== *)
(** * The protocol of the task service

    [src/service/protocol.rs]: the commands a front end sends to the service,
    the results and updates it gets back, the validation of a request, the
    framing of both as lines, and the ledger by which one connection refuses a
    repeated request identifier and an idempotency key used for another command.

    [serde_json]'s [to_vec] and [from_slice], the hash and [Uuid::parse_str] are
    parameters.  A [usize] has 64 bits; a [DateTime] is carried and not read.

    The theorems show that the ledger remembers exactly the last 4,096 requests
    and keys, that a line which encodes a valid request decodes to it, and what
    evidence every command that passed the validation carries. *)
From stdpp Require Import base gmap sets list strings.
From Stdlib Require Import ZArith Lia.
From S2P Require Import Prelude Text Settings Policy TaskTypes Events Metrics.
#[local] Open Scope list_scope.
#[local] Open Scope Z_scope.

Definition SERVICE_PROTOCOL_VERSION : Z := 7.
Definition MAX_SERVICE_FRAME_BYTES : Z := 256 * 1024.
Definition MAX_TASK_TEXT_BYTES : Z := 16 * 1024.
Definition MAX_IDENTIFIER_BYTES : Z := 128.
Definition MAX_EXTERNAL_SESSION_BYTES : Z := 256.
Definition MAX_REQUESTS_PER_CONNECTION : Z := 4096.

(** ** Commands *)

Module ServiceApprovalDecision.
Inductive ServiceApprovalDecision : Set := Approve | Deny.
End ServiceApprovalDecision.
Abbreviation ServiceApprovalDecision := ServiceApprovalDecision.ServiceApprovalDecision.

Record StartTaskCommand := {
  st_frontend : Frontend;
  st_external_session_id : str;
  st_workspace : PathBuf;
  st_request : str;
  st_model : ModelId;
  st_effort : ReasoningEffort;
  st_permission_mode : PermissionMode;
  st_budget : TaskBudget
}.

Record TrustedStartTaskCommand := {
  ts_start : StartTaskCommand;
  ts_frontend : Frontend;
  ts_actor_id : ActorId;
  ts_channel_id : str;
  ts_event_id : str
}.

Module ServiceCommand.
Inductive ServiceCommand : Type :=
| Info
| Session (external_session_id : str)
| Sessions (frontend : Frontend) (limit : Z)
| StartTask (command : StartTaskCommand)
| StartTrustedTask (command : TrustedStartTaskCommand)
| ConfigureTrustedSession (external_session_id : str) (workspace : PathBuf)
    (frontend : Frontend) (actor_id : ActorId) (channel_id event_id : str)
    (permission_mode : PermissionMode)
| ResolveApproval (task_id : TaskId) (external_session_id : str) (workspace : PathBuf)
    (frontend : Frontend) (actor_id : ActorId) (channel_id event_id : option str)
    (display_code : str) (session_id : SessionId) (turn_id : TurnId)
    (decision : ServiceApprovalDecision)
| Status (task_id : TaskId)
| Metrics (task_id : TaskId)
| List
| Resume (task_id : TaskId)
| Steer (task_id : TaskId) (text : str)
| SteerTrusted (task_id : TaskId) (external_session_id text : str) (workspace : PathBuf)
    (frontend : Frontend) (actor_id : ActorId) (channel_id event_id : str)
| Cancel (task_id : TaskId)
| Compact (task_id : TaskId)
| Configure (task_id : TaskId) (model : ModelId) (effort : ReasoningEffort)
    (permission_mode : PermissionMode)
| Events (task_id : TaskId) (after_sequence : option Z) (limit : Z)
| LiveUpdates (task_id : TaskId) (live_generation : str) (after_cursor : option Z) (limit : Z)
| MaintenanceStatus
| PrepareMaintenance
| Shutdown.
End ServiceCommand.
Abbreviation ServiceCommand := ServiceCommand.ServiceCommand.

Record ServiceRequest := {
  sr_protocol_version : Z;
  sr_request_id : str;
  sr_idempotency_key : str;
  sr_command : ServiceCommand
}.

(** ** Results *)

Record ServiceModel := {
  sm_id : ModelId;
  sm_display_name : str;
  sm_supported_efforts : list ReasoningEffort;
  sm_default_effort : ReasoningEffort
}.

Record ServiceCapabilities := {
  durable_events : bool;
  reconnect : bool;
  trusted_buzz_admission : bool;
  configure_active_task : bool;
  explicit_task_budgets : bool;
  sanitized_task_metrics : bool;
  recoverable_maintenance : bool;
  explicit_task_compaction : bool;
  durable_frontend_sessions : bool
}.

Record ServiceInfo := {
  si_protocol_version : Z;
  si_live_generation : str;
  si_provider : str;
  si_models : list ServiceModel;
  si_default_model : option ModelId;
  si_default_effort : option ReasoningEffort;
  si_capabilities : ServiceCapabilities
}.

Record ServiceSessionInfo := {
  ssi_external_session_id : str;
  ssi_session_id : SessionId;
  ssi_frontend : Frontend;
  ssi_workspace : PathBuf;
  ssi_channel_id : option str;
  ssi_permission_mode : PermissionMode;
  ssi_task_ids : list TaskId
}.

Record ServiceSessionSummary := {
  ss_external_session_id : str;
  ss_session_id : SessionId;
  ss_workspace : PathBuf;
  ss_permission_mode : PermissionMode;
  ss_provider : str;
  ss_latest_task_id : option TaskId;
  ss_latest_task_status : option TaskStatus;
  ss_model : option ModelId;
  ss_effort : option ReasoningEffort;
  ss_created_at : Z;
  ss_updated_at : Z
}.

Module MaintenancePhase.
Inductive MaintenancePhase : Set := Running | Draining | Ready.
End MaintenancePhase.
Abbreviation MaintenancePhase := MaintenancePhase.MaintenancePhase.

(** [ServiceMaintenanceStatus] and its unchecked form have the same fields. *)
Record ServiceMaintenanceStatus := {
  ms_schema_version : Z;
  ms_phase : MaintenancePhase;
  ms_task_id : option TaskId;
  ms_checkpoint_id : option CheckpointId
}.

(** [TryFrom<UncheckedServiceMaintenanceStatus>]: the check deserialization makes. *)
Definition ServiceMaintenanceStatus_try_from (status : ServiceMaintenanceStatus) :
    result str ServiceMaintenanceStatus :=
  let valid :=
    (status.(ms_schema_version) =? 1)
    && match status.(ms_phase) with
       | MaintenancePhase.Running => negb (is_some status.(ms_checkpoint_id))
       | MaintenancePhase.Draining =>
           is_some status.(ms_task_id) && negb (is_some status.(ms_checkpoint_id))
       | MaintenancePhase.Ready =>
           Bool.eqb (is_some status.(ms_task_id)) (is_some status.(ms_checkpoint_id))
       end in
  _ ← reject (negb valid) (lit "invalid service maintenance status");
  Ok status.

Module TaskUpdate.
Inductive TaskUpdate : Type :=
| Status (status : TaskStatus)
| EpochObjective (objective : str)
| ToolStarted (tool : str)
| ToolCompleted (tool : str)
| AssistantDelta (delta : str)
| Diff (diff : str)
| ApprovalRequired (task_id : TaskId) (operation_id : OperationId) (display_code summary : str)
    (request_id : str) (session_id : SessionId) (turn_id : TurnId) (external_session_id : str)
| Checkpoint (checkpoint_id : CheckpointId)
| ContextUsage (used window : Z)
| Compaction (generation : Z)
| CompletionClauses (clauses : list CompletionClause).
End TaskUpdate.
Abbreviation TaskUpdate := TaskUpdate.TaskUpdate.
#[export] Instance TaskUpdate_eq_dec : EqDecision TaskUpdate.
Proof. solve_decision. Defined.

Record LiveUpdateEnvelope := { lu_cursor : Z; lu_update : TaskUpdate }.

Record LiveUpdatePage := {
  lp_live_generation : str;
  lp_updates : list LiveUpdateEnvelope;
  lp_cursor : option Z;
  lp_snapshot : option TaskSnapshot
}.

Module ServiceResult.
Inductive ServiceResult : Type :=
| Info (info : ServiceInfo)
| Session (session : ServiceSessionInfo)
| SessionList (sessions : list ServiceSessionSummary)
| Accepted (task_id : TaskId)
| Snapshot (snapshot : TaskSnapshot)
| Metrics (metrics : TaskMetrics)
| TaskList (tasks : list TaskSnapshot)
| Events (events : list EventEnvelope)
| LiveUpdates (page : LiveUpdatePage)
| Maintenance (status : ServiceMaintenanceStatus)
| Applied.
End ServiceResult.
Abbreviation ServiceResult := ServiceResult.ServiceResult.

Module ServiceFrame.
Inductive ServiceFrame : Type :=
| Response (request_id : str) (res : ServiceResult)
| Error (request_id code message : str)
| Event (task_id : TaskId) (sequence : Z) (update : TaskUpdate).
End ServiceFrame.
Abbreviation ServiceFrame := ServiceFrame.ServiceFrame.

Module ProtocolErrorCode.
Inductive ProtocolErrorCode : Set :=
| InvalidFrame | FrameTooLarge | UnsupportedVersion | InvalidIdentifier | InvalidRequest
| InvalidEventLimit | DuplicateRequestId | IdempotencyConflict | LedgerFull.
End ProtocolErrorCode.
Abbreviation ProtocolErrorCode := ProtocolErrorCode.ProtocolErrorCode.
#[export] Instance ProtocolErrorCode_eq_dec : EqDecision ProtocolErrorCode.
Proof. solve_decision. Defined.

(** ** Validation *)

Definition validate_hex_digest (value : str) : result ProtocolErrorCode unit :=
  reject (negb (len value =? 64) || negb (forallb is_hex_byte (utf8 value)))
    ProtocolErrorCode.InvalidRequest.

Definition validate_identifier (value : str) : result ProtocolErrorCode unit :=
  reject (is_empty value || (MAX_IDENTIFIER_BYTES <? len value) || existsb is_control value)
    ProtocolErrorCode.InvalidIdentifier.

Definition validate_bounded_text (value : str) (maximum : Z) (allow_line_controls : bool) :
    result ProtocolErrorCode unit :=
  let invalid_control :=
    existsb (fun character =>
      is_control character && negb (allow_line_controls && (character ∈? [10; 13; 9]))) value in
  reject (is_empty (trim value) || (maximum <? len value) || invalid_control)
    ProtocolErrorCode.InvalidRequest.

Definition validate_start (command : StartTaskCommand) : result ProtocolErrorCode unit :=
  _ ← validate_bounded_text command.(st_external_session_id) MAX_EXTERNAL_SESSION_BYTES false;
  _ ← validate_bounded_text command.(st_request) MAX_TASK_TEXT_BYTES true;
  map_err (fun _ => ProtocolErrorCode.InvalidRequest)
    (validate_for_admission command.(st_budget)).

Definition is_mutation (command : ServiceCommand) : bool :=
  match command with
  | ServiceCommand.StartTask _
  | ServiceCommand.StartTrustedTask _
  | ServiceCommand.ConfigureTrustedSession _ _ _ _ _ _ _
  | ServiceCommand.ResolveApproval _ _ _ _ _ _ _ _ _ _ _
  | ServiceCommand.Resume _
  | ServiceCommand.Steer _ _
  | ServiceCommand.SteerTrusted _ _ _ _ _ _ _ _
  | ServiceCommand.Cancel _
  | ServiceCommand.Compact _
  | ServiceCommand.Configure _ _ _ _
  | ServiceCommand.PrepareMaintenance
  | ServiceCommand.Shutdown => true
  | _ => false
  end.

Section Validation.
(** [uuid::Uuid::parse_str(value).is_ok()]. *)
Variable uuid_parses : str -> bool.

Definition validate_command (command : ServiceCommand) : result ProtocolErrorCode unit :=
  match command with
  | ServiceCommand.StartTask command =>
      _ ← reject (negb (command.(st_frontend) ∈? [Frontend.Acp; Frontend.Tui]))
            ProtocolErrorCode.InvalidRequest;
      validate_start command
  | ServiceCommand.StartTrustedTask command =>
      _ ← validate_start command.(ts_start);
      _ ← reject (negb (command.(ts_frontend) =?? Frontend.Buzz)) ProtocolErrorCode.InvalidRequest;
      _ ← validate_bounded_text command.(ts_channel_id) MAX_IDENTIFIER_BYTES false;
      validate_hex_digest command.(ts_event_id)
  | ServiceCommand.ConfigureTrustedSession external_session_id _ frontend _ channel_id event_id _ =>
      _ ← reject (negb (frontend =?? Frontend.Buzz)) ProtocolErrorCode.InvalidRequest;
      _ ← validate_bounded_text external_session_id MAX_EXTERNAL_SESSION_BYTES false;
      _ ← validate_bounded_text channel_id MAX_IDENTIFIER_BYTES false;
      validate_hex_digest event_id
  | ServiceCommand.Steer _ text => validate_bounded_text text MAX_TASK_TEXT_BYTES true
  | ServiceCommand.ResolveApproval _ external_session_id _ frontend _ channel_id event_id
      display_code _ _ _ =>
      _ ← validate_bounded_text external_session_id MAX_EXTERNAL_SESSION_BYTES false;
      _ ← validate_bounded_text display_code MAX_IDENTIFIER_BYTES false;
      match frontend with
      | Frontend.Buzz =>
          channel_id ← ok_or channel_id ProtocolErrorCode.InvalidRequest;
          _ ← validate_bounded_text channel_id MAX_IDENTIFIER_BYTES false;
          event_id ← ok_or event_id ProtocolErrorCode.InvalidRequest;
          validate_hex_digest event_id
      | Frontend.Acp | Frontend.Tui =>
          reject (is_some channel_id || is_some event_id) ProtocolErrorCode.InvalidRequest
      | _ => Err ProtocolErrorCode.InvalidRequest
      end
  | ServiceCommand.Session external_session_id =>
      validate_bounded_text external_session_id MAX_EXTERNAL_SESSION_BYTES false
  | ServiceCommand.Sessions _ limit =>
      reject (outside 1 64 limit) ProtocolErrorCode.InvalidEventLimit
  | ServiceCommand.SteerTrusted _ external_session_id text _ frontend _ channel_id event_id =>
      _ ← reject (negb (frontend =?? Frontend.Buzz)) ProtocolErrorCode.InvalidRequest;
      _ ← validate_bounded_text text MAX_TASK_TEXT_BYTES true;
      _ ← validate_bounded_text external_session_id MAX_EXTERNAL_SESSION_BYTES false;
      _ ← validate_bounded_text channel_id MAX_IDENTIFIER_BYTES false;
      validate_hex_digest event_id
  | ServiceCommand.Events _ _ limit =>
      reject (outside 1 512 limit) ProtocolErrorCode.InvalidEventLimit
  | ServiceCommand.LiveUpdates _ live_generation _ limit =>
      _ ← reject (outside 1 512 limit) ProtocolErrorCode.InvalidEventLimit;
      reject (negb (uuid_parses live_generation)) ProtocolErrorCode.InvalidRequest
  | _ => Ok tt
  end.

Definition validate_request (request : ServiceRequest) : result ProtocolErrorCode unit :=
  _ ← reject (negb (request.(sr_protocol_version) =? SERVICE_PROTOCOL_VERSION))
        ProtocolErrorCode.UnsupportedVersion;
  _ ← validate_identifier request.(sr_request_id);
  _ ← validate_identifier request.(sr_idempotency_key);
  validate_command request.(sr_command).
End Validation.

(** ** The ledger of a connection *)

Record RequestLedger := {
  request_ids : gset str;
  request_order : list str;
  idempotency_digests : gmap str Sha256Digest;
  idempotency_order : list str
}.

Definition RequestLedger_default : RequestLedger :=
  {| request_ids := ∅; request_order := []; idempotency_digests := ∅; idempotency_order := [] |}.

Section Ledger.
(** [serde_json::to_vec] of a command and [Sha256::digest]. *)
Variable command_to_vec : ServiceCommand -> option bytes.
Variable sha256 : bytes -> Sha256Digest.

Definition command_digest (command : ServiceCommand) : result ProtocolErrorCode Sha256Digest :=
  canonical ← ok_or (command_to_vec command) ProtocolErrorCode.InvalidRequest;
  Ok (sha256 canonical).

(** The two queues drop their oldest entry when the index is full. *)
Definition record_request_id (self : RequestLedger) (request_id : str) : RequestLedger :=
  let '(ids, order) :=
    if MAX_REQUESTS_PER_CONNECTION <=? Z.of_nat (size self.(request_ids))
    then match self.(request_order) with
         | evicted :: order => (self.(request_ids) ∖ {[evicted]}, order)
         | [] => (self.(request_ids), [])
         end
    else (self.(request_ids), self.(request_order)) in
  {| request_ids := {[request_id]} ∪ ids; request_order := order ++ [request_id];
     idempotency_digests := self.(idempotency_digests);
     idempotency_order := self.(idempotency_order) |}.

Definition record_idempotency_key (self : RequestLedger) (key : str) (digest : Sha256Digest) :
    RequestLedger :=
  let '(digests, order) :=
    if MAX_REQUESTS_PER_CONNECTION <=? Z.of_nat (size self.(idempotency_digests))
    then match self.(idempotency_order) with
         | evicted :: order => (delete evicted self.(idempotency_digests), order)
         | [] => (self.(idempotency_digests), [])
         end
    else (self.(idempotency_digests), self.(idempotency_order)) in
  {| request_ids := self.(request_ids); request_order := self.(request_order);
     idempotency_digests := <[key := digest]> digests; idempotency_order := order ++ [key] |}.

(** [RequestLedger::record] changes the ledger only when it succeeds. *)
Definition record (self : RequestLedger) (request : ServiceRequest) :
    result ProtocolErrorCode RequestLedger :=
  _ ← reject (bool_decide (request.(sr_request_id) ∈ self.(request_ids)))
        ProtocolErrorCode.DuplicateRequestId;
  mutation_digest ←
    (if is_mutation request.(sr_command) then
       digest ← command_digest request.(sr_command);
       _ ← reject (is_some_and (self.(idempotency_digests) !! request.(sr_idempotency_key))
                     (fun existing => negb (existing =?? digest)))
             ProtocolErrorCode.IdempotencyConflict;
       Ok (Some digest)
     else Ok None);
  let self := record_request_id self request.(sr_request_id) in
  Ok match mutation_digest with
     | Some digest =>
         if is_some (self.(idempotency_digests) !! request.(sr_idempotency_key)) then self
         else record_idempotency_key self request.(sr_idempotency_key) digest
     | None => self
     end.
End Ledger.

(** ** Lines *)

(** [slice.strip_suffix(&[byte])]. *)
Definition strip_suffix_byte (byte : Z) (line : bytes) : option bytes :=
  match last line with
  | Some b => if b =? byte then Some (take (length line - 1) line) else None
  | None => None
  end.

Definition strip_newline (line : bytes) : result ProtocolErrorCode bytes :=
  match strip_suffix_byte 10 line with
  | None =>
      if MAX_SERVICE_FRAME_BYTES <? Zlen line then Err ProtocolErrorCode.FrameTooLarge
      else Err ProtocolErrorCode.InvalidFrame
  | Some payload => Ok (default payload (strip_suffix_byte 13 payload))
  end.

(** [encode_json_line], given [serde_json::to_vec] at the type of the value. *)
Definition encode_json_line {T} (to_vec : T -> option bytes) (value : T) :
    result ProtocolErrorCode bytes :=
  encoded ← ok_or (to_vec value) ProtocolErrorCode.InvalidFrame;
  _ ← reject (MAX_SERVICE_FRAME_BYTES <? Zlen encoded) ProtocolErrorCode.FrameTooLarge;
  Ok (encoded ++ [10]).

Section Lines.
(** [serde_json] at the types of requests, commands and frames. *)
Variable request_to_vec : ServiceRequest -> option bytes.
Variable request_from_slice : bytes -> option ServiceRequest.
Variable frame_to_vec : ServiceFrame -> option bytes.
Variable frame_from_slice : bytes -> option ServiceFrame.
Variable command_to_vec : ServiceCommand -> option bytes.
Variable sha256 : bytes -> Sha256Digest.
Variable uuid_parses : str -> bool.

Definition encode_request (request : ServiceRequest) : result ProtocolErrorCode bytes :=
  encode_json_line request_to_vec request.

Definition encode_frame (frame : ServiceFrame) : result ProtocolErrorCode bytes :=
  encode_json_line frame_to_vec frame.

(** The ledger is returned beside the request; a failure leaves it as it was. *)
Definition decode_request_line (line : bytes) (ledger : RequestLedger) :
    result ProtocolErrorCode (ServiceRequest * RequestLedger) :=
  payload ← strip_newline line;
  _ ← reject (MAX_SERVICE_FRAME_BYTES <? Zlen payload) ProtocolErrorCode.FrameTooLarge;
  request ← ok_or (request_from_slice payload) ProtocolErrorCode.InvalidFrame;
  _ ← validate_request uuid_parses request;
  ledger ← record command_to_vec sha256 ledger request;
  Ok (request, ledger).

Definition decode_frame_line (line : bytes) : result ProtocolErrorCode ServiceFrame :=
  payload ← strip_newline line;
  _ ← reject (MAX_SERVICE_FRAME_BYTES <? Zlen payload) ProtocolErrorCode.FrameTooLarge;
  ok_or (frame_from_slice payload) ProtocolErrorCode.InvalidFrame.
End Lines.

(** ** What the ledger remembers

    The reference keeps, without any bound, the identifier of every request that
    was accepted and every key it introduced with the digest of its command.  It
    answers from the last 4,096 of each. *)

Definition last_n {A} (n : nat) (l : list A) : list A := drop (length l - n) l.

Definition window : nat := Z.to_nat MAX_REQUESTS_PER_CONNECTION.

Record History := { accepted : list str; introduced : list (str * Sha256Digest) }.

Definition history_record (to_vec : ServiceCommand -> option bytes) (sha256 : bytes -> Sha256Digest)
    (h : History) (request : ServiceRequest) : result ProtocolErrorCode History :=
  let key := request.(sr_idempotency_key) in
  _ ← reject (request.(sr_request_id) ∈? last_n window h.(accepted))
        ProtocolErrorCode.DuplicateRequestId;
  new ← (if is_mutation request.(sr_command) then
           digest ← command_digest to_vec sha256 request.(sr_command);
           _ ← reject (existsb (fun '(k, d) => (k =?? key) && negb (d =?? digest))
                         (last_n window h.(introduced)))
                 ProtocolErrorCode.IdempotencyConflict;
           Ok (if key ∈? (last_n window h.(introduced)).*1 then [] else [(key, digest)])
         else Ok []);
  Ok {| accepted := h.(accepted) ++ [request.(sr_request_id)];
        introduced := h.(introduced) ++ new |}.

(** What the ledger holds of a history. *)
Definition ledger_of (l : RequestLedger) (h : History) : Prop :=
  l.(request_order) = last_n window h.(accepted)
  /\ NoDup l.(request_order)
  /\ l.(request_ids) = list_to_set l.(request_order)
  /\ l.(idempotency_order) = (last_n window h.(introduced)).*1
  /\ NoDup l.(idempotency_order)
  /\ l.(idempotency_digests) = list_to_map (last_n window h.(introduced)).

(** A connection that goes on after a request it refused. *)
Definition serve {S} (step : S -> ServiceRequest -> result ProtocolErrorCode S) (s : S)
    (request : ServiceRequest) : S :=
  match step s request with Ok s' => s' | Err _ => s end.

Section LastN.
Context {A : Type}.
Implicit Types (l : list A).

Lemma last_n_length n l : length (last_n n l) = Nat.min n (length l).
Proof. unfold last_n. rewrite length_drop. lia. Qed.

Lemma last_n_snoc n l x :
  (0 < n)%nat ->
  last_n n (l ++ [x])
  = (if decide (n <= length (last_n n l))%nat then tail (last_n n l) else last_n n l) ++ [x].
Proof.
  intros Hn. rewrite last_n_length. unfold last_n. rewrite length_app. simpl.
  destruct (decide _) as [Hle|Hlt].
  - rewrite drop_app_le by lia. f_equal.
    replace (length l + 1 - n)%nat with (S (length l - n)) by lia.
    rewrite <-Nat.add_1_r, <-drop_drop. by destruct (drop (length l - n) l).
  - replace (length l + 1 - n)%nat with 0%nat by lia.
    by replace (length l - n)%nat with 0%nat by lia.
Qed.
End LastN.

(** The test for a full index, on the length of the queue beside it. *)
Lemma full_spec (n : nat) :
  (MAX_REQUESTS_PER_CONNECTION <=? Z.of_nat n) = bool_decide (window <= n)%nat.
Proof.
  unfold window. apply eq_true_iff_eq. rewrite bool_decide_eq_true, Z.leb_le.
  change MAX_REQUESTS_PER_CONNECTION with 4096. lia.
Qed.

Lemma window_pos : (0 < window)%nat.
Proof. unfold window, MAX_REQUESTS_PER_CONNECTION. lia. Qed.

Lemma nodup_snoc {A} (l : list A) x : NoDup l -> x ∉ l -> NoDup (l ++ [x]).
Proof. intros. apply NoDup_app. split_and!; [done|set_solver|apply NoDup_singleton]. Qed.

(** The index and the queue of the identifiers drop the same entry. *)
Lemma record_request_id_window l h id :
  ledger_of l h -> id ∉ l.(request_order) ->
  ledger_of (record_request_id l id)
    {| accepted := h.(accepted) ++ [id]; introduced := h.(introduced) |}.
Proof.
  intros (Ho & Hnd & Hids & Hrest) Hid. unfold record_request_id, ledger_of. simpl.
  rewrite Hids, size_list_to_set, full_spec, last_n_snoc, <-Ho by (done || apply window_pos).
  rewrite decide_bool_decide. destruct (bool_decide _).
  - destruct (request_order l) as [|e order]; simpl.
    + split_and!; [done|apply NoDup_singleton|set_solver|apply Hrest..].
    + apply NoDup_cons in Hnd as [??].
      split_and!; [done|apply nodup_snoc; set_solver|set_solver|apply Hrest..].
  - split_and!; [done|by apply nodup_snoc|set_solver|apply Hrest..].
Qed.

(** So do the index and the queue of the keys. *)
Lemma record_idempotency_key_window l h key digest :
  ledger_of l h -> key ∉ l.(idempotency_order) ->
  ledger_of (record_idempotency_key l key digest)
    {| accepted := h.(accepted); introduced := h.(introduced) ++ [(key, digest)] |}.
Proof.
  intros (Ho & Hnd & Hids & Hk & Hndk & Hm) Hkey.
  unfold record_idempotency_key, ledger_of. simpl.
  assert (Hsize : size l.(idempotency_digests) = length (last_n window h.(introduced))).
  { rewrite Hm, map_size_list_to_map; [done|by rewrite <-Hk]. }
  rewrite Hsize, full_spec, last_n_snoc by apply window_pos.
  rewrite decide_bool_decide, Hm.
  rewrite Hk in Hndk, Hkey |- *.
  destruct (bool_decide _).
  - destruct (last_n window h.(introduced)) as [|[e de] order]; simpl in *.
    + split_and!; [done..|apply NoDup_singleton|done].
    + apply NoDup_cons in Hndk as [??].
      split_and!; [done..| | |].
      * by rewrite fmap_app.
      * apply nodup_snoc; set_solver.
      * rewrite delete_insert_id by by apply not_elem_of_list_to_map.
        rewrite list_to_map_snoc by set_solver. done.
  - split_and!; [done..| | |].
    + by rewrite fmap_app.
    + by apply nodup_snoc.
    + by rewrite list_to_map_snoc.
Qed.

Section LedgerRefinement.
Variable to_vec : ServiceCommand -> option bytes.
Variable sha256 : bytes -> Sha256Digest.

(** The conflict the ledger finds in its index is the one in the window. *)
Lemma conflict_spec l h key (digest : Sha256Digest) :
  ledger_of l h ->
  is_some_and (l.(idempotency_digests) !! key) (fun existing => negb (existing =?? digest))
  = existsb (fun '(k, d) => (k =?? key) && negb (d =?? digest)) (last_n window h.(introduced)).
Proof.
  intros (_ & _ & _ & Hk & Hnd & Hm). rewrite Hk in Hnd. rewrite Hm.
  apply eq_true_iff_eq. rewrite existsb_exists. split.
  - destruct (list_to_map _ !! key) as [d|] eqn:Hl; simpl; [|done]. intros Hd.
    apply elem_of_list_to_map_2, list_elem_of_In in Hl.
    exists (key, d). split; [done|]. by rewrite bool_decide_true.
  - intros ([k d] & Hin & [->%bool_decide_eq_true Hd]%andb_true_iff).
    apply list_elem_of_In in Hin. rewrite (elem_of_list_to_map_1 _ _ d) by assumption. exact Hd.
Qed.

Definition simulates (x : result ProtocolErrorCode RequestLedger)
    (y : result ProtocolErrorCode History) : Prop :=
  match x, y with
  | Ok l, Ok h => ledger_of l h
  | Err e, Err e' => e = e'
  | _, _ => False
  end.

Lemma record_simulates l h request :
  ledger_of l h ->
  simulates (record to_vec sha256 l request) (history_record to_vec sha256 h request).
Proof.
  intros HR. pose proof HR as (Ho & _ & Hids & Hk & Hnd & Hm).
  unfold record, history_record.
  unfold contains. rewrite <-Ho.
  destruct (decide (request.(sr_request_id) ∈ l.(request_order))) as [Hid|Hid].
  { by rewrite (bool_decide_true (_ ∈ request_ids l)), (bool_decide_true (_ ∈ request_order l))
      by set_solver. }
  rewrite (bool_decide_false (_ ∈ request_ids l)), (bool_decide_false (_ ∈ request_order l))
    by set_solver. simpl.
  pose proof (record_request_id_window _ _ _ HR Hid) as HR'.
  destruct (is_mutation _); simpl; [|by rewrite app_nil_r].
  destruct (command_digest _ _ _) as [digest|]; simpl; [|done].
  rewrite (conflict_spec _ _ _ digest HR).
  destruct (existsb _ _); simpl; [done|].
  set (l' := record_request_id l _) in *. set (h' := Build_History _ _) in HR'.
  pose proof HR' as (_ & _ & _ & Hk' & _ & Hm').
  rewrite Hm'. subst h'. simpl in *.
  destruct (list_to_map _ !! _) eqn:Hl; simpl.
  - apply elem_of_list_to_map_2, (list_elem_of_fmap_2 fst) in Hl.
    rewrite bool_decide_true by done. by rewrite app_nil_r.
  - apply not_elem_of_list_to_map in Hl. rewrite bool_decide_false by done.
    apply (record_idempotency_key_window l' (Build_History _ _)); [done|]. by rewrite Hk'.
Qed.

Lemma serve_simulates requests l h :
  ledger_of l h ->
  ledger_of (foldl (serve (record to_vec sha256)) l requests)
    (foldl (serve (history_record to_vec sha256)) h requests).
Proof.
  revert l h. induction requests as [|r requests IH]; intros l h HR; simpl; [done|].
  apply IH. pose proof (record_simulates l h r HR) as Hs.
  unfold serve, simulates in *.
  destruct (record _ _ _ _), (history_record _ _ _ _); done.
Qed.

(** C18: The ledger of a connection implements its specification: after any
    sequence of requests it accepts, refuses as a duplicate or refuses as a
    conflict exactly the request the unbounded history of the connection does,
    looking at its last 4,096 accepted requests and its last 4,096 keys; its two
    queues and two indexes hold those entries and nothing else, so it never
    holds more and is never full. *)
Theorem ledger_refines_history (requests : list ServiceRequest) (request : ServiceRequest) :
  let l := foldl (serve (record to_vec sha256)) RequestLedger_default requests in
  let h := foldl (serve (history_record to_vec sha256)) (Build_History [] []) requests in
  ledger_of l h
  /\ simulates (record to_vec sha256 l request) (history_record to_vec sha256 h request)
  /\ Z.of_nat (length l.(request_order)) <= MAX_REQUESTS_PER_CONNECTION
  /\ Z.of_nat (size l.(idempotency_digests)) <= MAX_REQUESTS_PER_CONNECTION.
Proof.
  intros l h.
  assert (HR : ledger_of l h).
  { apply serve_simulates. split_and!; try done; apply NoDup_nil_2. }
  split_and!; [done|by apply record_simulates| |].
  - rewrite (proj1 HR), last_n_length. unfold window, MAX_REQUESTS_PER_CONNECTION. lia.
  - destruct HR as (_ & _ & _ & Hk & Hnd & ->). rewrite Hk in Hnd.
    rewrite map_size_list_to_map, last_n_length by done. unfold window, MAX_REQUESTS_PER_CONNECTION. lia.
Qed.
End LedgerRefinement.

(** ** Lines round trip *)

Lemma strip_suffix_snoc (l : bytes) b : strip_suffix_byte b (l ++ [b]) = Some l.
Proof.
  unfold strip_suffix_byte. rewrite last_snoc, Z.eqb_refl, length_app. simpl. f_equal.
  replace (length l + 1 - 1)%nat with (length l) by lia. by rewrite take_app_length.
Qed.

Lemma strip_suffix_other (l : bytes) b : last l <> Some b -> strip_suffix_byte b l = None.
Proof.
  unfold strip_suffix_byte. destruct (last l) as [c|]; [|done]. intros Hc.
  destruct (Z.eqb_spec c b); congruence.
Qed.

(** A payload that does not end in a carriage return survives the framing, with
    either line ending. *)
Lemma strip_newline_payload (l : bytes) :
  last l <> Some 13 -> strip_newline (l ++ [10]) = Ok l /\ strip_newline (l ++ [13; 10]) = Ok l.
Proof.
  intros Hl. unfold strip_newline. change [13; 10] with ([13] ++ [10]). rewrite (assoc_L (++)).
  by rewrite !strip_suffix_snoc, strip_suffix_other.
Qed.

Section Roundtrip.
Variable request_to_vec : ServiceRequest -> option bytes.
Variable request_from_slice : bytes -> option ServiceRequest.
Variable command_to_vec : ServiceCommand -> option bytes.
Variable sha256 : bytes -> Sha256Digest.
Variable uuid_parses : str -> bool.

(** C29: A request that is sent is the request that is received: a request the
    service would accept is encoded, when its JSON fits the frame, as a line whose
    decoding yields that request and the ledger with it recorded, and a line that
    ends in CRLF decodes alike; nothing is assumed of [serde_json] but that it
    reads back what it wrote and that an object does not end in a carriage
    return. *)
Theorem request_line_roundtrip (request : ServiceRequest) (payload : bytes)
    (ledger ledger' : RequestLedger)
    (read_back : forall r b, request_to_vec r = Some b -> request_from_slice b = Some r)
    (no_cr : forall r b, request_to_vec r = Some b -> last b <> Some 13) :
  request_to_vec request = Some payload -> Zlen payload <= MAX_SERVICE_FRAME_BYTES ->
  validate_request uuid_parses request = Ok tt ->
  record command_to_vec sha256 ledger request = Ok ledger' ->
  let decode line := decode_request_line request_from_slice command_to_vec sha256 uuid_parses line ledger in
  exists line, encode_request request_to_vec request = Ok line
    /\ decode line = Ok (request, ledger') /\ decode (payload ++ [13; 10]) = Ok (request, ledger').
Proof.
  intros Hp Hlen Hv Hr decode. exists (payload ++ [10]).
  destruct (strip_newline_payload payload (no_cr _ _ Hp)) as [H1 H2].
  assert (Hl : (MAX_SERVICE_FRAME_BYTES <? Zlen payload) = false) by lia.
  unfold encode_request, encode_json_line, decode, decode_request_line.
  rewrite H1, H2, Hp. cbn [mbind result_bind ok_or reject]. rewrite Hl.
  cbn [mbind result_bind reject]. rewrite (read_back _ _ Hp). cbn [mbind result_bind ok_or].
  by rewrite Hv, Hr.
Qed.
End Roundtrip.

Lemma request_line_roundtrip_witness :
  let request := {| sr_protocol_version := 7; sr_request_id := lit "r"; sr_idempotency_key := lit "k";
                    sr_command := ServiceCommand.Shutdown |} in
  let to_vec r :=
    match r.(sr_command) with
    | ServiceCommand.Shutdown =>
        if (r.(sr_protocol_version) =?? 7) && (r.(sr_request_id) =?? lit "r")
           && (r.(sr_idempotency_key) =?? lit "k") then Some [123; 125] else None
    | _ => None
    end in
  let from_slice b := if b =?? [123; 125] then Some request else None in
  exists line, encode_request to_vec request = Ok line
    /\ is_ok (decode_request_line from_slice (fun _ => Some []) id (fun _ => true) line
                RequestLedger_default) = true.
Proof.
  intros request to_vec from_slice.
  destruct (request_line_roundtrip to_vec from_slice (fun _ => Some []) id (fun _ => true) request
              [123; 125] RequestLedger_default
              (record_idempotency_key (record_request_id RequestLedger_default (lit "r")) (lit "k") []))
    as (line & He & Hd & _).
  - intros [v i k c] b. unfold to_vec. simpl. destruct c; try discriminate.
    case_bool_decide; [|discriminate]. case_bool_decide; [|discriminate].
    case_bool_decide; [|discriminate]. simpl. intros [= <-]. subst. reflexivity.
  - intros r b. unfold to_vec. destruct r.(sr_command); try discriminate.
    case_match; [|discriminate]. intros [= <-]. discriminate.
  - reflexivity.
  - unfold MAX_SERVICE_FRAME_BYTES. simpl. lia.
  - reflexivity.
  - reflexivity.
  - exists line. by rewrite Hd.
Defined.

(** ** What an accepted command carries *)

(** The front end a command says it comes from, with its channel and event. *)
Definition claimed_origin (command : ServiceCommand) : option (Frontend * option str * option str) :=
  match command with
  | ServiceCommand.StartTask c => Some (c.(st_frontend), None, None)
  | ServiceCommand.StartTrustedTask c =>
      Some (c.(ts_frontend), Some c.(ts_channel_id), Some c.(ts_event_id))
  | ServiceCommand.ConfigureTrustedSession _ _ f _ ch ev _ => Some (f, Some ch, Some ev)
  | ServiceCommand.ResolveApproval _ _ _ f _ ch ev _ _ _ _ => Some (f, ch, ev)
  | ServiceCommand.SteerTrusted _ _ _ _ f _ ch ev => Some (f, Some ch, Some ev)
  | _ => None
  end.

Lemma validate_hex_digest_ok value : validate_hex_digest value = Ok tt <-> is_hex64 value = true.
Proof. unfold validate_hex_digest, is_hex64. autorewrite with carl. done. Qed.

Definition has_buzz_evidence (f : Frontend) (ch ev : option str) : Prop :=
  f = Frontend.Buzz /\ exists channel event, ch = Some channel /\ ev = Some event
    /\ is_empty (trim channel) = false /\ len channel <= MAX_IDENTIFIER_BYTES
    /\ is_hex64 event = true.

Lemma buzz_evidence channel event u v :
  validate_bounded_text channel MAX_IDENTIFIER_BYTES false = Ok u ->
  validate_hex_digest event = Ok v ->
  has_buzz_evidence Frontend.Buzz (Some channel) (Some event).
Proof.
  intros Hc He. destruct v. apply validate_hex_digest_ok in He.
  unfold validate_bounded_text in Hc. carl_simpl. split; [done|].
  exists channel, event. split_and!; auto. lia.
Qed.

(** A command that claims an origin and passed the validation comes from a local
    front end and carries no remote evidence, or from Buzz and carries a channel
    and the identifier of an event. *)
Theorem accepted_origin uuid_parses request f ch ev :
  validate_request uuid_parses request = Ok tt ->
  claimed_origin request.(sr_command) = Some (f, ch, ev) ->
  (f = Frontend.Acp \/ f = Frontend.Tui) /\ ch = None /\ ev = None
  \/ has_buzz_evidence f ch ev.
Proof.
  intros Hv Ho. unfold validate_request in Hv. carl_simpl.
  destruct request.(sr_command); simplify_eq/=; carl_simpl; eauto using buzz_evidence.
  - left. set_solver.
  - right. match goal with H : ts_frontend _ = _ |- _ => rewrite H end. eauto using buzz_evidence.
  - match goal with x : Frontend |- _ => destruct x end; carl_simpl; eauto using buzz_evidence; left; auto.
Qed.
