(* ===== verification/Live.v ===== *)
(** * Live updates

    [src/service/server.rs]: the hub that keeps, for each task, the last updates
    in a ring, and answers the polls of the front ends from it; and the
    translation of the engine's updates into those a front end may see
    ([TaskEngineUpdate] is of [src/runtime/task/engine.rs]).

    A lock is only poisoned by a panic under it, and no code does that: taking it
    succeeds.  The channel by which a poll that found nothing waits for the next
    update has one place, so it is the number of messages in it; the wait itself
    ends by a message or by the timeout, and the page is computed afterwards in
    either case.  [serde_json::to_vec] of the completion clauses is a parameter.

    The theorems show that the pages of a task are exactly its published updates,
    in order, without gap or repetition, or an explicit loss, and what happens when
    an approval is still pending. *)
From stdpp Require Import base gmap sets list strings relations.
From Stdlib Require Import ZArith Lia.
From S2P Require Import Prelude Text Settings Policy TaskTypes Events SecretFilter Service.
#[local] Open Scope list_scope.
#[local] Open Scope Z_scope.

Definition LIVE_UPDATE_CAPACITY : Z := 128.

(** ** From the engine's updates *)

Module EngineToolKind.
Inductive EngineToolKind : Set := Execute | Edit.
End EngineToolKind.
Abbreviation EngineToolKind := EngineToolKind.EngineToolKind.

Module EngineToolStatus.
Inductive EngineToolStatus : Set := Completed | Failed | Cancelled.
End EngineToolStatus.
Abbreviation EngineToolStatus := EngineToolStatus.EngineToolStatus.

Module TaskEngineUpdate.
Inductive TaskEngineUpdate : Type :=
| TaskStatus (task_id : TaskId) (status : TaskTypes.TaskStatus)
| EpochObjective (task_id : TaskId) (epoch_id : EpochId) (objective : str)
| CheckpointCommitted (task_id : TaskId) (checkpoint_id : CheckpointId) (digest : str)
| ContextUsage (task_id : TaskId) (total_tokens : Z) (context_window : option Z)
| Compaction (task_id : TaskId) (generation : Z) (replaced_provider : bool)
| RecoveryStrategy (task_id : TaskId) (strategy : TaskTypes.RecoveryStrategy)
| CompletionClauses (task_id : TaskId) (clauses : list CompletionClause)
| AgentMessageChunk (text : str)
| ToolStarted (title : str) (kind : EngineToolKind)
| ToolCompleted (title : str) (status : EngineToolStatus)
| DiffUpdated (diff : str)
| PermissionRequired (request_id summary : str).
End TaskEngineUpdate.
Abbreviation TaskEngineUpdate := TaskEngineUpdate.TaskEngineUpdate.

Definition bounded_safe_text (text : str) (maximum : Z) : bool :=
  negb (is_empty text) && (len text <=? maximum) && is_ok (inspect (utf8 text)).

Section Mapping.
(** [serde_json::to_vec] of the clauses. *)
Variable clauses_to_vec : list CompletionClause -> option bytes.

Definition map_live_update (input : TaskId * TaskEngineUpdate) : option (TaskId * TaskUpdate) :=
  let '(task_id, update) := input in
  match update with
  | TaskEngineUpdate.TaskStatus _ status => Some (task_id, TaskUpdate.Status status)
  | TaskEngineUpdate.EpochObjective _ _ objective =>
      if bounded_safe_text objective (16 * 1024)
      then Some (task_id, TaskUpdate.EpochObjective objective) else None
  | TaskEngineUpdate.CheckpointCommitted _ checkpoint_id _ =>
      Some (task_id, TaskUpdate.Checkpoint checkpoint_id)
  | TaskEngineUpdate.ContextUsage _ total_tokens (Some context_window) =>
      if (0 <? context_window) && (total_tokens <=? context_window)
      then Some (task_id, TaskUpdate.ContextUsage total_tokens context_window) else None
  | TaskEngineUpdate.Compaction _ generation _ => Some (task_id, TaskUpdate.Compaction generation)
  | TaskEngineUpdate.CompletionClauses _ clauses =>
      if is_some_and (clauses_to_vec clauses) (fun encoded =>
           (Zlen encoded <=? 64 * 1024) && is_ok (inspect encoded))
      then Some (task_id, TaskUpdate.CompletionClauses clauses) else None
  | TaskEngineUpdate.AgentMessageChunk text =>
      if bounded_safe_text text (64 * 1024)
      then Some (task_id, TaskUpdate.AssistantDelta text) else None
  | TaskEngineUpdate.ToolStarted title _ =>
      if bounded_safe_text title (16 * 1024)
      then Some (task_id, TaskUpdate.ToolStarted title) else None
  | TaskEngineUpdate.ToolCompleted title status =>
      if bounded_safe_text title (16 * 1024) then
        let suffix :=
          match status with
          | EngineToolStatus.Completed => []
          | EngineToolStatus.Failed => lit " " ++ [0xB7] ++ lit " failed"
          | EngineToolStatus.Cancelled => lit " " ++ [0xB7] ++ lit " cancelled"
          end in
        Some (task_id, TaskUpdate.ToolCompleted (title ++ suffix))
      else None
  | TaskEngineUpdate.DiffUpdated diff =>
      if bounded_safe_text diff (64 * 1024)
      then Some (task_id, TaskUpdate.Diff diff) else None
  | _ => None
  end.
End Mapping.

(** ** The hub *)

Record LiveTaskUpdates := {
  next_cursor : Z;
  ring : list LiveUpdateEnvelope;
  next_subscriber : Z;
  subscribers : gmap Z Z;
  observed_source_overflow : Z;
  lt_pending_approval : option LiveUpdateEnvelope
}.

Definition LiveTaskUpdates_default : LiveTaskUpdates :=
  {| next_cursor := 1; ring := []; next_subscriber := 1; subscribers := ∅;
     observed_source_overflow := 0; lt_pending_approval := None |}.

Record LiveUpdateHub := {
  hub_tasks : gmap TaskId LiveTaskUpdates;
  source_overflow : Z
}.

(** [tasks.entry(task_id).or_default()]. *)
Definition entry_or_default (hub : LiveUpdateHub) (task_id : TaskId) : LiveTaskUpdates :=
  default LiveTaskUpdates_default (hub.(hub_tasks) !! task_id).

Definition with_task (hub : LiveUpdateHub) (task_id : TaskId) (task : LiveTaskUpdates) :
    LiveUpdateHub :=
  {| hub_tasks := <[task_id := task]> hub.(hub_tasks); source_overflow := hub.(source_overflow) |}.

Definition saturating_add (max x y : Z) : Z := Z.min (x + y) max.

Definition is_approval (update : TaskUpdate) : bool :=
  match update with TaskUpdate.ApprovalRequired _ _ _ _ _ _ _ _ => true | _ => false end.

(** What [publish] does to the entry of the task. *)
Definition publish_update (task : LiveTaskUpdates) (update : TaskUpdate) : LiveTaskUpdates :=
  let envelope := {| lu_cursor := task.(next_cursor); lu_update := update |} in
  let kept :=
    if Zlen task.(ring) =? LIVE_UPDATE_CAPACITY then tail task.(ring) else task.(ring) in
  {| next_cursor := saturating_add u64_max task.(next_cursor) 1;
     ring := kept ++ [envelope];
     next_subscriber := task.(next_subscriber);
     subscribers := (fun queued => queued + 1) <$> filter (fun '(_, queued) => queued < 1) task.(subscribers);
     observed_source_overflow := task.(observed_source_overflow);
     lt_pending_approval :=
       if is_approval update then Some envelope else task.(lt_pending_approval) |}.

Definition publish (hub : LiveUpdateHub) (task_id : TaskId) (update : TaskUpdate) : LiveUpdateHub :=
  with_task hub task_id (publish_update (entry_or_default hub task_id) update).

Definition without_approval (task : LiveTaskUpdates) : LiveTaskUpdates :=
  {| next_cursor := task.(next_cursor); ring := task.(ring);
     next_subscriber := task.(next_subscriber); subscribers := task.(subscribers);
     observed_source_overflow := task.(observed_source_overflow); lt_pending_approval := None |}.

Definition clear_pending_approval (hub : LiveUpdateHub) (task_id : TaskId) : LiveUpdateHub :=
  match hub.(hub_tasks) !! task_id with
  | Some task => with_task hub task_id (without_approval task)
  | None => hub
  end.

Abbreviation Page := (list LiveUpdateEnvelope * option Z * bool)%type (only parsing).

(** [Option::or]. *)
Definition option_or {A} (a b : option A) : option A := match a with Some _ => a | None => b end.

Definition is_after (after_cursor : option Z) (update : LiveUpdateEnvelope) : bool :=
  match after_cursor with Some cursor => cursor <? update.(lu_cursor) | None => true end.

Definition live_update_page (task : LiveTaskUpdates) (after_cursor : option Z) (limit : Z) : Page :=
  let oldest := lu_cursor <$> head task.(ring) in
  let latest := lu_cursor <$> last task.(ring) in
  let overflowed :=
    match after_cursor, oldest with
    | Some cursor, Some oldest => saturating_add u64_max cursor 1 <? oldest
    | None, Some oldest => 1 <? oldest
    | _, _ => false
    end in
  if overflowed then ([], latest, true) else
  let updates :=
    take (Z.to_nat limit)
      (filter (fun update => is_after after_cursor update = true) task.(ring)) in
  let updates :=
    match is_empty updates, after_cursor, task.(lt_pending_approval) with
    | true, Some after, Some pending => if pending.(lu_cursor) <=? after then [pending] else updates
    | _, _, _ => updates
    end in
  (updates, option_or (lu_cursor <$> last updates) after_cursor, false).

Definition LiveTaskUpdates_page (self : LiveTaskUpdates) (after_cursor : option Z) (limit : Z)
    (source_overflow : Z) : LiveTaskUpdates * Page :=
  if self.(observed_source_overflow) <? source_overflow then
    ({| next_cursor := self.(next_cursor); ring := self.(ring);
        next_subscriber := self.(next_subscriber); subscribers := self.(subscribers);
        observed_source_overflow := source_overflow;
        lt_pending_approval := self.(lt_pending_approval) |},
     ([], option_or (lu_cursor <$> last self.(ring)) after_cursor, true))
  else (self, live_update_page self after_cursor limit).

Module TaskServiceErrorCode.
Inductive TaskServiceErrorCode : Set :=
| Endpoint | Storage | Engine | Transport | InvalidRequest | Busy | Stopped | IdempotencyConflict.
End TaskServiceErrorCode.
Abbreviation TaskServiceErrorCode := TaskServiceErrorCode.TaskServiceErrorCode.
#[export] Instance TaskServiceErrorCode_eq_dec : EqDecision TaskServiceErrorCode.
Proof. solve_decision. Defined.

(** [LiveUpdateHub::page] up to the wait: an answer, or the identifier under
    which the poll waits. *)
Definition page_begin (hub : LiveUpdateHub) (task_id : TaskId) (after_cursor : option Z)
    (limit : Z) : LiveUpdateHub * result TaskServiceErrorCode (Page + Z) :=
  let '(task, initial) :=
    LiveTaskUpdates_page (entry_or_default hub task_id) after_cursor limit hub.(source_overflow) in
  let '(updates, _, overflowed) := initial in
  if negb (is_empty updates) || overflowed then (with_task hub task_id task, Ok (inl initial))
  else
    match checked_add u64_max task.(next_subscriber) 1 with
    | None => (with_task hub task_id task, Err TaskServiceErrorCode.Stopped)
    | Some next =>
        let subscriber := task.(next_subscriber) in
        (with_task hub task_id
           {| next_cursor := task.(next_cursor); ring := task.(ring); next_subscriber := next;
              subscribers := <[subscriber := 0]> task.(subscribers);
              observed_source_overflow := task.(observed_source_overflow);
              lt_pending_approval := task.(lt_pending_approval) |},
         Ok (inr subscriber))
    end.

(** The rest of [LiveUpdateHub::page], after the wait. *)
Definition page_finish (hub : LiveUpdateHub) (task_id : TaskId) (after_cursor : option Z)
    (limit subscriber : Z) : LiveUpdateHub * Page :=
  match hub.(hub_tasks) !! task_id with
  | None => (hub, ([], after_cursor, false))
  | Some task =>
      let '(task, page) :=
        LiveTaskUpdates_page
          {| next_cursor := task.(next_cursor); ring := task.(ring);
             next_subscriber := task.(next_subscriber);
             subscribers := delete subscriber task.(subscribers);
             observed_source_overflow := task.(observed_source_overflow);
             lt_pending_approval := task.(lt_pending_approval) |}
          after_cursor limit hub.(source_overflow) in
      (with_task hub task_id task, page)
  end.

Definition live_after_cursor (requested_generation current_generation : str)
    (after_cursor : option Z) : option Z :=
  if requested_generation =?? current_generation then after_cursor else None.

(** The branch of [execute_command] for [ServiceCommand::LiveUpdates], from the
    answer of [page]; [get_task] is the store's. *)
Definition live_updates_result (get_task : TaskId -> result TaskServiceErrorCode (option TaskSnapshot))
    (current_generation live_generation : str) (task_id : TaskId) (page : Page) :
    result TaskServiceErrorCode ServiceResult :=
  let generation_changed := negb (live_generation =?? current_generation) in
  let '(updates, cursor, overflowed) := page in
  snapshot ←
    (if overflowed || generation_changed then
       record ← get_task task_id;
       snapshot ← ok_or record TaskServiceErrorCode.InvalidRequest;
       Ok (Some snapshot)
     else Ok None);
  Ok (ServiceResult.LiveUpdates
        {| lp_live_generation := current_generation; lp_updates := updates; lp_cursor := cursor;
           lp_snapshot := snapshot |}).

(** ** The history of a task

    A run of the hub, with everything that was published for each task.  A poll
    takes part by its two halves; between them the hub goes on. *)

Definition log (hs : gmap TaskId (list TaskUpdate)) (t : TaskId) (u : TaskUpdate) :
    gmap TaskId (list TaskUpdate) := <[t := default [] (hs !! t) ++ [u]]> hs.

Inductive hub_step : gmap TaskId (list TaskUpdate) * LiveUpdateHub ->
    gmap TaskId (list TaskUpdate) * LiveUpdateHub -> Prop :=
| step_publish hs hub t u : hub_step (hs, hub) (log hs t u, publish hub t u)
| step_clear hs hub t : hub_step (hs, hub) (hs, clear_pending_approval hub t)
| step_overflow hs hub n : hub_step (hs, hub) (hs, {| hub_tasks := hub.(hub_tasks); source_overflow := n |})
| step_page_begin hs hub t after limit : hub_step (hs, hub) (hs, (page_begin hub t after limit).1)
| step_page_finish hs hub t after limit subscriber :
    hub_step (hs, hub) (hs, (page_finish hub t after limit subscriber).1).

Definition hub_run (hs : gmap TaskId (list TaskUpdate)) (hub : LiveUpdateHub) : Prop :=
  exists overflow, rtc hub_step (∅, {| hub_tasks := ∅; source_overflow := overflow |}) (hs, hub).

Lemma run_new overflow : hub_run ∅ {| hub_tasks := ∅; source_overflow := overflow |}.
Proof. by exists overflow. Qed.
Lemma run_step hs hub hs' hub' : hub_run hs hub -> rtc hub_step (hs, hub) (hs', hub') -> hub_run hs' hub'.
Proof. intros [o Ho] Hs. exists o. by etransitivity. Qed.
Lemma run_publish hs hub t u : hub_run hs hub -> hub_run (log hs t u) (publish hub t u).
Proof. intros Hr. eapply run_step; [done|]. apply rtc_once. constructor. Qed.

(** Updates are numbered from one in the order they were published. *)
Definition number (h : list TaskUpdate) : list LiveUpdateEnvelope :=
  imap (fun i u => {| lu_cursor := Z.of_nat i + 1; lu_update := u |}) h.

Definition capacity : nat := Z.to_nat LIVE_UPDATE_CAPACITY.

Definition task_inv (h : list TaskUpdate) (t : LiveTaskUpdates) : Prop :=
  Z.of_nat (length h) < u64_max ->
  t.(next_cursor) = Z.of_nat (length h) + 1
  /\ t.(ring) = last_n capacity (number h)
  /\ forall e, t.(lt_pending_approval) = Some e -> e ∈ number h /\ is_approval e.(lu_update) = true.

Lemma number_length h : length (number h) = length h.
Proof. apply length_imap. Qed.

Lemma number_snoc h u :
  number (h ++ [u]) = number h ++ [{| lu_cursor := Z.of_nat (length h) + 1; lu_update := u |}].
Proof. unfold number. rewrite imap_app. simpl. by rewrite Nat.add_0_r. Qed.

Lemma number_cursor h i e : number h !! i = Some e -> e.(lu_cursor) = Z.of_nat i + 1.
Proof.
  unfold number. rewrite list_lookup_imap. intros (u & ? & ->)%fmap_Some. done.
Qed.

Lemma capacity_pos : (0 < capacity)%nat.
Proof. unfold capacity, LIVE_UPDATE_CAPACITY. lia. Qed.

Lemma ring_full h :
  (Zlen (last_n capacity (number h)) =? LIVE_UPDATE_CAPACITY)
  = bool_decide (capacity <= length (last_n capacity (number h)))%nat.
Proof.
  apply eq_true_iff_eq. rewrite bool_decide_eq_true, Z.eqb_eq, Zlen_length.
  pose proof (last_n_length capacity (number h)). unfold capacity in *.
  change LIVE_UPDATE_CAPACITY with 128 in *. lia.
Qed.

Lemma publish_inv h t u : task_inv h t -> task_inv (h ++ [u]) (publish_update t u).
Proof.
  intros Hinv Hlen. rewrite length_app in *. simpl in Hlen.
  destruct Hinv as (Hn & Hr & Hp); [lia|]. simpl. rewrite number_snoc, Hn, Hr. split_and!.
  - unfold saturating_add. lia.
  - rewrite last_n_snoc, ring_full by apply capacity_pos.
    rewrite decide_bool_decide. by destruct (bool_decide _).
  - intros e He. rewrite elem_of_app. destruct (is_approval u) eqn:Hu.
    + simplify_eq. set_solver.
    + destruct (Hp e He). set_solver.
Qed.

(** The rest of the hub leaves the ring, the cursor and, but for clearing it, the
    approval of every task. *)
Lemma task_inv_ext h t t' :
  t'.(next_cursor) = t.(next_cursor) -> t'.(ring) = t.(ring) ->
  (t'.(lt_pending_approval) = t.(lt_pending_approval) \/ t'.(lt_pending_approval) = None) ->
  task_inv h t -> task_inv h t'.
Proof.
  intros H1 H2 H3 Hinv Hlen. destruct (Hinv Hlen) as (Hn & Hr & Hp). rewrite H1, H2.
  split_and!; auto. intros e He. destruct H3 as [H3|H3]; rewrite H3 in He; auto. done.
Qed.

Definition hub_inv (hs : gmap TaskId (list TaskUpdate)) (hub : LiveUpdateHub) : Prop :=
  forall t, task_inv (default [] (hs !! t)) (entry_or_default hub t).

Lemma hub_inv_with_task hs hub t task :
  hub_inv hs hub -> task_inv (default [] (hs !! t)) task -> hub_inv hs (with_task hub t task).
Proof.
  intros Hinv Ht t'. unfold entry_or_default, with_task. simpl.
  destruct (decide (t' = t)) as [->|]; [by rewrite lookup_insert_eq|].
  rewrite lookup_insert_ne by done. apply Hinv.
Qed.

Lemma page_inv h t after limit overflow :
  task_inv h t -> task_inv h (LiveTaskUpdates_page t after limit overflow).1.
Proof. unfold LiveTaskUpdates_page. case_match; [|done]. apply task_inv_ext; auto. Qed.

Lemma hub_step_inv s s' : hub_step s s' -> hub_inv s.1 s.2 -> hub_inv s'.1 s'.2.
Proof.
  intros [hs hub t u|hs hub t|hs hub n|hs hub t a l|hs hub t a l sub] IH; simpl in *.
  - intros t'. unfold log, entry_or_default, publish, with_task. simpl.
    destruct (decide (t' = t)) as [->|]; [|rewrite !lookup_insert_ne by done; apply IH].
    rewrite !lookup_insert_eq. apply publish_inv, IH.
  - unfold clear_pending_approval. case_match eqn:Ht; [|done].
    apply hub_inv_with_task; [done|]. specialize (IH t). unfold entry_or_default in IH.
    rewrite Ht in IH. revert IH. apply task_inv_ext; auto.
  - done.
  - unfold page_begin.
    pose proof (page_inv _ _ a l hub.(source_overflow) (IH t)) as Hp.
    destruct (LiveTaskUpdates_page _ _ _ _) as [task [[updates c] o]]. simpl in Hp.
    case_match; [by apply hub_inv_with_task|].
    case_match; by apply hub_inv_with_task.
  - unfold page_finish. case_match eqn:Ht; [|done]. specialize (IH t) as IHt.
    unfold entry_or_default in IHt. rewrite Ht in IHt. simpl in IHt.
    match goal with |- context [LiveTaskUpdates_page ?x ?y ?z ?w] =>
      assert (Hx : task_inv (default [] (hs !! t)) x) by (revert IHt; apply task_inv_ext; auto);
      pose proof (page_inv _ _ y z w Hx) as Hp; destruct (LiveTaskUpdates_page x y z w) as [task page]
    end. by apply hub_inv_with_task.
Qed.

Lemma hub_run_inv hs hub : hub_run hs hub -> hub_inv hs hub.
Proof.
  intros [o Ho]. apply (rtc_ind_l (fun s => hub_inv s.1 s.2 -> hub_inv hs hub) (hs, hub)) in Ho; [done|done|..].
  - intros s s' Hs _ IH Hi. by apply IH, (hub_step_inv s).
  - intros t _. simpl. rewrite lookup_empty. unfold entry_or_default. simpl. rewrite lookup_empty. done.
Qed.

(** An entry is never removed. *)
Lemma entry_kept t s s' : hub_step s s' -> is_Some (s.2.(hub_tasks) !! t) -> is_Some (s'.2.(hub_tasks) !! t).
Proof.
  assert (forall hub t' task, is_Some (hub.(hub_tasks) !! t) -> is_Some ((with_task hub t' task).(hub_tasks) !! t)) as Hw.
  { intros hub t' task Hs. simpl. destruct (decide (t' = t)) as [->|Hne]; [by rewrite lookup_insert_eq|].
    by rewrite lookup_insert_ne. }
  intros [hs hub t' u|hs hub t'|hs hub n|hs hub t' a l|hs hub t' a l sub] Hs; simpl in *; [by apply Hw| |done|..].
  - unfold clear_pending_approval. case_match; [by apply Hw|done].
  - unfold page_begin. destruct (LiveTaskUpdates_page _ _ _ _) as [task [[updates c] o]].
    case_match; [by apply Hw|]. case_match; by apply Hw.
  - unfold page_finish. case_match; [|done]. destruct (LiveTaskUpdates_page _ _ _ _). by apply Hw.
Qed.

Lemma entry_stays t s s' : rtc hub_step s s' -> is_Some (s.2.(hub_tasks) !! t) -> is_Some (s'.2.(hub_tasks) !! t).
Proof. induction 1; [done|]. eauto using entry_kept. Qed.

(** ** Pages *)

(** The updates of the ring beyond a cursor that is not behind it. *)
Lemma ring_after h (c k : nat) :
  (k <= c)%nat ->
  filter (fun e => is_after (Some (Z.of_nat c)) e = true) (drop k (number h)) = drop c (number h).
Proof.
  intros Hk. rewrite <-(take_drop (c - k) (drop k (number h))), drop_drop.
  replace (k + (c - k))%nat with c by lia. rewrite filter_app, filter_none, filter_all; [done| |].
  - apply Forall_lookup. intros i e. rewrite lookup_drop. intros He%number_cursor. simpl. lia.
  - apply Forall_lookup. intros i e (Hi & Hlt)%lookup_take_Some.
    rewrite lookup_drop in Hi. apply number_cursor in Hi. simpl. lia.
Qed.

Lemma last_take_drop_cursor h (c l : nat) :
  (0 < l)%nat -> (c < length h)%nat ->
  lu_cursor <$> last (take l (drop c (number h))) = Some (Z.of_nat (Nat.min (c + l) (length h))).
Proof.
  intros Hl Hc. rewrite last_lookup, length_take, length_drop, number_length.
  rewrite lookup_take_lt, lookup_drop by lia.
  destruct (number h !! _) as [e|] eqn:He.
  - apply number_cursor in He. simpl. rewrite He. f_equal. lia.
  - apply lookup_ge_None in He. rewrite number_length in He. lia.
Qed.

(** The page a poll from [after] gets, read off the whole history of the task. *)
Definition page_of_history (h : list TaskUpdate) (pending : option LiveUpdateEnvelope)
    (after : option Z) (limit : Z) : Page :=
  let c := Z.to_nat (default 0 after) in
  if bool_decide (c + capacity < length h)%nat then ([], Some (Z.of_nat (length h)), true)
  else if bool_decide (c < length h)%nat then
    (take (Z.to_nat limit) (drop c (number h)),
     Some (Z.of_nat (Nat.min (c + Z.to_nat limit) (length h))), false)
  else match after, pending with
       | Some _, Some e => ([e], Some e.(lu_cursor), false)
       | _, _ => ([], after, false)
       end.

Lemma ring_ends h :
  lu_cursor <$> head (last_n capacity (number h))
    = (if is_empty h then None else Some (Z.of_nat (length h - capacity) + 1))
  /\ lu_cursor <$> last (last_n capacity (number h))
    = (if is_empty h then None else Some (Z.of_nat (length h))).
Proof.
  pose proof capacity_pos. unfold last_n. rewrite number_length.
  destruct (is_empty h) eqn:Hh; [by destruct h|].
  assert (length h <> 0%nat) by by destruct h. split.
  - rewrite head_lookup, lookup_drop.
    destruct (number h !! _) as [e|] eqn:He; simpl.
    + rewrite (number_cursor _ _ _ He). f_equal. lia.
    + apply lookup_ge_None in He. rewrite number_length in He. lia.
  - rewrite last_lookup, length_drop, lookup_drop, number_length.
    destruct (number h !! _) as [e|] eqn:He; simpl.
    + rewrite (number_cursor _ _ _ He). f_equal. lia.
    + apply lookup_ge_None in He. rewrite number_length in He. lia.
Qed.

Lemma page_exact h t after limit :
  task_inv h t -> Z.of_nat (length h) < u64_max -> 1 <= limit ->
  0 <= default 0 after <= u64_max ->
  live_update_page t after limit = page_of_history h t.(lt_pending_approval) after limit.
Proof.
  intros Hinv Hlen Hl Ha. destruct (Hinv Hlen) as (_ & Hr & Hp).
  unfold live_update_page, page_of_history. rewrite Hr.
  destruct (ring_ends h) as [-> ->].
  pose proof capacity_pos. pose proof (number_length h) as Hnl.
  set (c := Z.to_nat (default 0 after)).
  assert (Hover : (match after, (if is_empty h then None else Some (Z.of_nat (length h - capacity) + 1)) with
                   | Some cursor, Some oldest => saturating_add u64_max cursor 1 <? oldest
                   | None, Some oldest => 1 <? oldest
                   | _, _ => false
                   end) = bool_decide (c + capacity < length h)%nat).
  { apply eq_true_iff_eq. rewrite bool_decide_eq_true. subst c. unfold saturating_add.
    destruct after; simpl in *; destruct h as [|u h']; cbn [is_empty]; rewrite ?Z.ltb_lt;
      cbn [length] in *; lia. }
  rewrite Hover. clear Hover. case_bool_decide as Hc1.
  { by destruct h; simpl in *; [lia|]. }
  assert (Hf : filter (fun e => is_after after e = true) (last_n capacity (number h))
               = drop c (number h)).
  { unfold last_n. rewrite Hnl. subst c. destruct after as [a|]; simpl in Ha, Hc1.
    - pose proof (ring_after h (Z.to_nat a) (length h - capacity)) as Hra.
      rewrite Z2Nat.id in Hra by apply Ha. apply Hra. lia.
    - rewrite filter_all by (apply Forall_forall; done). simpl. f_equal. lia. }
  rewrite Hf. case_bool_decide as Hc2.
  - assert (Hne : is_empty (take (Z.to_nat limit) (drop c (number h))) = false).
    { destruct (take _ _) eqn:He; [|done]. apply (f_equal length) in He.
      rewrite length_take, length_drop, Hnl in He. simpl in He. lia. }
    rewrite Hne, last_take_drop_cursor by lia. done.
  - rewrite drop_ge, take_nil by lia. simpl. destruct after as [a|]; [|done].
    destruct (lt_pending_approval t) as [e|] eqn:He; [|done].
    destruct (Hp e eq_refl) as [[i Hi]%list_elem_of_lookup _].
    pose proof (number_cursor _ _ _ Hi). apply lookup_lt_Some in Hi. rewrite Hnl in Hi.
    assert ((lu_cursor e <=? a) = true) as -> by (subst c; simpl in *; lia). done.
Qed.

(** The engine has dropped updates before they reached the hub, and no poll of the task
    was told. *)
Definition loss_unreported (hub : LiveUpdateHub) (task_id : TaskId) : bool :=
  (entry_or_default hub task_id).(observed_source_overflow) <? hub.(source_overflow).

(** The answer to a poll, read off the whole history. *)
Definition poll_of_history (h : list TaskUpdate) (pending : option LiveUpdateEnvelope) (lost : bool)
    (after : option Z) (limit : Z) : Page :=
  if lost then ([], option_or (if is_empty h then None else Some (Z.of_nat (length h))) after, true)
  else page_of_history h pending after limit.

Definition poll_answer (hs : gmap TaskId (list TaskUpdate)) (hub : LiveUpdateHub) (task_id : TaskId)
    (after : option Z) (limit : Z) : Page :=
  poll_of_history (default [] (hs !! task_id)) (entry_or_default hub task_id).(lt_pending_approval)
    (loss_unreported hub task_id) after limit.

(** A page that is worth answering at once. *)
Definition has_news (page : Page) : bool :=
  let '(updates, _, overflowed) := page in negb (is_empty updates) || overflowed.

Definition history_fits (hs : gmap TaskId (list TaskUpdate)) (task_id : TaskId) : Prop :=
  Z.of_nat (length (default [] (hs !! task_id))) < u64_max.

Lemma task_poll_exact h t after limit overflow :
  task_inv h t -> Z.of_nat (length h) < u64_max -> 1 <= limit -> 0 <= default 0 after <= u64_max ->
  let '(t', page) := LiveTaskUpdates_page t after limit overflow in
  page = poll_of_history h t.(lt_pending_approval) (t.(observed_source_overflow) <? overflow) after limit
  /\ t'.(next_subscriber) = t.(next_subscriber) /\ t'.(subscribers) = t.(subscribers)
  /\ (t'.(observed_source_overflow) <? overflow) = false.
Proof.
  intros Hinv Hlen Hl Ha. unfold LiveTaskUpdates_page, poll_of_history.
  destruct (_ <? overflow) eqn:Ho.
  - destruct (Hinv Hlen) as (_ & -> & _). destruct (ring_ends h) as [_ ->]. simpl. split_and!; [done..|]. lia.
  - by rewrite (page_exact h) by done.
Qed.

Lemma entry_with_task hub t task : entry_or_default (with_task hub t task) t = task.
Proof. unfold entry_or_default. simpl. by rewrite lookup_insert_eq. Qed.

Lemma page_begin_exact hs hub t after limit :
  hub_run hs hub -> history_fits hs t -> 1 <= limit -> 0 <= default 0 after <= u64_max ->
  let page := poll_answer hs hub t after limit in
  let next := (entry_or_default hub t).(next_subscriber) in
  let '(hub', answer) := page_begin hub t after limit in
  answer = (if has_news page then Ok (inl page)
            else if next <? u64_max then Ok (inr next) else Err TaskServiceErrorCode.Stopped)
  /\ loss_unreported hub' t = false /\ is_Some (hub'.(hub_tasks) !! t).
Proof.
  intros Hrun Hlen Hl Ha. simpl. unfold page_begin, poll_answer, loss_unreported.
  pose proof (task_poll_exact _ _ after limit hub.(source_overflow) (hub_run_inv _ _ Hrun t) Hlen Hl Ha) as Hp.
  destruct (LiveTaskUpdates_page _ _ _ _) as [task page]. destruct Hp as (<- & Hn & _ & Hs).
  assert (forall task', is_Some ((with_task hub t task').(hub_tasks) !! t)) as He
    by (intros; simpl; rewrite lookup_insert_eq; by eexists).
  unfold has_news. destruct page as [[updates c] o]. destruct (_ || _); [by rewrite entry_with_task|].
  unfold checked_add. rewrite Hn. destruct (_ <? u64_max) eqn:Hlt.
  - assert ((next_subscriber (entry_or_default hub t) + 1 <=? u64_max) = true) as -> by lia.
    by rewrite entry_with_task.
  - assert ((next_subscriber (entry_or_default hub t) + 1 <=? u64_max) = false) as -> by lia.
    by rewrite entry_with_task.
Qed.

Lemma page_finish_exact hs hub t after limit subscriber :
  hub_run hs hub -> is_Some (hub.(hub_tasks) !! t) ->
  history_fits hs t -> 1 <= limit -> 0 <= default 0 after <= u64_max ->
  let '(hub', page) := page_finish hub t after limit subscriber in
  page = poll_answer hs hub t after limit
  /\ loss_unreported hub' t = false /\ (entry_or_default hub' t).(subscribers) !! subscriber = None.
Proof.
  intros Hrun [task Ht] Hlen Hl Ha. pose proof (hub_run_inv _ _ Hrun t) as Hinv.
  unfold page_finish, poll_answer, loss_unreported, entry_or_default in *. rewrite Ht in *. simpl in *.
  match goal with |- context [LiveTaskUpdates_page ?x ?y ?z ?w] =>
    assert (Hx : task_inv (default [] (hs !! t)) x) by (revert Hinv; apply task_inv_ext; auto);
    pose proof (task_poll_exact _ _ y z w Hx Hlen Hl Ha) as Hp; destruct (LiveTaskUpdates_page x y z w) as [task' page] end.
  destruct Hp as (-> & _ & Hs & Ho). simpl in *. rewrite lookup_insert_eq. simpl.
  split_and!; [done|done|]. by rewrite Hs, lookup_delete_eq.
Qed.

(** C15: The pages of a task are its updates.  Whatever the hub served before, a poll
    from a cursor has this answer: exactly the next published updates, in the order and
    with the numbers they were published, no gap and no repetition up to the limit, and
    the cursor of the last of them; a loss, with the last cursor, when the ring has
    dropped an update the poll asks for, or the engine has dropped updates since the
    task's last poll; otherwise nothing, or the approval that is still pending.  A poll
    that has news is answered so at once.  A poll that has none waits under the next
    identifier of the task, and is refused only when those are used up.  Whatever the
    hub serves during the wait, the poll is then answered in the same way from what has
    been published by then, and no longer waits.  Either way a loss that the poll
    reports is not reported again. *)
Theorem live_pages_exact hs hub task_id after limit :
  hub_run hs hub -> history_fits hs task_id -> 1 <= limit -> 0 <= default 0 after <= u64_max ->
  let page := poll_answer hs hub task_id after limit in
  let next := (entry_or_default hub task_id).(next_subscriber) in
  let '(hub', answer) := page_begin hub task_id after limit in
  answer = (if has_news page then Ok (inl page)
            else if next <? u64_max then Ok (inr next) else Err TaskServiceErrorCode.Stopped)
  /\ loss_unreported hub' task_id = false
  /\ forall hs2 hub2 subscriber,
       rtc hub_step (hs, hub') (hs2, hub2) -> history_fits hs2 task_id ->
       let '(hub3, page3) := page_finish hub2 task_id after limit subscriber in
       page3 = poll_answer hs2 hub2 task_id after limit
       /\ loss_unreported hub3 task_id = false
       /\ (entry_or_default hub3 task_id).(subscribers) !! subscriber = None.
Proof.
  intros Hrun Hlen Hl Ha. pose proof (page_begin_exact hs hub task_id after limit Hrun Hlen Hl Ha) as Hb. simpl in *.
  assert (hub_run hs (page_begin hub task_id after limit).1) as Hrun'
    by (eapply run_step; [done|]; apply rtc_once; constructor).
  destruct (page_begin hub task_id after limit) as [hub' answer]. destruct Hb as (-> & Hs & He).
  split_and!; [done|done|]. intros hs2 hub2 subscriber Hsteps Hlen2.
  apply page_finish_exact; [by eapply run_step|by apply (entry_stays task_id _ _ Hsteps)|done..].
Qed.

(** A poll that waits, and is answered with the update published meanwhile. *)
Lemma live_pages_exact_witness :
  let u s := TaskUpdate.AssistantDelta (lit s) in
  let hub := publish {| hub_tasks := ∅; source_overflow := 0 |} 7 (u "a"%string) in
  let '(hub', answer) := page_begin hub 7 (Some 1) 10 in
  answer = Ok (inr 1)
  /\ (page_finish (publish hub' 7 (u "b"%string)) 7 (Some 1) 10 1).2
     = ([{| lu_cursor := 2; lu_update := u "b"%string |}], Some 2, false).
Proof.
  intros u hub.
  pose proof (live_pages_exact _ hub 7 (Some 1) 10 (run_publish _ _ 7 (u "a"%string) (run_new 0))
    ltac:(vm_compute; reflexivity) ltac:(lia) ltac:(unfold u64_max; simpl; lia)) as H.
  cbv zeta in H. destruct (page_begin hub 7 (Some 1) 10) as [hub' answer] eqn:Hb. destruct H as (-> & _ & Hf).
  split; [vm_compute; reflexivity|].
  specialize (Hf _ _ 1 (rtc_once _ _ (step_publish _ _ 7 (u "b"%string))) ltac:(vm_compute; reflexivity)).
  destruct (page_finish _ _ _ _ _) as [hub3 page3]. destruct Hf as [-> _].
  vm_compute in Hb. injection Hb as <-. vm_compute. reflexivity.
Defined.
