(* ===== verification/Tui.v ===== *)
(** * The terminal front end: its state

    [src/tui/state.rs], [src/tui/activity.rs] and [src/tui/command.rs]: the events
    the terminal front end applies to what it shows, the inbox that bounds them,
    the activity line derived from the state and the clock, and the parser of what
    the user submits.

    A [Duration] is its number of nanoseconds.  [Display] of a checkpoint
    identifier is the [uuid] crate's and a parameter.  [apply] assigns fields
    before it may return an error, so its model returns the state also then.

    The theorems show that a redelivered update changes nothing and which updates
    are applied, that the clock of the activity line never runs backwards, that
    the inbox keeps every authoritative event in order within its capacity, and
    that no text that begins with a slash is sent as a prompt. *)
From stdpp Require Import base gmap sets list strings.
From Stdlib Require Import ZArith Lia.
From S2P Require Import Prelude Text Settings Policy TaskTypes Service.
#[local] Open Scope list_scope.
#[local] Open Scope Z_scope.

(** ** Activity *)

Definition MILLISECOND : Z := 1000 * 1000.
Definition SECOND : Z := 1000 * MILLISECOND.

Definition ACTIVITY_INTERVAL : Z := 80 * MILLISECOND.
(** The eight braille frames, one character each. *)
Definition PULSE_FRAMES : list str :=
  [[0x280B]; [0x2819]; [0x2839]; [0x2838]; [0x283C]; [0x2834]; [0x2826]; [0x2827]].
Definition ELAPSED_THRESHOLD_SECONDS : Z := 3.
Definition STALE_THRESHOLD_SECONDS : Z := 10.

Module ActivityPhase.
Inductive ActivityPhase : Type :=
| Ready | Starting | Queued | Thinking | Tool (summary : str) | Compacting | WaitingApproval
| Reconnecting | Paused | Blocked | Cancelling | Finishing | Completed | Failed | Cancelled.
End ActivityPhase.
Abbreviation ActivityPhase := ActivityPhase.ActivityPhase.
#[export] Instance ActivityPhase_eq_dec : EqDecision ActivityPhase.
Proof. solve_decision. Defined.

Definition is_animated (self : ActivityPhase) : bool :=
  match self with
  | ActivityPhase.Starting | ActivityPhase.Queued | ActivityPhase.Thinking | ActivityPhase.Tool _
  | ActivityPhase.Compacting | ActivityPhase.Reconnecting | ActivityPhase.Cancelling
  | ActivityPhase.Finishing => true
  | _ => false
  end.

Module ActivityTone.
Inductive ActivityTone : Set := Active | Idle | Waiting | Success | Error.
End ActivityTone.
Abbreviation ActivityTone := ActivityTone.ActivityTone.

Record ActivityView := {
  symbol : str;
  av_label : str;
  elapsed_seconds : option Z;
  stale_seconds : option Z;
  av_tone : ActivityTone;
  animated : bool;
  av_phase : ActivityPhase
}.

Definition tool_label (summary : str) : str :=
  let fix first table :=
    match table with
    | (prefix, verb) :: table =>
        match strip_prefix prefix summary with
        | Some detail => verb ++ detail
        | None => first table
        end
    | [] => summary
    end in
  first [(lit "read_file ", lit "Reading "); (lit "list_files ", lit "Listing ");
         (lit "search_files ", lit "Searching "); (lit "apply_patch ", lit "Editing ");
         (lit "run_command ", lit "Running ")].

Definition static_symbol (phase : ActivityPhase) : str :=
  match phase with
  | ActivityPhase.Ready => [0x25CF]
  | ActivityPhase.WaitingApproval => lit "?"
  | ActivityPhase.Paused => [0x2161]
  | ActivityPhase.Blocked => lit "!"
  | ActivityPhase.Completed => [0x2713]
  | ActivityPhase.Failed => [0xD7]
  | ActivityPhase.Cancelled => [0x25A0]
  | _ => [0x25CF]
  end.

Definition ellipsis : str := [0x2026].

Definition label (phase : ActivityPhase) : str :=
  match phase with
  | ActivityPhase.Ready => lit "Ready"
  | ActivityPhase.Starting => lit "Starting" ++ ellipsis
  | ActivityPhase.Queued => lit "Queued" ++ ellipsis
  | ActivityPhase.Thinking => lit "Thinking" ++ ellipsis
  | ActivityPhase.Tool summary => summary
  | ActivityPhase.Compacting => lit "Compacting context"
  | ActivityPhase.WaitingApproval => lit "Waiting for approval"
  | ActivityPhase.Reconnecting => lit "Reconnecting" ++ ellipsis
  | ActivityPhase.Paused => lit "Paused"
  | ActivityPhase.Blocked => lit "Blocked"
  | ActivityPhase.Cancelling => lit "Cancelling" ++ ellipsis
  | ActivityPhase.Finishing => lit "Finishing" ++ ellipsis
  | ActivityPhase.Completed => lit "Completed"
  | ActivityPhase.Failed => lit "Failed"
  | ActivityPhase.Cancelled => lit "Cancelled"
  end.

Definition tone (phase : ActivityPhase) : ActivityTone :=
  match phase with
  | ActivityPhase.Completed => ActivityTone.Success
  | ActivityPhase.Failed | ActivityPhase.Reconnecting => ActivityTone.Error
  | ActivityPhase.WaitingApproval | ActivityPhase.Paused | ActivityPhase.Blocked
  | ActivityPhase.Cancelling => ActivityTone.Waiting
  | ActivityPhase.Ready | ActivityPhase.Cancelled => ActivityTone.Idle
  | _ => ActivityTone.Active
  end.

(** [Duration::saturating_sub]. *)
Definition saturating_sub (x y : Z) : Z := Z.max 0 (x - y).

(** [animated.then_some(seconds).filter(|elapsed| *elapsed >= threshold)]. *)
Definition shown_seconds (animated : bool) (seconds threshold : Z) : option Z :=
  if animated && (threshold <=? seconds) then Some seconds else None.

Definition activity_view (phase : ActivityPhase) (now phase_started_at last_authoritative_at : Z) :
    ActivityView :=
  let phase_elapsed := saturating_sub now phase_started_at in
  let authoritative_elapsed := saturating_sub now last_authoritative_at in
  let animated := is_animated phase in
  {| symbol :=
       if animated then
         let frame := phase_elapsed / MILLISECOND / (ACTIVITY_INTERVAL / MILLISECOND)
                      mod Zlen PULSE_FRAMES in
         nth (Z.to_nat frame) PULSE_FRAMES []
       else static_symbol phase;
     av_label := label phase;
     elapsed_seconds := shown_seconds animated (phase_elapsed / SECOND) ELAPSED_THRESHOLD_SECONDS;
     stale_seconds :=
       shown_seconds animated (authoritative_elapsed / SECOND) STALE_THRESHOLD_SECONDS;
     av_tone := tone phase;
     animated := animated;
     av_phase := phase |}.

(** ** State *)

Module TranscriptItem.
Inductive TranscriptItem : Type :=
| User (text : str)
| Assistant (text : str)
| Diff (diff : str)
| Approval (display_code summary : str)
| Compaction (generation : Z)
| Notice (notice : str).
End TranscriptItem.
Abbreviation TranscriptItem := TranscriptItem.TranscriptItem.

Module ToolPresentationStatus.
Inductive ToolPresentationStatus : Set := Running | Completed.
End ToolPresentationStatus.
Abbreviation ToolPresentationStatus := ToolPresentationStatus.ToolPresentationStatus.
#[export] Instance ToolPresentationStatus_eq_dec : EqDecision ToolPresentationStatus.
Proof. solve_decision. Defined.

Record ToolActivity := { ta_summary : str; ta_status : ToolPresentationStatus }.

Module Overlay.
Inductive Overlay : Type :=
| Help | Models | Sessions (sessions : list ServiceSessionSummary).
End Overlay.
Abbreviation Overlay := Overlay.Overlay.

Module TuiEvent.
Inductive TuiEvent : Type :=
| Tick (elapsed : Z)
| UserSubmitted (text : str)
| TaskBound (external_session_id : str) (task_id : TaskId) (model : ModelId)
    (effort : ReasoningEffort) (permission_mode : PermissionMode)
| TaskUpdate (update : Service.TaskUpdate)
| DurableUpdate (live_generation : str) (cursor : Z) (update : Service.TaskUpdate)
| AuthoritativeSnapshot (snapshot : TaskSnapshot)
| SessionsLoaded (sessions : list ServiceSessionSummary)
| SessionCleared
| CompactionRequested
| Notice (notice : str)
| Disconnected
| ConnectionRestored
| Reconnected (live_generation : str) (cursor : option Z) (snapshot : option TaskSnapshot)
| ExitRequested
| ApprovalResolved.
End TuiEvent.
Abbreviation TuiEvent := TuiEvent.TuiEvent.

Module TuiStateError.
Inductive TuiStateError : Set := CursorRegression | InvalidContextUsage | ClockRegression.
End TuiStateError.
Abbreviation TuiStateError := TuiStateError.TuiStateError.

Record TuiState := {
  ts_input : str;
  transcript : list TranscriptItem;
  tools : list ToolActivity;
  overlay : option Overlay;
  ts_external_session_id : option str;
  ts_task_id : option TaskId;
  ts_model : option ModelId;
  ts_effort : option ReasoningEffort;
  ts_permission_mode : PermissionMode;
  ts_status : option TaskStatus;
  context : option (Z * Z);
  compaction_generation : Z;
  connected : bool;
  ts_live_generation : option str;
  last_cursor : option Z;
  exit_requested : bool;
  approval_pending : bool;
  now : Z;
  phase_started_at : Z;
  last_authoritative_at : Z;
  compaction_requested : bool
}.

(** Field assignments. *)
Definition set_input (x : str) (s : TuiState) : TuiState :=
  {| ts_input := x; transcript := s.(transcript); tools := s.(tools); overlay := s.(overlay);
     ts_external_session_id := s.(ts_external_session_id); ts_task_id := s.(ts_task_id);
     ts_model := s.(ts_model); ts_effort := s.(ts_effort);
     ts_permission_mode := s.(ts_permission_mode); ts_status := s.(ts_status);
     context := s.(context); compaction_generation := s.(compaction_generation);
     connected := s.(connected); ts_live_generation := s.(ts_live_generation);
     last_cursor := s.(last_cursor); exit_requested := s.(exit_requested);
     approval_pending := s.(approval_pending); now := s.(now);
     phase_started_at := s.(phase_started_at); last_authoritative_at := s.(last_authoritative_at);
     compaction_requested := s.(compaction_requested) |}.
Definition set_transcript (x : list TranscriptItem) (s : TuiState) : TuiState :=
  {| ts_input := s.(ts_input); transcript := x; tools := s.(tools); overlay := s.(overlay);
     ts_external_session_id := s.(ts_external_session_id); ts_task_id := s.(ts_task_id);
     ts_model := s.(ts_model); ts_effort := s.(ts_effort);
     ts_permission_mode := s.(ts_permission_mode); ts_status := s.(ts_status);
     context := s.(context); compaction_generation := s.(compaction_generation);
     connected := s.(connected); ts_live_generation := s.(ts_live_generation);
     last_cursor := s.(last_cursor); exit_requested := s.(exit_requested);
     approval_pending := s.(approval_pending); now := s.(now);
     phase_started_at := s.(phase_started_at); last_authoritative_at := s.(last_authoritative_at);
     compaction_requested := s.(compaction_requested) |}.
Definition set_tools (x : list ToolActivity) (s : TuiState) : TuiState :=
  {| ts_input := s.(ts_input); transcript := s.(transcript); tools := x; overlay := s.(overlay);
     ts_external_session_id := s.(ts_external_session_id); ts_task_id := s.(ts_task_id);
     ts_model := s.(ts_model); ts_effort := s.(ts_effort);
     ts_permission_mode := s.(ts_permission_mode); ts_status := s.(ts_status);
     context := s.(context); compaction_generation := s.(compaction_generation);
     connected := s.(connected); ts_live_generation := s.(ts_live_generation);
     last_cursor := s.(last_cursor); exit_requested := s.(exit_requested);
     approval_pending := s.(approval_pending); now := s.(now);
     phase_started_at := s.(phase_started_at); last_authoritative_at := s.(last_authoritative_at);
     compaction_requested := s.(compaction_requested) |}.
Definition set_overlay (x : option Overlay) (s : TuiState) : TuiState :=
  {| ts_input := s.(ts_input); transcript := s.(transcript); tools := s.(tools); overlay := x;
     ts_external_session_id := s.(ts_external_session_id); ts_task_id := s.(ts_task_id);
     ts_model := s.(ts_model); ts_effort := s.(ts_effort);
     ts_permission_mode := s.(ts_permission_mode); ts_status := s.(ts_status);
     context := s.(context); compaction_generation := s.(compaction_generation);
     connected := s.(connected); ts_live_generation := s.(ts_live_generation);
     last_cursor := s.(last_cursor); exit_requested := s.(exit_requested);
     approval_pending := s.(approval_pending); now := s.(now);
     phase_started_at := s.(phase_started_at); last_authoritative_at := s.(last_authoritative_at);
     compaction_requested := s.(compaction_requested) |}.
Definition set_status (x : option TaskStatus) (s : TuiState) : TuiState :=
  {| ts_input := s.(ts_input); transcript := s.(transcript); tools := s.(tools);
     overlay := s.(overlay); ts_external_session_id := s.(ts_external_session_id);
     ts_task_id := s.(ts_task_id); ts_model := s.(ts_model); ts_effort := s.(ts_effort);
     ts_permission_mode := s.(ts_permission_mode); ts_status := x; context := s.(context);
     compaction_generation := s.(compaction_generation); connected := s.(connected);
     ts_live_generation := s.(ts_live_generation); last_cursor := s.(last_cursor);
     exit_requested := s.(exit_requested); approval_pending := s.(approval_pending);
     now := s.(now); phase_started_at := s.(phase_started_at);
     last_authoritative_at := s.(last_authoritative_at);
     compaction_requested := s.(compaction_requested) |}.
Definition set_context (x : option (Z * Z)) (s : TuiState) : TuiState :=
  {| ts_input := s.(ts_input); transcript := s.(transcript); tools := s.(tools);
     overlay := s.(overlay); ts_external_session_id := s.(ts_external_session_id);
     ts_task_id := s.(ts_task_id); ts_model := s.(ts_model); ts_effort := s.(ts_effort);
     ts_permission_mode := s.(ts_permission_mode); ts_status := s.(ts_status); context := x;
     compaction_generation := s.(compaction_generation); connected := s.(connected);
     ts_live_generation := s.(ts_live_generation); last_cursor := s.(last_cursor);
     exit_requested := s.(exit_requested); approval_pending := s.(approval_pending);
     now := s.(now); phase_started_at := s.(phase_started_at);
     last_authoritative_at := s.(last_authoritative_at);
     compaction_requested := s.(compaction_requested) |}.
Definition set_compaction_generation (x : Z) (s : TuiState) : TuiState :=
  {| ts_input := s.(ts_input); transcript := s.(transcript); tools := s.(tools);
     overlay := s.(overlay); ts_external_session_id := s.(ts_external_session_id);
     ts_task_id := s.(ts_task_id); ts_model := s.(ts_model); ts_effort := s.(ts_effort);
     ts_permission_mode := s.(ts_permission_mode); ts_status := s.(ts_status);
     context := s.(context); compaction_generation := x; connected := s.(connected);
     ts_live_generation := s.(ts_live_generation); last_cursor := s.(last_cursor);
     exit_requested := s.(exit_requested); approval_pending := s.(approval_pending);
     now := s.(now); phase_started_at := s.(phase_started_at);
     last_authoritative_at := s.(last_authoritative_at);
     compaction_requested := s.(compaction_requested) |}.
Definition set_connected (x : bool) (s : TuiState) : TuiState :=
  {| ts_input := s.(ts_input); transcript := s.(transcript); tools := s.(tools);
     overlay := s.(overlay); ts_external_session_id := s.(ts_external_session_id);
     ts_task_id := s.(ts_task_id); ts_model := s.(ts_model); ts_effort := s.(ts_effort);
     ts_permission_mode := s.(ts_permission_mode); ts_status := s.(ts_status);
     context := s.(context); compaction_generation := s.(compaction_generation); connected := x;
     ts_live_generation := s.(ts_live_generation); last_cursor := s.(last_cursor);
     exit_requested := s.(exit_requested); approval_pending := s.(approval_pending);
     now := s.(now); phase_started_at := s.(phase_started_at);
     last_authoritative_at := s.(last_authoritative_at);
     compaction_requested := s.(compaction_requested) |}.
Definition set_last_cursor (x : option Z) (s : TuiState) : TuiState :=
  {| ts_input := s.(ts_input); transcript := s.(transcript); tools := s.(tools);
     overlay := s.(overlay); ts_external_session_id := s.(ts_external_session_id);
     ts_task_id := s.(ts_task_id); ts_model := s.(ts_model); ts_effort := s.(ts_effort);
     ts_permission_mode := s.(ts_permission_mode); ts_status := s.(ts_status);
     context := s.(context); compaction_generation := s.(compaction_generation);
     connected := s.(connected); ts_live_generation := s.(ts_live_generation); last_cursor := x;
     exit_requested := s.(exit_requested); approval_pending := s.(approval_pending);
     now := s.(now); phase_started_at := s.(phase_started_at);
     last_authoritative_at := s.(last_authoritative_at);
     compaction_requested := s.(compaction_requested) |}.
Definition set_exit_requested (x : bool) (s : TuiState) : TuiState :=
  {| ts_input := s.(ts_input); transcript := s.(transcript); tools := s.(tools);
     overlay := s.(overlay); ts_external_session_id := s.(ts_external_session_id);
     ts_task_id := s.(ts_task_id); ts_model := s.(ts_model); ts_effort := s.(ts_effort);
     ts_permission_mode := s.(ts_permission_mode); ts_status := s.(ts_status);
     context := s.(context); compaction_generation := s.(compaction_generation);
     connected := s.(connected); ts_live_generation := s.(ts_live_generation);
     last_cursor := s.(last_cursor); exit_requested := x;
     approval_pending := s.(approval_pending); now := s.(now);
     phase_started_at := s.(phase_started_at); last_authoritative_at := s.(last_authoritative_at);
     compaction_requested := s.(compaction_requested) |}.
Definition set_approval_pending (x : bool) (s : TuiState) : TuiState :=
  {| ts_input := s.(ts_input); transcript := s.(transcript); tools := s.(tools);
     overlay := s.(overlay); ts_external_session_id := s.(ts_external_session_id);
     ts_task_id := s.(ts_task_id); ts_model := s.(ts_model); ts_effort := s.(ts_effort);
     ts_permission_mode := s.(ts_permission_mode); ts_status := s.(ts_status);
     context := s.(context); compaction_generation := s.(compaction_generation);
     connected := s.(connected); ts_live_generation := s.(ts_live_generation);
     last_cursor := s.(last_cursor); exit_requested := s.(exit_requested); approval_pending := x;
     now := s.(now); phase_started_at := s.(phase_started_at);
     last_authoritative_at := s.(last_authoritative_at);
     compaction_requested := s.(compaction_requested) |}.
Definition set_now (x : Z) (s : TuiState) : TuiState :=
  {| ts_input := s.(ts_input); transcript := s.(transcript); tools := s.(tools);
     overlay := s.(overlay); ts_external_session_id := s.(ts_external_session_id);
     ts_task_id := s.(ts_task_id); ts_model := s.(ts_model); ts_effort := s.(ts_effort);
     ts_permission_mode := s.(ts_permission_mode); ts_status := s.(ts_status);
     context := s.(context); compaction_generation := s.(compaction_generation);
     connected := s.(connected); ts_live_generation := s.(ts_live_generation);
     last_cursor := s.(last_cursor); exit_requested := s.(exit_requested);
     approval_pending := s.(approval_pending); now := x; phase_started_at := s.(phase_started_at);
     last_authoritative_at := s.(last_authoritative_at);
     compaction_requested := s.(compaction_requested) |}.
Definition set_phase_started_at (x : Z) (s : TuiState) : TuiState :=
  {| ts_input := s.(ts_input); transcript := s.(transcript); tools := s.(tools);
     overlay := s.(overlay); ts_external_session_id := s.(ts_external_session_id);
     ts_task_id := s.(ts_task_id); ts_model := s.(ts_model); ts_effort := s.(ts_effort);
     ts_permission_mode := s.(ts_permission_mode); ts_status := s.(ts_status);
     context := s.(context); compaction_generation := s.(compaction_generation);
     connected := s.(connected); ts_live_generation := s.(ts_live_generation);
     last_cursor := s.(last_cursor); exit_requested := s.(exit_requested);
     approval_pending := s.(approval_pending); now := s.(now); phase_started_at := x;
     last_authoritative_at := s.(last_authoritative_at);
     compaction_requested := s.(compaction_requested) |}.
Definition set_last_authoritative_at (x : Z) (s : TuiState) : TuiState :=
  {| ts_input := s.(ts_input); transcript := s.(transcript); tools := s.(tools);
     overlay := s.(overlay); ts_external_session_id := s.(ts_external_session_id);
     ts_task_id := s.(ts_task_id); ts_model := s.(ts_model); ts_effort := s.(ts_effort);
     ts_permission_mode := s.(ts_permission_mode); ts_status := s.(ts_status);
     context := s.(context); compaction_generation := s.(compaction_generation);
     connected := s.(connected); ts_live_generation := s.(ts_live_generation);
     last_cursor := s.(last_cursor); exit_requested := s.(exit_requested);
     approval_pending := s.(approval_pending); now := s.(now);
     phase_started_at := s.(phase_started_at); last_authoritative_at := x;
     compaction_requested := s.(compaction_requested) |}.
Definition set_compaction_requested (x : bool) (s : TuiState) : TuiState :=
  {| ts_input := s.(ts_input); transcript := s.(transcript); tools := s.(tools);
     overlay := s.(overlay); ts_external_session_id := s.(ts_external_session_id);
     ts_task_id := s.(ts_task_id); ts_model := s.(ts_model); ts_effort := s.(ts_effort);
     ts_permission_mode := s.(ts_permission_mode); ts_status := s.(ts_status);
     context := s.(context); compaction_generation := s.(compaction_generation);
     connected := s.(connected); ts_live_generation := s.(ts_live_generation);
     last_cursor := s.(last_cursor); exit_requested := s.(exit_requested);
     approval_pending := s.(approval_pending); now := s.(now);
     phase_started_at := s.(phase_started_at); last_authoritative_at := s.(last_authoritative_at);
     compaction_requested := x |}.
Definition set_live (generation : option str) (cursor : option Z) (s : TuiState) : TuiState :=
  {| ts_input := s.(ts_input); transcript := s.(transcript); tools := s.(tools);
     overlay := s.(overlay); ts_external_session_id := s.(ts_external_session_id);
     ts_task_id := s.(ts_task_id); ts_model := s.(ts_model); ts_effort := s.(ts_effort);
     ts_permission_mode := s.(ts_permission_mode); ts_status := s.(ts_status);
     context := s.(context); compaction_generation := s.(compaction_generation);
     connected := s.(connected); ts_live_generation := generation; last_cursor := cursor;
     exit_requested := s.(exit_requested); approval_pending := s.(approval_pending);
     now := s.(now); phase_started_at := s.(phase_started_at);
     last_authoritative_at := s.(last_authoritative_at);
     compaction_requested := s.(compaction_requested) |}.
Definition set_bound_task (task : option TaskId) (s : TuiState) : TuiState :=
  {| ts_input := s.(ts_input); transcript := s.(transcript); tools := s.(tools);
     overlay := s.(overlay); ts_external_session_id := s.(ts_external_session_id);
     ts_task_id := task; ts_model := s.(ts_model); ts_effort := s.(ts_effort);
     ts_permission_mode := s.(ts_permission_mode); ts_status := s.(ts_status);
     context := s.(context); compaction_generation := s.(compaction_generation);
     connected := s.(connected); ts_live_generation := s.(ts_live_generation);
     last_cursor := s.(last_cursor); exit_requested := s.(exit_requested);
     approval_pending := s.(approval_pending); now := s.(now);
     phase_started_at := s.(phase_started_at); last_authoritative_at := s.(last_authoritative_at);
     compaction_requested := s.(compaction_requested) |}.

Definition set_task_bound (external_session_id : str) (task_id : TaskId) (model : ModelId)
    (effort : ReasoningEffort) (permission_mode : PermissionMode) (s : TuiState) : TuiState :=
  {| ts_input := s.(ts_input); transcript := s.(transcript); tools := s.(tools); overlay := None;
     ts_external_session_id := Some external_session_id; ts_task_id := Some task_id;
     ts_model := Some model; ts_effort := Some effort; ts_permission_mode := permission_mode;
     ts_status := None; context := s.(context);
     compaction_generation := s.(compaction_generation); connected := s.(connected);
     ts_live_generation := s.(ts_live_generation); last_cursor := s.(last_cursor);
     exit_requested := s.(exit_requested); approval_pending := s.(approval_pending);
     now := s.(now); phase_started_at := s.(phase_started_at);
     last_authoritative_at := s.(last_authoritative_at);
     compaction_requested := s.(compaction_requested) |}.

Definition set_session_cleared (s : TuiState) : TuiState :=
  {| ts_input := s.(ts_input); transcript := []; tools := []; overlay := None;
     ts_external_session_id := None; ts_task_id := None; ts_model := s.(ts_model);
     ts_effort := s.(ts_effort); ts_permission_mode := s.(ts_permission_mode);
     ts_status := None; context := None; compaction_generation := s.(compaction_generation);
     connected := s.(connected); ts_live_generation := None; last_cursor := None;
     exit_requested := s.(exit_requested); approval_pending := false; now := s.(now);
     phase_started_at := s.(phase_started_at);
     last_authoritative_at := s.(last_authoritative_at); compaction_requested := false |}.

Definition TuiState_default : TuiState :=
  {| ts_input := []; transcript := []; tools := []; overlay := None;
     ts_external_session_id := None; ts_task_id := None; ts_model := None; ts_effort := None;
     ts_permission_mode := PermissionMode.FullAccess; ts_status := None; context := None;
     compaction_generation := 0; connected := true; ts_live_generation := None;
     last_cursor := None; exit_requested := false; approval_pending := false; now := 0;
     phase_started_at := 0; last_authoritative_at := 0; compaction_requested := false |}.

Definition is_running (tool : ToolActivity) : bool :=
  tool.(ta_status) =?? ToolPresentationStatus.Running.

(** [self.tools.iter().rev().find(..)]. *)
Definition find_last {A} (p : A -> bool) (l : list A) : option A := List.find p (reverse l).

Definition activity_phase (self : TuiState) : ActivityPhase :=
  if negb self.(connected) then ActivityPhase.Reconnecting else
  match self.(ts_status) with
  | Some TaskStatus.Cancelled => ActivityPhase.Cancelled
  | Some TaskStatus.Completed => ActivityPhase.Completed
  | Some TaskStatus.Failed => ActivityPhase.Failed
  | Some TaskStatus.Paused => ActivityPhase.Paused
  | Some TaskStatus.Blocked => ActivityPhase.Blocked
  | Some TaskStatus.Cancelling => ActivityPhase.Cancelling
  | Some TaskStatus.Completing => ActivityPhase.Finishing
  | Some TaskStatus.Queued => ActivityPhase.Queued
  | Some TaskStatus.Checkpointing => ActivityPhase.Compacting
  | Some TaskStatus.Active | None =>
      let active := self.(ts_status) =?? Some TaskStatus.Active in
      if self.(approval_pending) then ActivityPhase.WaitingApproval
      else if self.(compaction_requested) then ActivityPhase.Compacting
      else match (if active then find_last is_running self.(tools) else None) with
           | Some tool => ActivityPhase.Tool (tool_label tool.(ta_summary))
           | None =>
               if active then ActivityPhase.Thinking
               else if is_some self.(ts_task_id) then ActivityPhase.Starting
               else ActivityPhase.Ready
           end
  end.

Definition activity (self : TuiState) : ActivityView :=
  activity_view (activity_phase self) self.(now) self.(phase_started_at)
    self.(last_authoritative_at).

Definition apply_snapshot (self : TuiState) (snapshot : TaskSnapshot) : TuiState :=
  set_status (Some snapshot.(status)) (set_bound_task (Some snapshot.(task_id)) self).

Definition push_transcript (item : TranscriptItem) (self : TuiState) : TuiState :=
  set_transcript (self.(transcript) ++ [item]) self.

(** The last running tool with this summary becomes completed. *)
Fixpoint complete_tool (summary : str) (tools : list ToolActivity) : option (list ToolActivity) :=
  match tools with
  | [] => None
  | tool :: rest =>
      match complete_tool summary rest with
      | Some rest => Some (tool :: rest)
      | None =>
          if (tool.(ta_summary) =?? summary) && is_running tool
          then Some ({| ta_summary := tool.(ta_summary);
                        ta_status := ToolPresentationStatus.Completed |} :: rest)
          else None
      end
  end.

Definition push_delta (delta : str) (items : list TranscriptItem) : list TranscriptItem :=
  match last items with
  | Some (TranscriptItem.Assistant text) =>
      take (length items - 1) items ++ [TranscriptItem.Assistant (text ++ delta)]
  | _ => items ++ [TranscriptItem.Assistant delta]
  end.

Section Apply.
(** [Display] of a [CheckpointId]. *)
Variable checkpoint_display : CheckpointId -> str.

Definition apply_update (self : TuiState) (update : Service.TaskUpdate) :
    result TuiStateError TuiState :=
  match update with
  | TaskUpdate.Status status => Ok (set_status (Some status) self)
  | TaskUpdate.EpochObjective objective =>
      Ok (push_transcript (TranscriptItem.Notice objective) self)
  | TaskUpdate.ToolStarted summary =>
      Ok (set_tools (self.(tools) ++ [{| ta_summary := summary;
                                         ta_status := ToolPresentationStatus.Running |}]) self)
  | TaskUpdate.ToolCompleted summary =>
      Ok (set_tools
            match complete_tool summary self.(tools) with
            | Some tools => tools
            | None => self.(tools) ++ [{| ta_summary := summary;
                                          ta_status := ToolPresentationStatus.Completed |}]
            end self)
  | TaskUpdate.AssistantDelta delta => Ok (set_transcript (push_delta delta self.(transcript)) self)
  | TaskUpdate.Diff diff => Ok (push_transcript (TranscriptItem.Diff diff) self)
  | TaskUpdate.ApprovalRequired _ _ display_code summary _ _ _ _ =>
      Ok (push_transcript (TranscriptItem.Approval display_code summary)
            (set_approval_pending true self))
  | TaskUpdate.Checkpoint checkpoint =>
      Ok (push_transcript (TranscriptItem.Notice (lit "checkpoint " ++ checkpoint_display checkpoint))
            (set_compaction_requested false self))
  | TaskUpdate.ContextUsage used window =>
      if (window =? 0) || (window <? used) then Err TuiStateError.InvalidContextUsage
      else Ok (set_context (Some (used, window)) self)
  | TaskUpdate.Compaction generation =>
      Ok (push_transcript (TranscriptItem.Compaction generation)
            (set_compaction_generation generation (set_compaction_requested false self)))
  | TaskUpdate.CompletionClauses clauses =>
      Ok (push_transcript
            (TranscriptItem.Notice (display_u64 (Zlen clauses) ++ lit " completion clauses")) self)
  end.

(** What the [match] of [apply] ends with: the statements after it run, or the
    function has returned. *)
Inductive flow : Type :=
| Proceed (authoritative : bool)
| Return (r : result TuiStateError unit).

(** [self.apply_update(update)?] followed by the rest of the arm. *)
Definition try_update (self : TuiState) (update : Service.TaskUpdate)
    (k : TuiState -> TuiState) : TuiState * flow :=
  match apply_update self update with
  | Ok self => (k self, Proceed true)
  | Err e => (self, Return (Err e))
  end.

Definition apply_event (self : TuiState) (event : TuiEvent) : TuiState * flow :=
  match event with
  | TuiEvent.Tick elapsed =>
      if elapsed <? self.(now) then (self, Return (Err TuiStateError.ClockRegression))
      else (set_now elapsed self, Proceed false)
  | TuiEvent.UserSubmitted text =>
      (push_transcript (TranscriptItem.User text) self, Proceed false)
  | TuiEvent.TaskBound external_session_id task_id model effort permission_mode =>
      (set_task_bound external_session_id task_id model effort permission_mode self, Proceed false)
  | TuiEvent.TaskUpdate update => try_update self update id
  | TuiEvent.DurableUpdate live_generation cursor update =>
      let self :=
        if self.(ts_live_generation) =?? Some live_generation then self
        else set_live (Some live_generation) None self in
      match self.(last_cursor) with
      | Some previous =>
          if cursor <? previous then (self, Return (Err TuiStateError.CursorRegression))
          else if cursor =? previous then (self, Return (Ok tt))
          else try_update self update (set_last_cursor (Some cursor))
      | None => try_update self update (set_last_cursor (Some cursor))
      end
  | TuiEvent.AuthoritativeSnapshot snapshot => (apply_snapshot self snapshot, Proceed true)
  | TuiEvent.SessionsLoaded sessions =>
      (set_overlay (Some (Overlay.Sessions sessions)) self, Proceed false)
  | TuiEvent.SessionCleared => (set_session_cleared self, Proceed false)
  | TuiEvent.CompactionRequested => (set_compaction_requested true self, Proceed false)
  | TuiEvent.Notice notice => (push_transcript (TranscriptItem.Notice notice) self, Proceed false)
  | TuiEvent.Disconnected => (set_connected false self, Proceed false)
  | TuiEvent.ConnectionRestored => (set_connected true self, Proceed false)
  | TuiEvent.Reconnected live_generation cursor snapshot =>
      let self := set_live (Some live_generation) cursor (set_connected true self) in
      (match snapshot with Some snapshot => apply_snapshot self snapshot | None => self end,
       Proceed true)
  | TuiEvent.ExitRequested => (set_exit_requested true self, Proceed false)
  | TuiEvent.ApprovalResolved => (set_approval_pending false self, Proceed false)
  end.

Definition apply (self : TuiState) (event : TuiEvent) : TuiState * result TuiStateError unit :=
  let previous_phase := activity_phase self in
  match apply_event self event with
  | (self, Return r) => (self, r)
  | (self, Proceed authoritative) =>
      let self := if authoritative then set_last_authoritative_at self.(now) self else self in
      let self :=
        if activity_phase self =?? previous_phase then self
        else set_phase_started_at self.(now) self in
      (self, Ok tt)
  end.
End Apply.

(** [u64::try_from(..).unwrap_or(100)]. *)
Definition context_percent (self : TuiState) : option Z :=
  (fun '(used, window) =>
     let percent := used * 100 / window in
     if percent <=? u64_max then percent else 100) <$> self.(context).

Definition last_assistant_text (self : TuiState) : option str :=
  let fix find_map items :=
    match items with
    | TranscriptItem.Assistant text :: _ => Some text
    | _ :: items => find_map items
    | [] => None
    end in
  find_map (reverse self.(transcript)).

(** ** The inbox *)

Record TuiInbox := { inbox_capacity : Z; inbox : list TuiEvent }.

Definition TuiInbox_new (capacity : Z) : result unit TuiInbox :=
  _ ← reject (capacity =? 0) tt;
  Ok {| inbox_capacity := capacity; inbox := [] |}.

Definition is_replaceable (event : TuiEvent) : bool :=
  match event with
  | TuiEvent.Tick _
  | TuiEvent.TaskUpdate (TaskUpdate.Status _ | TaskUpdate.ContextUsage _ _)
  | TuiEvent.DurableUpdate _ _ (TaskUpdate.Status _ | TaskUpdate.ContextUsage _ _) => true
  | _ => false
  end.

(** [position(is_replaceable)] and [remove(index)]. *)
Fixpoint remove_replaceable (events : list TuiEvent) : option (list TuiEvent) :=
  match events with
  | [] => None
  | event :: rest => if is_replaceable event then Some rest else (cons event) <$> remove_replaceable rest
  end.

Definition push (self : TuiInbox) (event : TuiEvent) : result unit TuiInbox :=
  events ←
    (if Zlen self.(inbox) =? self.(inbox_capacity) then ok_or (remove_replaceable self.(inbox)) tt
     else Ok self.(inbox));
  Ok {| inbox_capacity := self.(inbox_capacity); inbox := events ++ [event] |}.

Definition pop (self : TuiInbox) : TuiInbox * option TuiEvent :=
  ({| inbox_capacity := self.(inbox_capacity); inbox := tail self.(inbox) |}, head self.(inbox)).

(** ** What the user submits *)

Module SlashCommand.
Inductive SlashCommand : Type :=
| Model (model : option str)
| Provider (provider : option str)
| Effort (effort : ReasoningEffort)
| Permissions (permission : PermissionMode)
| Compact | New | Sessions
| Resume (target : str)
| Status | Cancel | Login | Logout | Help | Exit.
End SlashCommand.
Abbreviation SlashCommand := SlashCommand.SlashCommand.

Module SubmittedInput.
Inductive SubmittedInput : Type :=
| Prompt (text : str)
| Command (command : SlashCommand).
End SubmittedInput.
Abbreviation SubmittedInput := SubmittedInput.SubmittedInput.

Inductive TuiInputError : Set := InputInvalid.

Definition valid_identifier (value : str) : bool :=
  negb (is_empty value) && (len value <=? 128)
  && forallb (fun byte => is_ascii_alphanumeric byte || (byte ∈? [45; 95; 46; 58])) (utf8 value).

Definition parse_effort (value : str) : result TuiInputError ReasoningEffort :=
  if value =?? lit "low" then Ok ReasoningEffort.Low
  else if value =?? lit "medium" then Ok ReasoningEffort.Medium
  else if value =?? lit "high" then Ok ReasoningEffort.High
  else if value =?? lit "xhigh" then Ok ReasoningEffort.XHigh
  else if value =?? lit "max" then Ok ReasoningEffort.Max
  else if value =?? lit "ultra" then Ok ReasoningEffort.Ultra
  else Err InputInvalid.

Definition parse_permission (value : str) : result TuiInputError PermissionMode :=
  if value =?? lit "plan" then Ok PermissionMode.Plan
  else if value =?? lit "default" then Ok PermissionMode.Default
  else if value =?? lit "accept-edits" then Ok PermissionMode.AcceptEdits
  else if value =?? lit "dont-ask" then Ok PermissionMode.DontAsk
  else if value =?? lit "full-access" then Ok PermissionMode.FullAccess
  else Err InputInvalid.

(** The [match] of [parse_submission] on the words of a command. *)
Definition parse_words (parts : list str) : result TuiInputError SlashCommand :=
  match parts with
  | [name] =>
      if name =?? lit "/model" then Ok (SlashCommand.Model None)
      else if name =?? lit "/provider" then Ok (SlashCommand.Provider None)
      else if name =?? lit "/compact" then Ok SlashCommand.Compact
      else if name =?? lit "/new" then Ok SlashCommand.New
      else if name =?? lit "/sessions" then Ok SlashCommand.Sessions
      else if name =?? lit "/status" then Ok SlashCommand.Status
      else if name =?? lit "/cancel" then Ok SlashCommand.Cancel
      else if name =?? lit "/login" then Ok SlashCommand.Login
      else if name =?? lit "/logout" then Ok SlashCommand.Logout
      else if name =?? lit "/help" then Ok SlashCommand.Help
      else if name =?? lit "/exit" then Ok SlashCommand.Exit
      else Err InputInvalid
  | [name; value] =>
      if name =?? lit "/model" then
        _ ← map_err (fun _ => InputInvalid) (ModelId_parse value);
        Ok (SlashCommand.Model (Some value))
      else if (name =?? lit "/provider") && valid_identifier value then
        Ok (SlashCommand.Provider (Some value))
      else if name =?? lit "/effort" then SlashCommand.Effort <$> parse_effort value
      else if name =?? lit "/permissions" then SlashCommand.Permissions <$> parse_permission value
      else if (name =?? lit "/resume") && valid_identifier value then Ok (SlashCommand.Resume value)
      else Err InputInvalid
  | _ => Err InputInvalid
  end.

Definition parse_submission (input : str) : result TuiInputError SubmittedInput :=
  _ ← reject (is_empty input || is_empty (trim input) || (MAX_TASK_TEXT_BYTES <? len input)
              || (0 ∈? input)) InputInvalid;
  if negb (starts_with (lit "/") input) then Ok (SubmittedInput.Prompt input)
  else
    _ ← reject (existsb is_control input) InputInvalid;
    SubmittedInput.Command <$> parse_words (split_ascii_whitespace input).

(** ** The state stays well formed

    The clocks of the activity line lie in the past, and the context measurement
    is a proportion. *)

Definition context_ok (c : option (Z * Z)) : Prop :=
  match c with Some (used, window) => 0 <= used <= window /\ 0 < window | None => True end.

Definition state_ok (s : TuiState) : Prop :=
  s.(phase_started_at) <= s.(now) /\ s.(last_authoritative_at) <= s.(now) /\ context_ok s.(context).

(** Token counts are unsigned. *)
Definition update_ok (u : Service.TaskUpdate) : Prop :=
  match u with TaskUpdate.ContextUsage used window => 0 <= used /\ 0 <= window | _ => True end.

Definition event_ok (e : TuiEvent) : Prop :=
  match e with
  | TuiEvent.TaskUpdate u | TuiEvent.DurableUpdate _ _ u => update_ok u
  | _ => True
  end.

Section StateTheorems.
Variable checkpoint_display : CheckpointId -> str.
Abbreviation apply := (apply checkpoint_display).
Abbreviation apply_event := (apply_event checkpoint_display).
Abbreviation apply_update := (apply_update checkpoint_display).

(** An update changes neither the clocks nor the position in the stream. *)
Lemma apply_update_frame s u s' :
  apply_update s u = Ok s' ->
  s'.(now) = s.(now) /\ s'.(phase_started_at) = s.(phase_started_at)
  /\ s'.(last_authoritative_at) = s.(last_authoritative_at)
  /\ s'.(ts_live_generation) = s.(ts_live_generation) /\ s'.(last_cursor) = s.(last_cursor)
  /\ (update_ok u -> context_ok s.(context) -> context_ok s'.(context)).
Proof.
  destruct u; simpl; intros; simplify_eq; try (split_and!; done).
  destruct (_ || _) eqn:He; simplify_eq. apply orb_false_iff in He as [??].
  split_and!; try done. simpl. lia.
Qed.

Lemma try_update_ok s u k :
  update_ok u -> state_ok s -> (forall x, state_ok x -> state_ok (k x)) ->
  state_ok (try_update checkpoint_display s u k).1.
Proof.
  intros Hu Hs Hk. unfold try_update. destruct (apply_update s u) eqn:Ha; simpl; [|done].
  apply Hk. apply apply_update_frame in Ha as (Hn & Hp & Hl & _ & _ & Hc).
  destruct Hs as (?&?&?). unfold state_ok. rewrite Hn, Hp, Hl. auto.
Qed.

Lemma apply_event_ok s e : event_ok e -> state_ok s -> state_ok (apply_event s e).1.
Proof.
  intros He Hs. destruct e; simpl in *; try done; try exact Hs.
  - destruct (Z.ltb_spec elapsed (now s)); [done|]. destruct Hs as (?&?&?). split_and!; simpl; try done; lia.
  - by apply try_update_ok.
  - set (s1 := if _ =?? _ then s else _).
    assert (state_ok s1) by (unfold s1; by case_match).
    repeat case_match; try done; apply try_update_ok; auto.
  - destruct Hs as (?&?&?). done.
  - by destruct snapshot.
Qed.

Lemma apply_ok s e : event_ok e -> state_ok s -> state_ok (apply s e).1.
Proof.
  intros He Hs. pose proof (apply_event_ok s e He Hs) as H1. unfold Tui.apply.
  destruct (apply_event s e) as [s1 [auth|r]]; simpl in *; [|done].
  destruct H1 as (?&?&?).
  destruct auth; (case_bool_decide; split_and!; simpl; try done; lia).
Qed.

Lemma context_percent_le s p : context_ok s.(context) -> context_percent s = Some p -> 0 <= p <= 100.
Proof.
  unfold context_percent. destruct s.(context) as [[used window]|]; simpl; [|done].
  intros [Hu Hw] [= <-]. assert (0 <= used * 100 / window <= 100).
  { split; [apply Z.div_pos; lia|]. apply Z.div_le_upper_bound; lia. }
  case_match; lia.
Qed.

(** The clock after an event, and after a list of them. *)
Definition ticked (time : Z) (e : TuiEvent) : Z :=
  match e with TuiEvent.Tick elapsed => Z.max time elapsed | _ => time end.
Definition clocks_le (s s' : TuiState) : Prop :=
  s.(now) <= s'.(now) /\ s.(phase_started_at) <= s'.(phase_started_at)
  /\ s.(last_authoritative_at) <= s'.(last_authoritative_at).

Lemma try_update_clocks s u k :
  (forall x, (k x).(now) = x.(now) /\ (k x).(phase_started_at) = x.(phase_started_at)
     /\ (k x).(last_authoritative_at) = x.(last_authoritative_at)) ->
  let s' := (try_update checkpoint_display s u k).1 in
  s'.(now) = s.(now) /\ s'.(phase_started_at) = s.(phase_started_at)
  /\ s'.(last_authoritative_at) = s.(last_authoritative_at).
Proof.
  intros Hk. unfold try_update. destruct (apply_update s u) as [x|] eqn:Ha; simpl; [|done].
  destruct (Hk x) as (-> & -> & ->). by apply apply_update_frame in Ha as (-> & -> & -> & _).
Qed.

Lemma apply_event_clocks s e :
  let s' := (apply_event s e).1 in
  s'.(now) = ticked s.(now) e /\ s'.(phase_started_at) = s.(phase_started_at)
  /\ s'.(last_authoritative_at) = s.(last_authoritative_at).
Proof.
  destruct e; simpl; try done.
  - destruct (Z.ltb_spec elapsed (now s)); simpl; split_and!; try done; lia.
  - by apply try_update_clocks.
  - set (s1 := if _ =?? _ then s else _).
    assert (s1.(now) = s.(now) /\ s1.(phase_started_at) = s.(phase_started_at)
      /\ s1.(last_authoritative_at) = s.(last_authoritative_at)) as (<- & <- & <-) by (unfold s1; by case_match).
    repeat case_match; try done; by apply try_update_clocks.
  - by destruct snapshot.
Qed.

Lemma apply_clocks s e : state_ok s -> clocks_le s (apply s e).1 /\ (apply s e).1.(now) = ticked s.(now) e.
Proof.
  intros (Hp & Hl & _). pose proof (apply_event_clocks s e) as (Hn & Hp' & Hl'). unfold clocks_le.
  assert (s.(now) <= ticked s.(now) e) by (destruct e; simpl; lia).
  unfold Tui.apply. destruct (apply_event s e) as [s1 [auth|r]]; simpl in *; [|split_and!; lia].
  destruct auth; case_bool_decide; simpl; split_and!; lia.
Qed.

Lemma applied_ok events s :
  Forall event_ok events -> state_ok s ->
  let s' := foldl (fun s e => (apply s e).1) s events in
  state_ok s' /\ clocks_le s s' /\ s'.(now) = foldl ticked s.(now) events.
Proof.
  intros Hev. revert s. induction Hev as [|e events He _ IH]; intros s Hs; simpl; [unfold clocks_le; by split_and!|].
  destruct (apply_clocks s e Hs) as [Hle Hn]. destruct (IH _ (apply_ok s e He Hs)) as (Hs' & Hle' & Hn').
  rewrite Hn', Hn. unfold clocks_le in *. split_and!; try done; lia.
Qed.

(** C30: Whatever events arrive, in whatever order and however many of them are
    refused, the state of the terminal stays well typed: the clock is the latest of the
    ticks; both clocks of the activity line lie in the past, so the seconds it shows are
    the seconds that passed and none was clamped; and the context is shown as a
    percentage from 0 to 100.  And whatever events follow, none of the three clocks
    runs backwards. *)
Theorem tui_state_well_formed (events later : list TuiEvent) :
  Forall event_ok (events ++ later) ->
  let s := foldl (fun s e => (apply s e).1) TuiState_default events in
  let s' := foldl (fun s e => (apply s e).1) s later in
  state_ok s /\ s.(now) = foldl ticked 0 events
  /\ saturating_sub s.(now) s.(phase_started_at) = s.(now) - s.(phase_started_at)
  /\ saturating_sub s.(now) s.(last_authoritative_at) = s.(now) - s.(last_authoritative_at)
  /\ (forall p, context_percent s = Some p -> 0 <= p <= 100)
  /\ s.(now) <= s'.(now) /\ s.(phase_started_at) <= s'.(phase_started_at)
  /\ s.(last_authoritative_at) <= s'.(last_authoritative_at).
Proof.
  intros [Hev Hlater]%Forall_app s s'.
  assert (state_ok TuiState_default) as H0 by done.
  destruct (applied_ok events TuiState_default Hev H0) as (Hs & _ & Hn).
  destruct (applied_ok later s Hlater Hs) as (_ & Hle & _).
  fold s in Hs, Hn. pose proof Hs as (?&?&?). unfold saturating_sub. split; [done|]. split; [done|]. split_and!; [lia|lia| |apply Hle..].
  intros p. by apply context_percent_le.
Qed.

(** ** Redelivery *)

Definition position (s : TuiState) : option str * option Z := (s.(ts_live_generation), s.(last_cursor)).

Lemma apply_position s e s1 f :
  apply_event s e = (s1, f) -> position (apply s e).1 = position s1.
Proof.
  unfold Tui.apply. intros ->. destruct f as [[]|]; simpl; try done; by case_bool_decide.
Qed.

(** A durable update that was taken leaves its position behind. *)
Lemma durable_position s g c u s' :
  apply s (TuiEvent.DurableUpdate g c u) = (s', Ok tt) -> position s' = (Some g, Some c).
Proof.
  intros Ha. destruct (apply_event s (TuiEvent.DurableUpdate g c u)) as [s1 f] eqn:He.
  pose proof (apply_position _ _ _ _ He) as Hp. rewrite Ha in Hp. simpl in Hp. rewrite Hp.
  unfold Tui.apply in Ha. rewrite He in Ha. simpl in He.
  set (s0 := if _ =?? _ then s else _) in He.
  assert (Hg : ts_live_generation s0 = Some g).
  { subst s0. by case_bool_decide. }
  assert (Htry : try_update checkpoint_display s0 u (set_last_cursor (Some c)) = (s1, f) ->
                 position s1 = (Some g, Some c)).
  { unfold try_update. destruct (apply_update s0 u) as [s2|] eqn:Hu; intros ?; simplify_eq.
    apply apply_update_frame in Hu as (_ & _ & _ & Hgen & _). unfold position. simpl. congruence. }
  destruct (last_cursor s0) as [p|] eqn:Hl; [|auto].
  destruct (Z.ltb_spec c p); [by simplify_eq|]. destruct (Z.eqb_spec c p); [|auto].
  simplify_eq. unfold position. by rewrite Hg, Hl.
Qed.

(** What happens to an update at or before the position of its generation. *)
Lemma durable_behind s g c p u :
  position s = (Some g, Some p) -> c <= p ->
  apply s (TuiEvent.DurableUpdate g c u)
  = (s, if c <? p then Err TuiStateError.CursorRegression else Ok tt).
Proof.
  unfold position. intros [= Hg Hl] Hc. unfold Tui.apply. simpl.
  rewrite Hg, bool_decide_true by done. rewrite Hl.
  destruct (Z.ltb_spec c p); [done|]. by destruct (Z.eqb_spec c p); [|lia].
Qed.

(** An update is shown once: after a durable update was taken, delivering it
    again, or any update of the same generation at or before its cursor, leaves
    the whole state as it is; an earlier one is refused besides. *)
Theorem redelivery_changes_nothing s g c u s' c' u' :
  apply s (TuiEvent.DurableUpdate g c u) = (s', Ok tt) -> c' <= c ->
  apply s' (TuiEvent.DurableUpdate g c' u')
  = (s', if c' <? c then Err TuiStateError.CursorRegression else Ok tt).
Proof. intros Ha Hc. apply (durable_behind s' g c' c u'); [|done]. by apply durable_position in Ha. Qed.
End StateTheorems.

Lemma tui_state_well_formed_witness :
  let u := TuiEvent.DurableUpdate (lit "g") 1 (TaskUpdate.ContextUsage 3 4) in
  let s := foldl (fun s e => (apply (fun _ => []) s e).1) TuiState_default [TuiEvent.Tick 9; u] in
  context_percent s = Some 75 /\ state_ok s.
Proof.
  intros u s. split; [reflexivity|].
  destruct (tui_state_well_formed (fun _ => []) [TuiEvent.Tick 9; u] []) as [H _]; [|exact H].
  repeat constructor; simpl; lia.
Defined.

(** ** The inbox keeps what matters *)

Inductive inbox_op : Type := Push (event : TuiEvent) | Pop.

(** A run also collects the events that were accepted and those handed out. *)
Definition inbox_step (st : TuiInbox * list TuiEvent * list TuiEvent) (op : inbox_op) :
    TuiInbox * list TuiEvent * list TuiEvent :=
  let '(q, accepted, delivered) := st in
  match op with
  | Push e => match push q e with Ok q => (q, accepted ++ [e], delivered) | Err _ => st end
  | Pop => let '(q, e) := pop q in (q, accepted, delivered ++ from_option (fun e => [e]) [] e)
  end.

Definition authoritative (events : list TuiEvent) : list TuiEvent :=
  filter (fun e => is_replaceable e = false) events.

Definition inbox_inv (c : Z) (st : TuiInbox * list TuiEvent * list TuiEvent) : Prop :=
  let '(q, accepted, delivered) := st in
  q.(inbox_capacity) = c /\ Zlen q.(inbox) <= c
  /\ delivered ++ q.(inbox) `sublist_of` accepted
  /\ authoritative (delivered ++ q.(inbox)) = authoritative accepted.

(** One event is dropped, and it is one that may be. *)
Lemma remove_replaceable_some l l' :
  remove_replaceable l = Some l' ->
  l' `sublist_of` l /\ authoritative l' = authoritative l /\ Zlen l = Zlen l' + 1.
Proof.
  revert l'. induction l as [|e l IH]; intros l'; simpl; [done|].
  destruct (is_replaceable e) eqn:He.
  - intros [= <-]. split_and!; [by apply sublist_cons| |lia].
    unfold authoritative. by rewrite filter_cons_False by congruence.
  - intros (l1 & Hl & ->)%fmap_Some. destruct (IH l1 Hl) as (?&Ha&?).
    split_and!; [by apply sublist_skip| |simpl; lia].
    unfold authoritative in *. rewrite !filter_cons_True by done. by f_equal.
Qed.

Lemma remove_replaceable_none l :
  remove_replaceable l = None <-> Forall (fun e => is_replaceable e = false) l.
Proof.
  induction l as [|e l IH]; simpl; [done|]. rewrite Forall_cons, <-IH.
  destruct (is_replaceable e); [naive_solver|]. rewrite fmap_None. naive_solver.
Qed.

Lemma authoritative_app l1 l2 : authoritative (l1 ++ l2) = authoritative l1 ++ authoritative l2.
Proof. apply filter_app. Qed.

Lemma inbox_step_inv c st op : 1 <= c -> inbox_inv c st -> inbox_inv c (inbox_step st op).
Proof.
  destruct st as [[q accepted] delivered]. intros Hc (Hq & Hl & Hs & Ha). destruct op as [e|].
  - simpl. destruct (push q e) as [q'|] eqn:Hp; [|done].
    unfold push in Hp. apply bind_ok in Hp as (events & He & [= <-]). rewrite Hq in He.
    assert (events `sublist_of` inbox q /\ authoritative events = authoritative (inbox q)
            /\ Zlen events < c) as (Hsub & Haut & Hlen).
    { destruct (Z.eqb_spec (Zlen (inbox q)) c) as [Heq|].
      - apply ok_or_ok, remove_replaceable_some in He as (?&?&?). split_and!; auto; lia.
      - simplify_eq. split_and!; auto. lia. }
    simpl. rewrite Zlen_app, (assoc_L (++)). split_and!; [done|simpl; lia| |].
    + apply sublist_app; [|done]. etrans; [|done]. by apply sublist_app.
    + rewrite !authoritative_app in *. by rewrite Haut, Ha.
  - simpl. destruct q as [cap [|e events]]; simpl in *; [by rewrite app_nil_r|].
    split_and!; [done|lia|by rewrite <-(assoc_L (++))|by rewrite <-(assoc_L (++))].
Qed.

(** The inbox never holds more than its capacity, and no event that may not be
    dropped is ever lost or overtaken: after any sequence of pushes and pops, the
    events handed out and still waiting are, in order, a subsequence of the events
    that were accepted, and contain every authoritative one of them; an event is
    refused exactly when the inbox is full and everything in it is authoritative. *)
Theorem inbox_keeps_authoritative (c : Z) (ops : list inbox_op) (q0 : TuiInbox) (e : TuiEvent) :
  1 <= c -> TuiInbox_new c = Ok q0 ->
  let '(q, accepted, delivered) := foldl inbox_step (q0, [], []) ops in
  Zlen q.(inbox) <= c
  /\ delivered ++ q.(inbox) `sublist_of` accepted
  /\ authoritative (delivered ++ q.(inbox)) = authoritative accepted
  /\ (is_ok (push q e) = false <->
      Zlen q.(inbox) = c /\ Forall (fun e => is_replaceable e = false) q.(inbox)).
Proof.
  intros Hc Hq0. unfold TuiInbox_new in Hq0. apply bind_reject in Hq0 as [_ [= <-]].
  assert (Hinv : inbox_inv c (foldl inbox_step ({| inbox_capacity := c; inbox := [] |}, [], []) ops)).
  { assert (H0 : inbox_inv c ({| inbox_capacity := c; inbox := [] |}, [], [])).
    { split_and!; simpl; [done|lia|done|done]. }
    revert H0. generalize ({| inbox_capacity := c; inbox := [] |}, @nil TuiEvent, @nil TuiEvent).
    induction ops as [|op ops IH]; intros st Hst; simpl; [done|]. by apply IH, inbox_step_inv. }
  destruct (foldl _ _ _) as [[q accepted] delivered]. destruct Hinv as (Hq & ? & ? & ?).
  split_and!; [done..|]. unfold push. rewrite Hq, <-remove_replaceable_none.
  destruct (Z.eqb_spec (Zlen (inbox q)) c); [|naive_solver].
  destruct (remove_replaceable _); naive_solver.
Qed.

(** ** Commands are never prompts *)

(** A submission becomes a prompt only verbatim, when it does not begin with a
    slash: a mistyped command is refused and never sent to the model. *)
Theorem submission_prompt_exact input text :
  parse_submission input = Ok (SubmittedInput.Prompt text) <->
  text = input /\ starts_with (lit "/") input = false /\ is_empty (trim input) = false
  /\ len input <= MAX_TASK_TEXT_BYTES /\ 0 ∉ input.
Proof.
  unfold parse_submission. rewrite bind_reject, !orb_false_iff, contains_false, Z.ltb_ge.
  destruct (starts_with (lit "/") input) eqn:Hs; cbn [negb].
  - split; [|naive_solver]. intros [_ H]. apply bind_reject in H as [_ H].
    by apply fmap_ok in H as (? & _ & ?).
  - destruct input; simpl; naive_solver.
Qed.
