(* ===== verification/Controller.v ===== *)
(** * The terminal front end: its controller

    [src/tui/controller.rs] and [LocalTui::apply_output] of [src/tui/runtime.rs]:
    the controller turns what the user submits into commands of the service and
    the answers into events of the terminal, and polls the live updates of the
    task it is bound to.

    The backend is the interface [TuiBackend]: its information and its request
    function are parameters, and so are the identifiers [Uuid::new_v4] draws, which
    the operations take as arguments.  An operation is a computation over the
    controller that may fail; what it assigned before it fails stays assigned.

    The theorems compose the controller with the hub of [Live] and the state of
    [Tui]: the polls of a bound task show each of its updates exactly once, and
    three compositions in which they do not. *)
From stdpp Require Import base gmap sets list strings.
From Stdlib Require Import ZArith Lia.
From S2P Require Import Prelude Text Settings Policy TaskTypes Service Live Tui.
#[local] Open Scope list_scope.
#[local] Open Scope Z_scope.

Module TuiError.
Inductive TuiError : Set :=
| ServiceUnavailable | InvalidResponse | InvalidState | UnsupportedConfiguration.
End TuiError.
Abbreviation TuiError := TuiError.TuiError.

Record PendingApproval := {
  pa_task_id : TaskId;
  pa_external_session_id : str;
  pa_display_code : str;
  pa_session_id : SessionId;
  pa_turn_id : TurnId
}.

Section Controller.
(** The state of the backend, [TuiBackend::info] and [TuiBackend::request]. *)
Context {B : Type}.
Variable info : ServiceInfo.
Variable backend_request : B -> ServiceCommand -> B * result TuiError ServiceResult.

Record TuiController := {
  backend : B;
  workspace : PathBuf;
  sessions : list ServiceSessionSummary;
  external_session_id : option str;
  ct_task_id : option TaskId;
  model : option ModelId;
  effort : option ReasoningEffort;
  permission_mode : PermissionMode;
  live_generation : str;
  live_cursor : option Z;
  pending_approval : option PendingApproval
}.

(** Computations over the controller. *)
Definition M (A : Type) : Type := TuiController -> TuiController * result TuiError A.
#[local] Instance M_ret : MRet M := fun A a c => (c, Ok a).
#[local] Instance M_bind : MBind M := fun A A' k m c =>
  match m c with (c, Ok a) => k a c | (c, Err e) => (c, Err e) end.
Definition get {A} (f : TuiController -> A) : M A := fun c => (c, Ok (f c)).
Definition modify (f : TuiController -> TuiController) : M unit := fun c => (f c, Ok tt).
Definition from_result {A} (r : result TuiError A) : M A := fun c => (c, r).

(** Field assignments. *)
Definition set_backend (x : B) (c : TuiController) : TuiController :=
  {| backend := x; workspace := c.(workspace); sessions := c.(sessions);
     external_session_id := c.(external_session_id); ct_task_id := c.(ct_task_id);
     model := c.(model); effort := c.(effort); permission_mode := c.(permission_mode);
     live_generation := c.(live_generation); live_cursor := c.(live_cursor);
     pending_approval := c.(pending_approval) |}.
Definition set_sessions (x : list ServiceSessionSummary) (c : TuiController) : TuiController :=
  {| backend := c.(backend); workspace := c.(workspace); sessions := x;
     external_session_id := c.(external_session_id); ct_task_id := c.(ct_task_id);
     model := c.(model); effort := c.(effort); permission_mode := c.(permission_mode);
     live_generation := c.(live_generation); live_cursor := c.(live_cursor);
     pending_approval := c.(pending_approval) |}.
Definition set_task (session : option str) (task : option TaskId) (c : TuiController) :
    TuiController :=
  {| backend := c.(backend); workspace := c.(workspace); sessions := c.(sessions);
     external_session_id := session; ct_task_id := task;
     model := c.(model); effort := c.(effort); permission_mode := c.(permission_mode);
     live_generation := c.(live_generation); live_cursor := c.(live_cursor);
     pending_approval := c.(pending_approval) |}.
Definition set_selection (m : option ModelId) (e : option ReasoningEffort) (p : PermissionMode)
    (c : TuiController) : TuiController :=
  {| backend := c.(backend); workspace := c.(workspace); sessions := c.(sessions);
     external_session_id := c.(external_session_id); ct_task_id := c.(ct_task_id);
     model := m; effort := e; permission_mode := p;
     live_generation := c.(live_generation); live_cursor := c.(live_cursor);
     pending_approval := c.(pending_approval) |}.
Definition set_stream (generation : str) (cursor : option Z) (c : TuiController) : TuiController :=
  {| backend := c.(backend); workspace := c.(workspace); sessions := c.(sessions);
     external_session_id := c.(external_session_id); ct_task_id := c.(ct_task_id);
     model := c.(model); effort := c.(effort); permission_mode := c.(permission_mode);
     live_generation := generation; live_cursor := cursor;
     pending_approval := c.(pending_approval) |}.
Definition set_approval (x : option PendingApproval) (c : TuiController) : TuiController :=
  {| backend := c.(backend); workspace := c.(workspace); sessions := c.(sessions);
     external_session_id := c.(external_session_id); ct_task_id := c.(ct_task_id);
     model := c.(model); effort := c.(effort); permission_mode := c.(permission_mode);
     live_generation := c.(live_generation); live_cursor := c.(live_cursor);
     pending_approval := x |}.

(** [TuiController::new] with the generation it draws. *)
Definition TuiController_new (backend : B) (workspace : PathBuf) (drawn : str) : TuiController :=
  {| backend := backend; workspace := workspace; sessions := []; external_session_id := None;
     ct_task_id := None; model := info.(si_default_model); effort := info.(si_default_effort);
     permission_mode := PermissionMode.FullAccess; live_generation := drawn;
     live_cursor := None; pending_approval := None |}.

(** [self.backend.request(command)]. *)
Definition request (command : ServiceCommand) : M ServiceResult := fun c =>
  let '(b, r) := backend_request c.(backend) command in (set_backend b c, r).

Definition expect_applied (command : ServiceCommand) : M unit :=
  answer ← request command;
  match answer with
  | ServiceResult.Applied => mret tt
  | _ => from_result (Err TuiError.InvalidResponse)
  end.

Definition refresh_sessions : M (list TuiEvent) :=
  answer ← request (ServiceCommand.Sessions Frontend.Tui 64);
  match answer with
  | ServiceResult.SessionList sessions =>
      _ ← modify (set_sessions sessions);
      mret [TuiEvent.SessionsLoaded sessions]
  | _ => from_result (Err TuiError.InvalidResponse)
  end.

(** [submit_prompt] with the session identifier it would draw. *)
Definition submit_prompt (text drawn : str) : M (list TuiEvent) :=
  bound ← get ct_task_id;
  match bound with
  | Some task_id =>
      _ ← expect_applied (ServiceCommand.Steer task_id text);
      mret [TuiEvent.UserSubmitted text]
  | None =>
      c ← get id;
      model ← from_result (ok_or c.(model) TuiError.UnsupportedConfiguration);
      effort ← from_result (ok_or c.(effort) TuiError.UnsupportedConfiguration);
      let external_session_id := default (lit "tui-" ++ drawn) c.(external_session_id) in
      answer ← request (ServiceCommand.StartTask
        {| st_frontend := Frontend.Tui; st_external_session_id := external_session_id;
           st_workspace := c.(workspace); st_request := text; st_model := model;
           st_effort := effort; st_permission_mode := c.(permission_mode);
           st_budget := TaskBudget_default |});
      match answer with
      | ServiceResult.Accepted task_id =>
          _ ← modify (set_task (Some external_session_id) (Some task_id));
          mret [TuiEvent.UserSubmitted text;
                TuiEvent.TaskBound external_session_id task_id model effort c.(permission_mode)]
      | _ => from_result (Err TuiError.InvalidResponse)
      end
  end.

Definition configure_active : M unit :=
  c ← get id;
  match c.(ct_task_id) with
  | None => mret tt
  | Some task_id =>
      model ← from_result (ok_or c.(model) TuiError.UnsupportedConfiguration);
      effort ← from_result (ok_or c.(effort) TuiError.UnsupportedConfiguration);
      expect_applied (ServiceCommand.Configure task_id model effort c.(permission_mode))
  end.

(** [Option::filter]. *)
Definition option_filter {A} (p : A -> bool) (o : option A) : option A :=
  match o with Some a => if p a then Some a else None | None => None end.

(** The session a target names: a position counted from one, else an identifier. *)
Definition select_session (target : str) (sessions : list ServiceSessionSummary) :
    option ServiceSessionSummary :=
  option_or
    (n ← parse_usize target; index ← checked_sub n 1; sessions !! Z.to_nat index)
    (List.find (fun session => session.(ss_external_session_id) =?? target) sessions).

Definition resume (target : str) : M (list TuiEvent) :=
  sessions ← get sessions;
  selected ← from_result (ok_or (select_session target sessions) TuiError.InvalidState);
  task_id ← from_result (ok_or selected.(ss_latest_task_id) TuiError.InvalidState);
  _ ← (if is_some_and selected.(ss_latest_task_status) (fun status => negb (TaskStatus_is_terminal status))
       then expect_applied (ServiceCommand.Resume task_id) else mret tt);
  _ ← modify (set_task (Some selected.(ss_external_session_id)) (Some task_id));
  _ ← modify (set_selection selected.(ss_model) selected.(ss_effort) selected.(ss_permission_mode));
  _ ← modify (fun c => set_stream c.(live_generation) None c);
  model ← from_result (ok_or selected.(ss_model) TuiError.InvalidResponse);
  effort ← from_result (ok_or selected.(ss_effort) TuiError.InvalidResponse);
  mret [TuiEvent.TaskBound selected.(ss_external_session_id) task_id model effort
          selected.(ss_permission_mode)].

Definition model_notice : str := join (lit ", ") (sm_id <$> info.(si_models)).

Definition submit_command (command : SlashCommand) : M (list TuiEvent) :=
  match command with
  | SlashCommand.Model None => mret [TuiEvent.Notice model_notice]
  | SlashCommand.Model (Some value) =>
      new_model ← from_result (map_err (fun _ => TuiError.UnsupportedConfiguration) (ModelId_parse value));
      service_model ← from_result
        (ok_or (List.find (fun candidate => candidate.(sm_id) =?? new_model) info.(si_models))
           TuiError.UnsupportedConfiguration);
      c ← get id;
      let new_effort :=
        default service_model.(sm_default_effort)
          (option_filter (fun effort => effort ∈? service_model.(sm_supported_efforts)) c.(effort)) in
      _ ← modify (set_selection (Some new_model) (Some new_effort) c.(permission_mode));
      _ ← configure_active;
      mret [TuiEvent.Notice (lit "model updated")]
  | SlashCommand.Provider None =>
      mret [TuiEvent.Notice
        (lit "provider: " ++ info.(si_provider)
         ++ lit "; switch with `carl auth use subscription|openai|openrouter`, then restart Carl")]
  | SlashCommand.Provider (Some provider) =>
      mret [TuiEvent.Notice
        (lit "to select " ++ provider ++ lit ", exit Carl and run `carl auth use " ++ provider
         ++ lit "` before restarting the service")]
  | SlashCommand.Login =>
      mret [TuiEvent.Notice
        (lit "subscription: `carl auth login openai`; API keys: `carl auth key openai|openrouter`")]
  | SlashCommand.Logout =>
      mret [TuiEvent.Notice
        (lit "subscription: `carl auth logout openai`; API keys: `carl auth remove-key openai|openrouter`")]
  | SlashCommand.Effort new_effort =>
      c ← get id;
      model ← from_result (ok_or c.(model) TuiError.UnsupportedConfiguration);
      let supported := existsb (fun candidate =>
        (candidate.(sm_id) =?? model) && (new_effort ∈? candidate.(sm_supported_efforts)))
        info.(si_models) in
      _ ← from_result (reject (negb supported) TuiError.UnsupportedConfiguration);
      _ ← modify (set_selection c.(Controller.model) (Some new_effort) c.(permission_mode));
      _ ← configure_active;
      mret [TuiEvent.Notice (lit "effort updated")]
  | SlashCommand.Permissions new_mode =>
      _ ← modify (fun c => set_selection c.(Controller.model) c.(effort) new_mode c);
      _ ← configure_active;
      mret [TuiEvent.Notice (lit "permissions updated")]
  | SlashCommand.Compact =>
      bound ← get ct_task_id;
      task_id ← from_result (ok_or bound TuiError.InvalidState);
      _ ← expect_applied (ServiceCommand.Compact task_id);
      mret [TuiEvent.CompactionRequested]
  | SlashCommand.New =>
      _ ← modify (fun c => set_approval None (set_stream c.(live_generation) None (set_task None None c)));
      mret [TuiEvent.SessionCleared]
  | SlashCommand.Sessions => refresh_sessions
  | SlashCommand.Resume target => resume target
  | SlashCommand.Status =>
      bound ← get ct_task_id;
      task_id ← from_result (ok_or bound TuiError.InvalidState);
      answer ← request (ServiceCommand.Status task_id);
      match answer with
      | ServiceResult.Snapshot snapshot => mret [TuiEvent.AuthoritativeSnapshot snapshot]
      | _ => from_result (Err TuiError.InvalidResponse)
      end
  | SlashCommand.Cancel =>
      bound ← get ct_task_id;
      task_id ← from_result (ok_or bound TuiError.InvalidState);
      _ ← expect_applied (ServiceCommand.Cancel task_id);
      mret [TuiEvent.Notice (lit "cancellation requested")]
  | SlashCommand.Help =>
      mret [TuiEvent.Notice
        (lit "/provider /model /effort /permissions /compact /new /sessions /resume /status /cancel /login /logout /help /exit")]
  | SlashCommand.Exit => mret [TuiEvent.ExitRequested]
  end.

Definition submit (input : SubmittedInput) (drawn : str) : M (list TuiEvent) :=
  match input with
  | SubmittedInput.Prompt text => submit_prompt text drawn
  | SubmittedInput.Command command => submit_command command
  end.

(** What an update leaves as the approval the controller may resolve. *)
Definition noted_approval (update : TaskUpdate) (previous : option PendingApproval) :
    option PendingApproval :=
  match update with
  | TaskUpdate.ApprovalRequired task_id _ display_code _ _ session_id turn_id external_session_id =>
      Some {| pa_task_id := task_id; pa_external_session_id := external_session_id;
              pa_display_code := display_code; pa_session_id := session_id; pa_turn_id := turn_id |}
  | _ => previous
  end.

Definition poll_updates : M (list TuiEvent) :=
  c ← get id;
  match c.(ct_task_id) with
  | None => mret []
  | Some task_id =>
      answer ← request (ServiceCommand.LiveUpdates task_id c.(live_generation) c.(live_cursor) 128);
      match answer with
      | ServiceResult.LiveUpdates page =>
          _ ← modify (fun c => set_approval
                (foldl (fun a e => noted_approval e.(lu_update) a) c.(pending_approval) page.(lp_updates))
                (set_stream page.(lp_live_generation) page.(lp_cursor) c));
          mret (match page.(lp_snapshot) with
                | Some snapshot => [TuiEvent.AuthoritativeSnapshot snapshot]
                | None => []
                end
                ++ ((fun e => TuiEvent.DurableUpdate page.(lp_live_generation) e.(lu_cursor) e.(lu_update))
                      <$> page.(lp_updates)))
      | _ => from_result (Err TuiError.InvalidResponse)
      end
  end.

Definition resolve_approval (decision : ServiceApprovalDecision) : M (list TuiEvent) :=
  c ← get id;
  approval ← from_result (ok_or c.(pending_approval) TuiError.InvalidState);
  _ ← from_result (reject (negb (c.(ct_task_id) =?? Some approval.(pa_task_id))
                           || negb (c.(external_session_id) =?? Some approval.(pa_external_session_id)))
                     TuiError.InvalidState);
  actor_id ← from_result (map_err (fun _ => TuiError.InvalidState) (ActorId_parse (lit "local-owner")));
  _ ← expect_applied (ServiceCommand.ResolveApproval approval.(pa_task_id)
        approval.(pa_external_session_id) c.(workspace) Frontend.Tui actor_id None None
        approval.(pa_display_code) approval.(pa_session_id) approval.(pa_turn_id) decision);
  _ ← modify (set_approval None);
  mret [TuiEvent.ApprovalResolved;
        TuiEvent.Notice match decision with
                        | ServiceApprovalDecision.Approve => lit "operation approved"
                        | ServiceApprovalDecision.Deny => lit "operation denied"
                        end].
End Controller.
Arguments TuiController : clear implicits.

(** ** The terminal's side of the channel *)

Module RuntimeOutput.
Inductive RuntimeOutput : Type := Events (events : list TuiEvent) | Disconnected.
End RuntimeOutput.
Abbreviation RuntimeOutput := RuntimeOutput.RuntimeOutput.

(** [for event in events { self.state.apply(event)?; }]. *)
Fixpoint apply_all (display : CheckpointId -> str) (s : TuiState) (events : list TuiEvent) :
    TuiState * result TuiStateError unit :=
  match events with
  | [] => (s, Ok tt)
  | event :: events =>
      match apply display s event with
      | (s, Ok _) => apply_all display s events
      | (s, Err e) => (s, Err e)
      end
  end.

(** [LocalTui::apply_output], but for the mark that a frame is due. *)
Definition apply_output (display : CheckpointId -> str) (s : TuiState) (output : RuntimeOutput) :
    TuiState * result TuiStateError unit :=
  match output with
  | RuntimeOutput.Events events =>
      if connected s then apply_all display s events
      else apply_all display s (TuiEvent.ConnectionRestored :: events)
  | RuntimeOutput.Disconnected => apply display s TuiEvent.Disconnected
  end.

(** [update_poll_mode]. *)
Definition update_poll_mode (events : list TuiEvent) (fast_poll : bool) : bool :=
  foldl (fun fast_poll event =>
    match event with
    | TuiEvent.TaskBound _ _ _ _ _ => true
    | TuiEvent.SessionCleared | TuiEvent.ExitRequested => false
    | TuiEvent.TaskUpdate (TaskUpdate.Status status)
    | TuiEvent.DurableUpdate _ _ (TaskUpdate.Status status) => negb (TaskStatus_is_terminal status)
    | TuiEvent.AuthoritativeSnapshot snapshot
    | TuiEvent.Reconnected _ _ (Some snapshot) =>
        negb (TaskStatus_is_terminal snapshot.(status))
    | _ => fast_poll
    end) fast_poll events.

(** ** The service as a backend

    A request for live updates is answered as [execute_command] does, in the
    generation [current] of the service; a poll that found nothing waits out its
    timeout.  The client maps every failure to [ServiceUnavailable]. *)
Definition live_backend (get_task : TaskId -> result TaskServiceErrorCode (option TaskSnapshot))
    (current : str) (hub : LiveUpdateHub) (command : ServiceCommand) :
    LiveUpdateHub * result TuiError ServiceResult :=
  let answer page generation task_id :=
    map_err (fun _ => TuiError.ServiceUnavailable)
      (live_updates_result get_task current generation task_id page) in
  match command with
  | ServiceCommand.LiveUpdates task_id generation after_cursor limit =>
      let after_cursor := live_after_cursor generation current after_cursor in
      match page_begin hub task_id after_cursor limit with
      | (hub, Ok (inl page)) => (hub, answer page generation task_id)
      | (hub, Ok (inr subscriber)) =>
          let '(hub, page) := page_finish hub task_id after_cursor limit subscriber in
          (hub, answer page generation task_id)
      | (hub, Err _) => (hub, Err TuiError.ServiceUnavailable)
      end
  | _ => (hub, Err TuiError.ServiceUnavailable)
  end.

(** ** What the terminal shows

    Two states show the same when they differ at most in the clocks, the position
    in the stream and the input line. *)
Definition shown (s : TuiState) :=
  (s.(transcript), s.(tools), s.(ts_status), s.(context), s.(approval_pending),
   s.(compaction_generation), s.(compaction_requested)).

Definition same_content (s s' : TuiState) : Prop := shown s = shown s'.

#[export] Instance same_content_equivalence : Equivalence same_content.
Proof. split; unfold same_content; [intros ?; done|intros ???; done|intros ?????; congruence]. Qed.

Definition showable (u : Service.TaskUpdate) : Prop :=
  match u with TaskUpdate.ContextUsage used window => 0 < window /\ used <= window | _ => True end.

(** What a showable update does to the state. *)
Definition show (display : CheckpointId -> str) (s : TuiState) (u : Service.TaskUpdate) : TuiState :=
  match apply_update display s u with Ok s => s | Err _ => s end.

#[export] Instance show_proper display :
  Proper (same_content ==> eq ==> same_content) (show display).
Proof.
  intros s s' Hs u _ <-. unfold same_content, shown, show in *.
  destruct s, s'. simpl in *. simplify_eq. destruct u; simpl; try done. by destruct (_ || _).
Qed.

#[export] Instance foldl_show_proper display :
  Proper (same_content ==> eq ==> same_content) (foldl (show display)).
Proof.
  intros s s' Hs us _ <-. revert s s' Hs.
  induction us as [|u us IH]; intros s s' Hs; simpl; [done|]. by apply IH, show_proper.
Qed.

Lemma apply_update_show display s u :
  showable u -> apply_update display s u = Ok (show display s u).
Proof.
  unfold show. destruct u; simpl; try done. intros [??].
  by assert ((window =? 0) || (window <? used) = false) as -> by lia.
Qed.

(** Every update the service publishes can be shown. *)
Lemma mapped_showable to_vec x t u : map_live_update to_vec x = Some (t, u) -> showable u.
Proof.
  destruct x as [t' [| | |? total [w|]| | | | | | | |]]; simpl; intros; repeat case_match; simplify_eq; try done.
  simpl. lia.
Qed.

(** ** Streams *)

Section Streams.
Variable display : CheckpointId -> str.
Variable G : str.

Abbreviation durable := (fun e => TuiEvent.DurableUpdate G e.(lu_cursor) e.(lu_update)).

(** The terminal has applied the updates of the generation up to [k]. *)
Definition at_position (s : TuiState) (k : nat) : Prop :=
  if decide (k = 0)%nat then s.(ts_live_generation) <> Some G \/ s.(last_cursor) = None
  else position s = (Some G, Some (Z.of_nat k)).

Lemma apply_next s k u :
  at_position s k -> showable u ->
  exists s', apply display s (TuiEvent.DurableUpdate G (Z.of_nat k + 1) u) = (s', Ok tt)
    /\ at_position s' (S k) /\ same_content s' (show display s u) /\ connected s' = connected s.
Proof.
  intros Hpos Hu.
  set (s0 := if s.(ts_live_generation) =?? Some G then s else set_live (Some G) None s).
  assert (H0 : same_content s s0 /\ connected s0 = connected s /\ ts_live_generation s0 = Some G
               /\ (last_cursor s0 = None \/ last_cursor s0 = Some (Z.of_nat k))).
  { unfold s0, at_position, position in *. case_bool_decide; case_decide; naive_solver. }
  destruct H0 as (Hc & Hconn & Hg & Hl).
  assert (Hev : apply_event display s (TuiEvent.DurableUpdate G (Z.of_nat k + 1) u)
                = (set_last_cursor (Some (Z.of_nat k + 1)) (show display s0 u), Proceed true)).
  { simpl. fold s0. unfold try_update. rewrite (apply_update_show _ _ _ Hu).
    destruct Hl as [->| ->]; [done|].
    destruct (Z.ltb_spec (Z.of_nat k + 1) (Z.of_nat k)); [lia|].
    by destruct (Z.eqb_spec (Z.of_nat k + 1) (Z.of_nat k)); [lia|]. }
  pose proof (apply_update_show display s0 u Hu) as Hsh.
  pose proof (apply_update_frame _ _ _ _ Hsh) as (_ & _ & _ & Hg' & _).
  assert (Hconn' : connected (show display s0 u) = connected s0).
  { unfold show. destruct u; simpl; try done. by destruct (_ || _). }
  unfold Tui.apply. rewrite Hev. cbv beta iota zeta. eexists. split; [done|].
  assert (Hkey : forall x, at_position (set_phase_started_at x (set_last_authoritative_at x
      (set_last_cursor (Some (Z.of_nat k + 1)) (show display s0 u)))) (S k)).
  { intros x. unfold at_position, position. simpl. rewrite Hg', Hg. do 2 f_equal. lia. }
  split_and!; [|etrans; [|symmetry; by apply show_proper]; unfold same_content; by case_match|by case_match; simpl; congruence].
  case_match; [|apply Hkey]. unfold at_position, position. simpl. rewrite Hg', Hg. do 2 f_equal. lia.
Qed.

(** A stream that continues where the terminal is. *)
Lemma apply_stream updates s k :
  at_position s k -> Forall showable updates ->
  exists s', apply_all display s
      (durable <$> imap (fun i u => {| lu_cursor := Z.of_nat (k + i) + 1; lu_update := u |}) updates)
      = (s', Ok tt)
    /\ at_position s' (k + length updates)
    /\ same_content s' (foldl (show display) s updates).
Proof.
  revert s k. induction updates as [|u updates IH]; intros s k Hpos Hshow; simpl.
  { exists s. by rewrite Nat.add_0_r. }
  apply Forall_cons in Hshow as [Hu Hshow]. rewrite Nat.add_0_r.
  destruct (apply_next s k u Hpos Hu) as (s1 & -> & Hpos1 & Hc1 & _).
  destruct (IH s1 (S k) Hpos1 Hshow) as (s' & Hall & Hpos' & Hc').
  exists s'. rewrite Nat.add_succ_r. split_and!; [|done|].
  - rewrite <-Hall. do 2 f_equal. apply imap_ext. intros. simpl. by rewrite Nat.add_succ_r.
  - etrans; [exact Hc'|]. by apply foldl_show_proper.
Qed.
End Streams.

(** ** Polls *)

Lemma drop_number h k :
  drop k (number h)
  = imap (fun i u => {| lu_cursor := Z.of_nat (k + i) + 1; lu_update := u |}) (drop k h).
Proof.
  unfold number. apply list_eq. intros i. rewrite lookup_drop, !list_lookup_imap, lookup_drop.
  done.
Qed.

Lemma page_quiet task after limit overflow :
  overflow <= task.(observed_source_overflow) ->
  LiveTaskUpdates_page task after limit overflow = (task, live_update_page task after limit).
Proof. intros. unfold LiveTaskUpdates_page. case_match; [lia|done]. Qed.

Section Polls.
Variable display : CheckpointId -> str.
Variable get_task : TaskId -> result TaskServiceErrorCode (option TaskSnapshot).
Variable G : str.
Context (hs : gmap TaskId (list Service.TaskUpdate)) (hub : LiveUpdateHub) (t : TaskId).

Abbreviation task := (entry_or_default hub t).
Abbreviation h := (default [] (hs !! t)).
Abbreviation backend_request := (live_backend get_task G).

(** The hub is between two polls: no loss that was not reported, and identifiers
    of waiting polls and cursors left. *)
Definition quiet : Prop :=
  hub_run hs hub /\ Z.of_nat (length h) < u64_max
  /\ hub.(source_overflow) <= task.(observed_source_overflow) /\ task.(next_subscriber) < u64_max.

Lemma live_backend_answers after :
  quiet -> 0 <= default 0 after <= u64_max ->
  exists hub', backend_request hub (ServiceCommand.LiveUpdates t G after 128)
    = (hub', map_err (fun _ => TuiError.ServiceUnavailable)
               (live_updates_result get_task G G t
                  (page_of_history h task.(lt_pending_approval) after 128))).
Proof.
  intros (Hrun & Hlen & Hover & Hsub) Ha.
  pose proof (page_exact h task after 128 (hub_run_inv _ _ Hrun t) Hlen ltac:(lia) Ha) as Hp.
  unfold live_backend, live_after_cursor. rewrite bool_decide_true by done.
  unfold page_begin. rewrite page_quiet by done.
  rewrite Hp. destruct (page_of_history _ _ _ _) as [[updates cursor] overflowed].
  destruct (negb (is_empty updates) || overflowed); [by eexists|].
  rewrite checked_add_fits by lia. unfold page_finish. cbn [hub_tasks with_task].
  rewrite lookup_insert_eq, page_quiet by done.
  rewrite <-Hp. by eexists.
Qed.

(** The controller watches the task and has taken its updates up to [k]. *)
Definition watching (c : TuiController LiveUpdateHub) (k : nat) : Prop :=
  c.(backend) = hub /\ c.(ct_task_id) = Some t /\ c.(live_generation) = G
  /\ c.(live_cursor) = (if decide (k = 0)%nat then None else Some (Z.of_nat k)).

(** A poll that loses nothing: the events are the page and the controller moves
    to its cursor. *)
Lemma poll_exact c k updates cursor :
  watching c k -> quiet -> (k <= length h)%nat ->
  page_of_history h task.(lt_pending_approval) c.(live_cursor) 128 = (updates, cursor, false) ->
  exists c', poll_updates backend_request c
      = (c', Ok ((fun e => TuiEvent.DurableUpdate G e.(lu_cursor) e.(lu_update)) <$> updates))
    /\ c'.(live_cursor) = cursor /\ c'.(live_generation) = G /\ c'.(ct_task_id) = Some t.
Proof.
  intros (Hb & Ht & Hg & Hc) Hq Hk Hp.
  destruct (live_backend_answers c.(live_cursor) Hq) as (hub' & Hans).
  { destruct Hq as (_ & ? & _). rewrite Hc. case_decide; simpl; unfold u64_max in *; lia. }
  rewrite Hp in Hans. unfold live_updates_result in Hans. rewrite bool_decide_true in Hans by done.
  simpl in Hans. unfold poll_updates, get, request, mbind, M_bind. simpl. rewrite Ht, Hb, Hg, Hans.
  simpl. by eexists.
Qed.

(** C20: Watching a task shows each of its updates exactly once.  A controller and
    a terminal have taken the first [k] updates of the task they watch and poll the
    service, under these conditions: they are at most 128 updates behind, so that the
    ring still has what they miss; when they miss nothing, no approval is pending; the
    hub has no loss of the engine left to report, and has cursors and identifiers of
    waiting polls left ([quiet]); the terminal shows its connection as up, and the
    updates are ones that the service publishes ([showable]).  Then the poll succeeds,
    the terminal accepts everything in it and shows what it would show had it applied
    the updates from [k] on one by one, and both stand at the end of the history, so
    that the next poll finds them in the same relation. *)
Theorem watching_shows_each_update_once c s k :
  watching c k -> quiet -> Forall showable h ->
  (k <= length h)%nat -> (length h - k <= Z.to_nat 128)%nat ->
  (k = length h -> task.(lt_pending_approval) = None) -> connected s = true -> at_position G s k ->
  exists c' events s', poll_updates backend_request c = (c', Ok events)
    /\ apply_output display s (RuntimeOutput.Events events) = (s', Ok tt)
    /\ same_content s' (foldl (show display) s (drop k h))
    /\ at_position G s' (length h)
    /\ c'.(live_cursor) = (if decide (length h = 0)%nat then None else Some (Z.of_nat (length h))).
Proof.
  intros Hw Hq Hshow Hk Hbehind Hpend Hconn Hpos. pose proof Hw as (_ & _ & _ & Hc).
  assert (Hdef : Z.to_nat (default 0 c.(live_cursor)) = k).
  { rewrite Hc. case_decide; simpl; lia. }
  assert (Hpage : page_of_history h task.(lt_pending_approval) c.(live_cursor) 128
    = (drop k (number h), if decide (length h = 0)%nat then None else Some (Z.of_nat (length h)), false)).
  { unfold page_of_history. rewrite Hdef.
    change capacity with (Z.to_nat 128). rewrite bool_decide_false by lia.
    case_bool_decide.
    - rewrite take_ge by (rewrite length_drop, number_length; lia).
      rewrite decide_False by lia. do 3 f_equal. lia.
    - rewrite Hpend by lia. assert (k = length h) as -> by lia. rewrite drop_ge by (rewrite number_length; lia).
      rewrite Hc. by destruct (decide _). }
  destruct (poll_exact c k _ _ Hw Hq Hk Hpage) as (c' & Hpoll & Hcur & _).
  rewrite drop_number in Hpoll.
  destruct (apply_stream display G (drop k h) s k Hpos) as (s' & Hall & Hpos' & Hsame).
  { by apply Forall_drop. }
  exists c'. eexists. exists s'. split_and!; [exact Hpoll| |exact Hsame| |exact Hcur].
  - simpl. by rewrite Hconn.
  - rewrite length_drop in Hpos'. by replace (k + (length h - k))%nat with (length h) in Hpos' by lia.
Qed.

(** C38: An approval that is still pending behind the terminal's position stops the
    terminal: when the service still holds an approval request of the task and
    anything was published after it, such as the statuses of a cancellation, the
    next poll that finds nothing new repeats the request with its old number, and
    the terminal, which treats a number below its position as a regression,
    returns the error that ends its session. *)
Theorem pending_approval_stops_terminal c s k e :
  watching c k -> quiet -> k = length h ->
  task.(lt_pending_approval) = Some e -> e.(lu_cursor) < Z.of_nat k ->
  connected s = true -> position s = (Some G, Some (Z.of_nat k)) ->
  exists c' events, poll_updates backend_request c = (c', Ok events)
    /\ apply_output display s (RuntimeOutput.Events events)
       = (s, Err TuiStateError.CursorRegression).
Proof.
  intros Hw Hq Hk Hpend He Hconn Hpos. pose proof Hw as (_ & _ & _ & Hc).
  assert (Hpage : page_of_history h task.(lt_pending_approval) c.(live_cursor) 128
                  = ([e], Some e.(lu_cursor), false)).
  { destruct Hq as (Hrun & Hlen & _).
    destruct (hub_run_inv _ _ Hrun t Hlen) as (_ & _ & Hp).
    destruct (Hp e Hpend) as [[i Hi]%list_elem_of_lookup _].
    apply lookup_lt_Some in Hi. rewrite number_length in Hi.
    rewrite Hc, decide_False by lia. unfold page_of_history. simpl.
    rewrite Nat2Z.id, !bool_decide_false by lia. by rewrite Hpend. }
  destruct (poll_exact c k _ _ Hw Hq ltac:(lia) Hpage) as (c' & Hpoll & _).
  exists c'. eexists. split; [exact Hpoll|]. cbn [apply_output fmap list_fmap apply_all].
  rewrite Hconn. rewrite (durable_behind display s G _ (Z.of_nat k)) by (done || lia).
  by assert ((lu_cursor e <? Z.of_nat k) = true) as -> by lia.
Qed.

End Polls.

(** ** Failed tools *)

Lemma complete_tool_none summary tools :
  Forall (fun tool => tool.(ta_summary) <> summary \/ is_running tool = false) tools ->
  complete_tool summary tools = None.
Proof.
  induction 1 as [|tool tools Htool _ IH]; [done|]. simpl. rewrite IH.
  case_bool_decide; simpl; [|done]. destruct Htool as [|Hr]; [done|]. by rewrite Hr.
Qed.

Lemma find_last_snoc {A} (p : A -> bool) l x :
  find_last p (l ++ [x]) = if p x then Some x else find_last p l.
Proof. unfold find_last. by rewrite reverse_snoc. Qed.

(** A tool that failed is shown as still running: the service marks the title
    of a failed tool with a suffix, the terminal looks for a running tool with
    exactly the title it is given and finds none, so it adds a finished entry and
    leaves the running one; while the task is active and nothing else runs, the
    activity line goes on saying that the tool runs. *)
Theorem failed_tool_stays_running to_vec display s task_id title kind started failed t1 t2 :
  map_live_update to_vec (task_id, TaskEngineUpdate.ToolStarted title kind) = Some (t1, started) ->
  map_live_update to_vec (task_id, TaskEngineUpdate.ToolCompleted title EngineToolStatus.Failed)
    = Some (t2, failed) ->
  connected s = true -> ts_status s = Some TaskStatus.Active -> approval_pending s = false ->
  compaction_requested s = false -> Forall (fun tool => is_running tool = false) (tools s) ->
  activity_phase (show display (show display s started) failed)
  = ActivityPhase.Tool (tool_label title).
Proof.
  simpl. intros Hs Hf Hconn Hst Hap Hcr Hidle. repeat case_match; simplify_eq.
  unfold show. cbn [apply_update]. unfold activity_phase. cbn -[find_last complete_tool].
  rewrite complete_tool_none.
  - rewrite Hconn, Hst, Hap, Hcr. cbn -[find_last]. by rewrite !find_last_snoc.
  - apply Forall_app. split.
    + eapply Forall_impl; [exact Hidle|]. auto.
    + apply Forall_singleton. left. simpl. intros Heq. apply (f_equal length) in Heq.
      rewrite length_app in Heq. simpl in Heq. lia.
Qed.

(** ** Examples *)

Definition example_info : ServiceInfo :=
  {| si_protocol_version := 7; si_live_generation := lit "g"; si_provider := lit "codex";
     si_models := []; si_default_model := None; si_default_effort := None;
     si_capabilities :=
       {| durable_events := true; reconnect := true; trusted_buzz_admission := true;
          configure_active_task := true; explicit_task_budgets := true;
          sanitized_task_metrics := true; recoverable_maintenance := true;
          explicit_task_compaction := true; durable_frontend_sessions := true |} |}.

Definition example_hub : LiveUpdateHub := {| hub_tasks := ∅; source_overflow := 0 |}.
Definition example_delta : Service.TaskUpdate := TaskUpdate.AssistantDelta (lit "a").
Definition example_approval : Service.TaskUpdate :=
  TaskUpdate.ApprovalRequired 7 1 (lit "123456") (lit "run") (lit "r") 2 3 (lit "s").

(** A controller that watches task 7. *)
Definition example_controller (hub : LiveUpdateHub) (cursor : option Z) : TuiController LiveUpdateHub :=
  set_stream (lit "g") cursor
    (set_task (Some (lit "s")) (Some 7) (TuiController_new example_info hub [] (lit "g"))).

Definition example_state (cursor : option Z) : TuiState :=
  set_live (Some (lit "g")) cursor TuiState_default.

Abbreviation example_backend := (live_backend (fun _ => Ok None) (lit "g")).

Lemma watching_shows_each_update_once_witness :
  let hub := publish (publish example_hub 7 example_delta) 7 example_delta in
  exists c' events s', poll_updates example_backend (example_controller hub (Some 1)) = (c', Ok events)
    /\ apply_output (fun _ => []) (example_state (Some 1)) (RuntimeOutput.Events events) = (s', Ok tt)
    /\ at_position (lit "g") s' 2.
Proof.
  intros hub.
  destruct (watching_shows_each_update_once (fun _ => []) (fun _ => Ok None) (lit "g")
              (log (log ∅ 7 example_delta) 7 example_delta) hub 7
              (example_controller hub (Some 1)) (example_state (Some 1)) 1) as (c' & events & s' & H);
    [..|exists c', events, s'; split_and!; apply H]; try reflexivity.
  - split_and!; reflexivity.
  - split_and!; [do 2 apply run_publish; apply run_new|vm_compute; (reflexivity || discriminate)..].
  - repeat constructor.
  - apply Nat.leb_le. reflexivity.
  - apply Nat.leb_le. reflexivity.
Defined.

Lemma pending_approval_stops_terminal_witness :
  let cancelling := TaskUpdate.Status TaskStatus.Cancelling in
  let hub := publish (publish example_hub 7 example_approval) 7 cancelling in
  exists c' events, poll_updates example_backend (example_controller hub (Some 2)) = (c', Ok events)
    /\ apply_output (fun _ => []) (example_state (Some 2)) (RuntimeOutput.Events events)
       = (example_state (Some 2), Err TuiStateError.CursorRegression).
Proof.
  intros cancelling hub.
  apply (pending_approval_stops_terminal (fun _ => []) (fun _ => Ok None) (lit "g")
           (log (log ∅ 7 example_approval) 7 cancelling) hub 7
           (example_controller hub (Some 2)) (example_state (Some 2)) 2
           {| lu_cursor := 1; lu_update := example_approval |}); try reflexivity.
  - split_and!; reflexivity.
  - split_and!; [do 2 apply run_publish; apply run_new|vm_compute; (reflexivity || discriminate)..].
Defined.

Definition example_session : ServiceSessionSummary :=
  {| ss_external_session_id := lit "old"; ss_session_id := 5; ss_workspace := [];
     ss_permission_mode := PermissionMode.Default; ss_provider := lit "codex";
     ss_latest_task_id := Some 8; ss_latest_task_status := Some TaskStatus.Completed;
     ss_model := Some (lit "m"); ss_effort := Some ReasoningEffort.Low;
     ss_created_at := 0; ss_updated_at := 0 |}.


