(* ===== verification/Server.v ===== *)
(** * The task service

    [src/service/server.rs] with the command receipts of
    [src/storage/repository.rs] (their table is [migrations/0012]): the lifecycle
    of the actor that runs one task at a time and its maintenance, the durable
    receipts by which a mutating command is executed once, the dispatch of a
    request and the loop that serves a connection.

    [execute_command] and [shutdown_owner] reach into the engine; the theorems hold
    for any functions over the owner's state and a world in their place.  They do
    not touch the table of receipts, which only the two functions modelled here
    access.  The statements of SQLite succeed, a lock is not poisoned, and writing
    to the connection succeeds.  [serde_json], the hash, [Uuid::parse_str] and the
    clock are parameters.  Mutations hold a lock while they are dispatched, so
    dispatches are taken one after the other.

    The theorems show that the maintenance of the service only moves forward and
    stops every start, that a command takes effect at most once per idempotency
    key even across crashes, and that a connection answers the requests of its
    stream one by one and in order. *)
From stdpp Require Import base gmap sets list strings.
From Stdlib Require Import ZArith Lia.
From S2P Require Import Prelude Text Settings Policy TaskTypes Events Service Live.
#[local] Open Scope list_scope.
#[local] Open Scope Z_scope.

(** ** The owner of the actor *)

Record TaskActorOwner := {
  active_task : option TaskId;
  phase : MaintenancePhase;
  maintenance_task : option TaskId;
  maintenance_checkpoint : option CheckpointId;
  maintenance_idempotency_key : option str;
  emergency_requested : bool;
  emergency_target : option TaskId
}.

#[export] Instance MaintenancePhase_eq_dec : EqDecision MaintenancePhase.
Proof. solve_decision. Defined.

Definition TaskActorState_default : TaskActorOwner :=
  {| active_task := None; phase := MaintenancePhase.Running; maintenance_task := None;
     maintenance_checkpoint := None; maintenance_idempotency_key := None;
     emergency_requested := false; emergency_target := None |}.

Definition maintenance_status (owner : TaskActorOwner) : ServiceMaintenanceStatus :=
  {| ms_schema_version := 1;
     ms_phase := owner.(phase);
     ms_task_id := match owner.(phase) with
                   | MaintenancePhase.Running => owner.(active_task)
                   | _ => owner.(maintenance_task)
                   end;
     ms_checkpoint_id := owner.(maintenance_checkpoint) |}.

(** Also [rejects_mutations], which is the same test. *)
Definition starts_stopped (owner : TaskActorOwner) : bool :=
  negb (owner.(phase) =?? MaintenancePhase.Running) || owner.(emergency_requested).

Definition claim_start (owner : TaskActorOwner) (task_id : TaskId) : TaskActorOwner * bool :=
  if negb (owner.(phase) =?? MaintenancePhase.Running) || owner.(emergency_requested)
  then (owner, false)
  else ({| active_task := Some task_id; phase := owner.(phase);
           maintenance_task := owner.(maintenance_task);
           maintenance_checkpoint := owner.(maintenance_checkpoint);
           maintenance_idempotency_key := owner.(maintenance_idempotency_key);
           emergency_requested := owner.(emergency_requested);
           emergency_target := owner.(emergency_target) |}, true).

Definition publish_shutdown (owner : TaskActorOwner) : TaskActorOwner * option TaskId :=
  let target := option_or owner.(emergency_target) owner.(active_task) in
  ({| active_task := owner.(active_task); phase := owner.(phase);
      maintenance_task := owner.(maintenance_task);
      maintenance_checkpoint := owner.(maintenance_checkpoint);
      maintenance_idempotency_key := owner.(maintenance_idempotency_key);
      emergency_requested := true; emergency_target := target |}, target).

Definition begin_maintenance (owner : TaskActorOwner) (idempotency_key : option str) :
    TaskActorOwner * ServiceMaintenanceStatus :=
  let owner :=
    if owner.(phase) =?? MaintenancePhase.Running then
      match owner.(active_task) with
      | Some task_id =>
          {| active_task := owner.(active_task); phase := MaintenancePhase.Draining;
             maintenance_task := Some task_id; maintenance_checkpoint := None;
             maintenance_idempotency_key := idempotency_key;
             emergency_requested := owner.(emergency_requested);
             emergency_target := owner.(emergency_target) |}
      | None =>
          {| active_task := owner.(active_task); phase := MaintenancePhase.Ready;
             maintenance_task := owner.(maintenance_task);
             maintenance_checkpoint := owner.(maintenance_checkpoint);
             maintenance_idempotency_key := idempotency_key;
             emergency_requested := owner.(emergency_requested);
             emergency_target := owner.(emergency_target) |}
      end
    else owner in
  (owner, maintenance_status owner).

Definition clear_active (owner : TaskActorOwner) (task_id : TaskId) (snapshot : TaskSnapshot) :
    TaskActorOwner * bool :=
  let active :=
    if owner.(active_task) =?? Some task_id then None else owner.(active_task) in
  if (owner.(phase) =?? MaintenancePhase.Draining) && (owner.(maintenance_task) =?? Some task_id)
  then ({| active_task := active; phase := MaintenancePhase.Ready;
           maintenance_task :=
             if is_some snapshot.(latest_checkpoint) then owner.(maintenance_task) else None;
           maintenance_checkpoint :=
             if is_some snapshot.(latest_checkpoint) then snapshot.(latest_checkpoint)
             else owner.(maintenance_checkpoint);
           maintenance_idempotency_key := owner.(maintenance_idempotency_key);
           emergency_requested := owner.(emergency_requested);
           emergency_target := owner.(emergency_target) |}, true)
  else ({| active_task := active; phase := owner.(phase);
           maintenance_task := owner.(maintenance_task);
           maintenance_checkpoint := owner.(maintenance_checkpoint);
           maintenance_idempotency_key := owner.(maintenance_idempotency_key);
           emergency_requested := owner.(emergency_requested);
           emergency_target := owner.(emergency_target) |}, false).

Definition owns_maintenance_key (owner : TaskActorOwner) (idempotency_key : str) : bool :=
  owner.(maintenance_idempotency_key) =?? Some idempotency_key.

Definition allows_prepare (owner : TaskActorOwner) (idempotency_key : str) : bool :=
  (owner.(phase) =?? MaintenancePhase.Running)
  || (owner.(maintenance_idempotency_key) =?? Some idempotency_key).

(** ** Routes of a shutdown *)

Module ShutdownCancelRoute.
Inductive ShutdownCancelRoute : Set := Quiesced | Active | Idle.
End ShutdownCancelRoute.
Abbreviation ShutdownCancelRoute := ShutdownCancelRoute.ShutdownCancelRoute.

Definition classify_shutdown_cancel (status : TaskStatus) (active_task : option TaskId)
    (task_id : TaskId) : result TaskServiceErrorCode ShutdownCancelRoute :=
  if TaskStatus_is_terminal status then Ok ShutdownCancelRoute.Quiesced else
  match active_task with
  | Some active =>
      if active =? task_id then Ok ShutdownCancelRoute.Active else Err TaskServiceErrorCode.Busy
  | None => Ok ShutdownCancelRoute.Idle
  end.

Definition is_schedulable (status : TaskStatus) : bool :=
  match status with
  | TaskStatus.Queued | TaskStatus.Active | TaskStatus.Checkpointing | TaskStatus.Paused => true
  | _ => false
  end.

(** ** Information about the service *)

(** [AgentModel] of the port has the fields of [ServiceModel]. *)
Definition valid_model (identifiers : list ModelId) (m : ServiceModel) : bool :=
  negb (m.(sm_id) ∈? identifiers)
  && negb (is_empty m.(sm_display_name)) && (len m.(sm_display_name) <=? 256)
  && negb (existsb is_control m.(sm_display_name))
  && negb (is_empty m.(sm_supported_efforts)) && (Zlen m.(sm_supported_efforts) <=? 6)
  && bool_decide (NoDup m.(sm_supported_efforts))
  && (m.(sm_default_effort) ∈? m.(sm_supported_efforts)).

Fixpoint collect_models (identifiers : list ModelId) (models : list ServiceModel) :
    result TaskServiceErrorCode (list ServiceModel) :=
  match models with
  | [] => Ok []
  | m :: models =>
      _ ← reject (negb (valid_model identifiers m)) TaskServiceErrorCode.Engine;
      rest ← collect_models (m.(sm_id) :: identifiers) models;
      Ok (m :: rest)
  end.

(** [service_info] with the generation it draws. *)
Definition service_info (provider : str) (models : list ServiceModel) (drawn : str) :
    result TaskServiceErrorCode ServiceInfo :=
  _ ← reject (is_empty provider || (64 <? len provider)
              || existsb (fun byte => negb (is_ascii_lowercase byte || (byte =? 95))) (utf8 provider))
        TaskServiceErrorCode.Engine;
  _ ← reject (128 <? Zlen models) TaskServiceErrorCode.Engine;
  models ← collect_models [] models;
  Ok {| si_protocol_version := SERVICE_PROTOCOL_VERSION; si_live_generation := drawn;
        si_provider := provider; si_models := models;
        si_default_model := sm_id <$> head models;
        si_default_effort := sm_default_effort <$> head models;
        si_capabilities :=
          {| durable_events := true; reconnect := true; trusted_buzz_admission := true;
             configure_active_task := true; explicit_task_budgets := true;
             sanitized_task_metrics := true; recoverable_maintenance := true;
             explicit_task_compaction := true; durable_frontend_sessions := true |} |}.

Definition validate_model_selection (info : ServiceInfo) (model : ModelId) (effort : ReasoningEffort) :
    result TaskServiceErrorCode unit :=
  reject (is_empty info.(si_models)
          || negb (existsb (fun candidate => (candidate.(sm_id) =?? model)
                              && (effort ∈? candidate.(sm_supported_efforts))) info.(si_models)))
    TaskServiceErrorCode.InvalidRequest.

Definition service_command_kind (command : ServiceCommand) : str :=
  match command with
  | ServiceCommand.StartTask _ => lit "start_task"
  | ServiceCommand.StartTrustedTask _ => lit "start_trusted_task"
  | ServiceCommand.ConfigureTrustedSession _ _ _ _ _ _ _ => lit "configure_trusted_session"
  | ServiceCommand.ResolveApproval _ _ _ _ _ _ _ _ _ _ _ => lit "resolve_approval"
  | ServiceCommand.Resume _ => lit "resume"
  | ServiceCommand.Steer _ _ => lit "steer"
  | ServiceCommand.SteerTrusted _ _ _ _ _ _ _ _ => lit "steer_trusted"
  | ServiceCommand.Cancel _ => lit "cancel"
  | ServiceCommand.Compact _ => lit "compact"
  | ServiceCommand.Configure _ _ _ _ => lit "configure"
  | ServiceCommand.PrepareMaintenance => lit "prepare_maintenance"
  | ServiceCommand.Shutdown => lit "shutdown"
  | _ => lit "read"
  end.

Definition protocol_code (code : ProtocolErrorCode) : str :=
  match code with
  | ProtocolErrorCode.InvalidFrame => lit "invalid_frame"
  | ProtocolErrorCode.FrameTooLarge => lit "frame_too_large"
  | ProtocolErrorCode.UnsupportedVersion => lit "unsupported_version"
  | ProtocolErrorCode.InvalidIdentifier => lit "invalid_identifier"
  | ProtocolErrorCode.InvalidRequest => lit "invalid_request"
  | ProtocolErrorCode.InvalidEventLimit => lit "invalid_event_limit"
  | ProtocolErrorCode.DuplicateRequestId => lit "duplicate_request_id"
  | ProtocolErrorCode.IdempotencyConflict => lit "idempotency_conflict"
  | ProtocolErrorCode.LedgerFull => lit "ledger_full"
  end.

Definition service_code (code : TaskServiceErrorCode) : str :=
  match code with
  | TaskServiceErrorCode.Endpoint => lit "endpoint"
  | TaskServiceErrorCode.Storage => lit "storage"
  | TaskServiceErrorCode.Engine => lit "engine"
  | TaskServiceErrorCode.Transport => lit "transport"
  | TaskServiceErrorCode.InvalidRequest => lit "invalid_request"
  | TaskServiceErrorCode.Busy => lit "busy"
  | TaskServiceErrorCode.Stopped => lit "stopped"
  | TaskServiceErrorCode.IdempotencyConflict => lit "idempotency_conflict"
  end.

(** ** Command receipts *)

Record ServiceCommandReceiptInput := {
  ri_idempotency_key : str;
  ri_command_digest : Sha256Digest;
  ri_command_kind : str;
  ri_created_at : Z
}.

Module ServiceCommandReceiptClaim.
Inductive ServiceCommandReceiptClaim : Type :=
| Fresh | Pending | Replay (result_json : str) | Conflict.
End ServiceCommandReceiptClaim.
Abbreviation ServiceCommandReceiptClaim := ServiceCommandReceiptClaim.ServiceCommandReceiptClaim.

(** A row of [service_command_receipts]; its key is the primary key. *)
Record ReceiptRow := {
  rr_command_digest : str;
  rr_command_kind : str;
  rr_state : str;
  rr_result_json : option str;
  rr_created_at : Z;
  rr_completed_at : option Z
}.

Abbreviation Receipts := (gmap str ReceiptRow) (only parsing).

Definition validate_service_command_receipt (input : ServiceCommandReceiptInput) :
    result CarlError unit :=
  let kind_valid :=
    input.(ri_command_kind) ∈?
      [lit "start_task"; lit "start_trusted_task"; lit "configure_trusted_session";
       lit "resolve_approval"; lit "resume"; lit "steer"; lit "steer_trusted"; lit "cancel";
       lit "compact"; lit "configure"; lit "prepare_maintenance"; lit "shutdown"] in
  reject (is_empty input.(ri_idempotency_key) || (128 <? len input.(ri_idempotency_key))
          || existsb is_control input.(ri_idempotency_key) || negb kind_valid)
    (CarlError.Policy (lit "service command receipt binding is invalid")).

Definition claim_service_command (receipts : Receipts) (input : ServiceCommandReceiptInput) :
    result CarlError (Receipts * ServiceCommandReceiptClaim) :=
  _ ← validate_service_command_receipt input;
  let key := input.(ri_idempotency_key) in
  let digest := Sha256Digest_display input.(ri_command_digest) in
  match receipts !! key with
  | Some row =>
      if negb (row.(rr_command_digest) =?? digest)
      then Ok (receipts, ServiceCommandReceiptClaim.Conflict)
      else if row.(rr_state) =?? lit "pending" then
        match row.(rr_result_json) with
        | None => Ok (receipts, ServiceCommandReceiptClaim.Pending)
        | Some _ => Err (CarlError.Storage (lit "service command receipt state is invalid"))
        end
      else if row.(rr_state) =?? lit "completed" then
        match row.(rr_result_json) with
        | Some result_json => Ok (receipts, ServiceCommandReceiptClaim.Replay result_json)
        | None => Err (CarlError.Storage (lit "service command receipt state is invalid"))
        end
      else Err (CarlError.Storage (lit "service command receipt state is invalid"))
  | None =>
      Ok (<[key := {| rr_command_digest := digest; rr_command_kind := input.(ri_command_kind);
                      rr_state := lit "pending"; rr_result_json := None;
                      rr_created_at := input.(ri_created_at); rr_completed_at := None |}]> receipts,
          ServiceCommandReceiptClaim.Fresh)
  end.

Section Receipts.
(** [serde_json::from_str::<Value>(text).is_ok_and(|value| value.is_object())]. *)
Variable is_json_object : str -> bool.

(** A completed row has its result (the table checks it); the text of the error
    SQLite would otherwise give is left empty. *)
Definition complete_service_command (receipts : Receipts) (input : ServiceCommandReceiptInput)
    (result_json : str) (completed_at : Z) : result CarlError (Receipts * str) :=
  _ ← validate_service_command_receipt input;
  _ ← reject (is_empty result_json || (262144 <? len result_json) || negb (is_json_object result_json))
        (CarlError.Policy (lit "service command result is invalid"));
  let key := input.(ri_idempotency_key) in
  let digest := Sha256Digest_display input.(ri_command_digest) in
  match receipts !! key with
  | Some row =>
      if negb (row.(rr_command_digest) =?? digest) then
        Err (CarlError.Policy (lit "service command was not durably completed"))
      else if row.(rr_state) =?? lit "pending" then
        Ok (<[key := {| rr_command_digest := row.(rr_command_digest);
                        rr_command_kind := row.(rr_command_kind); rr_state := lit "completed";
                        rr_result_json := Some result_json; rr_created_at := row.(rr_created_at);
                        rr_completed_at := Some completed_at |}]> receipts, result_json)
      else if row.(rr_state) =?? lit "completed" then
        result_json ← ok_or row.(rr_result_json) (CarlError.Storage []);
        Ok (receipts, result_json)
      else Err (CarlError.Policy (lit "service command was not durably completed"))
  | None => Err (CarlError.Policy (lit "service command was not durably completed"))
  end.
End Receipts.

(** ** Dispatch *)

Section Dispatch.
Context {W : Type}.
(** [execute_command] and [shutdown_owner], over the owner and the rest. *)
Variable execute_command : TaskActorOwner * W -> ServiceRequest -> bool ->
  (TaskActorOwner * W) * result TaskServiceErrorCode ServiceResult.
Variable shutdown_owner : TaskActorOwner * W -> (TaskActorOwner * W) * result TaskServiceErrorCode unit.
(** [Utc::now], [serde_json] at [ServiceResult], and the digest of a command. *)
Variable utc_now : W -> Z.
Variable result_to_string : ServiceResult -> option str.
Variable result_from_str : str -> option ServiceResult.
Variable is_json_object : str -> bool.
Variable command_to_vec : ServiceCommand -> option bytes.
Variable sha256 : bytes -> Sha256Digest.

Record ServiceShared := { receipts : gmap str ReceiptRow; owner : TaskActorOwner; world : W }.

Definition is_prepare (command : ServiceCommand) : bool :=
  match command with ServiceCommand.PrepareMaintenance => true | _ => false end.
Definition is_shutdown (command : ServiceCommand) : bool :=
  match command with ServiceCommand.Shutdown => true | _ => false end.

(** A call into the owner and the world. *)
Definition run {A : Type} (receipts : gmap str ReceiptRow)
    (r : (TaskActorOwner * W) * result TaskServiceErrorCode A) :
    ServiceShared * result TaskServiceErrorCode A :=
  ({| receipts := receipts; owner := r.1.1; world := r.1.2 |}, r.2).

(** The receipt of a mutation, made before it is dispatched. *)
Definition receipt_of (shared : ServiceShared) (request : ServiceRequest) (digest : Sha256Digest) :
    ServiceCommandReceiptInput :=
  {| ri_idempotency_key := request.(sr_idempotency_key); ri_command_digest := digest;
     ri_command_kind := service_command_kind request.(sr_command);
     ri_created_at := utc_now shared.(world) |}.

(** The guards of [dispatch_request] before the command is executed: what is
    claimed, or the error it returns.  A claim may add a row. *)
Definition admit_mutation (shared : ServiceShared) (request : ServiceRequest) :
    ServiceShared * result TaskServiceErrorCode
      (ServiceCommandReceiptInput * ServiceCommandReceiptClaim) :=
  let key := request.(sr_idempotency_key) in
  let actor := shared.(owner) in
  match command_digest command_to_vec sha256 request.(sr_command) with
  | Err _ => (shared, Err TaskServiceErrorCode.InvalidRequest)
  | Ok digest =>
      let receipt := receipt_of shared request digest in
      if is_prepare request.(sr_command) && negb (allows_prepare actor key)
      then (shared, Err TaskServiceErrorCode.Stopped)
      else
        let phase_rejects :=
          negb (is_prepare request.(sr_command) || is_shutdown request.(sr_command))
          && starts_stopped actor in
        let checks_maintenance_binding := phase_rejects && owns_maintenance_key actor key in
        if phase_rejects && negb checks_maintenance_binding
        then (shared, Err TaskServiceErrorCode.Stopped)
        else
          match claim_service_command shared.(receipts) receipt with
          | Err _ => (shared, Err TaskServiceErrorCode.InvalidRequest)
          | Ok (rows, claim) =>
              let shared := {| receipts := rows; owner := actor; world := shared.(world) |} in
              match claim with
              | ServiceCommandReceiptClaim.Conflict =>
                  (shared, Err TaskServiceErrorCode.IdempotencyConflict)
              | _ => if phase_rejects then (shared, Err TaskServiceErrorCode.Stopped)
                     else (shared, Ok (receipt, claim))
              end
          end
  end.

(** The end of [dispatch_request]: the result becomes durable. *)
Definition settle (shared : ServiceShared) (receipt : ServiceCommandReceiptInput)
    (answer : ServiceResult) : ServiceShared * result TaskServiceErrorCode ServiceResult :=
  match result_to_string answer with
  | None => (shared, Err TaskServiceErrorCode.Storage)
  | Some result_json =>
      match complete_service_command is_json_object shared.(receipts) receipt result_json
              (utc_now shared.(world)) with
      | Ok (rows, _) =>
          ({| receipts := rows; owner := shared.(owner); world := shared.(world) |}, Ok answer)
      | Err _ => (shared, Err TaskServiceErrorCode.Storage)
      end
  end.

Definition is_pending (claim : ServiceCommandReceiptClaim) : bool :=
  match claim with ServiceCommandReceiptClaim.Pending => true | _ => false end.

Definition dispatch_request (shared : ServiceShared) (request : ServiceRequest) :
    ServiceShared * result TaskServiceErrorCode ServiceResult :=
  if negb (is_mutation request.(sr_command)) then
    run shared.(receipts) (execute_command (shared.(owner), shared.(world)) request false)
  else
    match admit_mutation shared request with
    | (shared, Err e) => (shared, Err e)
    | (shared, Ok (_, ServiceCommandReceiptClaim.Replay result_json)) =>
        match result_from_str result_json with
        | None => (shared, Err TaskServiceErrorCode.Storage)
        | Some answer =>
            if is_shutdown request.(sr_command) then
              match run shared.(receipts) (shutdown_owner (shared.(owner), shared.(world))) with
              | (shared, Ok _) => (shared, Ok answer)
              | (shared, Err e) => (shared, Err e)
              end
            else (shared, Ok answer)
        end
    | (shared, Ok (receipt, claim)) =>
        match run shared.(receipts)
                (execute_command (shared.(owner), shared.(world)) request (is_pending claim)) with
        | (shared, Err e) => (shared, Err e)
        | (shared, Ok answer) => settle shared receipt answer
        end
    end.
End Dispatch.
Arguments ServiceShared : clear implicits.

(** ** A connection *)

(** [read_until(b'\n')] on the first [limit] bytes: the bytes it takes and the
    rest of the stream. *)
Fixpoint read_until (limit : nat) (stream : bytes) : bytes * bytes :=
  match limit, stream with
  | S limit, b :: stream =>
      if b =? 10 then ([b], stream)
      else let '(line, rest) := read_until limit stream in (b :: line, rest)
  | _, _ => ([], stream)
  end.

(** [read_bounded_line] of the server. *)
Definition read_bounded_line (stream : bytes) :
    result TaskServiceErrorCode (option (bytes * bytes)) :=
  let '(line, rest) := read_until (Z.to_nat (MAX_SERVICE_FRAME_BYTES + 2)) stream in
  if is_empty line then Ok None
  else
    _ ← reject ((MAX_SERVICE_FRAME_BYTES + 1 <? Zlen line) || negb (last line =?? Some 10))
          TaskServiceErrorCode.InvalidRequest;
    Ok (Some (line, rest)).

Section Connection.
Context {St : Type}.
(** [dispatch_request] as a function of the service's state. *)
Variable dispatch : St -> ServiceRequest -> St * result TaskServiceErrorCode ServiceResult.
(** [serde_json] at the types of requests, commands and frames; the hash; and
    [Uuid::parse_str]. *)
Variable request_from_slice : bytes -> option ServiceRequest.
Variable frame_to_vec : ServiceFrame -> option bytes.
Variable command_to_vec : ServiceCommand -> option bytes.
Variable sha256 : bytes -> Sha256Digest.
Variable uuid_parses : str -> bool.

Definition error_frame (code : ProtocolErrorCode) : ServiceFrame :=
  ServiceFrame.Error [] (protocol_code code) (lit "service request rejected").

Definition answer_frame (request_id : str) (r : result TaskServiceErrorCode ServiceResult) :
    ServiceFrame :=
  match r with
  | Ok answer => ServiceFrame.Response request_id answer
  | Err code => ServiceFrame.Error request_id (service_code code) (lit "service command rejected")
  end.

(** How the loop of a connection ended: the connection is over, the service is
    told to stop, or an error. *)
Inductive ending : Type := Closed | StopService | Broken (code : TaskServiceErrorCode).

(** [handle_connection]: the state, the lines written and the ending.  Every
    line takes at least one byte of the stream, so the length of the stream
    bounds the number of turns. *)
Fixpoint serve_lines (turns : nat) (st : St) (ledger : RequestLedger) (stream : bytes) :
    St * list bytes * ending :=
  match turns with
  | O => (st, [], Closed)
  | S turns =>
      match read_bounded_line stream with
      | Err e => (st, [], Broken e)
      | Ok None => (st, [], Closed)
      | Ok (Some (line, rest)) =>
          match decode_request_line request_from_slice command_to_vec sha256 uuid_parses line ledger with
          | Err code =>
              match encode_frame frame_to_vec (error_frame code) with
              | Ok line => (st, [line], Closed)
              | Err _ => (st, [], Broken TaskServiceErrorCode.Transport)
              end
          | Ok (request, ledger) =>
              let '(st, r) := dispatch st request in
              let frame := answer_frame request.(sr_request_id) r in
              match encode_frame frame_to_vec frame with
              | Err _ => (st, [], Broken TaskServiceErrorCode.Transport)
              | Ok line =>
                  if is_shutdown request.(sr_command) && is_ok r then (st, [line], StopService)
                  else
                    let '(st, lines, e) := serve_lines turns st ledger rest in
                    (st, line :: lines, e)
              end
          end
      end
  end.

Definition handle_connection (st : St) (stream : bytes) : St * list bytes * ending :=
  serve_lines (S (length stream)) st RequestLedger_default stream.
End Connection.

(** ** Maintenance moves forward *)

Inductive owner_step : TaskActorOwner -> TaskActorOwner -> Prop :=
| step_claim o t : owner_step o (claim_start o t).1
| step_shutdown o : owner_step o (publish_shutdown o).1
| step_begin o key : owner_step o (begin_maintenance o key).1
| step_clear o t snapshot : owner_step o (clear_active o t snapshot).1.

Definition owner_ok (o : TaskActorOwner) : Prop :=
  match o.(phase) with
  | MaintenancePhase.Running => o.(maintenance_task) = None /\ o.(maintenance_checkpoint) = None
  | MaintenancePhase.Draining =>
      is_Some o.(maintenance_task) /\ o.(active_task) = o.(maintenance_task)
      /\ o.(maintenance_checkpoint) = None
  | MaintenancePhase.Ready =>
      is_some o.(maintenance_task) = is_some o.(maintenance_checkpoint)
  end.

Definition phase_rank (p : MaintenancePhase) : nat :=
  match p with
  | MaintenancePhase.Running => 0
  | MaintenancePhase.Draining => 1
  | MaintenancePhase.Ready => 2
  end.

(** What one step keeps. *)
Definition owner_le (o o' : TaskActorOwner) : Prop :=
  (phase_rank o.(phase) <= phase_rank o'.(phase))%nat
  /\ (o.(emergency_requested) = true -> o'.(emergency_requested) = true)
  /\ (o.(phase) <> MaintenancePhase.Running ->
      o'.(maintenance_idempotency_key) = o.(maintenance_idempotency_key))
  /\ (starts_stopped o = true ->
      o'.(active_task) = o.(active_task) \/ o'.(active_task) = None).

#[export] Instance owner_le_refl : Reflexive owner_le.
Proof. intros o. split_and!; auto. Qed.

Lemma starts_stopped_iff o :
  starts_stopped o = true <-> (0 < phase_rank o.(phase))%nat \/ o.(emergency_requested) = true.
Proof.
  unfold starts_stopped. rewrite orb_true_iff, negb_true_iff, bool_decide_eq_false.
  destruct o.(phase); simpl; split; intros [|]; auto; (left; done || lia).
Qed.

Lemma owner_le_stopped o o' : owner_le o o' -> starts_stopped o = true -> starts_stopped o' = true.
Proof. intros (?&He&_). rewrite !starts_stopped_iff. intros [?|?]; [left; lia|auto]. Qed.

#[export] Instance owner_le_trans : Transitive owner_le.
Proof.
  intros o1 o2 o3 H12 H23. pose proof (owner_le_stopped _ _ H12).
  destruct H12 as (?&?&Hk&Ha), H23 as (?&?&Hk'&Ha'). split_and!; [lia|auto| |].
  - intros Hr. rewrite Hk', Hk; auto. intros Hr2. rewrite Hr2 in *.
    by destruct o1.(phase); simpl in *; try lia.
  - intros Hs. destruct Ha' as [->| ->]; auto.
Qed.

Lemma cleared_active (a : option TaskId) t :
  (if a =?? Some t then None else a) = a \/ (if a =?? Some t then None else a) = None.
Proof. case_bool_decide; auto. Qed.

Lemma owner_step_ok o o' : owner_step o o' -> owner_ok o -> owner_ok o' /\ owner_le o o'.
Proof.
  intros Hstep Hok. destruct Hstep as [o t|o|o key|o t snapshot].
  - unfold claim_start, owner_le. fold (starts_stopped o).
    destruct (starts_stopped o) eqn:Hs; (split; [|split_and!; auto; congruence]); [done|].
    unfold owner_ok in *. simpl. unfold starts_stopped in Hs.
    apply orb_false_iff in Hs as [Hp _]. apply negb_false_iff, bool_decide_eq_true in Hp.
    by rewrite Hp in *.
  - split; [done|]. unfold owner_le. simpl. split_and!; auto.
  - unfold begin_maintenance. simpl. case_bool_decide as Hp; [|split; [done|reflexivity]].
    unfold owner_ok in Hok. rewrite Hp in Hok. destruct Hok as [Hm Hc].
    destruct (active_task o) eqn:Ha; (split; [|unfold owner_le; simpl; rewrite Hp, Ha; split_and!; auto; simpl; (lia || naive_solver)]);
      unfold owner_ok; simpl; [|by rewrite Hm, Hc]. split_and!; [by eexists|done|done].
  - unfold clear_active. destruct (_ && _) eqn:Hd.
    + apply andb_true_iff in Hd as [Hp%bool_decide_eq_true Hm%bool_decide_eq_true].
      split; [|unfold owner_le; simpl; rewrite Hp; split_and!; auto using cleared_active].
      unfold owner_ok in *. simpl. rewrite Hp in Hok. destruct Hok as (_ & _ & Hc).
      destruct (latest_checkpoint snapshot); simpl; [by rewrite Hm|by rewrite Hc].
    + split; [|unfold owner_le; simpl; split_and!; auto using cleared_active].
      unfold owner_ok in *. simpl. destruct (phase o) eqn:Hp; [done| |done].
      destruct Hok as (? & Ha & ?). split_and!; [done| |done].
      rewrite bool_decide_true in Hd by done. rewrite Ha. simpl in Hd. by rewrite Hd.
Qed.

Lemma owner_steps_ok o o' : rtc owner_step o o' -> owner_ok o -> owner_ok o' /\ owner_le o o'.
Proof.
  induction 1 as [o|o o1 o' Hs _ IH]; intros Hok; [split; [done|reflexivity]|].
  destruct (owner_step_ok _ _ Hs Hok) as [Hok1 Hle]. destruct (IH Hok1). split; [done|]. by etrans.
Qed.

(** Maintenance only moves forward and ends every start.  Whatever the owner
    of the actor did before and does next: the status it reports is one the client
    accepts, so a service that is ready names a checkpoint exactly when it names a
    task; the phase never goes back and keeps the key that began it; and once
    maintenance or a shutdown was requested, no task is started any more and the
    active task can only end. *)
Theorem maintenance_moves_forward o o' t :
  rtc owner_step TaskActorState_default o -> rtc owner_step o o' ->
  ServiceMaintenanceStatus_try_from (maintenance_status o) = Ok (maintenance_status o)
  /\ owner_le o o'
  /\ (starts_stopped o = true -> claim_start o' t = (o', false)).
Proof.
  intros Ho Ho'. destruct (owner_steps_ok _ _ Ho ltac:(done)) as [Hok _].
  destruct (owner_steps_ok _ _ Ho' Hok) as [_ Hle]. split_and!; [|done|].
  - unfold ServiceMaintenanceStatus_try_from, maintenance_status, owner_ok in *. simpl.
    destruct (phase o); simpl.
    + destruct Hok as [_ ->]. done.
    + destruct Hok as ([? ->] & _ & ->). done.
    + by rewrite Hok, eqb_reflx.
  - intros Hs. apply (owner_le_stopped _ _ Hle) in Hs. unfold claim_start.
    unfold starts_stopped in Hs. by rewrite Hs.
Qed.

(** ** A command takes effect once *)

Definition row_ok (row : ReceiptRow) : Prop :=
  row.(rr_state) = lit "pending" /\ row.(rr_result_json) = None
  \/ row.(rr_state) = lit "completed" /\ is_Some row.(rr_result_json).

(** What a claim finds and leaves under its key; every other row stays. *)
Lemma claim_spec rows input rows' claim :
  claim_service_command rows input = Ok (rows', claim) ->
  let key := input.(ri_idempotency_key) in
  let digest := Sha256Digest_display input.(ri_command_digest) in
  match claim with
  | ServiceCommandReceiptClaim.Fresh =>
      rows !! key = None
      /\ exists row, rows' = <[key := row]> rows /\ row.(rr_command_digest) = digest
           /\ row.(rr_state) = lit "pending" /\ row.(rr_result_json) = None
  | ServiceCommandReceiptClaim.Conflict => rows' = rows
  | ServiceCommandReceiptClaim.Pending =>
      rows' = rows /\ exists row, rows !! key = Some row /\ row.(rr_command_digest) = digest
        /\ row.(rr_state) = lit "pending"
  | ServiceCommandReceiptClaim.Replay json =>
      rows' = rows /\ exists row, rows !! key = Some row /\ row.(rr_command_digest) = digest
        /\ row.(rr_state) = lit "completed" /\ row.(rr_result_json) = Some json
  end.
Proof.
  intros H key digest. unfold claim_service_command in H.
  apply bind_ok in H as ([] & _ & H). fold key digest in H.
  destruct (rows !! key) as [row|] eqn:Hrow.
  - destruct (negb (row.(rr_command_digest) =?? digest)) eqn:Hd; [by simplify_eq|].
    apply negb_false_iff, bool_decide_eq_true in Hd.
    destruct (row.(rr_state) =?? lit "pending") eqn:Hp.
    + apply bool_decide_eq_true in Hp. destruct (rr_result_json row); simplify_eq. naive_solver.
    + destruct (row.(rr_state) =?? lit "completed") eqn:Hc; [|done].
      apply bool_decide_eq_true in Hc. destruct (rr_result_json row) eqn:Hj; simplify_eq.
      naive_solver.
  - simplify_eq. split; [done|]. by eexists.
Qed.

(** A completion that succeeds leaves a completed row with the digest. *)
Lemma complete_spec is_json rows input json at_ rows' stored :
  complete_service_command is_json rows input json at_ = Ok (rows', stored) ->
  let key := input.(ri_idempotency_key) in
  exists row row', rows !! key = Some row
    /\ row.(rr_command_digest) = Sha256Digest_display input.(ri_command_digest)
    /\ rows' = <[key := row']> rows /\ row'.(rr_command_digest) = row.(rr_command_digest)
    /\ row'.(rr_state) = lit "completed" /\ row'.(rr_result_json) = Some stored
    /\ (row.(rr_state) = lit "pending" -> stored = json)
    /\ (row.(rr_state) = lit "completed" -> row' = row).
Proof.
  intros H key. unfold complete_service_command in H.
  apply bind_ok in H as ([] & _ & H). apply bind_ok in H as ([] & _ & H). fold key in H.
  destruct (rows !! key) as [row|] eqn:Hrow; [|done].
  destruct (negb _) eqn:Hd; [done|]. apply negb_false_iff, bool_decide_eq_true in Hd.
  destruct (row.(rr_state) =?? lit "pending") eqn:Hp.
  - apply bool_decide_eq_true in Hp. simplify_eq. exists row. eexists.
    split_and!; try done. intros Hc. rewrite Hp in Hc. by vm_compute in Hc.
  - apply bool_decide_eq_false in Hp.
    destruct (row.(rr_state) =?? lit "completed") eqn:Hc; [|done].
    apply bool_decide_eq_true in Hc. apply bind_ok in H as (j & Hj%ok_or_ok & [= <- <-]).
    exists row, row. split_and!; try done. by rewrite insert_id.
Qed.

Section ExactlyOnce.
Context {W : Type}.
Variable execute_command : TaskActorOwner * W -> ServiceRequest -> bool ->
  (TaskActorOwner * W) * result TaskServiceErrorCode ServiceResult.
Variable shutdown_owner : TaskActorOwner * W -> (TaskActorOwner * W) * result TaskServiceErrorCode unit.
Variable utc_now : W -> Z.
Variable result_to_string : ServiceResult -> option str.
Variable result_from_str : str -> option ServiceResult.
Variable is_json_object : str -> bool.
Variable command_to_vec : ServiceCommand -> option bytes.
Variable sha256 : bytes -> Sha256Digest.

(** The world with a record of every execution and whether it was told that it
    recovers one that may have begun before. *)
Abbreviation Log := (list (ServiceRequest * bool)).
Definition logged_execute (x : TaskActorOwner * (W * Log)) (request : ServiceRequest)
    (recovering : bool) :=
  let '(o, (w, log)) := x in
  let r := execute_command (o, w) request recovering in
  ((r.1.1, (r.1.2, log ++ [(request, recovering)])), r.2).
Definition logged_shutdown (x : TaskActorOwner * (W * Log)) :=
  let '(o, (w, log)) := x in
  let r := shutdown_owner (o, w) in ((r.1.1, (r.1.2, log)), r.2).
Abbreviation now := (fun x : W * Log => utc_now x.1).
Abbreviation Shared := (ServiceShared (W * Log)).
Abbreviation admits := (admit_mutation now command_to_vec sha256).
Abbreviation dispatch :=
  (dispatch_request logged_execute logged_shutdown now result_to_string result_from_str
     is_json_object command_to_vec sha256).

(** The service dispatches requests, everything else changes beside it, and it may
    crash inside a dispatch: after the claim, or after the execution and before
    the result is durable.  Receipts survive a crash; the owner starts anew, which
    is one of the changes beside it. *)
Inductive service_step : Shared -> Shared -> Prop :=
| step_dispatch sh request : service_step sh (dispatch sh request).1
| step_beside sh o w :
    service_step sh {| receipts := sh.(receipts); owner := o; world := (w, sh.(world).2) |}
| step_crash_claimed sh request :
    is_mutation request.(sr_command) = true -> service_step sh (admits sh request).1
| step_crash_executed sh request sh1 receipt claim :
    is_mutation request.(sr_command) = true ->
    admits sh request = (sh1, Ok (receipt, claim)) ->
    (claim = ServiceCommandReceiptClaim.Fresh \/ claim = ServiceCommandReceiptClaim.Pending) ->
    service_step sh
      (run sh1.(receipts) (logged_execute (sh1.(owner), sh1.(world)) request (is_pending claim))).1.

Definition initial (o : TaskActorOwner) (w : W) : Shared :=
  {| receipts := ∅; owner := o; world := (w, []) |}.

(** The executions of mutations under a key. *)
Definition executions (key : str) (log : Log) : Log :=
  filter (fun e => is_mutation e.1.(sr_command) = true /\ e.1.(sr_idempotency_key) = key) log.

Definition digest_text (request : ServiceRequest) : result ProtocolErrorCode str :=
  Sha256Digest_display <$> command_digest command_to_vec sha256 request.(sr_command).

(** The receipt under a key accounts for every execution under it. *)
Definition key_ok (key : str) (sh : Shared) : Prop :=
  let es := executions key sh.(world).2 in
  match sh.(receipts) !! key with
  | None => es = []
  | Some row =>
      row_ok row /\ Forall (fun e => digest_text e.1 = Ok row.(rr_command_digest)) es
      /\ Forall (fun e => e.2 = true) (tail es)
  end.

Lemma executions_snoc key log e :
  executions key (log ++ [e])
  = executions key log
    ++ (if decide (is_mutation e.1.(sr_command) = true /\ e.1.(sr_idempotency_key) = key)
        then [e] else []).
Proof. unfold executions. rewrite filter_app, filter_cons, filter_nil. by case_decide. Qed.

(** A claim keeps every row, and the account of every key. *)
Lemma claim_keeps rows input rows' claim o w :
  claim_service_command rows input = Ok (rows', claim) ->
  (forall key row, rows !! key = Some row -> rows' !! key = Some row)
  /\ forall key, key_ok key {| receipts := rows; owner := o; world := w |} ->
       key_ok key {| receipts := rows'; owner := o; world := w |}.
Proof.
  intros H%claim_spec. destruct claim; [|naive_solver..].
  destruct H as (Hnone & row & -> & _ & Hp & Hj). split.
  - intros key row' Hk. rewrite lookup_insert_ne; [done|]. congruence.
  - intros key. unfold key_ok. simpl. destruct (decide (key = input.(ri_idempotency_key))) as [->|].
    + rewrite Hnone, lookup_insert_eq. intros ->. split_and!; [by left|done..].
    + by rewrite lookup_insert_ne.
Qed.

(** Admission: every row and account is kept, and what is known when it succeeds. *)
Lemma admit_keeps sh request sh' r :
  admits sh request = (sh', r) ->
  sh'.(world) = sh.(world)
  /\ (forall key, key_ok key sh -> key_ok key sh')
  /\ (forall key row, sh.(receipts) !! key = Some row -> sh'.(receipts) !! key = Some row).
Proof.
  unfold admit_mutation. destruct (command_digest _ _ _) as [digest|]; [|by intros [= <- <-]].
  destruct (is_prepare _ && _); [by intros [= <- <-]|].
  destruct (_ && negb (_ && owns_maintenance_key _ _)); [by intros [= <- <-]|].
  destruct (claim_service_command _ _) as [[rows claim]|] eqn:Hc; [|by intros [= <- <-]].
  intros H. assert (sh' = {| receipts := rows; owner := owner sh; world := world sh |}) as ->.
  { by destruct claim; [..|congruence]; destruct (_ && starts_stopped _); congruence. }
  destruct (claim_keeps _ _ _ _ (owner sh) (world sh) Hc). destruct sh. done.
Qed.

Lemma admit_spec sh request sh' receipt claim :
  admits sh request = (sh', Ok (receipt, claim)) ->
  let key := request.(sr_idempotency_key) in
  let digest := Sha256Digest_display receipt.(ri_command_digest) in
  receipt.(ri_idempotency_key) = key /\ digest_text request = Ok digest
  /\ exists row, sh'.(receipts) !! key = Some row /\ row.(rr_command_digest) = digest
       /\ match claim with
          | ServiceCommandReceiptClaim.Fresh =>
              sh.(receipts) !! key = None /\ row.(rr_state) = lit "pending"
          | ServiceCommandReceiptClaim.Pending => row.(rr_state) = lit "pending"
          | ServiceCommandReceiptClaim.Replay json =>
              sh'.(receipts) = sh.(receipts) /\ row.(rr_state) = lit "completed"
              /\ row.(rr_result_json) = Some json
          | ServiceCommandReceiptClaim.Conflict => False
          end.
Proof.
  unfold admit_mutation, digest_text. destruct (command_digest _ _ _) as [d|]; [|done].
  destruct (is_prepare _ && _); [done|].
  destruct (_ && negb (_ && owns_maintenance_key _ _)); [done|].
  destruct (claim_service_command _ _) as [[rows cl]|] eqn:Hc; [|done]. intros H.
  apply claim_spec in Hc. simpl in Hc.
  assert (cl = claim /\ receipt = receipt_of now sh request d
          /\ sh' = {| receipts := rows; owner := owner sh; world := world sh |}) as (-> & -> & ->).
  { by destruct cl; [..|congruence]; destruct (_ && starts_stopped _); simplify_eq. }
  simpl. split_and!; [done|done|]. destruct claim.
  - destruct Hc as (? & row & -> & ? & ? & ?). exists row. rewrite lookup_insert_eq. done.
  - naive_solver.
  - naive_solver.
  - done.
Qed.

(** An execution after an admission keeps every account. *)
Lemma execute_keeps sh request sh1 receipt claim key :
  is_mutation request.(sr_command) = true ->
  admits sh request = (sh1, Ok (receipt, claim)) ->
  (claim = ServiceCommandReceiptClaim.Fresh \/ claim = ServiceCommandReceiptClaim.Pending) ->
  key_ok key sh ->
  key_ok key (run sh1.(receipts)
    (logged_execute (sh1.(owner), sh1.(world)) request (is_pending claim))).1.
Proof.
  intros Hmut Ha Hclaim Hok.
  destruct (admit_keeps _ _ _ _ Ha) as (Hw & Hkeep & _).
  destruct (admit_spec _ _ _ _ _ Ha) as (_ & Hd & row & Hrow & Hdig & Hst).
  pose proof (Hkeep key Hok) as Hok1. unfold key_ok in *. destruct sh1 as [rows o [w log]]. simpl in *.
  rewrite executions_snoc. simpl. rewrite Hmut.
  destruct (decide (true = true /\ _)) as [[_ <-]|Hne]; [|by rewrite app_nil_r].
  rewrite Hrow in *. destruct Hok1 as (Hrok & Hall & Htail). split_and!; [done| |].
  - apply Forall_app. split; [done|]. apply Forall_singleton. simpl. congruence.
  - destruct Hclaim as [-> | ->].
    + destruct Hst as [Hnone _]. rewrite Hnone in Hok. rewrite <-Hw in Hok. simpl in Hok.
      by rewrite Hok.
    + destruct (executions _ log) as [|e es]; simpl in *; [done|].
      apply Forall_app. split; [done|]. by apply Forall_singleton.
Qed.

Lemma settle_keeps sh receipt answer key :
  key_ok key sh ->
  key_ok key (settle now result_to_string is_json_object sh receipt answer).1.
Proof.
  intros Hok. unfold settle. destruct (result_to_string answer); [|done].
  destruct (complete_service_command _ _ _ _ _) as [[rows stored]|] eqn:Hc; [|done].
  apply complete_spec in Hc as (row & row' & Hrow & _ & -> & Hdig & Hst & Hj & _).
  unfold key_ok in *. simpl. destruct (decide (key = receipt.(ri_idempotency_key))) as [->|].
  - rewrite lookup_insert_eq. rewrite Hrow in Hok. rewrite Hdig.
    split_and!; [right; by rewrite Hj|apply Hok..].
  - by rewrite lookup_insert_ne.
Qed.

Lemma read_keeps sh request key :
  is_mutation request.(sr_command) = false -> key_ok key sh ->
  key_ok key (run sh.(receipts) (logged_execute (sh.(owner), sh.(world)) request false)).1.
Proof.
  intros Hr. unfold key_ok. destruct sh as [rows o [w log]]. simpl. rewrite executions_snoc. simpl.
  rewrite Hr. by rewrite decide_False, app_nil_r by naive_solver.
Qed.

Lemma dispatch_keeps sh request key : key_ok key sh -> key_ok key (dispatch sh request).1.
Proof.
  intros Hok. unfold dispatch_request. destruct (is_mutation _) eqn:Hm; simpl; [|by apply read_keeps].
  destruct (admits sh request) as [sh1 [[receipt claim]|e]] eqn:Ha; [|by eapply admit_keeps].
  assert (Hok1 : key_ok key sh1) by by eapply admit_keeps.
  assert (Hrun : (claim = ServiceCommandReceiptClaim.Fresh \/ claim = ServiceCommandReceiptClaim.Pending) ->
    key_ok key (match run sh1.(receipts) (logged_execute (sh1.(owner), sh1.(world)) request (is_pending claim)) with
       | (shared, Ok answer) => settle now result_to_string is_json_object shared receipt answer
       | (shared, Err e) => (shared, Err e)
       end).1).
  { intros Hcl. pose proof (execute_keeps _ _ _ _ _ key Hm Ha Hcl Hok) as H.
    destruct (run _ _) as [sh2 [answer|e]]; simpl in *; [by apply settle_keeps|done]. }
  destruct claim as [| |json|]; [by apply Hrun; left|by apply Hrun; right| |].
  - destruct (result_from_str json); [|done]. destruct (is_shutdown _); [|done].
    unfold run, logged_shutdown. destruct sh1 as [rows o [w log]]. simpl in *.
    by destruct (shutdown_owner (o, w)) as [[??] [?|?]].
  - by destruct (admit_spec _ _ _ _ _ Ha) as (_ & _ & ? & _ & _ & []).
Qed.

Lemma service_steps_keep sh sh' key : rtc service_step sh sh' -> key_ok key sh -> key_ok key sh'.
Proof.
  induction 1 as [|sh1 sh2 sh3 Hs _ IH]; [done|]. intros Hok. apply IH. clear IH.
  destruct Hs as [| |sh request|]; [by apply dispatch_keeps|done| |by eapply execute_keeps].
  destruct (admits sh request) as [sh' r] eqn:Ha. by eapply admit_keeps.
Qed.

(** C5: A mutating command takes effect at most once per idempotency key.  However
    requests are repeated, connections and owners change, and the service crashes
    between the claim, the execution and the completion of a command: among all
    the executions under one key, only the first can be one that was not announced
    as the recovery of an earlier attempt, all of them were of commands with one
    and the same digest, and without a receipt there was none. *)
Theorem commands_execute_once o w sh key :
  rtc service_step (initial o w) sh ->
  let es := executions key sh.(world).2 in
  Forall (fun e => e.2 = true) (tail es)
  /\ (exists digest, Forall (fun e => digest_text e.1 = Ok digest) es)
  /\ (sh.(receipts) !! key = None -> es = []).
Proof.
  intros Hrun es. assert (Hok : key_ok key sh).
  { apply (service_steps_keep _ _ _ Hrun). unfold key_ok. simpl. by rewrite lookup_empty. }
  unfold key_ok in Hok. fold es in Hok. destruct (sh.(receipts) !! key) as [row|].
  - destruct Hok as (_ & ? & ?). split_and!; [done|by eexists|done].
  - rewrite Hok. split_and!; [done|by exists []|done].
Qed.

(** ** Completed commands are replayed *)

Definition completed (sh : Shared) (key digest json : str) : Prop :=
  exists row, sh.(receipts) !! key = Some row /\ row.(rr_command_digest) = digest
    /\ row.(rr_state) = lit "completed" /\ row.(rr_result_json) = Some json.

Lemma completed_not_pending (row : ReceiptRow) :
  row.(rr_state) = lit "completed" -> row.(rr_state) <> lit "pending".
Proof. intros ->. by vm_compute. Qed.

Lemma settle_completed sh receipt answer key digest json :
  completed sh key digest json ->
  completed (settle now result_to_string is_json_object sh receipt answer).1 key digest json.
Proof.
  intros (row & Hrow & Hd & Hst & Hj). unfold settle. destruct (result_to_string answer); [|by exists row].
  destruct (complete_service_command _ _ _ _ _) as [[rows stored]|] eqn:Hc; [|by exists row].
  apply complete_spec in Hc as (row1 & row2 & Hrow1 & _ & -> & _ & _ & _ & _ & Hsame).
  exists row. simpl. destruct (decide (key = receipt.(ri_idempotency_key))) as [->|].
  - rewrite lookup_insert_eq. simplify_eq. by rewrite Hsame.
  - by rewrite lookup_insert_ne.
Qed.

Lemma dispatch_completed sh request key digest json :
  completed sh key digest json -> completed (dispatch sh request).1 key digest json.
Proof.
  intros Hc. unfold dispatch_request. destruct (is_mutation _); cbn [negb]; [|done].
  destruct (admits sh request) as [sh1 r] eqn:Ha.
  assert (Hc1 : completed sh1 key digest json).
  { destruct Hc as (row & Hrow & ?). exists row. by split; [eapply admit_keeps|]. }
  assert (Hrun : forall receipt claim, completed
    (match run sh1.(receipts) (logged_execute (sh1.(owner), sh1.(world)) request (is_pending claim)) with
       | (shared, Ok answer) => settle now result_to_string is_json_object shared receipt answer
       | (shared, Err e) => (shared, Err e)
       end).1 key digest json).
  { intros. assert (completed (run sh1.(receipts) (logged_execute (sh1.(owner), sh1.(world)) request (is_pending claim))).1
      key digest json) by (destruct sh1; done).
    destruct (run _ _) as [sh2 [answer|e]]; simpl in *; [by apply settle_completed|done]. }
  destruct r as [[receipt [| |json'|]]|e]; [apply (Hrun receipt ServiceCommandReceiptClaim.Fresh)
    |apply (Hrun receipt ServiceCommandReceiptClaim.Pending)|
    |apply (Hrun receipt ServiceCommandReceiptClaim.Conflict)|done].
  destruct (result_from_str json'); [|done]. destruct (is_shutdown _); [|done].
  unfold run. by destruct (logged_shutdown _) as [[??] [?|?]].
Qed.

Lemma service_steps_completed sh sh' key digest json :
  rtc service_step sh sh' -> completed sh key digest json -> completed sh' key digest json.
Proof.
  induction 1 as [|sh1 sh2 sh3 Hs _ IH]; [done|]. intros Hc. apply IH. clear IH.
  destruct Hs as [| |sh request|sh request sh1 receipt claim _ Ha _];
    [by apply dispatch_completed|done| |].
  - destruct (admits sh request) as [sh' r] eqn:Ha. destruct Hc as (row & Hrow & ?).
    exists row. by split; [eapply admit_keeps|].
  - destruct Hc as (row & Hrow & ?). exists row. split; [|done].
    destruct (admit_keeps _ _ _ _ Ha) as (_ & _ & Hkeep). by apply Hkeep.
Qed.

Hypothesis read_back : forall answer text,
  result_to_string answer = Some text -> result_from_str text = Some answer.

(** A mutation that was answered has a completed receipt with its answer. *)
Lemma answered_completed sh request sh1 answer :
  is_mutation request.(sr_command) = true -> dispatch sh request = (sh1, Ok answer) ->
  exists digest json, digest_text request = Ok digest
    /\ completed sh1 request.(sr_idempotency_key) digest json /\ result_from_str json = Some answer.
Proof.
  intros Hm. unfold dispatch_request. rewrite Hm. cbn [negb].
  destruct (admits sh request) as [sh2 [[receipt claim]|e]] eqn:Ha; [|done].
  destruct (admit_spec _ _ _ _ _ Ha) as (Hkey & Hd & row & Hrow & Hdig & Hst).
  assert (Hrun : row.(rr_state) = lit "pending" ->
    match run sh2.(receipts) (logged_execute (sh2.(owner), sh2.(world)) request (is_pending claim)) with
       | (shared, Ok answer) => settle now result_to_string is_json_object shared receipt answer
       | (shared, Err e) => (shared, Err e)
       end = (sh1, Ok answer) ->
    exists digest json, digest_text request = Ok digest
      /\ completed sh1 request.(sr_idempotency_key) digest json /\ result_from_str json = Some answer).
  { intros Hp. destruct (run _ _) as [sh3 [a|e]] eqn:Hr; [|done].
    assert (sh3.(receipts) = sh2.(receipts)) as H3 by (unfold run in Hr; by simplify_eq).
    unfold settle. destruct (result_to_string a) as [text|] eqn:Ht; [|done].
    destruct (complete_service_command _ _ _ _ _) as [[rows stored]|] eqn:Hc; [|done].
    intros [= <- <-]. apply complete_spec in Hc as (r1 & r2 & Hr1 & _ & -> & Hd2 & Hs2 & Hj2 & Hst2 & _).
    rewrite H3, Hkey in *. simplify_eq. rewrite Hst2 in Hj2 by done.
    exists (Sha256Digest_display receipt.(ri_command_digest)), text. split_and!; [done| |auto].
    exists r2. cbn [receipts]. rewrite lookup_insert_eq. split_and!; congruence. }
  destruct claim as [| |json|]; [apply Hrun, Hst|apply Hrun, Hst| |done].
  destruct (result_from_str json) as [a|] eqn:Hj; [|done]. destruct Hst as (_ & ? & ?).
  intros Hans. assert (a = answer /\ sh1.(receipts) = sh2.(receipts)) as [-> Hr].
  { destruct (is_shutdown _); [|by simplify_eq]. unfold run in Hans.
    by destruct (logged_shutdown _) as [[??] [?|?]]; simplify_eq/=. }
  eexists _, json. split_and!; [done| |done]. exists row. rewrite Hr. by split_and!.
Qed.

Lemma mutation_kind_valid command :
  is_mutation command = true ->
  (service_command_kind command ∈?
      [lit "start_task"; lit "start_trusted_task"; lit "configure_trusted_session";
       lit "resolve_approval"; lit "resume"; lit "steer"; lit "steer_trusted"; lit "cancel";
       lit "compact"; lit "configure"; lit "prepare_maintenance"; lit "shutdown"]) = true.
Proof. by destruct command. Qed.

(** The receipts of two mutations under one key are both valid or both not. *)
Lemma receipt_valid sh sh' r r' d d' :
  is_mutation r.(sr_command) = true -> is_mutation r'.(sr_command) = true ->
  r'.(sr_idempotency_key) = r.(sr_idempotency_key) ->
  validate_service_command_receipt (receipt_of now sh r d)
  = validate_service_command_receipt (receipt_of now sh' r' d').
Proof.
  intros Hm Hm' Hk. unfold validate_service_command_receipt. cbn [receipt_of ri_idempotency_key ri_command_kind].
  by rewrite !mutation_kind_valid, Hk by done.
Qed.

(** Admission of a command whose receipt is completed. *)
Lemma admit_completed sh request sh0 request0 sh1 x digest json :
  is_mutation request.(sr_command) = true -> is_mutation request0.(sr_command) = true ->
  request.(sr_idempotency_key) = request0.(sr_idempotency_key) ->
  admits sh0 request0 = (sh1, Ok x) ->
  digest_text request = Ok digest -> completed sh request.(sr_idempotency_key) digest json ->
  let stopped := if is_prepare request.(sr_command)
                 then negb (allows_prepare sh.(owner) request.(sr_idempotency_key))
                 else negb (is_shutdown request.(sr_command)) && starts_stopped sh.(owner) in
  exists receipt, admits sh request
    = (sh, if stopped then Err TaskServiceErrorCode.Stopped
           else Ok (receipt, ServiceCommandReceiptClaim.Replay json)).
Proof.
  intros Hm Hm0 Hk H0 Hd (row & Hrow & Hdig & Hst & Hj).
  apply fmap_ok in Hd as (d & Hd & <-).
  assert (Hv : validate_service_command_receipt (receipt_of now sh request d) = Ok tt).
  { unfold admit_mutation in H0. destruct (command_digest _ _ request0.(sr_command)) as [d0|]; [|done].
    destruct (is_prepare _ && _); [done|].
    destruct (_ && negb (_ && owns_maintenance_key _ _)); [done|].
    destruct (claim_service_command _ _) as [[rows claim]|] eqn:Hc; [|done].
    unfold claim_service_command in Hc. apply bind_ok in Hc as ([] & Hv & _).
    rewrite <-Hv. by apply receipt_valid. }
  assert (Hc : claim_service_command sh.(receipts) (receipt_of now sh request d)
               = Ok (sh.(receipts), ServiceCommandReceiptClaim.Replay json)).
  { unfold claim_service_command. rewrite Hv. cbn [mbind result_bind receipt_of ri_idempotency_key ri_command_digest].
    rewrite Hrow, Hdig, (bool_decide_true (_ = _)) by done. cbn [negb].
    rewrite (bool_decide_false (rr_state row = lit "pending")) by by apply completed_not_pending.
    by rewrite (bool_decide_true (rr_state row = lit "completed")), Hj by done. }
  exists (receipt_of now sh request d). unfold admit_mutation. rewrite Hd. destruct sh as [rows o w].
  cbn [receipts owner world] in *.
  destruct (is_prepare request.(sr_command)); cbn [orb negb andb].
  - destruct (negb _); [done|]. by rewrite Hc.
  - destruct (negb (is_shutdown _) && starts_stopped o); cbn [andb negb].
    + destruct (owns_maintenance_key _ _); [|done]. cbn [negb]. by rewrite Hc.
    + by rewrite Hc.
Qed.

End ExactlyOnce.

(** ** A connection answers in order *)

Lemma read_until_line limit (payload rest : bytes) :
  10 ∉ payload -> (length payload < limit)%nat ->
  read_until limit (payload ++ 10 :: rest) = (payload ++ [10], rest).
Proof.
  revert limit. induction payload as [|b payload IH]; intros limit Hn Hl; simpl in *;
    (destruct limit as [|limit]; [lia|]).
  - done.
  - apply not_elem_of_cons in Hn as [? Hn]. simpl.
    destruct (Z.eqb_spec b 10); [done|]. by rewrite IH by (done || lia).
Qed.

Lemma read_bounded_line_payload payload rest :
  10 ∉ payload -> Zlen payload <= MAX_SERVICE_FRAME_BYTES ->
  read_bounded_line (payload ++ 10 :: rest) = Ok (Some (payload ++ [10], rest)).
Proof.
  intros Hn Hl. unfold read_bounded_line. rewrite Zlen_length in Hl.
  rewrite read_until_line; [|done|unfold MAX_SERVICE_FRAME_BYTES in *; lia].
  destruct (is_empty (payload ++ [10])) eqn:He; [by destruct payload|].
  rewrite last_snoc, bool_decide_true by done.
  assert ((MAX_SERVICE_FRAME_BYTES + 1 <? Zlen (payload ++ [10])) = false) as ->; [|done].
  rewrite Zlen_length, length_app. cbn [length]. apply Z.ltb_ge. unfold MAX_SERVICE_FRAME_BYTES in *. lia.
Qed.

Section Requests.
Context {St : Type}.
Variable dispatch : St -> ServiceRequest -> St * result TaskServiceErrorCode ServiceResult.
Variable request_to_vec : ServiceRequest -> option bytes.
Variable request_from_slice : bytes -> option ServiceRequest.
Variable frame_to_vec : ServiceFrame -> option bytes.
Variable command_to_vec : ServiceCommand -> option bytes.
Variable sha256 : bytes -> Sha256Digest.
Variable uuid_parses : str -> bool.

Abbreviation decode := (decode_request_line request_from_slice command_to_vec sha256 uuid_parses).
Abbreviation serve := (serve_lines dispatch request_from_slice frame_to_vec command_to_vec sha256 uuid_parses).
Abbreviation record := (record command_to_vec sha256).

(** A request as it is sent: it is valid and its JSON is one line that fits. *)
Definition sendable (request : ServiceRequest) (payload : bytes) : Prop :=
  request_to_vec request = Some payload /\ (10 ∉ payload) /\ last payload <> Some 13
  /\ Zlen payload <= MAX_SERVICE_FRAME_BYTES /\ validate_request uuid_parses request = Ok tt.

(** The requests dispatched one after the other, with the frames that answer them. *)
Fixpoint answer_all (st : St) (requests : list ServiceRequest) : St * list ServiceFrame :=
  match requests with
  | [] => (st, [])
  | request :: requests =>
      let '(st, r) := dispatch st request in
      let '(st, frames) := answer_all st requests in
      (st, answer_frame request.(sr_request_id) r :: frames)
  end.

Definition is_response (frame : ServiceFrame) : bool :=
  match frame with ServiceFrame.Response _ _ => true | _ => false end.
Definition writes (frame : ServiceFrame) (line : bytes) : Prop := encode_frame frame_to_vec frame = Ok line.

(** The connection has answered all these requests, each with the line of its frame,
    and goes on: the ledger took them, and no shutdown among them succeeded. *)
Definition answered (st : St) (ledger : RequestLedger) (requests : list ServiceRequest)
    (st' : St) (ledger' : RequestLedger) (lines : list bytes) : Prop :=
  exists frames, answer_all st requests = (st', frames) /\ try_fold record ledger requests = Ok ledger'
    /\ Forall2 writes frames lines
    /\ Forall2 (fun request frame => is_shutdown request.(sr_command) && is_response frame = false) requests frames.

(** What becomes of the requests of a connection: all of them are answered; or those
    before one that the ledger refuses, which gets the frame of the refusal; or those up
    to a shutdown that succeeds; or those before one whose frame cannot be written. *)
Inductive served (st : St) (ledger : RequestLedger) (requests : list ServiceRequest) :
    St -> list bytes -> ending -> Prop :=
| served_all st' ledger' lines :
    answered st ledger requests st' ledger' lines -> served st ledger requests st' lines Closed
| served_refused first request rest st' ledger' lines code line :
    requests = first ++ request :: rest -> answered st ledger first st' ledger' lines ->
    record ledger' request = Err code -> writes (error_frame code) line ->
    served st ledger requests st' (lines ++ [line]) Closed
| served_stopped first request rest st1 ledger1 ledger2 lines st' answer line :
    requests = first ++ request :: rest -> answered st ledger first st1 ledger1 lines ->
    record ledger1 request = Ok ledger2 -> is_shutdown request.(sr_command) = true ->
    dispatch st1 request = (st', Ok answer) ->
    writes (ServiceFrame.Response request.(sr_request_id) answer) line ->
    served st ledger requests st' (lines ++ [line]) StopService
| served_unwritten first request rest st1 ledger1 ledger2 lines st' r e :
    requests = first ++ request :: rest -> answered st ledger first st1 ledger1 lines ->
    record ledger1 request = Ok ledger2 -> dispatch st1 request = (st', r) ->
    encode_frame frame_to_vec (answer_frame request.(sr_request_id) r) = Err e ->
    served st ledger requests st' lines (Broken TaskServiceErrorCode.Transport)
| served_unwritten_refusal first request rest st' ledger' lines code e :
    requests = first ++ request :: rest -> answered st ledger first st' ledger' lines ->
    record ledger' request = Err code -> encode_frame frame_to_vec (error_frame code) = Err e ->
    served st ledger requests st' lines (Broken TaskServiceErrorCode.Transport).

Lemma answered_nil st ledger : answered st ledger [] st ledger [].
Proof. by exists []. Qed.

Lemma is_response_answer id r : is_response (answer_frame id r) = is_ok r.
Proof. by destruct r. Qed.

Lemma answered_cons st ledger request r line st1 ledger1 requests st' ledger' lines :
  record ledger request = Ok ledger1 -> dispatch st request = (st1, r) ->
  writes (answer_frame request.(sr_request_id) r) line -> is_shutdown request.(sr_command) && is_ok r = false ->
  answered st1 ledger1 requests st' ledger' lines ->
  answered st ledger (request :: requests) st' ledger' (line :: lines).
Proof.
  intros Hr Hd Hw Hs (frames & Ha & Hf & Hws & Hss). exists (answer_frame request.(sr_request_id) r :: frames).
  cbn [answer_all try_fold]. rewrite Hd, Ha, Hr. split_and!; [done|done|by constructor|]. constructor; [|done].
  by rewrite is_response_answer.
Qed.

Lemma served_cons st ledger request r line st1 ledger1 requests st' lines e :
  record ledger request = Ok ledger1 -> dispatch st request = (st1, r) ->
  writes (answer_frame request.(sr_request_id) r) line -> is_shutdown request.(sr_command) && is_ok r = false ->
  served st1 ledger1 requests st' lines e -> served st ledger (request :: requests) st' (line :: lines) e.
Proof.
  intros Hr Hd Hw Hs. pose proof (fun rs st' l' ls => answered_cons st ledger request r line st1 ledger1 rs st' l' ls
    Hr Hd Hw Hs) as Hc.
  destruct 1; subst; rewrite ?app_comm_cons; [eapply served_all|eapply served_refused|eapply served_stopped
    |eapply served_unwritten|eapply served_unwritten_refusal]; eauto; by rewrite app_comm_cons.
Qed.

Lemma lines_length (payloads : list bytes) :
  (length payloads <= length (payloads ≫= fun p => p ++ [10]%Z))%nat.
Proof.
  induction payloads as [|p payloads IH]; [done|]. rewrite bind_cons, !length_app. cbn [length]. lia.
Qed.

(** A line that was sent is decoded to its request, when the ledger takes it. *)
Lemma decode_sendable request payload ledger :
  (forall r b, request_to_vec r = Some b -> request_from_slice b = Some r) -> sendable request payload ->
  decode (payload ++ [10]) ledger = (ledger ← record ledger request; Ok (request, ledger)).
Proof.
  intros Hback (Hv & Hnl & Hcr & Hl & Hval). unfold decode_request_line.
  destruct (strip_newline_payload payload Hcr) as [-> _].
  cbn [mbind result_bind]. assert ((MAX_SERVICE_FRAME_BYTES <? Zlen payload) = false) as -> by lia.
  cbn [reject mbind result_bind]. rewrite (Hback _ _ Hv). cbn [ok_or mbind result_bind]. by rewrite Hval.
Qed.

Lemma serve_lines_served requests payloads turns st ledger :
  (forall r b, request_to_vec r = Some b -> request_from_slice b = Some r) ->
  Forall2 sendable requests payloads -> (length requests < turns)%nat ->
  let '(st', lines, e) := serve turns st ledger (payloads ≫= fun p => p ++ [10]) in
  served st ledger requests st' lines e.
Proof.
  intros Hback Hsend. revert turns st ledger.
  induction Hsend as [|request payload requests payloads Hs _ IH]; intros turns st ledger Ht;
    (destruct turns as [|turns]; [simpl in Ht; lia|]); [apply (served_all _ _ _ _ ledger), answered_nil|].
  cbn [length] in Ht. cbn [mbind list_bind serve_lines]. rewrite <-(assoc_L (++)). cbn [app].
  rewrite read_bounded_line_payload by apply Hs. rewrite (decode_sendable request) by done.
  pose proof (answered_nil st ledger) as Hnil.
  destruct (record ledger request) as [ledger1|code] eqn:Hr; cbn [mbind result_bind].
  2: { destruct (encode_frame _ _) as [line|e] eqn:He; [by eapply (served_refused st ledger _ [] request requests st ledger [])|].
       by eapply (served_unwritten_refusal st ledger _ [] request requests st ledger []). }
  destruct (dispatch st request) as [st1 r] eqn:Hd.
  destruct (encode_frame _ _) as [line|e] eqn:He; [|by eapply (served_unwritten st ledger _ [] request requests st ledger ledger1 [])].
  destruct (_ && is_ok r) eqn:Hstop.
  - apply andb_true_iff in Hstop as [Hsh Hok]. destruct r as [answer|]; [|done].
    by eapply (served_stopped st ledger _ [] request requests st ledger ledger1 []).
  - specialize (IH turns st1 ledger1 ltac:(lia)). destruct (serve _ _ _ _) as [[st' lines] e].
    by eapply served_cons.
Qed.

(** Nothing in the requests stops the connection. *)
Definition answerable (st : St) (requests : list ServiceRequest) : Prop :=
  is_ok (try_fold record RequestLedger_default requests) = true
  /\ Forall (fun request => is_shutdown request.(sr_command) = false) requests
  /\ Forall (fun frame => is_ok (encode_frame frame_to_vec frame) = true) (answer_all st requests).2.

Lemma answer_all_app st first rest :
  answer_all st (first ++ rest)
  = let '(st', frames) := answer_all st first in
    let '(st'', frames') := answer_all st' rest in (st'', frames ++ frames').
Proof.
  revert st. induction first as [|request first IH]; intros st; simpl; [by destruct (answer_all st rest)|].
  destruct (dispatch st request) as [st1 r]. rewrite IH. destruct (answer_all st1 first) as [st2 frames].
  by destruct (answer_all st2 rest).
Qed.

Lemma answerable_next st first request rest st1 ledger1 lines :
  answerable st (first ++ request :: rest) -> answered st RequestLedger_default first st1 ledger1 lines ->
  is_ok (record ledger1 request) = true /\ is_shutdown request.(sr_command) = false
  /\ is_ok (encode_frame frame_to_vec (answer_frame request.(sr_request_id) (dispatch st1 request).2)) = true.
Proof.
  intros (Hf & Hs & Hw) (frames & Ha & Hf1 & _). rewrite try_fold_app, Hf1 in Hf. cbn [mbind result_bind try_fold] in Hf.
  split; [by destruct (record ledger1 request)|].
  apply Forall_app in Hs as [_ [Hs _]%Forall_cons]. split; [done|].
  rewrite answer_all_app, Ha in Hw. cbn [answer_all] in Hw. destruct (dispatch st1 request) as [st2 r].
  destruct (answer_all st2 rest). by apply Forall_app in Hw as [_ [Hw _]%Forall_cons].
Qed.

Lemma served_answerable st requests st' lines e :
  answerable st requests -> served st RequestLedger_default requests st' lines e ->
  e = Closed /\ exists ledger', answered st RequestLedger_default requests st' ledger' lines.
Proof.
  intros Hok. destruct 1; subst; [by eauto|..];
    (edestruct answerable_next as (Hr & Hs & Hw); [exact Hok|eassumption|]).
  - by rewrite H1 in Hr.
  - by rewrite H2 in Hs.
  - rewrite H2 in Hw. simpl in Hw. by rewrite H3 in Hw.
  - by rewrite H1 in Hr.
Qed.

(** C25: A connection answers in order.  Whatever valid requests arrive, each on a line
    that fits, the loop ends, and it has answered the requests of the stream from the
    first one on, in order and without a gap, each with one line: the encoded frame with
    the request's identifier and what dispatching the requests in this order gave.  It
    answers all of them and is closed at the end of the stream; unless the connection's
    ledger refuses a request, which ends the connection after the line of the refusal;
    or a shutdown succeeds, which stops the service after its answer; or a frame cannot
    be encoded within the bound of a line, which breaks the connection, and only there
    can a request be dispatched without an answer.  When the ledger accepts the
    requests, none is a shutdown, and the frames fit, all of them are answered. *)
Theorem connection_answers_in_order st requests payloads :
  (forall r b, request_to_vec r = Some b -> request_from_slice b = Some r) ->
  Forall2 sendable requests payloads ->
  let '(st', lines, e) :=
    handle_connection dispatch request_from_slice frame_to_vec command_to_vec sha256 uuid_parses st
      (payloads ≫= fun p => p ++ [10]) in
  served st RequestLedger_default requests st' lines e
  /\ (answerable st requests ->
      e = Closed /\ exists ledger', answered st RequestLedger_default requests st' ledger' lines).
Proof.
  intros Hback Hsend. unfold handle_connection.
  pose proof (serve_lines_served requests payloads (S (length (payloads ≫= fun p => p ++ [10]))) st
    RequestLedger_default Hback Hsend) as Hserved.
  destruct (serve _ _ _ _) as [[st' lines] e].
  assert (served st RequestLedger_default requests st' lines e) as Hs.
  { apply Hserved. rewrite (Forall2_length _ _ _ Hsend). pose proof (lines_length payloads). lia. }
  split; [done|]. intros Hok. by apply served_answerable.
Qed.
End Requests.

(** ** Examples *)

Definition example_request : ServiceRequest :=
  {| sr_protocol_version := 7; sr_request_id := lit "r"; sr_idempotency_key := lit "k";
     sr_command := ServiceCommand.Cancel 7 |}.

Definition example_execute (x : TaskActorOwner * unit) (_ : ServiceRequest) (_ : bool) :
    (TaskActorOwner * unit) * result TaskServiceErrorCode ServiceResult := (x, Ok ServiceResult.Applied).
Definition example_shutdown (x : TaskActorOwner * unit) :
    (TaskActorOwner * unit) * result TaskServiceErrorCode unit := (x, Ok tt).
Definition example_to_string (r : ServiceResult) : option str :=
  match r with ServiceResult.Applied => Some (lit "{}") | _ => None end.

Definition example_dispatch :=
  dispatch_request (logged_execute example_execute) (logged_shutdown example_shutdown)
    (fun _ => 0) example_to_string (fun _ => Some ServiceResult.Applied) (fun _ => true)
    (fun _ => Some []) id.

Definition example_shared := (example_dispatch (initial TaskActorState_default tt) example_request).1.

Lemma commands_execute_once_witness :
  executions (lit "k") example_shared.(world).2 = [(example_request, false)]
  /\ Forall (fun e => e.2 = true) (tail (executions (lit "k") example_shared.(world).2)).
Proof.
  split; [reflexivity|].
  apply (commands_execute_once example_execute example_shutdown (fun _ => 0) example_to_string
    (fun _ => Some ServiceResult.Applied) (fun _ => true) (fun _ => Some []) id
    TaskActorState_default tt example_shared (lit "k")).
  apply rtc_once.
  exact (step_dispatch example_execute example_shutdown (fun _ => 0) example_to_string
    (fun _ => Some ServiceResult.Applied) (fun _ => true) (fun _ => Some []) id
    (initial TaskActorState_default tt) example_request).
Defined.


Definition example_request_from_slice (b : bytes) : option ServiceRequest :=
  if b =?? [123; 125] then Some example_request else None.
Definition example_request_to_vec (r : ServiceRequest) : option bytes :=
  match r.(sr_command) with
  | ServiceCommand.Cancel 7 =>
      if (r.(sr_protocol_version) =?? 7) && (r.(sr_request_id) =?? lit "r")
         && (r.(sr_idempotency_key) =?? lit "k") then Some [123; 125] else None
  | _ => None
  end.
(** The identifier of a response, the code of an error. *)
Definition example_frame_to_vec (frame : ServiceFrame) : option bytes :=
  match frame with
  | ServiceFrame.Response id _ => Some (utf8 id)
  | ServiceFrame.Error _ code _ => Some (utf8 code)
  | _ => None
  end.
Definition example_handle : nat -> bytes -> nat * list bytes * ending :=
  handle_connection (fun (n : nat) _ => (S n, Ok ServiceResult.Applied)) example_request_from_slice example_frame_to_vec
    (fun _ => Some []) id (fun _ => true).

Lemma example_requests_read r b : example_request_to_vec r = Some b -> example_request_from_slice b = Some r.
Proof.
  destruct r as [v i k c]. unfold example_request_to_vec. simpl. destruct c; try discriminate.
  destruct task_id as [|p|p]; try discriminate. do 3 (destruct p; try discriminate).
  case_bool_decide; [|discriminate]. case_bool_decide; [|discriminate].
  case_bool_decide; [|discriminate]. simpl. intros [= <-]. subst. reflexivity.
Qed.

(** The same request twice: the first is answered, the second refused for its
    identifier; alone, the request is answered. *)
Lemma connection_answers_in_order_witness :
  (let '(n, lines, e) := example_handle 0%nat [123; 125; 10; 123; 125; 10] in
   (n, lines, e) = (1%nat, [utf8 (lit "r") ++ [10]; utf8 (lit "duplicate_request_id") ++ [10]], Closed)
   /\ served (fun (n : nat) _ => (S n, Ok ServiceResult.Applied)) example_frame_to_vec (fun _ => Some []) id
        0%nat RequestLedger_default [example_request; example_request] n lines e)
  /\ (let '(n, lines, e) := example_handle 0%nat [123; 125; 10] in e = Closed).
Proof.
  assert (sendable example_request_to_vec (fun _ => true) example_request [123; 125]) as Hs.
  { split_and!; try reflexivity; [set_solver|discriminate|]. unfold MAX_SERVICE_FRAME_BYTES. simpl. lia. }
  split.
  - pose proof (connection_answers_in_order (fun (n : nat) _ => (S n, Ok ServiceResult.Applied)) example_request_to_vec
      example_request_from_slice example_frame_to_vec (fun _ => Some []) id (fun _ => true) 0%nat
      [example_request; example_request] [[123; 125]; [123; 125]] example_requests_read
      ltac:(repeat (constructor; [exact Hs|]); constructor)) as H.
    split; [vm_compute; reflexivity|apply H].
  - pose proof (connection_answers_in_order (fun (n : nat) _ => (S n, Ok ServiceResult.Applied)) example_request_to_vec
      example_request_from_slice example_frame_to_vec (fun _ => Some []) id (fun _ => true) 0%nat
      [example_request] [[123; 125]] example_requests_read ltac:(constructor; [exact Hs|constructor])) as H.
    apply H. split_and!; [reflexivity|repeat constructor|repeat constructor].
Defined.
