(* ===== verification/Database.v ===== *)
(** * The database of the store

    [src/storage/repository.rs] keeps everything in SQLite.  This file holds the
    tables of the task journal and its projections as the migrations
    [migrations/0001_init.sql], [0002], [0004] and [0007] to [0013] leave them, with their
    constraints, and transactions over them.  A column that stores text stores
    text here; the values are written and read through the code's own
    conversions.

    What is not in the repository is a parameter: the text of identifiers
    ([uuid]), of timestamps ([chrono]) and of JSON ([serde_json]), and SQLite's
    own functions on JSON.  Their documented behaviour is stated in the classes
    of laws that the theorems assume.

    A statement that violates a constraint fails with [storage_error]; the text
    SQLite gives is left empty.  A transaction that fails is dropped, and the
    database is what it was. *)
From stdpp Require Import base gmap sets list sorting strings.
From S2P Require Import Prelude Ord Text Settings Policy TaskTypes Events.
From Stdlib Require Import ZArith Lia.
#[local] Open Scope list_scope.
#[local] Open Scope Z_scope.

(** ** Parameters *)

(** [Display] and [FromStr] of [uuid::Uuid]. *)
Class Uuids := { uuid_to_string : Z -> str; uuid_parse : str -> option Z }.

(** [to_rfc3339_opts(SecondsFormat::Nanos, true)] and [parse_from_rfc3339] of [chrono]. *)
Class Chrono := { to_rfc3339 : Z -> str; parse_from_rfc3339 : str -> option Z }.

(** [serde_json] on what the store writes and reads. *)
Class Serde := {
  Json : Type;
  event_to_string : VersionedEventRef -> option str;
  value_from_str : str -> option Json;
  value_schema_version : Json -> option Z;
  read_version : Json -> result str Z;
  read_v1 : Json -> result str EventPayloadV1;
  read_v2 : Json -> result str EventPayloadV2;
  read_v3 : Json -> result str EventPayloadV3;
  read_v4 : Json -> result str EventPayloadV4;
  snapshot_to_string : TaskSnapshot -> option str;
  snapshot_from_str : str -> option TaskSnapshot;
  contract_to_string : CompletionContract -> option str;
  contract_from_str : str -> option CompletionContract;
  budget_to_string : TaskBudget -> option str;
  budget_from_str : str -> option TaskBudget;
  sequences_to_string : list Z -> option str
}.

(** SQLite's [json_extract(x, '$.task_id')] where [json_extract(x, '$.type')] is
    ['task_lifecycle'], and [json_valid] with [json_type]. *)
Class SqliteJson := {
  json_task_id : str -> option str;
  json_is_object : str -> bool;
  json_is_array : str -> bool
}.

Class UuidLaws `{Uuids} : Prop := {
  uuid_read : forall u, uuid_parse (uuid_to_string u) = Some u
}.

Class ChronoLaws `{Chrono} : Prop := {
  timestamp_read : forall t, parse_from_rfc3339 (to_rfc3339 t) = Some t
}.

Class SerdeLaws `{Serde} : Prop := {
  event_read w s : event_to_string w = Some s ->
    exists v, value_from_str s = Some v /\ value_schema_version v = Some w.(ve_schema_version)
      /\ read_version v = Ok w.(ve_schema_version)
      /\ (w.(ve_schema_version) = EVENT_SCHEMA_VERSION -> read_v4 v = Ok (v4_of_ref w.(ve_payload)));
  snapshot_read st s : snapshot_to_string st = Some s -> snapshot_from_str s = Some st;
  contract_read c s : contract_to_string c = Some s -> contract_from_str s = Some c;
  budget_read b s : budget_to_string b = Some s -> budget_from_str s = Some b
}.

(** SQLite finds the task of a serialized task event, and none in another event. *)
Class SqliteJsonLaws `{Serde, Uuids, SqliteJson} : Prop := {
  json_task_read w s : event_to_string w = Some s ->
    json_task_id s = match w.(ve_payload) with
                     | EventRef.TaskLifecycle t _ => Some (uuid_to_string t)
                     | _ => None
                     end
}.

(** ** Errors *)

Definition storage_invariant (detail : str) : CarlError := CarlError.Storage detail.
Definition policy_error (detail : str) : CarlError := CarlError.Policy detail.
Definition storage_error : CarlError := CarlError.Storage [].

(** ** Integers

    SQLite's integers are [i64]. *)

Definition i64_max : Z := 2 ^ 63 - 1.

Definition revision_to_sql (value : Z) : result CarlError Z :=
  if value <=? i64_max then Ok value
  else Err (storage_invariant (lit "subscription run sequence is too large")).

(** The error names the column; the name is left out. *)
Definition stored_u64 (value : Z) : result CarlError Z :=
  if 0 <=? value then Ok value else Err (storage_invariant []).

(** ** Text columns *)

Section Text.
Context `{Uuids, Chrono}.

Definition format_timestamp (timestamp : Z) : str := to_rfc3339 timestamp.

Definition parse_timestamp (value : str) : result CarlError Z :=
  ok_or (parse_from_rfc3339 value) storage_error.

(** The error names the identifier; the text is left out. *)
Definition parse_id (value : str) : result CarlError Z := ok_or (uuid_parse value) storage_error.

(** [value.as_deref().map(..).transpose()]. *)
Definition transpose {A B} (f : A -> result CarlError B) (o : option A) : result CarlError (option B) :=
  match o with Some a => b ← f a; Ok (Some b) | None => Ok None end.

End Text.

(** The quoted value that ends the message is left out. *)
Definition invalid_stored_value (kind : str) : CarlError :=
  CarlError.Storage (lit "invalid stored " ++ kind).

Definition stored_permission_mode (mode : PermissionMode) : str :=
  match mode with
  | PermissionMode.FullAccess => as_wire_str PermissionMode.BypassPermissions
  | _ => as_wire_str mode
  end.

Definition parse_reasoning_effort (value : str) : result CarlError ReasoningEffort :=
  if value =?? lit "low" then Ok ReasoningEffort.Low
  else if value =?? lit "medium" then Ok ReasoningEffort.Medium
  else if value =?? lit "high" then Ok ReasoningEffort.High
  else if value =?? lit "xhigh" then Ok ReasoningEffort.XHigh
  else if value =?? lit "max" then Ok ReasoningEffort.Max
  else if value =?? lit "ultra" then Ok ReasoningEffort.Ultra
  else Err (storage_invariant (lit "stored reasoning effort is invalid")).

Definition task_status_str (status : TaskStatus) : str :=
  match status with
  | TaskStatus.Queued => lit "queued"
  | TaskStatus.Active => lit "active"
  | TaskStatus.Checkpointing => lit "checkpointing"
  | TaskStatus.Paused => lit "paused"
  | TaskStatus.Blocked => lit "blocked"
  | TaskStatus.Cancelling => lit "cancelling"
  | TaskStatus.Cancelled => lit "cancelled"
  | TaskStatus.Completing => lit "completing"
  | TaskStatus.Completed => lit "completed"
  | TaskStatus.Failed => lit "failed"
  end.

Definition parse_task_status (value : str) : result CarlError TaskStatus :=
  if value =?? lit "queued" then Ok TaskStatus.Queued
  else if value =?? lit "active" then Ok TaskStatus.Active
  else if value =?? lit "checkpointing" then Ok TaskStatus.Checkpointing
  else if value =?? lit "paused" then Ok TaskStatus.Paused
  else if value =?? lit "blocked" then Ok TaskStatus.Blocked
  else if value =?? lit "cancelling" then Ok TaskStatus.Cancelling
  else if value =?? lit "cancelled" then Ok TaskStatus.Cancelled
  else if value =?? lit "completing" then Ok TaskStatus.Completing
  else if value =?? lit "completed" then Ok TaskStatus.Completed
  else if value =?? lit "failed" then Ok TaskStatus.Failed
  else Err (invalid_stored_value (lit "task status")).

Definition epoch_interrupt_reason_str (reason : EpochInterruptReason) : str :=
  match reason with EpochInterruptReason.PermissionTightening => lit "permission_tightening" end.

Definition task_control_kind_str (kind : TaskControlKind) : str :=
  match kind with
  | TaskControlKind.Resume => lit "resume"
  | TaskControlKind.Cancel => lit "cancel"
  end.

Definition parse_task_control_kind (value : str) : result CarlError TaskControlKind :=
  if value =?? lit "resume" then Ok TaskControlKind.Resume
  else if value =?? lit "cancel" then Ok TaskControlKind.Cancel
  else Err (invalid_stored_value (lit "task control marker kind")).

Definition operation_status_str (status : OperationStatus) : str :=
  match status with
  | OperationStatus.IntentRecorded => lit "intent_recorded"
  | OperationStatus.Started => lit "started"
  | OperationStatus.Succeeded => lit "succeeded"
  | OperationStatus.Failed => lit "failed"
  | OperationStatus.Cancelled => lit "cancelled"
  | OperationStatus.Uncertain => lit "uncertain"
  | OperationStatus.Reconciled => lit "reconciled"
  end.

Definition effect_class_str (effect_class : EffectClass) : str :=
  match effect_class with
  | EffectClass.Observation => lit "observation"
  | EffectClass.IdempotentMutation => lit "idempotent_mutation"
  | EffectClass.AmbiguousConsequential => lit "ambiguous_consequential"
  end.

Definition permission_strength (mode : PermissionMode) : Z :=
  match profile mode with
  | PermissionProfile.ReadOnly => 0
  | PermissionProfile.Approval => 1
  | PermissionProfile.FullAccess => 2
  end.

(** ** Tables *)

(** What SQLite's [length] and [GLOB] see of a text: the part before a NUL. *)
Fixpoint before_nul (s : str) : str :=
  match s with
  | [] => []
  | c :: s => if c =? 0 then [] else c :: before_nul s
  end.
Definition sql_length (s : str) : Z := Zlen (before_nul s).
Definition within (lo hi x : Z) : bool := (lo <=? x) && (x <=? hi).
Definition without_nul (s : str) : bool := negb (0 ∈? s).
(** [x NOT GLOB '*[^A-Za-z0-9_.:-]*']. *)
Definition model_glob (s : str) : bool := forallb is_name_byte (before_nul s).
Definition holds {A} (o : option A) (p : A -> bool) : bool :=
  match o with Some a => p a | None => true end.

Record SessionRow := { sn_created_at : str; sn_updated_at : str; next_sequence : Z }.

Record EventRow := {
  er_id : str;
  er_session_id : str;
  er_turn_id : option str;
  er_sequence : Z;
  er_timestamp : str;
  er_schema_version : Z;
  event_json : str
}.

Record AgentTaskRow := {
  at_session_id : str;
  at_status : str;
  contract_json : str;
  budget_json : str;
  snapshot_json : str;
  canonical_workspace : str;
  at_model : str;
  at_effort : str;
  at_permission_mode : str;
  at_revision : Z;
  current_epoch_id : option str;
  latest_checkpoint_id : option str;
  at_provider_context : option str;
  at_created_at : str;
  at_updated_at : str
}.

Record EpochRow := {
  ep_task_id : str;
  ep_objective : str;
  ep_status : str;
  started_sequence : Z;
  finished_sequence : option Z;
  ep_report_digest : option str;
  ep_created_at : str;
  ep_updated_at : str
}.

Record InterruptionRow := { in_reason : str; in_event_sequence : Z; interrupted_at : str }.

Record ConfigurationRow := {
  active_model : str;
  active_effort : str;
  active_permission_mode : str;
  effective_permission_mode : str;
  pending_control_id : option str;
  pending_model : option str;
  pending_effort : option str;
  pending_permission_mode : option str;
  queued_sequence : option Z;
  applied_sequence : option Z
}.

Record MarkerRow := { mk_kind : str; mk_event_sequence : Z; mk_created_at : str }.

Record OperationRow := {
  or_task_id : str;
  or_epoch_id : str;
  or_item_id : str;
  or_effect_class : str;
  or_request_digest : str;
  or_status : str;
  intent_sequence : Z;
  or_last_transition_sequence : Z;
  evidence_sequences_json : str;
  or_created_at : str;
  or_updated_at : str
}.

Record CheckpointRow := {
  cr_task_id : str;
  cr_digest : str;
  cr_event_sequence : Z;
  checkpoint_json : option str;
  cr_created_at : str
}.

Record PackageRow := {
  pr_task_id : str;
  pr_checkpoint_id : str;
  pr_generation : Z;
  pr_event_sequence : Z;
  package_json : option str;
  pr_created_at : str
}.

Record SteeringRow := {
  sg_text_digest : str;
  sg_event_sequence : Z;
  sg_created_at : str;
  sg_control_id : option str
}.

Record TaskReceiptRow := { tr_command_digest : str; tr_task_id : str; tr_created_at : str }.

Record ArtifactObjectRow := { ao_byte_length : Z; ao_created_at : str }.

Record FrontendSessionRow := {
  fr_frontend : str;
  fr_session_id : str;
  fr_client_name : str;
  fr_protocol_version : Z;
  fr_cwd : str;
  fr_channel_id : option str;
  fr_provider_thread_id : option str;
  fr_permission_mode : str;
  fr_permission_profile : str;
  fr_created_at : str;
  fr_updated_at : str
}.

Record TrustedOwnerRow := {
  ow_actor_id : str;
  ow_channel_id : option str;
  ow_permission_mode : str;
  ow_created_at : str;
  ow_updated_at : str
}.

Record TrustedEventRow := {
  te_frontend : str;
  te_workspace_digest : str;
  te_actor_id : str;
  te_channel_id : str;
  te_admitted_at : str
}.

Record ControlReceiptRow := {
  xr_task_id : str;
  xr_method : str;
  xr_request_digest : str;
  xr_state : str;
  starting_revision : Z;
  applied_revision : option Z;
  xr_result_json : option str;
  xr_created_at : str;
  xr_completed_at : option str;
  xr_failure_code : option Z
}.

Record ApprovalRow := {
  av_session_id : str;
  av_tool_call_id : str;
  av_summary : str;
  av_status : str;
  av_created_at : str;
  av_resolved_at : option str
}.

Record BoundApprovalRow := {
  bv_session_id : str;
  bv_turn_id : str;
  bv_tool_call_id : str;
  bv_actor_id : str;
  bv_request_digest : str;
  bv_summary : str;
  bv_status : str;
  bv_created_at : str;
  bv_expires_at : str;
  bv_resolved_at : option str;
  bv_consumed_at : option str
}.

Record RemoteCodeRow := {
  rc_kind : str;
  rc_external_session_id : str;
  rc_approval_id : option str;
  rc_provider_request_id : option str;
  rc_request_digest : str;
  rc_actor_id : str;
  rc_created_at : str;
  rc_expires_at : str;
  rc_consumed_at : option str
}.

Record DeliveryRow := {
  dv_external_session_id : str;
  dv_kind : str;
  dv_status : str;
  dv_created_at : str;
  dv_updated_at : str
}.

(** The tables of the frontends: who may speak to the agent, and what was approved. *)
Record Front := {
  frontend_sessions : gmap str FrontendSessionRow;
  trusted_frontend_owners : gmap (str * str) TrustedOwnerRow;
  trusted_frontend_events : gmap str TrustedEventRow;
  task_control_receipts : gmap (str * str) ControlReceiptRow;
  approvals : gmap str ApprovalRow;
  bound_approvals : gmap str BoundApprovalRow;
  remote_codes : gmap str RemoteCodeRow;
  frontend_deliveries : gmap str DeliveryRow
}.

(** The tables by primary key; the journal in the order of insertion. *)
Record Database := {
  sessions : gmap str SessionRow;
  events : list EventRow;
  agent_tasks : gmap str AgentTaskRow;
  task_epochs : gmap str EpochRow;
  task_epoch_interruptions : gmap (str * str) InterruptionRow;
  task_configuration_state : gmap str ConfigurationRow;
  service_configuration_controls : gmap (str * str) Z;
  task_control_markers : gmap (str * str) MarkerRow;
  task_operations : gmap str OperationRow;
  task_checkpoints : gmap str CheckpointRow;
  task_context_packages : gmap str PackageRow;
  task_steering : gmap (str * Z) SteeringRow;
  service_task_receipts : gmap str TaskReceiptRow;
  artifact_objects : gmap str ArtifactObjectRow;
  front : Front
}.

Definition empty_front : Front := Build_Front ∅ ∅ ∅ ∅ ∅ ∅ ∅ ∅.

Definition empty_database : Database := Build_Database ∅ [] ∅ ∅ ∅ ∅ ∅ ∅ ∅ ∅ ∅ ∅ ∅ ∅ empty_front.

(** Assignments to a table. *)
Definition set_sessions t (db : Database) : Database :=
  Build_Database t db.(events) db.(agent_tasks) db.(task_epochs) db.(task_epoch_interruptions)
    db.(task_configuration_state) db.(service_configuration_controls) db.(task_control_markers)
    db.(task_operations) db.(task_checkpoints) db.(task_context_packages) db.(task_steering)
    db.(service_task_receipts) db.(artifact_objects) db.(front).
Definition set_events t (db : Database) : Database :=
  Build_Database db.(sessions) t db.(agent_tasks) db.(task_epochs) db.(task_epoch_interruptions)
    db.(task_configuration_state) db.(service_configuration_controls) db.(task_control_markers)
    db.(task_operations) db.(task_checkpoints) db.(task_context_packages) db.(task_steering)
    db.(service_task_receipts) db.(artifact_objects) db.(front).
Definition set_agent_tasks t (db : Database) : Database :=
  Build_Database db.(sessions) db.(events) t db.(task_epochs) db.(task_epoch_interruptions)
    db.(task_configuration_state) db.(service_configuration_controls) db.(task_control_markers)
    db.(task_operations) db.(task_checkpoints) db.(task_context_packages) db.(task_steering)
    db.(service_task_receipts) db.(artifact_objects) db.(front).
Definition set_task_epochs t (db : Database) : Database :=
  Build_Database db.(sessions) db.(events) db.(agent_tasks) t db.(task_epoch_interruptions)
    db.(task_configuration_state) db.(service_configuration_controls) db.(task_control_markers)
    db.(task_operations) db.(task_checkpoints) db.(task_context_packages) db.(task_steering)
    db.(service_task_receipts) db.(artifact_objects) db.(front).
Definition set_interruptions t (db : Database) : Database :=
  Build_Database db.(sessions) db.(events) db.(agent_tasks) db.(task_epochs) t
    db.(task_configuration_state) db.(service_configuration_controls) db.(task_control_markers)
    db.(task_operations) db.(task_checkpoints) db.(task_context_packages) db.(task_steering)
    db.(service_task_receipts) db.(artifact_objects) db.(front).
Definition set_configuration t (db : Database) : Database :=
  Build_Database db.(sessions) db.(events) db.(agent_tasks) db.(task_epochs)
    db.(task_epoch_interruptions) t db.(service_configuration_controls) db.(task_control_markers)
    db.(task_operations) db.(task_checkpoints) db.(task_context_packages) db.(task_steering)
    db.(service_task_receipts) db.(artifact_objects) db.(front).
Definition set_configuration_controls t (db : Database) : Database :=
  Build_Database db.(sessions) db.(events) db.(agent_tasks) db.(task_epochs)
    db.(task_epoch_interruptions) db.(task_configuration_state) t db.(task_control_markers)
    db.(task_operations) db.(task_checkpoints) db.(task_context_packages) db.(task_steering)
    db.(service_task_receipts) db.(artifact_objects) db.(front).
Definition set_markers t (db : Database) : Database :=
  Build_Database db.(sessions) db.(events) db.(agent_tasks) db.(task_epochs)
    db.(task_epoch_interruptions) db.(task_configuration_state) db.(service_configuration_controls)
    t db.(task_operations) db.(task_checkpoints) db.(task_context_packages) db.(task_steering)
    db.(service_task_receipts) db.(artifact_objects) db.(front).
Definition set_task_operations t (db : Database) : Database :=
  Build_Database db.(sessions) db.(events) db.(agent_tasks) db.(task_epochs)
    db.(task_epoch_interruptions) db.(task_configuration_state) db.(service_configuration_controls)
    db.(task_control_markers) t db.(task_checkpoints) db.(task_context_packages) db.(task_steering)
    db.(service_task_receipts) db.(artifact_objects) db.(front).
Definition set_checkpoints t (db : Database) : Database :=
  Build_Database db.(sessions) db.(events) db.(agent_tasks) db.(task_epochs)
    db.(task_epoch_interruptions) db.(task_configuration_state) db.(service_configuration_controls)
    db.(task_control_markers) db.(task_operations) t db.(task_context_packages) db.(task_steering)
    db.(service_task_receipts) db.(artifact_objects) db.(front).
Definition set_packages t (db : Database) : Database :=
  Build_Database db.(sessions) db.(events) db.(agent_tasks) db.(task_epochs)
    db.(task_epoch_interruptions) db.(task_configuration_state) db.(service_configuration_controls)
    db.(task_control_markers) db.(task_operations) db.(task_checkpoints) t db.(task_steering)
    db.(service_task_receipts) db.(artifact_objects) db.(front).
Definition set_steering t (db : Database) : Database :=
  Build_Database db.(sessions) db.(events) db.(agent_tasks) db.(task_epochs)
    db.(task_epoch_interruptions) db.(task_configuration_state) db.(service_configuration_controls)
    db.(task_control_markers) db.(task_operations) db.(task_checkpoints) db.(task_context_packages)
    t db.(service_task_receipts) db.(artifact_objects) db.(front).
Definition set_task_receipts t (db : Database) : Database :=
  Build_Database db.(sessions) db.(events) db.(agent_tasks) db.(task_epochs)
    db.(task_epoch_interruptions) db.(task_configuration_state) db.(service_configuration_controls)
    db.(task_control_markers) db.(task_operations) db.(task_checkpoints) db.(task_context_packages)
    db.(task_steering) t db.(artifact_objects) db.(front).
Definition set_artifact_objects t (db : Database) : Database :=
  Build_Database db.(sessions) db.(events) db.(agent_tasks) db.(task_epochs)
    db.(task_epoch_interruptions) db.(task_configuration_state) db.(service_configuration_controls)
    db.(task_control_markers) db.(task_operations) db.(task_checkpoints) db.(task_context_packages)
    db.(task_steering) db.(service_task_receipts) t db.(front).
Definition set_front t (db : Database) : Database :=
  Build_Database db.(sessions) db.(events) db.(agent_tasks) db.(task_epochs)
    db.(task_epoch_interruptions) db.(task_configuration_state) db.(service_configuration_controls)
    db.(task_control_markers) db.(task_operations) db.(task_checkpoints) db.(task_context_packages)
    db.(task_steering) db.(service_task_receipts) db.(artifact_objects) t.

(** ** Row constraints: the [CHECK] clauses of the migrations *)

Definition efforts : list str := lit <$> ["low"; "medium"; "high"; "xhigh"; "max"; "ultra"]%string.

Section Checks.
Context `{SqliteJson}.

Definition check_agent_task (id : str) (row : AgentTaskRow) : bool :=
  (sql_length id =? 36)
  && (row.(at_status) ∈? (lit <$> ["queued"; "active"; "checkpointing"; "paused"; "blocked";
        "cancelling"; "cancelled"; "completing"; "completed"; "failed"]%string))
  && within 2 4194304 (len row.(contract_json)) && json_is_object row.(contract_json)
  && within 2 4096 (len row.(budget_json)) && json_is_object row.(budget_json)
  && within 2 8388608 (len row.(snapshot_json)) && json_is_object row.(snapshot_json)
  && within 1 16384 (len row.(canonical_workspace)) && without_nul row.(canonical_workspace)
  && within 1 128 (len row.(at_model)) && model_glob row.(at_model) && without_nul row.(at_model)
  && (row.(at_effort) ∈? efforts)
  && (row.(at_permission_mode) ∈?
        (lit <$> ["plan"; "default"; "acceptEdits"; "dontAsk"; "bypassPermissions"]%string))
  && (1 <=? row.(at_revision))
  && holds row.(at_provider_context) (fun c => within 1 128 (len c))
  && (0 <? sql_length row.(at_created_at)) && (0 <? sql_length row.(at_updated_at)).

Definition check_epoch (id : str) (row : EpochRow) : bool :=
  (sql_length id =? 36)
  && within 1 16384 (len row.(ep_objective)) && without_nul row.(ep_objective)
  && (0 <? row.(started_sequence))
  && holds row.(finished_sequence) (fun s => row.(started_sequence) <? s)
  && holds row.(ep_report_digest) (fun d => within 1 128 (len d))
  && (0 <? sql_length row.(ep_created_at)) && (0 <? sql_length row.(ep_updated_at))
  && match row.(finished_sequence), row.(ep_report_digest) with
     | None, None => row.(ep_status) =?? lit "active"
     | Some _, Some _ => row.(ep_status) =?? lit "finished"
     | Some _, None => row.(ep_status) =?? lit "interrupted"
     | None, Some _ => false
     end.

Definition wire_modes : list str :=
  lit <$> ["plan"; "default"; "acceptEdits"; "dontAsk"; "fullAccess"; "bypassPermissions"]%string.

Definition check_configuration (row : ConfigurationRow) : bool :=
  within 1 128 (sql_length row.(active_model)) && model_glob row.(active_model)
  && (row.(active_effort) ∈? efforts)
  && (row.(active_permission_mode) ∈? wire_modes)
  && (row.(effective_permission_mode) ∈? wire_modes)
  && holds row.(pending_control_id) (fun c => sql_length c =? 64)
  && holds row.(pending_model) (fun m => within 1 128 (sql_length m) && model_glob m)
  && holds row.(pending_effort) (fun e => e ∈? efforts)
  && holds row.(pending_permission_mode) (fun p => p ∈? wire_modes)
  && holds row.(queued_sequence) (fun s => 0 <? s)
  && holds row.(applied_sequence) (fun s => 0 <? s)
  && match row.(pending_control_id), row.(pending_model), row.(pending_effort),
           row.(pending_permission_mode), row.(queued_sequence) with
     | None, None, None, None, None | Some _, Some _, Some _, Some _, Some _ => true
     | _, _, _, _, _ => false
     end.

Definition check_marker (control_id : str) (row : MarkerRow) : bool :=
  (sql_length control_id =? 64) && (row.(mk_kind) ∈? [lit "resume"; lit "cancel"])
  && (0 <? row.(mk_event_sequence)).

Definition check_operation (id : str) (row : OperationRow) : bool :=
  (sql_length id =? 36)
  && within 1 128 (len row.(or_item_id))
  && (row.(or_effect_class) ∈?
        (lit <$> ["observation"; "idempotent_mutation"; "ambiguous_consequential"]%string))
  && within 1 128 (len row.(or_request_digest))
  && (row.(or_status) ∈? (lit <$> ["intent_recorded"; "started"; "succeeded"; "failed";
        "cancelled"; "uncertain"; "reconciled"]%string))
  && (0 <? row.(intent_sequence))
  && (row.(intent_sequence) <=? row.(or_last_transition_sequence))
  && within 2 8192 (len row.(evidence_sequences_json))
  && json_is_array row.(evidence_sequences_json)
  && (0 <? sql_length row.(or_created_at)) && (0 <? sql_length row.(or_updated_at)).

Definition check_payload (o : option str) : bool :=
  holds o (fun json => within 2 8388608 (len json) && json_is_object json).

Definition check_checkpoint (id : str) (row : CheckpointRow) : bool :=
  (sql_length id =? 36) && within 1 128 (len row.(cr_digest)) && (0 <? row.(cr_event_sequence))
  && check_payload row.(checkpoint_json) && (0 <? sql_length row.(cr_created_at)).

Definition check_package (id : str) (row : PackageRow) : bool :=
  (sql_length id =? 36) && (0 <=? row.(pr_generation)) && (0 <? row.(pr_event_sequence))
  && check_payload row.(package_json) && (0 <? sql_length row.(pr_created_at)).

Definition check_steering (steering_sequence : Z) (row : SteeringRow) : bool :=
  (0 <=? steering_sequence) && within 1 128 (len row.(sg_text_digest))
  && (0 <? row.(sg_event_sequence)) && (0 <? sql_length row.(sg_created_at))
  && holds row.(sg_control_id) (fun c => sql_length c =? 64).

Definition check_task_receipt (idempotency_key : str) (row : TaskReceiptRow) : bool :=
  within 1 128 (sql_length idempotency_key) && (sql_length row.(tr_command_digest) =? 64).

Definition check_artifact_object (id : str) (row : ArtifactObjectRow) : bool :=
  (sql_length id =? 64) && forallb is_hex_byte (before_nul id) && without_nul id
  && (0 <=? row.(ao_byte_length)) && (0 <? sql_length row.(ao_created_at)).

End Checks.

(** ** Transactions *)

Definition Tx (A : Type) : Type := Database -> result CarlError (Database * A).
#[export] Instance tx_ret : MRet Tx := fun A a db => Ok (db, a).
#[export] Instance tx_bind : MBind Tx := fun A B k tx db =>
  match tx db with Ok (db, a) => k a db | Err e => Err e end.

Definition from {A} (r : result CarlError A) : Tx A := fun db => a ← r; Ok (db, a).
Definition query {A} (f : Database -> result CarlError A) : Tx A := fun db => a ← f db; Ok (db, a).
Definition modify (f : Database -> Database) : Tx unit := fun db => Ok (f db, tt).

(** A transaction commits at its end; on an error, or when it is dropped, it leaves
    nothing behind. *)
Definition transaction {A} (tx : Tx A) (db : Database) : Database * result CarlError A :=
  match tx db with Ok (db', a) => (db', Ok a) | Err e => (db, Err e) end.

(** [INSERT]: refused when the key exists, when a [UNIQUE] constraint clashes with
    another row, or when a [CHECK] or a foreign key is not [allowed]. *)
Definition insert_row {K V : Type} `{Countable K} (table : Database -> gmap K V)
    (set : gmap K V -> Database -> Database) (allowed : Database -> bool) (clash : K -> V -> bool)
    (k : K) (v : V) : Tx unit := fun db =>
  if is_some (table db !! k) || negb (allowed db)
     || existsb (fun '(k', v') => clash k' v') (map_to_list (table db))
  then Err storage_error
  else Ok (set (<[k := v]> (table db)) db, tt).

(** [UPDATE .. WHERE key = k AND ..]: the number of rows changed. *)
Definition update_row {K V : Type} `{Countable K} (table : Database -> gmap K V)
    (set : gmap K V -> Database -> Database) (allowed : Database -> V -> bool) (where_ : V -> bool)
    (f : V -> V) (k : K) : Tx Z := fun db =>
  match table db !! k with
  | Some v =>
      if where_ v then
        if allowed db (f v) then Ok (set (<[k := f v]> (table db)) db, 1) else Err storage_error
      else Ok (db, 0)
  | None => Ok (db, 0)
  end.

(** ** Lemmas *)

Section TxLemmas.
Context {A B : Type}.
Implicit Types (tx : Tx A) (db : Database).

Lemma tx_bind_ok tx (k : A -> Tx B) db db' b :
  (tx ≫= k) db = Ok (db', b) <-> exists db1 a, tx db = Ok (db1, a) /\ k a db1 = Ok (db', b).
Proof.
  unfold mbind, tx_bind. destruct (tx db) as [[db1 a]|e]; [|split; [done|by intros (?&?&?&?)]].
  split; [eauto|]. intros (? & ? & [= <- <-] & ?). done.
Qed.

Lemma from_ok (r : result CarlError A) db db' a : from r db = Ok (db', a) <-> r = Ok a /\ db' = db.
Proof. unfold from. destruct r; simpl; [|naive_solver]. split; [by intros [= <- <-]|by intros [[= ->] ->]]. Qed.

Lemma query_ok (f : Database -> result CarlError A) db db' a :
  query f db = Ok (db', a) <-> f db = Ok a /\ db' = db.
Proof. unfold query. destruct (f db); simpl; [|naive_solver]. split; [by intros [= <- <-]|by intros [[= ->] ->]]. Qed.

Lemma mret_ok (a a' : A) db db' : (mret a : Tx A) db = Ok (db', a') <-> a' = a /\ db' = db.
Proof. unfold mret, tx_ret. split; [by intros [= <- <-]|by intros [-> ->]]. Qed.

Lemma modify_ok f db db' u : modify f db = Ok (db', u) <-> db' = f db.
Proof. unfold modify. destruct u. split; [by intros [= <-]|by intros ->]. Qed.

End TxLemmas.

Lemma insert_row_ok {K V : Type} `{Countable K} (table : Database -> gmap K V) set allowed clash k v
    db db' u :
  insert_row table set allowed clash k v db = Ok (db', u) <->
  table db !! k = None /\ allowed db = true
  /\ (forall k' v', table db !! k' = Some v' -> clash k' v' = false)
  /\ db' = set (<[k := v]> (table db)) db.
Proof.
  unfold insert_row. destruct (table db !! k) eqn:Hk; simpl; [naive_solver|].
  destruct (allowed db); simpl; [|naive_solver].
  destruct (existsb _ _) eqn:He; [split; [done|]|].
  - intros (_ & _ & Hc & _). apply not_false_iff_true in He. destruct He.
    apply existsb_false, Forall_forall. intros [k' v'] Hin%elem_of_map_to_list. eauto.
  - apply existsb_false in He. rewrite Forall_forall in He. destruct u. split; [|naive_solver].
    intros [= <-]. split_and!; [done..| |done].
    intros k' v' Hl%elem_of_map_to_list. apply (He _ Hl).
Qed.

Lemma update_row_ok {K V : Type} `{Countable K} (table : Database -> gmap K V) set allowed where_ f k
    db db' n :
  update_row table set allowed where_ f k db = Ok (db', n) <->
  (exists v, table db !! k = Some v /\ where_ v = true /\ allowed db (f v) = true /\ n = 1
     /\ db' = set (<[k := f v]> (table db)) db)
  \/ ((forall v, table db !! k = Some v -> where_ v = false) /\ n = 0 /\ db' = db).
Proof.
  unfold update_row. destruct (table db !! k) as [v|].
  2: { split; [intros [= <- <-]; by right|]. by intros [(? & ? & _)|(_ & -> & ->)]. }
  destruct (where_ v) eqn:Hw; [destruct (allowed db (f v)) eqn:Ha|].
  - split; [intros [= <- <-]; left; eauto 10|].
    intros [(? & [= <-] & _ & _ & -> & ->)|(Hn & _)]; [done|]. specialize (Hn v eq_refl). congruence.
  - split; [done|]. intros [(? & [= <-] & _ & ? & _)|(Hn & _)]; [congruence|].
    specialize (Hn v eq_refl). congruence.
  - split; [intros [= <- <-]; right; naive_solver|].
    intros [(? & [= <-] & ? & _)|(_ & -> & ->)]; [congruence|done].
Qed.

#[export] Hint Rewrite @tx_bind_ok @from_ok @query_ok @mret_ok modify_ok @insert_row_ok
  @update_row_ok : carl.

Lemma parse_task_status_str s : parse_task_status (task_status_str s) = Ok s.
Proof. by destruct s. Qed.
Lemma parse_control_kind_str k : parse_task_control_kind (task_control_kind_str k) = Ok k.
Proof. by destruct k. Qed.
Lemma parse_effort_str e : parse_reasoning_effort (as_codex_value e) = Ok e.
Proof. by destruct e. Qed.
Lemma parse_mode_str m : PermissionMode_from_str (as_wire_str m) = Ok m.
Proof. by destruct m. Qed.
Lemma operation_status_str_inj s s' : operation_status_str s = operation_status_str s' -> s = s'.
Proof. by destruct s, s'. Qed.
