(* ===== verification/TaskStore.v ===== *)
(** * Tasks in the store

    [src/storage/repository.rs]: the journal of a session, the tasks it contains
    and their projections.  Every change of a task appends an event to the
    journal, reduces it and writes the result to the tables that are read
    instead of the journal; opening a store replays the journal and refuses a
    database whose tables disagree with it.

    Fresh identifiers and the current time are arguments.  The loops that read
    the journal page by page run on fuel, one step for each event and one more;
    [page_loop_exact] and [visit_pages_exact] show that no store that was written
    through these operations needs more. *)
From stdpp Require Import base gmap sets list sorting strings.
From S2P Require Import Prelude Ord Text Settings Policy TaskTypes Events Reducer Journal Metrics Database.
From Stdlib Require Import ZArith Lia.
#[local] Open Scope list_scope.
#[local] Open Scope Z_scope.

Record SessionRecord := { se_id : SessionId; se_created_at : Z; se_updated_at : Z }.

Record NewTask := {
  nt_session_id : SessionId;
  nt_workspace : PathBuf;
  nt_contract : CompletionContract;
  nt_model : ModelId;
  nt_effort : ReasoningEffort;
  nt_permission_mode : PermissionMode;
  nt_budget : TaskBudget;
  nt_created_at : Z
}.

Record TaskRecord := {
  snapshot : TaskSnapshot;
  tk_revision : Z;
  tk_created_at : Z;
  tk_updated_at : Z
}.

Record TaskConfigurationRecord := {
  tc_active_model : ModelId;
  tc_active_effort : ReasoningEffort;
  tc_active_permission_mode : PermissionMode;
  tc_effective_permission_mode : PermissionMode;
  tc_pending_control_id : option str;
  tc_pending_model : option ModelId;
  tc_pending_effort : option ReasoningEffort;
  tc_pending_permission_mode : option PermissionMode;
  tc_queued_sequence : option Z;
  tc_applied_sequence : option Z
}.
#[export] Instance TaskConfigurationRecord_eq_dec : EqDecision TaskConfigurationRecord.
Proof. solve_decision. Defined.
#[export] Instance TaskControlKind_eq_dec : EqDecision TaskControlKind.
Proof. solve_decision. Defined.

(** The reducer does not panic ([Reducer.reducer_never_panics]). *)
Definition reduce_error_text (e : or_panic TaskReduceErrorCode) : str :=
  match e with Fail code => TaskReduceErrorCode_as_str code | Panic => [] end.
Definition task_reduce_error (e : or_panic TaskReduceErrorCode) : CarlError :=
  CarlError.Validation (lit "task event cannot be applied: " ++ reduce_error_text e).
Definition task_replay_error (e : or_panic TaskReduceErrorCode) : CarlError :=
  CarlError.Storage (lit "task journal replay failed: " ++ reduce_error_text e).
Definition task_metrics_error (e : TaskMetricsErrorCode) : CarlError :=
  CarlError.Storage (match e with
    | TaskMetricsErrorCode.Storage => lit "task metrics storage failed"
    | TaskMetricsErrorCode.InvalidHistory => lit "task metrics history is invalid"
    | TaskMetricsErrorCode.ArithmeticOverflow => lit "task metrics arithmetic overflowed"
    end).

Definition is_subscription_run_event (event : Event) : bool :=
  match event with
  | Event.SubscriptionRunPrepared _ _ _ _ _ | Event.SubscriptionRunConfigurationObserved _ _ _ _
  | Event.SubscriptionRunTransitioned _ _ _ _ => true
  | _ => false
  end.

Definition require_projection_change (changed : Z) (detail : str) : result CarlError unit :=
  if changed =? 1 then Ok tt else Err (storage_invariant detail).

Definition validate_task_control_id (control_id : str) : result CarlError unit :=
  if is_hex64 control_id then Ok tt else Err (policy_error (lit "task control ID is invalid")).

Abbreviation Marker := (str * TaskControlKind * Z)%type.

(** The configuration and the control markers a journal replays to. *)
Abbreviation Children := (option TaskConfigurationRecord * list Marker)%type.

Section TaskStore.
Context `{Uuids, Chrono, Serde, SqliteJson}.

(** ** The journal *)

(** [serde_json::to_string(&event)]. *)
Definition event_text (event : Event) : option str :=
  match Event_serialize event with Ok w => event_to_string w | Err _ => None end.

Definition create_session (id : SessionId) (now : Z) : Tx SessionRecord :=
  let timestamp := format_timestamp now in
  _ ← insert_row sessions set_sessions (fun _ => true) (fun _ _ => false) (uuid_to_string id)
        {| sn_created_at := timestamp; sn_updated_at := timestamp; next_sequence := 1 |};
  mret {| se_id := id; se_created_at := now; se_updated_at := now |}.

(** [INSERT INTO events]: the identifier is the primary key, and a session has one
    event for a sequence number. *)
Definition insert_event (row : EventRow) : Tx unit := fun db =>
  if existsb (fun other => (other.(er_id) =?? row.(er_id))
                || ((other.(er_session_id) =?? row.(er_session_id))
                    && (other.(er_sequence) =? row.(er_sequence)))) db.(events)
     || (row.(er_sequence) <? 1) || (row.(er_schema_version) <? 1)
  then Err storage_error
  else Ok (set_events (db.(events) ++ [row]) db, tt).

(** [UPDATE sessions SET next_sequence = next_sequence + 1 .. RETURNING
    next_sequence - 1]; a sum beyond 64 bits is no integer and cannot be read. *)
Definition take_sequence (session_id : SessionId) (timestamp : Z) : Tx Z := fun db =>
  match db.(sessions) !! uuid_to_string session_id with
  | None => Err (CarlError.Storage (lit "session " ++ uuid_to_string session_id ++ lit " does not exist"))
  | Some row =>
      let next := row.(next_sequence) + 1 in
      if (i64_max <? next) || (next <? 1) then Err storage_error
      else Ok (set_sessions (<[uuid_to_string session_id :=
                 {| sn_created_at := row.(sn_created_at); sn_updated_at := format_timestamp timestamp;
                    next_sequence := next |}]> db.(sessions)) db, row.(next_sequence))
  end.

Definition append_event_in_transaction (session_id : SessionId) (turn_id : option TurnId)
    (event : Event) (timestamp : Z) (event_id : EventId) : Tx EventEnvelope :=
  sequence ← take_sequence session_id timestamp;
  _ ← from (reject (sequence <? 0) (CarlError.Storage (lit "invalid event sequence")));
  let envelope := {| ee_id := event_id; ee_session_id := session_id; ee_turn_id := turn_id;
                     sequence := sequence; timestamp := timestamp; event := event |} in
  event_json ← from (ok_or (event_text event) storage_error);
  stored ← from (revision_to_sql sequence);
  _ ← insert_event {| er_id := uuid_to_string event_id; er_session_id := uuid_to_string session_id;
                      er_turn_id := uuid_to_string <$> turn_id; er_sequence := stored;
                      er_timestamp := format_timestamp timestamp;
                      er_schema_version := EVENT_SCHEMA_VERSION; event_json := event_json |};
  mret envelope.

Definition append (session_id : SessionId) (turn_id : option TurnId) (event : Event) (now : Z)
    (event_id : EventId) : Tx EventEnvelope :=
  _ ← from (reject (is_subscription_run_event event)
        (CarlError.Validation (lit "subscription run events require the transactional run API")));
  _ ← from (reject (match event with Event.TaskLifecycle _ _ => true | _ => false end)
        (CarlError.Validation (lit "task lifecycle events require the transactional task API")));
  append_event_in_transaction session_id turn_id event now event_id.

(** [RawEvent::into_envelope]. *)
Definition into_envelope (self : EventRow) (session_id : SessionId) : result CarlError EventEnvelope :=
  _ ← reject ((self.(er_schema_version) <? 1) || (EVENT_SCHEMA_VERSION <? self.(er_schema_version)))
        (CarlError.Storage (lit "unsupported event schema version"));
  _ ← reject (self.(er_sequence) <? 0) (CarlError.Storage (lit "invalid event sequence"));
  value ← ok_or (value_from_str self.(event_json)) storage_error;
  embedded_version ← ok_or (value_schema_version value)
    (storage_invariant (lit "stored event schema version is missing"));
  _ ← reject (negb (embedded_version =? self.(er_schema_version)))
        (storage_invariant (lit "stored event schema versions do not match"));
  event ← map_err (fun _ => storage_error)
            (Event_deserialize read_version read_v1 read_v2 read_v3 read_v4 value);
  id ← parse_id self.(er_id);
  turn_id ← transpose parse_id self.(er_turn_id);
  timestamp ← parse_timestamp self.(er_timestamp);
  Ok {| ee_id := id; ee_session_id := session_id; ee_turn_id := turn_id;
        sequence := self.(er_sequence); timestamp := timestamp; event := event |}.

Definition read_events (session_id : SessionId) (db : Database) : result CarlError (list EventEnvelope) :=
  mapM (fun row => into_envelope row session_id)
    (sort_by_key er_sequence
       (filter (fun row => row.(er_session_id) = uuid_to_string session_id) db.(events))).

(** The cursor of a page as SQLite's integer. *)
Definition page_cursor (after_sequence : option Z) : result CarlError Z :=
  match after_sequence with
  | Some sequence =>
      if sequence <=? i64_max then Ok sequence
      else Err (CarlError.Validation (lit "task event page cursor is too large"))
  | None => Ok 0
  end.

Definition check_page_limit (limit : Z) : result CarlError unit :=
  reject (negb (within 1 512 limit))
    (CarlError.Validation (lit "task event page limit must be between 1 and 512")).

Definition read_task_event_page_for_known_session_from_connection (db : Database)
    (session_id : SessionId) (task_id : TaskId) (after_sequence : option Z) (limit : Z) :
    result CarlError (list EventEnvelope) :=
  _ ← check_page_limit limit;
  after ← page_cursor after_sequence;
  mapM (fun row => into_envelope row session_id)
    (take (Z.to_nat limit)
       (sort_by_key er_sequence
          (filter (fun row => row.(er_session_id) = uuid_to_string session_id
                              /\ after < row.(er_sequence)
                              /\ json_task_id row.(event_json) = Some (uuid_to_string task_id))
             db.(events)))).

Definition read_task_event_page_from_connection (db : Database) (task_id : TaskId)
    (after_sequence : option Z) (limit : Z) : result CarlError (list EventEnvelope) :=
  _ ← check_page_limit limit;
  after ← page_cursor after_sequence;
  match take 2 (btree_set (er_session_id <$>
          filter (fun row => json_task_id row.(event_json) = Some (uuid_to_string task_id))
            db.(events))) with
  | [] => Ok []
  | [session_id] =>
      session_id ← ok_or (uuid_parse session_id)
        (storage_invariant (lit "task journal contains an invalid session identifier"));
      cursor ← stored_u64 after;
      read_task_event_page_for_known_session_from_connection db session_id task_id (Some cursor) limit
  | _ => Err (storage_invariant (lit "task journal identifier appears in multiple sessions"))
  end.

(** [loop { let page = read(after)?; if page.is_empty() { break; } ..  for envelope in
    page { step } }]; [None] when the fuel runs out. *)
Fixpoint page_loop {S : Type} (fuel : nat)
    (read : option Z -> result CarlError (list EventEnvelope))
    (step : S -> EventEnvelope -> result CarlError S) (after_sequence : option Z) (s : S) :
    option (result CarlError S) :=
  match fuel with
  | O => None
  | Datatypes.S fuel =>
      match read after_sequence with
      | Err e => Some (Err e)
      | Ok [] => Some (Ok s)
      | Ok page =>
          match try_fold step s page with
          | Err e => Some (Err e)
          | Ok s => page_loop fuel read step (sequence <$> last page) s
          end
      end
  end.

(** The pages of a task, 512 events at a time. *)
Definition for_each_event {S : Type} (db : Database) (task_id : TaskId)
    (step : S -> EventEnvelope -> result CarlError S) (after_sequence : option Z) (s : S) :
    result CarlError S :=
  default (Err storage_error)
    (page_loop (Datatypes.S (length db.(events)))
       (fun after => read_task_event_page_from_connection db task_id after 512) step after_sequence s).

Definition read_task_events_after (db : Database) (task_id : TaskId) (exclusive_sequence : Z) :
    result CarlError (list EventEnvelope) :=
  for_each_event db task_id (fun events envelope => Ok (events ++ [envelope]))
    (Some exclusive_sequence) [].

Definition read_task_events (db : Database) (task_id : TaskId) :
    result CarlError (list EventEnvelope) :=
  read_task_events_after db task_id 0.

(** ** Projections *)

Definition insert_task_projection (snapshot : TaskSnapshot) (workspace : PathBuf) (model : ModelId)
    (effort : ReasoningEffort) (permission_mode : PermissionMode) (created_at : Z) : Tx unit :=
  workspace ← from (ok_or (from_utf8 workspace)
    (CarlError.Validation (lit "task workspace is not UTF-8")));
  contract_json ← from (ok_or (contract_to_string snapshot.(contract)) storage_error);
  budget_json ← from (ok_or (budget_to_string snapshot.(budget)) storage_error);
  snapshot_json ← from (ok_or (snapshot_to_string snapshot) storage_error);
  revision ← from (revision_to_sql snapshot.(revision));
  let id := uuid_to_string snapshot.(task_id) in
  let row :=
    {| at_session_id := uuid_to_string snapshot.(session_id);
       at_status := task_status_str snapshot.(status);
       contract_json := contract_json; budget_json := budget_json; snapshot_json := snapshot_json;
       canonical_workspace := workspace; at_model := model; at_effort := as_codex_value effort;
       at_permission_mode := stored_permission_mode permission_mode; at_revision := revision;
       current_epoch_id := None; latest_checkpoint_id := None; at_provider_context := None;
       at_created_at := format_timestamp created_at; at_updated_at := format_timestamp created_at |} in
  _ ← insert_row agent_tasks set_agent_tasks
        (fun db => check_agent_task id row && is_some (db.(sessions) !! row.(at_session_id)))
        (fun _ _ => false) id row;
  let configuration :=
    {| active_model := model; active_effort := as_codex_value effort;
       active_permission_mode := as_wire_str permission_mode;
       effective_permission_mode := as_wire_str permission_mode;
       pending_control_id := None; pending_model := None; pending_effort := None;
       pending_permission_mode := None; queued_sequence := None; applied_sequence := None |} in
  insert_row task_configuration_state set_configuration
    (fun db => check_configuration configuration && is_some (db.(agent_tasks) !! id))
    (fun _ _ => false) id configuration.

(** [UPDATE agent_tasks SET .. WHERE id = ?1 AND revision = ?11]. *)
Definition update_task_projection (snapshot : TaskSnapshot) (updated_at : Z) : Tx unit :=
  contract_text ← from (ok_or (contract_to_string snapshot.(contract)) storage_error);
  budget_text ← from (ok_or (budget_to_string snapshot.(budget)) storage_error);
  snapshot_text ← from (ok_or (snapshot_to_string snapshot) storage_error);
  new_revision ← from (revision_to_sql snapshot.(revision));
  old_revision ← from (revision_to_sql (Z.max 0 (snapshot.(revision) - 1)));
  let id := uuid_to_string snapshot.(task_id) in
  changed ← update_row agent_tasks set_agent_tasks
    (fun db row => check_agent_task id row
       && holds row.(current_epoch_id) (fun epoch => is_some (db.(task_epochs) !! epoch))
       && holds row.(latest_checkpoint_id)
            (fun checkpoint => is_some (db.(task_checkpoints) !! checkpoint)))
    (fun row => row.(at_revision) =? old_revision)
    (fun row =>
       {| at_session_id := row.(at_session_id); at_status := task_status_str snapshot.(status);
          contract_json := contract_text; budget_json := budget_text;
          snapshot_json := snapshot_text; canonical_workspace := row.(canonical_workspace);
          at_model := row.(at_model); at_effort := row.(at_effort);
          at_permission_mode := row.(at_permission_mode); at_revision := new_revision;
          current_epoch_id := uuid_to_string <$> snapshot.(active_epoch);
          latest_checkpoint_id := uuid_to_string <$> snapshot.(latest_checkpoint);
          at_provider_context := snapshot.(provider_context);
          at_created_at := row.(at_created_at); at_updated_at := format_timestamp updated_at |}) id;
  from (reject (negb (changed =? 1))
    (storage_invariant (lit "task projection revision changed during transactional append"))).

(** The arms of [apply_task_child_projection]: [task] is the text of the task's
    identifier, [seq] the stored sequence number of the event and [now] its
    timestamp. *)
Section Arms.
Variables (task : str) (seq : Z) (now : str).

Definition project_epoch_started (epoch_id : EpochId) (objective : str) : Tx unit :=
  let id := uuid_to_string epoch_id in
  let row := {| ep_task_id := task; ep_objective := objective; ep_status := lit "active";
                started_sequence := seq; finished_sequence := None; ep_report_digest := None;
                ep_created_at := now; ep_updated_at := now |} in
  insert_row task_epochs set_task_epochs
    (fun db => check_epoch id row && is_some (db.(agent_tasks) !! task))
    (fun _ other => (other.(ep_task_id) =?? task) && (other.(started_sequence) =? seq)) id row.

(** [UPDATE task_epochs .. WHERE id = ?1 AND task_id = ?2 AND status = 'active']. *)
Definition end_epoch (status : str) (digest : option str) (epoch_id : EpochId) : Tx Z :=
  let id := uuid_to_string epoch_id in
  update_row task_epochs set_task_epochs (fun _ row => check_epoch id row)
    (fun row => (row.(ep_task_id) =?? task) && (row.(ep_status) =?? lit "active"))
    (fun row => {| ep_task_id := row.(ep_task_id); ep_objective := row.(ep_objective);
                   ep_status := status; started_sequence := row.(started_sequence);
                   finished_sequence := Some seq; ep_report_digest := digest;
                   ep_created_at := row.(ep_created_at); ep_updated_at := now |}) id.

Definition project_epoch_finished (epoch_id : EpochId) (report_digest : str) : Tx unit :=
  changed ← end_epoch (lit "finished") (Some report_digest) epoch_id;
  from (require_projection_change changed (lit "active task epoch projection is missing")).

Definition project_epoch_interrupted (epoch_id : EpochId) (reason : EpochInterruptReason) : Tx unit :=
  changed ← end_epoch (lit "interrupted") None epoch_id;
  _ ← from (require_projection_change changed
              (lit "active interrupted task epoch projection is missing"));
  insert_row task_epoch_interruptions set_interruptions
    (fun db => (0 <? seq)
       && is_some_and (db.(task_epochs) !! uuid_to_string epoch_id)
            (fun row => row.(ep_task_id) =?? task))
    (fun _ _ => false) (task, uuid_to_string epoch_id)
    {| in_reason := epoch_interrupt_reason_str reason; in_event_sequence := seq;
       interrupted_at := now |}.

Definition project_configuration_queued (control_id : str) (model : ModelId)
    (effort : ReasoningEffort) (permission_mode : PermissionMode) : Tx unit :=
  effective ← query (fun db => ok_or (effective_permission_mode <$> db.(task_configuration_state) !! task)
                                 storage_error);
  effective_mode ← from (map_err (fun _ => invalid_stored_value (lit "effective task permission mode"))
                           (PermissionMode_from_str effective));
  let effective_mode :=
    if permission_strength permission_mode <? permission_strength effective_mode
    then permission_mode else effective_mode in
  changed ← update_row task_configuration_state set_configuration
    (fun _ row => check_configuration row) (fun _ => true)
    (fun row =>
       {| active_model := row.(active_model); active_effort := row.(active_effort);
          active_permission_mode := row.(active_permission_mode);
          effective_permission_mode := as_wire_str effective_mode;
          pending_control_id := Some control_id; pending_model := Some model;
          pending_effort := Some (as_codex_value effort);
          pending_permission_mode := Some (as_wire_str permission_mode);
          queued_sequence := Some seq; applied_sequence := row.(applied_sequence) |}) task;
  _ ← from (require_projection_change changed (lit "task configuration projection is missing"));
  insert_row service_configuration_controls set_configuration_controls
    (fun db => (sql_length control_id =? 64) && (0 <? seq) && is_some (db.(agent_tasks) !! task))
    (fun '(other, _) other_seq => (other =?? task) && (other_seq =? seq)) (task, control_id) seq.

Definition project_configuration_applied (control_id : str) : Tx unit :=
  changed ← update_row task_configuration_state set_configuration
    (fun _ row => check_configuration row)
    (fun row => row.(pending_control_id) =?? Some control_id)
    (fun row =>
       {| active_model := default [] row.(pending_model);
          active_effort := default [] row.(pending_effort);
          active_permission_mode := default [] row.(pending_permission_mode);
          effective_permission_mode := default [] row.(pending_permission_mode);
          pending_control_id := None; pending_model := None; pending_effort := None;
          pending_permission_mode := None; queued_sequence := None; applied_sequence := Some seq |})
    task;
  from (require_projection_change changed
          (lit "queued task configuration control identity is missing")).

Definition project_control_requested (control_id : str) (kind : TaskControlKind) : Tx unit :=
  let row := {| mk_kind := task_control_kind_str kind; mk_event_sequence := seq;
                mk_created_at := now |} in
  insert_row task_control_markers set_markers
    (fun db => check_marker control_id row && is_some (db.(agent_tasks) !! task))
    (fun '(other, _) row => (other =?? task) && (row.(mk_event_sequence) =? seq)) (task, control_id) row.

Definition project_operation_intent (operation_id : OperationId) (epoch_id : EpochId) (item_id : str)
    (effect_class : EffectClass) (request_digest : str) : Tx unit :=
  let id := uuid_to_string operation_id in
  let row :=
    {| or_task_id := task; or_epoch_id := uuid_to_string epoch_id; or_item_id := item_id;
       or_effect_class := effect_class_str effect_class; or_request_digest := request_digest;
       or_status := lit "intent_recorded"; intent_sequence := seq;
       or_last_transition_sequence := seq; evidence_sequences_json := lit "[]";
       or_created_at := now; or_updated_at := now |} in
  insert_row task_operations set_task_operations
    (fun db => check_operation id row && is_some (db.(agent_tasks) !! task)
       && is_some_and (db.(task_epochs) !! row.(or_epoch_id)) (fun epoch => epoch.(ep_task_id) =?? task))
    (fun _ other => (other.(or_task_id) =?? task) && (other.(intent_sequence) =? seq)) id row.

Definition project_operation_transition (operation_id : OperationId) (from_ to : OperationStatus)
    (evidence_sequences : list Z) : Tx unit :=
  evidence_json ← from (ok_or (sequences_to_string evidence_sequences) storage_error);
  let id := uuid_to_string operation_id in
  changed ← update_row task_operations set_task_operations (fun _ row => check_operation id row)
    (fun row => (row.(or_task_id) =?? task) && (row.(or_status) =?? operation_status_str from_))
    (fun row =>
       {| or_task_id := row.(or_task_id); or_epoch_id := row.(or_epoch_id);
          or_item_id := row.(or_item_id); or_effect_class := row.(or_effect_class);
          or_request_digest := row.(or_request_digest); or_status := operation_status_str to;
          intent_sequence := row.(intent_sequence); or_last_transition_sequence := seq;
          evidence_sequences_json := evidence_json; or_created_at := row.(or_created_at);
          or_updated_at := now |}) id;
  from (require_projection_change changed (lit "task operation projection is missing")).

(** [INSERT INTO task_checkpoints]. *)
Definition insert_checkpoint (checkpoint_id : CheckpointId) (digest : str) (json : option str) : Tx unit :=
  let id := uuid_to_string checkpoint_id in
  let row := {| cr_task_id := task; cr_digest := digest; cr_event_sequence := seq;
                checkpoint_json := json; cr_created_at := now |} in
  insert_row task_checkpoints set_checkpoints
    (fun db => check_checkpoint id row && is_some (db.(agent_tasks) !! task))
    (fun _ other => (other.(cr_task_id) =?? task) && (other.(cr_event_sequence) =? seq)) id row.

(** [INSERT INTO task_context_packages]. *)
Definition insert_package (package_id : ContextPackageId) (checkpoint_id : CheckpointId)
    (generation : Z) (json : option str) : Tx unit :=
  let id := uuid_to_string package_id in
  let row := {| pr_task_id := task; pr_checkpoint_id := uuid_to_string checkpoint_id;
                pr_generation := generation; pr_event_sequence := seq; package_json := json;
                pr_created_at := now |} in
  insert_row task_context_packages set_packages
    (fun db => check_package id row && is_some (db.(agent_tasks) !! task)
       && is_some_and (db.(task_checkpoints) !! row.(pr_checkpoint_id))
            (fun checkpoint => checkpoint.(cr_task_id) =?? task))
    (fun _ other => (other.(pr_task_id) =?? task)
       && ((other.(pr_generation) =? generation) || (other.(pr_event_sequence) =? seq))) id row.

Definition project_compaction_completed (generation : Z) (checkpoint_id : CheckpointId)
    (context_package_id : ContextPackageId) : Tx unit :=
  existing ← query (fun db => Ok (db.(task_context_packages) !! uuid_to_string context_package_id));
  match existing with
  | Some row =>
      from (reject (negb (row.(pr_task_id) =?? task)
                    || negb (row.(pr_checkpoint_id) =?? uuid_to_string checkpoint_id)
                    || negb (row.(pr_generation) =? generation)
                    || negb (is_some row.(package_json)))
              (storage_invariant
                 (lit "completed compaction does not match its atomic context package")))
  | None => insert_package context_package_id checkpoint_id generation None
  end.

Definition project_steering_queued (steering_sequence : Z) (text_digest : str) : Tx unit :=
  stored ← from (revision_to_sql steering_sequence);
  let row := {| sg_text_digest := text_digest; sg_event_sequence := seq; sg_created_at := now;
                sg_control_id := None |} in
  insert_row task_steering set_steering
    (fun db => check_steering stored row && is_some (db.(agent_tasks) !! task))
    (fun '(other, _) row => (other =?? task) && (row.(sg_event_sequence) =? seq)) (task, stored) row.

End Arms.

Definition apply_task_child_projection (task_id : TaskId) (envelope : EventEnvelope) : Tx unit :=
  match envelope.(event) with
  | Event.TaskLifecycle _ ev =>
      let task := uuid_to_string task_id in
      seq ← from (revision_to_sql envelope.(sequence));
      let now := format_timestamp envelope.(timestamp) in
      match ev with
      | TaskEvent.EpochStarted epoch_id objective =>
          project_epoch_started task seq now epoch_id objective
      | TaskEvent.EpochFinished epoch_id report_digest =>
          project_epoch_finished task seq now epoch_id report_digest
      | TaskEvent.EpochInterrupted epoch_id reason =>
          project_epoch_interrupted task seq now epoch_id reason
      | TaskEvent.ConfigurationQueued control_id model effort permission_mode =>
          project_configuration_queued task seq control_id model effort permission_mode
      | TaskEvent.ConfigurationApplied control_id => project_configuration_applied task seq control_id
      | TaskEvent.ControlRequested control_id kind =>
          project_control_requested task seq now control_id kind
      | TaskEvent.OperationIntentRecorded operation_id epoch_id item_id effect_class request_digest =>
          project_operation_intent task seq now operation_id epoch_id item_id effect_class request_digest
      | TaskEvent.OperationTransitioned operation_id from_ to evidence_sequences =>
          project_operation_transition task seq now operation_id from_ to evidence_sequences
      | TaskEvent.CheckpointCommitted checkpoint_id digest =>
          insert_checkpoint task seq now checkpoint_id digest None
      | TaskEvent.CompactionCompleted generation checkpoint_id context_package_id =>
          project_compaction_completed task seq now generation checkpoint_id context_package_id
      | TaskEvent.SteeringQueued steering_sequence text_digest =>
          project_steering_queued task seq now steering_sequence text_digest
      | _ => mret tt
      end
  | _ => from (Err (storage_invariant (lit "task projection received a non-task event")))
  end.

(** ** Reading projections *)

(** The consistency check of [load_task_record]. *)
Definition record_from_row (task : TaskId) (row : AgentTaskRow) : result CarlError TaskRecord :=
  stored ← ok_or (snapshot_from_str row.(snapshot_json)) storage_error;
  stored_contract ← ok_or (contract_from_str row.(contract_json)) storage_error;
  stored_budget ← ok_or (budget_from_str row.(budget_json)) storage_error;
  stored_revision ← stored_u64 row.(at_revision);
  stored_status ← parse_task_status row.(at_status);
  stored_session_id ← parse_id row.(at_session_id);
  stored_epoch ← transpose parse_id row.(current_epoch_id);
  stored_checkpoint ← transpose parse_id row.(latest_checkpoint_id);
  _ ← reject (negb (stored.(task_id) =? task)
              || negb (stored.(session_id) =? stored_session_id)
              || negb (stored.(status) =?? stored_status)
              || negb (stored.(contract) =?? stored_contract)
              || negb (stored.(budget) =?? stored_budget)
              || negb (stored.(revision) =? stored_revision)
              || negb (stored.(active_epoch) =?? stored_epoch)
              || negb (stored.(latest_checkpoint) =?? stored_checkpoint)
              || negb (stored.(provider_context) =?? row.(at_provider_context)))
        (storage_invariant (lit "stored task projection is internally inconsistent"));
  created_at ← parse_timestamp row.(at_created_at);
  updated_at ← parse_timestamp row.(at_updated_at);
  Ok {| snapshot := stored; tk_revision := stored_revision; tk_created_at := created_at;
        tk_updated_at := updated_at |}.

Definition load_task_record (db : Database) (task_id : TaskId) : result CarlError (option TaskRecord) :=
  transpose (record_from_row task_id) (db.(agent_tasks) !! uuid_to_string task_id).

Definition configuration_from_row (row : ConfigurationRow) : result CarlError TaskConfigurationRecord :=
  let mode kind value :=
    map_err (fun _ => invalid_stored_value (lit kind)) (PermissionMode_from_str value) in
  active_model ← ModelId_parse row.(active_model);
  active_effort ← parse_reasoning_effort row.(active_effort);
  active_permission_mode ← mode "task permission mode"%string row.(active_permission_mode);
  effective_permission_mode ←
    mode "effective task permission mode"%string row.(effective_permission_mode);
  pending_model ← transpose ModelId_parse row.(pending_model);
  pending_effort ← transpose parse_reasoning_effort row.(pending_effort);
  pending_permission_mode ←
    transpose (mode "pending task permission mode"%string) row.(pending_permission_mode);
  queued_sequence ← transpose stored_u64 row.(queued_sequence);
  applied_sequence ← transpose stored_u64 row.(applied_sequence);
  Ok {| tc_active_model := active_model; tc_active_effort := active_effort;
        tc_active_permission_mode := active_permission_mode;
        tc_effective_permission_mode := effective_permission_mode;
        tc_pending_control_id := row.(pending_control_id); tc_pending_model := pending_model;
        tc_pending_effort := pending_effort;
        tc_pending_permission_mode := pending_permission_mode;
        tc_queued_sequence := queued_sequence; tc_applied_sequence := applied_sequence |}.

Definition load_task_configuration_record (db : Database) (task_id : TaskId) :
    result CarlError (option TaskConfigurationRecord) :=
  transpose configuration_from_row (db.(task_configuration_state) !! uuid_to_string task_id).

(** [WHERE task_id = ?1]. *)
Definition marker_rows (db : Database) (task_id : TaskId) : list (str * MarkerRow) :=
  omap (fun '((task, control_id), row) =>
          if task =?? uuid_to_string task_id then Some (control_id, row) else None)
    (map_to_list db.(task_control_markers)).

Definition marker_from_row (row : str * MarkerRow) : result CarlError Marker :=
  kind ← parse_task_control_kind row.2.(mk_kind);
  sequence ← stored_u64 row.2.(mk_event_sequence);
  Ok (row.1, kind, sequence).

Definition load_task_control_marker_projections (db : Database) (task_id : TaskId) :
    result CarlError (list Marker) :=
  mapM marker_from_row
    (sort_by_key (fun row => row.2.(mk_event_sequence)) (marker_rows db task_id)).

(** ** Changing tasks *)

Section Workspace.
Variables (canonicalize : PathBuf -> option PathBuf) (is_dir : PathBuf -> bool).

(** The lookup of a receipt that opens [create_task_inner]. *)
Definition existing_task (receipt : option (str * Sha256Digest)) (db : Database) :
    result CarlError (option TaskRecord) :=
  match receipt with
  | None => Ok None
  | Some (idempotency_key, command_digest) =>
      match db.(service_task_receipts) !! idempotency_key with
      | None => Ok None
      | Some row =>
          _ ← reject (negb (row.(tr_command_digest) =?? Sha256Digest_display command_digest))
                (policy_error (lit "service task idempotency key was rebound"));
          task_id ← ok_or (uuid_parse row.(tr_task_id))
                      (storage_invariant (lit "service task receipt is corrupt"));
          record ← load_task_record db task_id;
          record ← ok_or record (storage_invariant (lit "service task receipt lost its task"));
          Ok (Some record)
      end
  end.

(** The receipt written with a new task. *)
Definition insert_task_receipt (receipt : option (str * Sha256Digest)) (task_id : TaskId)
    (created_at : Z) : Tx unit :=
  match receipt with
  | None => mret tt
  | Some (idempotency_key, command_digest) =>
      let row := {| tr_command_digest := Sha256Digest_display command_digest;
                    tr_task_id := uuid_to_string task_id;
                    tr_created_at := format_timestamp created_at |} in
      insert_row service_task_receipts set_task_receipts
        (fun db => check_task_receipt idempotency_key row
                   && is_some (db.(agent_tasks) !! row.(tr_task_id)))
        (fun _ _ => false) idempotency_key row
  end.

Definition create_task_inner (input : NewTask) (receipt : option (str * Sha256Digest))
    (task_id : TaskId) (event_id : EventId) : Tx TaskRecord :=
  existing ← query (existing_task receipt);
  match existing with
  | Some record => mret record
  | None =>
      workspace ← from (ok_or (canonicalize input.(nt_workspace))
                          (CarlError.Validation (lit "task workspace is unavailable")));
      _ ← from (reject (negb (is_dir workspace))
                  (CarlError.Validation (lit "task workspace is not a directory")));
      envelope ← append_event_in_transaction input.(nt_session_id) None
        (Event.TaskLifecycle task_id
           (TaskEvent.Created input.(nt_session_id) workspace input.(nt_contract) input.(nt_budget)
              input.(nt_model) input.(nt_effort) input.(nt_permission_mode)))
        input.(nt_created_at) event_id;
      snapshot ← from (map_err task_reduce_error (reduce_task None envelope));
      _ ← insert_task_projection snapshot workspace input.(nt_model) input.(nt_effort)
            input.(nt_permission_mode) input.(nt_created_at);
      _ ← insert_task_receipt receipt task_id input.(nt_created_at);
      mret {| snapshot := snapshot; tk_revision := snapshot.(revision);
              tk_created_at := input.(nt_created_at); tk_updated_at := input.(nt_created_at) |}
  end.

Definition create_task (input : NewTask) (task_id : TaskId) (event_id : EventId) : Tx TaskRecord :=
  create_task_inner input None task_id event_id.

Definition create_task_idempotent (input : NewTask) (idempotency_key : str)
    (command_digest : Sha256Digest) (task_id : TaskId) (event_id : EventId) : Tx TaskRecord :=
  _ ← from (reject (is_empty idempotency_key || (128 <? len idempotency_key)
                    || existsb is_control idempotency_key)
              (policy_error (lit "service task idempotency key is invalid")));
  create_task_inner input (Some (idempotency_key, command_digest)) task_id event_id.

End Workspace.

Definition append_task_event_in_transaction (current : TaskRecord) (event : TaskEvent) (at_ : Z)
    (event_id : EventId) : Tx (TaskRecord * Z) :=
  let task_id := current.(snapshot).(task_id) in
  envelope ← append_event_in_transaction current.(snapshot).(session_id) None
    (Event.TaskLifecycle task_id event) at_ event_id;
  snapshot ← from (map_err task_reduce_error (reduce_task (Some current.(snapshot)) envelope));
  _ ← apply_task_child_projection task_id envelope;
  _ ← update_task_projection snapshot at_;
  mret ({| snapshot := snapshot; tk_revision := snapshot.(revision);
           tk_created_at := current.(tk_created_at); tk_updated_at := at_ |}, envelope.(sequence)).

(** The task whose revision is the one the caller expects. *)
Definition expected_task (task_id : TaskId) (expected_revision : Z) : Tx (option TaskRecord) :=
  current ← query (fun db => load_task_record db task_id);
  mret (match current with
        | Some record => if record.(tk_revision) =? expected_revision then Some record else None
        | None => None
        end).

Definition append_task_event (task_id : TaskId) (expected_revision : Z) (event : TaskEvent) (at_ : Z)
    (event_id : EventId) : Tx (option TaskRecord) :=
  current ← expected_task task_id expected_revision;
  match current with
  | None => mret None
  | Some current =>
      envelope ← append_event_in_transaction current.(snapshot).(session_id) None
        (Event.TaskLifecycle task_id event) at_ event_id;
      snapshot ← from (map_err task_reduce_error (reduce_task (Some current.(snapshot)) envelope));
      _ ← apply_task_child_projection task_id envelope;
      _ ← update_task_projection snapshot at_;
      mret (Some {| snapshot := snapshot; tk_revision := snapshot.(revision);
                    tk_created_at := current.(tk_created_at); tk_updated_at := at_ |})
  end.

(** [UPDATE task_steering SET control_id = ?3 WHERE task_id = ?1 AND event_sequence =
    ?2 AND control_id IS NULL]; a task has one row for an event. *)
Definition bind_steering_control (task : str) (event_sequence : Z) (control_id : str) : Tx Z := fun db =>
  let bound row := {| sg_text_digest := row.(sg_text_digest);
                      sg_event_sequence := row.(sg_event_sequence);
                      sg_created_at := row.(sg_created_at); sg_control_id := Some control_id |} in
  match filter (fun '((other, _), row) => other = task /\ row.(sg_event_sequence) = event_sequence
                                          /\ row.(sg_control_id) = None)
          (map_to_list db.(task_steering)) with
  | [] => Ok (db, 0)
  | rows =>
      if forallb (fun '((_, steering_sequence), row) => check_steering steering_sequence (bound row)) rows
         && negb (existsb (fun '((other, _), row) => (other =?? task)
                             && (row.(sg_control_id) =?? Some control_id))
                    (map_to_list db.(task_steering)))
      then Ok (set_steering (foldr (fun '(key, row) t => <[key := bound row]> t)
                               db.(task_steering) rows) db, Zlen rows)
      else Err storage_error
  end.

Definition append_controlled_task_steering (task_id : TaskId) (expected_revision : Z)
    (steering_sequence : Z) (text_digest control_id : str) (at_ : Z) (event_id : EventId) :
    Tx (option TaskRecord) :=
  _ ← from (reject (negb (is_hex64 control_id))
              (policy_error (lit "task steering control ID is invalid")));
  current ← expected_task task_id expected_revision;
  match current with
  | None => mret None
  | Some current =>
      '(record, event_sequence) ← append_task_event_in_transaction current
        (TaskEvent.SteeringQueued steering_sequence text_digest) at_ event_id;
      changed ← bind_steering_control (uuid_to_string task_id) event_sequence control_id;
      _ ← from (require_projection_change changed
                  (lit "task steering control binding was not applied"));
      mret (Some record)
  end.

(** ** Authority: the projections of a task against its journal *)

Definition replay_configuration_queued (configuration : TaskConfigurationRecord) (control_id : str)
    (model : ModelId) (effort : ReasoningEffort) (permission_mode : PermissionMode) (sequence : Z) :
    TaskConfigurationRecord :=
  {| tc_active_model := configuration.(tc_active_model);
     tc_active_effort := configuration.(tc_active_effort);
     tc_active_permission_mode := configuration.(tc_active_permission_mode);
     tc_effective_permission_mode :=
       if permission_strength permission_mode
          <? permission_strength configuration.(tc_effective_permission_mode)
       then permission_mode else configuration.(tc_effective_permission_mode);
     tc_pending_control_id := Some control_id; tc_pending_model := Some model;
     tc_pending_effort := Some effort; tc_pending_permission_mode := Some permission_mode;
     tc_queued_sequence := Some sequence; tc_applied_sequence := configuration.(tc_applied_sequence) |}.

Definition replay_configuration_applied (configuration : TaskConfigurationRecord) (control_id : str)
    (sequence : Z) : result CarlError TaskConfigurationRecord :=
  _ ← reject (negb (configuration.(tc_pending_control_id) =?? Some control_id))
        (storage_invariant
           (lit "applied task configuration control identity disagrees with its queue"));
  model ← ok_or configuration.(tc_pending_model)
            (storage_invariant (lit "queued task model is missing"));
  effort ← ok_or configuration.(tc_pending_effort)
             (storage_invariant (lit "queued task effort is missing"));
  mode ← ok_or configuration.(tc_pending_permission_mode)
           (storage_invariant (lit "queued task permission is missing"));
  Ok {| tc_active_model := model; tc_active_effort := effort; tc_active_permission_mode := mode;
        tc_effective_permission_mode := mode; tc_pending_control_id := None;
        tc_pending_model := None; tc_pending_effort := None; tc_pending_permission_mode := None;
        tc_queued_sequence := None; tc_applied_sequence := Some sequence |}.

Definition replay_task_child_projections (children : Children) (envelope : EventEnvelope) :
    result CarlError Children :=
  let '(configuration, control_markers) := children in
  match envelope.(event) with
  | Event.TaskLifecycle _ ev =>
      match ev with
      | TaskEvent.Created _ _ _ _ model effort permission_mode =>
          _ ← reject (is_some configuration)
                (storage_invariant (lit "task configuration journal contains duplicate creation"));
          Ok (Some {| tc_active_model := model; tc_active_effort := effort;
                      tc_active_permission_mode := permission_mode;
                      tc_effective_permission_mode := permission_mode;
                      tc_pending_control_id := None; tc_pending_model := None;
                      tc_pending_effort := None; tc_pending_permission_mode := None;
                      tc_queued_sequence := None; tc_applied_sequence := None |}, control_markers)
      | TaskEvent.ConfigurationQueued control_id model effort permission_mode =>
          configuration ← ok_or configuration
            (storage_invariant (lit "task configuration was queued before task creation"));
          Ok (Some (replay_configuration_queued configuration control_id model effort permission_mode
                      envelope.(sequence)), control_markers)
      | TaskEvent.ConfigurationApplied control_id =>
          configuration ← ok_or configuration
            (storage_invariant (lit "task configuration was applied before task creation"));
          configuration ← replay_configuration_applied configuration control_id envelope.(sequence);
          Ok (Some configuration, control_markers)
      | TaskEvent.ControlRequested control_id kind =>
          _ ← reject (existsb (fun '(existing, _, _) => existing =?? control_id) control_markers)
                (storage_invariant (lit "task control marker identity is duplicated in the journal"));
          Ok (configuration, control_markers ++ [(control_id, kind, envelope.(sequence))])
      | _ => Ok children
      end
  | _ => Err (storage_invariant (lit "task journal contains a non-task lifecycle event"))
  end.

(** One event of the loop of [validate_task_authority_from_journal]. *)
Definition replay_authority (state : Children * option TaskSnapshot) (envelope : EventEnvelope) :
    result CarlError (Children * option TaskSnapshot) :=
  children ← replay_task_child_projections state.1 envelope;
  replayed ← map_err task_replay_error (reduce_task state.2 envelope);
  Ok (children, Some replayed).

Definition validate_task_authority_from_journal (db : Database) (task_id : TaskId) :
    result CarlError (TaskRecord * TaskConfigurationRecord) :=
  projection ← load_task_record db task_id;
  projection ← ok_or projection
    (storage_invariant (lit "task journal has no matching task projection"));
  '((configuration, control_markers), replayed) ←
    for_each_event db task_id replay_authority None (None, [], None);
  replayed ← ok_or replayed (storage_invariant (lit "task projection has no authoritative journal"));
  _ ← reject (negb (replayed.(revision) =? projection.(tk_revision))
              || negb (replayed.(status) =?? projection.(snapshot).(status))
              || negb (replayed.(active_epoch) =?? projection.(snapshot).(active_epoch))
              || negb (replayed.(latest_checkpoint) =?? projection.(snapshot).(latest_checkpoint))
              || negb (replayed =?? projection.(snapshot)))
        (storage_invariant (lit "task projection disagrees with journal replay"));
  expected_configuration ← ok_or configuration
    (storage_invariant (lit "task configuration journal is missing"));
  stored_configuration ← load_task_configuration_record db task_id;
  stored_configuration ← ok_or stored_configuration
    (storage_invariant (lit "task configuration projection is missing"));
  _ ← reject (negb (stored_configuration =?? expected_configuration))
        (storage_invariant (lit "task configuration projection disagrees with journal replay"));
  stored_control_markers ← load_task_control_marker_projections db task_id;
  _ ← reject (negb (stored_control_markers =?? control_markers))
        (storage_invariant (lit "task control marker projection disagrees with journal replay"));
  Ok ({| snapshot := replayed; tk_revision := projection.(tk_revision);
         tk_created_at := projection.(tk_created_at); tk_updated_at := projection.(tk_updated_at) |},
      expected_configuration).

Definition validate_task_projection_from_journal (db : Database) (task_id : TaskId) :
    result CarlError TaskRecord :=
  fst <$> validate_task_authority_from_journal db task_id.

Definition is_after (after_task_id : option str) (id : str) : bool :=
  match after_task_id with
  | None => true
  | Some after => match cmp after id with Lt => true | _ => false end
  end.

Definition read_journal_task_id_page (db : Database) (after_task_id : option str) : list str :=
  take 512
    (filter (fun id => is_after after_task_id id = true)
       (btree_set (omap (fun row => json_task_id row.(event_json)) db.(events)))).

(** The loop of [visit_authoritative_task_records]; [None] when the fuel runs out. *)
Fixpoint visit_task_pages (fuel : nat) (db : Database) (after_task_id : option str)
    (records : list TaskRecord) : option (result CarlError (list TaskRecord)) :=
  match fuel with
  | O => None
  | Datatypes.S fuel =>
      match read_journal_task_id_page db after_task_id with
      | [] => Some (Ok records)
      | task_ids =>
          match try_fold (fun records stored_task_id =>
                    task_id ← ok_or (uuid_parse stored_task_id)
                      (storage_invariant (lit "task journal contains an invalid task identifier"));
                    record ← validate_task_projection_from_journal db task_id;
                    Ok (records ++ [record])) records task_ids with
          | Err e => Some (Err e)
          | Ok records => visit_task_pages fuel db (last task_ids) records
          end
      end
  end.

Definition orphan_projection (db : Database) : bool :=
  existsb (fun '(id, _) =>
             negb (existsb (fun row => json_task_id row.(event_json) =?? Some id) db.(events)))
    (map_to_list db.(agent_tasks)).

(** [visit_authoritative_task_records] with the visitor that collects the records, as
    all its callers use it. *)
Definition visit_authoritative_task_records (db : Database) : result CarlError (list TaskRecord) :=
  records ← default (Err storage_error)
    (visit_task_pages (Datatypes.S (length db.(events))) db None []);
  _ ← reject (orphan_projection db)
        (storage_invariant (lit "task projection has no authoritative journal"));
  Ok records.

(** ** Lists of tasks and recovery at startup *)

Definition compare_oldest (left right : TaskRecord) : comparison :=
  then_with (cmp left.(tk_updated_at) right.(tk_updated_at))
    (cmp left.(snapshot).(task_id) right.(snapshot).(task_id)).

(** [cached] is what [take_validated_startup_tasks] returns. *)
Definition list_resumable_tasks (db : Database) (cached : option (list TaskRecord)) :
    result CarlError (list TaskRecord) :=
  records ← match cached with
            | Some records => Ok records
            | None => visit_authoritative_task_records db
            end;
  Ok (sort_by compare_oldest
        (filter (fun record => TaskStatus_is_terminal record.(snapshot).(status) = false) records)).

Definition list_tasks (db : Database) (limit : Z) : result CarlError (list TaskRecord) :=
  _ ← reject (negb (within 1 64 limit))
        (CarlError.Validation (lit "task list limit must be between 1 and 64"));
  records ← visit_authoritative_task_records db;
  Ok (take (Z.to_nat limit) (sort_by (fun left right => compare_oldest right left) records)).

(** The two events that settle one operation the previous process left started;
    [fresh] draws an event identifier. *)
Definition settle_started (result_digest : str) (startup_at : Z) (fresh : Database -> EventId)
    (record : TaskRecord) (operation_id : OperationId) : Tx TaskRecord :=
  first ← query (fun db => Ok (fresh db));
  '(record, evidence_sequence) ← append_task_event_in_transaction record
    (TaskEvent.OperationEvidenceRecorded operation_id result_digest) startup_at first;
  second ← query (fun db => Ok (fresh db));
  '(record, _) ← append_task_event_in_transaction record
    (TaskEvent.OperationTransitioned operation_id OperationStatus.Started OperationStatus.Uncertain
       [evidence_sequence]) startup_at second;
  mret record.

Fixpoint tx_fold {A S : Type} (f : S -> A -> Tx S) (s : S) (l : list A) : Tx S :=
  match l with
  | [] => mret s
  | x :: l => s ← f s x; tx_fold f s l
  end.

Fixpoint tx_map {A B : Type} (f : A -> Tx B) (l : list A) : Tx (list B) :=
  match l with
  | [] => mret []
  | x :: l => y ← f x; ys ← tx_map f l; mret (y :: ys)
  end.

(** The body of the loop over the records. *)
Definition reconcile_record (result_digest : str) (startup_at : Z) (fresh : Database -> EventId)
    (record : TaskRecord) : Tx TaskRecord :=
  if TaskStatus_is_terminal record.(snapshot).(status) then mret record
  else tx_fold (settle_started result_digest startup_at fresh) record
         (started_operation_ids record.(snapshot)).

Definition reconcile_abandoned_task_operations (result_digest : str) (startup_at : Z)
    (fresh : Database -> EventId) (cached : option (list TaskRecord)) : Tx (list TaskRecord) :=
  records ← query (fun db => match cached with
                             | Some records => Ok records
                             | None => visit_authoritative_task_records db
                             end);
  tx_map (reconcile_record result_digest startup_at fresh) records.

(** ** Metrics *)

Definition task_metrics (db : Database) (task_id : TaskId) : result CarlError (option TaskMetrics) :=
  projection ← load_task_record db task_id;
  '(reducer, found) ←
    for_each_event db task_id
      (fun '(reducer, _) envelope =>
         reducer ← map_err task_metrics_error (TaskMetricsReducer_push reducer envelope);
         Ok (reducer, true))
      None (TaskMetricsReducer_new task_id, false);
  match found, projection with
  | false, None => Ok None
  | true, Some projection =>
      metrics ← map_err task_metrics_error (TaskMetricsReducer_finish reducer projection.(snapshot));
      Ok (Some metrics)
  | _, _ => Err (storage_invariant (lit "task metrics authority is incomplete"))
  end.

End TaskStore.

(** ** Automation: what a transaction that committed did *)

Ltac tx_simpl :=
  repeat (carl_simpl; match goal with
  | H : (_ ≫= _) _ = Ok _ |- _ => apply tx_bind_ok in H as (? & ? & ? & H)
  | H : from _ _ = Ok _ |- _ => apply from_ok in H as [? ?]
  | H : query _ _ = Ok _ |- _ => apply query_ok in H as [? ?]
  | H : mret _ _ = Ok _ |- _ => apply mret_ok in H as [? ?]
  | H : insert_row _ _ _ _ _ _ _ = Ok _ |- _ => apply insert_row_ok in H as (? & ? & ? & ?)
  | H : update_row _ _ _ _ _ _ _ = Ok _ |- _ =>
      apply update_row_ok in H as [(? & ? & ? & ? & ? & ?)|(? & ? & ?)]
  | H : require_projection_change _ _ = Ok _ |- _ => unfold require_projection_change in H
  | H : revision_to_sql _ = Ok _ |- _ => unfold revision_to_sql in H; case_match; [|done]
  end; simplify_eq).
