(* ===== verification/Front.v ===== *)
(** * Frontends and their owners

    [src/storage/repository.rs]: the tables that say who speaks to the agent.  A
    frontend session binds an external session to a durable one, with its working
    directory, channel and permission mode; a trusted owner of a workspace may
    have messages admitted, each event once; a control of a task is claimed under
    an idempotency key and its result replayed.

    A single statement commits by itself, so an operation that reads after it has
    written keeps its write when the read fails: [Conn] is a computation on the
    database that keeps what was committed.  The file system ([canonicalize],
    [is_dir]), SHA-256 and [serde_json] are parameters. *)
From stdpp Require Import base gmap sets list sorting strings.
From S2P Require Import Prelude Ord Text Settings Policy TaskTypes Events Database TaskStore.
From Stdlib Require Import ZArith Lia.
#[local] Open Scope list_scope.
#[local] Open Scope Z_scope.

(** ** Computations on a connection *)

Definition Conn (A : Type) : Type := Database -> Database * result CarlError A.
#[export] Instance conn_ret : MRet Conn := fun A a db => (db, Ok a).
#[export] Instance conn_bind : MBind Conn := fun A B k m db =>
  match m db with (db', Ok a) => k a db' | (db', Err e) => (db', Err e) end.

(** A statement or a transaction of its own. *)
Definition execute {A} (tx : Tx A) : Conn A := transaction tx.
Definition read {A} (f : Database -> result CarlError A) : Conn A := fun db => (db, f db).
Definition tx_map_err {A} (f : CarlError -> CarlError) (tx : Tx A) : Tx A := fun db => map_err f (tx db).
Definition refuse {A} (r : result CarlError A) : Conn A := fun db => (db, r).

Lemma conn_bind_ok {A B} (m : Conn A) (k : A -> Conn B) db db' b :
  (m ≫= k) db = (db', Ok b) <-> exists db1 a, m db = (db1, Ok a) /\ k a db1 = (db', Ok b).
Proof.
  unfold mbind, conn_bind. destruct (m db) as [db1 [a|e]]; [|split; [done|by intros (?&?&?&?)]].
  split; [eauto|]. by intros (? & ? & [= <- <-] & ?).
Qed.
Lemma execute_ok {A} (tx : Tx A) db db' a : execute tx db = (db', Ok a) <-> tx db = Ok (db', a).
Proof.
  unfold execute, transaction. destruct (tx db) as [[db1 a1]|e]; [|done].
  split; [by intros [= -> ->]|by intros [= -> ->]].
Qed.
Lemma read_ok {A} (f : Database -> result CarlError A) db db' a :
  read f db = (db', Ok a) <-> f db = Ok a /\ db' = db.
Proof. unfold read. split; [by intros [= -> ->]|by intros [-> ->]]. Qed.
Lemma refuse_ok {A} (r : result CarlError A) db db' a : refuse r db = (db', Ok a) <-> r = Ok a /\ db' = db.
Proof. unfold refuse. split; [by intros [= -> ->]|by intros [-> ->]]. Qed.
Lemma conn_ret_ok {A} (a a' : A) db db' : (mret a : Conn A) db = (db', Ok a') <-> a' = a /\ db' = db.
Proof. unfold mret, conn_ret. split; [by intros [= -> ->]|by intros [-> ->]]. Qed.

Ltac conn_simpl :=
  repeat first [progress carl_simpl | progress tx_simpl | match goal with
  | H : (_ ≫= _) _ = (_, Ok _) |- _ => apply conn_bind_ok in H as (? & ? & ? & H)
  | H : execute _ _ = (_, Ok _) |- _ => apply execute_ok in H
  | H : read _ _ = (_, Ok _) |- _ => apply read_ok in H as [? ?]
  | H : refuse _ _ = (_, Ok _) |- _ => apply refuse_ok in H as [? ?]
  | H : mret _ _ = (_, Ok _) |- _ => apply conn_ret_ok in H as [? ?]
  end; simplify_eq].

(** ** Assignments to a table of the frontends *)

Definition set_frontend_sessions t (db : Database) : Database :=
  let f := db.(front) in
  set_front (Build_Front t f.(trusted_frontend_owners) f.(trusted_frontend_events)
    f.(task_control_receipts) f.(approvals) f.(bound_approvals) f.(remote_codes)
    f.(frontend_deliveries)) db.
Definition set_trusted_owners t (db : Database) : Database :=
  let f := db.(front) in
  set_front (Build_Front f.(frontend_sessions) t f.(trusted_frontend_events)
    f.(task_control_receipts) f.(approvals) f.(bound_approvals) f.(remote_codes)
    f.(frontend_deliveries)) db.
Definition set_trusted_events t (db : Database) : Database :=
  let f := db.(front) in
  set_front (Build_Front f.(frontend_sessions) f.(trusted_frontend_owners) t
    f.(task_control_receipts) f.(approvals) f.(bound_approvals) f.(remote_codes)
    f.(frontend_deliveries)) db.
Definition set_control_receipts t (db : Database) : Database :=
  let f := db.(front) in
  set_front (Build_Front f.(frontend_sessions) f.(trusted_frontend_owners)
    f.(trusted_frontend_events) t f.(approvals) f.(bound_approvals) f.(remote_codes)
    f.(frontend_deliveries)) db.
Definition set_approvals t (db : Database) : Database :=
  let f := db.(front) in
  set_front (Build_Front f.(frontend_sessions) f.(trusted_frontend_owners)
    f.(trusted_frontend_events) f.(task_control_receipts) t f.(bound_approvals) f.(remote_codes)
    f.(frontend_deliveries)) db.
Definition set_bound_approvals t (db : Database) : Database :=
  let f := db.(front) in
  set_front (Build_Front f.(frontend_sessions) f.(trusted_frontend_owners)
    f.(trusted_frontend_events) f.(task_control_receipts) f.(approvals) t f.(remote_codes)
    f.(frontend_deliveries)) db.
Definition set_remote_codes t (db : Database) : Database :=
  let f := db.(front) in
  set_front (Build_Front f.(frontend_sessions) f.(trusted_frontend_owners)
    f.(trusted_frontend_events) f.(task_control_receipts) f.(approvals) f.(bound_approvals) t
    f.(frontend_deliveries)) db.
Definition set_deliveries t (db : Database) : Database :=
  let f := db.(front) in
  set_front (Build_Front f.(frontend_sessions) f.(trusted_frontend_owners)
    f.(trusted_frontend_events) f.(task_control_receipts) f.(approvals) f.(bound_approvals)
    f.(remote_codes) t) db.

(** SQLite compares text by its bytes, which is the order of the characters. *)
Definition text_lt (s t : str) : bool := match cmp s t with Lt => true | _ => false end.
Definition text_le (s t : str) : bool := match cmp s t with Gt => false | _ => true end.

(** ** Values of a frontend *)

Definition MAX_FRONTEND_VALUE_BYTES : Z := 128.
Definition MAX_FRONTEND_CWD_BYTES : Z := 32 * 1024.

Abbreviation ExternalSessionId := str (only parsing).
Abbreviation ClientName := str (only parsing).
Abbreviation ChannelId := str (only parsing).
Abbreviation ProviderThreadId := str (only parsing).
Abbreviation ProviderRequestId := str (only parsing).

(** [bounded_frontend_value!]. *)
Definition bounded_frontend_value (label value : str) : result CarlError str :=
  let valid :=
    negb (is_empty value) && (len value <=? MAX_FRONTEND_VALUE_BYTES) && negb (0 ∈? utf8 value)
    && negb (existsb is_control value) in
  if negb valid then Err (CarlError.Validation (label ++ lit " is invalid")) else Ok value.

Definition ExternalSessionId_try_from := bounded_frontend_value (lit "external session ID").
Definition ClientName_try_from := bounded_frontend_value (lit "ACP client name").
Definition ChannelId_try_from := bounded_frontend_value (lit "frontend channel ID").
Definition ProviderThreadId_try_from := bounded_frontend_value (lit "provider thread ID").
Definition ProviderRequestId_try_from := bounded_frontend_value (lit "provider request ID").

Record NewFrontendSession := {
  nf_frontend : Frontend;
  nf_external_session_id : ExternalSessionId;
  nf_session_id : SessionId;
  nf_cwd : PathBuf;
  nf_protocol_version : Z;
  nf_client_name : ClientName;
  nf_permission_mode : PermissionMode;
  nf_channel_id : option ChannelId;
  nf_created_at : Z
}.

Record FrontendSessionRecord := {
  fs_frontend : Frontend;
  fs_external_session_id : ExternalSessionId;
  fs_session_id : SessionId;
  fs_cwd : PathBuf;
  fs_protocol_version : Z;
  fs_client_name : ClientName;
  fs_permission_mode : PermissionMode;
  fs_channel_id : option ChannelId;
  fs_provider_thread_id : option ProviderThreadId;
  fs_created_at : Z;
  fs_updated_at : Z
}.
#[export] Instance FrontendSessionRecord_eq_dec : EqDecision FrontendSessionRecord.
Proof. solve_decision. Defined.

Record TrustedFrontendOwnerInput := {
  ti_frontend : Frontend;
  ti_actor_id : ActorId;
  ti_workspace : PathBuf;
  ti_permission_mode : PermissionMode;
  trusted_at : Z
}.

Record TrustedFrontendOwnerRecord := {
  to_frontend : Frontend;
  to_actor_id : ActorId;
  to_channel_id : option ChannelId;
  to_workspace_digest : Sha256Digest;
  to_permission_mode : PermissionMode;
  to_created_at : Z;
  to_updated_at : Z
}.

Record TaskControlMutationInput := {
  tm_external_session_id : ExternalSessionId;
  tm_idempotency_key : str;
  tm_task_id : TaskId;
  tm_method : str;
  tm_request_digest : Sha256Digest;
  tm_result_json : str;
  tm_created_at : Z
}.

Module TaskControlMutationClaim.
Inductive TaskControlMutationClaim : Type :=
| Fresh | Pending | Replay (result_json : str) (failure_code : option Z).
End TaskControlMutationClaim.
Abbreviation TaskControlMutationClaim := TaskControlMutationClaim.TaskControlMutationClaim.

Definition permission_profile_str (mode : PermissionMode) : str :=
  match profile mode with
  | PermissionProfile.ReadOnly => lit "read_only"
  | PermissionProfile.Approval => lit "approval"
  | PermissionProfile.FullAccess => lit "full_access"
  end.

Definition permission_mode_from_profile (profile : str) : result CarlError PermissionMode :=
  if profile =?? lit "read_only" then Ok PermissionMode.Plan
  else if profile =?? lit "approval" then Ok PermissionMode.Default
  else if profile =?? lit "full_access" then Ok PermissionMode.FullAccess
  else Err (invalid_stored_value (lit "permission profile")).

(** ** Constraints *)

Definition stored_modes : list str :=
  lit <$> ["plan"; "default"; "acceptEdits"; "dontAsk"; "bypassPermissions"]%string.

Definition check_frontend_session (id : str) (row : FrontendSessionRow) : bool :=
  within 1 128 (sql_length id)
  && (row.(fr_frontend) ∈? (lit <$> ["acp"; "buzz"; "tui"]%string))
  && within 1 128 (sql_length row.(fr_client_name))
  && (row.(fr_protocol_version) ∈? [1; 2])
  && within 1 32768 (sql_length row.(fr_cwd))
  && holds row.(fr_channel_id) (fun c => within 1 128 (sql_length c))
  && holds row.(fr_provider_thread_id) (fun c => within 1 128 (sql_length c))
  && (row.(fr_permission_mode) ∈? stored_modes)
  && (row.(fr_permission_profile) ∈? (lit <$> ["read_only"; "approval"; "full_access"]%string)).

(** [UNIQUE (session_id)] and the index [frontend_sessions_stable_channel]. *)
Definition session_clash (row row' : FrontendSessionRow) : bool :=
  (row.(fr_session_id) =?? row'.(fr_session_id))
  || (is_some row.(fr_channel_id) && (row.(fr_channel_id) =?? row'.(fr_channel_id))
      && (row.(fr_frontend) =?? row'.(fr_frontend)) && (row.(fr_cwd) =?? row'.(fr_cwd))).

Definition other_clash (id : str) (row : FrontendSessionRow) (db : Database) : bool :=
  existsb (fun '(id', row') => negb (id' =?? id) && session_clash row row')
    (map_to_list db.(front).(frontend_sessions)).

Definition check_trusted_owner (key : str * str) (row : TrustedOwnerRow) : bool :=
  (key.1 ∈? (lit <$> ["acp"; "buzz"]%string))
  && within 1 128 (sql_length row.(ow_actor_id))
  && holds row.(ow_channel_id) (fun c => within 1 128 (sql_length c))
  && (sql_length key.2 =? 64)
  && (row.(ow_permission_mode) ∈? stored_modes).

Definition check_trusted_event (id : str) (row : TrustedEventRow) : bool :=
  (sql_length id =? 64) && (sql_length row.(te_workspace_digest) =? 64)
  && within 1 128 (sql_length row.(te_actor_id)) && within 1 128 (sql_length row.(te_channel_id)).

Definition check_control_receipt (key : str * str) (row : ControlReceiptRow) : bool :=
  within 1 128 (sql_length key.2)
  && (row.(xr_method) ∈? (lit <$> ["resume"; "cancel"; "steer"]%string))
  && (sql_length row.(xr_request_digest) =? 64)
  && (1 <=? row.(starting_revision))
  && holds row.(applied_revision) (fun r => row.(starting_revision) <=? r)
  && holds row.(xr_result_json) (fun j => within 2 65536 (sql_length j))
  && holds row.(xr_failure_code) (fun c => c =? -32602)
  && match row.(applied_revision), row.(xr_result_json), row.(xr_completed_at) with
     | None, None, None => row.(xr_state) =?? lit "pending"
     | Some _, Some _, Some _ => row.(xr_state) =?? lit "completed"
     | _, _, _ => false
     end.

Section Front.
Context `{Uuids, Chrono}.
Context (sha256 : bytes -> Sha256Digest).
Context (canonicalize : PathBuf -> option PathBuf) (is_dir : PathBuf -> bool).
Context (json_object : str -> bool).

(** ** Frontend sessions *)

Definition validate_canonical_frontend_cwd (cwd : PathBuf) : result CarlError unit :=
  encoded ← ok_or (from_utf8 cwd) (CarlError.Validation (lit "frontend working directory is not UTF-8"));
  _ ← reject (negb (has_root cwd) || is_empty encoded || (MAX_FRONTEND_CWD_BYTES <? len encoded)
              || (0 ∈? utf8 encoded))
        (CarlError.Validation (lit "frontend working directory is invalid"));
  canonical ← ok_or (canonicalize cwd)
    (CarlError.Validation (lit "frontend working directory is unavailable"));
  reject (negb (canonical =?? cwd) || negb (is_dir canonical))
    (CarlError.Validation (lit "frontend working directory is not canonical")).

Definition frontend_workspace_digest (workspace : PathBuf) : Sha256Digest :=
  sha256 (utf8 (lit "carl.trusted-frontend-workspace.v1") ++ [0] ++ workspace).

Definition session_from_row (external_session_id : str) (row : FrontendSessionRow) :
    result CarlError FrontendSessionRecord :=
  protocol_version ←
    (if (0 <=? row.(fr_protocol_version)) && (row.(fr_protocol_version) <=? u32_max)
     then Ok row.(fr_protocol_version)
     else Err (invalid_stored_value (lit "protocol version")));
  permission_mode ← permission_mode_from_profile row.(fr_permission_profile);
  frontend ← Frontend_parse row.(fr_frontend);
  external_session_id ← ExternalSessionId_try_from external_session_id;
  session_id ← parse_id row.(fr_session_id);
  client_name ← ClientName_try_from row.(fr_client_name);
  channel_id ← transpose ChannelId_try_from row.(fr_channel_id);
  provider_thread_id ← transpose ProviderThreadId_try_from row.(fr_provider_thread_id);
  created_at ← parse_timestamp row.(fr_created_at);
  updated_at ← parse_timestamp row.(fr_updated_at);
  Ok {| fs_frontend := frontend; fs_external_session_id := external_session_id;
        fs_session_id := session_id; fs_cwd := utf8 row.(fr_cwd);
        fs_protocol_version := protocol_version; fs_client_name := client_name;
        fs_permission_mode := permission_mode; fs_channel_id := channel_id;
        fs_provider_thread_id := provider_thread_id; fs_created_at := created_at;
        fs_updated_at := updated_at |}.

Definition get_frontend_session (external_session_id : str) (db : Database) :
    result CarlError (option FrontendSessionRecord) :=
  transpose (session_from_row external_session_id)
    (db.(front).(frontend_sessions) !! external_session_id).

(** [self.get_frontend_session(..)?.ok_or_else(..)], after a statement. *)
Definition written_session (external_session_id detail : str) : Conn FrontendSessionRecord :=
  read (fun db => r ← get_frontend_session external_session_id db; ok_or r (storage_invariant detail)).

Definition new_session_row (record : FrontendSessionRecord) (cwd : str) : FrontendSessionRow :=
  {| fr_frontend := Frontend_as_str record.(fs_frontend);
     fr_session_id := uuid_to_string record.(fs_session_id);
     fr_client_name := record.(fs_client_name); fr_protocol_version := record.(fs_protocol_version);
     fr_cwd := cwd; fr_channel_id := record.(fs_channel_id); fr_provider_thread_id := None;
     fr_permission_mode := stored_permission_mode record.(fs_permission_mode);
     fr_permission_profile := permission_profile_str record.(fs_permission_mode);
     fr_created_at := format_timestamp record.(fs_created_at);
     fr_updated_at := format_timestamp record.(fs_created_at) |}.

Definition new_session_record (input : NewFrontendSession) : FrontendSessionRecord :=
  {| fs_frontend := input.(nf_frontend);
     fs_external_session_id := input.(nf_external_session_id);
     fs_session_id := input.(nf_session_id); fs_cwd := input.(nf_cwd);
     fs_protocol_version := input.(nf_protocol_version);
     fs_client_name := input.(nf_client_name);
     fs_permission_mode := input.(nf_permission_mode); fs_channel_id := input.(nf_channel_id);
     fs_provider_thread_id := None; fs_created_at := input.(nf_created_at);
     fs_updated_at := input.(nf_created_at) |}.

Definition bind_frontend_session (input : NewFrontendSession) : Conn FrontendSessionRecord :=
  _ ← refuse (reject (negb (input.(nf_frontend) ∈? [Frontend.Acp; Frontend.Buzz; Frontend.Tui])
                      || negb (input.(nf_protocol_version) ∈? [1; 2]))
                (CarlError.Validation (lit "frontend session protocol is invalid")));
  _ ← refuse (validate_canonical_frontend_cwd input.(nf_cwd));
  let record := new_session_record input in
  existing ← read (get_frontend_session record.(fs_external_session_id));
  match existing with
  | Some existing =>
      if existing =?? record then mret existing
      else refuse (Err (policy_error (lit "frontend session binding conflicts with durable state")))
  | None =>
      let id := record.(fs_external_session_id) in
      (* [cwd.to_str()] was checked above; [None] would be a NULL in a NOT NULL column *)
      cwd ← refuse (ok_or (from_utf8 record.(fs_cwd)) storage_error);
      let row := new_session_row record cwd in
      _ ← execute (insert_row (fun db => db.(front).(frontend_sessions)) set_frontend_sessions
            (fun db => check_frontend_session id row && is_some (db.(sessions) !! row.(fr_session_id)))
            (fun _ row' => session_clash row row') id row);
      mret record
  end.

(** [ORDER BY updated_at DESC, external_session_id ASC]. *)
Definition newest_session (l r : str * FrontendSessionRow) : comparison :=
  then_with (cmp r.2.(fr_updated_at) l.2.(fr_updated_at)) (cmp l.1 r.1).

Definition list_frontend_sessions (frontend : Frontend) (limit : Z) (db : Database) :
    result CarlError (list FrontendSessionRecord) :=
  _ ← reject (negb (within 1 64 limit))
        (CarlError.Validation (lit "frontend session list limit must be between 1 and 64"));
  let external_ids :=
    fst <$> take (Z.to_nat limit)
      (sort_by newest_session
         (filter (fun p : str * FrontendSessionRow => p.2.(fr_frontend) = Frontend_as_str frontend)
            (map_to_list db.(front).(frontend_sessions)))) in
  try_fold (fun records external_id =>
      r ← get_frontend_session external_id db;
      r ← ok_or r (storage_invariant (lit "listed frontend session disappeared"));
      Ok (records ++ [r])) [] external_ids.

Definition get_frontend_session_for_session (session_id : SessionId) (db : Database) :
    result CarlError (option FrontendSessionRecord) :=
  match filter (fun p : str * FrontendSessionRow => p.2.(fr_session_id) = uuid_to_string session_id)
          (map_to_list db.(front).(frontend_sessions)) with
  | [] => Ok None
  | (external, _) :: _ => get_frontend_session external db
  end.

Definition configure_frontend_session (external_session_id : ExternalSessionId)
    (provider_thread_id : option ProviderThreadId) (permission_mode : PermissionMode)
    (updated_at : Z) : Conn FrontendSessionRecord :=
  let now := format_timestamp updated_at in
  changed ← execute (update_row (fun db => db.(front).(frontend_sessions)) set_frontend_sessions
    (fun _ => check_frontend_session external_session_id)
    (fun row => text_le row.(fr_updated_at) now)
    (fun row =>
       {| fr_frontend := row.(fr_frontend); fr_session_id := row.(fr_session_id);
          fr_client_name := row.(fr_client_name); fr_protocol_version := row.(fr_protocol_version);
          fr_cwd := row.(fr_cwd); fr_channel_id := row.(fr_channel_id);
          fr_provider_thread_id := provider_thread_id;
          fr_permission_mode := stored_permission_mode permission_mode;
          fr_permission_profile := permission_profile_str permission_mode;
          fr_created_at := row.(fr_created_at); fr_updated_at := now |})
    external_session_id);
  _ ← refuse (reject (negb (changed =? 1)) (policy_error (lit "frontend session is unavailable")));
  written_session external_session_id (lit "configured frontend session disappeared").

(** [channel_id = .., updated_at = ..]. *)
Definition with_channel (channel_id : option str) (updated_at : str) (row : FrontendSessionRow) :
    FrontendSessionRow :=
  {| fr_frontend := row.(fr_frontend); fr_session_id := row.(fr_session_id);
     fr_client_name := row.(fr_client_name); fr_protocol_version := row.(fr_protocol_version);
     fr_cwd := row.(fr_cwd); fr_channel_id := channel_id;
     fr_provider_thread_id := row.(fr_provider_thread_id);
     fr_permission_mode := row.(fr_permission_mode);
     fr_permission_profile := row.(fr_permission_profile);
     fr_created_at := row.(fr_created_at); fr_updated_at := updated_at |}.

(** [channel_id IS NULL OR channel_id = ?2], and [COALESCE(channel_id, ?2)]. *)
Definition channel_free (channel_id : ChannelId) (row : FrontendSessionRow) : bool :=
  holds row.(fr_channel_id) (fun c => c =?? channel_id).
Definition take_channel (channel_id : ChannelId) (now : str) (row : FrontendSessionRow) :
    FrontendSessionRow :=
  with_channel (Some (default channel_id row.(fr_channel_id))) now row.

Definition attach_frontend_channel (external_session_id : ExternalSessionId) (channel_id : ChannelId)
    (updated_at : Z) : Conn FrontendSessionRecord :=
  let now := format_timestamp updated_at in
  changed ← execute (update_row (fun db => db.(front).(frontend_sessions)) set_frontend_sessions
    (fun db row => check_frontend_session external_session_id row
                   && negb (other_clash external_session_id row db))
    (fun row => channel_free channel_id row && text_le row.(fr_updated_at) now)
    (take_channel channel_id now) external_session_id);
  _ ← refuse (reject (negb (changed =? 1))
        (policy_error (lit "frontend channel binding conflicts with durable state")));
  written_session external_session_id (lit "attached frontend session disappeared").

(** The other sessions of the channel: [external_session_id != ?1 AND frontend = 'buzz'
    AND channel_id = ?2 AND cwd = ?3]. *)
Definition prior_branch (external_session_id : str) (channel_id : ChannelId) (cwd : str)
    (p : str * FrontendSessionRow) : bool :=
  negb (p.1 =?? external_session_id) && (p.2.(fr_frontend) =?? lit "buzz")
  && (p.2.(fr_channel_id) =?? Some channel_id) && (p.2.(fr_cwd) =?? cwd).

Definition release_channel (external_session_id : str) (channel_id : ChannelId) (cwd now : str)
    (db : Database) : Database :=
  let f := db.(front) in
  let prior id := match f.(frontend_sessions) !! id with
                  | Some row => prior_branch external_session_id channel_id cwd (id, row)
                  | None => false
                  end in
  set_frontend_sessions
    (map_imap (fun id row => Some (if prior id then with_channel None now row else row))
       f.(frontend_sessions))
    (set_remote_codes
       (filter (fun p : str * RemoteCodeRow => prior p.2.(rc_external_session_id) = false)
          f.(remote_codes)) db).

Definition claim_frontend_channel (external_session_id : ExternalSessionId) (channel_id : ChannelId)
    (updated_at : Z) : Conn FrontendSessionRecord :=
  target ← read (get_frontend_session external_session_id);
  target ← refuse (ok_or target (storage_invariant (lit "frontend channel target is missing")));
  _ ← refuse (reject (negb (target.(fs_frontend) =?? Frontend.Buzz)
                      || is_some_and target.(fs_channel_id) (fun existing => negb (existing =?? channel_id))
                      || (updated_at <? target.(fs_updated_at)))
                (policy_error (lit "frontend channel claim conflicts with durable state")));
  (* [target.cwd] was read from text *)
  cwd ← refuse (ok_or (from_utf8 target.(fs_cwd)) storage_error);
  let now := format_timestamp updated_at in
  _ ← execute (
    _ ← modify (release_channel external_session_id channel_id cwd now);
    changed ← update_row (fun db => db.(front).(frontend_sessions)) set_frontend_sessions
      (fun db row => check_frontend_session external_session_id row
                     && negb (other_clash external_session_id row db))
      (channel_free channel_id) (take_channel channel_id now) external_session_id;
    from (reject (negb (changed =? 1)) (policy_error (lit "frontend channel claim was not applied"))));
  written_session external_session_id (lit "claimed frontend session disappeared").

(** ** Trusted owners *)

Definition owner_from_row (frontend : Frontend) (workspace_digest : Sha256Digest)
    (row : TrustedOwnerRow) : result CarlError TrustedFrontendOwnerRecord :=
  stored ← map_err (fun _ => invalid_stored_value (lit "permission mode"))
             (PermissionMode_from_str row.(ow_permission_mode));
  _ ← reject (negb (profile stored =?? PermissionProfile.FullAccess))
        (invalid_stored_value (lit "trusted frontend permission mode"));
  actor_id ← ActorId_parse row.(ow_actor_id);
  channel_id ← transpose ChannelId_try_from row.(ow_channel_id);
  created_at ← parse_timestamp row.(ow_created_at);
  updated_at ← parse_timestamp row.(ow_updated_at);
  Ok {| to_frontend := frontend; to_actor_id := actor_id; to_channel_id := channel_id;
        to_workspace_digest := workspace_digest; to_permission_mode := PermissionMode.FullAccess;
        to_created_at := created_at; to_updated_at := updated_at |}.

Definition owner_key (frontend : Frontend) (workspace_digest : Sha256Digest) : str * str :=
  (Frontend_as_str frontend, Sha256Digest_display workspace_digest).

Definition get_trusted_frontend_owner (frontend : Frontend) (workspace_digest : Sha256Digest)
    (db : Database) : result CarlError (option TrustedFrontendOwnerRecord) :=
  transpose (owner_from_row frontend workspace_digest)
    (db.(front).(trusted_frontend_owners) !! owner_key frontend workspace_digest).

Definition get_trusted_frontend_owner_for_workspace (frontend : Frontend) (workspace : PathBuf)
    (db : Database) : result CarlError (option TrustedFrontendOwnerRecord) :=
  _ ← validate_canonical_frontend_cwd workspace;
  get_trusted_frontend_owner frontend (frontend_workspace_digest workspace) db.

Definition written_owner (frontend : Frontend) (workspace_digest : Sha256Digest) (detail : str) :
    Conn TrustedFrontendOwnerRecord :=
  read (fun db => r ← get_trusted_frontend_owner frontend workspace_digest db;
                  ok_or r (storage_invariant detail)).

(** [INSERT .. ON CONFLICT DO UPDATE] sets every column. *)
Definition upsert_owner (key : str * str) (row : TrustedOwnerRow) : Tx unit := fun db =>
  if check_trusted_owner key row
  then Ok (set_trusted_owners (<[key := row]> db.(front).(trusted_frontend_owners)) db, tt)
  else Err storage_error.

Definition trust_frontend_owner (input : TrustedFrontendOwnerInput) : Conn TrustedFrontendOwnerRecord :=
  _ ← refuse (reject (negb (input.(ti_frontend) =?? Frontend.Buzz)
                      || negb (profile input.(ti_permission_mode) =?? PermissionProfile.FullAccess))
                (policy_error (lit "trusted frontend owner binding is invalid")));
  _ ← refuse (validate_canonical_frontend_cwd input.(ti_workspace));
  let workspace_digest := frontend_workspace_digest input.(ti_workspace) in
  let insert : Conn TrustedFrontendOwnerRecord :=
    let now := format_timestamp input.(trusted_at) in
    _ ← execute (upsert_owner (owner_key input.(ti_frontend) workspace_digest)
          {| ow_actor_id := input.(ti_actor_id); ow_channel_id := None;
             ow_permission_mode := stored_permission_mode input.(ti_permission_mode);
             ow_created_at := now; ow_updated_at := now |});
    written_owner input.(ti_frontend) workspace_digest (lit "trusted frontend owner disappeared") in
  existing ← read (get_trusted_frontend_owner input.(ti_frontend) workspace_digest);
  match existing with
  | Some existing =>
      if (existing.(to_actor_id) =?? input.(ti_actor_id))
         && (profile existing.(to_permission_mode) =?? PermissionProfile.FullAccess)
      then mret existing else insert
  | None => insert
  end.

(** The first channel an owner speaks on becomes theirs. *)
Definition fill_channel (key : str * str) (actor_id : ActorId) (channel_id : ChannelId)
    (admitted_at : Z) : Tx unit :=
  let now := format_timestamp admitted_at in
  changed ← update_row (fun db => db.(front).(trusted_frontend_owners)) set_trusted_owners
    (fun _ => check_trusted_owner key)
    (fun row => (row.(ow_actor_id) =?? actor_id) && negb (is_some row.(ow_channel_id))
                && text_le row.(ow_updated_at) now)
    (fun row => {| ow_actor_id := row.(ow_actor_id); ow_channel_id := Some channel_id;
                   ow_permission_mode := row.(ow_permission_mode);
                   ow_created_at := row.(ow_created_at); ow_updated_at := now |})
    key;
  from (reject (negb (changed =? 1)) (policy_error (lit "trusted frontend channel fill was not applied"))).

Definition admit_trusted_frontend_owner (frontend : Frontend) (actor_id : ActorId)
    (channel_id : ChannelId) (workspace : PathBuf) (admitted_at : Z) :
    Conn TrustedFrontendOwnerRecord :=
  _ ← refuse (reject (negb (frontend =?? Frontend.Buzz))
                (policy_error (lit "trusted frontend admission is invalid")));
  _ ← refuse (validate_canonical_frontend_cwd workspace);
  let workspace_digest := frontend_workspace_digest workspace in
  existing ← read (get_trusted_frontend_owner frontend workspace_digest);
  existing ← refuse (ok_or existing (policy_error (lit "trusted frontend owner is unavailable")));
  _ ← refuse (reject (negb (existing.(to_actor_id) =?? actor_id)
                      || is_some_and existing.(to_channel_id) (fun bound => negb (bound =?? channel_id)))
                (policy_error (lit "trusted frontend owner does not match")));
  _ ← (if is_some existing.(to_channel_id) then mret tt
       else execute (fill_channel (owner_key frontend workspace_digest) actor_id channel_id admitted_at));
  written_owner frontend workspace_digest (lit "admitted trusted frontend owner disappeared").

(** The transaction of [admit_trusted_frontend_message]. *)
Definition admit_event (frontend : Frontend) (actor_id : ActorId) (channel_id : ChannelId)
    (workspace_digest : Sha256Digest) (event_id : str) (admitted_at : Z) : Tx unit :=
  let key := owner_key frontend workspace_digest in
  binding ← query (fun db => ok_or (db.(front).(trusted_frontend_owners) !! key)
    (policy_error (lit "trusted frontend owner is unavailable")));
  _ ← from (reject (negb (binding.(ow_actor_id) =?? actor_id)
                    || is_some_and binding.(ow_channel_id) (fun bound => negb (bound =?? channel_id)))
              (policy_error (lit "trusted frontend owner does not match")));
  _ ← (if is_some binding.(ow_channel_id) then mret tt
       else fill_channel key actor_id channel_id admitted_at);
  let row :=
    {| te_frontend := key.1; te_workspace_digest := key.2; te_actor_id := actor_id;
       te_channel_id := channel_id; te_admitted_at := format_timestamp admitted_at |} in
  tx_map_err (fun _ => policy_error (lit "trusted frontend event is unavailable"))
    (insert_row (fun db => db.(front).(trusted_frontend_events)) set_trusted_events
       (fun db => check_trusted_event event_id row
                  && is_some (db.(front).(trusted_frontend_owners) !! key))
       (fun _ _ => false) event_id row).

Definition admit_trusted_frontend_message (frontend : Frontend) (actor_id : ActorId)
    (channel_id : ChannelId) (workspace : PathBuf) (event_id : str) (admitted_at : Z) :
    Conn TrustedFrontendOwnerRecord :=
  _ ← refuse (reject (negb (is_hex64 event_id)) (policy_error (lit "trusted frontend event is invalid")));
  _ ← refuse (validate_canonical_frontend_cwd workspace);
  let workspace_digest := frontend_workspace_digest workspace in
  _ ← execute (admit_event frontend actor_id channel_id workspace_digest event_id admitted_at);
  written_owner frontend workspace_digest (lit "admitted trusted frontend owner disappeared").

Definition recover_or_admit_trusted_frontend_message (frontend : Frontend) (actor_id : ActorId)
    (channel_id : ChannelId) (workspace : PathBuf) (event_id : str) (admitted_at : Z) :
    Conn TrustedFrontendOwnerRecord :=
  _ ← refuse (validate_canonical_frontend_cwd workspace);
  let workspace_digest := frontend_workspace_digest workspace in
  existing ← read (fun db => Ok (db.(front).(trusted_frontend_events) !! event_id));
  match existing with
  | Some stored =>
      _ ← refuse (reject (negb (stored.(te_frontend) =?? Frontend_as_str frontend)
                          || negb (stored.(te_workspace_digest) =?? Sha256Digest_display workspace_digest)
                          || negb (stored.(te_actor_id) =?? actor_id)
                          || negb (stored.(te_channel_id) =?? channel_id))
                    (policy_error (lit "trusted frontend event binding is invalid")));
      written_owner frontend workspace_digest (lit "trusted frontend event lost its owner")
  | None => admit_trusted_frontend_message frontend actor_id channel_id workspace event_id admitted_at
  end.

(** ** Receipts of task controls *)

(** The column [id] of a task as text, and its session and revision. *)
Definition task_row (task_id : TaskId) (db : Database) : result CarlError AgentTaskRow :=
  ok_or (db.(agent_tasks) !! uuid_to_string task_id)
    (policy_error (lit "task control task is unavailable")).

Definition receipt_key (input : TaskControlMutationInput) : str * str :=
  (input.(tm_external_session_id), input.(tm_idempotency_key)).

(** [task_id = ?3 AND method = ?4 AND request_digest = ?5]. *)
Definition same_control (input : TaskControlMutationInput) (row : ControlReceiptRow) : bool :=
  (row.(xr_task_id) =?? uuid_to_string input.(tm_task_id))
  && (row.(xr_method) =?? input.(tm_method))
  && (row.(xr_request_digest) =?? Sha256Digest_display input.(tm_request_digest)).

Definition claim_of (row : ControlReceiptRow) : result CarlError TaskControlMutationClaim :=
  match row.(xr_result_json), row.(xr_failure_code) with
  | None, None =>
      if row.(xr_state) =?? lit "pending" then Ok TaskControlMutationClaim.Pending
      else Err (storage_invariant (lit "task control receipt state is invalid"))
  | Some result_json, failure_code =>
      if row.(xr_state) =?? lit "completed"
      then Ok (TaskControlMutationClaim.Replay result_json failure_code)
      else Err (storage_invariant (lit "task control receipt state is invalid"))
  | None, Some _ => Err (storage_invariant (lit "task control receipt state is invalid"))
  end.

Definition claim_task_control_mutation (input : TaskControlMutationInput) :
    Conn TaskControlMutationClaim :=
  _ ← refuse (reject (is_empty input.(tm_idempotency_key) || (128 <? len input.(tm_idempotency_key))
                      || existsb is_control input.(tm_idempotency_key)
                      || negb (input.(tm_method) ∈? (lit <$> ["resume"; "cancel"; "steer"]%string))
                      || (65536 <? len input.(tm_result_json))
                      || negb (json_object input.(tm_result_json)))
                (policy_error (lit "task control mutation binding is invalid")));
  execute (
    session ← query (fun db => ok_or (db.(front).(frontend_sessions) !! input.(tm_external_session_id))
      (policy_error (lit "task control frontend session is unavailable")));
    task ← query (task_row input.(tm_task_id));
    _ ← from (reject (negb (session.(fr_session_id) =?? task.(at_session_id)))
                (policy_error (lit "task control session binding is invalid")));
    existing ← query (fun db => Ok (db.(front).(task_control_receipts) !! receipt_key input));
    match existing with
    | Some row =>
        _ ← from (reject (negb (same_control input row))
                    (policy_error (lit "task control idempotency key was rebound")));
        from (claim_of row)
    | None =>
        receipt_count ← query (fun db => Ok (Zlen
          (filter (fun p : str * str * ControlReceiptRow => p.1.1 = input.(tm_external_session_id))
             (map_to_list db.(front).(task_control_receipts)))));
        _ ← from (reject (256 <=? receipt_count)
                    (policy_error (lit "task control receipt capacity is exhausted")));
        let row :=
          {| xr_task_id := uuid_to_string input.(tm_task_id); xr_method := input.(tm_method);
             xr_request_digest := Sha256Digest_display input.(tm_request_digest);
             xr_state := lit "pending"; starting_revision := task.(at_revision);
             applied_revision := None; xr_result_json := None;
             xr_created_at := format_timestamp input.(tm_created_at);
             xr_completed_at := None; xr_failure_code := None |} in
        _ ← insert_row (fun db => db.(front).(task_control_receipts)) set_control_receipts
              (fun db => check_control_receipt (receipt_key input) row
                         && is_some (db.(front).(frontend_sessions) !! input.(tm_external_session_id))
                         && is_some (db.(agent_tasks) !! row.(xr_task_id)))
              (fun _ _ => false) (receipt_key input) row;
        mret TaskControlMutationClaim.Fresh
    end).

(** [UPDATE task_control_receipts SET state = 'completed', ..]. *)
Definition settle_receipt (input : TaskControlMutationInput) (failure_code : option Z) : Tx Z :=
  task ← query (task_row input.(tm_task_id));
  update_row (fun db => db.(front).(task_control_receipts)) set_control_receipts
    (fun _ => check_control_receipt (receipt_key input))
    (fun row => same_control input row && (row.(xr_state) =?? lit "pending")
                && (row.(starting_revision) <=? task.(at_revision)))
    (fun row =>
       {| xr_task_id := row.(xr_task_id); xr_method := row.(xr_method);
          xr_request_digest := row.(xr_request_digest); xr_state := lit "completed";
          starting_revision := row.(starting_revision); applied_revision := Some task.(at_revision);
          xr_result_json := Some input.(tm_result_json); xr_created_at := row.(xr_created_at);
          xr_completed_at := Some (format_timestamp input.(tm_created_at));
          xr_failure_code := match failure_code with Some c => Some c | None => row.(xr_failure_code) end |})
    (receipt_key input).

(** The result that is stored under the same binding. *)
Definition completed_result (input : TaskControlMutationInput) (db : Database) : option str :=
  row ← db.(front).(task_control_receipts) !! receipt_key input;
  if same_control input row && (row.(xr_state) =?? lit "completed") then row.(xr_result_json) else None.

Definition complete_task_control_mutation (input : TaskControlMutationInput) : Conn str :=
  execute (
    changed ← settle_receipt input None;
    if negb (changed =? 1)
    then query (fun db => ok_or (completed_result input db)
           (policy_error (lit "task control mutation was not durably applied")))
    else mret input.(tm_result_json)).

Definition fail_task_control_mutation (input : TaskControlMutationInput) (failure_code : Z) : Conn unit :=
  _ ← refuse (reject (negb (failure_code =? -32602))
                (policy_error (lit "task control failure code is invalid")));
  execute (
    changed ← settle_receipt input (Some failure_code);
    from (require_projection_change changed (lit "task control failure was not durably recorded"))).

End Front.
