(* ===== verification/Approvals.v ===== *)
(** * Approvals, remote codes and deliveries

    [src/storage/repository.rs]: an effect that needs the owner is proposed as a
    bound approval, which names the session, the turn, the tool call, the actor
    and the digest of the request, and expires.  A remote code is the short text
    the owner answers with; consuming it and resolving its approval is one
    transaction.  A delivery records what became of a message to a frontend. *)
From stdpp Require Import base gmap sets list sorting strings.
From S2P Require Import Prelude Ord Text Settings Policy TaskTypes Events Database TaskStore Front.
From Stdlib Require Import ZArith Lia.
#[local] Open Scope list_scope.
#[local] Open Scope Z_scope.

(** [chrono::TimeDelta::minutes(15)], in nanoseconds. *)
Definition MAX_BOUND_APPROVAL_LIFETIME : Z := 15 * 60 * 1000000000.
Definition MAX_APPROVAL_SUMMARY_BYTES : Z := 4 * 1024.

Module RemoteCodeKind.
Inductive RemoteCodeKind : Set := Approval | BypassConfirmation.
End RemoteCodeKind.
Abbreviation RemoteCodeKind := RemoteCodeKind.RemoteCodeKind.
#[export] Instance RemoteCodeKind_eq_dec : EqDecision RemoteCodeKind.
Proof. solve_decision. Defined.

Definition RemoteCodeKind_as_str (kind : RemoteCodeKind) : str :=
  match kind with
  | RemoteCodeKind.Approval => lit "approval"
  | RemoteCodeKind.BypassConfirmation => lit "bypass_confirmation"
  end.
Definition RemoteCodeKind_parse (value : str) : result CarlError RemoteCodeKind :=
  if value =?? lit "approval" then Ok RemoteCodeKind.Approval
  else if value =?? lit "bypass_confirmation" then Ok RemoteCodeKind.BypassConfirmation
  else Err (invalid_stored_value (lit "remote code kind")).

Record NewRemoteCode := {
  nr_display_code : str;
  nr_kind : RemoteCodeKind;
  nr_external_session_id : ExternalSessionId;
  nr_approval_id : option ApprovalId;
  nr_provider_request_id : option ProviderRequestId;
  nr_request_digest : Sha256Digest;
  nr_actor_id : ActorId;
  nr_created_at : Z;
  nr_expires_at : Z
}.

Record RemoteCodeClaim := {
  cl_display_code : str;
  cl_kind : RemoteCodeKind;
  cl_external_session_id : ExternalSessionId;
  cl_approval_id : option ApprovalId;
  cl_provider_request_id : option ProviderRequestId;
  cl_request_digest : Sha256Digest;
  cl_actor_id : ActorId;
  cl_now : Z
}.

Record RemoteCodeRecord := {
  rd_code_digest : Sha256Digest;
  rd_kind : RemoteCodeKind;
  rd_external_session_id : ExternalSessionId;
  rd_approval_id : option ApprovalId;
  rd_provider_request_id : option ProviderRequestId;
  rd_request_digest : Sha256Digest;
  rd_actor_id : ActorId;
  rd_created_at : Z;
  rd_expires_at : Z;
  rd_consumed_at : option Z
}.

Module DeliveryKind.
Inductive DeliveryKind : Set := Message | Diff.
End DeliveryKind.
Abbreviation DeliveryKind := DeliveryKind.DeliveryKind.
Definition DeliveryKind_as_str (kind : DeliveryKind) : str :=
  match kind with DeliveryKind.Message => lit "message" | DeliveryKind.Diff => lit "diff" end.
Definition DeliveryKind_parse (value : str) : result CarlError DeliveryKind :=
  if value =?? lit "message" then Ok DeliveryKind.Message
  else if value =?? lit "diff" then Ok DeliveryKind.Diff
  else Err (invalid_stored_value (lit "delivery kind")).

Module DeliveryStatus.
Inductive DeliveryStatus : Set := Pending | Delivered | Failed | Uncertain.
End DeliveryStatus.
Abbreviation DeliveryStatus := DeliveryStatus.DeliveryStatus.
#[export] Instance DeliveryStatus_eq_dec : EqDecision DeliveryStatus.
Proof. solve_decision. Defined.
Definition DeliveryStatus_as_str (status : DeliveryStatus) : str :=
  match status with
  | DeliveryStatus.Pending => lit "pending"
  | DeliveryStatus.Delivered => lit "delivered"
  | DeliveryStatus.Failed => lit "failed"
  | DeliveryStatus.Uncertain => lit "uncertain"
  end.
Definition DeliveryStatus_parse (value : str) : result CarlError DeliveryStatus :=
  if value =?? lit "pending" then Ok DeliveryStatus.Pending
  else if value =?? lit "delivered" then Ok DeliveryStatus.Delivered
  else if value =?? lit "failed" then Ok DeliveryStatus.Failed
  else if value =?? lit "uncertain" then Ok DeliveryStatus.Uncertain
  else Err (invalid_stored_value (lit "delivery status")).

Record NewDelivery := {
  nd_action_digest : Sha256Digest;
  nd_external_session_id : ExternalSessionId;
  nd_kind : DeliveryKind;
  nd_created_at : Z
}.

Record DeliveryRecord := {
  de_action_digest : Sha256Digest;
  de_external_session_id : ExternalSessionId;
  de_kind : DeliveryKind;
  de_status : DeliveryStatus;
  de_created_at : Z;
  de_updated_at : Z
}.

Module ApprovalStatus.
Inductive ApprovalStatus : Set := Pending | Allowed | Denied | Expired.
End ApprovalStatus.
Abbreviation ApprovalStatus := ApprovalStatus.ApprovalStatus.
#[export] Instance ApprovalStatus_eq_dec : EqDecision ApprovalStatus.
Proof. solve_decision. Defined.

Definition ApprovalStatus_as_str (status : ApprovalStatus) : str :=
  match status with
  | ApprovalStatus.Pending => lit "pending"
  | ApprovalStatus.Allowed => lit "allowed"
  | ApprovalStatus.Denied => lit "denied"
  | ApprovalStatus.Expired => lit "expired"
  end.
Definition ApprovalStatus_parse (value : str) : result CarlError ApprovalStatus :=
  if value =?? lit "pending" then Ok ApprovalStatus.Pending
  else if value =?? lit "allowed" then Ok ApprovalStatus.Allowed
  else if value =?? lit "denied" then Ok ApprovalStatus.Denied
  else if value =?? lit "expired" then Ok ApprovalStatus.Expired
  else Err (invalid_stored_value (lit "approval status")).

Record ApprovalRecord := {
  ar_id : ApprovalId;
  ar_session_id : SessionId;
  ar_tool_call_id : ToolCallId;
  ar_summary : str;
  ar_status : ApprovalStatus;
  ar_created_at : Z;
  ar_resolved_at : option Z
}.

Record BoundApprovalBinding := {
  bb_session_id : SessionId;
  bb_turn_id : TurnId;
  bb_tool_call_id : ToolCallId;
  bb_actor_id : ActorId;
  bb_request_digest : Sha256Digest;
  bb_created_at : Z;
  bb_expires_at : Z
}.
#[export] Instance BoundApprovalBinding_eq_dec : EqDecision BoundApprovalBinding.
Proof. solve_decision. Defined.

Definition invalid_lifetime (created_at expires_at : Z) : bool :=
  let lifetime := expires_at - created_at in
  (lifetime <=? 0) || (MAX_BOUND_APPROVAL_LIFETIME <? lifetime).

Definition BoundApprovalBinding_new (session_id : SessionId) (turn_id : TurnId)
    (tool_call_id : ToolCallId) (actor_id : ActorId) (request_digest : Sha256Digest)
    (created_at expires_at : Z) : result CarlError BoundApprovalBinding :=
  _ ← reject (invalid_lifetime created_at expires_at)
        (CarlError.Validation (lit "bound approval lifetime is invalid"));
  Ok {| bb_session_id := session_id; bb_turn_id := turn_id; bb_tool_call_id := tool_call_id;
        bb_actor_id := actor_id; bb_request_digest := request_digest; bb_created_at := created_at;
        bb_expires_at := expires_at |}.

Record BoundApprovalRecord := {
  ba_id : ApprovalId;
  ba_binding : BoundApprovalBinding;
  ba_summary : str;
  ba_status : ApprovalStatus;
  ba_resolved_at : option Z;
  ba_consumed_at : option Z
}.

Record ConsumedApproval := {
  ca_id : ApprovalId;
  ca_request_digest : Sha256Digest;
  ca_consumed_at : Z
}.

(** ** Constraints *)

Definition statuses : list str := lit <$> ["pending"; "allowed"; "denied"; "expired"]%string.

Definition check_remote_code (id : str) (row : RemoteCodeRow) : bool :=
  (sql_length id =? 64)
  && holds row.(rc_provider_request_id) (fun r => within 1 128 (sql_length r))
  && (sql_length row.(rc_request_digest) =? 64)
  && within 1 128 (sql_length row.(rc_actor_id))
  && (if row.(rc_kind) =?? lit "approval"
      then is_some row.(rc_approval_id) && is_some row.(rc_provider_request_id)
      else (row.(rc_kind) =?? lit "bypass_confirmation")
           && negb (is_some row.(rc_approval_id)) && negb (is_some row.(rc_provider_request_id))).

Definition check_delivery (id : str) (row : DeliveryRow) : bool :=
  (sql_length id =? 64)
  && (row.(dv_kind) ∈? (lit <$> ["message"; "diff"]%string))
  && (row.(dv_status) ∈? (lit <$> ["pending"; "delivered"; "failed"; "uncertain"]%string)).

Section Approvals.
Context `{Uuids, Chrono}.
Context (sha256 : bytes -> Sha256Digest).

(** ** Approvals of a session *)

Definition create_approval (session_id : SessionId) (id : ApprovalId) (tool_call_id : ToolCallId)
    (summary : str) (now : Z) : Conn ApprovalRecord :=
  let row :=
    {| av_session_id := uuid_to_string session_id; av_tool_call_id := uuid_to_string tool_call_id;
       av_summary := summary; av_status := ApprovalStatus_as_str ApprovalStatus.Pending;
       av_created_at := format_timestamp now; av_resolved_at := None |} in
  _ ← execute (insert_row (fun db => db.(front).(approvals)) set_approvals
        (fun db => (row.(av_status) ∈? statuses) && is_some (db.(sessions) !! row.(av_session_id)))
        (fun _ _ => false) (uuid_to_string id) row);
  mret {| ar_id := id; ar_session_id := session_id; ar_tool_call_id := tool_call_id;
          ar_summary := summary; ar_status := ApprovalStatus.Pending; ar_created_at := now;
          ar_resolved_at := None |}.

Definition approval_from_row (id : ApprovalId) (row : ApprovalRow) : result CarlError ApprovalRecord :=
  session_id ← parse_id row.(av_session_id);
  tool_call_id ← parse_id row.(av_tool_call_id);
  status ← ApprovalStatus_parse row.(av_status);
  created_at ← parse_timestamp row.(av_created_at);
  resolved_at ← transpose parse_timestamp row.(av_resolved_at);
  Ok {| ar_id := id; ar_session_id := session_id; ar_tool_call_id := tool_call_id;
        ar_summary := row.(av_summary); ar_status := status; ar_created_at := created_at;
        ar_resolved_at := resolved_at |}.

Definition get_approval (id : ApprovalId) (db : Database) : result CarlError (option ApprovalRecord) :=
  transpose (approval_from_row id) (db.(front).(approvals) !! uuid_to_string id).

(** The two messages name the approval; the name is left out. *)
Definition resolve_approval (id : ApprovalId) (status : ApprovalStatus) (now : Z) : Conn ApprovalRecord :=
  _ ← refuse (reject (status =?? ApprovalStatus.Pending)
        (CarlError.Storage (lit "a pending approval must resolve to a terminal status")));
  updated ← execute (update_row (fun db => db.(front).(approvals)) set_approvals
    (fun _ row => row.(av_status) ∈? statuses)
    (fun row => row.(av_status) =?? lit "pending")
    (fun row => {| av_session_id := row.(av_session_id); av_tool_call_id := row.(av_tool_call_id);
                   av_summary := row.(av_summary); av_status := ApprovalStatus_as_str status;
                   av_created_at := row.(av_created_at);
                   av_resolved_at := Some (format_timestamp now) |})
    (uuid_to_string id));
  _ ← refuse (reject (negb (updated =? 1)) (CarlError.Storage (lit "is missing or already resolved")));
  read (fun db => r ← get_approval id db; ok_or r (CarlError.Storage (lit "disappeared after resolution"))).

(** ** Bound approvals *)

Definition create_bound_approval (id : ApprovalId) (binding : BoundApprovalBinding) (summary : str) :
    Conn BoundApprovalRecord :=
  _ ← refuse (reject (is_empty (trim summary) || (MAX_APPROVAL_SUMMARY_BYTES <? len summary))
        (CarlError.Validation (lit "bound approval summary is invalid")));
  let row :=
    {| bv_session_id := uuid_to_string binding.(bb_session_id);
       bv_turn_id := uuid_to_string binding.(bb_turn_id);
       bv_tool_call_id := uuid_to_string binding.(bb_tool_call_id);
       bv_actor_id := binding.(bb_actor_id);
       bv_request_digest := Sha256Digest_display binding.(bb_request_digest);
       bv_summary := summary; bv_status := lit "pending";
       bv_created_at := format_timestamp binding.(bb_created_at);
       bv_expires_at := format_timestamp binding.(bb_expires_at);
       bv_resolved_at := None; bv_consumed_at := None |} in
  _ ← execute (insert_row (fun db => db.(front).(bound_approvals)) set_bound_approvals
        (fun db => is_some (db.(sessions) !! row.(bv_session_id)))
        (fun _ _ => false) (uuid_to_string id) row);
  mret {| ba_id := id; ba_binding := binding; ba_summary := summary;
          ba_status := ApprovalStatus.Pending; ba_resolved_at := None; ba_consumed_at := None |}.

Definition bound_record_from_raw (id : ApprovalId) (raw : BoundApprovalRow) :
    result CarlError BoundApprovalRecord :=
  created_at ← parse_timestamp raw.(bv_created_at);
  expires_at ← parse_timestamp raw.(bv_expires_at);
  actor_id ← map_err (fun _ => storage_invariant (lit "stored bound approval actor is invalid"))
               (ActorId_parse raw.(bv_actor_id));
  request_digest ← map_err (fun _ => storage_invariant (lit "stored bound approval digest is invalid"))
                     (Sha256Digest_parse raw.(bv_request_digest));
  session_id ← parse_id raw.(bv_session_id);
  turn_id ← parse_id raw.(bv_turn_id);
  tool_call_id ← parse_id raw.(bv_tool_call_id);
  binding ← map_err (fun _ => storage_invariant (lit "stored bound approval lifetime is invalid"))
    (BoundApprovalBinding_new session_id turn_id tool_call_id actor_id request_digest created_at
       expires_at);
  status ← ApprovalStatus_parse raw.(bv_status);
  resolved_at ← transpose parse_timestamp raw.(bv_resolved_at);
  consumed_at ← transpose parse_timestamp raw.(bv_consumed_at);
  Ok {| ba_id := id; ba_binding := binding; ba_summary := raw.(bv_summary); ba_status := status;
        ba_resolved_at := resolved_at; ba_consumed_at := consumed_at |}.

Definition get_bound_approval (id : ApprovalId) (db : Database) :
    result CarlError (option BoundApprovalRecord) :=
  transpose (bound_record_from_raw id) (db.(front).(bound_approvals) !! uuid_to_string id).

(** [SET status, resolved_at, consumed_at]. *)
Definition with_outcome (status : str) (resolved_at consumed_at : option str) (row : BoundApprovalRow) :
    BoundApprovalRow :=
  {| bv_session_id := row.(bv_session_id); bv_turn_id := row.(bv_turn_id);
     bv_tool_call_id := row.(bv_tool_call_id); bv_actor_id := row.(bv_actor_id);
     bv_request_digest := row.(bv_request_digest); bv_summary := row.(bv_summary);
     bv_status := status; bv_created_at := row.(bv_created_at); bv_expires_at := row.(bv_expires_at);
     bv_resolved_at := resolved_at; bv_consumed_at := consumed_at |}.

Definition update_approval (where_ : BoundApprovalRow -> bool) (f : BoundApprovalRow -> BoundApprovalRow)
    (id : ApprovalId) : Tx Z :=
  update_row (fun db => db.(front).(bound_approvals)) set_bound_approvals
    (fun _ row => row.(bv_status) ∈? statuses) where_ f (uuid_to_string id).

Definition resolve_bound_approval (id : ApprovalId) (status : ApprovalStatus) (resolved_at : Z) :
    Conn BoundApprovalRecord :=
  _ ← refuse (reject (status =?? ApprovalStatus.Pending)
        (CarlError.Validation (lit "a bound approval must resolve to a terminal status")));
  existing ← read (get_bound_approval id);
  existing ← refuse (ok_or existing (policy_error (lit "bound approval is unavailable")));
  let binding := existing.(ba_binding) in
  _ ← refuse (reject ((resolved_at <? binding.(bb_created_at))
                      || ((binding.(bb_expires_at) <=? resolved_at) && negb (status =?? ApprovalStatus.Expired)))
        (policy_error (lit "bound approval resolution is outside its lifetime")));
  changed ← execute (update_approval
    (fun row => (row.(bv_status) =?? lit "pending") && negb (is_some row.(bv_consumed_at)))
    (fun row => with_outcome (ApprovalStatus_as_str status) (Some (format_timestamp resolved_at))
                  row.(bv_consumed_at) row)
    id);
  _ ← refuse (reject (negb (changed =? 1)) (policy_error (lit "bound approval is unavailable")));
  read (fun db => r ← get_bound_approval id db;
                  ok_or r (storage_invariant (lit "bound approval disappeared after resolution"))).

(** The row of an approval in a transaction. *)
Definition stored_approval (id : ApprovalId) : Tx BoundApprovalRecord :=
  raw ← query (fun db => ok_or (db.(front).(bound_approvals) !! uuid_to_string id)
          (policy_error (lit "bound approval is unavailable")));
  from (bound_record_from_raw id raw).

(** An approval that has expired is recorded as such, and the transaction that
    records it commits. *)
Definition consume_bound_approval (id : ApprovalId) (binding : BoundApprovalBinding) (now : Z) :
    Conn ConsumedApproval :=
  consumed ← execute (
    record ← stored_approval id;
    _ ← from (reject (negb (record.(ba_binding) =?? binding)
                      || negb (record.(ba_status) =?? ApprovalStatus.Allowed)
                      || is_some record.(ba_consumed_at))
                (policy_error (lit "bound approval does not match the request")));
    if record.(ba_binding).(bb_expires_at) <=? now
    then
      _ ← update_approval (fun row => negb (is_some row.(bv_consumed_at)))
            (fun row => with_outcome (lit "expired")
               (Some (default (format_timestamp now) row.(bv_resolved_at))) row.(bv_consumed_at) row) id;
      mret (Err (policy_error (lit "bound approval has expired")))
    else
      let consumed_at := format_timestamp now in
      changed ← update_approval
        (fun row => (row.(bv_status) =?? lit "allowed") && negb (is_some row.(bv_consumed_at))
                    && text_lt consumed_at row.(bv_expires_at))
        (fun row => with_outcome row.(bv_status) row.(bv_resolved_at) (Some consumed_at) row) id;
      _ ← from (reject (negb (changed =? 1)) (policy_error (lit "bound approval is unavailable")));
      mret (Ok {| ca_id := id; ca_request_digest := binding.(bb_request_digest);
                  ca_consumed_at := now |}));
  refuse consumed.

(** ** Remote codes *)

Definition validate_remote_display_code (display_code : str) : result CarlError unit :=
  reject (negb (len display_code =? 10) || negb (forallb is_hex_byte (utf8 display_code)))
    (CarlError.Validation (lit "remote display code is invalid")).

Definition validate_remote_code_shape (kind : RemoteCodeKind) (approval_id : option ApprovalId)
    (provider_request_id : option ProviderRequestId) : result CarlError unit :=
  let valid :=
    match kind with
    | RemoteCodeKind.Approval => is_some approval_id && is_some provider_request_id
    | RemoteCodeKind.BypassConfirmation =>
        negb (is_some approval_id) && negb (is_some provider_request_id)
    end in
  reject (negb valid) (CarlError.Validation (lit "remote code binding is invalid")).

Definition remote_code_digest (display_code : str) : Sha256Digest :=
  sha256 (utf8 (lit "carl.remote-code.v1") ++ [0] ++ utf8 display_code).

Definition create_remote_code (input : NewRemoteCode) : Conn RemoteCodeRecord :=
  _ ← refuse (validate_remote_display_code input.(nr_display_code));
  _ ← refuse (validate_remote_code_shape input.(nr_kind) input.(nr_approval_id)
                input.(nr_provider_request_id));
  _ ← refuse (reject (invalid_lifetime input.(nr_created_at) input.(nr_expires_at))
        (CarlError.Validation (lit "remote code lifetime is invalid")));
  let code_digest := remote_code_digest input.(nr_display_code) in
  let id := Sha256Digest_display code_digest in
  let row :=
    {| rc_kind := RemoteCodeKind_as_str input.(nr_kind);
       rc_external_session_id := input.(nr_external_session_id);
       rc_approval_id := uuid_to_string <$> input.(nr_approval_id);
       rc_provider_request_id := input.(nr_provider_request_id);
       rc_request_digest := Sha256Digest_display input.(nr_request_digest);
       rc_actor_id := input.(nr_actor_id);
       rc_created_at := format_timestamp input.(nr_created_at);
       rc_expires_at := format_timestamp input.(nr_expires_at); rc_consumed_at := None |} in
  _ ← execute (insert_row (fun db => db.(front).(remote_codes)) set_remote_codes
        (fun db => check_remote_code id row
                   && is_some (db.(front).(frontend_sessions) !! row.(rc_external_session_id))
                   && holds row.(rc_approval_id) (fun a => is_some (db.(front).(bound_approvals) !! a)))
        (fun _ _ => false) id row);
  mret {| rd_code_digest := code_digest; rd_kind := input.(nr_kind);
          rd_external_session_id := input.(nr_external_session_id);
          rd_approval_id := input.(nr_approval_id);
          rd_provider_request_id := input.(nr_provider_request_id);
          rd_request_digest := input.(nr_request_digest); rd_actor_id := input.(nr_actor_id);
          rd_created_at := input.(nr_created_at); rd_expires_at := input.(nr_expires_at);
          rd_consumed_at := None |}.

Definition code_from_row (code_digest : Sha256Digest) (row : RemoteCodeRow) :
    result CarlError RemoteCodeRecord :=
  kind ← RemoteCodeKind_parse row.(rc_kind);
  external_session_id ← ExternalSessionId_try_from row.(rc_external_session_id);
  approval_id ← transpose parse_id row.(rc_approval_id);
  provider_request_id ← transpose ProviderRequestId_try_from row.(rc_provider_request_id);
  request_digest ← Sha256Digest_parse row.(rc_request_digest);
  actor_id ← ActorId_parse row.(rc_actor_id);
  created_at ← parse_timestamp row.(rc_created_at);
  expires_at ← parse_timestamp row.(rc_expires_at);
  consumed_at ← transpose parse_timestamp row.(rc_consumed_at);
  Ok {| rd_code_digest := code_digest; rd_kind := kind;
        rd_external_session_id := external_session_id; rd_approval_id := approval_id;
        rd_provider_request_id := provider_request_id; rd_request_digest := request_digest;
        rd_actor_id := actor_id; rd_created_at := created_at; rd_expires_at := expires_at;
        rd_consumed_at := consumed_at |}.

(** [get_remote_code], and [load_remote_code] in a transaction. *)
Definition get_remote_code (code_digest : Sha256Digest) (db : Database) :
    result CarlError (option RemoteCodeRecord) :=
  transpose (code_from_row code_digest)
    (db.(front).(remote_codes) !! Sha256Digest_display code_digest).

(** The code the claim is about, when it is the claim's and can still be used. *)
Definition claimed_code (claim : RemoteCodeClaim) (code_digest : Sha256Digest) : Tx RemoteCodeRecord :=
  existing ← query (get_remote_code code_digest);
  existing ← from (ok_or existing (policy_error (lit "remote code is unavailable")));
  _ ← from (reject (negb (existing.(rd_kind) =?? claim.(cl_kind))
                    || negb (existing.(rd_external_session_id) =?? claim.(cl_external_session_id))
                    || negb (existing.(rd_approval_id) =?? claim.(cl_approval_id))
                    || negb (existing.(rd_provider_request_id) =?? claim.(cl_provider_request_id))
                    || negb (existing.(rd_request_digest) =?? claim.(cl_request_digest))
                    || negb (existing.(rd_actor_id) =?? claim.(cl_actor_id))
                    || is_some existing.(rd_consumed_at)
                    || (existing.(rd_expires_at) <=? claim.(cl_now)))
              (policy_error (lit "remote code does not match the request")));
  mret existing.

(** [UPDATE remote_codes SET consumed_at = ?2 WHERE ..]. *)
Definition consume_code (code_digest : Sha256Digest) (now : Z) : Tx Z :=
  let timestamp := format_timestamp now in
  update_row (fun db => db.(front).(remote_codes)) set_remote_codes
    (fun _ => check_remote_code (Sha256Digest_display code_digest))
    (fun row => negb (is_some row.(rc_consumed_at)) && text_lt timestamp row.(rc_expires_at))
    (fun row =>
       {| rc_kind := row.(rc_kind); rc_external_session_id := row.(rc_external_session_id);
          rc_approval_id := row.(rc_approval_id);
          rc_provider_request_id := row.(rc_provider_request_id);
          rc_request_digest := row.(rc_request_digest); rc_actor_id := row.(rc_actor_id);
          rc_created_at := row.(rc_created_at); rc_expires_at := row.(rc_expires_at);
          rc_consumed_at := Some timestamp |})
    (Sha256Digest_display code_digest).

Definition consume_remote_code (claim : RemoteCodeClaim) : Conn RemoteCodeRecord :=
  _ ← refuse (validate_remote_display_code claim.(cl_display_code));
  _ ← refuse (validate_remote_code_shape claim.(cl_kind) claim.(cl_approval_id)
                claim.(cl_provider_request_id));
  let code_digest := remote_code_digest claim.(cl_display_code) in
  _ ← execute (
    _ ← claimed_code claim code_digest;
    changed ← consume_code code_digest claim.(cl_now);
    from (reject (negb (changed =? 1)) (policy_error (lit "remote code is unavailable"))));
  read (fun db => r ← get_remote_code code_digest db;
                  ok_or r (storage_invariant (lit "consumed remote code disappeared"))).

Definition consumed_record (existing : RemoteCodeRecord) (now : Z) : RemoteCodeRecord :=
  {| rd_code_digest := existing.(rd_code_digest); rd_kind := existing.(rd_kind);
     rd_external_session_id := existing.(rd_external_session_id);
     rd_approval_id := existing.(rd_approval_id);
     rd_provider_request_id := existing.(rd_provider_request_id);
     rd_request_digest := existing.(rd_request_digest); rd_actor_id := existing.(rd_actor_id);
     rd_created_at := existing.(rd_created_at); rd_expires_at := existing.(rd_expires_at);
     rd_consumed_at := Some now |}.

Definition consume_remote_bound_approval (claim : RemoteCodeClaim) (binding : BoundApprovalBinding)
    (status : ApprovalStatus) : Conn RemoteCodeRecord :=
  _ ← refuse (validate_remote_display_code claim.(cl_display_code));
  _ ← refuse (validate_remote_code_shape claim.(cl_kind) claim.(cl_approval_id)
                claim.(cl_provider_request_id));
  _ ← refuse (reject (negb (claim.(cl_kind) =?? RemoteCodeKind.Approval)
                      || negb (status ∈? [ApprovalStatus.Allowed; ApprovalStatus.Denied])
                      || negb (claim.(cl_request_digest) =?? binding.(bb_request_digest))
                      || negb (claim.(cl_actor_id) =?? binding.(bb_actor_id))
                      || (binding.(bb_expires_at) <=? claim.(cl_now)))
                (policy_error (lit "remote approval claim is invalid")));
  approval_id ← refuse (ok_or claim.(cl_approval_id)
                  (policy_error (lit "remote approval has no bound approval")));
  let code_digest := remote_code_digest claim.(cl_display_code) in
  execute (
    existing ← claimed_code claim code_digest;
    approval ← stored_approval approval_id;
    _ ← from (reject (negb (approval.(ba_binding) =?? binding)
                      || negb (approval.(ba_status) =?? ApprovalStatus.Pending)
                      || is_some approval.(ba_consumed_at)
                      || (approval.(ba_binding).(bb_expires_at) <=? claim.(cl_now)))
                (policy_error (lit "bound approval does not match the request")));
    let timestamp := format_timestamp claim.(cl_now) in
    code_changed ← consume_code code_digest claim.(cl_now);
    approval_changed ← update_approval
      (fun row => (row.(bv_status) =?? lit "pending") && negb (is_some row.(bv_consumed_at))
                  && text_lt timestamp row.(bv_expires_at))
      (fun row => with_outcome (ApprovalStatus_as_str status) (Some timestamp)
                    (if status =?? ApprovalStatus.Allowed then Some timestamp else None) row)
      approval_id;
    _ ← from (reject (negb (code_changed =? 1) || negb (approval_changed =? 1))
                (policy_error (lit "remote approval is unavailable")));
    mret (consumed_record existing claim.(cl_now))).

(** ** Deliveries *)

Definition create_delivery (input : NewDelivery) : Conn DeliveryRecord :=
  let id := Sha256Digest_display input.(nd_action_digest) in
  let now := format_timestamp input.(nd_created_at) in
  let row :=
    {| dv_external_session_id := input.(nd_external_session_id);
       dv_kind := DeliveryKind_as_str input.(nd_kind); dv_status := lit "pending";
       dv_created_at := now; dv_updated_at := now |} in
  _ ← execute (insert_row (fun db => db.(front).(frontend_deliveries)) set_deliveries
        (fun db => check_delivery id row
                   && is_some (db.(front).(frontend_sessions) !! row.(dv_external_session_id)))
        (fun _ _ => false) id row);
  mret {| de_action_digest := input.(nd_action_digest);
          de_external_session_id := input.(nd_external_session_id); de_kind := input.(nd_kind);
          de_status := DeliveryStatus.Pending; de_created_at := input.(nd_created_at);
          de_updated_at := input.(nd_created_at) |}.

Definition delivery_from_row (action_digest : Sha256Digest) (row : DeliveryRow) :
    result CarlError DeliveryRecord :=
  external_session_id ← ExternalSessionId_try_from row.(dv_external_session_id);
  kind ← DeliveryKind_parse row.(dv_kind);
  status ← DeliveryStatus_parse row.(dv_status);
  created_at ← parse_timestamp row.(dv_created_at);
  updated_at ← parse_timestamp row.(dv_updated_at);
  Ok {| de_action_digest := action_digest; de_external_session_id := external_session_id;
        de_kind := kind; de_status := status; de_created_at := created_at;
        de_updated_at := updated_at |}.

Definition get_delivery (action_digest : Sha256Digest) (db : Database) :
    result CarlError (option DeliveryRecord) :=
  transpose (delivery_from_row action_digest)
    (db.(front).(frontend_deliveries) !! Sha256Digest_display action_digest).

Definition transition_delivery (action_digest : Sha256Digest) (status : DeliveryStatus)
    (updated_at : Z) : Conn DeliveryRecord :=
  _ ← refuse (reject (status =?? DeliveryStatus.Pending)
        (CarlError.Validation (lit "delivery must transition to a terminal status")));
  let now := format_timestamp updated_at in
  changed ← execute (update_row (fun db => db.(front).(frontend_deliveries)) set_deliveries
    (fun _ => check_delivery (Sha256Digest_display action_digest))
    (fun row => (row.(dv_status) =?? lit "pending") && text_le row.(dv_created_at) now)
    (fun row => {| dv_external_session_id := row.(dv_external_session_id); dv_kind := row.(dv_kind);
                   dv_status := DeliveryStatus_as_str status; dv_created_at := row.(dv_created_at);
                   dv_updated_at := now |})
    (Sha256Digest_display action_digest));
  _ ← refuse (reject (negb (changed =? 1))
        (policy_error (lit "delivery is unavailable or already terminal")));
  read (fun db => r ← get_delivery action_digest db;
                  ok_or r (storage_invariant (lit "transitioned delivery disappeared"))).

End Approvals.
