(* ===== verification/Grants.v ===== *)
(** * Histories of the frontends

    What the operations of [Front] and [Approvals] guarantee over any sequence of
    them, mixed with any other writes to the store: an approval is granted once,
    an event of a trusted owner is admitted once and answered again only to who sent it,
    and a task control is fresh once, pending until it is settled, and then replays what
    it did. *)
From stdpp Require Import base gmap sets list sorting strings.
From S2P Require Import Prelude Ord Text Settings Policy TaskTypes Events Database TaskStore Front Approvals.
From Stdlib Require Import ZArith Lia.
#[local] Open Scope list_scope.
#[local] Open Scope Z_scope.

(** ** What a computation keeps *)

Definition tx_keeps {A} (P : Database -> Prop) (tx : Tx A) : Prop :=
  forall db db' a, tx db = Ok (db', a) -> P db -> P db'.
Definition conn_keeps {A} (P : Database -> Prop) (m : Conn A) : Prop :=
  forall db, P db -> P (m db).1.

Create HintDb keeps.

Section Keeps.
Context (P : Database -> Prop).

Lemma tx_keeps_bind {A B} (tx : Tx A) (k : A -> Tx B) :
  tx_keeps P tx -> (forall a, tx_keeps P (k a)) -> tx_keeps P (tx ≫= k).
Proof. intros Ht Hk db db' b Hb HP. apply tx_bind_ok in Hb as (db1 & a & H1 & H2).
  apply (Hk a _ _ _ H2), (Ht _ _ _ H1 HP).
Qed.
Lemma tx_keeps_from {A} (r : result CarlError A) : tx_keeps P (from r).
Proof. intros db db' a Hr. by apply from_ok in Hr as [_ ->]. Qed.
Lemma tx_keeps_query {A} (f : Database -> result CarlError A) : tx_keeps P (query f).
Proof. intros db db' a Hr. by apply query_ok in Hr as [_ ->]. Qed.
Lemma tx_keeps_ret {A} (a : A) : tx_keeps P (mret a).
Proof. intros db db' a' Hr. by apply mret_ok in Hr as [_ ->]. Qed.
Lemma tx_keeps_modify f : (forall db, P db -> P (f db)) -> tx_keeps P (modify f).
Proof. intros Hf db db' u Hr. apply modify_ok in Hr as ->. apply Hf. Qed.
Lemma tx_keeps_map_err {A} f (tx : Tx A) : tx_keeps P tx -> tx_keeps P (tx_map_err f tx).
Proof. intros Ht db db' a Hr. apply map_err_ok in Hr. by apply (Ht _ _ _ Hr). Qed.
Lemma tx_keeps_if {A} (b : bool) (tx1 tx2 : Tx A) :
  tx_keeps P tx1 -> tx_keeps P tx2 -> tx_keeps P (if b then tx1 else tx2).
Proof. by destruct b. Qed.
Lemma tx_keeps_insert {K V} `{Countable K} (table : Database -> gmap K V) set allowed clash k v :
  (forall db, table db !! k = None -> P db -> P (set (<[k := v]> (table db)) db)) ->
  tx_keeps P (insert_row table set allowed clash k v).
Proof. intros Hs db db' u Hr. apply insert_row_ok in Hr as (Hk & _ & _ & ->). by apply Hs. Qed.
Lemma tx_keeps_update {K V} `{Countable K} (table : Database -> gmap K V) set allowed where_ f k :
  (forall db v, table db !! k = Some v -> where_ v = true -> P db ->
     P (set (<[k := f v]> (table db)) db)) ->
  tx_keeps P (update_row table set allowed where_ f k).
Proof.
  intros Hs db db' n Hr. apply update_row_ok in Hr as [(v & Hk & Hw & _ & _ & ->)|(_ & _ & ->)]; [|done].
  by apply Hs.
Qed.

Lemma keeps_bind {A B} (m : Conn A) (k : A -> Conn B) :
  conn_keeps P m -> (forall a, conn_keeps P (k a)) -> conn_keeps P (m ≫= k).
Proof.
  intros Hm Hk db HP. specialize (Hm db HP). unfold mbind, conn_bind.
  destruct (m db) as [db' [a|e]]; [by apply Hk|done].
Qed.
Lemma keeps_execute {A} (tx : Tx A) : tx_keeps P tx -> conn_keeps P (execute tx).
Proof.
  intros Ht db HP. unfold execute, transaction. destruct (tx db) as [[db' a]|e] eqn:Hr; [|done].
  by apply (Ht _ _ _ Hr).
Qed.
Lemma keeps_read {A} (f : Database -> result CarlError A) : conn_keeps P (read f).
Proof. by intros db HP. Qed.
Lemma keeps_refuse {A} (r : result CarlError A) : conn_keeps P (refuse r).
Proof. by intros db HP. Qed.
Lemma keeps_ret {A} (a : A) : conn_keeps P (mret a).
Proof. by intros db HP. Qed.

End Keeps.

#[export] Hint Resolve tx_keeps_from tx_keeps_query tx_keeps_ret keeps_read keeps_refuse keeps_ret : keeps.

(** Follows the code of an operation; what is left are its writes. *)
Ltac keeps_step :=
  match goal with
  | |- conn_keeps _ (mbind _ _) => apply keeps_bind; [|intros ?]
  | |- conn_keeps _ (execute _) => apply keeps_execute
  | |- conn_keeps _ (match ?x with _ => _ end) => destruct x
  | |- tx_keeps _ (mbind _ _) => apply tx_keeps_bind; [|intros ?]
  | |- tx_keeps _ (match ?x with _ => _ end) => destruct x
  | |- tx_keeps _ (tx_map_err _ _) => apply tx_keeps_map_err
  | |- tx_keeps _ (insert_row _ _ _ _ _ _) => apply tx_keeps_insert; intros ? ?
  | |- tx_keeps _ (update_row _ _ _ _ _ _) => apply tx_keeps_update; intros ? ? ? ?
  | |- tx_keeps _ (modify _) => apply tx_keeps_modify; intros ?
  | |- _ => solve [auto with keeps]
  end.
Ltac keeps := repeat (keeps_step; cbv zeta).

(** ** Histories *)

Inductive FrontOp : Type :=
| OpBindSession (input : NewFrontendSession)
| OpConfigureSession (id : ExternalSessionId) (thread : option ProviderThreadId)
    (mode : PermissionMode) (at_ : Z)
| OpAttachChannel (id : ExternalSessionId) (channel : ChannelId) (at_ : Z)
| OpClaimChannel (id : ExternalSessionId) (channel : ChannelId) (at_ : Z)
| OpTrustOwner (input : TrustedFrontendOwnerInput)
| OpAdmitOwner (frontend : Frontend) (actor : ActorId) (channel : ChannelId) (workspace : PathBuf) (at_ : Z)
| OpAdmitMessage (frontend : Frontend) (actor : ActorId) (channel : ChannelId) (workspace : PathBuf)
    (event_id : str) (at_ : Z)
| OpRecoverMessage (frontend : Frontend) (actor : ActorId) (channel : ChannelId) (workspace : PathBuf)
    (event_id : str) (at_ : Z)
| OpClaimControl (input : TaskControlMutationInput)
| OpCompleteControl (input : TaskControlMutationInput)
| OpFailControl (input : TaskControlMutationInput) (code : Z)
| OpCreateApproval (session : SessionId) (id : ApprovalId) (call : ToolCallId) (summary : str) (now : Z)
| OpResolveApproval (id : ApprovalId) (status : ApprovalStatus) (now : Z)
| OpCreateBound (id : ApprovalId) (binding : BoundApprovalBinding) (summary : str)
| OpResolveBound (id : ApprovalId) (status : ApprovalStatus) (at_ : Z)
| OpConsumeBound (id : ApprovalId) (binding : BoundApprovalBinding) (now : Z)
| OpCreateCode (input : NewRemoteCode)
| OpConsumeCode (claim : RemoteCodeClaim)
| OpConsumeRemote (claim : RemoteCodeClaim) (binding : BoundApprovalBinding) (status : ApprovalStatus)
| OpCreateDelivery (input : NewDelivery)
| OpTransitionDelivery (digest : Sha256Digest) (status : DeliveryStatus) (at_ : Z)
| OpOther (f : Database -> Database).

(** Who sends an event, as the store writes it. *)
Record Speaker := { sp_frontend : str; sp_workspace : str; sp_actor : str; sp_channel : str }.

(** What an operation gives its caller leave to do.  A message that the store had
    already admitted is [Recovered], one that it admits now is an [Admission]. *)
Inductive Leave : Type :=
| Grant (id : ApprovalId)
| Admission (event_id : str) (speaker : Speaker) (owner : TrustedFrontendOwnerRecord)
| Recovered (event_id : str) (speaker : Speaker) (owner : TrustedFrontendOwnerRecord)
| FreshControl (key : str * str)
| PendingControl (key : str * str)
| ReplayControl (key : str * str) (result_json : str) (failure_code : option Z)
| NoLeave.

Section History.
Context `{Uuids, Chrono}.
Context (sha256 : bytes -> Sha256Digest).
Context (canonicalize : PathBuf -> option PathBuf) (is_dir : PathBuf -> bool).
Context (json_object : str -> bool).

Definition speaker (frontend : Frontend) (actor : ActorId) (channel : ChannelId) (workspace : PathBuf) : Speaker :=
  {| sp_frontend := Frontend_as_str frontend;
     sp_workspace := Sha256Digest_display (frontend_workspace_digest sha256 workspace);
     sp_actor := actor; sp_channel := channel |}.

Definition then_nothing {A} (m : Conn A) : Conn Leave := _ ← m; mret NoLeave.

(** [OpOther] is any write to the tables of the store proper. *)
Definition apply_op (op : FrontOp) : Conn Leave :=
  match op with
  | OpBindSession input => then_nothing (bind_frontend_session canonicalize is_dir input)
  | OpConfigureSession id thread mode at_ => then_nothing (configure_frontend_session id thread mode at_)
  | OpAttachChannel id channel at_ => then_nothing (attach_frontend_channel id channel at_)
  | OpClaimChannel id channel at_ => then_nothing (claim_frontend_channel id channel at_)
  | OpTrustOwner input => then_nothing (trust_frontend_owner sha256 canonicalize is_dir input)
  | OpAdmitOwner frontend actor channel workspace at_ =>
      then_nothing (admit_trusted_frontend_owner sha256 canonicalize is_dir frontend actor channel
                      workspace at_)
  | OpAdmitMessage frontend actor channel workspace event_id at_ =>
      owner ← admit_trusted_frontend_message sha256 canonicalize is_dir frontend actor channel workspace
                event_id at_;
      mret (Admission event_id (speaker frontend actor channel workspace) owner)
  | OpRecoverMessage frontend actor channel workspace event_id at_ =>
      existing ← read (fun db => Ok (db.(front).(trusted_frontend_events) !! event_id));
      owner ← recover_or_admit_trusted_frontend_message sha256 canonicalize is_dir frontend actor channel
                workspace event_id at_;
      mret (if is_some existing then Recovered event_id (speaker frontend actor channel workspace) owner
            else Admission event_id (speaker frontend actor channel workspace) owner)
  | OpClaimControl input =>
      claim ← claim_task_control_mutation json_object input;
      mret match claim with
           | TaskControlMutationClaim.Fresh => FreshControl (receipt_key input)
           | TaskControlMutationClaim.Pending => PendingControl (receipt_key input)
           | TaskControlMutationClaim.Replay result code => ReplayControl (receipt_key input) result code
           end
  | OpCompleteControl input => then_nothing (complete_task_control_mutation input)
  | OpFailControl input code => then_nothing (fail_task_control_mutation input code)
  | OpCreateApproval session id call summary now =>
      then_nothing (create_approval session id call summary now)
  | OpResolveApproval id status now => then_nothing (resolve_approval id status now)
  | OpCreateBound id binding summary => then_nothing (create_bound_approval id binding summary)
  | OpResolveBound id status at_ => then_nothing (resolve_bound_approval id status at_)
  | OpConsumeBound id binding now => _ ← consume_bound_approval id binding now; mret (Grant id)
  | OpCreateCode input => then_nothing (create_remote_code sha256 input)
  | OpConsumeCode claim => then_nothing (consume_remote_code sha256 claim)
  | OpConsumeRemote claim binding status =>
      record ← consume_remote_bound_approval sha256 claim binding status;
      mret match status, record.(rd_approval_id) with
           | ApprovalStatus.Allowed, Some id => Grant id
           | _, _ => NoLeave
           end
  | OpCreateDelivery input => then_nothing (create_delivery input)
  | OpTransitionDelivery digest status at_ => then_nothing (transition_delivery digest status at_)
  | OpOther f => execute (_ ← modify (fun db => set_front db.(front) (f db)); mret NoLeave)
  end.

(** The leaves a history gives, in order; an operation that fails gives none. *)
Fixpoint history (ops : list FrontOp) (db : Database) : list Leave :=
  match ops with
  | [] => []
  | op :: ops =>
      let '(db', r) := apply_op op db in
      match r with Ok leave => leave :: history ops db' | Err _ => history ops db' end
  end.

(** A leave that is given only while [spent] does not hold, and makes it hold, is
    given once. *)
Lemma once (spent : Database -> Prop) (hit : Leave -> bool) ops db :
  (forall op, conn_keeps spent (apply_op op)) ->
  (forall op db db' leave, apply_op op db = (db', Ok leave) -> hit leave = true ->
     ~ spent db /\ spent db') ->
  (length (List.filter hit (history ops db)) <= 1)%nat
  /\ (spent db -> List.filter hit (history ops db) = []).
Proof.
  intros Hk Hh. revert db. induction ops as [|op ops IH]; intros db; simpl; [split; [lia|done]|].
  destruct (apply_op op db) as [db' r] eqn:Ho.
  assert (spent db -> spent db') as Hs by (intros HP; specialize (Hk op db HP); by rewrite Ho in Hk).
  destruct (IH db') as [IH1 IH2].
  destruct r as [leave|e]; [|split; [done|auto]]. simpl. destruct (hit leave) eqn:Hl; [|split; [done|auto]].
  destruct (Hh _ _ _ _ Ho Hl) as [Hn Hy]. rewrite (IH2 Hy). split; [done|done].
Qed.

(** What the operations write to the tables of the frontends.  A property that survives
    these writes survives any operation on them. *)
Record survives (P : Database -> Prop) : Prop := {
  s_sessions t db : P db -> P (set_frontend_sessions t db);
  s_owners t db : P db -> P (set_trusted_owners t db);
  s_approvals t db : P db -> P (set_approvals t db);
  s_codes t db : P db -> P (set_remote_codes t db);
  s_deliveries t db : P db -> P (set_deliveries t db);
  s_event id row db : db.(front).(trusted_frontend_events) !! id = None -> P db ->
    P (set_trusted_events (<[id := row]> db.(front).(trusted_frontend_events)) db);
  s_claimed key row db : db.(front).(task_control_receipts) !! key = None -> P db ->
    P (set_control_receipts (<[key := row]> db.(front).(task_control_receipts)) db);
  s_settled key row row' db : db.(front).(task_control_receipts) !! key = Some row ->
    row.(xr_state) = lit "pending" -> P db ->
    P (set_control_receipts (<[key := row']> db.(front).(task_control_receipts)) db);
  s_proposed id row db : db.(front).(bound_approvals) !! id = None -> P db ->
    P (set_bound_approvals (<[id := row]> db.(front).(bound_approvals)) db);
  s_resolved id row row' db : db.(front).(bound_approvals) !! id = Some row ->
    row.(bv_consumed_at) = None -> P db ->
    P (set_bound_approvals (<[id := row']> db.(front).(bound_approvals)) db)
}.

(** A property of the tables of the frontends. *)
Definition of_front (P : Database -> Prop) : Prop := forall db db', db.(front) = db'.(front) -> P db -> P db'.
Definition is_other (op : FrontOp) : bool := match op with OpOther _ => true | _ => false end.

Section Survives.
Context (P : Database -> Prop) (HP : survives P).

Lemma update_approval_keeps where_ f k :
  (forall row, where_ row = true -> row.(bv_consumed_at) = None) -> tx_keeps P (update_approval where_ f k).
Proof. intros Hw. apply tx_keeps_update. intros db row Hk Hr. apply (s_resolved _ HP _ _ _ _ Hk (Hw _ Hr)). Qed.

Lemma settle_receipt_keeps input code : tx_keeps P (settle_receipt input code).
Proof.
  unfold settle_receipt. keeps. intros Hp. eapply (s_settled _ HP); [done| |done]. by carl_simpl.
Qed.

Lemma upsert_keeps key row : tx_keeps P (upsert_owner key row).
Proof. intros db db' u. unfold upsert_owner. case_match; [|done]. intros [= <-]. apply (s_owners _ HP). Qed.

Lemma release_keeps id channel cwd now db : P db -> P (release_channel id channel cwd now db).
Proof. intros Hd. apply (s_sessions _ HP), (s_codes _ HP), Hd. Qed.

Lemma op_keeps op : is_other op = false \/ of_front P -> conn_keeps P (apply_op op).
Proof.
  intros Hop. destruct HP. destruct op; simpl in Hop |- *; unfold then_nothing.
  all: unfold bind_frontend_session, configure_frontend_session, attach_frontend_channel,
    claim_frontend_channel, trust_frontend_owner, admit_trusted_frontend_owner,
    recover_or_admit_trusted_frontend_message, admit_trusted_frontend_message, claim_task_control_mutation, complete_task_control_mutation,
    fail_task_control_mutation, create_approval, resolve_approval,
    create_bound_approval, resolve_bound_approval, consume_bound_approval, create_remote_code,
    consume_remote_code, consume_remote_bound_approval, create_delivery, transition_delivery,
    written_session, written_owner, stored_approval, claimed_code, consume_code, admit_event,
    fill_channel; keeps.
  all: first [apply settle_receipt_keeps | apply upsert_keeps | apply release_keeps | by auto
             | apply update_approval_keeps; intros row Hr; by carl_simpl | idtac].
  destruct Hop as [|Hop]; [done|]. by apply Hop.
Qed.

Lemma op_keeps_front op : of_front P -> conn_keeps P (apply_op op).
Proof. intros Hf. apply op_keeps. by right. Qed.

End Survives.

(** Survival of what a table says, when the other tables change. *)
Ltac survive := split; try done; simpl; intros.

(** *** An approval is granted once *)

Definition spent_approval (id : str) (db : Database) : Prop :=
  exists row, db.(front).(bound_approvals) !! id = Some row /\ is_Some row.(bv_consumed_at).

Lemma spent_survives id : survives (spent_approval id).
Proof.
  survive; unfold spent_approval in *; simpl.
  - destruct H2 as (row' & Hl & Hs). exists row'. split; [|done]. by rewrite lookup_insert_ne by congruence.
  - destruct H3 as (row'' & Hl & Hs). destruct (decide (id0 = id)) as [->|Hne].
    + simplify_eq. rewrite H2 in Hs. by destruct Hs.
    + exists row''. by rewrite lookup_insert_ne.
Qed.

(** The row that an update of one approval changed. *)
Lemma update_approval_ok where_ f id db db' n :
  update_approval where_ f id db = Ok (db', n) -> negb (n =? 1) = false ->
  exists row, db.(front).(bound_approvals) !! uuid_to_string id = Some row /\ where_ row = true
    /\ db' = set_bound_approvals (<[uuid_to_string id := f row]> db.(front).(bound_approvals)) db.
Proof. unfold update_approval. intros Hu Hn. tx_simpl; eauto. Qed.

Lemma consume_bound_inv id binding now db db' c :
  consume_bound_approval id binding now db = (db', Ok c) ->
  exists row record, db.(front).(bound_approvals) !! uuid_to_string id = Some row
    /\ bound_record_from_raw id row = Ok record
    /\ record.(ba_binding) = binding /\ record.(ba_status) = ApprovalStatus.Allowed
    /\ now < binding.(bb_expires_at) /\ row.(bv_consumed_at) = None
    /\ db' = set_bound_approvals
          (<[uuid_to_string id := with_outcome row.(bv_status) row.(bv_resolved_at)
               (Some (format_timestamp now)) row]> db.(front).(bound_approvals)) db.
Proof.
  unfold consume_bound_approval, stored_approval. intros Hc. conn_simpl.
  destruct (_ <=? now) eqn:Hx in *; conn_simpl.
  match goal with Hu : update_approval _ _ _ _ = _, Hn : (_ =? 1) = true |- _ =>
    apply update_approval_ok in Hu as (row & Hr & Hw & ->); [|by rewrite Hn] end.
  simplify_eq. carl_simpl. eexists _, _. split_and!; try done. lia.
Qed.

(** [consume_remote_bound_approval] resolves the approval that the claim names, when
    the code is the claim's and the approval is pending with the caller's binding; both
    are used up together, and nothing else changes. *)
Lemma consume_remote_inv claim binding status db db' record :
  consume_remote_bound_approval sha256 claim binding status db = (db', Ok record) ->
  let code_digest := remote_code_digest sha256 claim.(cl_display_code) in
  let now := format_timestamp claim.(cl_now) in
  exists id code row approval,
    claim.(cl_approval_id) = Some id /\ record = consumed_record code claim.(cl_now)
    /\ status ∈ [ApprovalStatus.Allowed; ApprovalStatus.Denied]
    /\ get_remote_code code_digest db = Ok (Some code)
    /\ code.(rd_kind) = RemoteCodeKind.Approval /\ code.(rd_approval_id) = Some id
    /\ code.(rd_external_session_id) = claim.(cl_external_session_id)
    /\ code.(rd_provider_request_id) = claim.(cl_provider_request_id)
    /\ code.(rd_request_digest) = binding.(bb_request_digest)
    /\ code.(rd_actor_id) = binding.(bb_actor_id)
    /\ code.(rd_consumed_at) = None /\ claim.(cl_now) < code.(rd_expires_at)
    /\ db.(front).(bound_approvals) !! uuid_to_string id = Some row
    /\ bound_record_from_raw id row = Ok approval
    /\ approval.(ba_binding) = binding /\ approval.(ba_status) = ApprovalStatus.Pending
    /\ row.(bv_consumed_at) = None /\ claim.(cl_now) < binding.(bb_expires_at)
    /\ exists code_row code_row',
         db.(front).(remote_codes) !! Sha256Digest_display code_digest = Some code_row
         /\ code_row'.(rc_consumed_at) = Some now
         /\ db' = set_bound_approvals
              (<[uuid_to_string id := with_outcome (ApprovalStatus_as_str status) (Some now)
                   (if status =?? ApprovalStatus.Allowed then Some now else None) row]>
                 db.(front).(bound_approvals))
              (set_remote_codes (<[Sha256Digest_display code_digest := code_row']>
                 db.(front).(remote_codes)) db).
Proof.
  unfold consume_remote_bound_approval, claimed_code, stored_approval, consume_code.
  intros Hc. conn_simpl.
  match goal with Hu : update_approval _ _ _ _ = _, Hn : (_ =? 1) = true |- _ =>
    apply update_approval_ok in Hu as (row & Hr & Hw & ->); [|by rewrite Hn] end.
  simpl in Hr. simplify_eq. carl_simpl. eexists _, _, _, _. split_and!; try done; try congruence; try lia.
  eexists _, _. split_and!; [done| |reflexivity]. done.
Qed.

Definition grants (id : ApprovalId) (leave : Leave) : bool :=
  match leave with Grant id' => id' =? id | _ => false end.

Lemma grant_spends op db db' leave id :
  apply_op op db = (db', Ok leave) -> grants id leave = true ->
  ~ spent_approval (uuid_to_string id) db /\ spent_approval (uuid_to_string id) db'.
Proof.
  intros Ho Hg. destruct leave as [id'| | | | | |]; try done. apply Z.eqb_eq in Hg as ->.
  assert (forall row db', db.(front).(bound_approvals) !! uuid_to_string id = Some row ->
    row.(bv_consumed_at) = None -> spent_approval (uuid_to_string id) db' ->
    ~ spent_approval (uuid_to_string id) db /\ spent_approval (uuid_to_string id) db') as Hspend.
  { intros row db1 Hr Hn Hs. split; [|done]. intros (row' & Hr' & Hs'). simplify_eq.
    rewrite Hn in Hs'. by destruct Hs'. }
  destruct op; simpl in Ho; unfold then_nothing in Ho; conn_simpl; try by case_match.
  - match goal with Hc : consume_bound_approval _ _ _ _ = _ |- _ =>
      apply consume_bound_inv in Hc as (row & r & Hr & _ & _ & _ & _ & Hn & ->) end.
    apply (Hspend row _ Hr Hn). eexists. simpl. by rewrite lookup_insert_eq.
  - match goal with Hc : consume_remote_bound_approval _ _ _ _ _ = _ |- _ =>
      apply consume_remote_inv in Hc
        as (i & code & row & approval & Hi & -> & Hst & _ & _ & Hci & _ & _ & _ & _ & _ & _ & Hr & _
            & _ & _ & Hn & _ & cr & cr' & _ & _ & ->) end.
    simpl in *. destruct status; try done. rewrite Hci in *. simplify_eq.
    apply (Hspend row _ Hr Hn). eexists. simpl. by rewrite lookup_insert_eq.
Qed.

(** C12: over any history of the frontends, whatever else is written to the store, an
    approval is granted at most once: a bound approval that was consumed, directly or
    through a remote code, is never consumed again. *)
Theorem approval_granted_once id ops db :
  (length (List.filter (grants id) (history ops db)) <= 1)%nat
  /\ (spent_approval (uuid_to_string id) db -> List.filter (grants id) (history ops db) = []).
Proof.
  apply once; [intros op; apply op_keeps_front; [apply spent_survives|by intros ? ? Hf; unfold spent_approval; rewrite Hf]|].
  intros op db1 db2 leave Ho Hg. by apply (grant_spends op db1 db2 leave).
Qed.

(** *** An event of a trusted owner is admitted once *)

Lemma actor_parse_same value actor : ActorId_parse value = Ok actor -> actor = value.
Proof. unfold ActorId_parse. case_match; by intros [= <-]. Qed.
Lemma bounded_same label value v : bounded_frontend_value label value = Ok v -> v = value.
Proof. unfold bounded_frontend_value. case_match; by intros [= <-]. Qed.

Definition admitted_event (id : str) (db : Database) : Prop :=
  is_Some (db.(front).(trusted_frontend_events) !! id).

(** The event is stored as one of the speaker's. *)
Definition speaker_of (row : TrustedEventRow) : Speaker :=
  {| sp_frontend := row.(te_frontend); sp_workspace := row.(te_workspace_digest);
     sp_actor := row.(te_actor_id); sp_channel := row.(te_channel_id) |}.
Definition event_of (id : str) (s : Speaker) (db : Database) : Prop :=
  speaker_of <$> db.(front).(trusted_frontend_events) !! id = Some s.

Lemma event_survives id s : survives (event_of id s).
Proof.
  survive; unfold event_of in *; simpl.
  destruct (decide (id0 = id)) as [->|Hne]; [by simplify_option_eq|by rewrite lookup_insert_ne].
Qed.

Lemma event_kept id s op db : event_of id s db -> event_of id s (apply_op op db).1.
Proof. apply op_keeps_front; [apply event_survives|]. intros ? ? Hf. unfold event_of. by rewrite Hf. Qed.

Lemma admitted_by id db : admitted_event id db <-> exists s, event_of id s db.
Proof.
  unfold admitted_event, event_of. destruct (_ !! id) as [row|]; simpl; [|by split; [intros [? ?]|intros [? ?]]].
  split; [by eexists|by eexists].
Qed.

Lemma fill_channel_ok key actor channel at_ db db' u :
  fill_channel key actor channel at_ db = Ok (db', u) ->
  exists row row', db.(front).(trusted_frontend_owners) !! key = Some row
    /\ row'.(ow_actor_id) = row.(ow_actor_id) /\ row'.(ow_channel_id) = Some channel
    /\ db' = set_trusted_owners (<[key := row']> db.(front).(trusted_frontend_owners)) db.
Proof.
  unfold fill_channel. intros Hf. conn_simpl. eexists _, _.
  split_and!; [done| | |reflexivity]; done.
Qed.

(** The owner of the workspace, on a channel that is theirs or not yet anyone's. *)
Definition speaks_for (frontend : Frontend) (workspace : PathBuf) (actor : ActorId) (channel : ChannelId)
    (db : Database) : Prop :=
  exists row,
    db.(front).(trusted_frontend_owners)
      !! owner_key frontend (frontend_workspace_digest sha256 workspace) = Some row
    /\ row.(ow_actor_id) = actor /\ (row.(ow_channel_id) = None \/ row.(ow_channel_id) = Some channel).

Lemma admit_event_ok frontend actor channel workspace event_id at_ db db' u :
  admit_event frontend actor channel (frontend_workspace_digest sha256 workspace) event_id at_ db
    = Ok (db', u) ->
  let key := owner_key frontend (frontend_workspace_digest sha256 workspace) in
  ~ admitted_event event_id db /\ event_of event_id (speaker frontend actor channel workspace) db'
  /\ speaks_for frontend workspace actor channel db
  /\ exists row, db'.(front).(trusted_frontend_owners) !! key = Some row
       /\ row.(ow_actor_id) = actor /\ row.(ow_channel_id) = Some channel.
Proof.
  intros Ha key. unfold admit_event, tx_map_err in Ha. conn_simpl.
  unfold admitted_event, event_of, speaks_for. simpl. rewrite lookup_insert_eq.
  match goal with Hr : trusted_frontend_owners _ !! _ = Some ?r |- _ =>
    destruct (ow_channel_id r) as [bound|] eqn:Hb; simpl in * end; conn_simpl.
  - rewrite eq_None_not_Some in *. split_and!; [done|done|by eauto|by eauto].
  - match goal with Hf : fill_channel _ _ _ _ _ = _ |- _ =>
      apply fill_channel_ok in Hf as (row & row' & Hr & Ha' & Hc & ->) end. simpl in *.
    rewrite eq_None_not_Some in *. split_and!; [done|done|by eauto|].
    exists row'. rewrite lookup_insert_eq. simplify_eq. done.
Qed.

Definition about_event (id : str) (leave : Leave) : bool :=
  match leave with Admission id' _ _ | Recovered id' _ _ => id' =?? id | _ => false end.

Lemma admit_message_inv frontend actor channel workspace id at_ db db' owner :
  admit_trusted_frontend_message sha256 canonicalize is_dir frontend actor channel workspace id at_ db
    = (db', Ok owner) ->
  ~ admitted_event id db /\ event_of id (speaker frontend actor channel workspace) db'
  /\ owner.(to_actor_id) = actor /\ owner.(to_channel_id) = Some channel /\ owner.(to_frontend) = frontend
  /\ speaks_for frontend workspace actor channel db.
Proof.
  unfold admit_trusted_frontend_message, written_owner, get_trusted_frontend_owner. intros Ho. conn_simpl.
  match goal with Ha : admit_event _ _ _ _ _ _ _ = _ |- _ =>
    apply admit_event_ok in Ha as (Hn & Hs & Hsp & row & Hr & Hac & Hch) end.
  rewrite Hr in *. simpl in *. conn_simpl. unfold owner_from_row in *. conn_simpl. simpl in *.
  rewrite Hch in *. simpl in *. conn_simpl.
  repeat match goal with
  | Hp : ActorId_parse _ = Ok _ |- _ => apply actor_parse_same in Hp
  | Hp : ChannelId_try_from _ = Ok _ |- _ => apply bounded_same in Hp
  end. by simplify_eq.
Qed.

(** An answer to an event is an admission by the owner, or the same answer again. *)
Lemma answer_inv op db db' leave id :
  apply_op op db = (db', Ok leave) -> about_event id leave = true ->
  exists frontend actor channel workspace at_ owner,
    (leave = Admission id (speaker frontend actor channel workspace) owner
     /\ (op = OpAdmitMessage frontend actor channel workspace id at_
         \/ op = OpRecoverMessage frontend actor channel workspace id at_)
     /\ ~ admitted_event id db /\ event_of id (speaker frontend actor channel workspace) db'
     /\ owner.(to_actor_id) = actor /\ owner.(to_channel_id) = Some channel /\ owner.(to_frontend) = frontend
     /\ speaks_for frontend workspace actor channel db)
    \/ (leave = Recovered id (speaker frontend actor channel workspace) owner
        /\ op = OpRecoverMessage frontend actor channel workspace id at_
        /\ event_of id (speaker frontend actor channel workspace) db /\ db' = db
        /\ get_trusted_frontend_owner frontend (frontend_workspace_digest sha256 workspace) db = Ok (Some owner)).
Proof.
  intros Ho Ha. destruct op; simpl in Ho; unfold then_nothing in Ho; conn_simpl; try done;
    try by (repeat case_match).
  - apply bool_decide_eq_true in Ha as ->. eexists _, _, _, _, _, _. left.
    match goal with Hm : admit_trusted_frontend_message _ _ _ _ _ _ _ _ _ _ = _ |- _ =>
      apply admit_message_inv in Hm end. naive_solver.
  - unfold recover_or_admit_trusted_frontend_message, written_owner in *. conn_simpl.
    destruct (_ !! event_id) as [row|] eqn:Hrow; simpl in Ha; apply bool_decide_eq_true in Ha as ->.
    + conn_simpl. eexists _, _, _, _, _, _. right. split_and!; try done.
      unfold event_of. rewrite Hrow. simpl. unfold speaker_of, speaker. repeat f_equal; congruence.
    + eexists _, _, _, _, _, _. left. match goal with Hm : admit_trusted_frontend_message _ _ _ _ _ _ _ _ _ _ = _ |- _ =>
        apply admit_message_inv in Hm end. naive_solver.
Qed.

Lemma history_cons op ops db :
  history (op :: ops) db
  = match (apply_op op db).2 with Ok leave => [leave] | Err _ => [] end ++ history ops (apply_op op db).1.
Proof. simpl. by destruct (apply_op op db) as [db' [leave|e]]. Qed.

(** What one operation contributes to the answers, when a property of the store decides
    it and every operation keeps that property. *)
Lemma history_answers (P : Database -> Prop) (about : Leave -> bool) (good : Leave -> Prop) ops db :
  (forall op, conn_keeps P (apply_op op)) ->
  (forall op db db' leave, P db -> apply_op op db = (db', Ok leave) -> about leave = true -> good leave) ->
  P db -> Forall good (List.filter about (history ops db)).
Proof.
  intros Hk Hg. revert db. induction ops as [|op ops IH]; intros db Hp; [constructor|].
  rewrite history_cons, List.filter_app. specialize (Hk op db Hp). destruct (apply_op op db) as [db' r] eqn:Ho.
  apply Forall_app. split; [|by apply IH]. simpl. destruct r as [leave|e]; [|constructor]. simpl.
  destruct (about leave) eqn:Ha; [|constructor]. constructor; [by eapply Hg|constructor].
Qed.

Definition again (id : str) (s : Speaker) (leave : Leave) : Prop := exists owner, leave = Recovered id s owner.

Lemma answered_again id s ops db :
  event_of id s db -> Forall (again id s) (List.filter (about_event id) (history ops db)).
Proof.
  intros Hs. apply (history_answers (event_of id s)); [intros op d; apply event_kept| |done].
  clear. intros op db db' leave Hs Ho Ha.
  destruct (answer_inv _ _ _ _ _ Ho Ha) as (f & a & c & w & at_ & owner & [(_ & _ & Hn & _)|(-> & _ & Hs' & _)]).
  - destruct Hn. apply admitted_by. by eexists.
  - unfold event_of in *. exists owner. simplify_eq. congruence.
Qed.

Lemma answers_split id ops db : ~ admitted_event id db ->
  exists s admissions recoveries,
    List.filter (about_event id) (history ops db) = admissions ++ recoveries
    /\ (admissions = [] \/ exists owner, admissions = [Admission id s owner])
    /\ Forall (again id s) recoveries.
Proof.
  revert db. induction ops as [|op ops IH]; intros db Hn.
  { exists (speaker Frontend.Buzz [] [] []), [], []. by split_and!; [|left|]. }
  rewrite history_cons, List.filter_app. destruct (apply_op op db) as [db' r] eqn:Ho. simpl.
  assert (forall leave, r = Ok leave -> about_event id leave = true ->
    exists s owner, leave = Admission id s owner /\ event_of id s db') as Hl.
  { intros leave -> Ha.
    destruct (answer_inv _ _ _ _ _ Ho Ha) as (f & a & c & w & at_ & owner & [(-> & _ & _ & Hs & _)|(_ & _ & Hs & _)]).
    - by eexists _, _.
    - destruct Hn. apply admitted_by. by eexists. }
  destruct (decide (admitted_event id db')) as [Had|Hn'].
  - destruct (proj1 (admitted_by id db') Had) as [s Hs]. pose proof (answered_again id s ops db' Hs) as Hr.
    eexists s, _, _. split; [reflexivity|]. split; [|exact Hr]. destruct r as [leave|e]; [|by left]. simpl.
    destruct (about_event id leave) eqn:Ha; [|by left]. destruct (Hl leave eq_refl Ha) as (s' & owner & -> & Hs').
    right. exists owner. unfold event_of in *. repeat f_equal. congruence.
  - destruct (IH db' Hn') as (s & admissions & recoveries & -> & Hrest). exists s, admissions, recoveries.
    split; [|done]. destruct r as [leave|e]; [|done]. simpl. destruct (about_event id leave) eqn:Ha; [|done].
    destruct (Hl leave eq_refl Ha) as (s' & owner & _ & Hs'). destruct Hn'. apply admitted_by. by eexists.
Qed.

(** C13: over any history of the frontends, an event is admitted at most once, whether
    the message is admitted or recovered: the answers to it are at most one admission,
    which is absent when the store has the event from the start, and then recoveries,
    all for the one speaker (frontend, workspace, actor and channel) of the event.  An
    admission is for the actor whom the store holds as the trusted owner of the
    workspace, on the channel that is bound to that owner or becomes so, and records the
    event under that speaker.  A recovery finds the event recorded under the speaker
    and changes nothing. *)
Theorem event_admitted_once id ops db :
  (exists s admissions recoveries,
     List.filter (about_event id) (history ops db) = admissions ++ recoveries
     /\ (admissions = [] \/ ~ admitted_event id db /\ exists owner, admissions = [Admission id s owner])
     /\ Forall (again id s) recoveries /\ forall s', event_of id s' db -> s' = s)
  /\ (forall op db db' s owner, apply_op op db = (db', Ok (Admission id s owner)) ->
       exists frontend channel workspace at_, s = speaker frontend owner.(to_actor_id) channel workspace
         /\ (op = OpAdmitMessage frontend owner.(to_actor_id) channel workspace id at_
             \/ op = OpRecoverMessage frontend owner.(to_actor_id) channel workspace id at_)
         /\ owner.(to_channel_id) = Some channel /\ owner.(to_frontend) = frontend
         /\ speaks_for frontend workspace owner.(to_actor_id) channel db /\ event_of id s db')
  /\ (forall op db db' s owner, apply_op op db = (db', Ok (Recovered id s owner)) ->
       event_of id s db /\ db' = db).
Proof.
  split; [|split; intros op db1 db2 s owner Ho;
    destruct (answer_inv _ _ _ _ id Ho) as (f & a & c & w & at_ & owner' & Hc);
    first [by apply bool_decide_eq_true|naive_solver]].
  destruct (decide (admitted_event id db)) as [Had|Hn].
  - destruct (proj1 (admitted_by id db) Had) as [s Hs]. exists s, [], (List.filter (about_event id) (history ops db)).
    split_and!; [done|by left|by apply answered_again|]. unfold event_of in *. congruence.
  - destruct (answers_split id ops db Hn) as (s & admissions & recoveries & Heq & Ha & Hr).
    exists s, admissions, recoveries. split_and!; [done| |done|].
    + destruct Ha as [->|[owner ->]]; [by left|]. right. split; [done|by exists owner].
    + intros s' Hs'. destruct Hn. apply admitted_by. by exists s'.
Qed.

(** *** A task control is fresh once, and then replays what it did *)

Definition claimed_control (key : str * str) (db : Database) : Prop :=
  is_Some (db.(front).(task_control_receipts) !! key).

Lemma claimed_survives key : survives (claimed_control key).
Proof.
  survive; unfold claimed_control in *; simpl;
    (destruct (decide (key0 = key)) as [->|Hne]; [by rewrite lookup_insert_eq|by rewrite lookup_insert_ne]).
Qed.

Definition settled_control (key : str * str) (result_json : str) (code : option Z) (db : Database) : Prop :=
  exists row, db.(front).(task_control_receipts) !! key = Some row /\ row.(xr_state) = lit "completed"
    /\ row.(xr_result_json) = Some result_json /\ row.(xr_failure_code) = code.

Lemma settled_survives key result code : survives (settled_control key result code).
Proof.
  survive; unfold settled_control in *; simpl.
  - destruct H2 as (row' & Hl & Hs). exists row'. by rewrite lookup_insert_ne by congruence.
  - destruct H3 as (row'' & Hl & Hs & Hrest). destruct (decide (key0 = key)) as [->|Hne].
    + simplify_eq. by rewrite Hs in H2.
    + exists row''. by rewrite lookup_insert_ne.
Qed.

Lemma settled_kept key result code op db :
  settled_control key result code db -> settled_control key result code (apply_op op db).1.
Proof. apply op_keeps_front; [apply settled_survives|]. intros ? ? Hf. unfold settled_control. by rewrite Hf. Qed.

Lemma claimed_kept key op db : claimed_control key db -> claimed_control key (apply_op op db).1.
Proof. apply op_keeps_front; [apply claimed_survives|]. intros ? ? Hf. unfold claimed_control. by rewrite Hf. Qed.

Definition about_control (key : str * str) (leave : Leave) : bool :=
  match leave with FreshControl k | PendingControl k | ReplayControl k _ _ => k =?? key | _ => false end.

(** What a claim says of the receipt it finds. *)
Lemma claim_inv op db db' leave key :
  apply_op op db = (db', Ok leave) -> about_control key leave = true ->
  (leave = FreshControl key /\ ~ claimed_control key db /\ claimed_control key db')
  \/ (leave = PendingControl key /\ claimed_control key db /\ forall result code, ~ settled_control key result code db)
  \/ exists result code, leave = ReplayControl key result code /\ settled_control key result code db.
Proof.
  intros Ho Hk. destruct op; simpl in Ho; unfold then_nothing in Ho; conn_simpl; try done;
    try by (repeat case_match).
  unfold claim_task_control_mutation in *. conn_simpl.
  destruct (_ !! receipt_key input) as [row|] eqn:Hrow.
  - conn_simpl. unfold claim_of in *. right. destruct (xr_result_json row) as [result|] eqn:Hj.
    + right. destruct (xr_state row =?? lit "completed") eqn:Hst; [|done]. simplify_eq. simpl in Hk. carl_simpl.
      eexists _, _. split; [done|]. by exists row.
    + left. destruct (xr_failure_code row); [done|]. destruct (xr_state row =?? lit "pending"); [|done]. simplify_eq. simpl in Hk. carl_simpl.
      split_and!; [done|by exists row|]. intros result code (row' & Hr' & _ & Hj' & _). congruence.
  - left. conn_simpl. simpl in Hk. carl_simpl. split; [done|]. unfold claimed_control. simpl.
    by rewrite Hrow, lookup_insert_eq, <- eq_None_not_Some.
Qed.

Lemma claims_replayed key result code ops db : settled_control key result code db ->
  Forall (eq (ReplayControl key result code)) (List.filter (about_control key) (history ops db)).
Proof.
  intros Hs. apply (history_answers (settled_control key result code)); [intros op d; apply settled_kept| |done].
  clear. intros op db db' leave Hs Ho Ha. pose proof Hs as (row & Hr & _ & Hj & Hc).
  destruct (claim_inv _ _ _ _ key Ho Ha) as [(_ & Hn & _)|[(_ & _ & Hn)|(r' & c' & -> & row' & Hr' & _ & Hj' & Hc')]].
  - destruct Hn. by eexists.
  - by destruct (Hn result code).
  - simplify_eq. by f_equal; congruence.
Qed.

Lemma claims_after key ops db : claimed_control key db ->
  exists p r result code, List.filter (about_control key) (history ops db)
    = replicate p (PendingControl key) ++ replicate r (ReplayControl key result code).
Proof.
  revert db. induction ops as [|op ops IH]; intros db Hc; [by exists 0%nat, 0%nat, [], None|].
  rewrite history_cons, List.filter_app. pose proof (claimed_kept key op db Hc) as Hc'.
  pose proof (fun result code => settled_kept key result code op db) as Hk.
  destruct (apply_op op db) as [db' r] eqn:Ho. simpl in *.
  destruct (IH db' Hc') as (p & m & result & code & Heq).
  destruct r as [leave|e]; [|by exists p, m, result, code]. simpl.
  destruct (about_control key leave) eqn:Ha; [|by exists p, m, result, code].
  destruct (claim_inv _ _ _ _ key Ho Ha) as [(_ & Hn & _)|[(-> & _ & _)|(r' & c' & -> & Hs)]]; [done| |].
  - exists (S p), m, result, code. by rewrite Heq.
  - pose proof (claims_replayed key r' c' ops db' (Hk _ _ Hs)) as Hf.
    exists 0%nat, (S (length (List.filter (about_control key) (history ops db')))), r', c'. simpl. f_equal.
    symmetry. apply replicate_as_elem_of. split; [done|]. intros x Hx.
    symmetry. revert x Hx. by apply Forall_forall.
Qed.

(** A mutation that completes, or fails, settles its receipt. *)
Lemma complete_settles input db db' result :
  complete_task_control_mutation input db = (db', Ok result) ->
  exists code, settled_control (receipt_key input) result code db'.
Proof.
  unfold complete_task_control_mutation, settle_receipt. intros Hc. conn_simpl; simpl in Hc; conn_simpl.
  - eexists _, _. simpl. rewrite lookup_insert_eq. by split_and!.
  - unfold completed_result in *. destruct (_ !! receipt_key input) as [row|] eqn:Hr; simpl in *; [|done].
    destruct (_ && _) eqn:Hb in *; [|done]. carl_simpl. eexists _, row. by split_and!.
Qed.

Lemma fail_settles input code db db' :
  fail_task_control_mutation input code db = (db', Ok tt) ->
  settled_control (receipt_key input) input.(tm_result_json) (Some code) db'.
Proof.
  unfold fail_task_control_mutation, settle_receipt. intros Hc. conn_simpl.
  eexists. simpl. rewrite lookup_insert_eq. by split_and!.
Qed.

(** C14: over any history the claims of a task control that succeed under its key are
    answered in this order: fresh at most once, and not when the key is claimed from
    the start; then pending; and once the result is stored, every claim that succeeds
    replays exactly that result, with the failure it may have ended in.  The result is
    stored by the completion of the control, which gives it back, and by its failure. *)
Theorem control_fresh_once key ops db :
  (exists f p r result code,
     List.filter (about_control key) (history ops db)
     = replicate f (FreshControl key) ++ replicate p (PendingControl key)
       ++ replicate r (ReplayControl key result code)
     /\ (f <= 1)%nat /\ (claimed_control key db -> f = 0%nat))
  /\ (forall result code, settled_control key result code db ->
       Forall (eq (ReplayControl key result code)) (List.filter (about_control key) (history ops db)))
  /\ (forall input db' result, complete_task_control_mutation input db = (db', Ok result) ->
       exists code, settled_control (receipt_key input) result code db')
  /\ (forall input code db', fail_task_control_mutation input code db = (db', Ok tt) ->
       settled_control (receipt_key input) input.(tm_result_json) (Some code) db').
Proof.
  split_and!; [|intros; by apply claims_replayed|intros; by eapply complete_settles|intros; by eapply fail_settles].
  revert db. induction ops as [|op ops IH]; intros db; [by exists 0%nat, 0%nat, 0%nat, [], None; split_and!; [|lia|]|].
  destruct (decide (claimed_control key db)) as [Hc|Hn].
  { destruct (claims_after key (op :: ops) db Hc) as (p & r & result & code & ->). exists 0%nat, p, r, result, code.
    by split_and!; [|lia|]. }
  rewrite history_cons, List.filter_app. destruct (apply_op op db) as [db' o] eqn:Ho. simpl.
  assert (forall leave, o = Ok leave -> about_control key leave = true ->
    leave = FreshControl key /\ claimed_control key db') as Hl.
  { intros leave -> Ha. destruct (claim_inv _ _ _ _ key Ho Ha) as [(-> & _ & Hc)|[(_ & Hc & _)|(? & ? & _ & row & Hr & _)]];
      [done|done|]. destruct Hn. by exists row. }
  destruct o as [leave|e]; simpl; [destruct (about_control key leave) eqn:Ha|].
  - destruct (Hl leave eq_refl Ha) as [-> Hc]. destruct (claims_after key ops db' Hc) as (p & r & result & code & ->).
    exists 1%nat, p, r, result, code. by split_and!; [|lia|].
  - destruct (IH db') as (f & p & r & result & code & -> & Hf & _). exists f, p, r, result, code. by split_and!.
  - destruct (IH db') as (f & p & r & result & code & -> & Hf & _). exists f, p, r, result, code. by split_and!.
Qed.

End History.

(** ** A history

    An owner is trusted, speaks, and approves one request; everything is then tried
    a second time. *)
Module Example.

#[local] Instance uuids : Uuids := {
  uuid_to_string u := u :: replicate 35 48;
  uuid_parse s := match s with u :: _ => Some u | [] => None end
}.
#[local] Instance chrono : Chrono := {
  to_rfc3339 t := [84; t];
  parse_from_rfc3339 s := match s with [_; t] => Some t | _ => None end
}.
Definition digest : Sha256Digest := replicate 32 7.
Definition workspace : PathBuf := utf8 (lit "/work").
Definition event_id : str := Sha256Digest_display digest.
Definition binding : BoundApprovalBinding :=
  {| bb_session_id := 5; bb_turn_id := 6; bb_tool_call_id := 8; bb_actor_id := lit "owner";
     bb_request_digest := digest; bb_created_at := 10; bb_expires_at := 20 |}.
Definition claim : RemoteCodeClaim :=
  {| cl_display_code := lit "0123456789"; cl_kind := RemoteCodeKind.Approval;
     cl_external_session_id := lit "channel-1"; cl_approval_id := Some 9;
     cl_provider_request_id := Some (lit "request"); cl_request_digest := digest;
     cl_actor_id := lit "owner"; cl_now := 15 |}.
Definition control (result : str) : TaskControlMutationInput :=
  {| tm_external_session_id := lit "channel-1"; tm_idempotency_key := lit "key"; tm_task_id := 7;
     tm_method := lit "steer"; tm_request_digest := digest; tm_result_json := result;
     tm_created_at := 16 |}.
Definition stored_task : AgentTaskRow :=
  {| at_session_id := uuid_to_string 5; at_status := lit "active"; contract_json := []; budget_json := [];
     snapshot_json := []; canonical_workspace := lit "/work"; at_model := lit "m"; at_effort := lit "low";
     at_permission_mode := lit "default"; at_revision := 3; current_epoch_id := None;
     latest_checkpoint_id := None; at_provider_context := None; at_created_at := to_rfc3339 1;
     at_updated_at := to_rfc3339 1 |}.

Definition ops : list FrontOp :=
  [OpOther (fun db => set_agent_tasks {[ uuid_to_string 7 := stored_task ]} (set_sessions
     {[ uuid_to_string 5 := {| sn_created_at := to_rfc3339 1; sn_updated_at := to_rfc3339 1;
                               next_sequence := 1 |} ]} db));
   OpBindSession {| nf_frontend := Frontend.Buzz; nf_external_session_id := lit "channel-1";
     nf_session_id := 5; nf_cwd := workspace; nf_protocol_version := 1; nf_client_name := lit "client";
     nf_permission_mode := PermissionMode.Default; nf_channel_id := None; nf_created_at := 2 |};
   OpTrustOwner {| ti_frontend := Frontend.Buzz; ti_actor_id := lit "owner"; ti_workspace := workspace;
     ti_permission_mode := PermissionMode.FullAccess; trusted_at := 3 |};
   OpAdmitMessage Frontend.Buzz (lit "stranger") (lit "c") workspace event_id 4;
   OpAdmitMessage Frontend.Buzz (lit "owner") (lit "c") workspace event_id 4;
   OpAdmitMessage Frontend.Buzz (lit "owner") (lit "c") workspace event_id 5;
   OpRecoverMessage Frontend.Buzz (lit "stranger") (lit "c") workspace event_id 6;
   OpRecoverMessage Frontend.Buzz (lit "owner") (lit "c") workspace event_id 6;
   OpCreateBound 9 binding (lit "run the tests");
   OpCreateCode {| nr_display_code := lit "0123456789"; nr_kind := RemoteCodeKind.Approval;
     nr_external_session_id := lit "channel-1"; nr_approval_id := Some 9;
     nr_provider_request_id := Some (lit "request"); nr_request_digest := digest;
     nr_actor_id := lit "owner"; nr_created_at := 10; nr_expires_at := 20 |};
   OpConsumeRemote claim binding ApprovalStatus.Allowed;
   OpConsumeRemote claim binding ApprovalStatus.Allowed;
   OpConsumeBound 9 binding 16;
   OpClaimControl (control (lit "{}")); OpClaimControl (control (lit "{}")); OpCompleteControl (control (lit "{1}"));
   OpClaimControl (control (lit "{}"))].

Definition leaves : list Leave :=
  history (fun _ => digest) Some (fun _ => true) (fun _ => true) ops empty_database.

Definition owner_record : TrustedFrontendOwnerRecord :=
  {| to_frontend := Frontend.Buzz; to_actor_id := lit "owner"; to_channel_id := Some (lit "c");
     to_workspace_digest := digest; to_permission_mode := PermissionMode.FullAccess;
     to_created_at := 3; to_updated_at := 4 |}.

Definition owner_speaks : Speaker :=
  speaker (fun _ => digest) Frontend.Buzz (lit "owner") (lit "c") workspace.

Example leaves_given :
  List.filter (fun leave => match leave with NoLeave => false | _ => true end) leaves
  = [Admission event_id owner_speaks owner_record; Recovered event_id owner_speaks owner_record; Grant 9;
     FreshControl (lit "channel-1", lit "key"); PendingControl (lit "channel-1", lit "key");
     ReplayControl (lit "channel-1", lit "key") (lit "{1}") None].
Proof. vm_compute. reflexivity. Qed.

End Example.
