(* ===== verification/StoreCheckpoint.v ===== *)
(** * Checkpoints in the store

    [src/storage/repository.rs]: [commit_checkpoint] writes a canonical checkpoint,
    its context package and the event that announces them in one transaction.
    Before it does, it compares the checkpoint with the journal: either with the
    whole of it, or, when the store remembers the checkpoint before it, with the
    events since that one.  [validate_task_canonical_payloads] is the check of the
    stored checkpoints that opens a store.

    The hash of [sha2], [serde_json] on checkpoints and packages, and SQLite's
    extraction from the event that commits a checkpoint are parameters.  The value
    of [PRAGMA data_version] is an argument. *)
From stdpp Require Import base gmap sets list sorting strings.
From S2P Require Import Prelude Ord Text Settings Policy TaskTypes Events Reducer Journal Metrics SecretFilter Checkpoint Context Database TaskStore.
From Stdlib Require Import ZArith Lia.
#[local] Open Scope list_scope.
#[local] Open Scope Z_scope.

(** ** Parameters *)

Class CheckpointJson := {
  store_sha256 : bytes -> Sha256Digest;
  checkpoint_to_vec : CanonicalCheckpoint -> option bytes;
  checkpoint_from_str : str -> option CanonicalCheckpoint;
  store_package_to_vec : ContextPackage -> option bytes;
  package_from_str : str -> option ContextPackage;
  (** [json_extract] of [$.event.checkpoint_id] and [$.event.digest] where
      [$.event.task_event] is ['checkpoint_committed']. *)
  json_checkpoint_committed : str -> option (str * str)
}.

Class CheckpointJsonLaws `{Serde, Uuids, CheckpointJson} : Prop := {
  checkpoint_read c b s :
    checkpoint_to_vec c = Some b -> from_utf8 b = Some s -> checkpoint_from_str s = Some c;
  package_read p b s :
    store_package_to_vec p = Some b -> from_utf8 b = Some s -> package_from_str s = Some p;
  json_committed_read w s : event_to_string w = Some s ->
    json_checkpoint_committed s = match w.(ve_payload) with
                                  | EventRef.TaskLifecycle _ (TaskEvent.CheckpointCommitted c digest) =>
                                      Some (uuid_to_string c, digest)
                                  | _ => None
                                  end
}.

(** ** Data *)

Record NewCheckpoint := {
  nc_task_id : TaskId;
  nc_checkpoint : CanonicalCheckpoint;
  nc_checkpoint_digest : str;
  nc_context_package : ContextPackage;
  nc_context_package_digest : str;
  nc_created_at : Z
}.

Record CheckpointRecord := {
  cd_checkpoint : CanonicalCheckpoint;
  cd_checkpoint_digest : str;
  cd_context_package_digest : str;
  cd_created_at : Z
}.

Record AuthenticatedCheckpointAuthority := {
  au_checkpoint_id : CheckpointId;
  au_task_id : TaskId;
  au_source_sequence_start : Z;
  au_source_sequence_end : Z;
  au_compaction_generation : Z;
  au_operations : list OperationCheckpoint;
  au_observed_total_tokens : option Z;
  au_observed_context_window : option Z;
  au_task_snapshot : TaskSnapshot;
  au_configuration : TaskConfigurationRecord;
  au_digest : str;
  au_data_version : Z
}.

Record ValidatedCheckpointAuthority := {
  va_task_snapshot : TaskSnapshot;
  va_configuration : TaskConfigurationRecord
}.

Record JournalOperationState := {
  jo_status : OperationStatus;
  jo_effect_class : EffectClass;
  jo_request_digest : str;
  jo_last_transition_sequence : Z;
  jo_evidence : OperationEvidenceState
}.

Abbreviation OperationEntry := (OperationId * OperationStatus * EffectClass * str * list Z)%type.

(** A row of the query for the stored checkpoints: a checkpoint and one of its packages, if it has any. *)
Abbreviation PayloadRow := (str * CheckpointRow * option (str * PackageRow))%type.

(** ** Errors *)

Definition checkpoint_validation (detail : str) : CarlError := CarlError.Validation detail.
Definition checkpoint_validation_error (_ : CheckpointError) : CarlError :=
  checkpoint_validation (lit "canonical checkpoint is invalid").
Definition context_validation_error (_ : ContextError) : CarlError :=
  checkpoint_validation (lit "canonical context package is invalid").

(** [detail.ends_with(..)]. *)
Definition ends_with (suffix s : str) : bool :=
  (length suffix <=? length s)%nat && (drop (length s - length suffix) s =?? suffix).

Definition checkpoint_fallback_authority_error (e : CarlError) : CarlError :=
  match e with
  | CarlError.Storage detail =>
      if ends_with (lit "disagrees with journal replay") detail
      then CarlError.Validation detail else e
  | _ => e
  end.

Section StoreCheckpoint.
Context `{Uuids, Chrono, Serde, SqliteJson, CheckpointJson}.

Definition stored_checkpoint_bytes (c : CanonicalCheckpoint) : checked bytes :=
  canonical_bytes checkpoint_to_vec c.
Definition stored_package_bytes (p : ContextPackage) : assembled_or bytes :=
  ContextPackage_canonical_bytes store_sha256 store_package_to_vec p.

(** ** Artifacts *)

(** [INSERT .. ON CONFLICT (id) DO NOTHING], then the length that is stored. *)
Definition register_artifact_object (id : str) (byte_length created_at : Z) : Tx unit :=
  stored ← from (revision_to_sql byte_length);
  let row := {| ao_byte_length := stored; ao_created_at := format_timestamp created_at |} in
  _ ← (fun db => if negb (check_artifact_object id row) then Err storage_error
                 else match db.(artifact_objects) !! id with
                      | Some _ => Ok (db, tt)
                      | None => Ok (set_artifact_objects (<[id := row]> db.(artifact_objects)) db, tt)
                      end) : Tx unit;
  stored_length ← query (fun db => ok_or (ao_byte_length <$> db.(artifact_objects) !! id) storage_error);
  from (reject (negb ((0 <=? stored_length) && (stored_length =? byte_length)))
          (storage_invariant (lit "content-addressed artifact length is inconsistent"))).

Definition require_registered_artifact_object (db : Database) (id : str) (byte_length : Z) :
    result CarlError unit :=
  reject (negb (is_some_and (db.(artifact_objects) !! id)
                  (fun row => (0 <=? row.(ao_byte_length)) && (row.(ao_byte_length) =? byte_length))))
    (storage_invariant (lit "content-addressed artifact registration is missing or inconsistent")).

Definition validate_checkpoint_artifacts (db : Database) (checkpoint : CanonicalCheckpoint) :
    result CarlError unit :=
  try_for_each (fun digest =>
    reject (negb (is_some (db.(artifact_objects) !! digest)))
      (checkpoint_validation (lit "checkpoint references an unknown artifact")))
    (artifact_digests checkpoint).

(** ** The input *)

Definition validate_checkpoint_input (input : NewCheckpoint) : result CarlError unit :=
  let checkpoint := input.(nc_checkpoint) in
  let package := input.(nc_context_package) in
  _ ← reject (negb (checkpoint.(ck_task_id) =? input.(nc_task_id))
              || negb (package.(cp_checkpoint_id) =? checkpoint.(ck_checkpoint_id))
              || negb (package.(cp_source_sequence_start) =? checkpoint.(source_sequence_start))
              || negb (package.(cp_source_sequence_end) =? checkpoint.(source_sequence_end)))
        (checkpoint_validation (lit "checkpoint and context package metadata do not match"));
  checkpoint_digest ← map_err checkpoint_validation_error
    (CanonicalCheckpoint_digest store_sha256 checkpoint_to_vec checkpoint);
  _ ← reject (negb (checkpoint_digest =?? input.(nc_checkpoint_digest)))
        (checkpoint_validation (lit "canonical checkpoint digest does not match"));
  package_digest ← map_err context_validation_error
    (ContextPackage_digest store_sha256 store_package_to_vec package);
  reject (negb (package_digest =?? input.(nc_context_package_digest)))
    (checkpoint_validation (lit "canonical context package digest does not match")).

(** [WHERE task_id = ?1 AND id = ?2]. *)
Definition checkpoint_row (db : Database) (task_id : TaskId) (checkpoint_id : CheckpointId) :
    option CheckpointRow :=
  row ← db.(task_checkpoints) !! uuid_to_string checkpoint_id;
  if row.(cr_task_id) =?? uuid_to_string task_id then Some row else None.

Definition text_digest (text : str) : str := Sha256Digest_display (store_sha256 (utf8 text)).

Definition authenticated_checkpoint_matches_database (db : Database) (current : TaskRecord)
    (authority : AuthenticatedCheckpointAuthority) : bool :=
  match current.(snapshot).(latest_checkpoint) with
  | None => false
  | Some checkpoint_id =>
      if negb (checkpoint_id =? authority.(au_checkpoint_id))
         || negb (current.(snapshot).(task_id) =? authority.(au_task_id))
      then false
      else match checkpoint_row db current.(snapshot).(task_id) checkpoint_id with
           | Some row =>
               match row.(checkpoint_json) with
               | Some json => (row.(cr_digest) =?? authority.(au_digest))
                              && (text_digest json =?? authority.(au_digest))
               | None => false
               end
           | None => false
           end
  end.

(** ** The checkpoint against the journal *)

(** What the loop over the events carries. *)
Record AuthorityScan := {
  sc_total_tokens : option Z;
  sc_context_window : option Z;
  sc_operations : gmap OperationId JournalOperationState;
  sc_snapshot : option TaskSnapshot;
  sc_children : Children;
  sc_last : option Z
}.

(** The operations of the remembered checkpoint. *)
Definition anchor_operations (authority : AuthenticatedCheckpointAuthority) :
    gmap OperationId JournalOperationState :=
  foldl (fun m operation =>
    <[operation.(oc_operation_id) :=
      {| jo_status := operation.(oc_status); jo_effect_class := operation.(oc_effect_class);
         jo_request_digest := operation.(oc_request_digest);
         jo_last_transition_sequence := authority.(au_source_sequence_end);
         jo_evidence := from_consumed operation.(oc_evidence_sequences) |}]> m)
    ∅ authority.(au_operations).

Definition scan_start (anchor : option AuthenticatedCheckpointAuthority) : AuthorityScan :=
  match anchor with
  | None => {| sc_total_tokens := None; sc_context_window := None; sc_operations := ∅;
               sc_snapshot := None; sc_children := (None, []); sc_last := None |}
  | Some authority =>
      {| sc_total_tokens := authority.(au_observed_total_tokens);
         sc_context_window := authority.(au_observed_context_window);
         sc_operations := anchor_operations authority;
         sc_snapshot := Some authority.(au_task_snapshot);
         sc_children := (Some authority.(au_configuration), []);
         sc_last := Some authority.(au_source_sequence_end) |}
  end.

(** The [if let Some(snapshot) = replayed_snapshot.take()] of the loop. *)
Definition scan_replay (snapshot : option TaskSnapshot) (children : Children)
    (envelope : EventEnvelope) : result CarlError (option TaskSnapshot * Children) :=
  match snapshot with
  | None => Ok (None, children)
  | Some snapshot =>
      snapshot ← map_err task_replay_error (reduce_task (Some snapshot) envelope);
      children ← replay_task_child_projections children envelope;
      Ok (Some snapshot, children)
  end.

(** The operations after one event. *)
Definition scan_operations (operations : gmap OperationId JournalOperationState) (now : Z)
    (event : TaskEvent) : result CarlError (gmap OperationId JournalOperationState) :=
  match event with
  | TaskEvent.OperationIntentRecorded operation_id _ _ effect_class request_digest =>
      _ ← reject (is_some (operations !! operation_id))
            (storage_invariant (lit "task journal contains a duplicate operation"));
      Ok (<[operation_id :=
            {| jo_status := OperationStatus.IntentRecorded; jo_effect_class := effect_class;
               jo_request_digest := request_digest; jo_last_transition_sequence := now;
               jo_evidence := OperationEvidenceState_default |}]> operations)
  | TaskEvent.OperationTransitioned operation_id from to evidence_sequences =>
      operation ← ok_or (operations !! operation_id)
        (storage_invariant (lit "task journal operation transition has no intent"));
      evidence ← map_err (fun _ =>
          storage_invariant (lit "task journal operation transition has invalid evidence"))
        (OperationEvidenceState_transition operation.(jo_evidence) operation.(jo_status) from to
           operation.(jo_last_transition_sequence) now evidence_sequences);
      Ok (<[operation_id :=
            {| jo_status := to; jo_effect_class := operation.(jo_effect_class);
               jo_request_digest := operation.(jo_request_digest);
               jo_last_transition_sequence := now; jo_evidence := evidence |}]> operations)
  | TaskEvent.OperationEvidenceRecorded operation_id _ =>
      operation ← ok_or (operations !! operation_id)
        (storage_invariant (lit "task journal operation evidence has no intent"));
      evidence ← map_err (fun _ => storage_invariant (lit "task journal operation evidence is invalid"))
        (OperationEvidenceState_record operation.(jo_evidence) operation.(jo_status)
           operation.(jo_last_transition_sequence) now);
      Ok (<[operation_id :=
            {| jo_status := operation.(jo_status); jo_effect_class := operation.(jo_effect_class);
               jo_request_digest := operation.(jo_request_digest);
               jo_last_transition_sequence := operation.(jo_last_transition_sequence);
               jo_evidence := evidence |}]> operations)
  | _ => Ok operations
  end.

(** The body of the loop over the events of a page. *)
Definition scan_event (scan : AuthorityScan) (envelope : EventEnvelope) : result CarlError AuthorityScan :=
  '(snapshot, children) ← scan_replay scan.(sc_snapshot) scan.(sc_children) envelope;
  match envelope.(event) with
  | Event.TaskLifecycle _ event =>
      let '(total_tokens, context_window) :=
        match event with
        | TaskEvent.UsageObserved _ total_tokens context_window =>
            (Some total_tokens,
             if is_some context_window then context_window else scan.(sc_context_window))
        | _ => (scan.(sc_total_tokens), scan.(sc_context_window))
        end in
      operations ← scan_operations scan.(sc_operations) envelope.(sequence) event;
      Ok {| sc_total_tokens := total_tokens; sc_context_window := context_window;
            sc_operations := operations; sc_snapshot := snapshot; sc_children := children;
            sc_last := Some envelope.(sequence) |}
  | _ => Err (storage_invariant (lit "task event page returned a non-task event"))
  end.

(** The pages after the remembered checkpoint, or all of them. *)
Definition scan_journal (db : Database) (checkpoint : CanonicalCheckpoint)
    (anchor : option AuthenticatedCheckpointAuthority) : result CarlError AuthorityScan :=
  default (Err storage_error)
    (page_loop (Datatypes.S (length db.(events)))
       (fun after =>
          match anchor with
          | Some authority =>
              read_task_event_page_for_known_session_from_connection db
                authority.(au_task_snapshot).(session_id) checkpoint.(ck_task_id) after 512
          | None => read_task_event_page_from_connection db checkpoint.(ck_task_id) after 512
          end)
       scan_event (au_source_sequence_end <$> anchor) (scan_start anchor)).

(** The snapshot and the configuration the checkpoint has to agree with. *)
Definition authoritative_state (db : Database) (current : TaskRecord)
    (configuration : TaskConfigurationRecord) (checkpoint : CanonicalCheckpoint)
    (scan : AuthorityScan) : result CarlError ValidatedCheckpointAuthority :=
  match scan.(sc_snapshot) with
  | None => Ok {| va_task_snapshot := current.(snapshot); va_configuration := configuration |}
  | Some replayed_snapshot =>
      replayed_configuration ← ok_or scan.(sc_children).1
        (storage_invariant (lit "incremental task configuration is missing"));
      _ ← reject (negb (replayed_snapshot =?? current.(snapshot)))
            (storage_invariant (lit "task projection disagrees with authenticated journal tail replay"));
      stored_configuration ← load_task_configuration_record db checkpoint.(ck_task_id);
      stored_configuration ← ok_or stored_configuration
        (storage_invariant (lit "task configuration projection is missing"));
      _ ← reject (negb (replayed_configuration =?? stored_configuration))
            (storage_invariant
               (lit "task configuration projection disagrees with authenticated journal tail replay"));
      Ok {| va_task_snapshot := replayed_snapshot; va_configuration := replayed_configuration |}
  end.

Definition checkpoint_entry (operation : OperationCheckpoint) : OperationEntry :=
  (operation.(oc_operation_id), operation.(oc_status), operation.(oc_effect_class),
   operation.(oc_request_digest), operation.(oc_evidence_sequences)).

Definition journal_entry (operation : OperationId * JournalOperationState) : OperationEntry :=
  (operation.1, operation.2.(jo_status), operation.2.(jo_effect_class),
   operation.2.(jo_request_digest), operation.2.(jo_evidence).(consumed_sequences)).

(** The comparisons after the loop. *)
Definition check_against_journal (checkpoint : CanonicalCheckpoint) (scan : AuthorityScan)
    (authoritative : ValidatedCheckpointAuthority) : result CarlError unit :=
  let snapshot := authoritative.(va_task_snapshot) in
  let configuration := authoritative.(va_configuration) in
  let provider' := checkpoint.(provider) in
  _ ← reject (is_some snapshot.(active_epoch) || has_unresolved_operations snapshot)
        (checkpoint_validation (lit "checkpoint requires an authoritative safe boundary"));
  _ ← reject (negb (checkpoint.(ck_contract) =?? snapshot.(contract))
              || negb (provider'.(pv_context_id) =?? snapshot.(provider_context)))
        (checkpoint_validation
           (lit "checkpoint contract or provider context does not match the authoritative journal"));
  _ ← reject (negb (provider'.(pv_provider) =?? lit "codex")
              || negb (provider'.(pv_model) =?? configuration.(tc_active_model))
              || negb (provider'.(pv_effort) =?? as_codex_value configuration.(tc_active_effort)))
        (checkpoint_validation
           (lit "checkpoint provider metadata does not match the authoritative journal"));
  _ ← reject (negb (provider'.(observed_total_tokens) =?? scan.(sc_total_tokens))
              || negb (provider'.(observed_context_window) =?? scan.(sc_context_window)))
        (checkpoint_validation (lit "checkpoint usage metadata does not match the task journal"));
  reject (negb (sort_by_key (fun entry : OperationEntry => entry.1.1.1.1)
                  (checkpoint_entry <$> checkpoint.(ck_operations))
                =?? (journal_entry <$> btree_iter scan.(sc_operations))))
    (checkpoint_validation (lit "checkpoint operations do not match the authoritative projection")).

Definition expected_generation (db : Database) (current : TaskRecord)
    (checkpoint : CanonicalCheckpoint) (anchor : option AuthenticatedCheckpointAuthority) :
    result CarlError Z :=
  let next generation :=
    ok_or (checked_add u32_max generation 1)
      (checkpoint_validation (lit "checkpoint generation overflowed")) in
  match anchor with
  | Some anchor => next anchor.(au_compaction_generation)
  | None =>
      match current.(snapshot).(latest_checkpoint) with
      | None => Ok 0
      | Some checkpoint_id =>
          row ← ok_or (checkpoint_row db checkpoint.(ck_task_id) checkpoint_id) storage_error;
          json ← ok_or row.(checkpoint_json)
            (checkpoint_validation (lit "previous checkpoint has no canonical payload"));
          previous ← ok_or (checkpoint_from_str json)
            (checkpoint_validation (lit "previous canonical checkpoint is invalid"));
          next previous.(compaction_generation)
      end
  end.

Definition validate_checkpoint_authority_from_anchor (db : Database) (current : TaskRecord)
    (configuration : TaskConfigurationRecord) (checkpoint : CanonicalCheckpoint)
    (anchor : option AuthenticatedCheckpointAuthority) : result CarlError ValidatedCheckpointAuthority :=
  scan ← scan_journal db checkpoint anchor;
  _ ← reject (negb (scan.(sc_last) =?? Some checkpoint.(source_sequence_end)))
        (checkpoint_validation (lit "checkpoint authority tail is incomplete"));
  authoritative ← authoritative_state db current configuration checkpoint scan;
  _ ← check_against_journal checkpoint scan authoritative;
  generation ← expected_generation db current checkpoint anchor;
  _ ← reject (negb (checkpoint.(compaction_generation) =? generation))
        (checkpoint_validation (lit "checkpoint generation does not match durable history"));
  Ok authoritative.

Definition validate_checkpoint_authority (db : Database) (current : TaskRecord)
    (configuration : TaskConfigurationRecord) (checkpoint : CanonicalCheckpoint) :
    result CarlError ValidatedCheckpointAuthority :=
  validate_checkpoint_authority_from_anchor db current configuration checkpoint None.

Definition validate_checkpoint_authority_incremental (db : Database) (current : TaskRecord)
    (checkpoint : CanonicalCheckpoint) (authority : AuthenticatedCheckpointAuthority) :
    result CarlError ValidatedCheckpointAuthority :=
  _ ← reject (negb (checkpoint.(previous_digest) =?? Some authority.(au_digest))
              || negb (checkpoint.(source_sequence_start) =? authority.(au_source_sequence_start)))
        (checkpoint_validation (lit "checkpoint does not extend its authenticated authority"));
  validate_checkpoint_authority_from_anchor db current authority.(au_configuration) checkpoint
    (Some authority).

(** [SELECT MIN(sequence), MAX(sequence)]. *)
Definition sequence_bounds (rows : list EventRow) : option (Z * Z) :=
  match er_sequence <$> rows with
  | [] => None
  | x :: l => Some (foldl Z.min x l, foldl Z.max x l)
  end.

Definition validate_checkpoint_history (db : Database) (current : TaskRecord) (input : NewCheckpoint) :
    result CarlError unit :=
  '(start, stop) ← ok_or
    (sequence_bounds
       (filter (fun row => row.(er_session_id) = uuid_to_string current.(snapshot).(session_id)
                           /\ json_task_id row.(event_json) = Some (uuid_to_string input.(nc_task_id)))
          db.(events)))
    (storage_invariant (lit "checkpoint task has no authoritative journal"));
  start ← stored_u64 start;
  stop ← stored_u64 stop;
  _ ← reject (negb (input.(nc_checkpoint).(source_sequence_start) =? start)
              || negb (input.(nc_checkpoint).(source_sequence_end) =? stop))
        (checkpoint_validation (lit "checkpoint source range does not match the task journal"));
  expected_previous ← transpose (fun checkpoint_id =>
      cr_digest <$> ok_or (checkpoint_row db input.(nc_task_id) checkpoint_id)
        (storage_invariant (lit "latest task checkpoint projection is missing")))
    current.(snapshot).(latest_checkpoint);
  reject (negb (input.(nc_checkpoint).(previous_digest) =?? expected_previous))
    (checkpoint_validation (lit "checkpoint previous digest does not match durable history")).

(** ** The stored checkpoints *)

Definition validate_canonical_source_bounds (db : Database) (checkpoint : CanonicalCheckpoint)
    (checkpoint_event_sequence : Z) (canonical_digest : str) : result CarlError unit :=
  let task := uuid_to_string checkpoint.(ck_task_id) in
  '(start, stop) ← ok_or
    (sequence_bounds
       (filter (fun row => json_task_id row.(event_json) = Some task
                           /\ row.(er_sequence) < checkpoint_event_sequence) db.(events)))
    (storage_invariant (lit "stored canonical checkpoint has no source journal"));
  start ← stored_u64 start;
  (* the right operand of [||] is not evaluated when the left one is true *)
  _ ← reject (negb (checkpoint.(source_sequence_start) =? start))
        (storage_invariant (lit "stored canonical checkpoint source range does not match the journal"));
  stop ← stored_u64 stop;
  _ ← reject (negb (checkpoint.(source_sequence_end) =? stop))
        (storage_invariant (lit "stored canonical checkpoint source range does not match the journal"));
  reject (negb (existsb (fun row =>
             (row.(er_sequence) =? checkpoint_event_sequence)
             && (json_task_id row.(event_json) =?? Some task)
             && (json_checkpoint_committed row.(event_json)
                 =?? Some (uuid_to_string checkpoint.(ck_checkpoint_id), canonical_digest)))
             db.(events)))
    (storage_invariant (lit "stored canonical checkpoint has no matching journal event")).

Definition payload_joined (db : Database) : list PayloadRow :=
  '(id, checkpoint) ← map_to_list db.(task_checkpoints);
  match filter (fun '(_, package) => package.(pr_task_id) = checkpoint.(cr_task_id)
                                     /\ package.(pr_checkpoint_id) = id)
          (map_to_list db.(task_context_packages)) with
  | [] => [(id, checkpoint, None)]
  | packages => (fun package => (id, checkpoint, Some package)) <$> packages
  end.

Definition payload_selected (task_id : option TaskId) (row : PayloadRow) : bool :=
  let '(_, checkpoint, package) := row in
  holds task_id (fun task_id => checkpoint.(cr_task_id) =?? uuid_to_string task_id)
  && (is_some checkpoint.(checkpoint_json)
      || is_some_and package (fun package => is_some package.2.(package_json))).

Definition payload_rows (db : Database) (task_id : option TaskId) : list PayloadRow :=
  sort_by_key (fun '(_, checkpoint, package) =>
      (checkpoint.(cr_task_id), checkpoint.(cr_event_sequence), pr_generation <$> (snd <$> package)))
    (filter (fun row => payload_selected task_id row = true) (payload_joined db)).

(** [SELECT digest .. WHERE task_id = ?1 AND event_sequence < ?2 ORDER BY
    event_sequence DESC LIMIT 1]. *)
Definition digest_before (db : Database) (task : str) (event_sequence : Z) : option str :=
  cr_digest <$> last (sort_by_key cr_event_sequence
    (map_to_list (filter (fun '(_, row) => row.(cr_task_id) = task
                                           /\ row.(cr_event_sequence) < event_sequence)
       db.(task_checkpoints))).*2).

(** The body of the loop over the rows, after its [let .. else]. *)
Definition validate_payload_texts (db : Database) (checkpoint_id : str) (row : CheckpointRow)
    (json stored_id package_json : str) (package_row : PackageRow) : result CarlError unit :=
  checkpoint ← ok_or (checkpoint_from_str json)
    (storage_invariant (lit "stored canonical checkpoint is invalid"));
  context_package ← ok_or (package_from_str package_json)
    (storage_invariant (lit "stored canonical context package is invalid"));
  stored_task_id ← ok_or (uuid_parse row.(cr_task_id))
    (storage_invariant (lit "stored checkpoint task identifier is invalid"));
  stored_checkpoint_id ← ok_or (uuid_parse checkpoint_id)
    (storage_invariant (lit "stored checkpoint identifier is invalid"));
  stored_package_id ← ok_or (uuid_parse stored_id)
    (storage_invariant (lit "stored context package identifier is invalid"));
  stored_generation ← stored_u64 package_row.(pr_generation);
  _ ← reject (u32_max <? stored_generation)
        (storage_invariant (lit "stored context package generation is too large"));
  _ ← reject (negb (checkpoint.(ck_task_id) =? stored_task_id)
              || negb (checkpoint.(ck_checkpoint_id) =? stored_checkpoint_id)
              || negb (context_package.(package_id) =? stored_package_id)
              || negb (context_package.(cp_checkpoint_id) =? stored_checkpoint_id)
              || negb (checkpoint.(compaction_generation) =? stored_generation)
              || negb (package_row.(pr_event_sequence) =? row.(cr_event_sequence))
              || negb (context_package.(cp_source_sequence_start) =? checkpoint.(source_sequence_start))
              || negb (context_package.(cp_source_sequence_end) =? checkpoint.(source_sequence_end)))
        (storage_invariant (lit "stored canonical checkpoint metadata is inconsistent"));
  checkpoint_bytes ← map_err (fun _ => storage_invariant (lit "stored canonical checkpoint is invalid"))
    (stored_checkpoint_bytes checkpoint);
  let canonical_digest := Sha256Digest_display (store_sha256 checkpoint_bytes) in
  _ ← reject (negb (checkpoint_bytes =?? utf8 json) || negb (canonical_digest =?? row.(cr_digest)))
        (storage_invariant (lit "stored canonical checkpoint bytes or digest do not match"));
  package_bytes ← map_err (fun _ => storage_invariant (lit "stored canonical context package is invalid"))
    (stored_package_bytes context_package);
  _ ← reject (negb (package_bytes =?? utf8 package_json))
        (storage_invariant (lit "stored canonical context package bytes do not match"));
  _ ← validate_canonical_source_bounds db checkpoint row.(cr_event_sequence) canonical_digest;
  _ ← reject (negb (checkpoint.(previous_digest)
                    =?? digest_before db row.(cr_task_id) row.(cr_event_sequence)))
        (storage_invariant (lit "stored canonical checkpoint previous digest does not match"));
  map_err (fun _ => storage_invariant
             (lit "stored canonical checkpoint references an unknown artifact"))
    (validate_checkpoint_artifacts db checkpoint).

Definition validate_payload (db : Database) (row : PayloadRow) : result CarlError unit :=
  let '(checkpoint_id, checkpoint, package) := row in
  match checkpoint.(checkpoint_json), package with
  | Some json, Some (package_id, package_row) =>
      match package_row.(package_json) with
      | Some package_json =>
          validate_payload_texts db checkpoint_id checkpoint json package_id package_json package_row
      | None => Err (storage_invariant (lit "canonical checkpoint and context package are not atomic"))
      end
  | _, _ => Err (storage_invariant (lit "canonical checkpoint and context package are not atomic"))
  end.

Definition validate_task_canonical_payloads_filtered (db : Database) (task_id : option TaskId) :
    result CarlError unit :=
  try_for_each (validate_payload db) (payload_rows db task_id).

Definition validate_task_canonical_payloads (db : Database) : result CarlError unit :=
  validate_task_canonical_payloads_filtered db None.

(** ** Committing a checkpoint *)

(** The authority the new checkpoint is compared with: what the store remembers, when
    no other connection has written and the checkpoint is still the latest. *)
Definition incremental_anchor (db : Database) (current : TaskRecord) (data_version : Z)
    (cached_authority : option AuthenticatedCheckpointAuthority) :
    option AuthenticatedCheckpointAuthority :=
  authority ← cached_authority;
  if (authority.(au_data_version) =? data_version)
     && authenticated_checkpoint_matches_database db current authority
  then Some authority else None.

(** The validation of either path, with the record the event is applied to. *)
Definition validate_commit (db : Database) (current : TaskRecord) (input : NewCheckpoint)
    (anchor : option AuthenticatedCheckpointAuthority) :
    result CarlError (TaskRecord * ValidatedCheckpointAuthority) :=
  match anchor with
  | Some authority =>
      validated ← validate_checkpoint_authority_incremental db current input.(nc_checkpoint) authority;
      Ok (current, validated)
  | None =>
      '(current, configuration) ← map_err checkpoint_fallback_authority_error
        (validate_task_authority_from_journal db input.(nc_task_id));
      _ ← validate_task_canonical_payloads_filtered db (Some input.(nc_task_id));
      _ ← validate_checkpoint_history db current input;
      validated ← validate_checkpoint_authority db current configuration input.(nc_checkpoint);
      Ok (current, validated)
  end.

(** The event, the two rows and the projection. *)
Definition write_checkpoint (current : TaskRecord) (input : NewCheckpoint)
    (checkpoint_json package_json : str) (event_id : EventId) : Tx unit :=
  let checkpoint := input.(nc_checkpoint) in
  let task := uuid_to_string input.(nc_task_id) in
  let timestamp := format_timestamp input.(nc_created_at) in
  envelope ← append_event_in_transaction current.(snapshot).(session_id) None
    (Event.TaskLifecycle input.(nc_task_id)
       (TaskEvent.CheckpointCommitted checkpoint.(ck_checkpoint_id) input.(nc_checkpoint_digest)))
    input.(nc_created_at) event_id;
  snapshot ← from (map_err task_reduce_error (reduce_task (Some current.(snapshot)) envelope));
  event_sequence ← from (revision_to_sql envelope.(sequence));
  _ ← insert_checkpoint task event_sequence timestamp checkpoint.(ck_checkpoint_id)
        input.(nc_checkpoint_digest) (Some checkpoint_json);
  _ ← insert_package task event_sequence timestamp input.(nc_context_package).(package_id)
        checkpoint.(ck_checkpoint_id) checkpoint.(compaction_generation) (Some package_json);
  update_task_projection snapshot input.(nc_created_at).

(** What the store remembers of a checkpoint it has committed. *)
Definition new_authority (input : NewCheckpoint) (validated : ValidatedCheckpointAuthority)
    (data_version : Z) : AuthenticatedCheckpointAuthority :=
  let checkpoint := input.(nc_checkpoint) in
  {| au_checkpoint_id := checkpoint.(ck_checkpoint_id); au_task_id := checkpoint.(ck_task_id);
     au_source_sequence_start := checkpoint.(source_sequence_start);
     au_source_sequence_end := checkpoint.(source_sequence_end);
     au_compaction_generation := checkpoint.(compaction_generation);
     au_operations := checkpoint.(ck_operations);
     au_observed_total_tokens := checkpoint.(provider).(observed_total_tokens);
     au_observed_context_window := checkpoint.(provider).(observed_context_window);
     au_task_snapshot := validated.(va_task_snapshot);
     au_configuration := validated.(va_configuration);
     au_digest := input.(nc_checkpoint_digest); au_data_version := data_version |}.

(** The record that is returned and the authority the store remembers with it. *)
Definition commit_checkpoint (cached_authority : option AuthenticatedCheckpointAuthority)
    (data_version : Z) (input : NewCheckpoint) (expected_task_revision : Z) (event_id : EventId) :
    Tx (option (CheckpointRecord * AuthenticatedCheckpointAuthority)) :=
  _ ← from (validate_checkpoint_input input);
  let checkpoint := input.(nc_checkpoint) in
  checkpoint_bytes ← from (map_err checkpoint_validation_error (stored_checkpoint_bytes checkpoint));
  checkpoint_json ← from (ok_or (from_utf8 checkpoint_bytes)
    (checkpoint_validation (lit "canonical checkpoint is not UTF-8")));
  package_bytes ← from (map_err context_validation_error
    (stored_package_bytes input.(nc_context_package)));
  package_json ← from (ok_or (from_utf8 package_bytes)
    (checkpoint_validation (lit "canonical context package is not UTF-8")));
  current ← expected_task input.(nc_task_id) expected_task_revision;
  match current with
  | None => mret None
  | Some current =>
      '(current, validated) ← query (fun db =>
        validate_commit db current input (incremental_anchor db current data_version cached_authority));
      _ ← query (fun db => validate_checkpoint_artifacts db checkpoint);
      _ ← write_checkpoint current input checkpoint_json package_json event_id;
      mret (Some
        ({| cd_checkpoint := checkpoint; cd_checkpoint_digest := input.(nc_checkpoint_digest);
            cd_context_package_digest := input.(nc_context_package_digest);
            cd_created_at := input.(nc_created_at) |},
         new_authority input validated data_version))
  end.

End StoreCheckpoint.
