(* ===== verification/StoreJournal.v ===== *)
(** * Reading the journal of a task

    What a row of [events] stands for, the invariant [journal_ok] of the journal, and
    that reading a task page by page visits its events once and in order. *)
From stdpp Require Import base gmap sets list sorting strings.
From S2P Require Import Prelude Ord Text Settings Policy TaskTypes Events Reducer Journal Metrics Database TaskStore.
From Stdlib Require Import ZArith Lia.
#[local] Open Scope list_scope.
#[local] Open Scope Z_scope.

(** ** Lists *)

Lemma Forall2_filter {A B : Type} (R : A -> B -> Prop) (P : A -> Prop) (Q : B -> Prop)
    `{!forall x, Decision (P x), !forall y, Decision (Q y)} (l : list A) (k : list B) :
  Forall2 R l k -> (forall x y, x ∈ l -> R x y -> P x <-> Q y) ->
  Forall2 R (filter P l) (filter Q k).
Proof.
  induction 1 as [|x y l k Hxy Hlk IH]; intros HPQ; [constructor|].
  rewrite !filter_cons. pose proof (HPQ x y ltac:(set_solver) Hxy) as Hiff.
  assert (Forall2 R (filter P l) (filter Q k)) by (apply IH; intros; apply HPQ; set_solver).
  destruct (decide (P x)), (decide (Q y)); [by constructor|tauto|tauto|done].
Qed.

Lemma Forall2_with {A B : Type} (R : A -> B -> Prop) (P : A -> Prop) l k :
  Forall2 R l k -> Forall P l -> Forall2 (fun x y => R x y /\ P x) l k.
Proof. induction 1; inversion 1; constructor; auto. Qed.

Lemma Forall2_fmap_same {A B D : Type} (f : A -> D) (g : B -> D) (R : A -> B -> Prop) l k :
  Forall2 R l k -> (forall x y, R x y -> g y = f x) -> f <$> l = g <$> k.
Proof. intros HR Hfg. induction HR as [|x y l k Hxy _ IH]; [done|]. rewrite !fmap_cons, IH, (Hfg x y Hxy). done. Qed.

Lemma filter_iff_on {A : Type} (P Q : A -> Prop)
    `{!forall x, Decision (P x), !forall x, Decision (Q x)} (l : list A) :
  (forall x, x ∈ l -> P x <-> Q x) -> filter P l = filter Q l.
Proof.
  induction l as [|x l IH]; intros HPQ; [done|]. rewrite !filter_cons, IH by set_solver.
  pose proof (HPQ x ltac:(set_solver)). destruct (decide (P x)), (decide (Q x)); tauto || done.
Qed.

Lemma Forall2_mapM {E A B : Type} (f : B -> result E A) l k :
  Forall2 (fun x y => f y = Ok x) l k -> mapM f k = Ok l.
Proof. induction 1 as [|x y l k Hxy _ IH]; [done|]. simpl. by rewrite Hxy; simpl; rewrite IH. Qed.

Lemma mapM_snoc {E A B : Type} (f : B -> result E A) l x k y :
  mapM f l = Ok k -> f x = Ok y -> mapM f (l ++ [x]) = Ok (k ++ [y]).
Proof.
  intros Hl Hx. revert k Hl. induction l as [|z l IH]; intros k Hl; simpl.
  { inversion Hl. by rewrite Hx. }
  apply bind_ok in Hl as (w & Hw & Hl). apply bind_ok in Hl as (k' & Hk & [= <-]).
  rewrite Hw. simpl. by rewrite (IH k' Hk).
Qed.

Lemma strongly_sorted_filter {A : Type} (R : A -> A -> Prop) (P : A -> Prop)
    `{!forall x, Decision (P x)} (l : list A) :
  StronglySorted R l -> StronglySorted R (filter P l).
Proof.
  induction 1 as [|x l Hs IH Hx]; [constructor|]. rewrite filter_cons.
  destruct (decide (P x)); [|done]. constructor; [done|].
  rewrite Forall_forall in *. intros y [_ Hy]%list_elem_of_filter. by apply Hx.
Qed.

Lemma sorted_filter {A : Type} (f : A -> Z) (P : A -> Prop) `{!forall x, Decision (P x)} (l : list A) :
  StronglySorted Z.lt (f <$> l) -> StronglySorted Z.lt (f <$> filter P l).
Proof.
  induction l as [|x l IH]; [done|]. rewrite fmap_cons. intros [Hs Hx]%StronglySorted_inv.
  rewrite filter_cons. destruct (decide (P x)); [|by apply IH]. rewrite fmap_cons. constructor; [by apply IH|].
  rewrite Forall_fmap, Forall_forall in *. intros y [_ Hy]%list_elem_of_filter. by apply Hx.
Qed.

Lemma sorted_le (l : list Z) : StronglySorted Z.lt l -> StronglySorted ord_le l.
Proof.
  induction 1 as [|x l Hs IH Hx]; constructor; [done|]. eapply Forall_impl; [exact Hx|].
  intros y Hxy. unfold ord_le, cmp, Z_ord. by rewrite (proj2 (Z.compare_lt_iff _ _) Hxy).
Qed.

(** What follows a page of a strictly sorted list is what lies beyond its last element. *)
Lemma filter_beyond {A : Type} (f : A -> Z) (l k : list A) x :
  StronglySorted Z.lt (f <$> (l ++ [x]) ++ k) -> filter (fun y => f x < f y) ((l ++ [x]) ++ k) = k.
Proof.
  rewrite filter_app, (fmap_app f (l ++ [x]) k). intros (Hlk & Hl & Hk)%StronglySorted_app.
  rewrite (filter_all _ k), (filter_none _ (l ++ [x])); [done| |].
  - apply Forall_forall. intros y Hy. rewrite fmap_snoc, strongly_sorted_snoc in Hl. destruct Hl as [_ Hl].
    apply elem_of_app in Hy as [Hy| ->%list_elem_of_singleton]; [|lia].
    rewrite Forall_fmap, Forall_forall in Hl. specialize (Hl y Hy). simpl in Hl. lia.
  - apply Forall_forall. intros y Hy. apply Hlk; [|by apply list_elem_of_fmap_2].
    rewrite fmap_snoc. set_solver.
Qed.

Section Journal.
Context `{U : Uuids, C : Chrono, J : Serde, Q : SqliteJson}.

(** ** What a row of the journal stands for *)

Definition is_task (t : TaskId) (e : EventEnvelope) : bool :=
  match e.(event) with Event.TaskLifecycle t' _ => t' =? t | _ => false end.

(** The events of a task in a journal. *)
Definition of_task (t : TaskId) (js : list EventEnvelope) : list EventEnvelope :=
  filter (fun e => is_task t e = true) js.

Definition encodes (e : EventEnvelope) (row : EventRow) : Prop :=
  event_text e.(event) = Some row.(event_json)
  /\ row.(er_id) = uuid_to_string e.(ee_id)
  /\ row.(er_session_id) = uuid_to_string e.(ee_session_id)
  /\ row.(er_turn_id) = uuid_to_string <$> e.(ee_turn_id)
  /\ row.(er_sequence) = e.(sequence) /\ 0 <= e.(sequence) <= i64_max
  /\ row.(er_timestamp) = format_timestamp e.(timestamp)
  /\ row.(er_schema_version) = EVENT_SCHEMA_VERSION.

(** The record of a configuration as a row, and back. *)
Definition configuration_to_row (c : TaskConfigurationRecord) : ConfigurationRow :=
  {| active_model := c.(tc_active_model); active_effort := as_codex_value c.(tc_active_effort);
     active_permission_mode := as_wire_str c.(tc_active_permission_mode);
     effective_permission_mode := as_wire_str c.(tc_effective_permission_mode);
     pending_control_id := c.(tc_pending_control_id); pending_model := c.(tc_pending_model);
     pending_effort := as_codex_value <$> c.(tc_pending_effort);
     pending_permission_mode := as_wire_str <$> c.(tc_pending_permission_mode);
     queued_sequence := c.(tc_queued_sequence); applied_sequence := c.(tc_applied_sequence) |}.

(** A [ModelId] is what [ModelId::parse] returns. *)
Definition model_ok (m : ModelId) : Prop := ModelId_parse m = Ok m.
Definition optional {A : Type} (P : A -> Prop) (o : option A) : Prop :=
  match o with Some a => P a | None => True end.

Definition configuration_ok (c : TaskConfigurationRecord) : Prop :=
  model_ok c.(tc_active_model) /\ optional model_ok c.(tc_pending_model)
  /\ optional (fun s => 0 <= s) c.(tc_queued_sequence)
  /\ optional (fun s => 0 <= s) c.(tc_applied_sequence)
  /\ is_some c.(tc_pending_model) = is_some c.(tc_pending_control_id)
  /\ is_some c.(tc_pending_effort) = is_some c.(tc_pending_control_id)
  /\ is_some c.(tc_pending_permission_mode) = is_some c.(tc_pending_control_id).

Lemma configuration_read c :
  configuration_ok c -> configuration_from_row (configuration_to_row c) = Ok c.
Proof.
  intros (Hm & Hp & Hq & Ha & _). unfold configuration_from_row, configuration_to_row, model_ok in *.
  cbn [active_model active_effort active_permission_mode effective_permission_mode pending_control_id
       pending_model pending_effort pending_permission_mode queued_sequence applied_sequence].
  destruct c as [am ae ap ee pc pm pe pp qs aps]; cbn [tc_active_model tc_active_effort
    tc_active_permission_mode tc_effective_permission_mode tc_pending_control_id tc_pending_model
    tc_pending_effort tc_pending_permission_mode tc_queued_sequence tc_applied_sequence] in *.
  assert (transpose ModelId_parse pm = Ok pm) as Hpm.
  { destruct pm; [|done]. unfold model_ok in Hp. cbn in *. by rewrite Hp. }
  assert (forall o, optional (fun s => 0 <= s) o -> transpose stored_u64 o = Ok o) as Hu.
  { intros [s|] Hs; [|done]. cbn in *. unfold stored_u64. by rewrite (proj2 (Z.leb_le _ _) Hs). }
  rewrite Hm. cbn [mbind result_bind]. rewrite parse_effort_str. cbn [mbind result_bind].
  rewrite !parse_mode_str. cbn [map_err mbind result_bind]. rewrite Hpm. cbn [mbind result_bind].
  destruct pe as [pe|]; cbn [fmap option_fmap option_map transpose]; [rewrite parse_effort_str|];
    (destruct pp as [pp|]; cbn [mbind result_bind fmap option_fmap option_map transpose];
      [rewrite parse_mode_str|]); cbn [map_err mbind result_bind]; rewrite (Hu qs Hq), (Hu aps Ha); done.
Qed.

Context `{!UuidLaws, !ChronoLaws, !SerdeLaws, !SqliteJsonLaws}.

Lemma uuid_inj a b : uuid_to_string a = uuid_to_string b -> a = b.
Proof. intros Hab. apply (f_equal uuid_parse) in Hab. rewrite !uuid_read in Hab. by injection Hab. Qed.

Lemma parse_id_str u : parse_id (uuid_to_string u) = Ok u.
Proof. unfold parse_id. by rewrite uuid_read. Qed.

Lemma parse_ids (o : option Z) : transpose parse_id (uuid_to_string <$> o) = Ok o.
Proof. destruct o as [u|]; [|done]. simpl. unfold parse_id. by rewrite uuid_read. Qed.

Lemma event_text_serialized e s :
  event_text e = Some s ->
  event_to_string {| ve_schema_version := EVENT_SCHEMA_VERSION; ve_payload := EventRef_from e |} = Some s.
Proof.
  unfold event_text, Event_serialize. intros Hs.
  destruct e; simpl in Hs; try done. by destruct (TaskEvent_validate _).
Qed.

Lemma encodes_into e row : encodes e row -> into_envelope row e.(ee_session_id) = Ok e.
Proof.
  intros (Ht & Hid & _ & Hturn & Hseq & Hrange & Hts & Hv). unfold into_envelope.
  destruct (event_read _ _ (event_text_serialized _ _ Ht)) as (v & Hval & Hver & Hrv & Hr4).
  rewrite Hv, Hseq, Hval, Hid, Hturn, Hts. cbn [ok_or mbind result_bind]. rewrite Hver.
  unfold parse_id, parse_timestamp, format_timestamp. rewrite parse_ids, uuid_read, timestamp_read.
  replace (sequence e <? 0) with false by (symmetry; apply Z.ltb_ge; lia).
  unfold Event_deserialize. rewrite Hrv, (Hr4 eq_refl). by destruct e as [? ? ? ? ? []].
Qed.

Lemma encodes_task t e row :
  encodes e row -> json_task_id row.(event_json) = Some (uuid_to_string t) <-> is_task t e = true.
Proof.
  intros (Ht & _). rewrite (json_task_read _ _ (event_text_serialized _ _ Ht)). unfold is_task.
  destruct (event e); simpl; try done. rewrite Z.eqb_eq. split; [|by intros ->].
  intros [= ?%uuid_inj]. done.
Qed.

(** ** The journal, page by page *)

Record journal_ok (js : list EventEnvelope) (db : Database) : Prop := {
  jo_rows : Forall2 encodes js db.(events);
  jo_next : forall s row, db.(sessions) !! s = Some row -> 1 <= row.(next_sequence);
  jo_sessions : forall e, e ∈ js -> exists row,
    db.(sessions) !! uuid_to_string e.(ee_session_id) = Some row
    /\ 1 <= e.(sequence) < row.(next_sequence);
  jo_sorted : forall s, StronglySorted Z.lt (sequence <$> filter (fun e => e.(ee_session_id) = s) js);
  jo_one_session : forall t e e', e ∈ of_task t js -> e' ∈ of_task t js ->
    e.(ee_session_id) = e'.(ee_session_id)
}.

Lemma elem_of_task t js e : e ∈ of_task t js <-> is_task t e = true /\ e ∈ js.
Proof. unfold of_task. by rewrite list_elem_of_filter. Qed.

Lemma of_task_snoc t js e :
  of_task t (js ++ [e]) = of_task t js ++ (if is_task t e then [e] else []).
Proof.
  unfold of_task. rewrite filter_app, filter_cons, filter_nil. by destruct (is_task t e).
Qed.

Lemma of_task_session t js e s :
  (forall e e', e ∈ of_task t js -> e' ∈ of_task t js -> e.(ee_session_id) = e'.(ee_session_id)) ->
  e ∈ of_task t js -> s = e.(ee_session_id) ->
  of_task t (filter (fun e => e.(ee_session_id) = s) js) = of_task t js.
Proof.
  intros Hone He ->. unfold of_task. rewrite !list_filter_filter. apply filter_iff_on.
  intros x Hx. split; [tauto|]. intros Hx'. split; [done|].
  apply Hone; [by apply elem_of_task|done].
Qed.

Lemma of_task_sorted t js db : journal_ok js db -> StronglySorted Z.lt (sequence <$> of_task t js).
Proof.
  intros Hj. destruct (of_task t js) as [|e es] eqn:He; [constructor|]. rewrite <-He.
  rewrite <-(of_task_session t js e e.(ee_session_id) (jo_one_session _ _ Hj t)); [|rewrite He; set_solver|done].
  apply sorted_filter, (jo_sorted _ _ Hj).
Qed.

Lemma of_task_range t js db e :
  journal_ok js db -> e ∈ of_task t js -> 1 <= e.(sequence) <= i64_max.
Proof.
  intros Hj [_ He]%elem_of_task. destruct (jo_sessions _ _ Hj e He) as (row & _ & Hr).
  split; [lia|]. apply list_elem_of_lookup in He as [i Hi].
  destruct (Forall2_lookup_l _ _ _ _ _ (jo_rows _ _ Hj) Hi) as (r & _ & Hr'). apply Hr'.
Qed.

(** The sessions SQLite finds for a task: none, or the one its events are in. *)
Lemma task_sessions t js db :
  journal_ok js db ->
  take 2 (btree_set (er_session_id <$>
    filter (fun row => json_task_id row.(event_json) = Some (uuid_to_string t)) db.(events)))
  = match of_task t js with [] => [] | e :: _ => [uuid_to_string e.(ee_session_id)] end.
Proof.
  intros Hj.
  assert (Forall2 encodes (of_task t js)
    (filter (fun row => json_task_id row.(event_json) = Some (uuid_to_string t)) db.(events))) as Hf.
  { apply Forall2_filter; [apply (jo_rows _ _ Hj)|]. intros e row _ He. by rewrite encodes_task. }
  set (rows := filter _ db.(events)) in *.
  destruct (of_task t js) as [|e es] eqn:Hes; [by inversion Hf|].
  assert (btree_set (er_session_id <$> rows) = [uuid_to_string e.(ee_session_id)]) as ->; [|done].
  apply (strict_ext _ _ (btree_set_strict _)); [by repeat constructor|]. intros s.
  rewrite elem_of_btree_set, list_elem_of_fmap, list_elem_of_singleton. split.
  - intros (row & -> & [i Hi]%list_elem_of_lookup).
    destruct (Forall2_lookup_r _ _ _ _ _ Hf Hi) as (e' & He' & _ & _ & Hs & _). rewrite Hs. f_equal.
    apply (jo_one_session _ _ Hj t); rewrite Hes; [by apply list_elem_of_lookup_2 with i|set_solver].
  - intros ->. inversion Hf as [|? row ? ? He]. exists row. split; [by destruct He as (_ & _ & -> & _)|set_solver].
Qed.

Lemma read_known_page t js db s after limit :
  journal_ok js db -> (forall e, e ∈ of_task t js -> e.(ee_session_id) = s) ->
  0 <= default 0 after <= i64_max -> 1 <= limit <= 512 ->
  read_task_event_page_for_known_session_from_connection db s t after limit
  = Ok (take (Z.to_nat limit) (filter (fun e => default 0 after < e.(sequence)) (of_task t js))).
Proof.
  intros Hj Hs Ha Hl. unfold read_task_event_page_for_known_session_from_connection, check_page_limit, within.
  replace (1 <=? limit) with true by lia. replace (limit <=? 512) with true by lia. simpl.
  assert (page_cursor after = Ok (default 0 after)) as ->.
  { destruct after as [a|]; [|done]. simpl in *. by replace (a <=? i64_max) with true by lia. }
  cbn [mbind result_bind]. apply Forall2_mapM.
  assert (Forall2 encodes (filter (fun e => default 0 after < e.(sequence)) (of_task t js))
    (filter (fun row => row.(er_session_id) = uuid_to_string s /\ default 0 after < row.(er_sequence)
                        /\ json_task_id row.(event_json) = Some (uuid_to_string t)) db.(events))) as Hf.
  { unfold of_task. rewrite list_filter_filter. apply Forall2_filter; [apply (jo_rows _ _ Hj)|].
    intros e' row He' Henc. rewrite (encodes_task t e' row Henc).
    destruct Henc as (_ & _ & -> & _ & -> & _). split; [intros [? ?]|intros (_ & ? & ?)]; [|done].
    split; [|done]. f_equal. apply Hs. by apply elem_of_task. }
  rewrite sort_by_key_id.
  - apply Forall2_take. eapply Forall2_with in Hf; [|apply Forall_forall, (fun e' (He' : e' ∈ filter _ _) =>
      Hs e' (proj2 (proj1 (list_elem_of_filter _ _ _) He')))].
    eapply Forall2_impl; [exact Hf|]. intros e' row [Henc <-]. by apply encodes_into.
  - rewrite <-(Forall2_fmap_same sequence er_sequence _ _ _ Hf).
    + apply sorted_le, sorted_filter. by eapply of_task_sorted.
    + by intros e' row (_ & _ & _ & _ & -> & _).
Qed.

Lemma read_page t js db after limit :
  journal_ok js db -> 0 <= default 0 after <= i64_max -> 1 <= limit <= 512 ->
  read_task_event_page_from_connection db t after limit
  = Ok (take (Z.to_nat limit) (filter (fun e => default 0 after < e.(sequence)) (of_task t js))).
Proof.
  intros Hj Ha Hl. unfold read_task_event_page_from_connection, check_page_limit, within.
  replace (1 <=? limit) with true by lia. replace (limit <=? 512) with true by lia. simpl.
  assert (page_cursor after = Ok (default 0 after)) as ->.
  { destruct after as [a|]; [|done]. simpl in *. by replace (a <=? i64_max) with true by lia. }
  simpl. rewrite (task_sessions t js db Hj).
  destruct (of_task t js) as [|e es] eqn:Hes; [by rewrite filter_nil, take_nil|]. rewrite <-Hes.
  rewrite uuid_read. simpl. unfold stored_u64. replace (0 <=? default 0 after) with true by lia. simpl.
  rewrite (read_known_page t js db e.(ee_session_id)); [done|done| |done|done].
  intros e' He'. apply (jo_one_session _ _ Hj t); [done|rewrite Hes; set_solver].
Qed.

(** Reading pages until one is empty visits what lies beyond the cursor once and in
    order. *)
Lemma page_loop_exact {S : Type} (read : option Z -> result CarlError (list EventEnvelope))
    (step : S -> EventEnvelope -> result CarlError S) (es : list EventEnvelope) :
  StronglySorted Z.lt (sequence <$> es) -> Forall (fun e => 1 <= e.(sequence) <= i64_max) es ->
  (forall after, 0 <= default 0 after <= i64_max ->
     read after = Ok (take 512 (filter (fun e => default 0 after < e.(sequence)) es))) ->
  forall fuel after s, 0 <= default 0 after <= i64_max ->
  (length (filter (fun e => (default 0 after < e.(sequence))%Z) es) < fuel)%nat ->
  page_loop fuel read step after s
  = Some (try_fold step s (filter (fun e => default 0 after < e.(sequence)) es)).
Proof.
  intros Hsort Hrange Hread fuel. induction fuel as [|fuel IH]; intros after s Ha Hfuel; [lia|].
  cbn [page_loop]. rewrite (Hread after Ha).
  set (l := filter (fun e => default 0 after < e.(sequence)) es) in *.
  destruct (take 512 l) as [|e0 page0] eqn:Hpage.
  { by destruct l. }
  rewrite <-Hpage in *.
  destruct (exists_last (l := take 512 l)) as (page & e & Hlast); [by rewrite Hpage|].
  replace (try_fold step s l) with (try_fold step s ((page ++ [e]) ++ drop 512 l))
    by (by rewrite <-Hlast, take_drop).
  rewrite Hlast, last_snoc, (try_fold_app step s (page ++ [e]) (drop 512 l)).
  destruct (try_fold step s (page ++ [e])) as [s'|err]; [|done]. cbn [mbind result_bind].
  assert (e ∈ es) as He.
  { assert (e ∈ l) as Hel; [|by apply list_elem_of_filter in Hel as [_ ?]].
    rewrite <-(take_drop 512 l), Hlast. set_solver. }
  rewrite Forall_forall in Hrange. specialize (Hrange e He) as He'.
  assert (filter (fun x => e.(sequence) < x.(sequence)) es = drop 512 l) as Hrest.
  { assert (filter (fun x => e.(sequence) < x.(sequence)) l = drop 512 l) as <-.
    - rewrite <-(take_drop 512 l) at 1. rewrite Hlast. apply filter_beyond. rewrite <-Hlast, take_drop.
      by apply sorted_filter.
    - unfold l. rewrite list_filter_filter. apply list_filter_iff. intros x. split; [|tauto].
      intros Hx. split; [done|]. assert (e ∈ l) as [? _]%list_elem_of_filter; [|lia].
      rewrite <-(take_drop 512 l), Hlast. set_solver. }
  simpl. rewrite IH; simpl; [by rewrite Hrest|lia|]. rewrite Hrest, length_drop.
  assert (length l <> 0)%nat by (intros ->%nil_length_inv; done). lia.
Qed.

(** The loop over the pages of one task. *)
Lemma task_pages_exact {S : Type} t js db read (step : S -> EventEnvelope -> result CarlError S) after s :
  journal_ok js db -> 0 <= default 0 after <= i64_max ->
  (forall after, 0 <= default 0 after <= i64_max ->
     read after = Ok (take 512 (filter (fun e => default 0 after < e.(sequence)) (of_task t js)))) ->
  page_loop (Datatypes.S (length db.(events))) read step after s
  = Some (try_fold step s (filter (fun e => default 0 after < e.(sequence)) (of_task t js))).
Proof.
  intros Hj Ha Hread. apply page_loop_exact; [| |done|done|].
  - by eapply of_task_sorted.
  - apply Forall_forall. intros e. by eapply of_task_range.
  - apply Nat.lt_succ_r. etrans; [apply length_filter|]. unfold of_task.
    etrans; [apply length_filter|]. by rewrite (Forall2_length _ _ _ (jo_rows _ _ Hj)).
Qed.

Lemma for_each_event_exact {S : Type} t js db (step : S -> EventEnvelope -> result CarlError S)
    after s :
  journal_ok js db -> 0 <= default 0 after <= i64_max ->
  for_each_event db t step after s
  = try_fold step s (filter (fun e => default 0 after < e.(sequence)) (of_task t js)).
Proof.
  intros Hj Ha. unfold for_each_event. rewrite (task_pages_exact t js); [done|done|done|].
  intros a Ha'. by apply read_page.
Qed.

Lemma for_each_event_all {S : Type} t js db (step : S -> EventEnvelope -> result CarlError S) s :
  journal_ok js db -> for_each_event db t step None s = try_fold step s (of_task t js).
Proof.
  intros Hj. rewrite (for_each_event_exact t js) by (done || (unfold i64_max; simpl; lia)).
  rewrite filter_all; [done|]. apply Forall_forall. intros e He. simpl.
  pose proof (of_task_range t js db e Hj He). lia.
Qed.

End Journal.
