(* ===== verification/StoreAuthority.v ===== *)
(** * The authority of the journal

    What [TaskStore] keeps true of the database: the journal of a session is
    strictly ordered, every task's events replay, and the tables that are read
    instead of the journal show exactly what it replays to. *)
From stdpp Require Import base gmap sets list sorting strings.
From S2P Require Import Prelude Ord Text Settings Policy TaskTypes Events Reducer Journal Metrics Database TaskStore StoreJournal.
From Stdlib Require Import ZArith Lia.
#[local] Open Scope list_scope.
#[local] Open Scope Z_scope.

Section Authority.
Context `{U : Uuids, C : Chrono, J : Serde, Q : SqliteJson}.
Context `{!UuidLaws, !ChronoLaws, !SerdeLaws, !SqliteJsonLaws}.

(** ** What the projections show *)

Definition row_shows (st : TaskSnapshot) (row : AgentTaskRow) : Prop :=
  row.(at_session_id) = uuid_to_string st.(session_id)
  /\ row.(at_status) = task_status_str st.(status)
  /\ contract_to_string st.(contract) = Some row.(contract_json)
  /\ budget_to_string st.(budget) = Some row.(budget_json)
  /\ snapshot_to_string st = Some row.(snapshot_json)
  /\ row.(at_revision) = st.(revision) /\ 0 <= st.(revision) <= i64_max
  /\ row.(current_epoch_id) = uuid_to_string <$> st.(active_epoch)
  /\ row.(latest_checkpoint_id) = uuid_to_string <$> st.(latest_checkpoint)
  /\ row.(at_provider_context) = st.(provider_context)
  /\ (exists created, row.(at_created_at) = format_timestamp created)
  /\ (exists updated, row.(at_updated_at) = format_timestamp updated).

Definition marker_sequence (m : str * MarkerRow) : Z := m.2.(mk_event_sequence).

(** The tables beside the snapshot show what the events [es] replay to. *)
Definition children_shown (db : Database) (t : TaskId) (es : list EventEnvelope) : Prop :=
  exists cfg markers ms,
    try_fold replay_task_child_projections (None, []) es = Ok (Some cfg, markers)
    /\ configuration_ok cfg
    /\ db.(task_configuration_state) !! uuid_to_string t = Some (configuration_to_row cfg)
    /\ marker_rows db t ≡ₚ ms /\ mapM marker_from_row ms = Ok markers
    /\ StronglySorted Z.lt (marker_sequence <$> ms)
    /\ Forall (fun m => exists e, e ∈ es /\ e.(sequence) = marker_sequence m) ms.

Record task_shown (db : Database) (t : TaskId) (es : list EventEnvelope) (row : AgentTaskRow)
    (st : TaskSnapshot) : Prop := {
  ts_history : history es st;
  ts_id : st.(task_id) = t;
  ts_row : row_shows st row;
  ts_children : children_shown db t es
}.

Record store_ok (js : list EventEnvelope) (db : Database) : Prop := {
  so_journal : journal_ok js db;
  so_tasks : forall t, match db.(agent_tasks) !! uuid_to_string t with
    | Some row => exists st, task_shown db t (of_task t js) row st
    | None => of_task t js = []
    end;
  so_keys : forall k row, db.(agent_tasks) !! k = Some row -> exists t, k = uuid_to_string t;
  so_markers : forall k c row, db.(task_control_markers) !! (k, c) = Some row ->
    is_Some (db.(agent_tasks) !! k)
}.

Lemma record_read t st row created updated :
  row_shows st row -> st.(task_id) = t -> row.(at_created_at) = format_timestamp created ->
  row.(at_updated_at) = format_timestamp updated ->
  record_from_row t row = Ok {| snapshot := st; tk_revision := st.(revision);
    tk_created_at := created; tk_updated_at := updated |}.
Proof.
  intros (Hs & Hst & Hc & Hb & Hsn & Hr & Hpos & He & Hk & Hp & _) <- Hcr Hup. unfold record_from_row.
  rewrite (snapshot_read _ _ Hsn). cbn [ok_or mbind result_bind].
  rewrite (contract_read _ _ Hc). cbn [ok_or mbind result_bind].
  rewrite (budget_read _ _ Hb). cbn [ok_or mbind result_bind].
  unfold stored_u64. rewrite Hr. replace (0 <=? revision st) with true by lia. cbn [mbind result_bind].
  rewrite Hst, parse_task_status_str. cbn [mbind result_bind].
  rewrite Hs, parse_id_str. cbn [ok_or mbind result_bind].
  rewrite He, Hk, !parse_ids. cbn [mbind result_bind].
  rewrite Hp, !Z.eqb_refl, !bool_decide_eq_true_2 by done. cbn [negb orb reject mbind result_bind].
  unfold parse_timestamp, format_timestamp in *. by rewrite Hcr, Hup, !timestamp_read.
Qed.

Lemma load_task_shown js db t :
  store_ok js db ->
  match load_task_record db t with
  | Ok None => db.(agent_tasks) !! uuid_to_string t = None /\ of_task t js = []
  | Ok (Some record) => exists row,
      db.(agent_tasks) !! uuid_to_string t = Some row
      /\ task_shown db t (of_task t js) row record.(snapshot)
      /\ record.(tk_revision) = record.(snapshot).(revision)
      /\ row.(at_created_at) = format_timestamp record.(tk_created_at)
      /\ row.(at_updated_at) = format_timestamp record.(tk_updated_at)
  | Err _ => False
  end.
Proof.
  intros [Hj Ht _ _]. specialize (Ht t). unfold load_task_record.
  destruct (agent_tasks db !! uuid_to_string t) as [row|]; [|done].
  destruct Ht as [st Hst]. cbn [transpose].
  pose proof (ts_row _ _ _ _ _ Hst) as (_ & _ & _ & _ & _ & _ & _ & _ & _ & _ & [created Hc] & [updated Hu]).
  rewrite (record_read t st row created updated (ts_row _ _ _ _ _ Hst) (ts_id _ _ _ _ _ Hst) Hc Hu).
  cbn [mbind result_bind]. by exists row.
Qed.

Lemma load_markers db t ms markers :
  marker_rows db t ≡ₚ ms -> StronglySorted Z.lt (marker_sequence <$> ms) ->
  mapM marker_from_row ms = Ok markers ->
  load_task_control_marker_projections db t = Ok markers.
Proof.
  intros Hp Hs Hm. unfold load_task_control_marker_projections.
  replace (sort_by_key _ _) with ms; [done|]. symmetry.
  rewrite (sort_by_key_perm marker_sequence _ ms); [|rewrite Hp; by apply strict_NoDup_Z|done].
  apply sort_by_key_id. by apply sorted_le.
Qed.

(** ** Replay confirms the projections *)

Lemma replay_authority_both es children children' o o' :
  try_fold replay_task_child_projections children es = Ok children' ->
  try_fold (fun st env => Some <$> reduce_task st env) o es = Ok o' ->
  try_fold replay_authority (children, o) es = Ok (children', o').
Proof.
  revert children o. induction es as [|e es IH]; intros children o; simpl.
  { by intros [= ->] [= ->]. }
  unfold replay_authority at 2. simpl. destruct (replay_task_child_projections children e); [|done].
  destruct (reduce_task o e) as [st|]; [|done]. simpl. apply IH.
Qed.

Lemma validate_shown js db t row :
  store_ok js db -> db.(agent_tasks) !! uuid_to_string t = Some row ->
  exists record cfg, validate_task_authority_from_journal db t = Ok (record, cfg)
    /\ load_task_record db t = Ok (Some record)
    /\ load_task_configuration_record db t = Ok (Some cfg)
    /\ history (of_task t js) record.(snapshot) /\ record.(snapshot).(task_id) = t.
Proof.
  intros Hok Hrow. pose proof (load_task_shown js db t Hok) as Hl.
  destruct (load_task_record db t) as [[record|]|e] eqn:Hload; [|destruct Hl; congruence|done].
  destruct Hl as (row' & Hrow' & [Hh Hid _ Hch] & Hrev & _).
  destruct Hch as (cfg & markers & ms & Hrep & Hcok & Hcfg & Hperm & Hms & Hsort & _).
  exists record, cfg. unfold validate_task_authority_from_journal. rewrite Hload. cbn [ok_or mbind result_bind].
  rewrite (for_each_event_all t js db _ _ (so_journal _ _ Hok)).
  pose proof (proj1 (history_iff_replay _ _) Hh) as [Hreplay _].
  rewrite (replay_authority_both _ _ _ _ _ Hrep Hreplay). cbn [ok_or mbind result_bind].
  rewrite Hrev, Z.eqb_refl, !bool_decide_eq_true_2 by done. cbn [negb orb reject mbind result_bind].
  assert (load_task_configuration_record db t = Ok (Some cfg)) as Hlc.
  { unfold load_task_configuration_record. rewrite Hcfg. cbn [transpose]. by rewrite (configuration_read _ Hcok). }
  rewrite Hlc. cbn [ok_or mbind result_bind]. rewrite bool_decide_eq_true_2 by done.
  cbn [negb reject mbind result_bind]. rewrite (load_markers db t ms markers Hperm Hsort Hms).
  cbn [mbind result_bind]. rewrite bool_decide_eq_true_2 by done. cbn [negb reject mbind result_bind].
  split_and!; try done. rewrite <-Hrev. by destruct record.
Qed.

(** ** Visiting every task *)

(** The identifiers of the tasks in the journal, in their order. *)
Definition journal_task_ids (db : Database) : list str :=
  btree_set (omap (fun row => json_task_id row.(event_json)) db.(events)).

Definition visit_task (db : Database) (records : list TaskRecord) (stored_task_id : str) :
    result CarlError (list TaskRecord) :=
  task_id ← ok_or (uuid_parse stored_task_id)
    (storage_invariant (lit "task journal contains an invalid task identifier"));
  record ← validate_task_projection_from_journal db task_id;
  Ok (records ++ [record]).

Lemma is_after_beyond (l k : list str) x :
  StronglySorted ord_lt ((l ++ [x]) ++ k) ->
  filter (fun id => is_after (Some x) id = true) ((l ++ [x]) ++ k) = k.
Proof.
  rewrite filter_app. intros (Hlk & Hl & Hk)%StronglySorted_app.
  assert (forall id, is_after (Some x) id = true <-> ord_lt x id) as Ha.
  { intros id. unfold is_after, ord_lt. by destruct (cmp x id). }
  rewrite (filter_all _ k), (filter_none _ (l ++ [x])); [done| |].
  - apply Forall_forall. intros y Hy Hxy%Ha.
    apply StronglySorted_app in Hl as (Hlx & _ & _).
    apply elem_of_app in Hy as [Hy| ->%list_elem_of_singleton]; [|by apply (irreflexivity ord_lt x)].
    apply (irreflexivity ord_lt x). etrans; [exact Hxy|]. apply Hlx; set_solver.
  - apply Forall_forall. intros y Hy. apply Ha, Hlk; set_solver.
Qed.

(** The loop over the pages visits every identifier beyond the cursor. *)
Lemma visit_pages_exact db fuel after records :
  (length (filter (fun id => is_after after id = true) (journal_task_ids db)) < fuel)%nat ->
  visit_task_pages fuel db after records
  = Some (try_fold (visit_task db) records
            (filter (fun id => is_after after id = true) (journal_task_ids db))).
Proof.
  revert after records. induction fuel as [|fuel IH]; intros after records Hfuel; [lia|].
  cbn [visit_task_pages]. unfold read_journal_task_id_page.
  fold (journal_task_ids db) (visit_task db).
  set (l := filter (fun id => is_after after id = true) (journal_task_ids db)) in *.
  assert (StronglySorted ord_lt l) as Hs by apply strongly_sorted_filter, btree_set_strict.
  destruct (take 512 l) as [|x0 page0] eqn:Hpage; [by destruct l|]. rewrite <-Hpage in *.
  destruct (exists_last (l := take 512 l)) as (page & x & Hlast); [by rewrite Hpage|].
  replace (try_fold (visit_task db) records l)
    with (try_fold (visit_task db) records ((page ++ [x]) ++ drop 512 l))
    by (by rewrite <-Hlast, take_drop).
  rewrite Hlast, last_snoc, (try_fold_app (visit_task db) records (page ++ [x]) (drop 512 l)).
  destruct (try_fold (visit_task db) records (page ++ [x])) as [records'|]; [|done]. cbn [mbind result_bind].
  assert (filter (fun id => is_after (Some x) id = true) (journal_task_ids db) = drop 512 l) as Hrest.
  { transitivity (filter (fun id => is_after (Some x) id = true) l).
    - unfold l. rewrite list_filter_filter. apply list_filter_iff. intros y. split; [|tauto].
      intros Hy. split; [done|]. assert (x ∈ l) as [Hx _]%list_elem_of_filter.
      { rewrite <-(take_drop 512 l), Hlast. set_solver. }
      destruct after as [a|]; [|done]. unfold is_after in *.
      destruct (cmp a x) eqn:Hax; try done. destruct (cmp x y) eqn:Hxy; try done.
      assert (ord_lt a y) as Hay by (by transitivity x). unfold ord_lt in Hay. by rewrite Hay.
    - rewrite <-(take_drop 512 l) at 1. rewrite Hlast. apply is_after_beyond. by rewrite <-Hlast, take_drop. }
  rewrite IH; [by rewrite Hrest|]. rewrite Hrest, length_drop.
  assert (length l <> 0)%nat by (intros ->%nil_length_inv; done). lia.
Qed.

Lemma journal_task_id js db k :
  journal_ok js db -> k ∈ journal_task_ids db <-> exists t, k = uuid_to_string t /\ of_task t js <> [].
Proof.
  intros Hj. unfold journal_task_ids. rewrite elem_of_btree_set, list_elem_of_omap. split.
  - intros (row & [i Hi]%list_elem_of_lookup & Hk).
    destruct (Forall2_lookup_r _ _ _ _ _ (jo_rows _ _ Hj) Hi) as (e & He & Henc).
    pose proof Henc as (Ht & _). pose proof (json_task_read _ _ (event_text_serialized _ _ Ht)) as Hjt.
    destruct (event e) eqn:Hev; simpl in Hjt; simplify_eq.
    match type of Hev with _ = Event.TaskLifecycle ?t _ => exists t end. split; [congruence|].
    apply elem_of_not_nil with e, elem_of_task. split; [unfold is_task; rewrite Hev; by apply Z.eqb_eq|].
    by apply list_elem_of_lookup_2 with i.
  - intros (t & -> & Hne). destruct (of_task t js) as [|e es] eqn:Hes; [done|].
    assert (e ∈ of_task t js) as He by (rewrite Hes; set_solver). pose proof He as [Hte [i Hi]%list_elem_of_lookup]%elem_of_task.
    destruct (Forall2_lookup_l _ _ _ _ _ (jo_rows _ _ Hj) Hi) as (row & Hrow & Henc).
    exists row. split; [by apply list_elem_of_lookup_2 with i|]. by apply (encodes_task t e).
Qed.

Lemma stored_task_id js db k :
  store_ok js db -> k ∈ journal_task_ids db <-> is_Some (db.(agent_tasks) !! k).
Proof.
  intros [Hj Ht Hk _]. rewrite (journal_task_id js db k Hj). split.
  - intros (t & -> & Hne). specialize (Ht t). by destruct (agent_tasks db !! uuid_to_string t).
  - intros [row Hrow]. destruct (Hk k row Hrow) as [t ->]. exists t. split; [done|].
    specialize (Ht t). rewrite Hrow in Ht. destruct Ht as (st & Hs). by eapply history_nonempty, ts_history.
Qed.

Lemma visit_shown js db ids records :
  store_ok js db -> (forall k, k ∈ ids -> is_Some (db.(agent_tasks) !! k)) ->
  exists visited, try_fold (visit_task db) records ids = Ok (records ++ visited)
    /\ Forall2 (fun k record => exists t, k = uuid_to_string t
         /\ load_task_record db t = Ok (Some record)) ids visited.
Proof.
  intros Hok. revert records. induction ids as [|k ids IH]; intros records Hids.
  { exists []. rewrite app_nil_r. done. }
  destruct (Hids k) as [row Hrow]; [set_solver|]. destruct (so_keys _ _ Hok k row Hrow) as [t ->].
  destruct (validate_shown js db t row Hok Hrow) as (record & cfg & Hval & Hload & _).
  cbn [try_fold]. unfold visit_task at 2. rewrite uuid_read. cbn [ok_or mbind result_bind].
  unfold validate_task_projection_from_journal. rewrite Hval. cbn [fmap result_fmap fst mbind result_bind].
  destruct (IH (records ++ [record])) as (visited & Hv & Hf); [set_solver|].
  exists (record :: visited). cbn. rewrite Hv, <-app_assoc. split; [done|]. constructor; eauto.
Qed.

Lemma visit_ok js db :
  store_ok js db -> exists records, visit_authoritative_task_records db = Ok records
    /\ Forall2 (fun k record => exists t, k = uuid_to_string t
         /\ load_task_record db t = Ok (Some record)) (journal_task_ids db) records.
Proof.
  intros Hok. destruct (visit_shown js db (journal_task_ids db) [] Hok) as (records & Hv & Hf).
  { intros k. by rewrite (stored_task_id js). }
  exists records. split; [|done]. unfold visit_authoritative_task_records.
  rewrite visit_pages_exact, filter_all; simpl; [|by apply Forall_forall| ].
  - rewrite Hv. simpl. replace (orphan_projection db) with false; [done|]. symmetry.
    apply existsb_false, Forall_forall. intros [k row] Hrow%elem_of_map_to_list. apply negb_false_iff.
    assert (k ∈ journal_task_ids db) as Hk by (apply (stored_task_id js db k Hok); eauto).
    unfold journal_task_ids in Hk. rewrite elem_of_btree_set, list_elem_of_omap in Hk.
    destruct Hk as (r & Hr & Hj). apply existsb_exists. exists r. split; [by apply list_elem_of_In|].
    by apply bool_decide_eq_true.
  - apply Nat.lt_succ_r. etrans; [apply length_filter|]. unfold journal_task_ids, btree_set.
    etrans; [apply length_dedup|]. unfold sort. rewrite sort_by_perm. apply length_omap.
Qed.

(** ** Appending to the journal *)

Lemma append_event_inv db db1 s turn ev now id env :
  append_event_in_transaction s turn ev now id db = Ok (db1, env) ->
  exists row text, db.(sessions) !! uuid_to_string s = Some row
    /\ env = {| ee_id := id; ee_session_id := s; ee_turn_id := turn; sequence := row.(next_sequence);
                timestamp := now; event := ev |}
    /\ event_text ev = Some text /\ row.(next_sequence) < i64_max
    /\ db1 = set_events (db.(events) ++ [
         {| er_id := uuid_to_string id; er_session_id := uuid_to_string s;
            er_turn_id := uuid_to_string <$> turn; er_sequence := row.(next_sequence);
            er_timestamp := format_timestamp now; er_schema_version := EVENT_SCHEMA_VERSION;
            event_json := text |}])
         (set_sessions (<[uuid_to_string s := {| sn_created_at := row.(sn_created_at);
            sn_updated_at := format_timestamp now; next_sequence := row.(next_sequence) + 1 |}]>
            db.(sessions)) db).
Proof.
  unfold append_event_in_transaction. intros Happ. autorewrite with carl in Happ.
  destruct Happ as (dbs & seq & Htake & Happ). unfold take_sequence in Htake.
  destruct (sessions db !! uuid_to_string s) as [row|] eqn:Hrow; [|done].
  destruct (_ || _) eqn:Hmax in Htake; [done|]. injection Htake as <- <-.
  carl_simpl. apply tx_bind_ok in Happ as (? & ? & [? ->]%from_ok & Happ).
  apply tx_bind_ok in Happ as (? & text & [Htext ->]%from_ok & Happ).
  apply tx_bind_ok in Happ as (? & stored & [Hst ->]%from_ok & Happ).
  apply tx_bind_ok in Happ as (db2 & ? & Hins & [-> ->]%mret_ok).
  unfold insert_event in Hins. destruct (_ || _) in Hins; [done|]. injection Hins as <-.
  apply ok_or_ok in Htext. unfold revision_to_sql in Hst. destruct (_ <=? _) eqn:Hle; [|done].
  injection Hst as <-. exists row, text. split_and!; try done. lia.
Qed.

(** The new event carries the next number of its session. *)
Lemma append_event_ok js db db1 s turn ev now id env :
  append_event_in_transaction s turn ev now id db = Ok (db1, env) -> journal_ok js db ->
  (forall t ev' e, ev = Event.TaskLifecycle t ev' -> e ∈ of_task t js -> e.(ee_session_id) = s) ->
  env.(event) = ev /\ env.(ee_session_id) = s /\ env.(timestamp) = now
  /\ journal_ok (js ++ [env]) db1
  /\ Forall (fun e => e.(ee_session_id) = s -> e.(sequence) < env.(sequence)) js
  /\ 1 <= env.(sequence) <= i64_max
  /\ exists es ss, db1 = set_events es (set_sessions ss db).
Proof.
  intros (row & text & Hrow & -> & Htext & Hmax & ->)%append_event_inv Hj Hone. cbn.
  pose proof (jo_next _ _ Hj _ _ Hrow) as Hnext.
  assert (Forall (fun e => e.(ee_session_id) = s -> e.(sequence) < next_sequence row) js) as Hbelow.
  { apply Forall_forall. intros e He <-. destruct (jo_sessions _ _ Hj e He) as (r & Hr & Hlt).
    rewrite Hrow in Hr. simplify_eq. lia. }
  split_and!; try done; try lia; [|by do 2 eexists]. constructor; cbn.
  - apply Forall2_app; [apply (jo_rows _ _ Hj)|]. constructor; [|constructor].
    unfold encodes. cbn. split_and!; try done; lia.
  - intros k r [[<- <-]|[_ Hr]]%lookup_insert_Some; cbn; [lia|by eapply jo_next].
  - intros e [He| ->%list_elem_of_singleton]%elem_of_app; cbn.
    + destruct (jo_sessions _ _ Hj e He) as (r & Hr & Hlt).
      destruct (decide (uuid_to_string s = uuid_to_string (ee_session_id e))) as [Heq|Hne].
      * rewrite Heq in *. rewrite lookup_insert_eq. eexists. split; [done|]. cbn. simplify_eq. lia.
      * rewrite lookup_insert_ne by done. eauto.
    + rewrite lookup_insert_eq. eexists. split; [done|]. cbn. lia.
  - intros s'. rewrite filter_app, filter_cons, filter_nil. cbn.
    destruct (decide (s = s')) as [->|]; [|rewrite app_nil_r; apply (jo_sorted _ _ Hj)].
    rewrite fmap_snoc, strongly_sorted_snoc. split; [apply (jo_sorted _ _ Hj)|]. cbn.
    apply Forall_fmap, Forall_forall. intros e [Hs He]%list_elem_of_filter.
    rewrite Forall_forall in Hbelow. by apply Hbelow.
  - assert (forall t e, e ∈ of_task t js ->
      is_task t {| ee_id := id; ee_session_id := s; ee_turn_id := turn;
        sequence := next_sequence row; timestamp := now; event := ev |} = true ->
      e.(ee_session_id) = s) as Hnew.
    { unfold is_task. cbn. intros t e He Ht. destruct ev; try done. apply Z.eqb_eq in Ht as ->. eauto. }
    intros t e e'. rewrite of_task_snoc, !elem_of_app.
    destruct (is_task t _) eqn:Ht; [|intros [?|[]%elem_of_nil] [?|[]%elem_of_nil]; eauto using jo_one_session].
    rewrite !list_elem_of_singleton. intros [He| ->] [He'| ->]; cbn; eauto using jo_one_session.
    symmetry. eauto.
Qed.

(** ** What an event changes beside the snapshot *)

Definition same_rest (db db' : Database) : Prop :=
  db'.(sessions) = db.(sessions) /\ db'.(events) = db.(events)
  /\ db'.(agent_tasks) = db.(agent_tasks)
  /\ db'.(service_task_receipts) = db.(service_task_receipts).

Definition same_children (db db' : Database) : Prop :=
  db'.(task_configuration_state) = db.(task_configuration_state)
  /\ db'.(task_control_markers) = db.(task_control_markers).

Definition child_effect (task : str) (env : EventEnvelope) (ev : TaskEvent) (db db' : Database) : Prop :=
  match ev with
  | TaskEvent.ConfigurationQueued c m e p =>
      db'.(task_control_markers) = db.(task_control_markers)
      /\ exists row mode, db.(task_configuration_state) !! task = Some row
         /\ PermissionMode_from_str row.(effective_permission_mode) = Ok mode
         /\ db'.(task_configuration_state) = <[task :=
              {| active_model := row.(active_model); active_effort := row.(active_effort);
                 active_permission_mode := row.(active_permission_mode);
                 effective_permission_mode :=
                   as_wire_str (if permission_strength p <? permission_strength mode then p else mode);
                 pending_control_id := Some c; pending_model := Some m;
                 pending_effort := Some (as_codex_value e);
                 pending_permission_mode := Some (as_wire_str p);
                 queued_sequence := Some env.(sequence); applied_sequence := row.(applied_sequence) |}]>
              db.(task_configuration_state)
  | TaskEvent.ConfigurationApplied c =>
      db'.(task_control_markers) = db.(task_control_markers)
      /\ exists row, db.(task_configuration_state) !! task = Some row
         /\ row.(pending_control_id) = Some c
         /\ db'.(task_configuration_state) = <[task :=
              {| active_model := default [] row.(pending_model);
                 active_effort := default [] row.(pending_effort);
                 active_permission_mode := default [] row.(pending_permission_mode);
                 effective_permission_mode := default [] row.(pending_permission_mode);
                 pending_control_id := None; pending_model := None; pending_effort := None;
                 pending_permission_mode := None; queued_sequence := None;
                 applied_sequence := Some env.(sequence) |}]> db.(task_configuration_state)
  | TaskEvent.ControlRequested c k =>
      db'.(task_configuration_state) = db.(task_configuration_state)
      /\ db.(task_control_markers) !! (task, c) = None
      /\ db'.(task_control_markers) = <[(task, c) :=
           {| mk_kind := task_control_kind_str k; mk_event_sequence := env.(sequence);
              mk_created_at := format_timestamp env.(timestamp) |}]> db.(task_control_markers)
  | _ => same_children db db'
  end.

Lemma child_projection_effect t env ev db db' u :
  env.(event) = Event.TaskLifecycle t ev ->
  apply_task_child_projection t env db = Ok (db', u) ->
  same_rest db db' /\ child_effect (uuid_to_string t) env ev db db'.
Proof.
  intros Hev. unfold apply_task_child_projection. rewrite Hev.
  destruct ev; intros Happ; tx_simpl; unfold project_epoch_started, project_epoch_finished,
    project_epoch_interrupted, end_epoch, project_configuration_queued, project_configuration_applied,
    project_control_requested, project_operation_intent, project_operation_transition,
    insert_checkpoint, project_compaction_completed, insert_package, project_steering_queued in *;
    tx_simpl; try (by cbn).
  - match goal with H : _ <$> _ = Some _ |- _ => apply fmap_Some in H as (? & ? & ->) end.
    simplify_eq. cbn. do 2 (split; [done|]). eauto 10.
  - cbn. do 2 (split; [done|]). eauto 10.
  - case_match; tx_simpl; by cbn.
Qed.

(** The models an event names are [ModelId]s. *)
Definition models_ok (ev : TaskEvent) : Prop :=
  match ev with
  | TaskEvent.Created _ _ _ _ m _ _ | TaskEvent.ConfigurationQueued _ m _ _ => model_ok m
  | _ => True
  end.

Lemma marker_rows_insert db db' t t' c row :
  db.(task_control_markers) !! (uuid_to_string t, c) = None ->
  db'.(task_control_markers) = <[(uuid_to_string t, c) := row]> db.(task_control_markers) ->
  marker_rows db' t' ≡ₚ (if decide (t' = t) then [(c, row)] else []) ++ marker_rows db t'.
Proof.
  intros Hnone Heq. unfold marker_rows. rewrite Heq, map_to_list_insert by done. cbn.
  case_decide as Ht; [subst; by rewrite bool_decide_eq_true_2|].
  rewrite bool_decide_eq_false_2; [done|]. intros ?%uuid_inj. by apply Ht.
Qed.

Lemma marker_rows_lookup db t c row :
  (c, row) ∈ marker_rows db t <-> db.(task_control_markers) !! (uuid_to_string t, c) = Some row.
Proof.
  unfold marker_rows. rewrite list_elem_of_omap. split.
  - intros ([[task c'] row'] & Hin%elem_of_map_to_list & Heq). case_bool_decide; [|done].
    by simplify_eq.
  - intros Hl%elem_of_map_to_list. eexists. split; [exact Hl|]. cbn. by rewrite bool_decide_eq_true_2.
Qed.

Lemma marker_rows_same db db' t :
  db'.(task_control_markers) = db.(task_control_markers) -> marker_rows db' t = marker_rows db t.
Proof. unfold marker_rows. by intros ->. Qed.

(** The configuration and the markers of a task whose rows did not change. *)
Lemma children_frame db db' t es :
  children_shown db t es ->
  db'.(task_configuration_state) !! uuid_to_string t = db.(task_configuration_state) !! uuid_to_string t ->
  marker_rows db' t ≡ₚ marker_rows db t -> children_shown db' t es.
Proof.
  intros (cfg & markers & ms & Hrep & Hok & Hcfg & Hp & Hm & Hs & Hf) Heq Hmr.
  exists cfg, markers, ms. split_and!; try done; [by rewrite Heq|by rewrite Hmr].
Qed.

Lemma markers_from_rows ms markers c :
  mapM marker_from_row ms = Ok markers ->
  (forall row, (c, row) ∈ ms -> False) -> existsb (fun '(existing, _, _) => existing =?? c) markers = false.
Proof.
  revert markers. induction ms as [|[c' row] ms IH]; intros markers Hm Hno; simpl in Hm; [by inversion Hm|].
  apply bind_ok in Hm as (m & Hrow & Hm). apply bind_ok in Hm as (rest & Hrest & [= <-]).
  unfold marker_from_row in Hrow. carl_simpl. simplify_eq. simpl.
  rewrite bool_decide_eq_false_2; [|intros ->; apply (Hno row); set_solver].
  apply IH; [done|]. intros row' Hin. apply (Hno row'). set_solver.
Qed.

Lemma children_replayed es env children children' :
  try_fold replay_task_child_projections (None, []) es = Ok children ->
  replay_task_child_projections children env = Ok children' ->
  try_fold replay_task_child_projections (None, []) (es ++ [env]) = Ok children'.
Proof. intros Hes Henv. rewrite try_fold_app, Hes. simpl. by rewrite Henv. Qed.

Lemma known_later (es : list EventEnvelope) env ms :
  Forall (fun m => exists e, e ∈ es /\ e.(sequence) = marker_sequence m) ms ->
  Forall (fun m => exists e, e ∈ es ++ [env] /\ e.(sequence) = marker_sequence m) ms.
Proof. intros Hf. eapply Forall_impl; [exact Hf|]. intros m (e & He & Hs). exists e. set_solver. Qed.

Lemma children_queued db db' t es env c m e p :
  children_shown db t es -> 1 <= env.(sequence) ->
  env.(event) = Event.TaskLifecycle t (TaskEvent.ConfigurationQueued c m e p) -> model_ok m ->
  child_effect (uuid_to_string t) env (TaskEvent.ConfigurationQueued c m e p) db db' ->
  children_shown db' t (es ++ [env]).
Proof.
  intros (cfg & markers & ms & Hrep & (Ham & Hpm & Hq & Ha & Hpend) & Hcfg & Hp & Hm & Hs & Hf) Hseq Hev Hmok.
  intros (Hmk & row & mode & Hrow & Hmode & Heq). rewrite Hcfg in Hrow. injection Hrow as <-.
  cbn in Hmode. rewrite parse_mode_str in Hmode. injection Hmode as <-.
  eexists _, markers, ms. split.
  { eapply children_replayed; [exact Hrep|]. simpl. rewrite Hev. done. }
  split; [by repeat split; cbn; try done; lia|]. rewrite Heq, lookup_insert_eq.
  split; [done|]. rewrite (marker_rows_same db db' t Hmk). split_and!; try done. by apply known_later.
Qed.

Lemma children_applied db db' t es env c :
  children_shown db t es -> 1 <= env.(sequence) ->
  env.(event) = Event.TaskLifecycle t (TaskEvent.ConfigurationApplied c) ->
  child_effect (uuid_to_string t) env (TaskEvent.ConfigurationApplied c) db db' ->
  children_shown db' t (es ++ [env]).
Proof.
  intros (cfg & markers & ms & Hrep & (Ham & Hpm & Hq & Ha & Hpend) & Hcfg & Hp & Hm & Hs & Hf) Hseq Hev.
  intros (Hmk & row & Hrow & Hpc & Heq). rewrite Hcfg in Hrow. injection Hrow as <-. cbn in Hpc.
  rewrite Hpc in Hpend. destruct Hpend as (Hm1 & He1 & Hp1).
  destruct (tc_pending_model cfg) as [m|] eqn:Hm2; [|done].
  destruct (tc_pending_effort cfg) as [e|] eqn:He2; [|done].
  destruct (tc_pending_permission_mode cfg) as [p|] eqn:Hp2; [|done].
  eexists _, markers, ms. split.
  { eapply children_replayed; [exact Hrep|]. simpl. rewrite Hev. simpl.
    unfold replay_configuration_applied. rewrite Hpc, bool_decide_eq_true_2, Hm2, He2, Hp2; done. }
  split; [by repeat split; cbn; try done; lia|]. rewrite Heq, lookup_insert_eq. cbn.
  rewrite Hm2, He2, Hp2. split; [done|]. rewrite (marker_rows_same db db' t Hmk).
  split_and!; try done. by apply known_later.
Qed.

Lemma children_control db db' t es env c k :
  children_shown db t es -> Forall (fun e => e.(sequence) < env.(sequence)) es -> 1 <= env.(sequence) ->
  env.(event) = Event.TaskLifecycle t (TaskEvent.ControlRequested c k) ->
  child_effect (uuid_to_string t) env (TaskEvent.ControlRequested c k) db db' ->
  children_shown db' t (es ++ [env]).
Proof.
  intros (cfg & markers & ms & Hrep & Hcok & Hcfg & Hp & Hm & Hs & Hf) Hlt Hseq Hev (Hc & Hnone & Heq).
  set (row := {| mk_kind := _ |}) in Heq. exists cfg, (markers ++ [(c, k, env.(sequence))]), (ms ++ [(c, row)]).
  split.
  { eapply children_replayed; [exact Hrep|]. simpl. rewrite Hev.
    rewrite (markers_from_rows ms markers c Hm); [done|]. intros row'. rewrite <-Hp, marker_rows_lookup. congruence. }
  split; [done|]. rewrite Hc. split; [done|].
  rewrite (marker_rows_insert db db' t t c row Hnone Heq), decide_True by done. split.
  { rewrite Hp. apply (Permutation_app_comm [(c, row)] ms). }
  split.
  { apply mapM_snoc; [done|]. unfold marker_from_row. simpl. rewrite parse_control_kind_str. simpl.
    unfold stored_u64. by replace (0 <=? sequence env) with true by lia. }
  rewrite fmap_snoc, strongly_sorted_snoc, Forall_fmap. split.
  - split; [done|]. apply Forall_forall. intros m Hin. rewrite Forall_forall in Hlt.
    rewrite Forall_forall in Hf. destruct (Hf m Hin) as (e & He & Hm').
    specialize (Hlt e He). unfold marker_sequence in *. simpl. lia.
  - apply Forall_app. split; [by apply known_later|]. constructor; [|constructor]. exists env. set_solver.
Qed.

Lemma children_step db db' t es env ev :
  children_shown db t es -> Forall (fun e => e.(sequence) < env.(sequence)) es -> 1 <= env.(sequence) ->
  env.(event) = Event.TaskLifecycle t ev -> is_created ev = false -> models_ok ev ->
  child_effect (uuid_to_string t) env ev db db' -> children_shown db' t (es ++ [env]).
Proof.
  intros Hch Hlt Hseq Hev Hcr Hmod Heff.
  assert (same_children db db' -> (forall children, replay_task_child_projections children env = Ok children) ->
    children_shown db' t (es ++ [env])) as Hsame.
  { intros [Hc Hm] Hid. destruct Hch as (cfg & markers & ms & Hrep & Hok & Hcfg & Hp & Hmk & Hs & Hf).
    exists cfg, markers, ms. rewrite Hc, (marker_rows_same db db' t Hm). split_and!; try done.
    - by eapply children_replayed.
    - by apply known_later. }
  destruct ev; try done; try (apply Hsame; [exact Heff|intros [??]; simpl; by rewrite Hev]).
  - by eapply children_queued.
  - by eapply children_applied.
  - by eapply children_control.
Qed.

(** The other tasks are left alone. *)
Lemma child_effect_others db db' t t' env ev es :
  child_effect (uuid_to_string t) env ev db db' -> t' <> t -> children_shown db t' es ->
  children_shown db' t' es.
Proof.
  intros Heff Hne Hch. assert (uuid_to_string t <> uuid_to_string t') as Hk by (by intros ?%uuid_inj).
  apply (children_frame db); [done| |].
  - destruct ev; try (destruct Heff as [Heff _]; by rewrite Heff).
    + destruct Heff as (_ & row & mode & _ & _ & ->). by rewrite lookup_insert_ne.
    + destruct Heff as (_ & row & _ & _ & ->). by rewrite lookup_insert_ne.
  - destruct ev; try (destruct Heff as [_ Heff]; by rewrite (marker_rows_same _ _ _ Heff));
      try (destruct Heff as [Heff _]; by rewrite (marker_rows_same _ _ _ Heff)).
    destruct Heff as (_ & Hnone & Heq). by rewrite (marker_rows_insert _ _ t t' _ _ Hnone Heq), decide_False.
Qed.

Lemma child_effect_markers db db' t env ev k c row :
  child_effect t env ev db db' -> db'.(task_control_markers) !! (k, c) = Some row ->
  k = t \/ db.(task_control_markers) !! (k, c) = Some row.
Proof.
  intros Heff. destruct ev; try (destruct Heff as [_ ->]; by right); try (destruct Heff as [-> _]; by right).
  destruct Heff as (_ & _ & ->). intros [[[= <- _] _]|[_ ?]]%lookup_insert_Some; auto.
Qed.

Lemma update_projection_ok db db' st st' row now u :
  update_task_projection st' now db = Ok (db', u) ->
  db.(agent_tasks) !! uuid_to_string st'.(task_id) = Some row -> row_shows st row ->
  st'.(session_id) = st.(session_id) -> 0 <= st'.(revision) ->
  exists row', db' = set_agent_tasks (<[uuid_to_string st'.(task_id) := row']> db.(agent_tasks)) db
    /\ row_shows st' row' /\ row'.(at_created_at) = row.(at_created_at)
    /\ row'.(at_updated_at) = format_timestamp now.
Proof.
  unfold update_task_projection. intros Hup Hrow Hshow Hses Hpos. tx_simpl.
  destruct Hshow as (Hs & _ & _ & _ & _ & _ & _ & _ & _ & _ & [created Hc] & _).
  eexists. split; [done|]. split; [|done]. unfold row_shows. cbn. split_and!; try done; try congruence; try lia; eauto.
Qed.

Lemma journal_ok_same js db db' :
  journal_ok js db -> db'.(sessions) = db.(sessions) -> db'.(events) = db.(events) -> journal_ok js db'.
Proof. intros [Hr Hn Hs Ho Hone] Es Ee. constructor; [by rewrite Ee|by rewrite Es|by rewrite Es|done|done]. Qed.

(** One more event of one task. *)
Lemma store_ok_extend js env db db' t row' st' :
  store_ok js db -> journal_ok (js ++ [env]) db' -> is_task t env = true ->
  db'.(agent_tasks) = <[uuid_to_string t := row']> db.(agent_tasks) ->
  task_shown db' t (of_task t js ++ [env]) row' st' ->
  (forall t' es, t' <> t -> children_shown db t' es -> children_shown db' t' es) ->
  (forall k c row, db'.(task_control_markers) !! (k, c) = Some row ->
     k = uuid_to_string t \/ db.(task_control_markers) !! (k, c) = Some row) ->
  store_ok (js ++ [env]) db'.
Proof.
  intros [Hj Ht Hk Hm] Hj' Htask Hat Hnew Hothers Hmk. constructor; [done| | |].
  - intros t'. rewrite of_task_snoc, Hat. destruct (decide (t' = t)) as [->|Hne].
    + rewrite lookup_insert_eq, Htask. by exists st'.
    + rewrite lookup_insert_ne by (by intros ?%uuid_inj).
      assert (is_task t' env = false) as ->.
      { unfold is_task in *. destruct (event env); try done. lia. }
      rewrite app_nil_r. specialize (Ht t').
      destruct (agent_tasks db !! uuid_to_string t') as [row|]; [|done].
      destruct Ht as (st & [Hh Hid Hrow Hch]). exists st. constructor; auto.
  - intros k row. rewrite Hat. intros [[<- _]|[_ Hrow]]%lookup_insert_Some; [by exists t|by eapply Hk].
  - intros k c row Hrow. rewrite Hat. destruct (Hmk k c row Hrow) as [->|Hold]; [by rewrite lookup_insert_eq|].
    apply Hm in Hold. by apply lookup_insert_is_Some'; right.
Qed.

(** A task event that is journalled, reduced and projected, whatever else was written
    beside it. *)
Lemma task_append_effect js db db1 db2 db3 t current turn ev now id env st' u' :
  store_ok js db -> models_ok ev -> load_task_record db t = Ok (Some current) ->
  append_event_in_transaction current.(snapshot).(session_id) turn (Event.TaskLifecycle t ev) now id db
    = Ok (db1, env) ->
  reduce_task (Some current.(snapshot)) env = Ok st' ->
  same_rest db1 db2 -> child_effect (uuid_to_string t) env ev db1 db2 ->
  update_task_projection st' now db2 = Ok (db3, u') ->
  store_ok (js ++ [env]) db3 /\ env.(event) = Event.TaskLifecycle t ev
  /\ db3.(service_task_receipts) = db.(service_task_receipts)
  /\ load_task_record db3 t = Ok (Some {| snapshot := st'; tk_revision := st'.(revision);
       tk_created_at := current.(tk_created_at); tk_updated_at := now |})
  /\ (forall t', t' <> t -> load_task_record db3 t' = load_task_record db t').
Proof.
  intros Hok Hmod Hload Happ Hred (Es & Ee & Ea & Er) Heff Hup. pose proof (load_task_shown js db t Hok) as Hl.
  rewrite Hload in Hl. destruct Hl as (row & Hrow & [Hh Hid Hshow Hch] & Hrev & Hct & _).
  pose proof (history_ok _ _ Hh) as [[Hlen _] _ _ _ Hown]. rewrite Forall_forall in Hown.
  apply (append_event_ok js) in Happ as (Hev & Hses & Hts & Hj & Hlt & Hseq & es & ss & ->);
    [|apply Hok|intros t' ev' e [= <- _] He; by apply Hown].
  pose proof Hred as (ev' & Hev' & _ & _ & _ & _ & st1 & Hstep & ->)%reduce_existing_spec.
  rewrite Hev in Hev'. injection Hev' as Htid <-.
  destruct (step_identity _ _ _ _ Hstep) as [Hi1 Hi2].
  eapply (update_projection_ok _ _ current.(snapshot) _ row) in Hup as (row' & -> & Hshow' & Hc' & Hu');
    [|cbn; rewrite Hi1, Hid, Ea; exact Hrow|done|done|cbn; pose proof (Zlen_nonneg (of_task t js)); lia].
  cbn [task_id with_revision] in *. rewrite Hi1, Hid in *.
  assert (Forall (fun e => e.(sequence) < env.(sequence)) (of_task t js)) as Hbelow.
  { apply Forall_forall. intros e He. rewrite Forall_forall in Hlt. apply Hlt; [|by apply Hown].
    by apply elem_of_task in He as [_ ?]. }
  assert (is_task t env = true) as Htask by (unfold is_task; rewrite Hev; apply Z.eqb_refl).
  set (db3 := set_agent_tasks _ db2).
  assert (child_effect (uuid_to_string t) env ev db db3) as Heff' by exact Heff.
  split_and!; [|done|by cbn; rewrite Er| |].
  - eapply (store_ok_extend js env db _ t row'); [done| |done|by cbn; rewrite Ea|..].
    + by eapply journal_ok_same; [exact Hj|cbn..].
    + constructor; [by eapply history_step|by cbn; rewrite Hi1|done|].
      eapply (children_step db); try done; [lia|by eapply step_not_created].
    + intros t' es' Hne. by apply (child_effect_others db db3 t t' env ev).
    + intros k c r. by apply (child_effect_markers db db3 _ env ev).
  - unfold load_task_record. cbn. rewrite lookup_insert_eq. cbn [transpose].
    rewrite (record_read t _ row' current.(tk_created_at) now Hshow'); cbn; [done|congruence..].
  - intros t' Hne. unfold load_task_record. cbn. rewrite Ea.
    by rewrite lookup_insert_ne by (by intros ?%uuid_inj).
Qed.

Lemma task_append_shown js db db1 db2 db3 t current turn ev now id env st' u u' :
  store_ok js db -> models_ok ev -> load_task_record db t = Ok (Some current) ->
  append_event_in_transaction current.(snapshot).(session_id) turn (Event.TaskLifecycle t ev) now id db
    = Ok (db1, env) ->
  reduce_task (Some current.(snapshot)) env = Ok st' ->
  apply_task_child_projection t env db1 = Ok (db2, u) ->
  update_task_projection st' now db2 = Ok (db3, u') ->
  store_ok (js ++ [env]) db3 /\ env.(event) = Event.TaskLifecycle t ev
  /\ db3.(service_task_receipts) = db.(service_task_receipts)
  /\ load_task_record db3 t = Ok (Some {| snapshot := st'; tk_revision := st'.(revision);
       tk_created_at := current.(tk_created_at); tk_updated_at := now |})
  /\ (forall t', t' <> t -> load_task_record db3 t' = load_task_record db t').
Proof.
  intros Hok Hmod Hload Happ Hred Hchild Hup.
  pose proof Happ as (row & text & _ & Henv & _)%append_event_inv.
  apply (child_projection_effect t env ev) in Hchild as [Hrest Heff]; [|by rewrite Henv].
  by eapply task_append_effect.
Qed.

(** ** Creating a task *)

Lemma insert_projection_ok db db' st workspace model effort mode now u :
  insert_task_projection st workspace model effort mode now db = Ok (db', u) ->
  st.(active_epoch) = None -> st.(latest_checkpoint) = None -> st.(provider_context) = None ->
  0 <= st.(revision) ->
  db.(agent_tasks) !! uuid_to_string st.(task_id) = None
  /\ same_rest db (set_agent_tasks db.(agent_tasks) db')
  /\ exists row, db'.(agent_tasks) = <[uuid_to_string st.(task_id) := row]> db.(agent_tasks)
     /\ row_shows st row /\ row.(at_created_at) = format_timestamp now
     /\ row.(at_updated_at) = format_timestamp now
  /\ db'.(task_control_markers) = db.(task_control_markers)
  /\ db'.(task_configuration_state) = <[uuid_to_string st.(task_id) := configuration_to_row
       {| tc_active_model := model; tc_active_effort := effort; tc_active_permission_mode := mode;
          tc_effective_permission_mode := mode; tc_pending_control_id := None;
          tc_pending_model := None; tc_pending_effort := None; tc_pending_permission_mode := None;
          tc_queued_sequence := None; tc_applied_sequence := None |}]> db.(task_configuration_state).
Proof.
  unfold insert_task_projection. intros Hins Ha Hk Hp Hr. tx_simpl. cbn. split_and!; try done.
  eexists. split; [done|]. split; [|done]. unfold row_shows. cbn. rewrite Ha, Hk, Hp.
  split_and!; try done; try lia; eauto.
Qed.

Lemma insert_receipt_ok db db' receipt t now u :
  insert_task_receipt receipt t now db = Ok (db', u) ->
  db' = set_task_receipts match receipt with
        | None => db.(service_task_receipts)
        | Some (key, digest) => <[key := {| tr_command_digest := Sha256Digest_display digest;
            tr_task_id := uuid_to_string t; tr_created_at := format_timestamp now |}]>
            db.(service_task_receipts)
        end db
  /\ (forall key digest, receipt = Some (key, digest) -> db.(service_task_receipts) !! key = None).
Proof.
  unfold insert_task_receipt. destruct receipt as [[key digest]|]; intros Hins; tx_simpl.
  - split; [done|]. by intros ? ? [= <- <-].
  - split; [by destruct db|done].
Qed.

Lemma no_markers js db t :
  store_ok js db -> db.(agent_tasks) !! uuid_to_string t = None -> marker_rows db t = [].
Proof.
  intros Hok Hnone. destruct (marker_rows db t) as [|[c row] ms] eqn:Hm; [done|].
  assert ((c, row) ∈ marker_rows db t) as Hin by (rewrite Hm; set_solver).
  apply marker_rows_lookup, (so_markers _ _ Hok) in Hin. rewrite Hnone in Hin. by destruct Hin.
Qed.

(** A task with its one event. *)
Lemma created_children js db db' t env session workspace c b m e p :
  store_ok js db -> db.(agent_tasks) !! uuid_to_string t = None ->
  db'.(task_control_markers) = db.(task_control_markers) ->
  env.(event) = Event.TaskLifecycle t (TaskEvent.Created session workspace c b m e p) -> model_ok m ->
  db'.(task_configuration_state) !! uuid_to_string t = Some (configuration_to_row
    {| tc_active_model := m; tc_active_effort := e; tc_active_permission_mode := p;
       tc_effective_permission_mode := p; tc_pending_control_id := None; tc_pending_model := None;
       tc_pending_effort := None; tc_pending_permission_mode := None; tc_queued_sequence := None;
       tc_applied_sequence := None |}) ->
  children_shown db' t [env].
Proof.
  intros Hok Hnone Hmk Hev Hmod Hcfg. eexists _, [], []. simpl. rewrite Hev. split; [done|].
  split; [by repeat split|]. split; [done|]. rewrite (marker_rows_same db db' t Hmk), (no_markers js db t Hok Hnone).
  split_and!; try done; constructor.
Qed.

Lemma create_shown js db db1 db2 db3 input workspace t id env st receipt u u' :
  store_ok js db -> model_ok input.(nt_model) ->
  append_event_in_transaction input.(nt_session_id) None
    (Event.TaskLifecycle t (TaskEvent.Created input.(nt_session_id) workspace input.(nt_contract)
       input.(nt_budget) input.(nt_model) input.(nt_effort) input.(nt_permission_mode)))
    input.(nt_created_at) id db = Ok (db1, env) ->
  reduce_task None env = Ok st ->
  insert_task_projection st workspace input.(nt_model) input.(nt_effort) input.(nt_permission_mode)
    input.(nt_created_at) db1 = Ok (db2, u) ->
  insert_task_receipt receipt t input.(nt_created_at) db2 = Ok (db3, u') ->
  store_ok (js ++ [env]) db3
  /\ load_task_record db3 t = Ok (Some {| snapshot := st; tk_revision := st.(revision);
       tk_created_at := input.(nt_created_at); tk_updated_at := input.(nt_created_at) |})
  /\ load_task_record db t = Ok None
  /\ (forall t', t' <> t -> load_task_record db3 t' = load_task_record db t')
  /\ db2.(service_task_receipts) = db.(service_task_receipts).
Proof.
  intros Hok Hmod Happ Hred Hins [-> Hrec]%insert_receipt_ok.
  pose proof Happ as (srow & text & _ & Henv & _ & _ & Hdb1)%append_event_inv.
  apply reduce_created_spec in Hred as Hcr. destruct Hcr as (t' & c & b & w & m & e & p & Hev & _ & _ & ->).
  rewrite Henv in Hev. cbn in Hev. injection Hev as <- _ _ _ _ _ _.
  apply insert_projection_ok in Hins as (Hnone & (Es & Ee & _ & Er) & row & Ea & Hshow & Hc & Hu & Em & Ec);
    [|done..]. cbn in *.
  rewrite Hdb1 in Hnone, Ea, Em, Ec. cbn in *.
  assert (of_task t js = []) as Hnil by (pose proof (so_tasks _ _ Hok t) as Ht; by rewrite Hnone in Ht).
  apply (append_event_ok js) in Happ as (Hev & _ & _ & Hj & _); [|apply Hok|].
  2: { intros t' ev' e' [= <- _]. rewrite Hnil. by intros ?%elem_of_nil. }
  set (db3 := set_task_receipts _ db2). split_and!.
  - eapply (store_ok_extend js env db db3 t row); [done| | |done|..].
    + by eapply journal_ok_same; [exact Hj|..].
    + unfold is_task. rewrite Hev. apply Z.eqb_refl.
    + rewrite Hnil. constructor; [by apply history_created|done|done|].
      eapply (created_children js db); try done. cbn. rewrite Ec. by rewrite lookup_insert_eq.
    + intros t' es Hne Hch. apply (children_frame db); [done| |by rewrite (marker_rows_same db db3 t' Em)].
      cbn. rewrite Ec. by rewrite lookup_insert_ne by (by intros ?%uuid_inj).
    + intros k c' r. cbn. rewrite Em. auto.
  - unfold load_task_record. cbn. rewrite Ea, lookup_insert_eq. cbn [transpose].
    by rewrite (record_read t _ row input.(nt_created_at) input.(nt_created_at) Hshow).
  - unfold load_task_record. by rewrite Hnone.
  - intros t' Hne. unfold load_task_record. cbn. rewrite Ea.
    by rewrite lookup_insert_ne by (by intros ?%uuid_inj).
  - rewrite Er. by rewrite Hdb1.
Qed.

End Authority.
