(* ===== verification/StoreOps.v ===== *)
(** * The operations of the store

    Every operation of [TaskStore] keeps the invariant of [StoreAuthority], so a store
    that has only been written through them can always be opened and read.  The
    theorems on concurrent writers, on idempotent creation and on the recovery of
    what a previous process left behind follow. *)
From stdpp Require Import base gmap sets list sorting strings relations.
From S2P Require Import Prelude Ord Text Settings Policy TaskTypes Events Reducer Journal Metrics Checkpoint Context Database TaskStore StoreCheckpoint StoreJournal StoreAuthority.
From Stdlib Require Import ZArith Lia.
#[local] Open Scope list_scope.
#[local] Open Scope Z_scope.

Section Operations.
Context `{U : Uuids, C : Chrono, J : Serde, Q : SqliteJson, CJ : CheckpointJson}.

(** ** A run of the store

    One transaction after another, each with the identifiers and the time it drew;
    what the program names a [ModelId] has been parsed.  A checkpoint is committed
    with whatever the store remembers; the tables of the frontends ([Front],
    [Approvals]) change in any way. *)
Inductive plain_step (db : Database) : Database -> Prop :=
| step_create_session id now :
  plain_step db (transaction (create_session id now) db).1
| step_append session turn ev now id :
  plain_step db (transaction (append session turn ev now id) db).1
| step_create_task canonicalize is_dir input t id :
  model_ok input.(nt_model) ->
  plain_step db (transaction (create_task canonicalize is_dir input t id) db).1
| step_create_task_idempotent canonicalize is_dir input key digest t id :
  model_ok input.(nt_model) ->
  plain_step db (transaction (create_task_idempotent canonicalize is_dir input key digest t id) db).1
| step_append_steering t expected n digest control now id :
  plain_step db (transaction (append_controlled_task_steering t expected n digest control now id) db).1
| step_reconcile digest now fresh :
  plain_step db (transaction (reconcile_abandoned_task_operations digest now fresh None) db).1
| step_register_artifact id length now :
  plain_step db (transaction (register_artifact_object id length now) db).1
| step_front tables :
  plain_step db (transaction (modify (set_front tables)) db).1.

Inductive store_step (db : Database) : Database -> Prop :=
| step_plain db' : plain_step db db' -> store_step db db'
| step_append_task_event t expected ev now id :
  models_ok ev ->
  store_step db (transaction (append_task_event t expected ev now id) db).1
| step_commit_checkpoint cached version input expected id :
  store_step db (transaction (commit_checkpoint cached version input expected id) db).1.

(** What the program reaches from an empty database. *)
Definition reachable (db : Database) : Prop := rtc store_step empty_database db.

Context `{!UuidLaws, !ChronoLaws, !SerdeLaws, !SqliteJsonLaws}.

Lemma transaction_inv {A : Type} (tx : Tx A) (P : Database -> Prop) db :
  P db -> (forall db' a, tx db = Ok (db', a) -> P db') -> P (transaction tx db).1.
Proof. intros Hdb Htx. unfold transaction. destruct (tx db) as [[db' a]|e] eqn:He; [by eapply Htx|done]. Qed.

Lemma store_ok_empty : store_ok [] empty_database.
Proof.
  constructor; [constructor|..]; cbn.
  - constructor.
  - done.
  - by intros e ?%elem_of_nil.
  - intros s. constructor.
  - by intros t e e' ?%elem_of_nil.
  - by intros t.
  - done.
  - done.
Qed.

Lemma store_ok_frame js db db' :
  store_ok js db -> journal_ok js db' -> db'.(agent_tasks) = db.(agent_tasks) -> same_children db db' ->
  store_ok js db'.
Proof.
  intros [Hj Ht Hk Hm] Hj' Ea [Ec Emk]. constructor; [done|..]; rewrite ?Ea, ?Emk; try done.
  intros t. specialize (Ht t). destruct (agent_tasks db !! uuid_to_string t) as [row|]; [|done].
  destruct Ht as (st & [Hh Hid Hrow Hch]). exists st. constructor; [done..|].
  apply (children_frame db); [done|by rewrite Ec|by rewrite (marker_rows_same db db')].
Qed.

Lemma create_session_kept js db db' id now r :
  store_ok js db -> create_session id now db = Ok (db', r) -> store_ok js db'.
Proof.
  intros Hok Hc. unfold create_session in Hc. tx_simpl.
  eapply store_ok_frame; [done| |done|done]. destruct (so_journal _ _ Hok) as [Hr Hn Hs Ho Hone].
  constructor; cbn; try done.
  - intros k row [[<- <-]|[_ Hrow]]%lookup_insert_Some; [done|by eapply Hn].
  - intros e He. destruct (Hs e He) as (row & Hrow & Hlt). exists row. split; [|done].
    rewrite lookup_insert_ne; [done|congruence].
Qed.

Lemma append_kept js db db' session turn ev now id env :
  store_ok js db -> append session turn ev now id db = Ok (db', env) ->
  store_ok (js ++ [env]) db' /\ env.(event) = ev.
Proof.
  intros Hok Ha. unfold append in Ha. tx_simpl.
  assert (forall t ev', ev <> Event.TaskLifecycle t ev') as Hno by (intros t ev' ->; done).
  apply (append_event_ok js) in Ha as (Hev & _ & _ & Hj & _ & _ & es & ss & ->); [|apply Hok|].
  2: { intros t ev' e ->. by destruct (Hno t ev'). }
  split; [|done]. destruct Hok as [_ Ht Hk Hm]. constructor; [done| |done|done]. intros t.
  rewrite of_task_snoc. replace (is_task t env) with false.
  2: { unfold is_task. rewrite Hev. by destruct ev. }
  rewrite app_nil_r. specialize (Ht t). cbn.
  destruct (agent_tasks db !! uuid_to_string t) as [row|]; [|done]. destruct Ht as (st & [Hh Hid Hrow Hch]).
  exists st. constructor; [done..|]. by apply (children_frame db).
Qed.

(** ** What a database keeps *)

Definition extends (db db' : Database) : Prop :=
  (forall key row, db.(service_task_receipts) !! key = Some row ->
     db'.(service_task_receipts) !! key = Some row)
  /\ (forall t record, load_task_record db t = Ok (Some record) ->
        exists record', load_task_record db' t = Ok (Some record')).

#[local] Instance extends_preorder : PreOrder extends.
Proof.
  split; [split; eauto|]. intros db1 db2 db3 [Hr1 Hl1] [Hr2 Hl2]. split; [auto|].
  intros t record (r & Hr)%Hl1. eauto.
Qed.

(** A task is created, or the receipt leads to the one that was. *)
Lemma create_inner_kept canonicalize is_dir js db db' input receipt t id record :
  store_ok js db -> model_ok input.(nt_model) ->
  create_task_inner canonicalize is_dir input receipt t id db = Ok (db', record) ->
  (existing_task receipt db = Ok (Some record) /\ db' = db)
  \/ (existing_task receipt db = Ok None
      /\ load_task_record db' t = Ok (Some record) /\ extends db db'
      /\ (forall key digest, receipt = Some (key, digest) ->
            db'.(service_task_receipts) !! key = Some {| tr_command_digest := Sha256Digest_display digest;
              tr_task_id := uuid_to_string t; tr_created_at := format_timestamp input.(nt_created_at) |})
      /\ exists env, store_ok (js ++ [env]) db').
Proof.
  intros Hok Hmod Hc. unfold create_task_inner in Hc. tx_simpl.
  case_match eqn:Hex; tx_simpl; [by left|right].
  match goal with Ha : append_event_in_transaction _ _ _ _ _ _ = Ok (_, _), Hr : reduce_task None _ = Ok _,
    Hp : insert_task_projection _ _ _ _ _ _ _ = Ok (_, ?u), Hi : insert_task_receipt _ _ _ _ = Ok (_, _) |- _ =>
    pose proof (create_shown js _ _ _ _ _ _ _ _ _ _ _ _ _ Hok Hmod Ha Hr Hp Hi) as (Hok' & Hload & Hnone & Hoth & Hrec);
    apply insert_receipt_ok in Hi as [-> Hnew] end.
  split_and!; [done|done| | |by eexists].
  - split.
    + intros key row Hrow. cbn. destruct receipt as [[k d]|]; rewrite Hrec in *; [|done].
      rewrite lookup_insert_ne; [done|]. intros ->. by rewrite (Hnew _ _ eq_refl) in Hrow.
    + intros t' r Hr. destruct (decide (t' = t)) as [->|Hne]; [congruence|]. rewrite Hoth; eauto.
  - intros key digest ->. cbn. by rewrite lookup_insert_eq.
Qed.

Lemma expected_task_ok db db' t expected o :
  expected_task t expected db = Ok (db', o) <->
  db' = db /\ match load_task_record db t with
              | Ok (Some record) => o = if record.(tk_revision) =? expected then Some record else None
              | Ok None => o = None
              | Err _ => False
              end.
Proof.
  unfold expected_task. rewrite tx_bind_ok. split.
  - intros (db1 & r & [Hr ->]%query_ok & [-> ->]%mret_ok). rewrite Hr. split; [done|]. by destruct r.
  - intros [-> Hr]. destruct (load_task_record db t) as [r|] eqn:Hl; [|done].
    exists db, r. rewrite query_ok, mret_ok. split; [done|]. destruct r; by subst.
Qed.

Lemma append_in_transaction_kept js db db' t current ev now id record seq :
  store_ok js db -> models_ok ev -> load_task_record db t = Ok (Some current) ->
  append_task_event_in_transaction current ev now id db = Ok (db', (record, seq)) ->
  exists env, store_ok (js ++ [env]) db' /\ env.(event) = Event.TaskLifecycle t ev
    /\ env.(sequence) = seq /\ db'.(service_task_receipts) = db.(service_task_receipts)
    /\ reduce_task (Some current.(snapshot)) env = Ok record.(snapshot)
    /\ record.(tk_revision) = record.(snapshot).(revision)
    /\ load_task_record db' t = Ok (Some record)
    /\ (forall t', t' <> t -> load_task_record db' t' = load_task_record db t').
Proof.
  intros Hok Hmod Hload Ha. unfold append_task_event_in_transaction in Ha.
  pose proof (load_task_shown js db t Hok) as Hl. rewrite Hload in Hl. destruct Hl as (row & _ & Hsh & _).
  rewrite (ts_id _ _ _ _ _ Hsh) in Ha. tx_simpl.
  match goal with Ha : append_event_in_transaction _ _ _ _ _ _ = Ok (_, _), Hr : reduce_task _ _ = Ok _,
    Hp : apply_task_child_projection _ _ _ = Ok _, Hi : update_task_projection _ _ _ = Ok _ |- _ =>
    pose proof (task_append_shown js _ _ _ _ _ _ _ _ _ _ _ _ _ _ Hok Hmod Hload Ha Hr Hp Hi)
      as (Hok' & Hev & Hrec & Hload' & Hoth); eexists; split_and!; [exact Hok'|exact Hev|done|done|exact Hr|done..] end.
Qed.

(** [append_task_event] is the shared helper behind the check of the revision. *)
Lemma append_task_event_eq js db t expected ev now id :
  store_ok js db ->
  append_task_event t expected ev now id db
  = (current ← expected_task t expected;
     match current with
     | None => mret None
     | Some current =>
         '(record, _) ← append_task_event_in_transaction current ev now id;
         mret (Some record)
     end) db.
Proof.
  intros Hok. unfold append_task_event, mbind at 1, tx_bind at 1. unfold mbind at 5, tx_bind at 5.
  destruct (expected_task t expected db) as [[db1 [current|]]|e] eqn:He; [|done|done].
  apply expected_task_ok in He as [-> He].
  pose proof (load_task_shown js db t Hok) as Hl. destruct (load_task_record db t) as [[r|]|]; [|done|done].
  destruct (tk_revision r =? expected); [|done]. injection He as ->.
  destruct Hl as (row & _ & Hsh & _). unfold append_task_event_in_transaction.
  rewrite (ts_id _ _ _ _ _ Hsh). unfold mbind, tx_bind.
  repeat (case_match; try done). all: simplify_eq/=; congruence.
Qed.

(** What a writer gets: its event on the revision it expected, or nothing. *)
Definition appended (js : list EventEnvelope) (db db' : Database) (t : TaskId) (expected : Z)
    (ev : TaskEvent) (o : option TaskRecord) : Prop :=
  match o with
  | None => db' = db
  | Some record => exists current env,
      load_task_record db t = Ok (Some current) /\ current.(tk_revision) = expected
      /\ store_ok (js ++ [env]) db' /\ env.(event) = Event.TaskLifecycle t ev
      /\ reduce_task (Some current.(snapshot)) env = Ok record.(snapshot)
      /\ record.(tk_revision) = expected + 1
      /\ load_task_record db' t = Ok (Some record)
      /\ db'.(service_task_receipts) = db.(service_task_receipts)
      /\ (forall t', t' <> t -> load_task_record db' t' = load_task_record db t')
  end.

Lemma appended_in_transaction js db db' t current ev now id record seq :
  store_ok js db -> models_ok ev -> load_task_record db t = Ok (Some current) ->
  append_task_event_in_transaction current ev now id db = Ok (db', (record, seq)) ->
  appended js db db' t current.(tk_revision) ev (Some record).
Proof.
  intros Hok Hmod Hload Ha. pose proof (load_task_shown js db t Hok) as Hl. rewrite Hload in Hl.
  destruct Hl as (row & _ & _ & Hrev & _).
  destruct (append_in_transaction_kept js db db' t current ev now id record seq Hok Hmod Hload Ha)
    as (env & Hok' & Hev & _ & Hrec & Hred & Hrev' & Hload' & Hoth).
  exists current, env. split_and!; try done.
  apply reduce_existing_spec in Hred as (ev' & _ & _ & _ & _ & _ & st1 & _ & Hst).
  rewrite Hrev', Hst, Hrev. done.
Qed.

Lemma append_task_event_kept js db db' t expected ev now id o :
  store_ok js db -> models_ok ev -> append_task_event t expected ev now id db = Ok (db', o) ->
  appended js db db' t expected ev o.
Proof.
  intros Hok Hmod. rewrite (append_task_event_eq js) by done. intros Ha. tx_simpl.
  match goal with H : expected_task _ _ _ = Ok _ |- _ => apply expected_task_ok in H as [-> He] end.
  destruct (load_task_record db t) as [[r|]|] eqn:Hl; [|subst; by tx_simpl|done].
  destruct (_ =? _) eqn:Hr in He; subst; [|by tx_simpl]. tx_simpl. case_match. tx_simpl.
  apply Z.eqb_eq in Hr as <-. by eapply appended_in_transaction.
Qed.

Lemma bind_steering_frame db db' task seq control n :
  bind_steering_control task seq control db = Ok (db', n) ->
  exists steering, db' = set_steering steering db.
Proof.
  unfold bind_steering_control. intros Hb. destruct (filter _ _).
  - injection Hb as <- _. exists (task_steering db). by destruct db.
  - case_match; [|done]. injection Hb as <- _. eauto.
Qed.

Lemma append_steering_kept js db db' t expected n digest control now id o :
  store_ok js db ->
  append_controlled_task_steering t expected n digest control now id db = Ok (db', o) ->
  appended js db db' t expected (TaskEvent.SteeringQueued n digest) o.
Proof.
  intros Hok Ha. unfold append_controlled_task_steering in Ha. tx_simpl.
  match goal with H : expected_task _ _ _ = Ok _ |- _ => apply expected_task_ok in H as [-> He] end.
  destruct (load_task_record db t) as [[r|]|] eqn:Hl; [|subst; by tx_simpl|done].
  destruct (_ =? _) eqn:Hr in He; subst; [|by tx_simpl]. tx_simpl. case_match. tx_simpl.
  match goal with H : append_task_event_in_transaction _ _ _ _ _ = Ok _ |- _ => rename H into Happ end.
  destruct (appended_in_transaction js db _ t r (TaskEvent.SteeringQueued n digest) _ _ _ _ Hok I Hl Happ)
    as (current & env & Hl' & Hrev & Hok' & Hev & Hred & Hrev' & Hload & Hrec & Hoth).
  match goal with H : bind_steering_control _ _ _ _ = Ok _ |- _ =>
    apply bind_steering_frame in H as [steering ->] end.
  apply Z.eqb_eq in Hr as <-. exists current, env. split_and!; try done.
  eapply store_ok_frame; [done| |done|done]. by eapply journal_ok_same; [apply Hok'|..].
Qed.

(** ** Checkpoints *)

Lemma write_checkpoint_kept js db db' current input json package id u :
  store_ok js db -> load_task_record db input.(nc_task_id) = Ok (Some current) ->
  write_checkpoint current input json package id db = Ok (db', u) ->
  exists record, appended js db db' input.(nc_task_id) current.(tk_revision)
    (TaskEvent.CheckpointCommitted input.(nc_checkpoint).(ck_checkpoint_id) input.(nc_checkpoint_digest))
    (Some record).
Proof.
  intros Hok Hload Hw. unfold write_checkpoint, insert_checkpoint, insert_package in Hw. tx_simpl.
  match goal with Ha : append_event_in_transaction _ _ _ _ _ _ = Ok (_, ?e), Hr : reduce_task _ _ = Ok ?s |- _ =>
    rename e into env, s into st, Ha into Happ, Hr into Hred end.
  eapply (task_append_effect js) in Hw as (Hok' & Hev & Hrec & Hload' & Hoth);
    [|done| |exact Hload|exact Happ|exact Hred|by cbn|by cbn]; [|done].
  pose proof (load_task_shown js db input.(nc_task_id) Hok) as Hl. rewrite Hload in Hl.
  destruct Hl as (row & _ & _ & Hrev & _).
  exists {| snapshot := st; tk_revision := st.(revision); tk_created_at := current.(tk_created_at);
            tk_updated_at := input.(nc_created_at) |}, current, env. split_and!; try done. cbn.
  apply reduce_existing_spec in Hred as (ev' & _ & _ & _ & _ & _ & st1 & _ & ->). by rewrite Hrev.
Qed.

(** The full validation returns the record it was given. *)
Lemma validate_commit_current js db current input anchor current' validated :
  store_ok js db -> load_task_record db input.(nc_task_id) = Ok (Some current) ->
  validate_commit db current input anchor = Ok (current', validated) -> current' = current.
Proof.
  intros Hok Hload Hv. unfold validate_commit in Hv. destruct anchor; [by carl_simpl|].
  pose proof (load_task_shown js db input.(nc_task_id) Hok) as Hl. rewrite Hload in Hl.
  destruct Hl as (row & Hrow & _). destruct (validate_shown js db _ row Hok Hrow) as (record & cfg & Hval & Hl & _).
  rewrite Hload in Hl. injection Hl as <-. rewrite Hval in Hv. simpl in Hv. by carl_simpl.
Qed.

Lemma commit_kept js db db' cached version input expected id o :
  store_ok js db -> commit_checkpoint cached version input expected id db = Ok (db', o) ->
  match o with
  | None => db' = db
  | Some _ => exists record, appended js db db' input.(nc_task_id) expected
      (TaskEvent.CheckpointCommitted input.(nc_checkpoint).(ck_checkpoint_id) input.(nc_checkpoint_digest))
      (Some record)
  end.
Proof.
  intros Hok Hc. unfold commit_checkpoint in Hc. tx_simpl.
  match goal with H : expected_task _ _ _ = Ok _ |- _ => apply expected_task_ok in H as [-> He] end.
  destruct (load_task_record db _) as [[r|]|] eqn:Hl; [|subst; by tx_simpl|done].
  destruct (_ =? _) eqn:Hr in He; subst; [|by tx_simpl]. tx_simpl. case_match. tx_simpl.
  match goal with H : validate_commit _ _ _ _ = Ok _ |- _ => apply (validate_commit_current js) in H as ->; [|done..] end.
  apply Z.eqb_eq in Hr as <-. by eapply write_checkpoint_kept.
Qed.

Lemma register_frame db db' id length now u :
  register_artifact_object id length now db = Ok (db', u) ->
  exists objects, db' = set_artifact_objects objects db /\ db.(artifact_objects) ⊆ objects.
Proof.
  unfold register_artifact_object. intros Hr. tx_simpl.
  match goal with H : (if _ then _ else _) = Ok _ |- _ => rename H into Hins end.
  destruct (negb _) in Hins; [done|]. destruct (artifact_objects db !! id) eqn:Ho; injection Hins as <-.
  - exists (artifact_objects db). split; [by destruct db|done].
  - eexists. split; [done|]. by apply insert_subseteq.
Qed.

(** ** Recovery at startup *)

Definition is_started (st : TaskSnapshot) (id : OperationId) : Prop :=
  exists op, st.(operations) !! id = Some op /\ op.(os_status) = OperationStatus.Started.

Lemma elem_of_started st id : id ∈ started_operation_ids st <-> is_started st id.
Proof.
  unfold started_operation_ids, is_started. rewrite list_elem_of_omap. split.
  - intros ([id' op] & Hin%elem_of_btree_iter & Hs). case_bool_decide; [|done]. simplify_eq. eauto.
  - intros (op & Hop%elem_of_btree_iter & Hs). exists (id, op). split; [done|].
    by rewrite bool_decide_eq_true_2.
Qed.

Lemma evidence_keeps_started t st env st' id digest :
  reduce_task (Some st) env = Ok st' ->
  env.(event) = Event.TaskLifecycle t (TaskEvent.OperationEvidenceRecorded id digest) ->
  st'.(status) = st.(status) /\ forall id', is_started st' id' <-> is_started st id'.
Proof.
  intros (ev & Hev & _ & _ & _ & _ & st1 & Hstep & ->)%reduce_existing_spec Hev'.
  rewrite Hev' in Hev. injection Hev as -> <-. inversion Hstep; subst; try naive_solver.
  match goal with H : running _ _ _ |- _ => destruct H as [Hop _] end.
  split; [done|]. intros id'. unfold is_started. simpl. destruct (decide (id' = id)) as [->|Hne].
  - rewrite lookup_insert_eq, Hop. split; intros (op' & [= <-] & Hs); eauto.
  - by rewrite lookup_insert_ne.
Qed.

Lemma transition_settles t st env st' id evidence :
  reduce_task (Some st) env = Ok st' ->
  env.(event) = Event.TaskLifecycle t
    (TaskEvent.OperationTransitioned id OperationStatus.Started OperationStatus.Uncertain evidence) ->
  st'.(status) = st.(status) /\ forall id', is_started st' id' <-> is_started st id' /\ id' <> id.
Proof.
  intros (ev & Hev & _ & _ & _ & _ & st1 & Hstep & ->)%reduce_existing_spec Hev'.
  rewrite Hev' in Hev. injection Hev as -> <-. inversion Hstep; subst; try naive_solver.
  split; [done|]. intros id'. unfold is_started. simpl. destruct (decide (id' = id)) as [->|Hne].
  - rewrite lookup_insert_eq. split; [by intros (op' & [= <-] & Hs)|tauto].
  - rewrite lookup_insert_ne by done. tauto.
Qed.

(** What holds of a store and survives the two events of a recovery. *)
Definition kept_in_recovery (Inv : Database -> Prop) : Prop :=
  (forall db, Inv db -> exists js, store_ok js db)
  /\ (forall db db' t current ev now id out, Inv db ->
        match ev with
        | TaskEvent.OperationEvidenceRecorded _ _ | TaskEvent.OperationTransitioned _ _ _ _ => True
        | _ => False
        end ->
        load_task_record db t = Ok (Some current) ->
        append_task_event_in_transaction current ev now id db = Ok (db', out) -> Inv db').

Definition well_stored (db : Database) : Prop := exists js, store_ok js db.

Lemma well_stored_kept : kept_in_recovery well_stored.
Proof.
  split; [done|]. intros db db' t current ev now id [record seq] [js Hok] Hev Hload Ha.
  destruct (append_in_transaction_kept js db db' t current ev now id record seq Hok) as (env & Hok' & _);
    [by destruct ev|done|done|by eexists].
Qed.

(** The state while tasks are settled: [record] is what the store holds. *)
Definition settled_from (Inv : Database -> Prop) (db db' : Database) (t : TaskId)
    (record record' : TaskRecord) : Prop :=
  Inv db' /\ load_task_record db' t = Ok (Some record')
  /\ db'.(service_task_receipts) = db.(service_task_receipts)
  /\ record'.(snapshot).(status) = record.(snapshot).(status)
  /\ (forall t', t' <> t -> load_task_record db' t' = load_task_record db t').

Lemma settle_started_kept Inv db db' t digest now fresh record id record' :
  kept_in_recovery Inv -> Inv db -> load_task_record db t = Ok (Some record) ->
  settle_started digest now fresh record id db = Ok (db', record') ->
  settled_from Inv db db' t record record'
  /\ forall id', is_started record'.(snapshot) id' <-> is_started record.(snapshot) id' /\ id' <> id.
Proof.
  intros [Hstore Hkept] HI Hload Hs. destruct (Hstore db HI) as [js Hok].
  unfold settle_started in Hs. tx_simpl. case_match. tx_simpl. case_match. tx_simpl.
  match goal with H1 : append_task_event_in_transaction record ?ev1 _ _ _ = Ok (?db1, _),
                  H2 : append_task_event_in_transaction _ ?ev2 _ _ ?db1 = Ok _ |- _ =>
    destruct (append_in_transaction_kept js db _ t record ev1 _ _ _ _ Hok I Hload H1)
      as (env1 & Hok1 & Hev1 & _ & Hrec1 & Hred1 & _ & Hload1 & Hoth1);
    destruct (append_in_transaction_kept _ _ _ t _ ev2 _ _ _ _ Hok1 I Hload1 H2)
      as (env2 & Hok2 & Hev2 & _ & Hrec2 & Hred2 & _ & Hload2 & Hoth2);
    pose proof (Hkept _ _ t _ ev2 _ _ _ (Hkept _ _ t _ ev1 _ _ _ HI I Hload H1) I Hload1 H2) as HI2 end.
  destruct (evidence_keeps_started _ _ _ _ _ _ Hred1 Hev1) as [Hst1 Hstart1].
  destruct (transition_settles _ _ _ _ _ _ Hred2 Hev2) as [Hst2 Hstart2].
  split; [split_and!; [done|done|congruence|congruence|]|].
  - intros t' Hne. by rewrite Hoth2, Hoth1.
  - intros id'. by rewrite Hstart2, Hstart1.
Qed.

Lemma settle_all_kept Inv db db' t digest now fresh record ids record' :
  kept_in_recovery Inv -> Inv db -> load_task_record db t = Ok (Some record) ->
  tx_fold (settle_started digest now fresh) record ids db = Ok (db', record') ->
  settled_from Inv db db' t record record'
  /\ forall id, is_started record'.(snapshot) id -> is_started record.(snapshot) id /\ id ∉ ids.
Proof.
  intros HK. revert db record. induction ids as [|id ids IH]; intros db record HI Hload Hf; simpl in Hf; tx_simpl.
  { split; [by split_and!|]. set_solver. }
  match goal with H : settle_started _ _ _ _ _ _ = Ok _ |- _ =>
    apply (settle_started_kept Inv db _ t) in H as [(HI1 & Hload1 & Hrec1 & Hst1 & Hoth1) Hs1]; [|done..] end.
  destruct (IH _ _ HI1 Hload1 Hf) as [(Hok2 & Hload2 & Hrec2 & Hst2 & Hoth2) Hs2].
  split; [split_and!; [done|done|congruence|congruence|]|].
  - intros t' Hne. by rewrite Hoth2, Hoth1.
  - intros id' [[? ?]%Hs1 ?]%Hs2. set_solver.
Qed.

(** What reconciliation leaves of a task. *)
Definition recovered (record : TaskRecord) : Prop :=
  TaskStatus_is_terminal record.(snapshot).(status) = true
  \/ started_operation_ids record.(snapshot) = [].

Lemma reconcile_record_kept Inv db db' t digest now fresh record record' :
  kept_in_recovery Inv -> Inv db -> load_task_record db t = Ok (Some record) ->
  reconcile_record digest now fresh record db = Ok (db', record') ->
  settled_from Inv db db' t record record' /\ recovered record'.
Proof.
  intros HK HI Hload Hr. unfold reconcile_record in Hr. destruct (TaskStatus_is_terminal _) eqn:Ht.
  { apply mret_ok in Hr as [-> ->]. split; [by split_and!|by left]. }
  destruct (settle_all_kept Inv db db' t _ _ _ _ _ _ HK HI Hload Hr) as [Hset Hst].
  split; [done|]. right. destruct (started_operation_ids record'.(snapshot)) as [|id ids] eqn:Hids; [done|exfalso].
  assert (is_started record'.(snapshot) id) as Hs by (apply elem_of_started; rewrite Hids; set_solver).
  destruct (Hst id Hs) as [Hs' Hnin]. by apply Hnin, elem_of_started.
Qed.

Lemma loaded_id js db t record :
  store_ok js db -> load_task_record db t = Ok (Some record) -> record.(snapshot).(task_id) = t.
Proof.
  intros Hok Hl. pose proof (load_task_shown js db t Hok) as Hs. rewrite Hl in Hs.
  destruct Hs as (row & _ & Hs & _). by eapply ts_id.
Qed.

Lemma loads_elsewhere db db' (ts : list TaskId) records :
  Forall2 (fun t record => load_task_record db t = Ok (Some record)) ts records ->
  (forall t, t ∈ ts -> load_task_record db' t = load_task_record db t) ->
  Forall2 (fun t record => load_task_record db' t = Ok (Some record)) ts records.
Proof.
  induction 1 as [|t record ts records Hl Hf IH]; intros Heq; constructor; [|apply IH; set_solver].
  by rewrite Heq by set_solver.
Qed.

Lemma reconcile_all_kept Inv db db' digest now fresh ts records records' :
  kept_in_recovery Inv -> Inv db -> NoDup ts ->
  Forall2 (fun t record => load_task_record db t = Ok (Some record)) ts records ->
  tx_map (reconcile_record digest now fresh) records db = Ok (db', records') ->
  Inv db' /\ db'.(service_task_receipts) = db.(service_task_receipts)
  /\ (forall t, t ∉ ts -> load_task_record db' t = load_task_record db t)
  /\ Forall2 (fun t record => load_task_record db' t = Ok (Some record) /\ recovered record) ts records'.
Proof.
  intros HK. revert db records records'. induction ts as [|t ts IH]; intros db records records' HI Hnd Hf Hm;
    inversion Hf as [|? record ? rest Hload Hrest]; subst; simpl in Hm; tx_simpl.
  { by split_and!. }
  match goal with H : reconcile_record _ _ _ _ _ = Ok (?d, ?r) |- _ =>
    destruct (reconcile_record_kept Inv db d t _ _ _ _ _ HK HI Hload H) as [(HI1 & Hl1 & Hr1 & _ & Hoth) Hrec];
    rename d into db1, r into record1 end.
  apply NoDup_cons in Hnd as [Hnin Hnd].
  match goal with H : tx_map _ _ _ = Ok _ |- _ =>
    apply (IH db1 rest) in H as (Hok2 & Hr2 & Hoth2 & Hf2); [|done|done|] end.
  2: { apply (loads_elsewhere db); [done|]. intros t' Ht'. apply Hoth. set_solver. }
  split_and!; [done|congruence| |].
  - intros t' [Hne Ht']%not_elem_of_cons. by rewrite Hoth2, Hoth.
  - constructor; [|done]. by rewrite Hoth2.
Qed.

Lemma visit_loads js db records :
  store_ok js db -> visit_authoritative_task_records db = Ok records ->
  Forall2 (fun t record => load_task_record db t = Ok (Some record)) (task_id ∘ snapshot <$> records) records
  /\ NoDup (task_id ∘ snapshot <$> records)
  /\ (forall t record, load_task_record db t = Ok (Some record) -> record ∈ records).
Proof.
  intros Hok Hv. destruct (visit_ok js db Hok) as (records' & Hv' & Hf). rewrite Hv in Hv'. injection Hv' as <-.
  assert (Forall2 (fun k record => k = uuid_to_string record.(snapshot).(task_id)
    /\ load_task_record db record.(snapshot).(task_id) = Ok (Some record)) (journal_task_ids db) records) as Hf'.
  { eapply Forall2_impl; [exact Hf|]. intros k record (t & -> & Hl). by rewrite (loaded_id js db t record Hok Hl). }
  split_and!.
  - clear Hv Hf. induction Hf' as [|k record ids records [_ Hl] _ IH]; constructor; done.
  - apply (NoDup_fmap_1 uuid_to_string).
    replace (uuid_to_string <$> (task_id ∘ snapshot <$> records)) with (journal_task_ids db);
      [apply btree_set_NoDup|].
    clear Hv Hf. induction Hf' as [|k record ids records [-> _] _ IH]; [done|]. rewrite !fmap_cons. by f_equal.
  - intros t record Hl. pose proof (load_task_shown js db t Hok) as Hs. rewrite Hl in Hs.
    destruct Hs as (row & Hrow & Hs & _).
    assert (uuid_to_string t ∈ journal_task_ids db) as [i Hi]%list_elem_of_lookup
      by (apply (stored_task_id js); eauto).
    destruct (Forall2_lookup_l _ _ _ _ _ Hf Hi) as (record' & Hi' & t' & ->%uuid_inj & Hl').
    rewrite Hl in Hl'. injection Hl' as <-. by apply list_elem_of_lookup_2 with i.
Qed.

Lemma reconcile_kept Inv db db' digest now fresh cached records :
  kept_in_recovery Inv -> Inv db -> cached = None \/ (exists rs, cached = Some rs /\ visit_authoritative_task_records db = Ok rs) ->
  reconcile_abandoned_task_operations digest now fresh cached db = Ok (db', records) ->
  Inv db' /\ db'.(service_task_receipts) = db.(service_task_receipts)
  /\ (forall t record, load_task_record db' t = Ok (Some record) -> record ∈ records /\ recovered record)
  /\ (forall t record, load_task_record db t = Ok (Some record) ->
        exists record', load_task_record db' t = Ok (Some record'))
  /\ (forall record, record ∈ records -> load_task_record db' record.(snapshot).(task_id) = Ok (Some record)).
Proof.
  intros HK HI Hc Hr. destruct (proj1 HK db HI) as [js Hok].
  unfold reconcile_abandoned_task_operations in Hr. tx_simpl.
  match goal with H : match cached with _ => _ end = Ok ?r |- _ =>
    assert (visit_authoritative_task_records db = Ok r) as Hv by (destruct Hc as [->|(? & -> & ?)]; congruence);
    rename r into seen end.
  destruct (visit_loads js db _ Hok Hv) as (Hf & Hnd & Hall).
  destruct (reconcile_all_kept Inv db db' _ _ _ _ _ _ HK HI Hnd Hf Hr) as (HI' & Hrec & Hoth & Hf').
  destruct (proj1 HK db' HI') as [js' Hok'].
  split; [done|]. split; [done|]. split; [|split].
  3: { intros record [i Hi]%list_elem_of_lookup. destruct (Forall2_lookup_r _ _ _ _ _ Hf' Hi) as (t & _ & Hl & _).
    by rewrite (loaded_id js' db' t record Hok' Hl). }
  all: intros t record Hl.
  2: { assert (t ∈ task_id ∘ snapshot <$> seen) as [i Hi]%list_elem_of_lookup.
    { apply list_elem_of_fmap. exists record. split; [|by eapply Hall]. symmetry. by eapply (loaded_id js db). }
    destruct (Forall2_lookup_l _ _ _ _ _ Hf' Hi) as (r & _ & Hlr & _). eauto. }
   destruct (decide (t ∈ task_id ∘ snapshot <$> seen)) as [[i Hi]%list_elem_of_lookup|Hn].
  - destruct (Forall2_lookup_l _ _ _ _ _ Hf' Hi) as (r & Hri & Hlr & Hrc). rewrite Hl in Hlr. injection Hlr as <-.
    split; [by apply list_elem_of_lookup_2 with i|done].
  - rewrite (Hoth t Hn) in Hl. destruct Hn. apply list_elem_of_fmap. exists record. split; [|by eapply Hall].
    symmetry. by eapply (loaded_id js db).
Qed.

(** ** Recovery fails only where SQLite does *)

Definition is_storage (e : CarlError) : Prop := exists detail, e = CarlError.Storage detail.
Definition storage_only {A : Type} (tx : Tx A) : Prop := forall db e, tx db = Err e -> is_storage e.

Lemma storage_only_bind {A B : Type} (tx : Tx A) (k : A -> Tx B) :
  storage_only tx -> (forall a, storage_only (k a)) -> storage_only (tx ≫= k).
Proof.
  intros Htx Hk db e. unfold mbind, tx_bind. destruct (tx db) as [[db1 a]|e'] eqn:He; [apply Hk|].
  intros [= <-]. by eapply Htx.
Qed.

Lemma storage_only_mret {A : Type} (a : A) : storage_only (mret a).
Proof. by intros db e. Qed.

Lemma storage_only_from {A : Type} (r : result CarlError A) :
  (forall e, r = Err e -> is_storage e) -> storage_only (from r).
Proof. intros Hr db e. unfold from. destruct r as [a|e']; simpl; [done|]. intros [= <-]. by apply Hr. Qed.

Lemma storage_only_query {A : Type} (f : Database -> result CarlError A) :
  (forall db e, f db = Err e -> is_storage e) -> storage_only (query f).
Proof. intros Hf db e. unfold query. destruct (f db) as [a|e'] eqn:He; simpl; [done|]. intros [= <-]. by eapply Hf. Qed.

Lemma storage_only_insert {K V : Type} `{Countable K} (table : Database -> gmap K V) set allowed clash k v :
  storage_only (insert_row table set allowed clash k v).
Proof. intros db e. unfold insert_row. case_match; [|done]. intros [= <-]. by eexists. Qed.

Lemma storage_only_update {K V : Type} `{Countable K} (table : Database -> gmap K V) set allowed where_ f k :
  storage_only (update_row table set allowed where_ f k).
Proof. intros db e. unfold update_row. repeat (case_match; try done). intros [= <-]. by eexists. Qed.

Lemma storage_or {A : Type} (o : option A) e e' : is_storage e -> ok_or o e = Err e' -> is_storage e'.
Proof. by destruct o; simpl; [|intros ? [= <-]]. Qed.

Lemma storage_reject b e e' : is_storage e -> reject b e = Err e' -> is_storage e'.
Proof. by destruct b; simpl; [intros ? [= <-]|]. Qed.

Ltac storage_only :=
  repeat first
  [ apply storage_only_bind; [|intros ?] | apply storage_only_mret | apply storage_only_insert | apply storage_only_update
  | apply storage_only_from; intros ? | apply storage_only_query; intros ? ?
  | (let H := fresh in intros H; apply storage_or in H; [exact H|by eexists])
  | (let H := fresh in intros H; apply storage_reject in H; [exact H|by eexists])
  | (unfold require_projection_change, revision_to_sql; case_match; intros ?; simplify_eq; by eexists)
  | (intros ?; carl_simpl; simplify_eq; by eexists)
  | case_match ].

Lemma append_event_storage session turn ev now id :
  storage_only (append_event_in_transaction session turn ev now id).
Proof.
  unfold append_event_in_transaction. storage_only.
  - intros db e. unfold take_sequence. repeat (case_match; try done); intros [= <-]; by eexists.
  - intros db e. unfold insert_event. case_match; [|done]. intros [= <-]. by eexists.
Qed.

Lemma child_projection_storage t env : storage_only (apply_task_child_projection t env).
Proof.
  unfold apply_task_child_projection, project_epoch_started, project_epoch_finished,
    project_epoch_interrupted, end_epoch, project_configuration_queued, project_configuration_applied,
    project_control_requested, project_operation_intent, project_operation_transition,
    insert_checkpoint, project_compaction_completed, insert_package, project_steering_queued.
  storage_only.
Qed.

Lemma update_projection_storage st now : storage_only (update_task_projection st now).
Proof. unfold update_task_projection. storage_only. Qed.

Lemma sorted_length (l : list Z) m :
  StronglySorted Z.lt l -> Forall (fun x => 1 <= x <= m) l -> 0 <= m -> Zlen l <= m.
Proof.
  revert m. induction l as [|x l IH] using rev_ind; intros m Hs Hf Hm; [done|].
  rewrite strongly_sorted_snoc in Hs. destruct Hs as [Hs Hlt]. apply Forall_app in Hf as [Hf Hx].
  apply Forall_cons in Hx as [Hx _]. rewrite Zlen_app. simpl.
  enough (Zlen l <= x - 1) by lia. apply IH; [done| |lia].
  rewrite Forall_forall in *. intros y Hy. specialize (Hf y Hy). specialize (Hlt y Hy). lia.
Qed.

(** The number of a task's events stays within [u64]. *)
Lemma revision_room js db t st :
  journal_ok js db -> history (of_task t js) st -> st.(revision) + 1 <= u64_max.
Proof.
  intros Hj Hh. pose proof (history_ok _ _ Hh) as [[-> _] _ _ _ _].
  assert (Zlen (sequence <$> of_task t js) <= i64_max) as Hle.
  { apply sorted_length; [by eapply of_task_sorted| |done].
    apply Forall_fmap, Forall_forall. intros e He. by eapply of_task_range. }
  rewrite Zlen_length, length_fmap, <-Zlen_length in Hle. unfold i64_max, u64_max in *. lia.
Qed.

(** The ledger of an operation that is being settled. *)
Definition holds_evidence (st : TaskSnapshot) (id : OperationId) (s : Z) : Prop :=
  exists op, st.(operations) !! id = Some op /\ op.(os_status) = OperationStatus.Started
    /\ op.(last_transition_sequence) < s /\ s ∈ op.(evidence).(recorded_sequences)
    /\ (s ∉ op.(evidence).(consumed_sequences)) /\ 1 <= s.

Lemma evidence_accepted es st env id digest :
  history es st -> Forall (fun e => e.(sequence) < env.(sequence)) es -> 1 <= env.(sequence) ->
  st.(revision) + 1 <= u64_max -> TaskStatus_is_terminal st.(status) = false -> is_started st id ->
  validate_event_identifier digest = Ok tt ->
  env.(event) = Event.TaskLifecycle st.(task_id) (TaskEvent.OperationEvidenceRecorded id digest) ->
  env.(ee_session_id) = st.(session_id) ->
  exists st', reduce_task (Some st) env = Ok st' /\ holds_evidence st' id env.(sequence).
Proof.
  intros Hh Hlt Hpos Hrev Hterm (op & Hop & Hst) Hv Hev Hses.
  destruct (ok_operations _ _ (history_ok _ _ Hh) id op Hop) as [(Hnd & Hcons & _) Htr Hlast Hep].
  assert (forall s, (exists e, e ∈ es /\ e.(sequence) = s) -> s < env.(sequence)) as Hbelow.
  { intros s. by apply sequences_below. }
  assert (forall s, s ∈ op.(evidence).(recorded_sequences) -> s < env.(sequence)) as Hrec.
  { intros s (e & He & Hs & _)%Htr. apply Hbelow. eauto. }
  eexists. split.
  - apply reduce_existing_spec. eexists. split; [exact Hev|]. split_and!; try done.
    eexists. split; [|done]. eapply step_evidence; [|by left|by apply Hbelow|].
    + split; [done|]. apply Hep. by rewrite Hst.
    + intros Hin%Hrec. lia.
  - eexists. split; [simpl; by rewrite lookup_insert_eq|]. simpl. split_and!; [done|by apply Hbelow|set_solver| |done].
    intros Hin. rewrite Forall_forall in Hcons. destruct (Hcons _ Hin) as [Hr _]. apply Hrec in Hr. lia.
Qed.

Lemma transition_accepted es st env id s :
  history es st -> Forall (fun e => e.(sequence) < env.(sequence)) es ->
  st.(revision) + 1 <= u64_max -> TaskStatus_is_terminal st.(status) = false -> holds_evidence st id s ->
  s < env.(sequence) ->
  env.(event) = Event.TaskLifecycle st.(task_id)
    (TaskEvent.OperationTransitioned id OperationStatus.Started OperationStatus.Uncertain [s]) ->
  env.(ee_session_id) = st.(session_id) ->
  exists st', reduce_task (Some st) env = Ok st'.
Proof.
  intros Hh Hlt Hrev Hterm (op & Hop & Hst & Hlast & Hrec & Hcons & Hpos) Hs Hev Hses.
  destruct (ok_operations _ _ (history_ok _ _ Hh) id op Hop) as [_ _ _ Hep].
  eexists. apply reduce_existing_spec. eexists. split; [exact Hev|]. split_and!; try done.
  - intros _. simpl. unfold validate_evidence_sequences. simpl.
    rewrite bool_decide_eq_false_2; [done|]. intros [= ->]. lia.
  - eexists. split; [|done]. eapply step_operation.
    + split; [done|]. apply Hep. by rewrite Hst.
    + rewrite Hst. split_and!; try done; [simpl; intros [= ->]; lia|by repeat constructor|by constructor|].
      split_and!; [done| |done]. by repeat constructor.
Qed.

Lemma append_accepted js db t record ev now id e :
  store_ok js db -> load_task_record db t = Ok (Some record) ->
  (forall env, env.(event) = Event.TaskLifecycle t ev ->
     env.(ee_session_id) = record.(snapshot).(session_id) ->
     Forall (fun e => e.(sequence) < env.(sequence)) (of_task t js) -> 1 <= env.(sequence) ->
     exists st', reduce_task (Some record.(snapshot)) env = Ok st') ->
  append_task_event_in_transaction record ev now id db = Err e -> is_storage e.
Proof.
  intros Hok Hload Hacc. pose proof (load_task_shown js db t Hok) as Hl. rewrite Hload in Hl.
  destruct Hl as (row & _ & [Hh Hid _ _] & _). unfold append_task_event_in_transaction. rewrite Hid.
  unfold mbind at 1, tx_bind at 1.
  destruct (append_event_in_transaction _ _ _ _ _ db) as [[db1 env]|e'] eqn:Ha.
  2: { intros [= <-]. by eapply append_event_storage. }
  pose proof (history_ok _ _ Hh) as [_ _ _ _ Hown]. rewrite Forall_forall in Hown.
  apply (append_event_ok js) in Ha as (Hev & Hses & _ & _ & Hlt & Hseq & _); [|apply Hok|].
  2: { intros t' ev' e' [= <- _] He'. by apply Hown. }
  destruct (Hacc env Hev Hses) as [st' Hred]; [|lia|].
  { rewrite Forall_forall in *. intros e' He'. apply Hlt; [by apply elem_of_task in He' as [_ ?]|by apply Hown]. }
  rewrite Hred. apply (storage_only_bind (from _)); [by apply storage_only_from|]. intros st.
  storage_only; first [apply child_projection_storage|apply update_projection_storage].
Qed.

(** The last event of a task comes after the others. *)
Lemma last_event js db t env :
  store_ok (js ++ [env]) db -> is_task t env = true ->
  of_task t (js ++ [env]) = of_task t js ++ [env]
  /\ Forall (fun e => e.(sequence) < env.(sequence)) (of_task t js) /\ 1 <= env.(sequence).
Proof.
  intros Hok Ht. pose proof (of_task_snoc t js env) as Hsnoc. rewrite Ht in Hsnoc. split; [done|].
  pose proof (of_task_sorted t _ db (so_journal _ _ Hok)) as Hs.
  rewrite Hsnoc, fmap_snoc, strongly_sorted_snoc, Forall_fmap in Hs. split; [apply Hs|].
  apply (of_task_range t _ db env (so_journal _ _ Hok)). rewrite Hsnoc. set_solver.
Qed.

Lemma settle_started_storage js db t digest now fresh record id e :
  store_ok js db -> load_task_record db t = Ok (Some record) -> is_started record.(snapshot) id ->
  TaskStatus_is_terminal record.(snapshot).(status) = false -> validate_event_identifier digest = Ok tt ->
  settle_started digest now fresh record id db = Err e -> is_storage e.
Proof.
  intros Hok Hload Hst Hterm Hv. pose proof (load_task_shown js db t Hok) as Hl. rewrite Hload in Hl.
  destruct Hl as (row & _ & [Hh Hid _ _] & _). pose proof (revision_room _ _ _ _ (so_journal _ _ Hok) Hh) as Hroom.
  unfold settle_started, mbind, tx_bind, query. simpl.
  destruct (append_task_event_in_transaction record _ _ _ db) as [[db1 [record1 seq]]|e'] eqn:Ha.
  2: { intros [= <-]. eapply (append_accepted js db t record); [done|done| |exact Ha].
    intros env Hev Hses Hlt Hpos. rewrite <-Hid in Hev.
    destruct (evidence_accepted _ _ env id digest Hh Hlt Hpos Hroom Hterm Hst Hv Hev Hses) as (st' & ? & _). eauto. }
  destruct (append_in_transaction_kept js db db1 t record (TaskEvent.OperationEvidenceRecorded id digest) _ _ _ _ Hok I Hload Ha)
    as (env1 & Hok1 & Hev1 & <- & _ & Hred1 & _ & Hload1 & _).
  destruct (append_task_event_in_transaction record1 _ _ _ db1) as [[db2 [record2 seq2]]|e'] eqn:Ha2; [done|].
  intros [= <-]. eapply (append_accepted _ db1 t record1); [exact Hok1|exact Hload1| |exact Ha2].
  pose proof (load_task_shown _ db1 t Hok1) as Hl1. rewrite Hload1 in Hl1.
  destruct Hl1 as (row1 & _ & [Hh1 Hid1 _ _] & _).
  destruct (evidence_keeps_started _ _ _ _ _ _ Hred1 Hev1) as [Hst1 _].
  assert (is_task t env1 = true) as Ht1 by (unfold is_task; rewrite Hev1; apply Z.eqb_refl).
  destruct (last_event js db1 t env1 Hok1 Ht1) as (Hsnoc & Hlt1 & Hpos1).
  assert (holds_evidence record1.(snapshot) id env1.(sequence)) as Hheld.
  { pose proof Hred1 as (ev1 & Hev1' & Hses1 & _)%reduce_existing_spec. rewrite <-Hid in Hev1.
    destruct (evidence_accepted _ _ env1 id digest Hh Hlt1 Hpos1 Hroom Hterm Hst Hv Hev1 Hses1) as (st' & Hred' & ?).
    rewrite Hred1 in Hred'. by injection Hred' as ->. }
  intros env Hev Hses Hlt _. rewrite <-Hid1 in Hev.
  eapply (transition_accepted _ _ env id env1.(sequence) Hh1 Hlt); [|by rewrite Hst1|done| |done|done].
  - by eapply revision_room; [apply Hok1|].
  - rewrite Hsnoc in Hlt. apply Forall_app in Hlt as [_ Hlt]. by apply Forall_cons in Hlt as [? _].
Qed.

Lemma started_NoDup st : NoDup (started_operation_ids st).
Proof.
  unfold started_operation_ids.
  pose proof (strict_NoDup _ (btree_iter_keys st.(operations))) as Hnd.
  induction (btree_iter st.(operations)) as [|[id op] l IH]; [constructor|].
  apply NoDup_cons in Hnd as [Hnin Hnd]. cbn. case_bool_decide; [|by apply IH].
  constructor; [|by apply IH]. intros ([id' op'] & Hin & Hs)%list_elem_of_omap.
  case_bool_decide; [|done]. injection Hs as ->. apply Hnin, list_elem_of_fmap. by exists (id, op').
Qed.

Lemma settle_all_storage js db t digest now fresh record ids e :
  store_ok js db -> load_task_record db t = Ok (Some record) -> NoDup ids ->
  Forall (is_started record.(snapshot)) ids ->
  TaskStatus_is_terminal record.(snapshot).(status) = false -> validate_event_identifier digest = Ok tt ->
  tx_fold (settle_started digest now fresh) record ids db = Err e -> is_storage e.
Proof.
  revert js db record. induction ids as [|id ids IH]; intros js db record Hok Hload Hnd Hst Hterm Hv; [done|].
  apply NoDup_cons in Hnd as [Hnin Hnd]. apply Forall_cons in Hst as [Hid Hst].
  cbn [tx_fold]. unfold mbind at 1, tx_bind at 1.
  destruct (settle_started _ _ _ record id db) as [[db1 record1]|e'] eqn:Hs.
  2: { intros [= <-]. by eapply settle_started_storage. }
  destruct (settle_started_kept well_stored db db1 t _ _ _ _ _ _ well_stored_kept (ex_intro _ js Hok) Hload Hs) as [((js1 & Hok1) & Hload1 & _ & Hst1 & _) Hset].
  eapply (IH js1); try done; [|by rewrite Hst1].
  rewrite Forall_forall in *. intros id' Hin. apply Hset. split; [by apply Hst|]. by intros ->.
Qed.

Lemma reconcile_all_storage js db digest now fresh ts records e :
  store_ok js db -> NoDup ts -> validate_event_identifier digest = Ok tt ->
  Forall2 (fun t record => load_task_record db t = Ok (Some record)) ts records ->
  tx_map (reconcile_record digest now fresh) records db = Err e -> is_storage e.
Proof.
  revert js db records. induction ts as [|t ts IH]; intros js db records Hok Hnd Hv Hf;
    inversion Hf as [|? record ? rest Hload Hrest]; subst; [done|]. cbn [tx_map]. unfold mbind at 1, tx_bind at 1.
  apply NoDup_cons in Hnd as [Hnin Hnd].
  destruct (reconcile_record _ _ _ record db) as [[db1 record1]|e'] eqn:Hr.
  - destruct (reconcile_record_kept well_stored db db1 t _ _ _ _ _ well_stored_kept (ex_intro _ js Hok) Hload Hr) as [((js1 & Hok1) & _ & _ & _ & Hoth) _].
    unfold mbind, tx_bind. destruct (tx_map _ rest db1) as [[db2 ys]|e'] eqn:Hm; [done|]. intros [= <-].
    eapply (IH js1 db1 rest); try done. apply (loads_elsewhere db); [done|].
    intros t' Ht'. apply Hoth. by intros ->.
  - intros [= <-]. unfold reconcile_record in Hr. destruct (TaskStatus_is_terminal _) eqn:Hterm; [done|].
    eapply (settle_all_storage js db t); [done|done|apply started_NoDup| |done|done|exact Hr].
    apply Forall_forall. intros id. apply elem_of_started.
Qed.

Lemma reconcile_storage js db digest now fresh e :
  store_ok js db -> validate_event_identifier digest = Ok tt ->
  reconcile_abandoned_task_operations digest now fresh None db = Err e -> is_storage e.
Proof.
  intros Hok Hv. unfold reconcile_abandoned_task_operations, mbind, tx_bind, query.
  destruct (visit_ok js db Hok) as (records & Hvis & _). rewrite Hvis. simpl.
  destruct (visit_loads js db _ Hok Hvis) as (Hf & Hnd & _). by eapply reconcile_all_storage.
Qed.

(** ** Reachable databases *)

Lemma create_kept canonicalize is_dir js db db' input receipt t id record :
  store_ok js db -> model_ok input.(nt_model) ->
  create_task_inner canonicalize is_dir input receipt t id db = Ok (db', record) ->
  (exists js', store_ok js' db') /\ extends db db'.
Proof.
  intros Hok Hm Hc. destruct (create_inner_kept _ _ js _ _ _ _ _ _ _ Hok Hm Hc) as [[_ ->]|(_ & _ & ? & _ & env & ?)];
    split; by eauto.
Qed.

Lemma appended_extends js db db' t expected ev o :
  store_ok js db -> appended js db db' t expected ev o -> (exists js', store_ok js' db') /\ extends db db'.
Proof.
  intros Hok Ha. destruct o as [record|]; [|cbn in Ha; subst; split; by eauto].
  destruct Ha as (current & env & Hl & _ & Hok' & _ & _ & _ & Hl' & Hrec & Hoth). split; [eauto|].
  split; [by rewrite Hrec|]. intros t' r Hr. destruct (decide (t' = t)) as [->|Hne]; [eauto|].
  rewrite Hoth; eauto.
Qed.

Lemma plain_kept js db db' : store_ok js db -> plain_step db db' -> well_stored db' /\ extends db db'.
Proof.
  intros Hok Hstep. destruct Hstep; (apply (transaction_inv _ (fun db' => well_stored db' /\ extends db db'));
    [split; [by exists js|done]|]; intros db' a Ha).
  - split; [exists js; by eapply create_session_kept|]. unfold create_session in Ha. tx_simpl. by split; eauto.
  - split; [eexists; by eapply append_kept|]. unfold append in Ha. tx_simpl.
    apply append_event_inv in Ha as (row & text & _ & _ & _ & _ & ->). by split; eauto.
  - by eapply create_kept.
  - unfold create_task_idempotent in Ha. tx_simpl. by eapply create_kept.
  - eapply appended_extends; [done|]. by eapply append_steering_kept.
  - apply (reconcile_kept well_stored) in Ha as (? & Hrec & _ & ? & _); [|apply well_stored_kept|by exists js|by left].
    split; [done|]. split; [by rewrite Hrec|done].
  - apply register_frame in Ha as (objects & -> & _). split; [exists js|by split; eauto].
    eapply store_ok_frame; [done| |done|done]. by eapply journal_ok_same; [apply Hok|..].
  - apply modify_ok in Ha as ->. split; [exists js|by split; eauto].
    eapply store_ok_frame; [done| |done|done]. by eapply journal_ok_same; [apply Hok|..].
Qed.

Lemma step_kept js db db' : store_ok js db -> store_step db db' -> well_stored db' /\ extends db db'.
Proof.
  intros Hok [|t expected ev now id Hev|cached version input expected id]; [by eapply plain_kept|..];
    (apply (transaction_inv _ (fun db' => well_stored db' /\ extends db db')); [split; [by exists js|done]|]; intros db2 a Ha).
  - eapply appended_extends; [done|]. by eapply append_task_event_kept.
  - apply (commit_kept js) in Ha; [|done]. destruct a as [r|]; [|subst; split; [by exists js|done]].
    destruct Ha as [record Ha]. by eapply appended_extends.
Qed.

Lemma steps_kept db db' :
  (exists js, store_ok js db) -> rtc store_step db db' -> (exists js, store_ok js db') /\ extends db db'.
Proof.
  intros Hok Hr. induction Hr as [db|db0 db1 db Hstep _ IH]; [done|]. destruct Hok as [js Hok].
  destruct (step_kept js db0 db1 Hok Hstep) as [Hok1 He1]. destruct (IH Hok1) as [Hok2 He2].
  split; [done|by etrans].
Qed.

Lemma reachable_ok db : reachable db -> exists js, store_ok js db.
Proof. intros Hr. eapply steps_kept; [|exact Hr]. exists []. apply store_ok_empty. Qed.

(** *** Reading *)

Lemma collect_events (acc es : list EventEnvelope) :
  try_fold (fun events envelope => Ok (E := CarlError) (events ++ [envelope])) acc es = Ok (acc ++ es).
Proof.
  revert acc. induction es as [|e es IH]; intros acc; simpl; [by rewrite app_nil_r|].
  by rewrite IH, <-app_assoc.
Qed.

Lemma read_after_exact js db t s :
  store_ok js db -> 0 <= s <= i64_max ->
  read_task_events_after db t s = Ok (filter (fun e => s < e.(sequence)) (of_task t js)).
Proof.
  intros Hok Hs. unfold read_task_events_after.
  rewrite (for_each_event_exact t js db) by (done || apply Hok). by rewrite collect_events.
Qed.

Lemma read_exact js db t : store_ok js db -> read_task_events db t = Ok (of_task t js).
Proof.
  intros Hok. unfold read_task_events. rewrite (read_after_exact js) by done. f_equal.
  apply filter_all, Forall_forall. intros e He.
  pose proof (of_task_range t js db e (so_journal _ _ Hok) He). lia.
Qed.

Lemma task_metrics_ok js db t :
  store_ok js db ->
  task_metrics db t = match load_task_record db t with
                      | Ok (Some record) => Ok (Some (metrics_spec (of_task t js) record.(snapshot)))
                      | Ok None => Ok None
                      | Err e => Err e
                      end.
Proof.
  intros Hok. unfold task_metrics. pose proof (load_task_shown js db t Hok) as Hl.
  destruct (load_task_record db t) as [[record|]|e]; [|..|done]; simpl;
    rewrite (for_each_event_all t js db _ _ (so_journal _ _ Hok)).
  2: { destruct Hl as [_ ->]. done. }
  destruct Hl as (row & _ & [Hh Hid _ _] & _).
  assert (forall es m m', try_fold TaskMetricsReducer_push m es = Ok m' -> forall b,
    try_fold (fun '(reducer, _) envelope =>
        reducer ← map_err task_metrics_error (TaskMetricsReducer_push reducer envelope);
        Ok (reducer, true)) (m, b) es = Ok (m', b || negb (is_empty es))) as Hfold.
  { induction es as [|e es IH]; intros m m' Hm b; simpl in *; [simplify_eq; by rewrite orb_false_r|].
    destruct (TaskMetricsReducer_push m e) as [m1|]; [|done]. simpl in *.
    rewrite (IH m1 m' Hm). simpl. by rewrite orb_true_r. }
  assert (Forall (fun e => e.(sequence) <> 0) (of_task t js)) as Hpos.
  { apply Forall_forall. intros e He. pose proof (of_task_range t js db e (so_journal _ _ Hok) He). lia. }
  pose proof (derive_complete _ _ Hh Hpos) as Hd. unfold derive_task_metrics in Hd. rewrite Hid in Hd.
  apply bind_ok in Hd as (m & Hm & Hfin). rewrite (Hfold _ _ _ Hm). pose proof (history_nonempty _ _ Hh).
  destruct (of_task t js); [done|]. simpl. by rewrite Hfin.
Qed.

Lemma existing_task_row key digest db record :
  existing_task (Some (key, digest)) db = Ok (Some record) <->
  exists row t, db.(service_task_receipts) !! key = Some row
    /\ row.(tr_command_digest) = Sha256Digest_display digest /\ uuid_parse row.(tr_task_id) = Some t
    /\ load_task_record db t = Ok (Some record).
Proof.
  unfold existing_task. destruct (service_task_receipts db !! key) as [row|]; [|split; [done|by intros (? & ? & ? & _)]].
  split.
  - intros He. carl_simpl. eexists _, _. split_and!; done.
  - intros (row' & t & [= <-] & Hd & Hp & Hl). rewrite Hd, bool_decide_eq_true_2 by done. simpl.
    rewrite Hp. simpl. rewrite Hl. done.
Qed.

(** A call that finds the receipt of the first one. *)
Lemma create_again canonicalize is_dir input key digest t id db record :
  is_empty key || (128 <? len key) || existsb is_control key = false ->
  existing_task (Some (key, digest)) db = Ok (Some record) ->
  transaction (create_task_idempotent canonicalize is_dir input key digest t id) db = (db, Ok record).
Proof.
  intros Hkey He. unfold transaction, create_task_idempotent. rewrite Hkey.
  cbv beta iota delta [create_task_inner mbind tx_bind from query reject result_bind]. by rewrite He.
Qed.

Lemma create_receipt canonicalize is_dir js db db' input key digest t id record :
  store_ok js db -> model_ok input.(nt_model) ->
  create_task_inner canonicalize is_dir input (Some (key, digest)) t id db = Ok (db', record) ->
  exists row u, db'.(service_task_receipts) !! key = Some row
    /\ row.(tr_command_digest) = Sha256Digest_display digest
    /\ uuid_parse row.(tr_task_id) = Some u /\ load_task_record db' u = Ok (Some record).
Proof.
  intros Hok Hm Hc. destruct (create_inner_kept _ _ js _ _ _ _ _ _ _ Hok Hm Hc)
    as [[He ->]|(_ & Hl & _ & Hrec & _)]; [by apply existing_task_row|].
  eexists _, t. split; [by apply Hrec|]. split; [done|]. cbn. by rewrite uuid_read.
Qed.

(** ** Theorems *)

(** C6: the store never locks itself out.  Whatever sequence of operations has run,
    whatever of them failed, the check of the projections that opens a database
    succeeds: the rows of every task agree with the replay of its journal, and the records that are
    returned are exactly the stored tasks, each once. *)
Theorem store_always_opens db :
  reachable db ->
  exists records, visit_authoritative_task_records db = Ok records
    /\ NoDup (task_id ∘ snapshot <$> records)
    /\ (forall t record, load_task_record db t = Ok (Some record)
                         <-> record ∈ records /\ record.(snapshot).(task_id) = t)
    /\ (forall t record, load_task_record db t = Ok (Some record) ->
          exists es cfg, validate_task_authority_from_journal db t = Ok (record, cfg)
            /\ read_task_events db t = Ok es /\ replay es = Ok (Some record.(snapshot))).
Proof.
  intros [js Hok]%reachable_ok. destruct (visit_ok js db Hok) as (records & Hv & _).
  destruct (visit_loads js db records Hok Hv) as (Hf & Hnd & Hall). exists records. split_and!; [done|done| |].
  - intros t record. split.
    + intros Hl. split; [by eapply Hall|by eapply loaded_id].
    + intros [[i Hi]%list_elem_of_lookup <-].
      destruct (Forall2_lookup_r _ _ _ _ _ Hf Hi) as (t & Ht & Hl).
      rewrite list_lookup_fmap, Hi in Ht. by injection Ht as ->.
  - intros t record Hl. pose proof (load_task_shown js db t Hok) as Hs. rewrite Hl in Hs.
    destruct Hs as (row & Hrow & _). destruct (validate_shown js db t row Hok Hrow) as (r & cfg & Hval & Hl' & _ & Hh & _).
    rewrite Hl in Hl'. injection Hl' as <-. exists (of_task t js), cfg. split; [done|].
    split; [by apply read_exact|]. by apply history_iff_replay in Hh as [? _].
Qed.

(** C10: a writer changes a task only on the revision it expected.  A committed event is
    the next one of the task's journal and no other task changes; every other outcome
    leaves the database as it was; and a second writer that expected the same revision
    is turned away. *)
Theorem writers_serialize db t expected ev now id :
  reachable db -> models_ok ev ->
  let '(db', outcome) := transaction (append_task_event t expected ev now id) db in
  match outcome with
  | Ok (Some record) =>
      (exists current es env,
         load_task_record db t = Ok (Some current) /\ current.(tk_revision) = expected
         /\ load_task_record db' t = Ok (Some record) /\ record.(tk_revision) = expected + 1
         /\ read_task_events db t = Ok es /\ read_task_events db' t = Ok (es ++ [env])
         /\ env.(event) = Event.TaskLifecycle t ev
         /\ (forall t', t' <> t -> load_task_record db' t' = load_task_record db t'
                                   /\ read_task_events db' t' = read_task_events db t'))
      /\ (forall ev' now' id', transaction (append_task_event t expected ev' now' id') db' = (db', Ok None))
  | Ok None | Err _ => db' = db
  end.
Proof.
  intros [js Hok]%reachable_ok Hm. unfold transaction.
  destruct (append_task_event t expected ev now id db) as [[db' [record|]]|e] eqn:Ha; [| |done].
  2: { by apply (append_task_event_kept js) in Ha. }
  apply (append_task_event_kept js) in Ha as (current & env & Hl & Hrev & Hok' & Hev & _ & Hrev' & Hl' & _ & Hoth);
    [|done..].
  assert (forall t', of_task t' (js ++ [env]) = of_task t' js ++ if t =? t' then [env] else []) as Hof.
  { intros t'. rewrite of_task_snoc. unfold is_task. by rewrite Hev. }
  split.
  - exists current, (of_task t js), env. rewrite (read_exact js), (read_exact (js ++ [env])), (Hof t), Z.eqb_refl by done.
    split_and!; try done. intros t' Hne. split; [by apply Hoth|].
    rewrite (read_exact js db), (read_exact (js ++ [env]) db'), (Hof t') by done.
    replace (t =? t') with false by lia. by rewrite app_nil_r.
  - intros ev' now' id'. rewrite (append_task_event_eq (js ++ [env])) by done.
    unfold mbind, tx_bind, expected_task, mbind, tx_bind, query. rewrite Hl'. simpl. rewrite Hrev'.
    by replace (expected + 1 =? expected) with false by lia.
Qed.

(** C11: startup recovery.  Reconciling a store either settles every operation that a
    previous process left started, in every task that is not terminal, keeping the
    store one that opens, or it fails with a storage error and changes nothing: the
    reducer never refuses the two events it writes for an operation. *)
Theorem recovery_settles db digest now fresh :
  reachable db -> validate_event_identifier digest = Ok tt ->
  let '(db', outcome) := transaction (reconcile_abandoned_task_operations digest now fresh None) db in
  match outcome with
  | Ok records =>
      (forall t record, load_task_record db t = Ok (Some record) ->
         exists record', load_task_record db' t = Ok (Some record') /\ record' ∈ records)
      /\ (forall record, record ∈ records ->
            validate_task_projection_from_journal db' record.(snapshot).(task_id) = Ok record
            /\ (TaskStatus_is_terminal record.(snapshot).(status) = true
                \/ started_operation_ids record.(snapshot) = []))
  | Err e => db' = db /\ exists detail, e = CarlError.Storage detail
  end.
Proof.
  intros [js Hok]%reachable_ok Hv. unfold transaction.
  destruct (reconcile_abandoned_task_operations digest now fresh None db) as [[db' records]|e] eqn:Hr.
  2: { split; [done|]. by eapply reconcile_storage. }
  apply (reconcile_kept well_stored) in Hr as ((js' & Hok') & _ & Hrec & Hkeep & Hin); [|apply well_stored_kept|by exists js|by left]. split.
  - intros t record (record' & Hl)%Hkeep. exists record'. split; [done|]. by apply Hrec in Hl as [? _].
  - intros record Hr. specialize (Hin record Hr). pose proof Hin as [_ Hrecov]%Hrec. split; [|exact Hrecov].
    pose proof (load_task_shown js' db' record.(snapshot).(task_id) Hok') as Hs. rewrite Hin in Hs. destruct Hs as (row & Hrow & _).
    destruct (validate_shown js' db' _ row Hok' Hrow) as (r & cfg & Hval & Hl & _).
    unfold validate_task_projection_from_journal. rewrite Hval. simpl. congruence.
Qed.

(** Reading a task page by page, 512 events at a time, returns every event beyond the
    cursor once, in the order of the journal, and terminates; and what is read from the
    beginning is all there is. *)
Theorem pages_exact db t after :
  reachable db -> 0 <= after <= i64_max ->
  exists es, read_task_events db t = Ok es
    /\ StronglySorted Z.lt (sequence <$> es)
    /\ read_task_events_after db t after = Ok (filter (fun e => after < e.(sequence)) es).
Proof.
  intros [js Hok]%reachable_ok Ha. exists (of_task t js).
  split; [by apply read_exact|]. split; [by eapply of_task_sorted, Hok|]. by apply read_after_exact.
Qed.

(** the metrics of a stored task are always available and exact: they are the
    metrics of the specification for the task's journal, a task that does not exist has
    none, and the derivation never fails. *)
Theorem stored_metrics_exact db t :
  reachable db ->
  exists es, read_task_events db t = Ok es
    /\ task_metrics db t = match load_task_record db t with
                           | Ok (Some record) => Ok (Some (metrics_spec es record.(snapshot)))
                           | _ => Ok None
                           end.
Proof.
  intros [js Hok]%reachable_ok. exists (of_task t js). split; [by apply read_exact|].
  rewrite (task_metrics_ok js) by done. pose proof (load_task_shown js db t Hok) as Hl.
  by destruct (load_task_record db t) as [[record|]|].
Qed.

(** creating a task is idempotent.  Once a call with a key has succeeded, a call with
    the same key and the same command returns that task and changes nothing, however
    much has happened since; with another command it is refused. *)
Theorem create_task_once canonicalize is_dir canonicalize' is_dir' input input' key digest t id t' id'
    db db1 db2 record :
  reachable db -> model_ok input.(nt_model) ->
  transaction (create_task_idempotent canonicalize is_dir input key digest t id) db = (db1, Ok record) ->
  rtc store_step db1 db2 ->
  (exists record', record'.(snapshot).(task_id) = record.(snapshot).(task_id)
     /\ transaction (create_task_idempotent canonicalize' is_dir' input' key digest t' id') db2
        = (db2, Ok record'))
  /\ (forall other, Sha256Digest_display other <> Sha256Digest_display digest ->
        transaction (create_task_idempotent canonicalize' is_dir' input' key other t' id') db2
        = (db2, Err (policy_error (lit "service task idempotency key was rebound")))).
Proof.
  intros [js Hok]%reachable_ok Hm Hc Hsteps. unfold transaction in Hc.
  destruct (create_task_idempotent _ _ _ _ _ _ _ db) as [[d r]|e] eqn:Hcr; [|done].
  injection Hc as -> ->. unfold create_task_idempotent in Hcr.
  apply tx_bind_ok in Hcr as (? & ? & [Hkey ->]%from_ok & Hcr). apply reject_ok in Hkey.
  destruct (create_receipt _ _ js _ _ _ _ _ _ _ _ Hok Hm Hcr) as (row & u & Hrow & Hd & Hp & Hl).
  destruct (create_kept _ _ js _ _ _ _ _ _ _ Hok Hm Hcr) as [Hok1 _].
  destruct (steps_kept db1 db2 Hok1 Hsteps) as [[js2 Hok2] [Hrec2 Hload2]].
  apply Hrec2 in Hrow. destruct (Hload2 u record Hl) as [record' Hl']. destruct Hok1 as [js1 Hok1]. split.
  - exists record'. rewrite (loaded_id js2 db2 u _ Hok2 Hl'), (loaded_id js1 db1 u _ Hok1 Hl). split; [done|].
    apply create_again; [done|]. apply existing_task_row. eauto 10.
  - intros other Hne. unfold transaction, create_task_idempotent. rewrite Hkey.
    cbv beta iota delta [create_task_inner mbind tx_bind from query reject result_bind existing_task].
    rewrite Hrow, Hd, bool_decide_eq_false_2 by done. done.
Qed.

(** *** Models with a path *)

Lemma split_char_elem (s : str) c : c ∈ s -> c <> 47 -> exists segment, segment ∈ split_char 47 s /\ c ∈ segment.
Proof.
  induction s as [|x s IH]; [by intros ?%elem_of_nil|]. intros [->|Hin]%elem_of_cons Hne; simpl.
  - rewrite (proj2 (Z.eqb_neq _ _) Hne). destruct (split_char 47 s) as [|w ws]; eexists; split; [left|left|left|left].
  - destruct (IH Hin Hne) as (w & Hw & Hc). destruct (x =? 47); [exists w; set_solver|].
    destruct (split_char 47 s) as [|w0 ws]; [by apply elem_of_nil in Hw|].
    apply elem_of_cons in Hw as [->|Hw]; [exists (x :: w0)|exists w]; set_solver.
Qed.

Lemma utf8_nul (s : str) : 0 ∈ s -> 0 ∈ utf8 s.
Proof.
  induction s as [|x s IH]; [by intros ?%elem_of_nil|]. intros [<-|Hin]%elem_of_cons;
    cbn [utf8]; apply elem_of_app; [by left; left|right; auto].
Qed.

Lemma before_nul_id (s : str) : 0 ∉ s -> before_nul s = s.
Proof.
  induction s as [|x s IH]; [done|]. intros [Hx Hs]%not_elem_of_cons. simpl.
  rewrite (proj2 (Z.eqb_neq _ _)) by done. by rewrite IH.
Qed.

(** A model identifier with a [/] is one the tables refuse. *)
Lemma slash_model_glob m : model_ok m -> 47 ∈ m -> model_glob m = false.
Proof.
  unfold model_ok, ModelId_parse. intros Hm Hin. case_match eqn:Hv; [done|]. carl_simpl.
  unfold model_glob. rewrite before_nul_id.
  - apply not_true_is_false. rewrite forallb_forall. intros Hall.
    specialize (Hall 47 (proj1 (list_elem_of_In _ _) Hin)). done.
  - intros Hnul. destruct (split_char_elem m 0 Hnul) as (w & Hw & Hw0); [done|].
    match goal with H : Forall _ (split_char _ _) |- _ => rewrite Forall_forall in H; specialize (H w Hw) end.
    carl_simpl. match goal with H : Forall _ (utf8 w) |- _ => rewrite Forall_forall in H; specialize (H 0 (utf8_nul w Hw0)) end.
    done.
Qed.

Lemma check_agent_task_model id row : check_agent_task id row = true -> model_glob row.(at_model) = true.
Proof. unfold check_agent_task. rewrite !andb_true_iff. tauto. Qed.

Lemma check_configuration_model row :
  check_configuration row = true -> match row.(pending_model) with Some m => model_glob m = true | None => True end.
Proof.
  unfold check_configuration. rewrite !andb_true_iff. destruct (pending_model row); simpl; [|done].
  rewrite andb_true_iff. tauto.
Qed.

(** C37: [ModelId::parse] accepts a model identifier that contains a [/], as in
    [provider/model], and the tables refuse it: no task is ever created with such a
    model and no task is ever switched to one, on any database. *)
Theorem slash_model_never_stored canonicalize is_dir input t expected id control effort mode now db :
  model_ok input.(nt_model) -> 47 ∈ input.(nt_model) ->
  (forall db' record, create_task canonicalize is_dir input t id db <> Ok (db', record))
  /\ (forall db' record, append_task_event t expected
        (TaskEvent.ConfigurationQueued control input.(nt_model) effort mode) now id db
        <> Ok (db', Some record)).
Proof.
  intros Hm Hin. pose proof (slash_model_glob _ Hm Hin) as Hg. split; intros db' record Hc.
  - unfold create_task, create_task_inner, existing_task in Hc. tx_simpl.
    match goal with H : insert_task_projection _ _ _ _ _ _ _ = Ok _ |- _ => unfold insert_task_projection in H end.
    tx_simpl. match goal with H : check_agent_task _ _ = true |- _ => apply check_agent_task_model in H; cbn [at_model] in H end.
    congruence.
  - unfold append_task_event in Hc. tx_simpl. case_match; tx_simpl.
    match goal with H : append_event_in_transaction _ _ _ _ _ _ = Ok _ |- _ =>
      apply append_event_inv in H as (row & text & _ & -> & _) end.
    match goal with H : apply_task_child_projection _ _ _ = Ok _ |- _ =>
      unfold apply_task_child_projection, project_configuration_queued in H; cbn in H end.
    tx_simpl. match goal with H : check_configuration _ = true |- _ => apply check_configuration_model in H; cbn [pending_model] in H end.
    congruence.
Qed.

End Operations.
