(* ===== verification/StoreBudget.v ===== *)
(** * The budget a task was created with

    No operation of the store changes the budget of a task that is there. *)
From stdpp Require Import base gmap sets list sorting strings.
From S2P Require Import Prelude Ord Text Settings Policy TaskTypes Events Reducer Checkpoint Context Database TaskStore Front Approvals Grants StoreCheckpoint StoreJournal StoreAuthority StoreOps.
From Stdlib Require Import ZArith Lia.
#[local] Open Scope list_scope.
#[local] Open Scope Z_scope.

Create HintDb budget.

Section Budget.
Context `{U : Uuids, C : Chrono, J : Serde, Q : SqliteJson, CJ : CheckpointJson}.
Context `{!UuidLaws, !SerdeLaws}.
Context (t : TaskId) (B : TaskBudget).

(** The task is stored, and with this budget. *)
Definition budgeted (db : Database) : Prop :=
  exists row, db.(agent_tasks) !! uuid_to_string t = Some row
    /\ forall s, snapshot_from_str row.(snapshot_json) = Some s -> s.(budget) = B.

Lemma loaded_snapshot db t' record :
  load_task_record db t' = Ok (Some record) ->
  exists row, db.(agent_tasks) !! uuid_to_string t' = Some row
    /\ snapshot_from_str row.(snapshot_json) = Some record.(snapshot) /\ record.(snapshot).(task_id) = t'.
Proof.
  unfold load_task_record. destruct (agent_tasks db !! _) as [row|]; [|done]. cbn. intros Hr.
  unfold record_from_row in Hr. carl_simpl. exists row. split_and!; [done|done|].
  cbn. by apply Z.eqb_eq.
Qed.

Lemma budgeted_loaded db record :
  budgeted db -> load_task_record db t = Ok (Some record) -> record.(snapshot).(budget) = B.
Proof. intros (row & Hr & Hb) (row' & Hr' & Hs & _)%loaded_snapshot. rewrite Hr in Hr'. simplify_eq. by apply Hb. Qed.

Lemma loaded_budgeted db record :
  load_task_record db t = Ok (Some record) -> record.(snapshot).(budget) = B -> budgeted db.
Proof. intros (row & Hr & Hs & _)%loaded_snapshot Hb. exists row. split; [done|]. intros s. congruence. Qed.

Lemma same_budgeted db db' : db'.(agent_tasks) = db.(agent_tasks) -> budgeted db -> budgeted db'.
Proof. unfold budgeted. by intros ->. Qed.

#[local] Abbreviation lasts := (tx_keeps budgeted).
#[local] Ltac same := intros; match goal with HB : budgeted _ |- _ => apply (same_budgeted _ _ eq_refl HB) end.
#[local] Ltac lasts := keeps; try same; eauto with budget.

Lemma update_budgeted snapshot now :
  (snapshot.(task_id) = t -> snapshot.(budget) = B) -> lasts (update_task_projection snapshot now).
Proof.
  intros Hs. unfold update_task_projection. intros db db' u Hu Hb. tx_simpl.
  destruct Hb as (row0 & Hr0 & Hb). unfold budgeted. cbn.
  destruct (decide (snapshot.(task_id) = t)) as [He|Hne].
  - rewrite He, lookup_insert_eq. eexists. split; [done|]. cbn. intros s. erewrite snapshot_read by done.
    intros [= <-]. by apply Hs.
  - rewrite lookup_insert_ne by (by intros ?%uuid_inj). by exists row0.
Qed.

Lemma append_event_budgeted session turn ev now id : lasts (append_event_in_transaction session turn ev now id).
Proof.
  unfold append_event_in_transaction. keeps; intros db db' u; [unfold take_sequence|unfold insert_event].
  all: repeat case_match; intros; simplify_eq; same.
Qed.
Lemma child_budgeted t' env : lasts (apply_task_child_projection t' env).
Proof.
  unfold apply_task_child_projection, project_epoch_started, project_epoch_finished, project_epoch_interrupted,
    end_epoch, project_configuration_queued, project_configuration_applied, project_control_requested,
    insert_checkpoint, project_compaction_completed, project_steering_queued, project_operation_intent,
    project_operation_transition, insert_package.
  destruct (event env); lasts.
Qed.
#[local] Hint Resolve append_event_budgeted child_budgeted : budget.

(** What a writer makes of a task it has loaded. *)
Lemma reduced_budgeted {A} session t' ev now id current (k : TaskSnapshot -> EventEnvelope -> Tx A) :
  current.(TaskStore.snapshot).(task_id) = t' -> (t' = t -> current.(TaskStore.snapshot).(budget) = B) ->
  (forall snapshot env, (snapshot.(task_id) = t -> snapshot.(budget) = B) -> lasts (k snapshot env)) ->
  lasts (envelope ← append_event_in_transaction session None (Event.TaskLifecycle t' ev) now id;
         snapshot ← from (map_err task_reduce_error (reduce_task (Some current.(TaskStore.snapshot)) envelope));
         k snapshot envelope).
Proof.
  intros Hid Hb Hk. apply tx_keeps_bind; [apply append_event_budgeted|intros env].
  intros db db' a Ha Hdb. apply tx_bind_ok in Ha as (db1 & snapshot & [Hr ->]%from_ok & Ha).
  destruct (reduce_task _ env) as [s|err] eqn:Hred; [|done]. simplify_eq/=.
  apply reduce_edge in Hred as (_ & _ & _ & _ & Ht & _ & Hbud).
  eapply Hk; [|exact Ha|done]. rewrite Ht, Hbud. intros He. apply Hb. congruence.
Qed.

(** A writer that loads a task and goes on with it. *)
Lemma expected_budgeted {A} t' expected (k : option TaskRecord -> Tx A) :
  lasts (k None) ->
  (forall current, current.(TaskStore.snapshot).(task_id) = t' ->
     (t' = t -> current.(TaskStore.snapshot).(budget) = B) -> lasts (k (Some current))) ->
  lasts (expected_task t' expected ≫= k).
Proof.
  intros Hn Hs db db' a Ha Hb. apply tx_bind_ok in Ha as (db1 & o & [-> He]%expected_task_ok & Ha).
  destruct (load_task_record db t') as [[record|]|] eqn:Hl; [|subst; by apply (Hn _ _ _ Ha)|done].
  destruct o as [current|]; [|by apply (Hn _ _ _ Ha)]. assert (current = record) as -> by (by destruct (_ =? _); simplify_eq).
  eapply (Hs record); [| |exact Ha|done].
  - by apply loaded_snapshot in Hl as (? & _ & _ & ?).
  - intros ->. by eapply budgeted_loaded.
Qed.

Lemma append_task_event_budgeted t' expected ev now id : lasts (append_task_event t' expected ev now id).
Proof.
  unfold append_task_event. apply expected_budgeted; [keeps|]. intros current Hid Hb.
  apply reduced_budgeted; [done|done|]. intros snapshot env Hs. lasts. by apply update_budgeted.
Qed.

Lemma steering_budgeted t' expected n digest control now id :
  lasts (append_controlled_task_steering t' expected n digest control now id).
Proof.
  unfold append_controlled_task_steering. apply tx_keeps_bind; [keeps|intros ?].
  apply expected_budgeted; [keeps|]. intros current Hid Hb. apply tx_keeps_bind.
  - unfold append_task_event_in_transaction. rewrite Hid. apply reduced_budgeted; [done|done|].
    intros snapshot env Hs. lasts. by apply update_budgeted.
  - intros [record seq]. lasts. intros db db' u. unfold bind_steering_control.
    repeat case_match; try done; intros [= <- _]; [done|same].
Qed.

Lemma append_budgeted session turn ev now id : lasts (append session turn ev now id).
Proof. unfold append. lasts. Qed.
Lemma create_session_budgeted id now : lasts (create_session id now).
Proof. unfold create_session. lasts. Qed.

Lemma create_inner_budgeted canonicalize is_dir input receipt t' id :
  lasts (create_task_inner canonicalize is_dir input receipt t' id).
Proof.
  unfold create_task_inner, insert_task_projection, insert_task_receipt. lasts.
  intros (row & Hr & Hb). unfold budgeted. cbn. exists row. by rewrite lookup_insert_ne by congruence.
Qed.
Lemma create_budgeted canonicalize is_dir input t' id : lasts (create_task canonicalize is_dir input t' id).
Proof. apply create_inner_budgeted. Qed.
Lemma create_idempotent_budgeted canonicalize is_dir input key digest t' id :
  lasts (create_task_idempotent canonicalize is_dir input key digest t' id).
Proof. unfold create_task_idempotent. lasts. apply create_inner_budgeted. Qed.

(** The full validation of a commit returns the snapshot that is stored. *)
Lemma validated_snapshot db current input anchor current' validated :
  load_task_record db input.(nc_task_id) = Ok (Some current) ->
  validate_commit db current input anchor = Ok (current', validated) ->
  current'.(TaskStore.snapshot) = current.(TaskStore.snapshot).
Proof.
  intros Hl Hv. unfold validate_commit in Hv. destruct anchor; [by carl_simpl|].
  carl_simpl. unfold validate_task_authority_from_journal in *. carl_simpl.
  match goal with x : Children * _ |- _ => destruct x as [[] ?] end. carl_simpl. rewrite Hl in *. by simplify_eq/=.
Qed.

Lemma commit_budgeted cached version input expected id : lasts (commit_checkpoint cached version input expected id).
Proof.
  unfold commit_checkpoint. do 5 (apply tx_keeps_bind; [keeps|intros ?]).
  intros db db' committed Ha Hb. apply tx_bind_ok in Ha as (db1 & o & [-> He]%expected_task_ok & Ha).
  destruct (load_task_record db _) as [[record|]|] eqn:Hl; [|subst; by tx_simpl|done].
  destruct o as [current|]; [|by tx_simpl]. assert (current = record) as -> by (by destruct (_ =? _); simplify_eq).
  apply tx_bind_ok in Ha as (db1 & [current validated] & [Hv ->]%query_ok & Ha).
  pose proof (validated_snapshot _ _ _ _ _ _ Hl Hv) as Hs.
  assert (lasts (write_checkpoint current input a1 a3 id)) as Hw.
  { apply reduced_budgeted.
    - rewrite Hs. by apply loaded_snapshot in Hl as (? & _ & _ & ?).
    - intros Ht. rewrite Hs. rewrite Ht in Hl. by eapply budgeted_loaded.
    - intros snapshot env Hsn. unfold insert_checkpoint, insert_package. lasts. by apply update_budgeted. }
  revert Ha Hb. match goal with |- ?tx db = _ -> _ => enough (lasts tx) as Hk by apply Hk end. lasts.
Qed.

End Budget.
