(* ===== verification/StorePayload.v ===== *)
(** * The stored checkpoints stay valid

    What [StoreCheckpoint] keeps true of the tables of checkpoints and context
    packages: every checkpoint is announced by an event of its task's journal, the
    latest checkpoint of a task is the last one that was announced, and every
    checkpoint that is stored with its content passes the check that opens a store.

    The one operation that can break this is [append_task_event] with a
    [CompactionCompleted] that names a context package of its own for a checkpoint
    that is stored with its content.  [compaction_atomic] says of an event that it is no
    such one, [packages_atomic] of a database that there was none. *)
From stdpp Require Import base gmap sets list sorting strings relations.
From S2P Require Import Prelude Ord Text Settings Policy TaskTypes Events Reducer Journal Metrics SecretFilter Checkpoint Context Database TaskStore StoreCheckpoint StoreJournal StoreAuthority StoreOps.
From Stdlib Require Import ZArith Lia.
#[local] Open Scope list_scope.
#[local] Open Scope Z_scope.

Section Payload.
Context `{U : Uuids, C : Chrono, J : Serde, Q : SqliteJson, CJ : CheckpointJson}.

(** ** The invariant *)

Definition announced (db : Database) (id : str) (row : CheckpointRow) : Prop :=
  exists e, e ∈ db.(events) /\ e.(er_sequence) = row.(cr_event_sequence)
    /\ json_task_id e.(event_json) = Some row.(cr_task_id)
    /\ json_checkpoint_committed e.(event_json) = Some (id, row.(cr_digest)).

Definition joins (id : str) (row : CheckpointRow) (package : PackageRow) : Prop :=
  package.(pr_task_id) = row.(cr_task_id) /\ package.(pr_checkpoint_id) = id.

(** A package of a checkpoint that is stored with its content has content. *)
Definition packages_atomic (db : Database) : Prop :=
  forall id row pid package, db.(task_checkpoints) !! id = Some row ->
  db.(task_context_packages) !! pid = Some package -> joins id row package ->
  is_Some row.(checkpoint_json) -> is_Some package.(package_json).

(** The packages of one checkpoint pass the check that opens a store. *)
Definition payload_valid (db : Database) (id : str) (row : CheckpointRow) : Prop :=
  match row.(checkpoint_json) with
  | Some json =>
      (exists pid package, db.(task_context_packages) !! pid = Some package /\ joins id row package)
      /\ forall pid package, db.(task_context_packages) !! pid = Some package -> joins id row package ->
         exists text, package.(package_json) = Some text
           /\ validate_payload_texts db id row json pid text package = Ok tt
  | None => forall pid package, db.(task_context_packages) !! pid = Some package ->
              joins id row package -> package.(package_json) = None
  end.

Record payload_ok (db : Database) : Prop := {
  po_announced : forall id row, db.(task_checkpoints) !! id = Some row -> announced db id row;
  po_latest : forall id row, db.(task_checkpoints) !! id = Some row ->
    exists task latest last, db.(agent_tasks) !! row.(cr_task_id) = Some task
      /\ task.(latest_checkpoint_id) = Some latest
      /\ db.(task_checkpoints) !! latest = Some last /\ last.(cr_task_id) = row.(cr_task_id)
      /\ (id = latest \/ row.(cr_event_sequence) < last.(cr_event_sequence));
  po_stored : forall k task latest, db.(agent_tasks) !! k = Some task ->
    task.(latest_checkpoint_id) = Some latest ->
    exists row, db.(task_checkpoints) !! latest = Some row /\ row.(cr_task_id) = k;
  po_packages : forall pid package, db.(task_context_packages) !! pid = Some package ->
    is_Some (db.(task_checkpoints) !! package.(pr_checkpoint_id));
  po_valid : forall id row, db.(task_checkpoints) !! id = Some row -> payload_valid db id row
}.

Lemma payload_ok_empty : payload_ok empty_database.
Proof. by constructor. Qed.

Lemma elem_of_joined db id row package :
  (id, row, package) ∈ payload_joined db <->
  db.(task_checkpoints) !! id = Some row
  /\ match package with
     | Some (pid, p) => db.(task_context_packages) !! pid = Some p /\ joins id row p
     | None => forall pid p, db.(task_context_packages) !! pid = Some p -> ~ joins id row p
     end.
Proof.
  unfold payload_joined. rewrite list_elem_of_bind.
  set (found := fun (id : str) (row : CheckpointRow) =>
    filter (fun '(_, p) => p.(pr_task_id) = row.(cr_task_id) /\ p.(pr_checkpoint_id) = id)
      (map_to_list db.(task_context_packages))).
  assert (forall id row pid p, (pid, p) ∈ found id row <->
    db.(task_context_packages) !! pid = Some p /\ joins id row p) as Hfound.
  { intros. unfold found. rewrite list_elem_of_filter, elem_of_map_to_list. unfold joins. tauto. }
  split.
  - intros ([id' row'] & Hin & Hck%elem_of_map_to_list). fold (found id' row') in Hin.
    specialize (Hfound id' row'). destruct (found id' row') as [|p0 ps] eqn:Hf.
    + apply list_elem_of_singleton in Hin as [= -> -> ->]. split; [done|].
      intros pid p Hp Hj. by apply (elem_of_nil (pid, p)), Hfound.
    + apply list_elem_of_fmap in Hin as ([pid p] & [= -> -> ->] & Hin). split; [done|]. by apply Hfound.
  - intros [Hck Hp]. exists (id, row). split; [|by apply elem_of_map_to_list]. fold (found id row).
    specialize (Hfound id row). destruct package as [[pid p]|].
    + apply Hfound in Hp. destruct (found id row) as [|p0 ps]; [by apply elem_of_nil in Hp|].
      apply list_elem_of_fmap. eauto.
    + destruct (found id row) as [|[pid p] ps]; [set_solver|].
      destruct (proj1 (Hfound pid p)) as [Hpp Hj]; [set_solver|]. by destruct (Hp pid p).
Qed.

Lemma payloads_accepted db o :
  payload_ok db -> validate_task_canonical_payloads_filtered db o = Ok tt.
Proof.
  intros Hok. unfold validate_task_canonical_payloads_filtered. apply try_for_each_ok, Forall_forall.
  intros [[id row] package]. unfold payload_rows, sort_by_key. rewrite sort_by_perm, list_elem_of_filter.
  unfold payload_selected. rewrite andb_true_iff, elem_of_joined. intros [[_ Hsel] [Hck Hp]].
  pose proof (po_valid _ Hok id row Hck) as Hv. unfold payload_valid in Hv. cbn.
  destruct (checkpoint_json row) as [json|]; destruct package as [[pid p]|]; simpl in *.
  - destruct Hv as [_ Hv]. destruct Hp as [Hpp Hj]. by destruct (Hv pid p Hpp Hj) as (text & -> & ?).
  - destruct Hv as [(pid & p & Hpp & Hj) _]. by destruct (Hp pid p).
  - destruct Hp as [Hpp Hj]. by rewrite (Hv pid p Hpp Hj) in Hsel.
  - done.
Qed.

(** ** Writing more *)

(** A database with more events, checkpoints and artifacts, all of them later than what
    there was. *)
Definition after (db : Database) (row : EventRow) : Prop :=
  forall e, e ∈ db.(events) -> json_task_id e.(event_json) = json_task_id row.(event_json) ->
  is_Some (json_task_id row.(event_json)) -> e.(er_sequence) < row.(er_sequence).

Record later (db db' : Database) : Prop := {
  lt_events : exists rows, db'.(events) = db.(events) ++ rows /\ Forall (after db) rows;
  lt_artifacts : forall k row, db.(artifact_objects) !! k = Some row -> is_Some (db'.(artifact_objects) !! k);
  lt_checkpoints : forall id row, db'.(task_checkpoints) !! id = Some row ->
    db.(task_checkpoints) !! id = Some row
    \/ forall id' row', db.(task_checkpoints) !! id' = Some row' ->
       row'.(cr_task_id) = row.(cr_task_id) -> row'.(cr_event_sequence) < row.(cr_event_sequence);
  lt_kept : forall id row, db.(task_checkpoints) !! id = Some row -> db'.(task_checkpoints) !! id = Some row
}.

Lemma bind_mono {E A B} (r : result E A) (k k' : A -> result E B) v :
  (forall a, r = Ok a -> k a = Ok v -> k' a = Ok v) -> (x ← r; k x) = Ok v -> (x ← r; k' x) = Ok v.
Proof. intros Hk. destruct r; simpl; auto. Qed.

Lemma announced_later db db' id row : later db db' -> announced db id row -> announced db' id row.
Proof.
  intros [(rows & Hev & _) _ _ _] (e & He & ?). exists e. rewrite Hev. split; [|done]. set_solver.
Qed.

(** The journal before a checkpoint is not written again. *)
Lemma bounds_later db db' task row (f : EventRow -> bool) :
  later db db' -> (exists id, announced db id row) -> row.(cr_task_id) = task ->
  filter (fun e => json_task_id e.(event_json) = Some task /\ e.(er_sequence) < row.(cr_event_sequence))
    db'.(events)
  = filter (fun e => json_task_id e.(event_json) = Some task /\ e.(er_sequence) < row.(cr_event_sequence))
      db.(events)
  /\ (existsb f db.(events) = true -> existsb f db'.(events) = true).
Proof.
  intros [(rows & -> & Hafter) _ _ _] (id & e & He & Hseq & Htask & _) <-. split.
  - rewrite filter_app, (filter_none _ rows), app_nil_r; [done|]. eapply Forall_impl; [exact Hafter|].
    intros r Hr [Ht Hlt]. specialize (Hr e He). rewrite Htask, Ht in Hr. specialize (Hr eq_refl ltac:(done)). lia.
  - intros Hf. rewrite existsb_app. by rewrite Hf.
Qed.

Lemma digest_before_later db db' task row id :
  later db db' -> db.(task_checkpoints) !! id = Some row -> row.(cr_task_id) = task ->
  digest_before db' task row.(cr_event_sequence) = digest_before db task row.(cr_event_sequence).
Proof.
  intros Hl Hrow <-. unfold digest_before.
  match goal with |- context [filter ?P (task_checkpoints db')] =>
    enough (filter P (task_checkpoints db') = filter P (task_checkpoints db)) as -> by done end.
  apply map_eq. intros k. apply option_eq. intros r.
  rewrite !map_lookup_filter_Some. split; intros [Hk [Ht Hlt]]; (split; [|done]).
  - destruct (lt_checkpoints _ _ Hl k r Hk) as [|Hnew]; [done|]. symmetry in Ht.
    specialize (Hnew id row Hrow Ht). lia.
  - by apply (lt_kept _ _ Hl).
Qed.

Lemma artifacts_later db db' checkpoint :
  later db db' -> validate_checkpoint_artifacts db checkpoint = Ok tt ->
  validate_checkpoint_artifacts db' checkpoint = Ok tt.
Proof.
  intros Hl. unfold validate_checkpoint_artifacts. rewrite !try_for_each_ok. intros Hall.
  eapply Forall_impl; [exact Hall|]. intros digest Hd. apply reject_ok, negb_false_iff in Hd.
  apply reject_ok, negb_false_iff. destruct (artifact_objects db !! digest) as [row|] eqn:Hrow; [|done].
  destruct (lt_artifacts _ _ Hl digest row Hrow) as [row' ->]. done.
Qed.

Context `{!UuidLaws}.

Lemma source_bounds_later db db' id row t checkpoint digest :
  later db db' -> db.(task_checkpoints) !! id = Some row -> announced db id row ->
  row.(cr_task_id) = uuid_to_string t -> checkpoint.(ck_task_id) = t ->
  validate_canonical_source_bounds db checkpoint row.(cr_event_sequence) digest = Ok tt ->
  validate_canonical_source_bounds db' checkpoint row.(cr_event_sequence) digest = Ok tt.
Proof.
  intros Hl Hrow Han Ht Hc. unfold validate_canonical_source_bounds. rewrite Hc.
  match goal with |- context [existsb ?f (events db)] =>
    destruct (bounds_later db db' (uuid_to_string t) row f Hl ltac:(by exists id) Ht) as [-> Hex] end.
  apply bind_mono. intros [start stop] _. do 4 (apply bind_mono; intros ? _). rewrite !reject_ok, !negb_false_iff.
  exact Hex.
Qed.

Lemma texts_later db db' id row json pid text package t :
  later db db' -> payload_ok db -> db.(task_checkpoints) !! id = Some row -> row.(cr_task_id) = uuid_to_string t ->
  validate_payload_texts db id row json pid text package = Ok tt ->
  validate_payload_texts db' id row json pid text package = Ok tt.
Proof.
  intros Hl Hok Hrow Ht. unfold validate_payload_texts. rewrite Ht, uuid_read. rewrite <-Ht.
  do 2 (apply bind_mono; intros ? _). cbn [ok_or mbind result_bind]. do 4 (apply bind_mono; intros ? _).
  apply bind_mono. intros [] Hmeta. do 4 (apply bind_mono; intros ? _). rewrite (digest_before_later db db' _ row id Hl Hrow eq_refl).
  apply reject_ok in Hmeta. rewrite !orb_false_iff, !negb_false_iff, !Z.eqb_eq in Hmeta. destruct_and! Hmeta.
  destruct (validate_canonical_source_bounds db _ _ _) as [[]|] eqn:Hb; cbn [mbind result_bind]; [|done].
  rewrite (source_bounds_later db db' id row t) by (done || by apply (po_announced _ Hok)).
  cbn [mbind result_bind]. apply bind_mono. intros ? _. unfold map_err.
  destruct (validate_checkpoint_artifacts db _) as [[]|] eqn:Ha; [|done]. by rewrite (artifacts_later db db').
Qed.

Context `{!ChronoLaws, !SerdeLaws, !SqliteJsonLaws}.

Lemma checkpoint_task js db id row :
  store_ok js db -> payload_ok db -> db.(task_checkpoints) !! id = Some row ->
  exists t, row.(cr_task_id) = uuid_to_string t.
Proof.
  intros Hok Hp Hrow. destruct (po_latest _ Hp id row Hrow) as (task & _ & _ & Ht & _).
  by eapply so_keys.
Qed.

(** A checkpoint that was valid stays so while no package with content joins it. *)
Lemma payload_valid_later js db db' id row :
  store_ok js db -> payload_ok db -> later db db' -> db.(task_checkpoints) !! id = Some row ->
  db.(task_context_packages) ⊆ db'.(task_context_packages) ->
  (forall pid package, db'.(task_context_packages) !! pid = Some package -> joins id row package ->
     db.(task_context_packages) !! pid = Some package
     \/ package.(package_json) = None /\ row.(checkpoint_json) = None) ->
  payload_valid db' id row.
Proof.
  intros Hok Hp Hl Hrow Hsub Hnew. destruct (checkpoint_task js db id row Hok Hp Hrow) as [t Ht].
  pose proof (po_valid _ Hp id row Hrow) as Hv. unfold payload_valid in *.
  destruct (checkpoint_json row) as [json|] eqn:Hjson.
  - destruct Hv as [(pid & package & Hpk & Hj) Hv]. split; [exists pid, package; split; [by eapply lookup_weaken|done]|].
    intros pid' package' Hpk' Hj'. destruct (Hnew pid' package' Hpk' Hj') as [Hold|[_ ?]]; [|done].
    destruct (Hv pid' package' Hold Hj') as (text & Htext & Hok'). exists text. split; [done|].
    by eapply texts_later.
  - intros pid package Hpk Hj. destruct (Hnew pid package Hpk Hj) as [Hold|[? _]]; eauto.
Qed.

(** *** Nothing, or a package without content *)

Definition latest_kept (db db' : Database) : Prop :=
  (forall k task, db.(agent_tasks) !! k = Some task -> exists task', db'.(agent_tasks) !! k = Some task'
     /\ task'.(latest_checkpoint_id) = task.(latest_checkpoint_id))
  /\ (forall k task', db'.(agent_tasks) !! k = Some task' -> task'.(latest_checkpoint_id) = None
       \/ exists task, db.(agent_tasks) !! k = Some task
          /\ task'.(latest_checkpoint_id) = task.(latest_checkpoint_id)).

Lemma payload_frame js db db' :
  store_ok js db -> payload_ok db -> later db db' -> latest_kept db db' ->
  db'.(task_checkpoints) = db.(task_checkpoints) ->
  db.(task_context_packages) ⊆ db'.(task_context_packages) ->
  (forall pid package, db'.(task_context_packages) !! pid = Some package ->
     db.(task_context_packages) !! pid = Some package
     \/ package.(package_json) = None
        /\ exists row, db.(task_checkpoints) !! package.(pr_checkpoint_id) = Some row
           /\ row.(checkpoint_json) = None) ->
  payload_ok db'.
Proof.
  intros Hok Hp Hl [Hfw Hbw] Hck Hsub Hnew. constructor; rewrite ?Hck.
  - intros id row Hrow. eapply announced_later; [done|]. by apply (po_announced _ Hp).
  - intros id row Hrow. destruct (po_latest _ Hp id row Hrow) as (task & latest & last & Ht & Hlt & ? & ? & ?).
    destruct (Hfw _ _ Ht) as (task' & ? & Heq). exists task', latest, last. rewrite Heq. split_and!; done.
  - intros k task' latest Ht' Hlt. destruct (Hbw _ _ Ht') as [|(task & Ht & Heq)]; [congruence|].
    eapply (po_stored _ Hp); [exact Ht|congruence].
  - intros pid package Hpk. destruct (Hnew pid package Hpk) as [Hold|(_ & row & -> & _)]; [|done].
    by eapply (po_packages _ Hp).
  - intros id row Hrow. eapply payload_valid_later; try done. intros pid package Hpk [_ <-].
    destruct (Hnew pid package Hpk) as [|(Hn & row' & Hrow' & ?)]; [by left|right]. rewrite Hrow in Hrow'. by simplify_eq.
Qed.

(** *** A checkpoint *)

Lemma payload_checkpoint js db db' id row task :
  store_ok js db -> payload_ok db -> later db db' ->
  db.(task_checkpoints) !! id = None -> db'.(task_checkpoints) = <[id := row]> db.(task_checkpoints) ->
  announced db' id row -> db'.(agent_tasks) = <[row.(cr_task_id) := task]> db.(agent_tasks) ->
  task.(latest_checkpoint_id) = Some id ->
  (forall id' row', db.(task_checkpoints) !! id' = Some row' -> row'.(cr_task_id) = row.(cr_task_id) ->
     row'.(cr_event_sequence) < row.(cr_event_sequence)) ->
  db.(task_context_packages) ⊆ db'.(task_context_packages) ->
  (forall pid package, db'.(task_context_packages) !! pid = Some package ->
     db.(task_context_packages) !! pid = Some package \/ package.(pr_checkpoint_id) = id) ->
  payload_valid db' id row -> payload_ok db'.
Proof.
  intros Hok Hp Hl Hnone Hck Han Hat Hlt Hafter Hsub Hnew Hv.
  assert (forall id' row', db.(task_checkpoints) !! id' = Some row' -> id' <> id) as Hne by congruence.
  constructor; rewrite ?Hck, ?Hat.
  - intros id' row' [[<- <-]|[_ Hrow]]%lookup_insert_Some; [done|].
    eapply announced_later; [done|]. by apply (po_announced _ Hp).
  - intros id' row' [[<- <-]|[_ Hrow]]%lookup_insert_Some.
    { exists task, id, row. rewrite !lookup_insert_eq. split_and!; auto. }
    destruct (decide (cr_task_id row' = cr_task_id row)) as [Heq|Hneq].
    + exists task, id, row. rewrite Heq, !lookup_insert_eq. split_and!; eauto.
    + destruct (po_latest _ Hp id' row' Hrow) as (task' & latest & last & ? & ? & Hlast & ? & ?).
      exists task', latest, last. rewrite !lookup_insert_ne by (try done; apply not_eq_sym; eauto). done.
  - intros k task' latest [[<- <-]|[Hk Ht]]%lookup_insert_Some Hl'.
    + exists row. rewrite Hlt in Hl'. injection Hl' as <-. by rewrite lookup_insert_eq.
    + destruct (po_stored _ Hp k task' latest Ht Hl') as (row' & Hrow' & ?). exists row'.
      rewrite lookup_insert_ne; [done|]. apply not_eq_sym. eauto.
  - intros pid package Hpk. destruct (Hnew pid package Hpk) as [Hold| ->]; [|by rewrite lookup_insert_eq].
    destruct (po_packages _ Hp pid package Hold) as [row' Hrow']. rewrite lookup_insert_ne; [done|].
    apply not_eq_sym. eauto.
  - intros id' row' [[<- <-]|[Hid Hrow]]%lookup_insert_Some; [done|].
    eapply payload_valid_later; try done. intros pid package Hpk [_ Hj].
    destruct (Hnew pid package Hpk) as [|Hpid]; [by left|congruence].
Qed.

(** ** One event *)

Lemma encodes_task_id env row :
  encodes env row -> json_task_id row.(event_json)
  = match env.(event) with Event.TaskLifecycle t _ => Some (uuid_to_string t) | _ => None end.
Proof.
  intros (Ht & _). rewrite (json_task_read _ _ (event_text_serialized _ _ Ht)). cbn. by destruct (event env).
Qed.

(** The new event of a task comes after the others. *)
Lemma journal_after js env db db1 row :
  journal_ok js db -> journal_ok (js ++ [env]) db1 -> db1.(events) = db.(events) ++ [row] ->
  encodes env row /\ after db row.
Proof.
  intros Hj Hj1 Hev. pose proof (jo_rows _ _ Hj1) as Hr. rewrite Hev in Hr.
  apply Forall2_app_inv in Hr as [_ Hr]; [|by eapply Forall2_length, jo_rows].
  inversion Hr as [|? ? ? ? Henc _]; subst. split; [done|]. intros e He Heq Hsome.
  pose proof Henc as (_ & _ & _ & _ & Hseq & _). rewrite (encodes_task_id env row Henc) in Heq, Hsome.
  destruct (event env) as [| | | | | | | | | | | | | | | |t ev] eqn:Hevt; try by destruct Hsome.
  apply list_elem_of_lookup in He as [i Hi].
  destruct (Forall2_lookup_r _ _ _ _ _ (jo_rows _ _ Hj) Hi) as (e' & Hi' & Henc').
  pose proof Henc' as (_ & _ & _ & _ & Hseq' & _). apply (encodes_task t e' e Henc') in Heq.
  pose proof (of_task_sorted t _ db1 Hj1) as Hs. pose proof (of_task_snoc t js env) as Hsnoc.
  assert (is_task t env = true) as Ht by (unfold is_task; rewrite Hevt; apply Z.eqb_refl). rewrite Ht in Hsnoc.
  rewrite Hsnoc, fmap_snoc, strongly_sorted_snoc, Forall_fmap in Hs. destruct Hs as [_ Hs].
  rewrite Forall_forall in Hs. rewrite Hseq, Hseq'. apply Hs, elem_of_task. split; [done|].
  by apply list_elem_of_lookup_2 with i.
Qed.

(** What the journal leaves alone. *)
Lemma append_event_later js db db1 s turn ev now id env :
  append_event_in_transaction s turn ev now id db = Ok (db1, env) -> store_ok js db ->
  (forall t ev' e, ev = Event.TaskLifecycle t ev' -> e ∈ of_task t js -> e.(ee_session_id) = s) ->
  exists row ss, db1 = set_events (db.(events) ++ [row]) (set_sessions ss db)
    /\ encodes env row /\ after db row /\ row.(er_sequence) = env.(sequence).
Proof.
  intros Happ Hok Hone.
  pose proof Happ as (row & text & _ & _ & _ & _ & Hdb)%append_event_inv.
  apply (append_event_ok js) in Happ as (_ & _ & _ & Hj1 & _); [|apply Hok|done].
  eexists _, _. split; [exact Hdb|].
  destruct (journal_after js env db db1 _ (so_journal _ _ Hok) Hj1 ltac:(by rewrite Hdb)) as [Henc Ha].
  split; [done|]. split; [done|]. apply Henc.
Qed.

Lemma announced_before db row id' row' :
  announced db id' row' -> after db row -> json_task_id row.(event_json) = Some row'.(cr_task_id) ->
  row'.(cr_event_sequence) < row.(er_sequence).
Proof. intros (e & He & <- & Ht & _) Ha Hr. apply Ha; [done|by rewrite Ht, Hr|by rewrite Hr]. Qed.

(** What a task event changes in the tables of checkpoints and packages. *)
Definition payload_effect (task : str) (env : EventEnvelope) (ev : TaskEvent) (db db' : Database) : Prop :=
  db'.(artifact_objects) = db.(artifact_objects)
  /\ match ev with
     | TaskEvent.CheckpointCommitted c digest =>
         db'.(task_context_packages) = db.(task_context_packages)
         /\ db.(task_checkpoints) !! uuid_to_string c = None
         /\ db'.(task_checkpoints) = <[uuid_to_string c :=
              {| cr_task_id := task; cr_digest := digest; cr_event_sequence := env.(sequence);
                 checkpoint_json := None; cr_created_at := format_timestamp env.(timestamp) |}]>
              db.(task_checkpoints)
     | TaskEvent.CompactionCompleted _ c p =>
         db'.(task_checkpoints) = db.(task_checkpoints)
         /\ (is_Some (db.(task_context_packages) !! uuid_to_string p)
             /\ db'.(task_context_packages) = db.(task_context_packages)
             \/ db.(task_context_packages) !! uuid_to_string p = None
                /\ exists row checkpoint, row.(package_json) = None
                   /\ joins (uuid_to_string c) checkpoint row
                   /\ db.(task_checkpoints) !! uuid_to_string c = Some checkpoint
                   /\ db'.(task_context_packages) = <[uuid_to_string p := row]> db.(task_context_packages))
     | _ => db'.(task_checkpoints) = db.(task_checkpoints)
            /\ db'.(task_context_packages) = db.(task_context_packages)
     end.

Lemma payload_effect_grows task env ev db db' :
  payload_effect task env ev db db' -> db.(task_checkpoints) ⊆ db'.(task_checkpoints).
Proof.
  intros [_ Heff]. destruct ev; try (by destruct Heff as [-> _]).
  destruct Heff as (_ & Hnone & ->). by apply insert_subseteq.
Qed.

Lemma child_projection_payload t env ev db db' u :
  env.(event) = Event.TaskLifecycle t ev ->
  apply_task_child_projection t env db = Ok (db', u) ->
  payload_effect (uuid_to_string t) env ev db db'.
Proof.
  intros Hev. unfold apply_task_child_projection. rewrite Hev.
  destruct ev; intros Happ; tx_simpl; unfold project_epoch_started, project_epoch_finished,
    project_epoch_interrupted, end_epoch, project_configuration_queued, project_configuration_applied,
    project_control_requested, project_operation_intent, project_operation_transition,
    insert_checkpoint, project_compaction_completed, insert_package, project_steering_queued in *;
    tx_simpl; try (by cbn).
  case_match; tx_simpl; [by split; [|split; [|left]]|]. cbn in *.
  match goal with H : _ && _ = true |- _ => apply andb_true_iff in H as [_ H]; unfold is_some_and in H;
    case_match; [|done]; apply bool_decide_eq_true in H end.
  split; [done|]. split; [done|]. right. split; [done|]. eexists _, _. split_and!; [| |done|cbn; done]; [done|]. by split.
Qed.

(** A [CompactionCompleted] names a package that is stored, or a checkpoint without
    content. *)
Definition compaction_atomic (db : Database) (ev : TaskEvent) : Prop :=
  match ev with
  | TaskEvent.CompactionCompleted _ c p =>
      is_Some (db.(task_context_packages) !! uuid_to_string p)
      \/ forall row, db.(task_checkpoints) !! uuid_to_string c = Some row -> row.(checkpoint_json) = None
  | _ => True
  end.

(** A package that is brought to a checkpoint with content shows in the tables. *)
Lemma effect_atomic task env ev db db' :
  payload_effect task env ev db db' -> packages_atomic db' -> compaction_atomic db ev.
Proof.
  intros [_ Heff] Hat. destruct ev; try done.
  destruct Heff as [Hck [[? _]|(_ & package & row & Hjson & Hj & Hrow & Hpk)]]; [by left|right].
  intros row' Hrow'. assert (row' = row) as -> by congruence. destruct (checkpoint_json row) eqn:Hc; [|done].
  exfalso. rewrite <-Hck in Hrow. destruct (Hat _ row (uuid_to_string context_package_id) package Hrow) as [? Hs];
    [by rewrite Hpk, lookup_insert_eq|done|by rewrite Hc|congruence].
Qed.

Lemma step_latest st now ev st' :
  task_step st now ev st' ->
  st'.(latest_checkpoint) = match ev with
                            | TaskEvent.CheckpointCommitted c _ => Some c
                            | _ => st.(latest_checkpoint)
                            end.
Proof.
  destruct 1; try done;
    try (match goal with H : _ \/ _ |- _ => by destruct H as [[? ->]|[? ->]] end); by destruct ev.
Qed.

Context `{!CheckpointJsonLaws}.

(** The tables before and after one event of task [t]: [db2] is the database with the
    event and what was written beside it, [db3] the one with the new snapshot. *)
Record one_event (t : TaskId) (ev : TaskEvent) (db db3 : Database) (env : EventEnvelope) : Prop := {
  oe_row : exists row, db3.(events) = db.(events) ++ [row] /\ encodes env row /\ after db row;
  oe_event : env.(event) = Event.TaskLifecycle t ev;
  oe_task : exists task task', db.(agent_tasks) !! uuid_to_string t = Some task
    /\ db3.(agent_tasks) = <[uuid_to_string t := task']> db.(agent_tasks)
    /\ task'.(latest_checkpoint_id) = match ev with
         | TaskEvent.CheckpointCommitted c _ => Some (uuid_to_string c)
         | _ => task.(latest_checkpoint_id)
         end
}.

Lemma one_event_intro js db db1 db2 db3 t current turn ev now id env st' u :
  store_ok js db -> load_task_record db t = Ok (Some current) ->
  append_event_in_transaction current.(snapshot).(session_id) turn (Event.TaskLifecycle t ev) now id db
    = Ok (db1, env) ->
  reduce_task (Some current.(snapshot)) env = Ok st' -> same_rest db1 db2 ->
  update_task_projection st' now db2 = Ok (db3, u) ->
  one_event t ev db db3 env /\ (exists tasks, db3 = set_agent_tasks tasks db2)
  /\ exists ss es, db1 = set_events es (set_sessions ss db).
Proof.
  intros Hok Hload Happ Hred (_ & Ee & Ea & _) Hup.
  pose proof (load_task_shown js db t Hok) as Hl. rewrite Hload in Hl.
  destruct Hl as (task & Htask & [Hh Hid Hshow _] & _).
  pose proof (history_ok _ _ Hh) as [[Hlen _] _ _ _ Hown]. rewrite Forall_forall in Hown.
  pose proof Happ as (? & ? & _ & Henv & _)%append_event_inv.
  destruct (append_event_later js _ _ _ _ _ _ _ _ Happ Hok) as (row & ss & -> & Henc & Hafter & _).
  { intros t' ev' e [= <- _] He. by apply Hown. }
  assert (env.(event) = Event.TaskLifecycle t ev) as Hev by (by rewrite Henv).
  pose proof Hred as (ev' & Hev' & _ & _ & _ & _ & st1 & Hstep & ->)%reduce_existing_spec.
  rewrite Hev in Hev'. injection Hev' as Ht <-. destruct (step_identity _ _ _ _ Hstep) as [Hi1 Hi2].
  cbn in Ee, Ea.
  eapply (update_projection_ok _ _ current.(snapshot) _ task) in Hup as (task' & -> & Hshow' & _ & _);
    [|cbn; rewrite Hi1, <-Ht, Ea; exact Htask|done|done|cbn; pose proof (Zlen_nonneg (of_task t js)); lia].
  cbn [task_id with_revision] in *. rewrite Hi1, <-Ht.
  split; [|split; [by eexists|by eexists _, _]]. constructor; cbn.
  - exists row. by rewrite Ee.
  - done.
  - exists task, task'. rewrite Ea. split; [done|]. split; [done|].
    destruct Hshow as (_ & _ & _ & _ & _ & _ & _ & _ & Hlt & _).
    destruct Hshow' as (_ & _ & _ & _ & _ & _ & _ & _ & Hlt' & _). rewrite Hlt', Hlt. cbn.
    rewrite (step_latest _ _ _ _ Hstep). by destruct ev.
Qed.

(** A database with one more event and the same checkpoints, or one more. *)
Lemma one_event_later t ev db db3 env :
  payload_ok db -> one_event t ev db db3 env ->
  db3.(artifact_objects) = db.(artifact_objects) ->
  (db3.(task_checkpoints) = db.(task_checkpoints)
   \/ exists id row, db.(task_checkpoints) !! id = None
      /\ db3.(task_checkpoints) = <[id := row]> db.(task_checkpoints)
      /\ row.(cr_task_id) = uuid_to_string t /\ row.(cr_event_sequence) = env.(sequence)) ->
  later db db3 /\ forall id' row', db.(task_checkpoints) !! id' = Some row' ->
    row'.(cr_task_id) = uuid_to_string t -> row'.(cr_event_sequence) < env.(sequence).
Proof.
  intros Hp [(erow & Hev & Henc & Hafter) Hevent _] Hart Hck.
  assert (forall id' row', db.(task_checkpoints) !! id' = Some row' ->
    row'.(cr_task_id) = uuid_to_string t -> row'.(cr_event_sequence) < env.(sequence)) as Hbefore.
  { intros id' row' Hrow Ht. replace (sequence env) with (er_sequence erow) by apply Henc.
    eapply announced_before; [by apply (po_announced _ Hp)|done|].
    by rewrite (encodes_task_id env erow Henc), Hevent, Ht. }
  split; [|done]. constructor.
  - exists [erow]. split; [done|]. by constructor.
  - intros k row. rewrite Hart. by eexists.
  - destruct Hck as [->|(id & row & _ & -> & Ht & Hs)]; [auto|].
    intros id' row' [[<- <-]|[_ ?]]%lookup_insert_Some; [right|by left].
    intros id'' row'' Hrow Heq. rewrite Hs. apply (Hbefore id''); [done|]. by rewrite Heq.
  - destruct Hck as [->|(id & row & Hnone & -> & _)]; [auto|]. intros id' row' Hrow.
    rewrite lookup_insert_ne; [done|]. congruence.
Qed.

Lemma one_event_latest t ev db db3 env :
  one_event t ev db db3 env -> (forall c d, ev <> TaskEvent.CheckpointCommitted c d) -> latest_kept db db3.
Proof.
  intros [_ _ (task & task' & Ht & Hat & Hlt)] Hne.
  assert (task'.(latest_checkpoint_id) = task.(latest_checkpoint_id)) as Heq.
  { rewrite Hlt. destruct ev; try done. by destruct (Hne checkpoint_id digest). }
  split; intros k x; rewrite Hat.
  - intros Hx. destruct (decide (uuid_to_string t = k)) as [<-|Hk].
    + rewrite lookup_insert_eq. simplify_eq. eauto.
    + rewrite lookup_insert_ne by done. eauto.
  - intros [[<- <-]|[_ Hx]]%lookup_insert_Some; right; eauto.
Qed.

Lemma announced_now t c digest db env id row :
  one_event t (TaskEvent.CheckpointCommitted c digest) db id env ->
  row.(cr_task_id) = uuid_to_string t -> row.(cr_digest) = digest ->
  row.(cr_event_sequence) = env.(sequence) -> announced id (uuid_to_string c) row.
Proof.
  intros [(erow & Hev & Henc & _) Hevent _] Ht Hd Hs. exists erow. rewrite Hev. split; [set_solver|].
  pose proof Henc as (Htext & _ & _ & _ & Hseq & _). rewrite Hs, Ht, Hd. split; [done|]. split.
  - by rewrite (encodes_task_id env erow Henc), Hevent.
  - rewrite (json_committed_read _ _ (event_text_serialized _ _ Htext)). cbn. by rewrite Hevent.
Qed.

(** The invariant survives one event. *)
Lemma event_payload js t ev db db3 env :
  store_ok js db -> payload_ok db -> one_event t ev db db3 env ->
  payload_effect (uuid_to_string t) env ev db db3 -> compaction_atomic db ev -> payload_ok db3.
Proof.
  intros Hok Hp Hone [Hart Heff] Hatomic.
  assert (db3.(task_checkpoints) = db.(task_checkpoints) ->
    (forall c d, ev <> TaskEvent.CheckpointCommitted c d) ->
    db3.(task_context_packages) = db.(task_context_packages) -> payload_ok db3) as Hsame.
  { intros Hck Hne Hpk. destruct (one_event_later t ev db db3 env Hp Hone Hart) as [Hl _]; [by left|].
    eapply payload_frame; try done; [by eapply one_event_latest|by rewrite Hpk|].
    intros pid package. rewrite Hpk. by left. }
  destruct ev; try (by destruct Heff; apply Hsame).
  - destruct Heff as (Hpk & Hnone & Hck). set (row := {| cr_task_id := _ |}) in Hck.
    destruct (one_event_later t _ db db3 env Hp Hone Hart) as [Hl Hbefore]; [right; by exists (uuid_to_string checkpoint_id), row|].
    pose proof Hone as [_ _ (task & task' & _ & Hat & Hlt)].
    eapply (payload_checkpoint js db db3 _ row task'); try done.
    + by eapply announced_now.
    + by rewrite Hpk.
    + intros pid package. rewrite Hpk. by left.
    + intros pid package Hp' [_ Hj]. rewrite Hpk in Hp'. apply (po_packages _ Hp) in Hp'.
      rewrite Hj, Hnone in Hp'. by destruct Hp'.
  - destruct Heff as [Hck [[_ Hpk]|(Hnone & prow & row & Hjson & [_ Hpc] & Hrow & Hpk)]]; [by apply Hsame|].
    destruct Hatomic as [[? Hs]|Hplain]; [congruence|].
    destruct (one_event_later t _ db db3 env Hp Hone Hart) as [Hl _]; [by left|].
    eapply payload_frame; try done; [by eapply one_event_latest|by rewrite Hpk; apply insert_subseteq|].
    intros pid package. rewrite Hpk. intros [[<- <-]|[_ ?]]%lookup_insert_Some; [right|by left].
    split; [done|]. exists row. rewrite Hpc. eauto.
Qed.

Lemma task_append_payload js db db1 db2 db3 t current turn ev now id env st' u u' :
  store_ok js db -> payload_ok db -> compaction_atomic db ev -> load_task_record db t = Ok (Some current) ->
  append_event_in_transaction current.(snapshot).(session_id) turn (Event.TaskLifecycle t ev) now id db
    = Ok (db1, env) ->
  reduce_task (Some current.(snapshot)) env = Ok st' ->
  apply_task_child_projection t env db1 = Ok (db2, u) ->
  update_task_projection st' now db2 = Ok (db3, u') ->
  payload_ok db3 /\ db.(task_checkpoints) ⊆ db3.(task_checkpoints).
Proof.
  intros Hok Hp Hatomic Hload Happ Hred Hchild Hup.
  pose proof Happ as (? & ? & _ & Henv & _)%append_event_inv.
  assert (env.(event) = Event.TaskLifecycle t ev) as Hev by (by rewrite Henv).
  pose proof (child_projection_effect t env ev _ _ _ Hev Hchild) as [Hrest _].
  pose proof (child_projection_payload t env ev _ _ _ Hev Hchild) as Heff.
  destruct (one_event_intro js db db1 db2 db3 t current turn ev now id env st' u' Hok Hload Happ Hred Hrest Hup)
    as (Hone & [tasks ->] & (ss & es & ->)). split; [by eapply event_payload|].
  exact (payload_effect_grows _ _ _ _ _ Heff).
Qed.

End Payload.
