(* ===== verification/StoreGrown.v ===== *)
(** * Checkpoints and packages are only added

    No operation of the store changes or removes a checkpoint or a context package that
    is there.  So whether every checkpoint that is stored with its content has packages
    with content only, [packages_atomic], can be lost and never be regained. *)
From stdpp Require Import base gmap sets list sorting strings.
From S2P Require Import Prelude Ord Text Settings Policy TaskTypes Events Reducer Checkpoint Context Database TaskStore Front Approvals Grants StoreCheckpoint StoreJournal StoreAuthority StoreOps StorePayload.
From Stdlib Require Import ZArith Lia.
#[local] Open Scope list_scope.
#[local] Open Scope Z_scope.

Record grown (db0 db : Database) : Prop := {
  gr_checkpoints : db0.(task_checkpoints) ⊆ db.(task_checkpoints);
  gr_packages : db0.(task_context_packages) ⊆ db.(task_context_packages)
}.

Lemma grown_refl db : grown db db.
Proof. done. Qed.

Lemma grown_atomic db db' : grown db db' -> packages_atomic db' -> packages_atomic db.
Proof. intros [Hc Hp] Ha id row pid package Hr Hk. apply (Ha id row pid package); by eapply lookup_weaken. Qed.

Create HintDb grown.

Section Grown.
Context `{U : Uuids, C : Chrono, J : Serde, Q : SqliteJson, CJ : CheckpointJson}.
Context (db0 : Database).

Lemma same_grown db db' :
  db'.(task_checkpoints) = db.(task_checkpoints) -> db'.(task_context_packages) = db.(task_context_packages) ->
  grown db0 db -> grown db0 db'.
Proof. intros Hc Hp [? ?]. split; by rewrite ?Hc, ?Hp. Qed.

#[local] Abbreviation grows := (tx_keeps (grown db0)).
#[local] Ltac same := intros; match goal with HG : grown _ _ |- _ => eapply same_grown; [| |exact HG]; reflexivity end.
#[local] Ltac added :=
  intros; match goal with HG : grown _ _ |- _ => destruct HG as [? ?] end;
  split; cbn; first [done | by etrans; [|apply insert_subseteq]].
#[local] Ltac grows := keeps; try same; try added; eauto with grown.

Lemma append_event_grows session turn ev now id : grows (append_event_in_transaction session turn ev now id).
Proof.
  unfold append_event_in_transaction. keeps; intros db db' u; [unfold take_sequence|unfold insert_event].
  all: repeat case_match; intros; simplify_eq; same.
Qed.
Lemma update_grows snapshot now : grows (update_task_projection snapshot now).
Proof. unfold update_task_projection. grows. Qed.
Lemma child_grows t env : grows (apply_task_child_projection t env).
Proof.
  unfold apply_task_child_projection, project_epoch_started, project_epoch_finished, project_epoch_interrupted,
    end_epoch, project_configuration_queued, project_configuration_applied, project_control_requested,
    insert_checkpoint, project_compaction_completed, project_steering_queued, project_operation_intent,
    project_operation_transition, insert_package.
  destruct (event env); grows.
Qed.
#[local] Hint Resolve append_event_grows update_grows child_grows : grown.

Lemma append_in_transaction_grows current ev now id : grows (append_task_event_in_transaction current ev now id).
Proof. unfold append_task_event_in_transaction. grows. Qed.
Lemma expected_grows t expected : grows (expected_task t expected).
Proof. intros db db' o. by intros [-> _]%expected_task_ok. Qed.
#[local] Hint Resolve append_in_transaction_grows expected_grows : grown.

Lemma append_task_event_grows t expected ev now id : grows (append_task_event t expected ev now id).
Proof. unfold append_task_event. grows. Qed.
Lemma steering_grows t expected n digest control now id :
  grows (append_controlled_task_steering t expected n digest control now id).
Proof.
  unfold append_controlled_task_steering. grows. intros db db' u. unfold bind_steering_control.
  repeat case_match; try done; intros [= <- _]; [done|same].
Qed.
Lemma create_inner_grows canonicalize is_dir input receipt t id :
  grows (create_task_inner canonicalize is_dir input receipt t id).
Proof. unfold create_task_inner, insert_task_projection, insert_task_receipt. grows. Qed.
Lemma commit_grows cached version input expected id : grows (commit_checkpoint cached version input expected id).
Proof. unfold commit_checkpoint, write_checkpoint, insert_checkpoint, insert_package. grows. Qed.

(** Every transaction that commits or does not. *)
Lemma transaction_grows {A} (tx : Tx A) db : grows tx -> grown db0 db -> grown db0 (transaction tx db).1.
Proof. intros Ht Hg. apply (transaction_inv tx (grown db0)); [done|]. intros db' a Ha. by eapply Ht. Qed.

Lemma fold_grows {A B} (f : B -> A -> Tx B) b l : (forall b a, grows (f b a)) -> grows (tx_fold f b l).
Proof. intros Hf. revert b. induction l as [|a l IH]; intros b; cbn; keeps; auto. Qed.
Lemma map_grows {A B} (f : A -> Tx B) l : (forall a, grows (f a)) -> grows (tx_map f l).
Proof. intros Hf. induction l as [|a l IH]; cbn; keeps; auto. Qed.
Lemma reconcile_grows digest now fresh cached : grows (reconcile_abandoned_task_operations digest now fresh cached).
Proof.
  unfold reconcile_abandoned_task_operations. keeps. apply map_grows. intros record. unfold reconcile_record.
  keeps. apply fold_grows. intros current operation_id. unfold settle_started. grows.
Qed.

Lemma plain_grows db db' : plain_step db db' -> grown db0 db -> grown db0 db'.
Proof.
  intros Hs Hg. destruct Hs; (apply transaction_grows; [|done]).
  - unfold create_session. grows.
  - unfold append. grows.
  - apply create_inner_grows.
  - unfold create_task_idempotent. grows. apply create_inner_grows.
  - apply steering_grows.
  - apply reconcile_grows.
  - unfold register_artifact_object. grows. intros db1 db2 u. repeat case_match; intros; simplify_eq; try done. same.
  - grows.
Qed.
End Grown.
