(* ===== verification/StoreCommit.v ===== *)
(** * What a committed checkpoint leaves in the store

    A checkpoint that agrees with the journal is written with its context package as
    the check that opens a store expects to find them: the texts read back as what
    was committed, the digests are those of the texts, and the source range and the
    previous digest are those of the journal. *)
From stdpp Require Import base gmap sets list sorting strings relations.
From S2P Require Import Prelude Ord Text Settings Policy TaskTypes Events Reducer Journal Metrics SecretFilter Checkpoint Context Database TaskStore StoreCheckpoint StoreJournal StoreAuthority StoreOps StorePayload.
From Stdlib Require Import ZArith Lia.
#[local] Open Scope list_scope.
#[local] Open Scope Z_scope.

(** ** The bounds of a range *)

Lemma foldl_min_least (l : list Z) x : Forall (fun y => x < y) l -> foldl Z.min x l = x.
Proof.
  induction 1 as [|y l Hy _ IH]; [done|]. simpl. by rewrite Z.min_l by lia.
Qed.

Lemma foldl_max_last (l : list Z) x :
  StronglySorted Z.lt (x :: l) -> Some (foldl Z.max x l) = last (x :: l).
Proof.
  revert x. induction l as [|y l IH]; intros x Hs; [done|].
  inversion Hs as [|? ? Hs' Hx]; subst. apply Forall_cons in Hx as [Hxy _].
  simpl. rewrite Z.max_r by lia. by rewrite (IH y Hs').
Qed.

Lemma sequence_bounds_sorted rows :
  StronglySorted Z.lt (er_sequence <$> rows) ->
  sequence_bounds rows = (start ← head (er_sequence <$> rows); stop ← last (er_sequence <$> rows); Some (start, stop)).
Proof.
  unfold sequence_bounds. destruct (er_sequence <$> rows) as [|x l]; [done|]. intros Hs.
  cbn [head mbind option_bind]. rewrite <-(foldl_max_last l x Hs). cbn.
  inversion Hs; subst. by rewrite foldl_min_least.
Qed.

(** The greatest element of a list that is sorted comes last. *)
Lemma sort_by_key_greatest {A : Type} (key : A -> Z) (l : list A) x :
  x ∈ l -> (forall y, y ∈ l -> y = x \/ key y < key x) -> last (sort_by_key key l) = Some x.
Proof.
  intros Hx Hmax. assert (x ∈ sort_by_key key l) as Hxs by (by apply elem_of_sort_by).
  pose proof (sort_by_key_sorted key l) as Hs.
  assert (forall y, y ∈ sort_by_key key l -> y ∈ l) as Hin by (intros y; by apply elem_of_sort_by).
  induction (sort_by_key key l) as [|z k _] using rev_ind; [by apply elem_of_nil in Hxs|].
  rewrite last_snoc. f_equal. destruct (Hmax z (Hin z ltac:(set_solver))) as [->|Hlt]; [done|].
  apply elem_of_app in Hxs as [Hxk| ->%list_elem_of_singleton]; [|lia].
  rewrite fmap_snoc, strongly_sorted_snoc, Forall_fmap, Forall_forall in Hs. destruct Hs as [_ Hs].
  pose proof (proj1 (Z.compare_le_iff _ _) (Hs x Hxk)). lia.
Qed.

(** ** The normal form *)

Lemma elem_of_normal_artifacts c digest :
  digest ∈ artifact_digests (normalize c) -> digest ∈ artifact_digests c.
Proof.
  unfold artifact_digests. rewrite !elem_of_btree_set, !elem_of_app, !list_elem_of_bind. cbn.
  intros [(w & Hd & Hw)|[?|(cl & Hd & Hcl)]]; [left| by right; left|right; right].
  - apply elem_of_dedup, elem_of_sort_by, list_elem_of_fmap in Hw as (w' & -> & Hw'). exists w'. split; [|done].
    by apply elem_of_dedup, elem_of_sort_by in Hd.
  - apply elem_of_sort_by, list_elem_of_fmap in Hcl as (cl' & -> & Hcl'). exists cl'. split; [|done].
    cbn in Hd. apply list_elem_of_omap in Hd as (e & He & Hd). apply list_elem_of_omap. exists e.
    split; [|done]. by apply elem_of_dedup, elem_of_sort_by in He.
Qed.

Section Commit.
Context `{U : Uuids, C : Chrono, J : Serde, Q : SqliteJson, CJ : CheckpointJson}.
Context `{!UuidLaws, !ChronoLaws, !SerdeLaws, !SqliteJsonLaws, !CheckpointJsonLaws}.

Lemma normal_bytes c : stored_checkpoint_bytes (normalize c) = stored_checkpoint_bytes c.
Proof. unfold stored_checkpoint_bytes, canonical_bytes. by rewrite normalize_idemp. Qed.

Lemma checkpoint_text_read c b s :
  stored_checkpoint_bytes c = Ok b -> from_utf8 b = Some s ->
  checkpoint_from_str s = Some (normalize c) /\ utf8 s = b.
Proof.
  intros Hb Hs. split; [|by apply from_utf8_sound in Hs as [_ ?]].
  unfold stored_checkpoint_bytes, canonical_bytes in Hb. carl_simpl. by eapply checkpoint_read.
Qed.

Lemma package_text_read p b s :
  stored_package_bytes p = Ok b -> from_utf8 b = Some s -> package_from_str s = Some p /\ utf8 s = b.
Proof.
  intros Hb Hs. split; [|by apply from_utf8_sound in Hs as [_ ?]].
  unfold stored_package_bytes, ContextPackage_canonical_bytes in Hb. carl_simpl. by eapply package_read.
Qed.

(** ** Agreement with the journal *)

(** The rows of a task in the journal. *)
Lemma task_rows js db t :
  journal_ok js db ->
  er_sequence <$> filter (fun row => json_task_id row.(event_json) = Some (uuid_to_string t)) db.(events)
  = sequence <$> of_task t js.
Proof.
  intros Hj. symmetry. apply (Forall2_fmap_same sequence er_sequence encodes); [|intros e row Henc; by apply Henc].
  apply Forall2_filter; [apply (jo_rows _ _ Hj)|]. intros e row _ Henc. by rewrite (encodes_task t e row Henc).
Qed.

(** The range, the predecessor and the generation of a checkpoint are those of the
    store. *)
Record commit_agrees (js : list EventEnvelope) (db : Database) (st : TaskSnapshot)
    (c : CanonicalCheckpoint) : Prop := {
  ag_start : head (sequence <$> of_task c.(ck_task_id) js) = Some c.(source_sequence_start);
  ag_end : last (sequence <$> of_task c.(ck_task_id) js) = Some c.(source_sequence_end);
  ag_previous : match st.(latest_checkpoint) with
    | None => c.(previous_digest) = None
    | Some latest => exists row, checkpoint_row db c.(ck_task_id) latest = Some row
                     /\ c.(previous_digest) = Some row.(cr_digest)
    end;
  ag_generation : 0 <= c.(compaction_generation) <= u32_max
}.

Lemma checkpoint_row_Some db t c row :
  checkpoint_row db t c = Some row <->
  db.(task_checkpoints) !! uuid_to_string c = Some row /\ row.(cr_task_id) = uuid_to_string t.
Proof.
  unfold checkpoint_row. rewrite bind_Some. split.
  - intros (row' & Hrow & Heq). case_bool_decide; [|done]. by simplify_eq.
  - intros [Hrow Ht]. exists row. split; [done|]. by rewrite bool_decide_eq_true_2.
Qed.

(** The digest of the checkpoint before one that was just written. *)
Lemma digest_before_new db db3 t id row s :
  payload_ok db -> db3.(task_checkpoints) = <[id := row]> db.(task_checkpoints) ->
  row.(cr_event_sequence) = s ->
  (forall id' row', db.(task_checkpoints) !! id' = Some row' -> row'.(cr_task_id) = uuid_to_string t ->
     row'.(cr_event_sequence) < s) ->
  db.(task_checkpoints) !! id = None ->
  forall task, db.(agent_tasks) !! uuid_to_string t = Some task ->
  digest_before db3 (uuid_to_string t) s
  = (latest ← task.(latest_checkpoint_id); cr_digest <$> db.(task_checkpoints) !! latest).
Proof.
  intros Hp Hck Hseq Hbefore Hnone task Htask. unfold digest_before.
  set (rows := (map_to_list (filter _ db3.(task_checkpoints))).*2).
  assert (forall row', row' ∈ rows <-> exists id', db.(task_checkpoints) !! id' = Some row'
    /\ row'.(cr_task_id) = uuid_to_string t) as Hrows.
  { intros row'. unfold rows. rewrite list_elem_of_fmap. split.
    - intros ([id' r] & -> & Hin%elem_of_map_to_list). apply map_lookup_filter_Some in Hin as [Hin [Ht Hlt]].
      rewrite Hck in Hin. apply lookup_insert_Some in Hin as [[_ <-]|[_ Hin]]; [cbn in *; lia|eauto].
    - intros (id' & Hin & Ht). exists (id', row'). split; [done|].
      apply elem_of_map_to_list, map_lookup_filter_Some. split; [|by eauto].
      rewrite Hck, lookup_insert_ne; [done|congruence]. }
  destruct (latest_checkpoint_id task) as [latest|] eqn:Hlatest; cbn.
  - destruct (po_stored _ Hp _ _ _ Htask Hlatest) as (last_row & Hlast & Ht). rewrite Hlast. cbn.
    rewrite (sort_by_key_greatest cr_event_sequence rows last_row); [done|apply Hrows; eauto|].
    intros row' (id' & Hrow' & Ht')%Hrows.
    destruct (po_latest _ Hp id' row' Hrow') as (task' & latest' & last' & Htask' & Hl' & Hlast' & _ & Hor).
    rewrite Ht', Htask in Htask'. injection Htask' as <-. rewrite Hlatest in Hl'. injection Hl' as <-.
    rewrite Hlast in Hlast'. injection Hlast' as <-. destruct Hor as [->|]; [left|by right]. congruence.
  - destruct rows as [|row' rows'] eqn:Hr; [done|]. destruct (proj1 (Hrows row')) as (id' & Hrow' & Ht'); [set_solver|].
    destruct (po_latest _ Hp id' row' Hrow') as (task' & latest' & last' & Htask' & Hl' & _).
    rewrite Ht', Htask in Htask'. injection Htask' as <-. congruence.
Qed.

(** The range of the events before the one that announces the checkpoint. *)
Lemma source_bounds_new js db db3 env c digest d :
  store_ok js db -> one_event c.(ck_task_id) (TaskEvent.CheckpointCommitted c.(ck_checkpoint_id) digest) db db3 env ->
  d.(ck_task_id) = c.(ck_task_id) -> d.(ck_checkpoint_id) = c.(ck_checkpoint_id) ->
  head (sequence <$> of_task c.(ck_task_id) js) = Some d.(source_sequence_start) ->
  last (sequence <$> of_task c.(ck_task_id) js) = Some d.(source_sequence_end) ->
  validate_canonical_source_bounds db3 d env.(sequence) digest = Ok tt.
Proof.
  intros Hok [(row & Hev & Henc & Hafter) Hevent _] Ht Hid Hhead Hlast.
  unfold validate_canonical_source_bounds. rewrite Ht, Hid.
  pose proof (encodes_task_id env row Henc) as Hrow. rewrite Hevent in Hrow.
  pose proof Henc as (Htext & _ & _ & _ & Hseq & _).
  assert (filter (fun e => json_task_id e.(event_json) = Some (uuid_to_string c.(ck_task_id))
      /\ e.(er_sequence) < env.(sequence)) db3.(events)
    = filter (fun e => json_task_id e.(event_json) = Some (uuid_to_string c.(ck_task_id))) db.(events)) as ->.
  { rewrite Hev, filter_app, (filter_none _ [row]), app_nil_r by (constructor; [lia|constructor]).
    apply filter_iff_on. intros e He. split; [by intros [? _]|]. intros He'. split; [done|]. rewrite <-Hseq.
    apply Hafter; [done|congruence|by rewrite Hrow]. }
  assert (StronglySorted Z.lt (sequence <$> of_task c.(ck_task_id) js)) as Hs by (eapply of_task_sorted, Hok).
  assert (forall x, x ∈ sequence <$> of_task c.(ck_task_id) js -> 0 <= x) as Hpos.
  { intros x (e & -> & He)%list_elem_of_fmap. pose proof (of_task_range _ js db e (so_journal _ _ Hok) He). lia. }
  rewrite sequence_bounds_sorted; rewrite (task_rows js db _ (so_journal _ _ Hok)); [|done].
  rewrite Hhead, Hlast. cbn [mbind option_bind ok_or result_bind].
  unfold stored_u64. rewrite !(proj2 (Z.leb_le _ _)); [|apply Hpos..].
  - cbn [mbind result_bind]. rewrite !Z.eqb_refl. cbn [negb reject mbind result_bind].
    apply reject_ok, negb_false_iff, existsb_exists. exists row. split; [apply list_elem_of_In; rewrite Hev; set_solver|].
    rewrite Hseq, Z.eqb_refl, Hrow, (json_committed_read _ _ (event_text_serialized _ _ Htext)). cbn.
    rewrite Hevent. by rewrite !bool_decide_eq_true_2.
  - by apply head_Some_elem_of.
  - by apply last_Some_elem_of.
Qed.

(** The rows that are written pass the check that opens a store. *)
Lemma texts_new db3 c package json text row prow s :
  checkpoint_from_str json = Some (normalize c) -> package_from_str text = Some package ->
  stored_checkpoint_bytes c = Ok (utf8 json) -> stored_package_bytes package = Ok (utf8 text) ->
  row.(cr_task_id) = uuid_to_string c.(ck_task_id) -> row.(cr_event_sequence) = s ->
  row.(cr_digest) = Sha256Digest_display (store_sha256 (utf8 json)) ->
  prow.(pr_generation) = c.(compaction_generation) -> prow.(pr_event_sequence) = s ->
  package.(cp_checkpoint_id) = c.(ck_checkpoint_id) ->
  package.(cp_source_sequence_start) = c.(source_sequence_start) ->
  package.(cp_source_sequence_end) = c.(source_sequence_end) ->
  0 <= c.(compaction_generation) <= u32_max ->
  validate_canonical_source_bounds db3 (normalize c) s row.(cr_digest) = Ok tt ->
  c.(previous_digest) = digest_before db3 row.(cr_task_id) s ->
  validate_checkpoint_artifacts db3 (normalize c) = Ok tt ->
  validate_payload_texts db3 (uuid_to_string c.(ck_checkpoint_id)) row json
    (uuid_to_string package.(package_id)) text prow = Ok tt.
Proof.
  intros Hc Hpk Hcb Hpb Ht Hs Hd Hg Hps Hpc Hp1 Hp2 Hgen Hbounds Hprev Hart.
  unfold validate_payload_texts. rewrite Hc. cbn [ok_or mbind result_bind].
  rewrite Hpk. cbn [ok_or mbind result_bind]. rewrite Ht, !uuid_read. cbn [ok_or mbind result_bind].
  unfold stored_u64. rewrite Hg. replace (0 <=? compaction_generation c) with true by lia. cbn [mbind result_bind].
  replace (u32_max <? compaction_generation c) with false by lia. cbn [reject mbind result_bind].
  replace (ck_task_id (normalize c)) with (ck_task_id c) by done.
  replace (ck_checkpoint_id (normalize c)) with (ck_checkpoint_id c) by done.
  replace (compaction_generation (normalize c)) with (compaction_generation c) by done.
  replace (source_sequence_start (normalize c)) with (source_sequence_start c) by done.
  replace (source_sequence_end (normalize c)) with (source_sequence_end c) by done.
  rewrite Hpc, Hp1, Hp2, Hps, Hs, !Z.eqb_refl. cbn [negb orb reject mbind result_bind].
  rewrite normal_bytes, Hcb. cbn [map_err mbind result_bind].
  rewrite <-Hd, (bool_decide_eq_true_2 (utf8 json = utf8 json)),
    (bool_decide_eq_true_2 (cr_digest row = cr_digest row)) by done. cbn [negb orb reject mbind result_bind].
  rewrite Hpb. cbn [map_err mbind result_bind]. rewrite (bool_decide_eq_true_2 (utf8 text = utf8 text)) by done.
  cbn [negb reject mbind result_bind]. rewrite Hbounds. cbn [mbind result_bind].
  replace (previous_digest (normalize c)) with (previous_digest c) by done. rewrite Ht in Hprev.
  rewrite Hprev, bool_decide_eq_true_2 by done. cbn [negb reject mbind result_bind]. by rewrite Hart.
Qed.

(** What [validate_checkpoint_input] and the two texts establish. *)
Record input_ok (input : NewCheckpoint) (json text : str) : Prop := {
  io_task : input.(nc_checkpoint).(ck_task_id) = input.(nc_task_id);
  io_package : input.(nc_context_package).(cp_checkpoint_id) = input.(nc_checkpoint).(ck_checkpoint_id);
  io_start : input.(nc_context_package).(cp_source_sequence_start) = input.(nc_checkpoint).(source_sequence_start);
  io_end : input.(nc_context_package).(cp_source_sequence_end) = input.(nc_checkpoint).(source_sequence_end);
  io_bytes : stored_checkpoint_bytes input.(nc_checkpoint) = Ok (utf8 json);
  io_text : checkpoint_from_str json = Some (normalize input.(nc_checkpoint));
  io_digest : input.(nc_checkpoint_digest) = Sha256Digest_display (store_sha256 (utf8 json));
  io_package_bytes : stored_package_bytes input.(nc_context_package) = Ok (utf8 text);
  io_package_text : package_from_str text = Some input.(nc_context_package)
}.

Lemma input_ok_intro input b json pb text :
  validate_checkpoint_input input = Ok tt -> stored_checkpoint_bytes input.(nc_checkpoint) = Ok b ->
  from_utf8 b = Some json -> stored_package_bytes input.(nc_context_package) = Ok pb ->
  from_utf8 pb = Some text -> input_ok input json text.
Proof.
  intros Hv Hb Hjson Hpb Htext. destruct (checkpoint_text_read _ _ _ Hb Hjson) as [Hread <-].
  destruct (package_text_read _ _ _ Hpb Htext) as [Hpread <-].
  unfold validate_checkpoint_input, CanonicalCheckpoint_digest in Hv. fold (stored_checkpoint_bytes (nc_checkpoint input)) in Hv.
  rewrite Hb in Hv. cbn [map_err mbind result_bind] in Hv.
  apply bind_ok in Hv as ([] & Hm & Hv). apply reject_ok in Hm.
  rewrite !orb_false_iff, !negb_false_iff, !Z.eqb_eq in Hm. destruct Hm as [[[Ht Hc] Hs] He].
  apply bind_ok in Hv as ([] & Hd & _). apply reject_ok, negb_false_iff, bool_decide_eq_true in Hd.
  by constructor.
Qed.

(** The two rows of a checkpoint that is announced by [env]. *)
Definition new_checkpoint_row (input : NewCheckpoint) (json : str) (env : EventEnvelope) : CheckpointRow :=
  {| cr_task_id := uuid_to_string input.(nc_task_id); cr_digest := input.(nc_checkpoint_digest);
     cr_event_sequence := env.(sequence); checkpoint_json := Some json;
     cr_created_at := format_timestamp input.(nc_created_at) |}.
Definition new_package_row (input : NewCheckpoint) (text : str) (env : EventEnvelope) : PackageRow :=
  {| pr_task_id := uuid_to_string input.(nc_task_id);
     pr_checkpoint_id := uuid_to_string input.(nc_checkpoint).(ck_checkpoint_id);
     pr_generation := input.(nc_checkpoint).(compaction_generation);
     pr_event_sequence := env.(sequence); package_json := Some text;
     pr_created_at := format_timestamp input.(nc_created_at) |}.

Definition with_rows (input : NewCheckpoint) (json text : str) (env : EventEnvelope) (db : Database) : Database :=
  set_packages (<[uuid_to_string input.(nc_context_package).(package_id) := new_package_row input text env]>
      db.(task_context_packages))
    (set_checkpoints (<[uuid_to_string input.(nc_checkpoint).(ck_checkpoint_id) := new_checkpoint_row input json env]>
      db.(task_checkpoints)) db).

Lemma write_checkpoint_inv current input json text id db db' u :
  write_checkpoint current input json text id db = Ok (db', u) ->
  exists db1 env st,
    append_event_in_transaction current.(snapshot).(session_id) None
      (Event.TaskLifecycle input.(nc_task_id) (TaskEvent.CheckpointCommitted
         input.(nc_checkpoint).(ck_checkpoint_id) input.(nc_checkpoint_digest)))
      input.(nc_created_at) id db = Ok (db1, env)
    /\ reduce_task (Some current.(snapshot)) env = Ok st
    /\ db1.(task_checkpoints) !! uuid_to_string input.(nc_checkpoint).(ck_checkpoint_id) = None
    /\ db1.(task_context_packages) !! uuid_to_string input.(nc_context_package).(package_id) = None
    /\ update_task_projection st input.(nc_created_at) (with_rows input json text env db1) = Ok (db', u).
Proof.
  unfold write_checkpoint, insert_checkpoint, insert_package. intros Hw.
  apply tx_bind_ok in Hw as (db1 & env & Happ & Hw).
  apply tx_bind_ok in Hw as (? & st & [Hred%map_err_ok ->]%from_ok & Hw).
  apply tx_bind_ok in Hw as (? & seq & [Hseq ->]%from_ok & Hw).
  unfold revision_to_sql in Hseq. destruct (_ <=? _) in Hseq; [|done]. injection Hseq as <-.
  apply tx_bind_ok in Hw as (db2 & ? & (Hc & _ & _ & ->)%insert_row_ok & Hw).
  apply tx_bind_ok in Hw as (db3 & ? & (Hpk & _ & _ & ->)%insert_row_ok & Hw).
  by exists db1, env, st.
Qed.

(** The invariant survives a checkpoint that agrees with the journal. *)
Lemma write_checkpoint_payload js db db' current input json text id u :
  store_ok js db -> payload_ok db -> load_task_record db input.(nc_task_id) = Ok (Some current) ->
  input_ok input json text -> commit_agrees js db current.(snapshot) input.(nc_checkpoint) ->
  validate_checkpoint_artifacts db input.(nc_checkpoint) = Ok tt ->
  write_checkpoint current input json text id db = Ok (db', u) -> payload_ok db'.
Proof.
  intros Hok Hp Hload Hin [Hstart Hend Hprev Hgen] Hart (db1 & env & st & Happ & Hred & Hnc & Hnp & Hup)%write_checkpoint_inv.
  pose proof (load_task_shown js db input.(nc_task_id) Hok) as Hl. rewrite Hload in Hl.
  destruct Hl as (task0 & Htask0 & [_ _ Hshow0 _] & _).
  destruct (one_event_intro js db db1 (with_rows input json text env db1) db' _ current None _ _ _ env st u
    Hok Hload Happ Hred ltac:(done) Hup) as (Hone & [tasks ->] & (ss & es & ->)). cbn [task_checkpoints task_context_packages set_events set_sessions] in *.
  pose proof Hone as [_ _ (task & task' & Htask & Hat & Hlt)]. rewrite Htask0 in Htask. injection Htask as <-.
  match goal with |- payload_ok ?d => set (db3 := d) in * end.
  set (c := input.(nc_checkpoint)) in *. set (row := new_checkpoint_row input json env).
  assert (db3.(task_checkpoints) = <[uuid_to_string c.(ck_checkpoint_id) := row]> db.(task_checkpoints)) as Hck by done.
  assert (db3.(task_context_packages) = <[uuid_to_string input.(nc_context_package).(package_id) :=
    new_package_row input text env]> db.(task_context_packages)) as Hpk by done.
  destruct (one_event_later _ _ db db3 env Hp Hone eq_refl) as [Hlater Hbefore];
    [right; by exists (uuid_to_string c.(ck_checkpoint_id)), row|].
  eapply (payload_checkpoint js db db3 (uuid_to_string c.(ck_checkpoint_id)) row task'); try done.
  - by eapply announced_now.
  - rewrite Hpk. by apply insert_subseteq.
  - rewrite Hpk. intros pid package [[_ <-]|[_ ?]]%lookup_insert_Some; [by right|by left].
  - unfold payload_valid. change (checkpoint_json row) with (Some json). cbv iota.
    split; [eexists _, _; rewrite Hpk; split; [apply lookup_insert_eq|done]|].
    intros pid package Hpid Hj. rewrite Hpk in Hpid.
    apply lookup_insert_Some in Hpid as [[<- <-]|[_ Hold]].
    2: { apply (po_packages _ Hp) in Hold. destruct Hj as [_ Hj]. rewrite Hj, Hnc in Hold. by destruct Hold. }
    exists text. split; [done|]. destruct Hin as [Ht Hpc Hps Hpe Hb Htext Hd Hpb Hpt]. fold c in Ht, Hpc, Hps, Hpe, Hb, Htext.
    apply (texts_new db3 c _ _ _ row _ env.(sequence)); try done.
    + cbn. by rewrite Ht.
    + eapply (source_bounds_new js db db3 env c); try done. by rewrite Ht.
    + cbn. rewrite (digest_before_new db db3 input.(nc_task_id) _ row env.(sequence) Hp Hck eq_refl Hbefore Hnc task0 Htask0).
      destruct Hshow0 as (_ & _ & _ & _ & _ & _ & _ & _ & Hlatest & _). rewrite Hlatest.
      destruct (latest_checkpoint _) as [latest|]; [|done]. destruct Hprev as (r & [Hr _]%checkpoint_row_Some & ->).
      cbn. by rewrite Hr.
    + apply (artifacts_later db db3 _ Hlater). unfold validate_checkpoint_artifacts in *.
      rewrite try_for_each_ok, Forall_forall in *. intros d Hd'. by apply Hart, elem_of_normal_artifacts.
Qed.

End Commit.
