(* ===== verification/StoreScan.v ===== *)
(** * What the comparison with the journal looks for

    [validate_checkpoint_authority_from_anchor] reads the journal of a task once and
    keeps the last usage it reports and the state of every operation.  This file says
    in terms of the journal and of the snapshot what that is, and shows that the scan
    never fails on a journal the reducer accepts. *)
From stdpp Require Import base gmap sets list sorting strings.
From S2P Require Import Prelude Ord Text Settings Policy TaskTypes Events Reducer Journal Metrics SecretFilter Checkpoint Context Database TaskStore StoreCheckpoint.
From Stdlib Require Import ZArith Lia.
#[local] Open Scope list_scope.
#[local] Open Scope Z_scope.

(** ** The specification *)

(** What an event says the provider has used. *)
Definition reported_tokens (env : EventEnvelope) : option Z :=
  match env.(event) with
  | Event.TaskLifecycle _ (TaskEvent.UsageObserved _ total_tokens _) => Some total_tokens
  | _ => None
  end.
Definition reported_window (env : EventEnvelope) : option Z :=
  match env.(event) with
  | Event.TaskLifecycle _ (TaskEvent.UsageObserved _ _ context_window) => context_window
  | _ => None
  end.

(** What the journal says an operation was meant to do. *)
Definition intent (id : OperationId) (env : EventEnvelope) : option (EffectClass * str) :=
  match env.(event) with
  | Event.TaskLifecycle _ (TaskEvent.OperationIntentRecorded id' _ _ effect_class request_digest) =>
      if id' =? id then Some (effect_class, request_digest) else None
  | _ => None
  end.
Definition intent_of (id : OperationId) (es : list EventEnvelope) : option (EffectClass * str) :=
  head (omap (intent id) es).

(** The operations of a snapshot, each with its intent. *)
Definition journal_operation (es : list EventEnvelope) (id : OperationId) (op : OperationSnapshot) :
    option JournalOperationState :=
  (fun '(effect_class, request_digest) =>
     {| jo_status := op.(os_status); jo_effect_class := effect_class;
        jo_request_digest := request_digest;
        jo_last_transition_sequence := op.(last_transition_sequence);
        jo_evidence := op.(evidence) |}) <$> intent_of id es.
Definition journal_operations (es : list EventEnvelope) (st : TaskSnapshot) :
    gmap OperationId JournalOperationState :=
  map_imap (journal_operation es) st.(operations).

(** ** The scan *)

Lemma intent_of_snoc id es env :
  intent_of id (es ++ [env]) = match intent_of id es with Some x => Some x | None => intent id env end.
Proof.
  unfold intent_of. rewrite omap_app. destruct (omap (intent id) es); [|done]. simpl. by destruct (intent id env).
Qed.

Lemma last_omap_snoc {A B : Type} (f : A -> option B) l x :
  last (omap f (l ++ [x])) = match f x with Some y => Some y | None => last (omap f l) end.
Proof.
  rewrite omap_app. simpl. destruct (f x); [by rewrite last_snoc|by rewrite app_nil_r].
Qed.

Lemma lookup_journal_operations es st id :
  journal_operations es st !! id = (op ← st.(operations) !! id; journal_operation es id op).
Proof. apply map_lookup_imap. Qed.

Lemma journal_operations_ext es es' st st' :
  (forall id, intent_of id es' = intent_of id es) -> st'.(operations) = st.(operations) ->
  journal_operations es' st' = journal_operations es st.
Proof.
  intros Hi Ho. apply map_eq. intros id. rewrite !lookup_journal_operations, Ho.
  destruct (operations st !! id); [|done]. simpl. unfold journal_operation. by rewrite Hi.
Qed.

Lemma journal_operations_put es es' st id op jo :
  (forall id', id' <> id -> intent_of id' es' = intent_of id' es) -> journal_operation es' id op = Some jo ->
  journal_operations es' (put_operation id op st) = <[id := jo]> (journal_operations es st).
Proof.
  intros Hi Hjo. apply map_eq. intros id'. rewrite lookup_journal_operations. simpl.
  destruct (decide (id = id')) as [<-|Hne]; [by rewrite !lookup_insert_eq|].
  rewrite !lookup_insert_ne, lookup_journal_operations by done. destruct (operations st !! id'); [|done].
  simpl. unfold journal_operation. by rewrite Hi.
Qed.

(** A snapshot knows the operations that were announced. *)
Definition announced_operations (es : list EventEnvelope) (st : TaskSnapshot) : Prop :=
  forall id, is_Some (st.(operations) !! id) <-> is_Some (intent_of id es).

Lemma announced_same es es' st st' :
  announced_operations es st -> (forall id, intent_of id es' = intent_of id es) ->
  (forall id, is_Some (st'.(operations) !! id) <-> is_Some (st.(operations) !! id)) -> announced_operations es' st'.
Proof. intros Ha Hi Ho id. by rewrite Hi, Ho. Qed.

Lemma put_known st id op op' :
  st.(operations) !! id = Some op' ->
  forall id', is_Some ((put_operation id op st).(operations) !! id') <-> is_Some (st.(operations) !! id').
Proof.
  intros Hop id'. simpl. destruct (decide (id = id')) as [<-|Hne]; [by rewrite lookup_insert_eq, Hop|].
  by rewrite lookup_insert_ne.
Qed.

(** An event that leaves the operations alone. *)
Lemma scan_other es st env t ev st1 :
  announced_operations es st -> env.(event) = Event.TaskLifecycle t ev -> st1.(operations) = st.(operations) ->
  match ev with
  | TaskEvent.OperationIntentRecorded _ _ _ _ _ | TaskEvent.OperationTransitioned _ _ _ _
  | TaskEvent.OperationEvidenceRecorded _ _ => False
  | _ => True
  end ->
  scan_operations (journal_operations es st) env.(sequence) ev = Ok (journal_operations (es ++ [env]) st1)
  /\ announced_operations (es ++ [env]) st1.
Proof.
  intros Ha Hev Ho Hne.
  assert (forall id, intent_of id (es ++ [env]) = intent_of id es) as Hi.
  { intros id. rewrite intent_of_snoc. destruct (intent_of id es); [done|]. unfold intent. rewrite Hev. by destruct ev. }
  split; [|by eapply announced_same; [exact Ha|done|rewrite Ho]].
  rewrite (journal_operations_ext es (es ++ [env]) st st1) by done. by destruct ev.
Qed.

(** An event of an operation that was announced. *)
Lemma revised_operation es st env t ev id op op' jo :
  announced_operations es st -> env.(event) = Event.TaskLifecycle t ev ->
  (forall id e i c d, ev <> TaskEvent.OperationIntentRecorded id e i c d) ->
  st.(operations) !! id = Some op -> journal_operation es id op = Some jo ->
  journal_operations (es ++ [env]) (put_operation id op' st)
  = <[id := {| jo_status := op'.(os_status); jo_effect_class := jo.(jo_effect_class);
               jo_request_digest := jo.(jo_request_digest);
               jo_last_transition_sequence := op'.(last_transition_sequence);
               jo_evidence := op'.(evidence) |}]> (journal_operations es st)
  /\ announced_operations (es ++ [env]) (put_operation id op' st).
Proof.
  intros Ha Hev Hne Hop Hjo.
  assert (forall id, intent_of id (es ++ [env]) = intent_of id es) as Hi.
  { intros id'. rewrite intent_of_snoc. destruct (intent_of id' es); [done|]. unfold intent. rewrite Hev.
    destruct ev; try done. exfalso. by eapply Hne. }
  split; [|by eapply announced_same; [exact Ha|done|by eapply put_known]].
  apply journal_operations_put; [auto|]. unfold journal_operation in *. rewrite Hi.
  destruct (intent_of id es) as [[c d]|]; [|done]. simpl in *. by injection Hjo as <-.
Qed.

Lemma announced_operation es st id op :
  announced_operations es st -> st.(operations) !! id = Some op ->
  exists jo, journal_operation es id op = Some jo /\ journal_operations es st !! id = Some jo
    /\ jo.(jo_status) = op.(os_status) /\ jo.(jo_last_transition_sequence) = op.(last_transition_sequence)
    /\ jo.(jo_evidence) = op.(evidence).
Proof.
  intros Ha Hop. rewrite lookup_journal_operations, Hop. simpl. unfold journal_operation.
  destruct (proj1 (Ha id)) as [[c d] Hi]; [by rewrite Hop|]. rewrite Hi. simpl. eexists. by split_and!.
Qed.

(** The two events that bind what an operation must leave behind. *)
Lemma scan_bound es st env t ev id op digest files :
  announced_operations es st -> env.(event) = Event.TaskLifecycle t ev -> st.(operations) !! id = Some op ->
  match ev with
  | TaskEvent.OperationPostconditionBound _ _ | TaskEvent.OperationFilePostconditionBound _ _ => True
  | _ => False
  end ->
  let st1 := put_operation id (revise_operation op op.(os_status) op.(last_transition_sequence)
               digest files op.(evidence)) st in
  scan_operations (journal_operations es st) env.(sequence) ev = Ok (journal_operations (es ++ [env]) st1)
  /\ announced_operations (es ++ [env]) st1.
Proof.
  intros Ha Hev Hop Hb. cbv zeta. destruct (announced_operation es st id op Ha Hop) as (jo & Hjo & Htab & Hs & Hl & He).
  match goal with |- context [put_operation id ?op' st] =>
    destruct (revised_operation es st env t ev id op op' jo Ha Hev) as [-> Ha'] end; [by destruct ev|done|done|].
  split; [|done]. cbn. rewrite <-Hs, <-Hl, <-He. rewrite insert_id by (by destruct jo). by destruct ev.
Qed.

Lemma scan_operations_agrees es st env t ev st1 :
  announced_operations es st -> env.(event) = Event.TaskLifecycle t ev -> task_step st env.(sequence) ev st1 ->
  scan_operations (journal_operations es st) env.(sequence) ev = Ok (journal_operations (es ++ [env]) st1)
  /\ announced_operations (es ++ [env]) st1.
Proof.
  intros Ha Hev Hstep.
  destruct Hstep as [ | | |ev e Hor|ev Hn|ev e Hn|id e item class digest Hact Hnone|id op digest Hrun|id op files Hrun
    |id op from to evs ledger Hrun Hled|id op digest Hrun Hs Hl Hr| | | | | | | | | ];
    try (by eapply scan_other).
  - eapply scan_other; try done. by destruct Hor as [[? ->]|[? ->]].
  - eapply scan_other; try done. by destruct ev.
  - eapply scan_other; try done. by destruct ev.
  - assert (intent_of id es = None) as Hi.
    { destruct (intent_of id es) eqn:Hi; [|done]. destruct (proj2 (Ha id)) as [? ?]; [by rewrite Hi|congruence]. }
    assert (intent_of id (es ++ [env]) = Some (class, digest)) as Hi'.
    { rewrite intent_of_snoc, Hi. unfold intent. by rewrite Hev, Z.eqb_refl. }
    assert (forall id', id' <> id -> intent_of id' (es ++ [env]) = intent_of id' es) as Hoth.
    { intros id' Hne. rewrite intent_of_snoc. destruct (intent_of id' es); [done|]. unfold intent. rewrite Hev.
      by rewrite (proj2 (Z.eqb_neq id id')). }
    simpl. rewrite lookup_journal_operations, Hnone. simpl. split.
    + f_equal. symmetry. apply journal_operations_put; [done|]. unfold journal_operation. by rewrite Hi'.
    + intros id'. simpl. destruct (decide (id = id')) as [<-|Hne]; [by rewrite lookup_insert_eq, Hi'|].
      rewrite lookup_insert_ne, Hoth by done. apply Ha.
  - by eapply scan_bound; [done|exact Hev|apply Hrun|..].
  - by eapply scan_bound; [done|exact Hev|apply Hrun|..].
  - destruct Hrun as [Hop _]. destruct (announced_operation es st id op Ha Hop) as (jo & Hjo & Htab & Hs & Hl & He).
    destruct (revised_operation es st env t _ id op (revise_operation op to env.(sequence) op.(postcondition_digest)
      op.(file_postcondition) ledger) jo Ha Hev ltac:(done) Hop Hjo) as [-> Ha']. split; [|done].
    simpl. rewrite Htab. simpl. rewrite Hs, Hl, He. apply evidence_transition_spec in Hled. by rewrite Hled.
  - destruct Hrun as [Hop _]. destruct (announced_operation es st id op Ha Hop) as (jo & Hjo & Htab & Hs' & Hl' & He).
    match goal with |- context [put_operation id ?op' st] =>
      destruct (revised_operation es st env t _ id op op' jo Ha Hev ltac:(done) Hop Hjo) as [-> Ha'] end. split; [|done].
    simpl. rewrite Htab. simpl. rewrite Hs', Hl', He.
    pose proof (proj2 (evidence_record_spec op.(evidence) op.(os_status) op.(last_transition_sequence) env.(sequence) _)
      (conj Hs (conj Hl (conj Hr eq_refl)))) as Hrec. by rewrite Hrec.
Qed.

(** ** The scan as an observer of the journal *)

Section Observer.
Context `{Uuids, Chrono, Serde, SqliteJson, CheckpointJson}.

Definition scan_agrees (es : list EventEnvelope) (st : TaskSnapshot) (scan : AuthorityScan) : Prop :=
  scan = {| sc_total_tokens := last (omap reported_tokens es);
            sc_context_window := last (omap reported_window es);
            sc_operations := journal_operations es st; sc_snapshot := None;
            sc_children := (None, []); sc_last := last (sequence <$> es) |}
  /\ announced_operations es st.

#[export] Instance scan_observer : JournalObserver scan_event (scan_start None) (fun _ => True) scan_agrees.
Proof.
  constructor.
  - intros env st _ (task & c & b & w & m & e & p & Hev & _ & _ & ->)%reduce_created_spec.
    unfold scan_event. simpl. rewrite Hev. simpl. eexists. split; [reflexivity|]. split.
    + f_equal; simpl; unfold reported_tokens, reported_window; by rewrite ?Hev.
    + intros id. simpl. rewrite lookup_empty. unfold intent_of. simpl. unfold intent. rewrite Hev. simpl.
      by split; intros [? ?].
  - intros es st env st' scan _ _ _ Hr [-> Ha].
    apply reduce_existing_spec in Hr as (ev & Hev & _ & _ & _ & _ & st1 & Hstep & ->).
    destruct (scan_operations_agrees es st env st.(task_id) ev st1 Ha Hev Hstep) as [Hscan Ha'].
    unfold scan_event. cbn [scan_replay sc_snapshot mbind result_bind]. rewrite Hev. cbn [sc_operations].
    rewrite Hscan. eexists. split; [|split; [reflexivity|done]].
    rewrite !last_omap_snoc, fmap_snoc, last_snoc.
    replace (reported_tokens env) with (match ev with TaskEvent.UsageObserved _ n _ => Some n | _ => None end)
      by (unfold reported_tokens; by rewrite Hev).
    replace (reported_window env) with (match ev with TaskEvent.UsageObserved _ _ n => n | _ => None end)
      by (unfold reported_window; by rewrite Hev).
    destruct ev; try done. by destruct context_window.
Qed.

Lemma scan_history es st :
  history es st -> try_fold scan_event (scan_start None) es
  = Ok {| sc_total_tokens := last (omap reported_tokens es); sc_context_window := last (omap reported_window es);
          sc_operations := journal_operations es st; sc_snapshot := None;
          sc_children := (None, []); sc_last := last (sequence <$> es) |}.
Proof.
  intros Hh. destruct (observer_total es st Hh) as (scan & Hscan & -> & _); [by apply Forall_true|done].
Qed.

End Observer.
