(* ===== verification/StoreAnchor.v ===== *)
(** * Remembered checkpoints

    [commit_checkpoint] compares a new checkpoint with the whole journal, or, when the
    store remembers the checkpoint before it, with the events since that one.  This
    file shows that the shortcut accepts exactly what the long way accepts, whatever
    has been written in between and by however many connections, and that what is
    committed agrees with the journal. *)
From stdpp Require Import base gmap sets list sorting strings relations.
From S2P Require Import Prelude Ord Text Settings Policy TaskTypes Events Reducer Journal Metrics SecretFilter Checkpoint Context Database TaskStore StoreCheckpoint StoreJournal StoreAuthority StoreOps StorePayload StoreCommit.
From Stdlib Require Import ZArith Lia.
#[local] Open Scope list_scope.
#[local] Open Scope Z_scope.

(** ** Two tables of operations

    A remembered checkpoint keeps of an operation neither its recorded evidence nor
    when it last changed; an operation that is resolved does not change again. *)

Definition same_state (o1 o2 : JournalOperationState) : Prop :=
  o1.(jo_status) = o2.(jo_status) /\ o1.(jo_effect_class) = o2.(jo_effect_class)
  /\ o1.(jo_request_digest) = o2.(jo_request_digest)
  /\ o1.(jo_evidence).(consumed_sequences) = o2.(jo_evidence).(consumed_sequences)
  /\ (is_resolved o1.(jo_status) = true \/ o1 = o2).

Definition same_operations (t1 t2 : gmap OperationId JournalOperationState) : Prop :=
  forall id, match t1 !! id, t2 !! id with
             | Some o1, Some o2 => same_state o1 o2
             | None, None => True
             | _, _ => False
             end.

Definition agree {E A B : Type} (R : A -> B -> Prop) (r1 : result E A) (r2 : result E B) : Prop :=
  match r1, r2 with Ok a, Ok b => R a b | Err _, Err _ => True | _, _ => False end.

Lemma same_operations_insert t1 t2 id o :
  same_operations t1 t2 -> same_operations (<[id := o]> t1) (<[id := o]> t2).
Proof.
  intros H id'. destruct (decide (id = id')) as [<-|Hne].
  - rewrite !lookup_insert_eq. repeat split; auto.
  - rewrite !lookup_insert_ne by done. apply H.
Qed.

Lemma same_operations_step t1 t2 now ev :
  same_operations t1 t2 -> agree same_operations (scan_operations t1 now ev) (scan_operations t2 now ev).
Proof.
  intros H. destruct ev; try done; simpl; pose proof (H operation_id) as Hid;
    destruct (t1 !! operation_id) as [o1|], (t2 !! operation_id) as [o2|]; try done; simpl.
  - by apply same_operations_insert.
  - destruct Hid as (Hs & Hc & Hr & He & [Hres|<-]).
    + by rewrite <-Hs, !resolved_no_transition.
    + destruct (OperationEvidenceState_transition _ _ _ _ _ _ _); simpl; [by apply same_operations_insert|done].
  - destruct Hid as (Hs & Hc & Hr & He & [Hres|<-]).
    + by rewrite <-Hs, !resolved_no_evidence.
    + destruct (OperationEvidenceState_record _ _ _ _); simpl; [by apply same_operations_insert|done].
Qed.

Lemma same_operations_entries t1 t2 :
  same_operations t1 t2 -> journal_entry <$> btree_iter t1 = journal_entry <$> btree_iter t2.
Proof.
  intros H. set (f := fun o => (o.(jo_status), o.(jo_effect_class), o.(jo_request_digest),
    o.(jo_evidence).(consumed_sequences))).
  assert (f <$> t1 = f <$> t2) as Heq.
  { apply map_eq. intros id. rewrite !lookup_fmap. specialize (H id).
    destruct (t1 !! id), (t2 !! id); try done. simpl. destruct H as (Hs & Hc & Hr & He & _).
    unfold f. by rewrite Hs, Hc, Hr, He. }
  assert (forall t, journal_entry <$> btree_iter t
    = (fun '(id, (s, c, r, e)) => (id, s, c, r, e)) <$> btree_iter (f <$> t)) as Hfmap.
  { intros t. rewrite btree_iter_fmap, <-list_fmap_compose. apply list_fmap_ext. by intros i [id o] _. }
  by rewrite !Hfmap, Heq.
Qed.

(** The table of a remembered checkpoint. *)
Lemma anchor_operations_same (a : AuthenticatedCheckpointAuthority) table :
  NoDup (oc_operation_id <$> a.(au_operations)) ->
  Forall (fun o => is_resolved o.(oc_status) = true) a.(au_operations) ->
  sort_by_key (fun entry : OperationEntry => entry.1.1.1.1) (checkpoint_entry <$> a.(au_operations))
  = journal_entry <$> btree_iter table ->
  same_operations table (anchor_operations a).
Proof.
  intros Hnd Hres Heq. unfold anchor_operations.
  destruct (foldl_insert_lookup oc_operation_id (fun operation =>
    {| jo_status := operation.(oc_status); jo_effect_class := operation.(oc_effect_class);
       jo_request_digest := operation.(oc_request_digest);
       jo_last_transition_sequence := a.(au_source_sequence_end);
       jo_evidence := from_consumed operation.(oc_evidence_sequences) |}) a.(au_operations)
    (∅ : gmap OperationId _) Hnd) as [Hin Hout].
  assert (forall x, x ∈ checkpoint_entry <$> a.(au_operations) <-> x ∈ journal_entry <$> btree_iter table) as Hmem.
  { intros x. rewrite <-Heq. unfold sort_by_key. by rewrite elem_of_sort_by. }
  intros id. destruct (table !! id) as [o|] eqn:Ho.
  - assert (journal_entry (id, o) ∈ checkpoint_entry <$> a.(au_operations)) as (c & Hc & Hca)%list_elem_of_fmap.
    { apply Hmem, list_elem_of_fmap. exists (id, o). split; [done|]. by apply elem_of_btree_iter. }
    unfold journal_entry, checkpoint_entry in Hc. simpl in Hc. injection Hc as -> Hs Hcl Hr He.
    rewrite (Hin c Hca). rewrite Forall_forall in Hres. specialize (Hres c Hca).
    repeat split; simpl; try done. left. congruence.
  - rewrite Hout, lookup_empty; [done|]. intros (c & -> & Hca)%list_elem_of_fmap.
    assert (checkpoint_entry c ∈ journal_entry <$> btree_iter table) as ([id o] & Hc & Hin')%list_elem_of_fmap.
    { apply Hmem, list_elem_of_fmap. eauto. }
    apply elem_of_btree_iter in Hin'. unfold journal_entry, checkpoint_entry in Hc. simpl in Hc. congruence.
Qed.

(** ** Two scans of the same events *)

(** The long scan and the one from a remembered checkpoint. *)
Record same_scan (s1 s2 : AuthorityScan) : Prop := {
  ss_tokens : s1.(sc_total_tokens) = s2.(sc_total_tokens);
  ss_window : s1.(sc_context_window) = s2.(sc_context_window);
  ss_operations : same_operations s1.(sc_operations) s2.(sc_operations);
  ss_snapshot : s1.(sc_snapshot) = None;
  ss_last : s1.(sc_last) = s2.(sc_last)
}.

Section Anchor.
Context `{U : Uuids, C : Chrono, J : Serde, Q : SqliteJson, CJ : CheckpointJson}.

Lemma same_scan_step s1 s2 st children env st' children' :
  same_scan s1 s2 -> s2.(sc_snapshot) = Some st -> s2.(sc_children) = children ->
  reduce_task (Some st) env = Ok st' -> replay_task_child_projections children env = Ok children' ->
  agree (fun r1 r2 => same_scan r1 r2 /\ r2.(sc_snapshot) = Some st' /\ r2.(sc_children) = children')
    (scan_event s1 env) (scan_event s2 env).
Proof.
  intros [Ht Hw Ho Hn Hl] Hst Hch Hred Hrep. unfold scan_event, scan_replay.
  rewrite Hn, Hst, Hch, Hred. cbn [mbind result_bind map_err]. rewrite Hrep. cbn [mbind result_bind].
  destruct (event env) as [| | | | | | | | | | | | | | | |t ev]; try done.
  pose proof (same_operations_step _ _ env.(sequence) ev Ho) as Hops. rewrite Ht, Hw.
  destruct (match ev with TaskEvent.UsageObserved _ _ _ => _ | _ => _ end) as [tokens window].
  destruct (scan_operations s1.(sc_operations) _ ev), (scan_operations s2.(sc_operations) _ ev); done.
Qed.

Lemma same_scan_fold es s1 s2 st children st' children' :
  same_scan s1 s2 -> s2.(sc_snapshot) = Some st -> s2.(sc_children) = children ->
  try_fold (fun st env => Some <$> reduce_task st env) (Some st) es = Ok (Some st') ->
  try_fold replay_task_child_projections children es = Ok children' ->
  agree (fun r1 r2 => same_scan r1 r2 /\ r2.(sc_snapshot) = Some st' /\ r2.(sc_children) = children')
    (try_fold scan_event s1 es) (try_fold scan_event s2 es).
Proof.
  revert s1 s2 st children. induction es as [|env es IH]; intros s1 s2 st children Hs Hst Hch Hr Hc; simpl in *.
  { by simplify_eq. }
  destruct (reduce_task (Some st) env) as [st1|] eqn:Hred; [|done].
  destruct (replay_task_child_projections children env) as [children1|] eqn:Hrep; [|done]. simpl in *.
  pose proof (same_scan_step s1 s2 st children env st1 children1 Hs Hst Hch Hred Hrep) as Hstep.
  destruct (scan_event s1 env), (scan_event s2 env); simpl in *; try done.
  destruct Hstep as (Hs' & Hst' & Hch'). by eapply IH.
Qed.

(** Markers that were there before do not matter to the configuration. *)
Lemma replay_children_suffix es cfg m ms children :
  try_fold replay_task_child_projections (cfg, m ++ ms) es = Ok children ->
  exists cfg' ms', children = (cfg', m ++ ms')
    /\ try_fold replay_task_child_projections (cfg, ms) es = Ok (cfg', ms').
Proof.
  revert cfg ms. induction es as [|env es IH]; intros cfg ms Hf; cbn [try_fold] in *.
  { injection Hf as <-. eauto. }
  apply bind_ok in Hf as ([cfg1 m1] & Hstep & Hf).
  assert (exists ms1, m1 = m ++ ms1 /\ replay_task_child_projections (cfg, ms) env = Ok (cfg1, ms1)) as (ms1 & -> & Hs).
  { unfold replay_task_child_projections in *. destruct (event env) as [| | | | | | | | | | | | | | | |t ev]; try done.
    destruct ev; try (injection Hstep as <- <-; by eauto).
    - destruct cfg; [done|]. simpl in *. injection Hstep as <- <-. eauto.
    - destruct cfg; [|done]. simpl in *. injection Hstep as <- <-. eauto.
    - destruct cfg; [|done]. simpl in *. destruct (replay_configuration_applied _ _ _); [|done]. simpl in *.
      injection Hstep as <- <-. eauto.
    - apply bind_ok in Hstep as ([] & Hrej & [= <- <-]). apply reject_ok in Hrej.
      rewrite existsb_app, orb_false_iff in Hrej. destruct Hrej as [_ Hrej]. rewrite Hrej. simpl.
      rewrite <-app_assoc. eauto. }
  rewrite Hs. cbn [mbind result_bind]. by apply IH.
Qed.

Context `{!UuidLaws, !ChronoLaws, !SerdeLaws, !SqliteJsonLaws, !CheckpointJsonLaws}.

(** ** The two validations *)

Lemma scan_journal_full js db c :
  store_ok js db ->
  scan_journal db c None = try_fold scan_event (scan_start None) (of_task c.(ck_task_id) js).
Proof.
  intros Hok. unfold scan_journal. rewrite (task_pages_exact c.(ck_task_id) js db); [|apply Hok|done|].
  - cbn. f_equal. apply filter_all, Forall_forall. intros e He. pose proof (of_task_range _ _ _ _ (so_journal _ _ Hok) He). lia.
  - intros a Ha. apply read_page; [apply Hok|done|lia].
Qed.

Lemma filter_after_last (es1 es2 : list EventEnvelope) s :
  StronglySorted Z.lt (sequence <$> es1 ++ es2) -> last (sequence <$> es1) = Some s ->
  filter (fun e => s < e.(sequence)) (es1 ++ es2) = es2.
Proof.
  intros Hs Hl. destruct (exists_last (l := es1)) as (l & x & ->); [by intros ->|].
  rewrite fmap_snoc, last_snoc in Hl. injection Hl as <-. by apply (filter_beyond sequence).
Qed.

Lemma scan_journal_anchor js db c a es1 es2 :
  store_ok js db -> of_task c.(ck_task_id) js = es1 ++ es2 ->
  last (sequence <$> es1) = Some a.(au_source_sequence_end) ->
  Forall (fun e => e.(ee_session_id) = a.(au_task_snapshot).(session_id)) (es1 ++ es2) ->
  scan_journal db c (Some a) = try_fold scan_event (scan_start (Some a)) es2.
Proof.
  intros Hok Hes Hlast Hses. pose proof (so_journal _ _ Hok) as Hj.
  assert (0 <= a.(au_source_sequence_end) <= i64_max) as Hr.
  { apply last_Some_elem_of, list_elem_of_fmap in Hlast as (e & -> & He).
    pose proof (of_task_range c.(ck_task_id) js db e Hj) as Hrange. rewrite Hes in Hrange.
    specialize (Hrange ltac:(set_solver)). lia. }
  unfold scan_journal. rewrite (task_pages_exact c.(ck_task_id) js db); [|done|done|].
  - cbn. rewrite Hes, (filter_after_last es1 es2); [done| |done]. rewrite <-Hes. by eapply of_task_sorted.
  - intros after Ha. apply read_known_page; [done| |done|lia]. rewrite Hes. by apply Forall_forall.
Qed.

Lemma scan_event_inv s env s' :
  scan_event s env = Ok s' -> s'.(sc_last) = Some env.(sequence)
  /\ (s.(sc_snapshot) = None -> s'.(sc_snapshot) = None).
Proof.
  unfold scan_event. intros Hs. apply bind_ok in Hs as ([st children] & Hr & Hs).
  destruct (event env) as [| | | | | | | | | | | | | | | |t ev]; try done.
  destruct (match ev with TaskEvent.UsageObserved _ _ _ => _ | _ => _ end) as [tokens window].
  apply bind_ok in Hs as (ops & _ & [= <-]). split; [done|]. intros Hn. cbn. unfold scan_replay in Hr.
  rewrite Hn in Hr. by injection Hr as <- _.
Qed.

Lemma scan_fold_inv es s s' :
  try_fold scan_event s es = Ok s' ->
  s'.(sc_last) = match last (sequence <$> es) with Some x => Some x | None => s.(sc_last) end
  /\ (s.(sc_snapshot) = None -> s'.(sc_snapshot) = None).
Proof.
  revert s. induction es as [|env es IH]; intros s Hs; cbn [try_fold] in Hs; [by injection Hs as <-|].
  apply bind_ok in Hs as (s1 & Hs1 & Hs). apply scan_event_inv in Hs1 as [Hl1 Hn1].
  destruct (IH s1 Hs) as [Hl Hn]. split; [|auto]. rewrite Hl, Hl1, fmap_cons, last_cons.
  by destruct (last _).
Qed.

(** What the store holds as the predecessor of a checkpoint. *)
Definition previous_stored (db : Database) (st : TaskSnapshot) (c : CanonicalCheckpoint) : Prop :=
  match st.(latest_checkpoint) with
  | None => c.(previous_digest) = None
  | Some latest => exists row, checkpoint_row db c.(ck_task_id) latest = Some row
                   /\ c.(previous_digest) = Some row.(cr_digest)
  end.

Lemma history_accepts js db current input :
  store_ok js db -> load_task_record db input.(nc_task_id) = Ok (Some current) ->
  input.(nc_checkpoint).(ck_task_id) = input.(nc_task_id) ->
  validate_checkpoint_history db current input = Ok tt <->
  head (sequence <$> of_task input.(nc_task_id) js) = Some input.(nc_checkpoint).(source_sequence_start)
  /\ last (sequence <$> of_task input.(nc_task_id) js) = Some input.(nc_checkpoint).(source_sequence_end)
  /\ previous_stored db current.(snapshot) input.(nc_checkpoint).
Proof.
  intros Hok Hload Htask. pose proof (so_journal _ _ Hok) as Hj.
  pose proof (load_task_shown js db input.(nc_task_id) Hok) as Hl. rewrite Hload in Hl.
  destruct Hl as (row & _ & [Hh _ _ _] & _).
  pose proof (history_ok _ _ Hh) as [_ _ _ _ Hown]. rewrite Forall_forall in Hown.
  unfold validate_checkpoint_history.
  assert (filter (fun row => row.(er_session_id) = uuid_to_string current.(snapshot).(session_id)
      /\ json_task_id row.(event_json) = Some (uuid_to_string input.(nc_task_id))) db.(events)
    = filter (fun row => json_task_id row.(event_json) = Some (uuid_to_string input.(nc_task_id))) db.(events)) as ->.
  { apply filter_iff_on. intros r Hr. split; [tauto|]. intros Ht. split; [|done].
    apply list_elem_of_lookup in Hr as [i Hi]. destruct (Forall2_lookup_r _ _ _ _ _ (jo_rows _ _ Hj) Hi) as (e & He & Henc).
    pose proof Henc as (_ & _ & -> & _). f_equal. apply Hown, elem_of_task. split; [by apply (encodes_task _ e r Henc)|].
    by apply list_elem_of_lookup_2 with i. }
  rewrite sequence_bounds_sorted; rewrite (task_rows js db _ Hj); [|by eapply of_task_sorted].
  pose proof (history_nonempty _ _ Hh) as Hne.
  destruct (head (sequence <$> of_task (nc_task_id input) js)) as [start|] eqn:Hstart;
    [|by destruct (of_task (nc_task_id input) js)].
  destruct (last (sequence <$> of_task (nc_task_id input) js)) as [stop|] eqn:Hstop.
  2: { apply last_None, fmap_nil_inv in Hstop. done. }
  assert (forall x, x ∈ sequence <$> of_task input.(nc_task_id) js -> 0 <= x) as Hpos.
  { intros x (e & -> & He)%list_elem_of_fmap. pose proof (of_task_range _ js db e Hj He). lia. }
  cbn [mbind option_bind ok_or result_bind]. unfold stored_u64.
  rewrite (proj2 (Z.leb_le 0 start)) by (by apply Hpos, head_Some_elem_of).
  rewrite (proj2 (Z.leb_le 0 stop)) by (by apply Hpos, last_Some_elem_of). cbn [mbind result_bind].
  rewrite bind_reject, orb_false_iff, !negb_false_iff, !Z.eqb_eq. unfold previous_stored. rewrite Htask.
  assert (forall r : result CarlError (option str), (expected ← r; reject (negb (input.(nc_checkpoint).(previous_digest) =?? expected))
      (checkpoint_validation (lit "checkpoint previous digest does not match durable history"))) = Ok tt
    <-> r = Ok input.(nc_checkpoint).(previous_digest)) as Hr.
  { intros [o|e]; cbn [mbind result_bind]; [|done]. rewrite reject_ok, negb_false_iff, bool_decide_eq_true. naive_solver. }
  rewrite Hr. clear Hr. destruct (latest_checkpoint (snapshot current)) as [latest|]; cbn [transpose].
  - destruct (checkpoint_row db (nc_task_id input) latest) as [r|]; cbn [ok_or fmap result_fmap mbind result_bind].
    + split; [intros [[-> ->] [= Heq]]; eauto 10|by intros ([= ->] & [= ->] & r' & [= <-] & ->)].
    + split; [by intros [_ ?]|by intros (_ & _ & ? & ? & _)].
  - split; [by intros [[-> ->] [= Heq]]|by intros ([= ->] & [= ->] & ->)].
Qed.

(** The comparisons after the loop, as one condition. *)
Lemma compared (db : Database) current c anchor scan (v0 v : ValidatedCheckpointAuthority) :
  (_ ← check_against_journal c scan v0;
   generation ← expected_generation db current c anchor;
   _ ← reject (negb (c.(compaction_generation) =? generation))
         (checkpoint_validation (lit "checkpoint generation does not match durable history"));
   Ok v0) = Ok v <->
  v = v0 /\ check_against_journal c scan v0 = Ok tt
  /\ expected_generation db current c anchor = Ok c.(compaction_generation).
Proof.
  destruct (check_against_journal c scan v0) as [[]|e]; cbn [mbind result_bind]; [|naive_solver].
  destruct (expected_generation db current c anchor) as [g|e]; cbn [mbind result_bind]; [|naive_solver].
  rewrite bind_reject, negb_false_iff, Z.eqb_eq. naive_solver.
Qed.

Lemma full_accepts js db current cfg c v :
  store_ok js db ->
  validate_checkpoint_authority db current cfg c = Ok v <->
  exists scan, try_fold scan_event (scan_start None) (of_task c.(ck_task_id) js) = Ok scan
    /\ scan.(sc_last) = Some c.(source_sequence_end)
    /\ v = {| va_task_snapshot := current.(snapshot); va_configuration := cfg |}
    /\ check_against_journal c scan v = Ok tt
    /\ expected_generation db current c None = Ok c.(compaction_generation).
Proof.
  intros Hok. unfold validate_checkpoint_authority, validate_checkpoint_authority_from_anchor.
  rewrite (scan_journal_full js) by done.
  destruct (try_fold scan_event _ _) as [scan|e] eqn:Hscan; cbn [mbind result_bind]; [|naive_solver].
  destruct (scan_fold_inv _ _ _ Hscan) as [_ Hn]. rewrite bind_reject, negb_false_iff, bool_decide_eq_true.
  unfold authoritative_state. rewrite (Hn eq_refl). cbn [mbind result_bind].
  rewrite compared. naive_solver.
Qed.

(** ** What the store remembers *)

(** A remembered checkpoint describes a beginning [es1] of its task's journal, and its
    row is still there. *)
Record authority_sound (js : list EventEnvelope) (db : Database)
    (a : AuthenticatedCheckpointAuthority) : Prop := {
  as_events : exists es1 es2 markers scan,
    of_task a.(au_task_id) js = es1 ++ es2 /\ history es1 a.(au_task_snapshot)
    /\ try_fold replay_task_child_projections (None, []) es1 = Ok (Some a.(au_configuration), markers)
    /\ head (sequence <$> es1) = Some a.(au_source_sequence_start)
    /\ last (sequence <$> es1) = Some a.(au_source_sequence_end)
    /\ try_fold scan_event (scan_start None) es1 = Ok scan
    /\ scan.(sc_total_tokens) = a.(au_observed_total_tokens)
    /\ scan.(sc_context_window) = a.(au_observed_context_window)
    /\ sort_by_key (fun entry : OperationEntry => entry.1.1.1.1) (checkpoint_entry <$> a.(au_operations))
       = journal_entry <$> btree_iter scan.(sc_operations);
  as_distinct : NoDup (oc_operation_id <$> a.(au_operations));
  as_resolved : Forall (fun o => is_resolved o.(oc_status) = true) a.(au_operations);
  as_row : exists row json c, db.(task_checkpoints) !! uuid_to_string a.(au_checkpoint_id) = Some row
    /\ row.(checkpoint_json) = Some json /\ checkpoint_from_str json = Some c
    /\ c.(compaction_generation) = a.(au_compaction_generation);
  as_generation : 0 <= a.(au_compaction_generation)
}.

(** It stays one however much is written. *)
Lemma authority_sound_later js js' db db' a :
  authority_sound js db a -> js `prefix_of` js' -> db.(task_checkpoints) ⊆ db'.(task_checkpoints) ->
  authority_sound js' db' a.
Proof.
  intros [(es1 & es2 & markers & scan & Hes & Hrest) Hnd Hres (row & json & c & Hrow & Hjson) Hg] [more ->] Hsub.
  constructor; try done.
  - exists es1, (es2 ++ of_task a.(au_task_id) more), markers, scan. split; [|done].
    unfold of_task in *. by rewrite filter_app, Hes, <-app_assoc.
  - exists row, json, c. split; [by eapply lookup_weaken|done].
Qed.

(** The state at the end of the journal, from the state at the end of [es1]. *)
Lemma tail_replays es1 es2 st1 st :
  history es1 st1 -> history (es1 ++ es2) st ->
  try_fold (fun st env => Some <$> reduce_task st env) (Some st1) es2 = Ok (Some st).
Proof.
  intros [Hr1 _]%history_iff_replay [Hr2 _]%history_iff_replay. unfold replay in *.
  by rewrite try_fold_app, Hr1 in Hr2.
Qed.

Lemma tail_children es1 es2 cfg1 markers cfg ms :
  try_fold replay_task_child_projections (None, []) es1 = Ok (Some cfg1, markers) ->
  try_fold replay_task_child_projections (None, []) (es1 ++ es2) = Ok (Some cfg, ms) ->
  exists ms', try_fold replay_task_child_projections (Some cfg1, []) es2 = Ok (Some cfg, ms').
Proof.
  intros H1' H2'. rewrite try_fold_app, H1' in H2'. cbn [mbind result_bind] in H2'.
  replace markers with (markers ++ []) in H2' by apply app_nil_r.
  apply replay_children_suffix in H2' as (cfg' & ms' & [= <- _] & Hr). eauto.
Qed.

(** The scan of the whole journal and the scan from a remembered checkpoint. *)
Lemma scans_agree js db a t current cfg :
  store_ok js db -> authority_sound js db a -> a.(au_task_id) = t ->
  load_task_record db t = Ok (Some current) -> load_task_configuration_record db t = Ok (Some cfg) ->
  forall c, c.(ck_task_id) = t ->
  agree (fun r1 r2 => same_scan r1 r2 /\ r2.(sc_snapshot) = Some current.(snapshot)
                      /\ r2.(sc_children).1 = Some cfg)
    (try_fold scan_event (scan_start None) (of_task t js)) (scan_journal db c (Some a)).
Proof.
  intros Hok [(es1 & es2 & markers & scan & Hes & Hh1 & Hch1 & Hhead & Hlast & Hscan & Ht & Hw & Hops) Hnd Hres _ _]
    <- Hload Hcfg c Hc.
  pose proof (load_task_shown js db a.(au_task_id) Hok) as Hl. rewrite Hload in Hl.
  destruct Hl as (row & _ & [Hh _ _ Hch] & _). destruct Hch as (cfg0 & ms & _ & Hch & Hcok & Hcrow & _).
  assert (cfg0 = cfg) as ->.
  { unfold load_task_configuration_record in Hcfg. rewrite Hcrow in Hcfg. cbn [transpose] in Hcfg.
    rewrite (configuration_read _ Hcok) in Hcfg. by injection Hcfg. }
  rewrite Hes in Hh, Hch. destruct (tail_children _ _ _ _ _ _ Hch1 Hch) as [ms' Htail].
  assert (Forall (fun e => e.(ee_session_id) = a.(au_task_snapshot).(session_id)) (es1 ++ es2)) as Hses.
  { pose proof (history_ok _ _ Hh) as [_ _ _ _ Hown]. pose proof (history_ok _ _ Hh1) as [_ _ _ _ Hown1].
    destruct es1 as [|e es1]; [by apply history_nonempty in Hh1|].
    rewrite Forall_forall in *. intros x Hx. destruct (Hown1 e ltac:(set_solver)) as [<- _].
    destruct (Hown x Hx) as [-> _]. destruct (Hown e ltac:(set_solver)) as [-> _]. done. }
  rewrite (scan_journal_anchor js db c a es1 es2); [|done|by rewrite Hc|done|done].
  rewrite Hes, try_fold_app, Hscan. cbn [mbind result_bind].
  destruct (scan_fold_inv _ _ _ Hscan) as [Hl Hn]. rewrite Hlast in Hl.
  assert (same_scan scan (scan_start (Some a))) as Hsame.
  { constructor; try done; [|by apply Hn]. by apply anchor_operations_same. }
  pose proof (same_scan_fold es2 scan (scan_start (Some a)) _ _ _ _ Hsame eq_refl eq_refl
    (tail_replays _ _ _ _ Hh1 Hh) Htail) as Hf.
  destruct (try_fold scan_event scan es2), (try_fold scan_event (scan_start (Some a)) es2); try done.
  destruct Hf as (Hs & Hst & Hch'). cbn. by rewrite Hch'.
Qed.

(** The comparisons see of a scan what the two scans share. *)
Lemma check_same_scan c s1 s2 v :
  same_scan s1 s2 -> check_against_journal c s1 v = check_against_journal c s2 v.
Proof.
  intros [Ht Hw Ho _ _]. unfold check_against_journal. by rewrite Ht, Hw, (same_operations_entries _ _ Ho).
Qed.

Lemma matches_database db current a :
  authenticated_checkpoint_matches_database db current a = true ->
  current.(snapshot).(latest_checkpoint) = Some a.(au_checkpoint_id)
  /\ current.(snapshot).(task_id) = a.(au_task_id)
  /\ exists row, checkpoint_row db a.(au_task_id) a.(au_checkpoint_id) = Some row
     /\ row.(cr_digest) = a.(au_digest).
Proof.
  unfold authenticated_checkpoint_matches_database. destruct (latest_checkpoint _) as [latest|]; [|done].
  destruct (_ || _) eqn:Hne; [done|]. rewrite orb_false_iff, !negb_false_iff, !Z.eqb_eq in Hne.
  destruct Hne as [-> ->]. destruct (checkpoint_row db _ _) as [row|]; [|done].
  destruct (checkpoint_json row); [|done]. rewrite andb_true_iff, !bool_decide_eq_true. intros [Hd _]. eauto.
Qed.

Lemma anchor_generation js db current a c :
  authority_sound js db a -> authenticated_checkpoint_matches_database db current a = true ->
  c.(ck_task_id) = a.(au_task_id) ->
  expected_generation db current c (Some a) = expected_generation db current c None.
Proof.
  intros Hs (Hlatest & _ & row & [Hrow Ht]%checkpoint_row_Some & _)%matches_database Hc.
  destruct (as_row _ _ _ Hs) as (row' & json & c' & Hrow' & Hjson & Hc' & Hg).
  rewrite Hrow in Hrow'. injection Hrow' as <-. unfold expected_generation. rewrite Hlatest.
  rewrite (proj2 (checkpoint_row_Some db c.(ck_task_id) a.(au_checkpoint_id) row)) by (by rewrite Hc).
  cbn [ok_or mbind result_bind]. rewrite Hjson. cbn [ok_or mbind result_bind]. rewrite Hc'.
  cbn [ok_or mbind result_bind]. by rewrite Hg.
Qed.

(** The shortcut accepts what the long way accepts, with the same result. *)
Lemma anchor_exact js db current cfg input a v :
  store_ok js db -> authority_sound js db a ->
  load_task_record db input.(nc_task_id) = Ok (Some current) ->
  load_task_configuration_record db input.(nc_task_id) = Ok (Some cfg) ->
  input.(nc_checkpoint).(ck_task_id) = input.(nc_task_id) ->
  authenticated_checkpoint_matches_database db current a = true ->
  validate_checkpoint_authority_incremental db current input.(nc_checkpoint) a = Ok v <->
  validate_checkpoint_history db current input = Ok tt
  /\ validate_checkpoint_authority db current cfg input.(nc_checkpoint) = Ok v.
Proof.
  intros Hok Hs Hload Hcfg Hc Hm. set (t := input.(nc_task_id)) in *. set (c := input.(nc_checkpoint)) in *.
  destruct (matches_database _ _ _ Hm) as (Hlatest & Hid & row & Hrow & Hd).
  pose proof (loaded_id js db t current Hok Hload) as Ht. rewrite Ht in Hid.
  pose proof (scans_agree js db a t current cfg Hok Hs (eq_sym Hid) Hload Hcfg c Hc) as Hscans.
  rewrite (history_accepts js) by done. rewrite (full_accepts js) by done. fold t c.
  rewrite Hc. unfold validate_checkpoint_authority_incremental, validate_checkpoint_authority_from_anchor.
  rewrite bind_reject, orb_false_iff, !negb_false_iff, bool_decide_eq_true, Z.eqb_eq.
  rewrite (anchor_generation js db current a c) by (done || by rewrite Hc).
  assert (head (sequence <$> of_task t js) = Some a.(au_source_sequence_start)) as Hhead.
  { destruct (as_events _ _ _ Hs) as (es1 & es2 & _ & _ & Hes & _ & _ & Hh & _). rewrite <-Hid in Hes.
    rewrite Hes. by destruct es1. }
  assert (previous_stored db current.(snapshot) c <-> c.(previous_digest) = Some a.(au_digest)) as Hprev.
  { unfold previous_stored. rewrite Hlatest, Hc, Hid, Hrow. split; [intros (? & [= <-] & ->); by rewrite Hd|].
    intros ->. exists row. by rewrite Hd. }
  rewrite Hhead, Hprev. 
  destruct (try_fold scan_event (scan_start None) (of_task t js)) as [s1|e] eqn:Hfull;
    destruct (scan_journal db c (Some a)) as [s2|e2]; try done; cbn [mbind result_bind].
  2: { split; [by intros [_ ?]|by intros (_ & ? & ? & _)]. }
  destruct Hscans as (Hsame & Hsnap & Hch). destruct (scan_fold_inv _ _ _ Hfull) as [Hl _].
  rewrite <-(ss_last _ _ Hsame). unfold authoritative_state. rewrite Hsnap, Hch. cbn [ok_or mbind result_bind].
  rewrite bool_decide_eq_true_2 by done. cbn [negb reject mbind result_bind]. rewrite Hc. fold t. rewrite Hcfg.
  cbn [ok_or mbind result_bind]. rewrite bool_decide_eq_true_2 by done. cbn [negb reject mbind result_bind].
  rewrite bind_reject, negb_false_iff, bool_decide_eq_true.
  rewrite <-(check_same_scan c s1 s2), compared by done.
  destruct (last (sequence <$> of_task t js)) as [x|] eqn:Hx.
  2: { apply last_None in Hx. by rewrite Hx in Hhead. }
  split.
  - intros ([Hp Hst] & Hend & -> & Hck & Hg). split; [|by eauto 10].
    rewrite Hend in Hl. by rewrite Hst, <-Hl.
  - intros ((Hst & _ & Hp) & scan & Hsc & Hend & -> & Hck & Hg). injection Hsc as <-. injection Hst as Hst.
    by rewrite Hst.
Qed.

(** ** Committing with and without what is remembered *)

Lemma loaded_configuration js db t current :
  store_ok js db -> load_task_record db t = Ok (Some current) ->
  exists cfg markers, load_task_configuration_record db t = Ok (Some cfg)
    /\ validate_task_authority_from_journal db t = Ok (current, cfg)
    /\ history (of_task t js) current.(snapshot)
    /\ try_fold replay_task_child_projections (None, []) (of_task t js) = Ok (Some cfg, markers).
Proof.
  intros Hok Hload. pose proof (load_task_shown js db t Hok) as Hl. rewrite Hload in Hl.
  destruct Hl as (row & Hrow & [Hh _ _ Hch] & _).
  destruct (validate_shown js db t row Hok Hrow) as (record & cfg & Hval & Hl & Hcfg & _).
  rewrite Hload in Hl. injection Hl as <-.
  destruct Hch as (cfg' & markers & _ & Hrep & Hcok & Hcrow & _).
  unfold load_task_configuration_record in Hcfg. rewrite Hcrow in Hcfg. cbn [transpose] in Hcfg.
  rewrite (configuration_read _ Hcok) in Hcfg. injection Hcfg as <-. exists cfg', markers.
  unfold load_task_configuration_record. rewrite Hcrow. cbn [transpose].
  rewrite (configuration_read _ Hcok). done.
Qed.

(** What the long way asks of a checkpoint, once the store itself is in order. *)
Lemma validate_commit_full js db current input cfg r :
  store_ok js db -> payload_ok db -> load_task_record db input.(nc_task_id) = Ok (Some current) ->
  load_task_configuration_record db input.(nc_task_id) = Ok (Some cfg) ->
  validate_commit db current input None = Ok r <->
  r.1 = current /\ validate_checkpoint_history db current input = Ok tt
  /\ validate_checkpoint_authority db current cfg input.(nc_checkpoint) = Ok r.2.
Proof.
  intros Hok Hp Hload Hcfg. destruct (loaded_configuration js db _ current Hok Hload) as (cfg' & _ & Hcfg' & Hval & _).
  rewrite Hcfg in Hcfg'. injection Hcfg' as <-. unfold validate_commit. rewrite Hval. cbn [map_err mbind result_bind].
  rewrite payloads_accepted by done. cbn [mbind result_bind].
  destruct (validate_checkpoint_history db current input) as [[]|]; cbn [mbind result_bind]; [|naive_solver].
  destruct (validate_checkpoint_authority _ _ _ _); cbn [mbind result_bind]; [|naive_solver].
  destruct r as [r1 r2]. naive_solver.
Qed.

Lemma incremental_anchor_Some db current version cached a :
  incremental_anchor db current version cached = Some a ->
  cached = Some a /\ authenticated_checkpoint_matches_database db current a = true.
Proof.
  unfold incremental_anchor. destruct cached as [a'|]; [|done]. simpl.
  destruct (_ && _) eqn:Hm; [|done]. apply andb_true_iff in Hm as [_ Hm]. by intros [= <-].
Qed.

(** Whatever is remembered, the outcome is that of the long way. *)
Lemma validate_commit_exact js db current input version cached r :
  store_ok js db -> payload_ok db -> load_task_record db input.(nc_task_id) = Ok (Some current) ->
  input.(nc_checkpoint).(ck_task_id) = input.(nc_task_id) ->
  (forall a, cached = Some a -> authority_sound js db a) ->
  validate_commit db current input (incremental_anchor db current version cached) = Ok r <->
  validate_commit db current input None = Ok r.
Proof.
  intros Hok Hp Hload Hc Hcached.
  destruct (incremental_anchor db current version cached) as [a|] eqn:Ha; [|done].
  apply incremental_anchor_Some in Ha as [-> Hm]. specialize (Hcached a eq_refl).
  destruct (loaded_configuration js db _ current Hok Hload) as (cfg & _ & Hcfg & _).
  rewrite (validate_commit_full js db current input cfg) by done. unfold validate_commit.
  rewrite <-(anchor_exact js db current cfg input a) by done.
  destruct (validate_checkpoint_authority_incremental _ _ _ _); cbn [mbind result_bind]; [|naive_solver].
  destruct r as [r1 r2]. naive_solver.
Qed.

(** A checkpoint that is stored has a generation. *)
Lemma stored_generation db id row json c :
  payload_ok db -> db.(task_checkpoints) !! id = Some row -> row.(checkpoint_json) = Some json ->
  checkpoint_from_str json = Some c -> 0 <= c.(compaction_generation).
Proof.
  intros Hp Hrow Hjson Hc. pose proof (po_valid _ Hp id row Hrow) as Hv. unfold payload_valid in Hv.
  rewrite Hjson in Hv. destruct Hv as [(pid & package & Hpk & Hj) Hv].
  destruct (Hv pid package Hpk Hj) as (text & _ & Hok). unfold validate_payload_texts in Hok. rewrite Hc in Hok.
  carl_simpl. unfold stored_u64 in *. case_match; carl_simpl. lia.
Qed.

Lemma validated_generation db current c :
  payload_ok db -> expected_generation db current c None = Ok c.(compaction_generation) ->
  0 <= c.(compaction_generation) <= u32_max.
Proof.
  intros Hp Hg. unfold expected_generation in Hg. destruct (latest_checkpoint _) as [latest|].
  - carl_simpl.
    match goal with H : checkpoint_row _ _ _ = Some _ |- _ => apply checkpoint_row_Some in H as [Hrow _] end.
    assert (0 <= x1.(compaction_generation)) by (by eapply stored_generation). lia.
  - injection Hg as <-. unfold u32_max. lia.
Qed.

(** A checkpoint that is accepted agrees with the store, and what is remembered of it
    is true. *)
Lemma validated_agrees js db current input v :
  store_ok js db -> payload_ok db -> load_task_record db input.(nc_task_id) = Ok (Some current) ->
  input.(nc_checkpoint).(ck_task_id) = input.(nc_task_id) ->
  validate_commit db current input None = Ok (current, v) ->
  commit_agrees js db current.(snapshot) input.(nc_checkpoint)
  /\ exists cfg markers scan, v = {| va_task_snapshot := current.(snapshot); va_configuration := cfg |}
     /\ history (of_task input.(nc_task_id) js) current.(snapshot)
     /\ try_fold replay_task_child_projections (None, []) (of_task input.(nc_task_id) js) = Ok (Some cfg, markers)
     /\ try_fold scan_event (scan_start None) (of_task input.(nc_task_id) js) = Ok scan
     /\ check_against_journal input.(nc_checkpoint) scan v = Ok tt.
Proof.
  intros Hok Hp Hload Hc Hv.
  destruct (loaded_configuration js db _ current Hok Hload) as (cfg & markers & Hcfg & _ & Hh & Hrep).
  destruct (proj1 (validate_commit_full js db current input cfg _ Hok Hp Hload Hcfg) Hv) as (_ & Hhist & Hauth).
  apply (history_accepts js) in Hhist as (Hs & He & Hprev); try done.
  apply (full_accepts js) in Hauth as (scan & Hscan & _ & Heq & Hck & Hg); [|done]. cbn in Heq, Hck.
  rewrite Hc in Hscan.
  split; [|by exists cfg, markers, scan].
  constructor; rewrite ?Hc; try done; [|by eapply validated_generation].
  unfold previous_stored in Hprev. by rewrite Hc in Hprev.
Qed.

End Anchor.
