(* ===== verification/StoreConnect.v ===== *)
(** * Several connections to one store

    [Store] keeps, next to its connection, what it remembers of the last checkpoint it
    committed for each task ([authenticated_checkpoint_authority]).  Several
    connections write to the same database, each whatever the store lets it write.
    This file runs them together.  It shows which databases they reach open: those in
    which no [CompactionCompleted] has brought a package of its own to a checkpoint that
    is stored with its content ([packages_atomic]).  On these, what each connection
    remembers is true of the journal, and a commit therefore accepts what the comparison
    with the whole journal accepts. *)
From stdpp Require Import base gmap sets list sorting strings relations.
From S2P Require Import Prelude Ord Text Settings Policy TaskTypes Events Reducer Journal Metrics SecretFilter Checkpoint Context Database TaskStore StoreCheckpoint StoreJournal StoreAuthority StoreOps StorePayload StoreGrown StoreCommit StoreScan StoreAnchor.
From Stdlib Require Import ZArith Lia.
#[local] Open Scope list_scope.
#[local] Open Scope Z_scope.

Section Connect.
Context `{U : Uuids, C : Chrono, J : Serde, Q : SqliteJson, CJ : CheckpointJson}.

(** ** Opening a store *)

(** The checks of [Store::open]. *)
Definition open_store (db : Database) : result CarlError (list TaskRecord) :=
  records ← visit_authoritative_task_records db;
  _ ← validate_task_canonical_payloads db;
  Ok records.

(** ** Connections *)

(** What a [Store] remembers. *)
Definition Remembered : Type := gmap TaskId AuthenticatedCheckpointAuthority.

Record World := { w_database : Database; w_stores : gmap nat Remembered }.

(** [Store::commit_checkpoint] with the map of the store. *)
Definition store_commit_checkpoint (remembered : Remembered) (data_version : Z) (input : NewCheckpoint)
    (expected : Z) (event_id : EventId) (db : Database) :
    Database * Remembered * result CarlError (option CheckpointRecord) :=
  let '(db', outcome) :=
    transaction (commit_checkpoint (remembered !! input.(nc_task_id)) data_version input expected event_id) db in
  match outcome with
  | Ok (Some (record, authority)) => (db', <[input.(nc_task_id) := authority]> remembered, Ok (Some record))
  | Ok None => (db', remembered, Ok None)
  | Err e => (db', remembered, Err e)
  end.

Inductive connection_step (w : World) : World -> Prop :=
| connection_open n records :
  open_store w.(w_database) = Ok records ->
  connection_step w {| w_database := w.(w_database); w_stores := <[n := ∅]> w.(w_stores) |}
| connection_close n :
  connection_step w {| w_database := w.(w_database); w_stores := delete n w.(w_stores) |}
| connection_write n remembered db' :
  w.(w_stores) !! n = Some remembered -> plain_step w.(w_database) db' ->
  connection_step w {| w_database := db'; w_stores := w.(w_stores) |}
| connection_append n remembered t expected ev now id :
  w.(w_stores) !! n = Some remembered -> models_ok ev ->
  connection_step w {| w_database := (transaction (append_task_event t expected ev now id) w.(w_database)).1;
                       w_stores := w.(w_stores) |}
| connection_commit n remembered data_version input expected id db' remembered' outcome :
  w.(w_stores) !! n = Some remembered ->
  store_commit_checkpoint remembered data_version input expected id w.(w_database) = (db', remembered', outcome) ->
  connection_step w {| w_database := db'; w_stores := <[n := remembered']> w.(w_stores) |}.

Definition empty_world : World := {| w_database := empty_database; w_stores := ∅ |}.

Definition connected (w : World) : Prop := rtc connection_step empty_world w.

Context `{!UuidLaws, !ChronoLaws, !SerdeLaws, !SqliteJsonLaws, !CheckpointJsonLaws}.

(** ** What every operation keeps *)

(** The journal and the checkpoints grow, and stay in order. *)
Definition advanced (js : list EventEnvelope) (db db' : Database) : Prop :=
  exists js', store_ok js' db' /\ payload_ok db' /\ js `prefix_of` js'
    /\ db.(task_checkpoints) ⊆ db'.(task_checkpoints).

Lemma advanced_refl js db : store_ok js db -> payload_ok db -> advanced js db db.
Proof. intros Hok Hp. by exists js. Qed.

Lemma advanced_frame js js' db db' rows :
  store_ok js db -> payload_ok db -> store_ok js' db' -> js `prefix_of` js' ->
  db'.(events) = db.(events) ++ rows -> Forall (after db) rows ->
  db.(artifact_objects) ⊆ db'.(artifact_objects) -> latest_kept db db' ->
  db'.(task_checkpoints) = db.(task_checkpoints) ->
  db'.(task_context_packages) = db.(task_context_packages) -> advanced js db db'.
Proof.
  intros Hok Hp Hok' Hpre Hev Hafter Hart Hlatest Hck Hpk. exists js'. split; [done|].
  split; [|split; [done|by rewrite Hck]]. eapply (payload_frame js db db'); try done; [|by rewrite Hpk|intros pid package; rewrite Hpk; by left].
  constructor; rewrite ?Hck; [by exists rows| |by left|done].
  intros k row Hrow. eexists. by eapply lookup_weaken.
Qed.

Lemma latest_kept_same db db' : db'.(agent_tasks) = db.(agent_tasks) -> latest_kept db db'.
Proof. intros Heq. split; intros k task; rewrite Heq; eauto. Qed.

Lemma create_session_advanced js db db' id now r :
  store_ok js db -> payload_ok db -> create_session id now db = Ok (db', r) -> advanced js db db'.
Proof.
  intros Hok Hp Hc. pose proof (create_session_kept js db db' id now r Hok Hc) as Hok'.
  unfold create_session in Hc. tx_simpl.
  eapply (advanced_frame js js db _ []); try done; [by rewrite app_nil_r|by apply latest_kept_same].
Qed.

Lemma append_advanced js db db' session turn ev now id env :
  store_ok js db -> payload_ok db -> append session turn ev now id db = Ok (db', env) -> advanced js db db'.
Proof.
  intros Hok Hp Ha. pose proof (append_kept js db db' _ _ _ _ _ _ Hok Ha) as [Hok' _].
  unfold append in Ha. tx_simpl.
  assert (forall t ev', ev <> Event.TaskLifecycle t ev') as Hno by (intros t ev' ->; done).
  destruct (append_event_later js _ _ _ _ _ _ _ _ Ha Hok) as (row & ss & -> & _ & Hafter & _).
  { intros t ev' e ->. by destruct (Hno t ev'). }
  eapply (advanced_frame js (js ++ [env]) db _ [row]); try done; [by apply prefix_app_r|by constructor|].
  by apply latest_kept_same.
Qed.

Lemma register_advanced js db db' id length now u :
  store_ok js db -> payload_ok db -> register_artifact_object id length now db = Ok (db', u) -> advanced js db db'.
Proof.
  intros Hok Hp (objects & -> & Hsub)%register_frame.
  eapply (advanced_frame js js db _ []); try done; [|by rewrite app_nil_r|by apply latest_kept_same].
  eapply store_ok_frame; [done| |done|done]. by eapply journal_ok_same; [apply Hok|..].
Qed.

(** A task that is created has no checkpoint. *)
Lemma create_advanced canonicalize is_dir js db db' input receipt t id record :
  store_ok js db -> payload_ok db -> model_ok input.(nt_model) ->
  create_task_inner canonicalize is_dir input receipt t id db = Ok (db', record) -> advanced js db db'.
Proof.
  intros Hok Hp Hmod Hc.
  destruct (create_inner_kept canonicalize is_dir js db db' input receipt t id record Hok Hmod Hc)
    as [[_ ->]|(Hex & _ & _ & _ & env & Hok')]; [by apply advanced_refl|].
  unfold create_task_inner in Hc. tx_simpl. rewrite Hex in *. simplify_eq. tx_simpl.
  match goal with Ha : append_event_in_transaction _ _ _ _ _ _ = Ok (_, ?e), Hr : reduce_task None _ = Ok ?s,
    Hi : insert_task_projection _ _ _ _ _ _ _ = Ok _, Hc : insert_task_receipt _ _ _ _ = Ok _ |- _ =>
    rename Ha into Happ, Hr into Hred, Hi into Hins, e into env', s into st; apply insert_receipt_ok in Hc as [-> _] end.
  pose proof Happ as (srow & text & _ & Henv & _ & _ & Hdb1)%append_event_inv.
  apply reduce_created_spec in Hred as (t' & c & b & w & m & e & p & Hev & _ & _ & ->).
  rewrite Henv in Hev. cbn in Hev. injection Hev as <- _ _ _ _ _ _.
  pose proof Hins as (Hnone & _)%insert_projection_ok; [|done..]. cbn in Hnone. rewrite Hdb1 in Hnone. cbn in Hnone. clear Hdb1.
  destruct (append_event_later js _ _ _ _ _ _ _ _ Happ Hok) as (row & ss & -> & _ & Hafter & _).
  { intros t' ev' e' [= <- _]. pose proof (so_tasks _ _ Hok t) as Ht. rewrite Hnone in Ht. rewrite Ht. by intros ?%elem_of_nil. }
  unfold insert_task_projection in Hins. tx_simpl.
  eapply (advanced_frame js _ db _ [row]); try done; [by apply prefix_app_r|by constructor|].
  split; cbn; intros k task.
  - intros Hk. rewrite lookup_insert_ne; [eauto|congruence].
  - intros [[_ <-]|[_ Hk]]%lookup_insert_Some; [by left|right; eauto].
Qed.

(** An event of a task. *)
Lemma append_in_transaction_advanced js db db' t current ev now id out :
  store_ok js db -> payload_ok db -> models_ok ev -> compaction_atomic db ev ->
  load_task_record db t = Ok (Some current) ->
  append_task_event_in_transaction current ev now id db = Ok (db', out) -> advanced js db db'.
Proof.
  intros Hok Hp Hmod Hatomic Hload Ha. destruct out as [record seq].
  destruct (append_in_transaction_kept js db db' t current ev now id record seq Hok Hmod Hload Ha) as (env & Hok' & _).
  unfold append_task_event_in_transaction in Ha. rewrite (loaded_id js db t current Hok Hload) in Ha. tx_simpl.
  match goal with Ha : append_event_in_transaction _ _ _ _ _ _ = Ok _, Hr : reduce_task _ _ = Ok _,
    Hc : apply_task_child_projection _ _ _ = Ok _, Hu : update_task_projection _ _ _ = Ok _ |- _ =>
    destruct (task_append_payload js _ _ _ _ _ _ _ _ _ _ _ _ _ _ Hok Hp Hatomic Hload Ha Hr Hc Hu) as [Hp' Hsub] end.
  exists (js ++ [env]). split_and!; [done|done|by apply prefix_app_r|done].
Qed.

Lemma append_task_event_advanced js db db' t expected ev now id o :
  store_ok js db -> payload_ok db -> models_ok ev -> compaction_atomic db ev ->
  append_task_event t expected ev now id db = Ok (db', o) -> advanced js db db'.
Proof.
  intros Hok Hp Hmod Hatomic. rewrite (append_task_event_eq js) by done. intros Ha. tx_simpl.
  match goal with H : expected_task _ _ _ = Ok _ |- _ => apply expected_task_ok in H as [-> He] end.
  destruct (load_task_record db t) as [[r|]|] eqn:Hl; [|subst; tx_simpl; by apply advanced_refl|done].
  destruct (_ =? _) in He; subst; tx_simpl; [|by apply advanced_refl]. case_match. tx_simpl.
  by eapply append_in_transaction_advanced.
Qed.

Lemma steering_advanced js db db' t expected n digest control now id o :
  store_ok js db -> payload_ok db ->
  append_controlled_task_steering t expected n digest control now id db = Ok (db', o) -> advanced js db db'.
Proof.
  intros Hok Hp Ha. unfold append_controlled_task_steering in Ha. tx_simpl.
  match goal with H : expected_task _ _ _ = Ok _ |- _ => apply expected_task_ok in H as [-> He] end.
  destruct (load_task_record db t) as [[r|]|] eqn:Hl; [|subst; tx_simpl; by apply advanced_refl|done].
  destruct (_ =? _) in He; subst; tx_simpl; [|by apply advanced_refl]. case_match. tx_simpl.
  match goal with H : append_task_event_in_transaction _ ?ev _ _ _ = Ok (?d, _) |- _ =>
    destruct (append_in_transaction_advanced js db d t r ev _ _ _ Hok Hp I I Hl H) as (js' & Hok' & Hp' & Hpre & Hsub) end.
  match goal with H : bind_steering_control _ _ _ _ = Ok _ |- _ =>
    apply bind_steering_frame in H as [steering ->] end.
  exists js'. split_and!; try done.
  - eapply store_ok_frame; [done| |done|done]. by eapply journal_ok_same; [apply Hok'|..].
  - destruct Hp' as [Han Hlt Hst Hpk Hv]. by constructor.
Qed.

Lemma recovery_advanced js db : kept_in_recovery (advanced js db).
Proof.
  split; [by intros db' (js' & Hok & _); exists js'|].
  intros db1 db2 t current ev now id out (js1 & Hok & Hp & Hpre & Hsub) Hev Hload Ha.
  destruct (append_in_transaction_advanced js1 db1 db2 t current ev now id out Hok Hp) as (js2 & Hok2 & Hp2 & Hpre2 & Hsub2);
    [by destruct ev..|done|done|]. exists js2. split_and!; [done|done|by etrans|by etrans].
Qed.

Lemma plain_advanced js db db' : store_ok js db -> payload_ok db -> plain_step db db' -> advanced js db db'.
Proof.
  intros Hok Hp Hstep. pose proof (advanced_refl js db Hok Hp) as Hrefl.
  destruct Hstep; (apply (transaction_inv _ (advanced js db)); [done|]; intros db' a Ha).
  - by eapply create_session_advanced.
  - by eapply append_advanced.
  - by eapply create_advanced.
  - unfold create_task_idempotent in Ha. tx_simpl. by eapply create_advanced.
  - by eapply steering_advanced.
  - apply (reconcile_kept (advanced js db)) in Ha as [? _]; [done|apply recovery_advanced|done|by left].
  - by eapply register_advanced.
  - apply modify_ok in Ha as ->. exists js. split_and!; try done.
    + eapply store_ok_frame; [done| |done|done]. by eapply journal_ok_same; [apply Hok|..].
    + destruct Hp as [Han Hlt Hst Hpk Hv]. by constructor.
Qed.


(** ** Committing *)

Lemma commit_inv js db db' cached version input expected id o :
  store_ok js db -> commit_checkpoint cached version input expected id db = Ok (db', o) ->
  match o with
  | None => db' = db
  | Some (record, authority) => exists json text current validated,
      input_ok input json text
      /\ NoDup (oc_operation_id <$> input.(nc_checkpoint).(ck_operations))
      /\ Forall (fun o => is_resolved o.(oc_status) = true) input.(nc_checkpoint).(ck_operations)
      /\ load_task_record db input.(nc_task_id) = Ok (Some current)
      /\ validate_commit db current input (incremental_anchor db current version cached) = Ok (current, validated)
      /\ validate_checkpoint_artifacts db input.(nc_checkpoint) = Ok tt
      /\ write_checkpoint current input json text id db = Ok (db', tt)
      /\ authority = new_authority input validated version
  end.
Proof.
  intros Hok Hc. unfold commit_checkpoint in Hc. tx_simpl.
  match goal with Hv : validate_checkpoint_input _ = Ok _, Hb : stored_checkpoint_bytes _ = Ok _,
    Hj : from_utf8 _ = Some _, Hpb : stored_package_bytes _ = Ok _, Ht : from_utf8 _ = Some _ |- _ =>
    pose proof (input_ok_intro _ _ _ _ _ Hv Hb Hj Hpb Ht) as Hin end.
  assert (CanonicalCheckpoint_digest store_sha256 checkpoint_to_vec input.(nc_checkpoint)
    = Ok input.(nc_checkpoint_digest)) as [Hnd Hres]%digest_ok_operations.
  { unfold CanonicalCheckpoint_digest. fold (stored_checkpoint_bytes (nc_checkpoint input)).
    rewrite (io_bytes _ _ _ Hin). cbn. by rewrite (io_digest _ _ _ Hin). }
  match goal with H : expected_task _ _ _ = Ok _ |- _ => apply expected_task_ok in H as [-> He] end.
  destruct (load_task_record db _) as [[r|]|] eqn:Hl; [|subst; by tx_simpl|done].
  destruct (_ =? _) in He; subst; [|by tx_simpl]. tx_simpl. case_match. tx_simpl.
  match goal with H : validate_commit _ _ _ _ = Ok _ |- _ =>
    pose proof (validate_commit_current js _ _ _ _ _ _ Hok Hl H) as -> end.
  eexists _, _, r, _. split_and!; done.
Qed.

(** What is remembered of a checkpoint that was just accepted. *)
Lemma new_authority_sound js env db' row current input json validated version scan markers :
  validated.(va_task_snapshot) = current.(snapshot) ->
  input.(nc_checkpoint).(ck_task_id) = input.(nc_task_id) ->
  head (sequence <$> of_task input.(nc_task_id) js) = Some input.(nc_checkpoint).(source_sequence_start) ->
  last (sequence <$> of_task input.(nc_task_id) js) = Some input.(nc_checkpoint).(source_sequence_end) ->
  0 <= input.(nc_checkpoint).(compaction_generation) ->
  history (of_task input.(nc_task_id) js) current.(snapshot) ->
  try_fold replay_task_child_projections (None, []) (of_task input.(nc_task_id) js)
    = Ok (Some validated.(va_configuration), markers) ->
  try_fold scan_event (scan_start None) (of_task input.(nc_task_id) js) = Ok scan ->
  check_against_journal input.(nc_checkpoint) scan validated = Ok tt ->
  NoDup (oc_operation_id <$> input.(nc_checkpoint).(ck_operations)) ->
  Forall (fun o => is_resolved o.(oc_status) = true) input.(nc_checkpoint).(ck_operations) ->
  db'.(task_checkpoints) !! uuid_to_string input.(nc_checkpoint).(ck_checkpoint_id)
    = Some row -> row.(checkpoint_json) = Some json ->
  checkpoint_from_str json = Some (normalize input.(nc_checkpoint)) ->
  authority_sound (js ++ [env]) db' (new_authority input validated version).
Proof.
  intros Hsnap Ht Hs He Hg Hh Hrep Hscan Hck Hnd Hres Hrow Hjson Hread. constructor; cbn; try done.
  - unfold check_against_journal in Hck. carl_simpl.
    exists (of_task input.(nc_task_id) js), (of_task input.(nc_task_id) [env]), markers, scan.
    rewrite Ht, Hsnap. split; [apply filter_app|]. by split_and!.
  - by exists row, json, (normalize input.(nc_checkpoint)).
Qed.

Definition remembers (js : list EventEnvelope) (db : Database) (cached : option AuthenticatedCheckpointAuthority) : Prop :=
  forall a, cached = Some a -> authority_sound js db a.

(** A commit leaves a store in order, and remembers what is true of it. *)
Lemma commit_advanced js db db' cached version input expected id record a :
  store_ok js db -> payload_ok db -> remembers js db cached ->
  commit_checkpoint cached version input expected id db = Ok (db', Some (record, a)) ->
  exists js', store_ok js' db' /\ payload_ok db' /\ js `prefix_of` js'
    /\ db.(task_checkpoints) ⊆ db'.(task_checkpoints) /\ authority_sound js' db' a.
Proof.
  intros Hok Hp Hcached Hc. pose proof (commit_kept js _ _ _ _ _ _ _ _ Hok Hc) as [record' Happ].
  destruct Happ as (current' & env & Hload' & _ & Hok' & Hev & _).
  destruct (commit_inv js _ _ _ _ _ _ _ _ Hok Hc) as (json & text & current & v & Hin & Hnd & Hres & Hload & Hv & Hart & Hw & ->).
  rewrite Hload in Hload'. injection Hload' as <-. pose proof (io_task _ _ _ Hin) as Ht.
  apply (validate_commit_exact js) in Hv; [|done..].
  destruct (validated_agrees js db current input v Hok Hp Hload Ht Hv) as (Hag & cfg & markers & scan & Hveq & Hh & Hrep & Hscan & Hck).
  pose proof (write_checkpoint_payload js db db' current input json text id tt Hok Hp Hload Hin Hag Hart Hw) as Hp'.
  exists (js ++ [env]).
  apply write_checkpoint_inv in Hw as (db1 & env' & st & (? & ? & _ & _ & _ & _ & ->)%append_event_inv & _ & Hnc & _ & Hup).
  unfold update_task_projection in Hup. tx_simpl. destruct Hag as [Hs He _ Hg]. rewrite Ht in Hs, He. split_and!; try done.
  - by apply prefix_app_r.
  - by apply insert_subseteq.
  - eapply (new_authority_sound js env); try done; [lia|cbn; apply lookup_insert_eq|done|apply Hin].
Qed.

(** ** What a checkpoint has to be *)

(** The generation after the one of the latest checkpoint. *)
Definition next_generation (db : Database) (st : TaskSnapshot) (c : CanonicalCheckpoint) : Prop :=
  match st.(latest_checkpoint) with
  | None => c.(compaction_generation) = 0
  | Some latest => exists row json previous,
      checkpoint_row db c.(ck_task_id) latest = Some row /\ row.(checkpoint_json) = Some json
      /\ checkpoint_from_str json = Some previous
      /\ c.(compaction_generation) = previous.(compaction_generation) + 1
      /\ c.(compaction_generation) <= u32_max
  end.

(** A checkpoint of the task with the journal [es], the snapshot [st] and the
    configuration [cfg]. *)
Record acceptable (db : Database) (es : list EventEnvelope) (st : TaskSnapshot)
    (cfg : TaskConfigurationRecord) (c : CanonicalCheckpoint) : Prop := {
  ac_start : head (sequence <$> es) = Some c.(source_sequence_start);
  ac_end : last (sequence <$> es) = Some c.(source_sequence_end);
  ac_previous : previous_stored db st c;
  ac_generation : next_generation db st c;
  ac_boundary : safe_boundary st;
  ac_contract : c.(ck_contract) = st.(contract);
  ac_context : c.(provider).(pv_context_id) = st.(provider_context);
  ac_provider : c.(provider).(pv_provider) = lit "codex"
    /\ c.(provider).(pv_model) = cfg.(tc_active_model)
    /\ c.(provider).(pv_effort) = as_codex_value cfg.(tc_active_effort);
  ac_usage : c.(provider).(observed_total_tokens) = last (omap reported_tokens es)
    /\ c.(provider).(observed_context_window) = last (omap reported_window es);
  ac_operations : sort_by_key (fun entry : OperationEntry => entry.1.1.1.1) (checkpoint_entry <$> c.(ck_operations))
    = journal_entry <$> btree_iter (journal_operations es st)
}.

Lemma expected_generation_spec db current c :
  expected_generation db current c None = Ok c.(compaction_generation) <-> next_generation db current.(snapshot) c.
Proof.
  unfold expected_generation, next_generation. destruct (latest_checkpoint _) as [latest|];
    [|split; [by intros [= <-]|by intros ->]]. split.
  - intros Hg. carl_simpl. eexists _, _, _. split_and!; [done|done|done|lia|lia].
  - intros (row & json & previous & -> & Hj & Hp & Hc & Hle). cbn [ok_or mbind result_bind].
    rewrite Hj. cbn [ok_or mbind result_bind]. rewrite Hp. cbn [ok_or mbind result_bind]. unfold checked_add.
    rewrite (proj2 (Z.leb_le _ _)) by lia. simpl. by rewrite Hc.
Qed.

Lemma compared_spec c scan v :
  check_against_journal c scan v = Ok tt <->
  safe_boundary v.(va_task_snapshot) /\ c.(ck_contract) = v.(va_task_snapshot).(contract)
  /\ c.(provider).(pv_context_id) = v.(va_task_snapshot).(provider_context)
  /\ (c.(provider).(pv_provider) = lit "codex" /\ c.(provider).(pv_model) = v.(va_configuration).(tc_active_model)
      /\ c.(provider).(pv_effort) = as_codex_value v.(va_configuration).(tc_active_effort))
  /\ (c.(provider).(observed_total_tokens) = scan.(sc_total_tokens)
      /\ c.(provider).(observed_context_window) = scan.(sc_context_window))
  /\ sort_by_key (fun entry : OperationEntry => entry.1.1.1.1) (checkpoint_entry <$> c.(ck_operations))
     = journal_entry <$> btree_iter scan.(sc_operations).
Proof.
  unfold check_against_journal, safe_boundary. rewrite !bind_reject, reject_ok.
  rewrite !orb_false_iff, !negb_false_iff, !bool_decide_eq_true, has_unresolved_false.
  destruct (active_epoch _); simpl; split; intros Hx; destruct_and! Hx; split_and!; done.
Qed.

(** The long way accepts the acceptable checkpoints. *)
Lemma validate_commit_spec js db current cfg input r :
  store_ok js db -> payload_ok db -> load_task_record db input.(nc_task_id) = Ok (Some current) ->
  load_task_configuration_record db input.(nc_task_id) = Ok (Some cfg) ->
  input.(nc_checkpoint).(ck_task_id) = input.(nc_task_id) ->
  validate_commit db current input None = Ok r <->
  r = (current, {| va_task_snapshot := current.(snapshot); va_configuration := cfg |})
  /\ acceptable db (of_task input.(nc_task_id) js) current.(snapshot) cfg input.(nc_checkpoint).
Proof.
  intros Hok Hp Hload Hcfg Hc.
  destruct (loaded_configuration js db _ current Hok Hload) as (cfg' & _ & _ & _ & Hh & _).
  rewrite (validate_commit_full js db current input cfg) by done. rewrite (history_accepts js), (full_accepts js) by done.
  rewrite Hc, (scan_history _ _ Hh). destruct r as [r1 r2]. simpl. split.
  - intros (-> & (Hs & He & Hprev) & scan & [= <-] & _ & -> & Hck & Hg).
    apply compared_spec in Hck as (? & ? & ? & ? & ? & ?). apply expected_generation_spec in Hg. by split; [|constructor].
  - intros [[= -> ->] [Hs He Hprev Hg Hb Hct Hctx Hpv Hu Ho]]. split_and!; try done. eexists. split_and!; [done|done|done| |].
    + apply compared_spec. split; [exact Hb|]. by repeat split; try apply Hpv; try apply Hu.
    + by apply expected_generation_spec.
Qed.

(** ** Worlds *)

Record world_ok (js : list EventEnvelope) (w : World) : Prop := {
  wo_store : store_ok js w.(w_database);
  wo_payload : payload_ok w.(w_database);
  wo_remembered : forall n remembered t a, w.(w_stores) !! n = Some remembered -> remembered !! t = Some a ->
    authority_sound js w.(w_database) a
}.

Lemma world_advanced js w db' :
  world_ok js w -> advanced js w.(w_database) db' ->
  exists js', world_ok js' {| w_database := db'; w_stores := w.(w_stores) |}.
Proof.
  intros [Hok Hp Hr] (js' & Hok' & Hp' & Hpre & Hsub). exists js'. constructor; [done|done|].
  intros n remembered t a Hn Ha. by eapply authority_sound_later; [by eapply Hr|..].
Qed.

Lemma world_remembered js w n remembered t : 
  world_ok js w -> w.(w_stores) !! n = Some remembered -> remembers js w.(w_database) (remembered !! t).
Proof. intros Hw Hn a Ha. by eapply wo_remembered. Qed.

Lemma commit_world js w n remembered version input expected id db' remembered' outcome :
  world_ok js w -> w.(w_stores) !! n = Some remembered ->
  store_commit_checkpoint remembered version input expected id w.(w_database) = (db', remembered', outcome) ->
  exists js', world_ok js' {| w_database := db'; w_stores := <[n := remembered']> w.(w_stores) |}.
Proof.
  intros Hw Hn Hc. pose proof Hw as [Hok Hp Hr]. unfold store_commit_checkpoint, transaction in Hc.
  destruct (commit_checkpoint _ _ _ _ _ _) as [[db1 [[record a]|]]|e] eqn:Hcommit; cbn in Hc; injection Hc as <- <- _.
  - destruct (commit_advanced js _ _ _ _ _ _ _ _ _ Hok Hp (world_remembered js w n remembered _ Hw Hn) Hcommit)
      as (js' & Hok' & Hp' & Hpre & Hsub & Ha). exists js'. constructor; [done|done|].
    intros n' rem t a' Hn' Ha'. cbn in *. apply lookup_insert_Some in Hn' as [[-> <-]|[_ Hn']].
    + apply lookup_insert_Some in Ha' as [[_ <-]|[_ Ha']]; [done|].
      eapply authority_sound_later; [by eapply Hr|done|done].
    + eapply authority_sound_later; [by eapply Hr|done|done].
  - pose proof (commit_kept js _ _ _ _ _ _ _ _ Hok Hcommit) as ->. exists js. rewrite insert_id by done. by constructor.
  - exists js. rewrite insert_id by done. by constructor.
Qed.

(** *** What cannot be undone *)

Lemma connection_grown w w' : connection_step w w' -> grown w.(w_database) w'.(w_database).
Proof.
  destruct 1 as [n records Ho|n|n rem db' Hn Hplain|n rem t expected ev now id Hn Hmod
    |n rem version input expected id db' rem' out Hn Hc]; try apply grown_refl; cbn.
  - by eapply plain_grows, grown_refl.
  - apply transaction_grows; [apply append_task_event_grows|apply grown_refl].
  - unfold store_commit_checkpoint in Hc.
    pose proof (transaction_grows w.(w_database) (commit_checkpoint (rem !! input.(nc_task_id)) version input expected id)
      w.(w_database) (commit_grows _ _ _ _ _ _) (grown_refl _)) as Hg.
    destruct (transaction _ _) as [db1 o]. by repeat case_match; simplify_eq.
Qed.

Lemma payload_atomic db : payload_ok db -> packages_atomic db.
Proof.
  intros Hp id row pid package Hr Hk Hj [json Hjson]. pose proof (po_valid _ Hp id row Hr) as Hv.
  unfold payload_valid in Hv. rewrite Hjson in Hv. destruct Hv as [_ Hv]. destruct (Hv pid package Hk Hj) as (text & -> & _). done.
Qed.

(** An event that leaves [packages_atomic] was one that does. *)
Lemma appended_atomic js db db' t expected ev now id o :
  store_ok js db -> append_task_event t expected ev now id db = Ok (db', o) ->
  packages_atomic db' -> o = None /\ db' = db \/ compaction_atomic db ev.
Proof.
  intros Hok Ha Hat. unfold append_task_event in Ha. tx_simpl.
  match goal with H : expected_task _ _ _ = Ok _ |- _ => apply expected_task_ok in H as [-> He] end.
  destruct (load_task_record db t) as [[r|]|] eqn:Hl; [|subst; tx_simpl; by left|done].
  destruct (_ =? _) in He; subst; tx_simpl; [|by left]. right.
  match goal with Ha : append_event_in_transaction _ _ _ _ _ _ = Ok (_, ?env), Hc : apply_task_child_projection _ _ _ = Ok _,
    Hu : update_task_projection _ _ _ = Ok _ |- _ =>
    apply append_event_inv in Ha as (? & ? & _ & Henv & _ & _ & ->);
    assert (env.(event) = Event.TaskLifecycle t ev) as Hev by (by rewrite Henv);
    pose proof (child_projection_payload t env ev _ _ _ Hev Hc) as [Hart Heff];
    unfold update_task_projection in Hu end. tx_simpl.
  eapply (effect_atomic (uuid_to_string t)); [|exact Hat]. by split.
Qed.

Lemma connection_kept js w w' :
  world_ok js w -> connection_step w w' -> packages_atomic w'.(w_database) -> exists js', world_ok js' w'.
Proof.
  intros Hw Hstep Hat. pose proof Hw as [Hok Hp Hr]. destruct Hstep as [n records Ho|n|n rem db' Hn Hplain
    |n rem t expected ev now id Hn Hmod|n rem version input expected id db' rem' out Hn Hc].
  - exists js. constructor; [done|done|]. cbn. intros n' rem t a [[_ <-]|[_ Hn]]%lookup_insert_Some; [done|by eapply Hr].
  - exists js. constructor; [done|done|]. cbn. intros n' rem t a [_ Hn]%lookup_delete_Some. by eapply Hr.
  - eapply world_advanced; [done|]. by eapply plain_advanced.
  - eapply world_advanced; [done|]. cbn in Hat. unfold transaction in *.
    destruct (append_task_event _ _ _ _ _ _) as [[db' o]|e] eqn:Ha; [|by apply advanced_refl]. cbn in *.
    destruct (appended_atomic js _ _ _ _ _ _ _ _ Hok Ha Hat) as [[_ ->]|Hcompact]; [by apply advanced_refl|].
    by eapply append_task_event_advanced.
  - by eapply commit_world.
Qed.

Lemma connected_ok w : connected w -> packages_atomic w.(w_database) -> exists js, world_ok js w.
Proof.
  intros Hw. pattern w. revert w Hw. apply rtc_ind_r; [|intros w w' _ Hs IH]; intros Hat.
  - exists []. constructor; [apply store_ok_empty|apply payload_ok_empty|done].
  - destruct IH as [js Hjs]; [by eapply grown_atomic, Hat; eapply connection_grown|]. by eapply connection_kept.
Qed.

(** *** Which stores open *)

Lemma payloads_atomic db : validate_task_canonical_payloads db = Ok tt -> packages_atomic db.
Proof.
  unfold validate_task_canonical_payloads, validate_task_canonical_payloads_filtered.
  rewrite try_for_each_ok, Forall_forall. intros Hall id row pid package Hrow Hk Hj [json Hjson].
  specialize (Hall (id, row, Some (pid, package))). unfold payload_rows, sort_by_key in Hall.
  rewrite sort_by_perm, list_elem_of_filter, elem_of_joined in Hall. unfold payload_selected in Hall. cbn in Hall.
  rewrite Hjson in Hall. destruct (package_json package) as [text|]; [done|]. by discriminate Hall.
Qed.

Lemma open_store_atomic db records : open_store db = Ok records -> packages_atomic db.
Proof. unfold open_store. intros Ho. carl_simpl. by apply payloads_atomic. Qed.

Lemma opened_ok w records : connected w -> open_store w.(w_database) = Ok records -> exists js, world_ok js w.
Proof. intros Hw Ho. eapply connected_ok; [done|by eapply open_store_atomic]. Qed.

Lemma connected_opens w :
  connected w -> packages_atomic w.(w_database) -> exists records, open_store w.(w_database) = Ok records.
Proof.
  intros Hw Hat. destruct (connected_ok w Hw Hat) as [js [Hok Hp _]].
  destruct (visit_ok js _ Hok) as (records & Hv & _). exists records.
  unfold open_store. rewrite Hv. simpl. unfold validate_task_canonical_payloads. by rewrite payloads_accepted.
Qed.

(** ** Committing and the long way *)

Lemma commit_bind_iff {A B : Type} (tx : Tx A) (k k' : A -> Tx B) db x :
  (forall db1 a, tx db = Ok (db1, a) -> k a db1 = Ok x <-> k' a db1 = Ok x) ->
  (tx ≫= k) db = Ok x <-> (tx ≫= k') db = Ok x.
Proof. unfold mbind, tx_bind. destruct (tx db) as [[db1 a]|e]; [|done]. intros Hk. by apply Hk. Qed.

(** The whole transaction, with and without what is remembered. *)
Lemma commit_exact js db cached version input expected id x :
  store_ok js db -> payload_ok db -> remembers js db cached ->
  commit_checkpoint cached version input expected id db = Ok x <->
  commit_checkpoint None version input expected id db = Ok x.
Proof.
  intros Hok Hp Hr. unfold commit_checkpoint. apply commit_bind_iff. intros db1 [] [Hin ->]%from_ok.
  do 4 (apply commit_bind_iff; intros ? ? [_ ->]%from_ok). apply commit_bind_iff. intros db2 o [-> Ho]%expected_task_ok.
  destruct o as [current|]; [|done].
  assert (load_task_record db input.(nc_task_id) = Ok (Some current)) as Hload.
  { destruct (load_task_record db _) as [[r|]|]; [|done|done]. destruct (_ =? _); by simplify_eq. }
  assert (input.(nc_checkpoint).(ck_task_id) = input.(nc_task_id)) as Hc.
  { unfold validate_checkpoint_input in Hin. apply bind_ok in Hin as ([] & Hm%reject_ok & _).
    rewrite !orb_false_iff, !negb_false_iff, !Z.eqb_eq in Hm. apply Hm. }
  destruct x as [db' o]. rewrite !tx_bind_ok.
  split; intros (db1 & r & [Hv ->]%query_ok & Hk); exists db, r; (split; [|done]); apply query_ok;
    (split; [|done]); by apply (validate_commit_exact js db current input version cached r Hok Hp Hload Hc Hr).
Qed.

(** *** The whole commit *)

(** The texts under which a checkpoint and its package are stored. *)
Definition stored_texts (input : NewCheckpoint) (json text : str) : Prop :=
  validate_checkpoint_input input = Ok tt
  /\ (exists b, stored_checkpoint_bytes input.(nc_checkpoint) = Ok b /\ from_utf8 b = Some json)
  /\ (exists b, stored_package_bytes input.(nc_context_package) = Ok b /\ from_utf8 b = Some text).

Lemma texts_task input json text : stored_texts input json text -> input.(nc_checkpoint).(ck_task_id) = input.(nc_task_id).
Proof.
  intros [Hin _]. unfold validate_checkpoint_input in Hin. apply bind_ok in Hin as ([] & Hm%reject_ok & _).
  rewrite !orb_false_iff, !negb_false_iff, !Z.eqb_eq in Hm. apply Hm.
Qed.

Lemma from_bind {A B} (r : result CarlError A) (k : A -> Tx B) db a x :
  r = Ok a -> k a db = x -> (from r ≫= k) db = x.
Proof. by intros -> <-. Qed.

Lemma commit_iff cached version input expected id db db' record a :
  commit_checkpoint cached version input expected id db = Ok (db', Some (record, a)) <->
  exists json text current current' validated,
    stored_texts input json text
    /\ load_task_record db input.(nc_task_id) = Ok (Some current) /\ current.(tk_revision) = expected
    /\ validate_commit db current input (incremental_anchor db current version cached) = Ok (current', validated)
    /\ validate_checkpoint_artifacts db input.(nc_checkpoint) = Ok tt
    /\ write_checkpoint current' input json text id db = Ok (db', tt)
    /\ record = {| cd_checkpoint := input.(nc_checkpoint); cd_checkpoint_digest := input.(nc_checkpoint_digest);
                   cd_context_package_digest := input.(nc_context_package_digest);
                   cd_created_at := input.(nc_created_at) |}
    /\ a = new_authority input validated version.
Proof.
  unfold commit_checkpoint, stored_texts. split.
  - intros Hc. tx_simpl. match goal with H : expected_task _ _ _ = Ok _ |- _ => apply expected_task_ok in H as [-> He] end.
    destruct (load_task_record db _) as [[r|]|] eqn:Hl; [|subst; by tx_simpl|done].
    destruct (_ =? _) eqn:Hrev in He; subst; [|by tx_simpl]. tx_simpl. case_match. tx_simpl.
    apply Z.eqb_eq in Hrev. eexists _, _, r, _, _. split_and!; eauto.
  - intros (json & text & current & current' & validated & (Hin & (b & Hb & Hj) & pb & Hpb & Ht) & Hl & Hrev & Hv & Hart & Hw & -> & ->).
    eapply from_bind; [exact Hin|]. eapply from_bind; [by rewrite Hb|]. eapply from_bind; [by rewrite Hj|].
    eapply from_bind; [by rewrite Hpb|]. eapply from_bind; [by rewrite Ht|].
    apply tx_bind_ok. exists db, (Some current). split; [apply expected_task_ok; rewrite Hl, (proj2 (Z.eqb_eq _ _) Hrev); done|].
    apply tx_bind_ok. exists db, (current', validated). split; [by apply query_ok|].
    apply tx_bind_ok. exists db, tt. split; [by apply query_ok|]. apply tx_bind_ok. by exists db', tt.
Qed.

(** ** Theorems *)


(** C8: what a connection remembers never changes what it accepts, as long as the store
    opens.  Committing a checkpoint with the authority the connection remembers (only the
    events since the remembered checkpoint are read) and committing it with nothing
    remembered (the whole journal and every stored checkpoint are read) succeed together,
    with the same database, the same record and the same authority to remember. *)
Theorem remembered_exact w records n remembered version input expected id x :
  connected w -> open_store w.(w_database) = Ok records -> w.(w_stores) !! n = Some remembered ->
  commit_checkpoint (remembered !! input.(nc_task_id)) version input expected id w.(w_database) = Ok x <->
  commit_checkpoint None version input expected id w.(w_database) = Ok x.
Proof.
  intros Hc Ho Hn. destruct (opened_ok w records Hc Ho) as [js Hw].
  apply (commit_exact js); [apply Hw|apply Hw|by eapply world_remembered].
Qed.

(** C7: as long as the store opens, a connection accepts exactly the checkpoints that
    describe the task.  Whatever the connection remembers, a commit writes a checkpoint
    if and only if checkpoint and package are canonical, with the digests that are given;
    the task is stored, at the expected revision; the checkpoint is [acceptable] for the
    journal and the configuration of the task: its range is the whole journal, its
    predecessor and its generation are those of the latest checkpoint, the task is at a
    safe boundary, and contract, context, model, effort, usage and operations are those
    of the journal; the artifacts it names are registered; and the event and the rows can
    be written. *)
Theorem commit_accepts_exactly w records n remembered version input expected id :
  connected w -> open_store w.(w_database) = Ok records -> w.(w_stores) !! n = Some remembered ->
  (exists db' record a,
     commit_checkpoint (remembered !! input.(nc_task_id)) version input expected id w.(w_database)
     = Ok (db', Some (record, a))) <->
  exists json text current cfg es,
    stored_texts input json text
    /\ load_task_record w.(w_database) input.(nc_task_id) = Ok (Some current) /\ current.(tk_revision) = expected
    /\ load_task_configuration_record w.(w_database) input.(nc_task_id) = Ok (Some cfg)
    /\ read_task_events w.(w_database) input.(nc_task_id) = Ok es /\ replay es = Ok (Some current.(snapshot))
    /\ acceptable w.(w_database) es current.(snapshot) cfg input.(nc_checkpoint)
    /\ validate_checkpoint_artifacts w.(w_database) input.(nc_checkpoint) = Ok tt
    /\ exists db', write_checkpoint current input json text id w.(w_database) = Ok (db', tt).
Proof.
  intros Hc Ho Hn. destruct (opened_ok w records Hc Ho) as [js Hw]. pose proof Hw as [Hok Hp Hr].
  assert (forall current r json text, stored_texts input json text ->
    load_task_record w.(w_database) input.(nc_task_id) = Ok (Some current) ->
    exists cfg, load_task_configuration_record w.(w_database) input.(nc_task_id) = Ok (Some cfg)
      /\ replay (of_task input.(nc_task_id) js) = Ok (Some current.(snapshot))
      /\ (validate_commit w.(w_database) current input
            (incremental_anchor w.(w_database) current version (remembered !! input.(nc_task_id))) = Ok r <->
          r = (current, {| va_task_snapshot := current.(snapshot); va_configuration := cfg |})
          /\ acceptable w.(w_database) (of_task input.(nc_task_id) js) current.(snapshot) cfg input.(nc_checkpoint))) as Hval.
  { intros current r json text Hin Hload. destruct (loaded_configuration js _ _ current Hok Hload) as (cfg & _ & Hcfg & _ & Hh & _).
    exists cfg. split; [done|]. split; [by apply history_iff_replay in Hh as [? _]|].
    assert (input.(nc_checkpoint).(ck_task_id) = input.(nc_task_id)) as Ht by (by eapply texts_task).
    rewrite <-(validate_commit_spec js _ current cfg input r) by done.
    apply (validate_commit_exact js); try done. by eapply world_remembered. }
  split.
  - intros (db' & record & a & Hcommit). apply commit_iff in Hcommit
      as (json & text & current & current' & v & Hin & Hl & Hrev & Hv & Hart & Hwr & _).
    destruct (Hval current (current', v) json text Hin Hl) as (cfg & Hcfg & Hrep & Hiff).
    apply Hiff in Hv as [[= -> ->] Hacc]. exists json, text, current, cfg, (of_task input.(nc_task_id) js).
    split_and!; try done; [by apply read_exact|by exists db'].
  - intros (json & text & current & cfg & es & Hin & Hl & Hrev & Hcfg & Hread & _ & Hacc & Hart & db' & Hwr).
    rewrite (read_exact js _ _ Hok) in Hread. injection Hread as <-.
    destruct (Hval current (current, {| va_task_snapshot := current.(snapshot); va_configuration := cfg |}) json text Hin Hl)
      as (cfg' & Hcfg' & _ & Hiff). rewrite Hcfg in Hcfg'. injection Hcfg' as <-.
    eexists db', _, _. apply commit_iff. eexists json, text, current, current, _. split_and!; try done. by apply Hiff.
Qed.

End Connect.
