(* ===== verification/StoreExample.v ===== *)
(** * A store at work

    The parameters of [Database] instantiated with functions that obey their laws, and
    a run over them: a task is created and works until its process dies with an
    operation started. *)
From stdpp Require Import base gmap sets list sorting strings relations.
From S2P Require Import Prelude Ord Text Settings Policy TaskTypes Events Reducer Journal Metrics SecretFilter Checkpoint Context Database TaskStore StoreCheckpoint StoreJournal StoreAuthority StoreOps.
From Stdlib Require Import ZArith Lia.
#[local] Open Scope list_scope.
#[local] Open Scope Z_scope.

(** ** Texts by position

    A value is written as its position in a table of all the values of a run. *)

Definition encode {A : Type} `{EqDecision A} (table : list A) (a : A) : option str :=
  (fun '(i, _) => [123; 48 + Z.of_nat i; 125]) <$> list_find (eq a) table.
Definition decode {A : Type} (table : list A) (s : str) : option A :=
  match s with [_; i; _] => table !! Z.to_nat (i - 48) | _ => None end.

Lemma decode_encode {A : Type} `{EqDecision A} (table : list A) a s :
  encode table a = Some s -> decode table s = Some a.
Proof.
  unfold encode. intros ([i b] & Hf & ->)%fmap_Some. apply list_find_Some in Hf as (Hi & <- & _).
  unfold decode. by rewrite Z.add_simpl_l, Nat2Z.id.
Qed.

#[local] Instance EpochInterruptReason_eq_dec : EqDecision EpochInterruptReason.
Proof. solve_decision. Defined.
#[local] Instance ProviderRequestPurpose_eq_dec : EqDecision ProviderRequestPurpose.
Proof. solve_decision. Defined.
#[local] Instance NormalizedOperationEvidence_eq_dec : EqDecision NormalizedOperationEvidence.
Proof. solve_decision. Defined.
#[local] Instance TaskEvent_eq_dec : EqDecision TaskEvent.
Proof. solve_decision. Defined.

(** ** The parameters *)

#[local] Instance example_uuids : Uuids := {
  uuid_to_string u := u :: replicate 35 48;
  uuid_parse s := match s with u :: _ => Some u | [] => None end
}.

#[local] Instance example_chrono : Chrono := {
  to_rfc3339 t := [84; t];
  parse_from_rfc3339 s := match s with [_; t] => Some t | _ => None end
}.

Definition example_result : str := example_digest.

(** The events of the run, with what recovery adds. *)
Definition run_events : list TaskEvent :=
  omap (fun e => match e.(event) with Event.TaskLifecycle _ ev => Some ev | _ => None end)
    (take 5 example_journal)
  ++ [TaskEvent.OperationEvidenceRecorded 21 example_result;
      TaskEvent.OperationTransitioned 21 OperationStatus.Started OperationStatus.Uncertain [6]].

Definition run_journal : list EventEnvelope := imap (fun i ev => task_event (Z.of_nat (S i)) ev) run_events.

(** The events of a run with two checkpoints, numbered 31 and 32. *)
Definition stored_digest : str := Sha256Digest_display (example_sha256 []).
Definition work_events : list TaskEvent :=
  omap (fun e => match e.(event) with Event.TaskLifecycle _ ev => Some ev | _ => None end)
    (take 8 example_journal)
  ++ [TaskEvent.CheckpointCommitted 31 stored_digest;
      TaskEvent.ContractRevised (example_contract 2 ClauseStatus.Satisfied
        [{| event_sequence := 6; artifact_digest := None; er_operation_id := Some 21 |}]);
      TaskEvent.CheckpointCommitted 32 stored_digest;
      TaskEvent.CompactionCompleted 9 32 77].
Definition work_journal : list EventEnvelope := imap (fun i ev => task_event (Z.of_nat (S i)) ev) work_events.

Definition snapshots_of (journal : list EventEnvelope) : list TaskSnapshot :=
  omap (fun n => match replay (take n journal) with Ok (Some st) => Some st | _ => None end)
    (seq 1 (length journal)).

(** Everything that is written. *)
Definition all_events : list TaskEvent := run_events ++ work_events.
Definition all_snapshots : list TaskSnapshot := snapshots_of run_journal ++ snapshots_of work_journal.

Definition work_snapshot (n : nat) : TaskSnapshot :=
  default (example_snapshot 8) (snapshots_of work_journal !! pred n).

Definition second_input : CheckpointBuildInput :=
  let first := example_input 8 [] 1 (Some example_checkpoint) in
  {| bi_checkpoint_id := 32; bi_snapshot := work_snapshot 10; bi_events := drop 8 (take 10 work_journal);
     bi_completed_work := first.(bi_completed_work); bi_decisions := first.(bi_decisions);
     bi_exact_identifiers := first.(bi_exact_identifiers);
     bi_required_identifiers := first.(bi_required_identifiers);
     bi_repository := first.(bi_repository); bi_running_processes := [];
     bi_pending_approval_digests := []; bi_pending_steering_digests := [];
     bi_uncertain_delivery_digests := []; bi_next_objective := lit "finish"; bi_blockers := [];
     bi_provider := example_provider; bi_compaction_generation := 1;
     bi_previous_checkpoint := Some example_checkpoint; bi_artifact_contents := ∅;
     bi_model_narrative := None |}.
Definition second_checkpoint : CanonicalCheckpoint :=
  built_or example_checkpoint (build example_sha256 example_to_vec second_input).

Definition second_package : ContextPackage :=
  let first := example_package 1000 [] in
  {| cp_schema_version := first.(cp_schema_version); package_id := 42; cp_checkpoint_id := 32;
     rendered := first.(rendered); ledger := first.(ledger);
     cp_source_sequence_start := 1; cp_source_sequence_end := 10 |}.

(** The texts of a run that writes these events and these snapshots. *)
Section Tables.
Context (events : list TaskEvent) (snapshots : list TaskSnapshot).

Definition table_serde : Serde := {|
  Json := Z * TaskEvent;
  event_to_string w :=
    match w.(ve_payload) with
    | EventRef.TaskLifecycle t ev =>
        if w.(ve_schema_version) =? EVENT_SCHEMA_VERSION then cons t <$> encode events ev else None
    | _ => None
    end;
  value_from_str s :=
    match s with t :: s => pair t <$> decode events s | [] => None end;
  value_schema_version v := Some EVENT_SCHEMA_VERSION;
  read_version v := Ok EVENT_SCHEMA_VERSION;
  read_v1 v := Err []; read_v2 v := Err []; read_v3 v := Err [];
  read_v4 v := Ok (EventPayloadV4.TaskLifecycle v.1 v.2);
  snapshot_to_string := encode snapshots; snapshot_from_str := decode snapshots;
  contract_to_string := encode (contract <$> snapshots);
  contract_from_str := decode (contract <$> snapshots);
  budget_to_string := encode (budget <$> snapshots); budget_from_str := decode (budget <$> snapshots);
  sequences_to_string _ := Some (lit "[]")
|}.
#[local] Existing Instance table_serde.

Definition table_sqlite : SqliteJson := {|
  json_task_id s := match value_from_str s with Some v => Some (uuid_to_string v.1) | None => None end;
  json_is_object _ := true;
  json_is_array _ := true
|}.
#[local] Existing Instance table_sqlite.

Lemma table_event_read w s :
  event_to_string w = Some s ->
  exists t ev, w = {| ve_schema_version := EVENT_SCHEMA_VERSION; ve_payload := EventRef.TaskLifecycle t ev |}
    /\ value_from_str s = Some (t, ev).
Proof.
  destruct w as [v p]. cbn [event_to_string table_serde ve_payload ve_schema_version value_from_str].
  destruct p as [| | | | | | | | | | | | | | | |t ev]; try done.
  destruct (v =? EVENT_SCHEMA_VERSION) eqn:Hv; [|done]. apply Z.eqb_eq in Hv as ->.
  intros (k & Hk & ->)%fmap_Some. exists t, ev. by rewrite (decode_encode _ _ _ Hk).
Qed.

Lemma table_serde_laws : SerdeLaws.
Proof.
  constructor; [|apply decode_encode..].
  intros w s (t & ev & -> & Hs)%table_event_read. exists (t, ev). by split_and!.
Qed.

Lemma table_sqlite_laws : SqliteJsonLaws.
Proof.
  constructor. intros w s (t & ev & -> & Hs)%table_event_read.
  unfold json_task_id, table_sqlite. by rewrite Hs.
Qed.

#[local] Instance ContextLedgerEntry_eq_dec : EqDecision ContextLedgerEntry.
Proof. solve_decision. Defined.
#[local] Instance ContextPackage_eq_dec : EqDecision ContextPackage.
Proof. solve_decision. Defined.

Context (c1 c2 : CanonicalCheckpoint) (p1 p2 : ContextPackage).

Definition table_checkpoints : CheckpointJson := {|
  store_sha256 := example_sha256;
  checkpoint_to_vec := encode [c1; c2];
  checkpoint_from_str := decode [c1; c2];
  store_package_to_vec := encode [p1; p2];
  package_from_str := decode [p1; p2];
  json_checkpoint_committed s :=
    match value_from_str s with
    | Some (_, TaskEvent.CheckpointCommitted c digest) => Some (uuid_to_string c, digest)
    | _ => None
    end
|}.
#[local] Existing Instance table_checkpoints.

(** A text of a short table is its own UTF-8. *)
Lemma decode_utf8 {A : Type} `{EqDecision A} (x y : A) a b s :
  encode [x; y] a = Some b -> from_utf8 b = Some s -> decode [x; y] s = Some a.
Proof.
  intros He Hs. enough (s = b) as -> by (by apply decode_encode).
  unfold encode in He. apply fmap_Some in He as ([i c] & (Hi & _)%list_find_Some & ->).
  destruct i as [|[|i]]; [..|done]; by injection Hs as <-.
Qed.

Lemma table_checkpoint_laws : CheckpointJsonLaws.
Proof.
  constructor; [intros ? ? ?; apply decode_utf8..|].
  intros w s (t & ev & -> & Hs)%table_event_read. unfold json_checkpoint_committed, table_checkpoints.
  rewrite Hs. by destruct ev.
Qed.
End Tables.

#[local] Instance example_serde : Serde := table_serde all_events all_snapshots.
#[local] Instance example_sqlite : SqliteJson := table_sqlite all_events all_snapshots.
#[local] Instance example_checkpoint_json : CheckpointJson :=
  table_checkpoints all_events all_snapshots example_checkpoint second_checkpoint (example_package 1000 []) second_package.

#[local] Instance example_uuid_laws : UuidLaws.
Proof. by constructor. Qed.
#[local] Instance example_chrono_laws : ChronoLaws.
Proof. by constructor. Qed.
#[local] Instance example_serde_laws : SerdeLaws := table_serde_laws _ _.
#[local] Instance example_sqlite_laws : SqliteJsonLaws := table_sqlite_laws _ _.
#[local] Instance example_checkpoint_laws : CheckpointJsonLaws := table_checkpoint_laws _ _ _ _ _ _.

(** ** The run *)

Definition example_canonicalize (p : PathBuf) : option PathBuf := Some p.
Definition example_is_dir (p : PathBuf) : bool := true.

Definition example_task : NewTask :=
  {| nt_session_id := 5; nt_workspace := utf8 (lit "/work");
     nt_contract := example_contract 1 ClauseStatus.Pending []; nt_model := lit "model";
     nt_effort := ReasoningEffort.High; nt_permission_mode := PermissionMode.Default;
     nt_budget := TaskBudget_default; nt_created_at := 1 |}.

Definition example_opened : Database := (transaction (create_session 5 1) empty_database).1.
Definition example_create : Database -> Database * result CarlError TaskRecord :=
  transaction (create_task_idempotent example_canonicalize example_is_dir example_task (lit "key")
    (replicate 32 0) 7 1001).
Definition example_append (n : Z) (ev : TaskEvent) : Database -> Database * result CarlError (option TaskRecord) :=
  transaction (append_task_event 7 (n - 1) ev n (1000 + n)).

(** The database after the first [n] events of the task. *)
Fixpoint example_database (n : nat) : Database :=
  match n with
  | O => example_opened
  | S O => (example_create example_opened).1
  | S n' =>
      match run_events !! n' with
      | Some ev => (example_append (Z.of_nat n) ev (example_database n')).1
      | None => example_database n'
      end
  end.

Lemma example_models_ok : Forall models_ok run_events.
Proof. repeat (constructor; [vm_compute; done|]). constructor. Qed.

Lemma example_reachable n : reachable (example_database n).
Proof.
  induction n as [|[|n] IH].
  - apply rtc_once, step_plain, step_create_session.
  - eapply rtc_r; [exact IH|]. apply step_plain, step_create_task_idempotent. vm_compute. done.
  - change (example_database (S (S n))) with
      (match run_events !! S n with
       | Some ev => (example_append (Z.of_nat (S (S n))) ev (example_database (S n))).1
       | None => example_database (S n)
       end). destruct (run_events !! S n) as [ev|] eqn:Hev; [|exact IH].
    eapply rtc_r; [exact IH|]. apply step_append_task_event.
    pose proof example_models_ok as Hm. rewrite Forall_forall in Hm. apply Hm. by apply list_elem_of_lookup_2 with (S n).
Qed.

(** ** The theorems at work *)

Definition example_fresh (db : Database) : EventId := 2000 + Z.of_nat (length db.(events)).

Lemma store_always_opens_witness :
  exists records, visit_authoritative_task_records (example_database 5) = Ok records
    /\ NoDup (task_id ∘ snapshot <$> records)
    /\ (forall t record, load_task_record (example_database 5) t = Ok (Some record)
                         <-> record ∈ records /\ record.(snapshot).(task_id) = t)
    /\ (forall t record, load_task_record (example_database 5) t = Ok (Some record) ->
          exists es cfg, validate_task_authority_from_journal (example_database 5) t = Ok (record, cfg)
            /\ read_task_events (example_database 5) t = Ok es /\ replay es = Ok (Some record.(snapshot))).
Proof. apply (store_always_opens (example_database 5)), example_reachable. Defined.

Lemma writers_serialize_witness :
  exists db' record,
    transaction (append_task_event 7 4 (TaskEvent.OperationTransitioned 21 OperationStatus.IntentRecorded
      OperationStatus.Started []) 5 1005) (example_database 4) = (db', Ok (Some record))
    /\ record.(tk_revision) = 5
    /\ forall ev' now' id', transaction (append_task_event 7 4 ev' now' id') db' = (db', Ok None).
Proof.
  pose proof (writers_serialize (example_database 4) 7 4 (TaskEvent.OperationTransitioned 21
    OperationStatus.IntentRecorded OperationStatus.Started []) 5 1005 (example_reachable 4) I) as Hw.
  destruct (transaction _ (example_database 4)) as [db' outcome] eqn:Ht.
  assert (match outcome with Ok (Some _) => true | _ => false end = true) as Ho.
  { change outcome with (db', outcome).2. rewrite <-Ht. vm_compute. reflexivity. }
  destruct outcome as [[record|]|]; [|discriminate Ho|discriminate Ho]. destruct Hw as [(current & es & env & _ & _ & _ & Hr & _) Hstale].
  exists db', record. split; [reflexivity|]. split; [exact Hr|exact Hstale].
Defined.

Lemma recovery_settles_witness :
  exists db' records,
    transaction (reconcile_abandoned_task_operations example_result 6 example_fresh None)
      (example_database 5) = (db', Ok records)
    /\ forall record, record ∈ records ->
         validate_task_projection_from_journal db' record.(snapshot).(task_id) = Ok record
         /\ (TaskStatus_is_terminal record.(snapshot).(status) = true
             \/ started_operation_ids record.(snapshot) = []).
Proof.
  pose proof (recovery_settles (example_database 5) example_result 6 example_fresh (example_reachable 5)
    ltac:(vm_compute; reflexivity)) as Hw.
  destruct (transaction _ (example_database 5)) as [db' outcome] eqn:Ht.
  assert (match outcome with Ok _ => true | _ => false end = true) as Ho.
  { change outcome with (db', outcome).2. rewrite <-Ht. vm_compute. reflexivity. }
  destruct outcome as [records|]; [|discriminate Ho]. exists db', records. split; [reflexivity|exact (proj2 Hw)].
Defined.

Lemma stored_metrics_exact_witness :
  exists es, read_task_events (example_database 5) 7 = Ok es
    /\ task_metrics (example_database 5) 7
       = match load_task_record (example_database 5) 7 with
         | Ok (Some record) => Ok (Some (metrics_spec es record.(snapshot)))
         | _ => Ok None
         end.
Proof. apply (stored_metrics_exact (example_database 5) 7), example_reachable. Defined.

Definition example_slash_task : NewTask :=
  {| nt_session_id := 5; nt_workspace := utf8 (lit "/work");
     nt_contract := example_contract 1 ClauseStatus.Pending []; nt_model := lit "provider/model";
     nt_effort := ReasoningEffort.High; nt_permission_mode := PermissionMode.Default;
     nt_budget := TaskBudget_default; nt_created_at := 1 |}.

Lemma slash_model_never_stored_witness :
  ModelId_parse (lit "provider/model") = Ok (lit "provider/model")
  /\ (forall db' record, create_task example_canonicalize example_is_dir example_slash_task 7 1001 example_opened
        <> Ok (db', record))
  /\ (forall db' record, append_task_event 7 5
        (TaskEvent.ConfigurationQueued example_digest (lit "provider/model") ReasoningEffort.High
           PermissionMode.Default) 6 1001 example_opened <> Ok (db', Some record)).
Proof.
  split; [vm_compute; reflexivity|].
  apply (slash_model_never_stored example_canonicalize example_is_dir example_slash_task 7 5 1001 example_digest
    ReasoningEffort.High PermissionMode.Default 6 example_opened); [vm_compute; reflexivity|].
  apply contains_true. vm_compute. reflexivity.
Defined.
