(* ===== verification/ConnectExample.v ===== *)
(** * Connections at work

    The run of [StoreExample] with two checkpoints, committed by one of two
    connections. *)
From stdpp Require Import base gmap sets list sorting strings relations.
From S2P Require Import Prelude Ord Text Settings Policy TaskTypes Events Reducer Journal Metrics SecretFilter Checkpoint Context Database TaskStore StoreCheckpoint StoreJournal StoreAuthority StoreOps StorePayload StoreCommit StoreScan StoreAnchor StoreConnect StoreExample.
From Stdlib Require Import ZArith Lia.
#[local] Open Scope list_scope.
#[local] Open Scope Z_scope.
#[local] Existing Instances example_uuids example_chrono example_serde example_sqlite example_checkpoint_json.
#[local] Existing Instances example_uuid_laws example_chrono_laws example_serde_laws example_sqlite_laws example_checkpoint_laws.

(** ** The run *)

Definition opened_world : World :=
  {| w_database := empty_database; w_stores := <[0%nat := ∅]> (<[1%nat := ∅]> ∅) |}.

Definition with_database (db : Database) (w : World) : World :=
  {| w_database := db; w_stores := w.(w_stores) |}.

(** The world after the first [n] events of the task. *)
Fixpoint work_world (n : nat) : World :=
  match n with
  | O => with_database example_opened opened_world
  | S O => with_database (example_create example_opened).1 opened_world
  | S n' =>
      match work_events !! n' with
      | Some ev => with_database (example_append (Z.of_nat n) ev (work_world n').(w_database)).1 (work_world n')
      | None => work_world n'
      end
  end.

Definition first_commit : NewCheckpoint :=
  {| nc_task_id := 7; nc_checkpoint := example_checkpoint; nc_checkpoint_digest := stored_digest;
     nc_context_package := example_package 1000 []; nc_context_package_digest := stored_digest;
     nc_created_at := 9 |}.
Definition second_commit : NewCheckpoint :=
  {| nc_task_id := 7; nc_checkpoint := second_checkpoint; nc_checkpoint_digest := stored_digest;
     nc_context_package := second_package; nc_context_package_digest := stored_digest;
     nc_created_at := 11 |}.

(** Connection [n] commits. *)
Definition commit_by (n : nat) (input : NewCheckpoint) (expected : Z) (id : EventId) (w : World) : World :=
  match w.(w_stores) !! n with
  | Some remembered =>
      let '(db', remembered', _) := store_commit_checkpoint remembered 1 input expected id w.(w_database) in
      {| w_database := db'; w_stores := <[n := remembered']> w.(w_stores) |}
  | None => w
  end.

Definition first_world : World := commit_by 0 first_commit 8 1009 (work_world 8).
Definition revised_world : World :=
  with_database (example_append 10 (TaskEvent.ContractRevised (example_contract 2 ClauseStatus.Satisfied
    [{| event_sequence := 6; artifact_digest := None; er_operation_id := Some 21 |}]))
    first_world.(w_database)).1 first_world.
Definition second_world : World := commit_by 0 second_commit 10 1011 revised_world.
(** A compaction of the second checkpoint is completed with a package of its own. *)
Definition locked_world : World :=
  with_database (example_append 12 (TaskEvent.CompactionCompleted 9 32 77) second_world.(w_database)).1 second_world.

(** ** It is a run of the connections *)

Lemma opened_connected : connected opened_world.
Proof.
  set (w := {| w_database := empty_database; w_stores := <[1%nat := ∅]> ∅ |}).
  assert (connected w) as Hw by (apply rtc_once; by apply (connection_open empty_world 1%nat [])).
  eapply rtc_r; [exact Hw|]. by apply (connection_open w 0%nat []).
Qed.

Lemma write_connected w db' :
  connected w -> w.(w_stores) !! 0%nat = Some ∅ -> plain_step w.(w_database) db' -> connected (with_database db' w).
Proof. intros Hw Hn Hs. eapply rtc_r; [exact Hw|]. by eapply connection_write. Qed.

Lemma append_connected w n remembered k ev :
  connected w -> w.(w_stores) !! n = Some remembered -> models_ok ev ->
  connected (with_database (example_append k ev w.(w_database)).1 w).
Proof. intros Hw Hn Hm. eapply rtc_r; [exact Hw|]. by eapply connection_append. Qed.

Lemma commit_connected w n input expected id : connected w -> connected (commit_by n input expected id w).
Proof.
  intros Hw. unfold commit_by. destruct (w.(w_stores) !! n) as [remembered|] eqn:Hn; [|done].
  destruct (store_commit_checkpoint _ _ _ _ _ _) as [[db' remembered'] outcome] eqn:Hc.
  eapply rtc_r; [exact Hw|]. by eapply connection_commit.
Qed.

Lemma work_stores n : (work_world n).(w_stores) = opened_world.(w_stores).
Proof.
  induction n as [|[|n] IH]; [done|done|]. cbn [work_world] in *. by destruct (work_events !! S n).
Qed.

Lemma work_events_safe : Forall models_ok work_events.
Proof. repeat (constructor; [vm_compute; done|]). constructor. Qed.

Lemma work_connected n : connected (work_world n).
Proof.
  induction n as [|[|n] IH].
  - apply write_connected; [apply opened_connected|done|apply step_create_session].
  - change (work_world 1) with (with_database (example_create (work_world 0).(w_database)).1 (work_world 0)).
    apply write_connected; [exact IH|done|]. apply step_create_task_idempotent. vm_compute. done.
  - change (work_world (S (S n))) with
      (match work_events !! S n with
       | Some ev => with_database (example_append (Z.of_nat (S (S n))) ev (work_world (S n)).(w_database)).1 (work_world (S n))
       | None => work_world (S n)
       end). destruct (work_events !! S n) as [ev|] eqn:Hev; [|exact IH].
    pose proof (proj1 (Forall_lookup _ _) work_events_safe _ _ Hev) as Hm.
    apply (append_connected _ 0 ∅); [exact IH|by rewrite work_stores|exact Hm].
Qed.

Lemma first_connected : connected first_world.
Proof. apply commit_connected, work_connected. Qed.

Lemma commit_by_stores n input expected id w :
  (w.(w_stores) !! n <> None) -> (commit_by n input expected id w).(w_stores) !! n <> None.
Proof.
  unfold commit_by. destruct (w.(w_stores) !! n) as [remembered|] eqn:Hn; [|done]. intros _.
  destruct (store_commit_checkpoint _ _ _ _ _ _) as [[db' remembered'] outcome]. cbn. by rewrite lookup_insert_eq.
Qed.

Lemma revised_connected : connected revised_world.
Proof.
  assert (first_world.(w_stores) !! 0%nat <> None) as Hn.
  { apply commit_by_stores. rewrite work_stores. discriminate. }
  destruct (first_world.(w_stores) !! 0%nat) as [remembered|] eqn:Hr; [|destruct (Hn eq_refl)].
  apply (append_connected first_world 0 remembered); [exact first_connected|exact Hr|exact I].
Qed.

Lemma second_connected : connected second_world.
Proof. apply commit_connected, revised_connected. Qed.

(** ** The theorems at work *)


Lemma locked_connected : connected locked_world.
Proof.
  assert (second_world.(w_stores) !! 0%nat <> None) as Hn.
  { apply commit_by_stores. vm_compute. discriminate. }
  destruct (second_world.(w_stores) !! 0%nat) as [remembered|] eqn:Hr; [|destruct (Hn eq_refl)].
  apply (append_connected second_world 0 remembered); [exact second_connected|exact Hr|exact I].
Qed.

(** The store accepts that event, and does not open any more. *)
Example compaction_locks_store :
  connected locked_world
  /\ (example_append 12 (TaskEvent.CompactionCompleted 9 32 77) second_world.(w_database)).2 <> Ok None
  /\ is_ok (example_append 12 (TaskEvent.CompactionCompleted 9 32 77) second_world.(w_database)).2 = true
  /\ open_store locked_world.(w_database)
     = Err (storage_invariant (lit "canonical checkpoint and context package are not atomic")).
Proof. split; [exact locked_connected|]. split; [vm_compute; discriminate|]. split; vm_compute; reflexivity. Qed.

(** The authority connection 0 has when it commits the second checkpoint. *)
Definition remembered_by (n : nat) (w : World) : Remembered := default ∅ (w.(w_stores) !! n).

Lemma revised_remembers n : n = 0%nat \/ n = 1%nat -> revised_world.(w_stores) !! n = Some (remembered_by n revised_world).
Proof.
  intros Hn. assert (is_some (revised_world.(w_stores) !! n) = true) as Hs
    by (destruct Hn as [-> | ->]; vm_compute; reflexivity).
  unfold remembered_by. destruct (revised_world.(w_stores) !! n); [reflexivity|discriminate Hs].
Qed.

Definition revised_record : TaskRecord :=
  match load_task_record revised_world.(w_database) 7 with
  | Ok (Some record) => record
  | _ => {| snapshot := work_snapshot 10; tk_revision := 0; tk_created_at := 0; tk_updated_at := 0 |}
  end.

Lemma revised_loads : load_task_record revised_world.(w_database) second_commit.(nc_task_id) = Ok (Some revised_record).
Proof. vm_compute. reflexivity. Qed.

Definition revised_records : list TaskRecord :=
  match open_store revised_world.(w_database) with Ok records => records | Err _ => [] end.
Lemma revised_opens : open_store revised_world.(w_database) = Ok revised_records.
Proof. vm_compute. reflexivity. Qed.

Lemma remembered_exact_witness :
  exists x,
    commit_checkpoint (remembered_by 0 revised_world !! second_commit.(nc_task_id)) 1 second_commit 10 1011 revised_world.(w_database) = Ok x
    /\ commit_checkpoint None 1 second_commit 10 1011 revised_world.(w_database) = Ok x
    /\ is_some (incremental_anchor revised_world.(w_database) revised_record 1 (remembered_by 0 revised_world !! second_commit.(nc_task_id))) = true.
Proof.
  destruct (commit_checkpoint (remembered_by 0 revised_world !! second_commit.(nc_task_id)) 1 second_commit 10 1011 revised_world.(w_database))
    as [x|e] eqn:Hc.
  - exists x. split; [reflexivity|]. split; [|vm_compute; reflexivity].
    exact (proj1 (remembered_exact revised_world revised_records 0%nat (remembered_by 0 revised_world) 1 second_commit 10 1011 x
      revised_connected revised_opens (revised_remembers 0%nat (or_introl eq_refl))) Hc).
  - exfalso. assert (match commit_checkpoint (remembered_by 0 revised_world !! second_commit.(nc_task_id)) 1 second_commit 10 1011
      revised_world.(w_database) with Ok _ => true | Err _ => false end = true) as Ho by (vm_compute; reflexivity).
    rewrite Hc in Ho. discriminate Ho.
Defined.

(** What the commit of the second checkpoint gives. *)
Definition second_outcome : result CarlError (Database * option (CheckpointRecord * AuthenticatedCheckpointAuthority)) :=
  commit_checkpoint (remembered_by 0 revised_world !! second_commit.(nc_task_id)) 1 second_commit 10 1011
    revised_world.(w_database).
Definition committed (r : result CarlError (Database * option (CheckpointRecord * AuthenticatedCheckpointAuthority))) : bool :=
  match r with Ok (_, Some _) => true | _ => false end.
Lemma committed_some r : committed r = true -> exists db record a, r = Ok (db, Some (record, a)).
Proof. destruct r as [[db [[record a]|]]|]; [|discriminate..]. by exists db, record, a. Qed.
Lemma loaded_same (r r' : TaskRecord) : Ok (E := CarlError) (Some r) = Ok (Some r') -> r = r'.
Proof. by intros [= ->]. Qed.
Lemma second_committed : committed second_outcome = true.
Proof. vm_compute. reflexivity. Qed.

Lemma commit_accepts_exactly_witness :
  exists es cfg, read_task_events revised_world.(w_database) second_commit.(nc_task_id) = Ok es
    /\ acceptable revised_world.(w_database) es revised_record.(snapshot) cfg second_commit.(nc_checkpoint).
Proof.
  destruct (proj1 (commit_accepts_exactly revised_world revised_records 0%nat (remembered_by 0 revised_world) 1 second_commit 10 1011
    revised_connected revised_opens (revised_remembers 0%nat (or_introl eq_refl))) (committed_some second_outcome second_committed))
    as (json & text & current & cfg & es & _ & Hl & _ & _ & Hes & _ & Hacc & _).
  exists es, cfg. split; [exact Hes|]. rewrite revised_loads in Hl. apply loaded_same in Hl. rewrite Hl. exact Hacc.
Defined.
