(* ===== verification/TaskQueries.v ===== *)
(** * What the engine reads of a task

    The queries of [src/storage/repository.rs] that read one task and change nothing:
    its record and configuration, the controls that were applied to it, the tasks of a
    session, and its latest checkpoint. *)
From stdpp Require Import base gmap sets list sorting strings.
From S2P Require Import Prelude Ord Text Settings Policy TaskTypes Events Reducer Checkpoint Context Database TaskStore StoreCheckpoint.
From Stdlib Require Import ZArith Lia.
#[local] Open Scope list_scope.
#[local] Open Scope Z_scope.

Section TaskQueries.
Context `{Uuids, Chrono, Serde, SqliteJson, CheckpointJson}.

Definition get_service_task_receipt (idempotency_key : str) (command_digest : Sha256Digest)
    (db : Database) : result CarlError (option TaskId) :=
  match db.(service_task_receipts) !! idempotency_key with
  | None => Ok None
  | Some row =>
      if negb (row.(tr_command_digest) =?? Sha256Digest_display command_digest)
      then Err (policy_error (lit "service task idempotency key was rebound"))
      else
        task_id ← ok_or (uuid_parse row.(tr_task_id))
                    (storage_invariant (lit "service task receipt is corrupt"));
        Ok (Some task_id)
  end.

Definition task_has_control_marker (task_id : TaskId) (control_id : str) (kind : TaskControlKind)
    (db : Database) : result CarlError bool :=
  _ ← validate_task_control_id control_id;
  Ok (match db.(task_control_markers) !! (uuid_to_string task_id, control_id) with
      | Some row => row.(mk_kind) =?? task_control_kind_str kind
      | None => false
      end).

Definition task_has_configuration_control (task_id : TaskId) (control_id : str) (db : Database) :
    result CarlError bool :=
  _ ← validate_task_control_id control_id;
  Ok (is_some (db.(service_configuration_controls) !! (uuid_to_string task_id, control_id))).

Definition task_has_steering_control (task_id : TaskId) (control_id : str) (db : Database) : bool :=
  existsb (fun '((task, _), row) =>
      (task =?? uuid_to_string task_id) && (row.(sg_control_id) =?? Some control_id))
    (map_to_list db.(task_steering)).

(** [ORDER BY updated_at DESC, id ASC]. *)
Definition newest_task (l r : str * AgentTaskRow) : comparison :=
  then_with (cmp r.2.(at_updated_at) l.2.(at_updated_at)) (cmp l.1 r.1).

Definition list_tasks_for_session (session_id : SessionId) (limit : Z) (db : Database) :
    result CarlError (list TaskRecord) :=
  let task_ids :=
    (take (Z.to_nat (Z.min limit 64))
       (sort_by newest_task
          (filter (fun p => p.2.(at_session_id) = uuid_to_string session_id)
             (map_to_list db.(agent_tasks))))).*1 in
  try_fold (fun records task_id =>
    task_id ← ok_or (uuid_parse task_id) (storage_invariant (lit "stored task ID is invalid"));
    record ← load_task_record db task_id;
    record ← ok_or record (storage_invariant (lit "listed task disappeared"));
    Ok (records ++ [record])) [] task_ids.

Definition get_latest_task_checkpoint (task_id : TaskId) (db : Database) :
    result CarlError (option CanonicalCheckpoint) :=
  record ← load_task_record db task_id;
  match record with
  | None => Ok None
  | Some record =>
      match record.(snapshot).(latest_checkpoint) with
      | None => Ok None
      | Some checkpoint_id =>
          match checkpoint_row db task_id checkpoint_id with
          | Some {| cr_digest := stored_digest; checkpoint_json := Some checkpoint_json |} =>
              checkpoint ← ok_or (checkpoint_from_str checkpoint_json)
                (storage_invariant (lit "latest task checkpoint is invalid"));
              if negb (checkpoint.(ck_task_id) =? task_id)
                 || negb (checkpoint.(ck_checkpoint_id) =? checkpoint_id)
              then Err (storage_invariant (lit "latest task checkpoint does not match its projection"))
              else
                digest ← map_err (fun _ => storage_invariant (lit "latest task checkpoint is invalid"))
                           (CanonicalCheckpoint_digest store_sha256 checkpoint_to_vec checkpoint);
                if negb (digest =?? stored_digest)
                then Err (storage_invariant (lit "latest task checkpoint does not match its projection"))
                else Ok (Some checkpoint)
          | _ => Err (storage_invariant (lit "latest task checkpoint has no canonical payload"))
          end
      end
  end.

End TaskQueries.
