(* ===== verification/AgentPort.v ===== *)
(** * The port to an agent provider

    [src/runtime/agent_port.rs]: what the engine sends to a provider and what comes
    back, with the bounds that are checked on every event.  The provider itself is
    behind a trait: what it answers is a parameter of [Engine]. *)
From stdpp Require Import base gmap sets list sorting strings.
From S2P Require Import Prelude Ord Text Settings Policy TaskTypes.
From Stdlib Require Import ZArith Lia.
#[local] Open Scope list_scope.
#[local] Open Scope Z_scope.

Definition MAX_AGENT_ID_BYTES : Z := 128.
Definition MAX_AGENT_TEXT_BYTES : Z := 1048576.
Definition MAX_COMMAND_BYTES : Z := 256 * 1024.
Definition MAX_EFFECT_SUMMARY_BYTES : Z := 32 * 1024.
Definition MAX_AGGREGATED_OUTPUT_BYTES : Z := 512 * 1024.
Definition MAX_ITEM_PAYLOAD_BYTES : Z := 1048576.

Module AgentPortErrorCode.
Inductive AgentPortErrorCode : Set :=
| Unsupported | InvalidRequest | InvalidResponse | UnavailableContext | Transport | Cancelled.
End AgentPortErrorCode.
Abbreviation AgentPortErrorCode := AgentPortErrorCode.AgentPortErrorCode.
#[export] Instance AgentPortErrorCode_eq_dec : EqDecision AgentPortErrorCode.
Proof. solve_decision. Defined.

Module AgentErrorProvenance.
Inductive AgentErrorProvenance : Set := DefinitelyNotApplied | PossiblyApplied.
End AgentErrorProvenance.
Abbreviation AgentErrorProvenance := AgentErrorProvenance.AgentErrorProvenance.
#[export] Instance AgentErrorProvenance_eq_dec : EqDecision AgentErrorProvenance.
Proof. solve_decision. Defined.

Record AgentPortError := {
  port_code : AgentPortErrorCode;
  port_provenance : AgentErrorProvenance
}.

Definition from_code (code : AgentPortErrorCode) : AgentPortError :=
  {| port_code := code; port_provenance := AgentErrorProvenance.PossiblyApplied |}.

Record AgentCapabilities := {
  can_resume : bool;
  can_compact : bool;
  token_usage : bool;
  pre_dispatch_effects : bool;
  history_paging : bool;
  background_processes : bool
}.

Abbreviation AgentContextId := str (only parsing).
Abbreviation AgentEpochId := str (only parsing).
Abbreviation AgentRequestId := str (only parsing).
Abbreviation answered := (result AgentPortError).

(** [opaque_agent_id!]. *)
Definition opaque_agent_id (value : str) : answered str :=
  if is_empty value || (MAX_AGENT_ID_BYTES <? len value) || (0 ∈? utf8 value)
  then Err (from_code AgentPortErrorCode.InvalidResponse) else Ok value.

Record StartAgentContext := {
  sc_cwd : PathBuf;
  sc_model : ModelId;
  sc_permission_mode : PermissionMode
}.

Record ResumeAgentContext := {
  re_context_id : AgentContextId;
  re_cwd : PathBuf;
  re_model : ModelId;
  re_permission_mode : PermissionMode
}.

Module ContextRecovery.
Inductive ContextRecovery : Type :=
| Resumed (context_id : AgentContextId)
| Compacted (context_id : AgentContextId)
| Replaced (context_id : AgentContextId).
End ContextRecovery.
Abbreviation ContextRecovery := ContextRecovery.ContextRecovery.

Record StartAgentEpoch := {
  ep_context_id : AgentContextId;
  ep_input : str;
  ep_model : ModelId;
  ep_effort : ReasoningEffort;
  ep_permission_mode : PermissionMode
}.

Module EffectDecision.
Inductive EffectDecision : Set := Allow | Deny.
End EffectDecision.
Abbreviation EffectDecision := EffectDecision.EffectDecision.
#[export] Instance EffectDecision_eq_dec : EqDecision EffectDecision.
Proof. solve_decision. Defined.

Record AgentUsage := {
  last_total_tokens : Z;
  usage_total_tokens : Z;
  model_context_window : option Z
}.

Module AgentEvent.
Inductive AgentEvent : Type :=
| ContextStarted (context_id : AgentContextId)
| EpochStarted (context_id : AgentContextId) (epoch_id : AgentEpochId)
| ItemStarted (context_id : AgentContextId) (epoch_id : AgentEpochId) (item : AgentItem)
| AssistantDelta (context_id : AgentContextId) (epoch_id : AgentEpochId) (text : str)
| DiffUpdated (context_id : AgentContextId) (epoch_id : AgentEpochId) (diff : str)
| UsageUpdated (context_id : AgentContextId) (epoch_id : AgentEpochId) (usage : AgentUsage)
| EffectRequested (request : AgentEffectRequest)
| ItemCompleted (context_id : AgentContextId) (epoch_id : AgentEpochId) (item : AgentItem)
| CompactionStarted (context_id : AgentContextId) (item_id : str)
| CompactionCompleted (context_id : AgentContextId) (item_id : str)
| EpochCompleted (context_id : AgentContextId) (epoch_id : AgentEpochId) (status : str)
| ProviderFailed (context_id : option AgentContextId) (epoch_id : option AgentEpochId).
End AgentEvent.
Abbreviation AgentEvent := AgentEvent.AgentEvent.

#[export] Instance AgentItem_eq_dec : EqDecision AgentItem.
Proof. solve_decision. Defined.

Record AgentProcess := {
  ap_process_id : str;
  ap_item_id : str;
  ap_command : str;
  ap_cwd : PathBuf;
  ap_os_pid : option Z
}.

(** ** Validation *)

Definition invalid_response : AgentPortError := from_code AgentPortErrorCode.InvalidResponse.

Definition validate_bounded_bytes (value : bytes) (maximum_bytes : Z) : answered unit :=
  reject (is_empty value || (maximum_bytes <? Zlen value) || (0 ∈? value)) invalid_response.

Definition validate_bounded_string (value : str) (maximum_bytes : Z) : answered unit :=
  validate_bounded_bytes (utf8 value) maximum_bytes.

Definition validate_bounded_option (value : option str) (maximum_bytes : Z) : answered unit :=
  match value with Some value => validate_bounded_string value maximum_bytes | None => Ok tt end.

(** [serde_json] on the changes of a file item: the array's [path] entries, the
    text with other paths, and its bytes; the bytes of a whole item; the arguments and
    the output of a tool in the journal; and whether a text is an object. *)
Class ItemJson := {
  change_paths : str -> option (list (option str));
  with_change_paths : str -> list str -> str;
  changes_to_vec : str -> option bytes;
  item_to_vec : AgentItem -> option bytes;
  json_summary : str -> str;
  json_status : str -> str;
  json_object : str -> bool
}.

Section Validate.
Context `{ItemJson}.

Definition AgentItem_validate (self : AgentItem) : answered unit :=
  _ ← validate_bounded_string (AgentItem_item_id self) MAX_AGENT_ID_BYTES;
  match self with
  | AgentItem.Command _ command cwd status _ aggregated_output process_id =>
      _ ← validate_bounded_string command MAX_COMMAND_BYTES;
      _ ← validate_bounded_bytes cwd MAX_COMMAND_BYTES;
      _ ← validate_bounded_string status MAX_AGENT_ID_BYTES;
      _ ← validate_bounded_option aggregated_output MAX_AGGREGATED_OUTPUT_BYTES;
      validate_bounded_option process_id MAX_AGENT_ID_BYTES
  | AgentItem.FileChange _ status changes =>
      _ ← validate_bounded_string status MAX_AGENT_ID_BYTES;
      if negb (is_some (change_paths changes)) then Err invalid_response
      else
        bytes ← ok_or (changes_to_vec changes) invalid_response;
        reject (MAX_ITEM_PAYLOAD_BYTES <? Zlen bytes) invalid_response
  | AgentItem.ContextCompaction _ => Ok tt
  | AgentItem.Other _ item_type => validate_bounded_string item_type MAX_AGENT_ID_BYTES
  end.

Definition AgentEffectRequest_validate (self : AgentEffectRequest) : answered unit :=
  _ ← validate_bounded_string self.(ae_item_id) MAX_AGENT_ID_BYTES;
  validate_bounded_string self.(ae_summary) MAX_EFFECT_SUMMARY_BYTES.

Definition AgentEvent_validate (self : AgentEvent) : answered unit :=
  match self with
  | AgentEvent.ContextStarted _ | AgentEvent.EpochStarted _ _ => Ok tt
  | AgentEvent.ItemStarted _ _ item | AgentEvent.ItemCompleted _ _ item => AgentItem_validate item
  | AgentEvent.AssistantDelta _ _ text => validate_bounded_string text MAX_AGENT_TEXT_BYTES
  | AgentEvent.DiffUpdated _ _ diff => validate_bounded_string diff MAX_AGENT_TEXT_BYTES
  | AgentEvent.UsageUpdated _ _ _ | AgentEvent.ProviderFailed _ _ => Ok tt
  | AgentEvent.EffectRequested request => AgentEffectRequest_validate request
  | AgentEvent.CompactionStarted _ item_id | AgentEvent.CompactionCompleted _ item_id =>
      validate_bounded_string item_id MAX_AGENT_ID_BYTES
  | AgentEvent.EpochCompleted _ _ status => validate_bounded_string status MAX_AGENT_ID_BYTES
  end.

End Validate.

Definition AgentProcess_validate (self : AgentProcess) : answered unit :=
  _ ← validate_bounded_string self.(ap_process_id) MAX_AGENT_ID_BYTES;
  _ ← validate_bounded_string self.(ap_item_id) MAX_AGENT_ID_BYTES;
  _ ← validate_bounded_string self.(ap_command) MAX_COMMAND_BYTES;
  validate_bounded_bytes self.(ap_cwd) MAX_COMMAND_BYTES.
