(* ===== verification/EngineOwner.v ===== *)
(** * Controls of the owner

    [src/runtime/task/engine.rs]: what the service asks of the engine that runs its
    tasks, at any time and also while a task runs: to claim and complete the receipt
    of a command, to create a task, to admit a message of the trusted owner of a
    workspace and to configure the session of a frontend.  Every such control is
    answered, and none of them ends the work of the running task. *)
From stdpp Require Import base gmap sets list sorting strings.
From S2P Require Import Prelude Ord Text Settings Policy TaskTypes Events Reducer SecretFilter Checkpoint Report Progress Context Service Live Server Database TaskStore Front Approvals StoreCheckpoint StoreConnect TaskQueries AgentPort Engine.
From Stdlib Require Import ZArith Lia.
#[local] Open Scope list_scope.
#[local] Open Scope Z_scope.

Section Owner.
Context `{Uuids, Chrono, Serde, SqliteJson, CheckpointJson, ItemJson, Outside}.

(** [create_session] of the store. *)
Definition new_session : Eng SessionRecord :=
  id ← new_id;
  now ← utc_now;
  store_tx (create_session id now).

(** ** Creating tasks *)

Definition validate_start (input : StartTask) : Eng unit :=
  tr ← gets en_transcript;
  if is_empty (trim input.(st_request)) || (MAX_REQUEST_BYTES <? len input.(st_request))
     || (0 ∈? utf8 input.(st_request)) || negb (is_absolute input.(st_workspace))
     || negb (out_is_dir tr input.(st_workspace)) || negb (is_ok (TaskBudget_validate input.(st_budget)))
  then fail TaskEngineErrorCode.InvalidTask else mret tt.

Definition new_task (input : StartTask) (created_at : Z) : NewTask :=
  {| nt_session_id := input.(st_session_id); nt_workspace := input.(st_workspace);
     nt_contract := fallback_contract input.(st_request); nt_model := input.(st_model);
     nt_effort := input.(st_effort); nt_permission_mode := input.(st_permission_mode);
     nt_budget := input.(st_budget); nt_created_at := created_at |}.

Definition enqueue_with_receipt (input : StartTask) (receipt : option (str * Sha256Digest)) :
    Eng TaskSnapshot :=
  _ ← validate_start input;
  _ ← require (inspect (utf8 input.(st_request))) TaskEngineErrorCode.InvalidTask;
  created_at ← utc_now;
  id ← new_id;
  event_id ← new_id;
  tr ← gets en_transcript;
  let new_task := new_task input created_at in
  created ← store_tx
    (match receipt with
     | Some (idempotency_key, command_digest) =>
         create_task_idempotent (out_canonicalize tr) (out_is_dir tr) new_task idempotency_key
           command_digest id event_id
     | None => create_task (out_canonicalize tr) (out_is_dir tr) new_task id event_id
     end);
  _ ← push (TaskEngineUpdate.TaskStatus created.(snapshot).(task_id) created.(snapshot).(status));
  mret created.(snapshot).

(** ** Trusted messages *)

(** [std::fs::canonicalize], and the checks every caller makes. *)
Definition canonical_workspace_of (workspace : PathBuf) (admitted : bool) : Eng PathBuf :=
  tr ← gets en_transcript;
  canonical ← some_or (out_canonicalize tr workspace) TaskEngineErrorCode.InvalidTask;
  if negb (canonical =?? workspace) || negb (out_is_dir tr canonical) || negb admitted
  then fail TaskEngineErrorCode.InvalidTask else mret canonical.

Definition admit_message (admission : OwnerTrustedAdmission) (channel_id : ChannelId)
    (workspace : PathBuf) (now : Z) : Eng TrustedFrontendOwnerRecord :=
  tr ← gets en_transcript;
  let admission_of := if admission.(recover_existing) then recover_or_admit_trusted_frontend_message
               else admit_trusted_frontend_message in
  store_conn_as TaskEngineErrorCode.InvalidTask
    (admission_of store_sha256 (out_canonicalize tr) (out_is_dir tr) admission.(oa_frontend)
       admission.(oa_actor_id) channel_id workspace admission.(oa_event_id) now).

Definition admit_owner_message (input : OwnerTrustedMessage) : Eng unit :=
  let admission := input.(om_admission) in
  workspace ← canonical_workspace_of input.(om_workspace) (admission.(oa_frontend) =?? Frontend.Buzz);
  channel_id ← require (ChannelId_try_from admission.(oa_channel_id)) TaskEngineErrorCode.Storage;
  now ← utc_now;
  _ ← admit_message admission channel_id workspace now;
  mret tt.

Definition bind_new_session (frontend : Frontend) (external_session_id : ExternalSessionId)
    (workspace : PathBuf) (permission_mode : PermissionMode) (channel_id : option ChannelId)
    (session : SessionRecord) (now : Z) : Eng FrontendSessionRecord :=
  client_name ← require (ClientName_try_from (lit "carl-service")) TaskEngineErrorCode.Storage;
  tr ← gets en_transcript;
  store_conn (bind_frontend_session (out_canonicalize tr) (out_is_dir tr)
    {| nf_frontend := frontend; nf_external_session_id := external_session_id;
       nf_session_id := session.(se_id); nf_cwd := workspace; nf_protocol_version := 1;
       nf_client_name := client_name; nf_permission_mode := permission_mode;
       nf_channel_id := channel_id; nf_created_at := now |}).

Definition configure_owner_session (input : OwnerConfigureSession) : Eng unit :=
  let admission := input.(oc_admission) in
  workspace ← canonical_workspace_of input.(oc_workspace) (admission.(oa_frontend) =?? Frontend.Buzz);
  external_session_id ← require (ExternalSessionId_try_from input.(oc_external_session_id))
                          TaskEngineErrorCode.InvalidTask;
  channel_id ← require (ChannelId_try_from admission.(oa_channel_id)) TaskEngineErrorCode.Storage;
  now ← utc_now;
  owner ← admit_message admission channel_id workspace now;
  let permission_mode := restrict_permission_mode input.(oc_permission_mode) owner.(to_permission_mode) in
  existing ← store_read (get_frontend_session external_session_id);
  binding ← match existing with
    | Some binding =>
        if negb (binding.(fs_frontend) =?? admission.(oa_frontend)) || negb (binding.(fs_cwd) =?? workspace)
        then fail TaskEngineErrorCode.InvalidTask
        else
          match binding.(fs_channel_id) with
          | None => store_conn (claim_frontend_channel external_session_id channel_id now)
          | Some bound => if bound =?? channel_id then mret binding else fail TaskEngineErrorCode.InvalidTask
          end
    | None =>
        session ← new_session;
        bind_new_session admission.(oa_frontend) external_session_id workspace permission_mode
          (Some channel_id) session now
    end;
  now ← utc_now;
  _ ← store_conn (configure_frontend_session external_session_id binding.(fs_provider_thread_id)
                    permission_mode now);
  mret tt.

(** ** Tasks of the owner *)

Definition admit_task (admission : option OwnerTrustedAdmission) (workspace : PathBuf) :
    Eng (option (Frontend * ChannelId * PermissionMode)) :=
  match admission with
  | None => mret None
  | Some admission =>
      if negb (admission.(oa_frontend) =?? Frontend.Buzz) then fail TaskEngineErrorCode.InvalidTask
      else
        channel_id ← require (ChannelId_try_from admission.(oa_channel_id)) TaskEngineErrorCode.Storage;
        now ← utc_now;
        owner ← admit_message admission channel_id workspace now;
        mret (Some (admission.(oa_frontend), channel_id, owner.(to_permission_mode)))
  end.

(** The session of a frontend that has one. *)
Definition known_session (admitted : option (Frontend * ChannelId * PermissionMode))
    (frontend : Frontend) (workspace : PathBuf) (external_session_id : ExternalSessionId)
    (binding : FrontendSessionRecord) : Eng (SessionId * PermissionMode) :=
  if negb (binding.(fs_frontend) =?? frontend) || negb (binding.(fs_cwd) =?? workspace)
  then fail TaskEngineErrorCode.InvalidTask
  else
    binding ← match admitted with
      | Some (_, channel, _) =>
          if negb (is_some binding.(fs_channel_id)) then
            now ← utc_now;
            store_conn (claim_frontend_channel external_session_id channel now)
          else if negb (binding.(fs_channel_id) =?? Some channel) then fail TaskEngineErrorCode.InvalidTask
          else mret binding
      | None => mret binding
      end;
    mret (binding.(fs_session_id),
          match admitted with
          | None => binding.(fs_permission_mode)
          | Some (_, _, ceiling) => restrict_permission_mode binding.(fs_permission_mode) ceiling
          end).

Definition requested_mode (requested : PermissionMode)
    (admitted : option (Frontend * ChannelId * PermissionMode)) : PermissionMode :=
  match admitted with
  | None => requested
  | Some (_, _, ceiling) =>
      if requested =?? PermissionMode.Default then ceiling else restrict_permission_mode requested ceiling
  end.

Definition fresh_session (admitted : option (Frontend * ChannelId * PermissionMode))
    (frontend : Frontend) (workspace : PathBuf) (external_session_id : ExternalSessionId)
    (requested : PermissionMode) : Eng (SessionId * PermissionMode) :=
  session ← new_session;
  now ← utc_now;
  binding ← bind_new_session frontend external_session_id workspace (requested_mode requested admitted)
              None session now;
  binding ← match admitted with
    | Some (_, channel, _) =>
        now ← utc_now;
        store_conn (claim_frontend_channel external_session_id channel now)
    | None => mret binding
    end;
  mret (session.(se_id), binding.(fs_permission_mode)).

Definition enqueue_owner_task (input : OwnerStartTask) : Eng TaskSnapshot :=
  workspace ← canonical_workspace_of input.(ot_workspace) true;
  external_session_id ← require (ExternalSessionId_try_from input.(ot_external_session_id))
                          TaskEngineErrorCode.InvalidTask;
  admitted ← admit_task input.(trusted_admission) workspace;
  let expected_frontend :=
    match admitted with Some (frontend, _, _) => frontend | None => input.(ot_frontend) end in
  existing ← store_read (get_frontend_session external_session_id);
  '(session_id, permission_mode) ← match existing with
    | Some binding => known_session admitted expected_frontend workspace external_session_id binding
    | None => fresh_session admitted expected_frontend workspace external_session_id
                input.(ot_permission_mode)
    end;
  enqueue_with_receipt
    {| st_session_id := session_id; st_workspace := workspace; st_request := input.(ot_request);
       st_model := input.(ot_model); st_effort := input.(ot_effort);
       st_permission_mode := permission_mode; st_budget := input.(ot_budget) |}
    (Some (input.(ot_idempotency_key), input.(ot_command_digest))).

(** ** Receipts of commands *)

Definition claim_command (input : ServiceCommandReceiptInput) : Eng ServiceCommandReceiptClaim :=
  receipts ← gets en_receipts;
  '(receipts, claim) ← require (claim_service_command receipts input) TaskEngineErrorCode.Storage;
  _ ← change (en_set_receipts receipts);
  mret claim.

Definition complete_command (input : ServiceCommandReceiptInput) (result_json : str) (completed_at : Z) :
    Eng str :=
  receipts ← gets en_receipts;
  '(receipts, result_json) ← require (complete_service_command json_object receipts input result_json completed_at)
    TaskEngineErrorCode.Storage;
  _ ← change (en_set_receipts receipts);
  mret result_json.

(** ** Dispatch *)

Definition answer {A} (control : TaskEngineControl) (reply : result TaskEngineErrorCode A -> OwnerReply)
    (m : Eng A) : Eng (option TaskEngineControl) :=
  outcome ← attempt m;
  _ ← tell (Exchange.Reply control (reply outcome));
  mret None.

Definition process_owner_control (control : TaskEngineControl) : Eng (option TaskEngineControl) :=
  match control with
  | TaskEngineControl.ClaimServiceCommand input => answer control ReplyClaim (claim_command input)
  | TaskEngineControl.CompleteServiceCommand input result_json completed_at =>
      answer control ReplyCompleted (complete_command input result_json completed_at)
  | TaskEngineControl.Enqueue input => answer control ReplyTask (enqueue_owner_task input)
  | TaskEngineControl.AdmitTrusted input => answer control ReplyUnit (admit_owner_message input)
  | TaskEngineControl.ConfigureOwnerSession input => answer control ReplyUnit (configure_owner_session input)
  | control => mret (Some control)
  end.

Definition control_acknowledgement (control : TaskEngineControl) : option Z :=
  match control with
  | TaskEngineControl.Steer _ _ _ _ _ acknowledgement
  | TaskEngineControl.Cancel _ _ _ _ acknowledgement
  | TaskEngineControl.Approval _ _ _ _ acknowledgement
  | TaskEngineControl.Configure _ _ _ _ _ acknowledgement
  | TaskEngineControl.Quiesce _ acknowledgement
  | TaskEngineControl.Compact _ acknowledgement => Some acknowledgement
  | TaskEngineControl.ClaimServiceCommand _ | TaskEngineControl.CompleteServiceCommand _ _ _
  | TaskEngineControl.Enqueue _ | TaskEngineControl.AdmitTrusted _
  | TaskEngineControl.ConfigureOwnerSession _ => None
  end.

(** Owner controls have been processed before: the [unreachable!] of the code is the
    case without an acknowledgement. *)
Definition acknowledge (control : TaskEngineControl) (outcome : result TaskEngineErrorCode unit) : Eng unit :=
  installed ← gets en_controls;
  match control_acknowledgement control with
  | Some acknowledgement =>
      if (installed : bool) then tell (Exchange.Acknowledge acknowledgement outcome) else mret tt
  | None => mret tt
  end.

(** The channel of the controls. *)
Definition receive_control : Eng (option TaskEngineControl) :=
  exchange out_control Exchange.ControlReceived.
Definition close_controls : Eng unit := change (en_set_controls false).

Definition receive_owner_control_while_idle : Eng bool :=
  installed ← gets en_controls;
  if negb installed then waiting
  else
    control ← receive_control;
    match control with
    | None => _ ← close_controls; mret false
    | Some control =>
        control ← process_owner_control control;
        _ ← match control with
            | Some control => acknowledge control (Err TaskEngineErrorCode.InvalidTask)
            | None => mret tt
            end;
        mret true
    end.

(** ** The frontend of a task *)

Definition install_owner_frontend_context (task_id : TaskId) : Eng unit :=
  record ← get_task task_id;
  let session_id := record.(snapshot).(session_id) in
  binding ← store_read (get_frontend_session_for_session session_id);
  binding ← some_or binding TaskEngineErrorCode.InvalidTask;
  actor_id ← match binding.(fs_frontend) with
    | Frontend.Buzz =>
        tr ← gets en_transcript;
        owner ← store_read (get_trusted_frontend_owner_for_workspace store_sha256 (out_canonicalize tr)
                              (out_is_dir tr) binding.(fs_frontend) binding.(fs_cwd));
        owner ← some_or owner TaskEngineErrorCode.InvalidTask;
        mret owner.(to_actor_id)
    | Frontend.Acp | Frontend.Tui => mret (lit "local-owner")
    | _ => fail TaskEngineErrorCode.InvalidTask
    end;
  turn_id ← new_id;
  _ ← session_append session_id turn_id (Event.UserInput (lit "persistent task execution"));
  change (en_set_frontend (Some {| fc_session_id := session_id; fc_turn_id := turn_id;
                                   fc_external_session_id := binding.(fs_external_session_id);
                                   fc_actor_id := actor_id |})).

End Owner.
