(* ===== verification/EngineWork.v ===== *)
(** * A work epoch

    [src/runtime/task/engine.rs]: the engine drains the events of a provider that works
    on a task.  It records every effect the provider asks for before it answers, asks
    the owner where the permission mode wants that, applies the controls that arrive
    meanwhile, and ends the epoch in the store however it ends. *)
From stdpp Require Import base gmap sets list sorting strings.
From S2P Require Import Prelude Ord Text Settings Policy TaskTypes Events Reducer SecretFilter Checkpoint Report Progress Context Service Live Server Database TaskStore Front Approvals StoreCheckpoint StoreConnect TaskQueries AgentPort Engine EngineOwner.
From Stdlib Require Import ZArith Lia.
#[local] Open Scope list_scope.
#[local] Open Scope Z_scope.

Section Work.
Context `{Uuids, Chrono, Serde, SqliteJson, CheckpointJson, ItemJson, Outside}.

(** ** Controls *)

Definition request_safe_boundary (task_id : TaskId) (provider_epoch_id : AgentEpochId) : Eng unit :=
  r ← runtime (fun r => r);
  if r.(rt_safe_boundary_requested) then mret tt
  else
    _ ← checked_increase rt_steering_sequence rt_set_steering_sequence 1;
    _ ← engine_append task_id
      (TaskEvent.SteeringQueued r.(rt_steering_sequence) (text_digest SAFE_BOUNDARY_MESSAGE));
    steered ← port_steer r.(rt_context_id) provider_epoch_id SAFE_BOUNDARY_MESSAGE;
    _ ← require steered TaskEngineErrorCode.Provider;
    with_runtime (rt_set_safe_boundary_requested true).

Definition queue_explicit_compaction (task_id : TaskId) : Eng unit :=
  _ ← with_runtime (rt_set_quiesce_after_checkpoint true);
  r ← runtime (fun r => r);
  if r.(rt_explicit_compaction_requested) then mret tt
  else
    _ ← engine_append task_id
      (TaskEvent.CompactionRequested (next_compaction_generation r.(rt_previous_checkpoint))
         (lit "owner requested compaction at the next safe checkpoint"));
    with_runtime (rt_set_explicit_compaction_requested true).

Definition queue_configuration (task_id : TaskId) (control_id : str) (model : ModelId)
    (effort : ReasoningEffort) (permission_mode : PermissionMode) : Eng unit :=
  pending ← runtime rt_pending_configuration;
  if is_some_and pending (fun pending => pending.(pt_control_id) =?? control_id) then mret tt
  else
    _ ← engine_append task_id (TaskEvent.ConfigurationQueued control_id model effort permission_mode);
    with_runtime (fun r =>
      let r := if permission_strength permission_mode <? permission_strength r.(rt_effective_permission_mode)
               then rt_set_effective_permission_mode permission_mode r else r in
      rt_set_pending_configuration
        (Some {| pt_control_id := control_id; pt_model := model; pt_effort := effort;
                 pt_permission_mode := permission_mode |}) r).

(** Cancelling never returns [Ok]. *)
Definition cancel_active_epoch (task_id : TaskId) (logical_epoch_id : option EpochId)
    (context_id : option AgentContextId) (provider_epoch_id : option AgentEpochId)
    (active_operation_ids : list OperationId) (turn : option (SessionId * TurnId)) : Eng unit :=
  cancelling ← engine_append task_id TaskEvent.CancellationRequested;
  interrupted ← match logical_epoch_id, context_id, provider_epoch_id with
    | None, _, _ => mret true
    | Some _, Some context_id, Some provider_epoch_id =>
        answer ← port_interrupt context_id provider_epoch_id; mret (is_ok answer)
    | Some _, _, _ => mret false
    end;
  let finish reason :=
    match logical_epoch_id with
    | Some epoch_id => finish_epoch_if_active task_id epoch_id reason
    | None => mret tt
    end in
  if negb interrupted then
    _ ← (if is_empty active_operation_ids
         then block_task task_id (lit "provider interruption could not be confirmed")
         else block_uncertain_operation_ids task_id active_operation_ids
                (lit "provider interruption failed with operations in flight"));
    _ ← finish (lit "provider-interruption-unconfirmed");
    _ ← record_turn_interrupted turn (lit "cancellation blocked");
    fail TaskEngineErrorCode.Blocked
  else if negb (is_empty active_operation_ids) then
    _ ← block_uncertain_operation_ids task_id active_operation_ids
          (lit "provider was interrupted with operations in flight");
    _ ← finish (lit "cancelled-with-uncertain-operations");
    _ ← record_turn_interrupted turn (lit "cancelled with uncertain operations");
    fail TaskEngineErrorCode.Blocked
  else
    _ ← match logical_epoch_id with
        | Some epoch_id => finish_epoch task_id epoch_id (lit "cancelled-at-safe-boundary")
        | None => mret tt
        end;
    cancelled ← engine_append task_id
      (TaskEvent.StateTransitioned cancelling.(snapshot).(status) TaskStatus.Cancelled
         (lit "owner cancellation completed at a safe boundary"));
    _ ← record_turn_interrupted turn (lit "cancelled");
    _ ← push_status task_id cancelled;
    fail TaskEngineErrorCode.Cancelled.

(** Text for the provider, in the journal first. *)
Definition apply_steering (task_id : TaskId) (provider_epoch_id : AgentEpochId) (text : str)
    (control_id : option str) (session_id : SessionId) (turn_id : TurnId) : Eng unit :=
  _ ← validate_steering text;
  known ← match control_id with
    | Some control_id => gets (fun e => task_has_steering_control task_id control_id e.(en_database))
    | None => mret false
    end;
  if (known : bool) then mret tt
  else
    _ ← session_append session_id turn_id (Event.UserInput text);
    steering_sequence ← runtime rt_steering_sequence;
    _ ← checked_increase rt_steering_sequence rt_set_steering_sequence 1;
    _ ← match control_id with
        | Some control_id =>
            revision ← current_revision task_id;
            now ← utc_now;
            event_id ← new_id;
            record ← store_tx (append_controlled_task_steering task_id revision steering_sequence
                                 (text_digest text) control_id now event_id);
            _ ← some_or record TaskEngineErrorCode.Storage;
            mret tt
        | None =>
            _ ← engine_append task_id (TaskEvent.SteeringQueued steering_sequence (text_digest text));
            mret tt
        end;
    context_id ← runtime rt_context_id;
    steered ← port_steer context_id provider_epoch_id text;
    require steered TaskEngineErrorCode.Provider.

Definition apply_configuration (task_id : TaskId) (provider_epoch_id : AgentEpochId) (control_id : str)
    (model : ModelId) (effort : ReasoningEffort) (permission_mode : PermissionMode) : Eng unit :=
  known ← store_read (task_has_configuration_control task_id control_id);
  if (known : bool) then mret tt
  else
    effective ← runtime rt_effective_permission_mode;
    _ ← queue_configuration task_id control_id model effort permission_mode;
    if permission_strength permission_mode <? permission_strength effective then
      context_id ← runtime rt_context_id;
      interrupted ← port_interrupt context_id provider_epoch_id;
      require interrupted TaskEngineErrorCode.Provider
    else mret tt.

(** [Ok(())] or [Err(invalid_task())]. *)
Definition for_task (task_id control_task_id : TaskId) (m : Eng unit) : Eng unit :=
  if control_task_id =? task_id then m else fail TaskEngineErrorCode.InvalidTask.

Definition apply_control (task_id : TaskId) (logical_epoch_id : EpochId)
    (provider_epoch_id : AgentEpochId) (active_operation_ids : list OperationId)
    (control : TaskEngineControl) : Eng unit :=
  match control with
  | TaskEngineControl.Steer control_task_id text control_id session_id turn_id _ =>
      for_task task_id control_task_id
        (apply_steering task_id provider_epoch_id text control_id session_id turn_id)
  | TaskEngineControl.Cancel control_task_id control_id session_id turn_id _ =>
      for_task task_id control_task_id (
        _ ← match control_id with
            | Some control_id => mark_control_requested task_id control_id TaskControlKind.Cancel
            | None => mret tt
            end;
        context_id ← runtime rt_context_id;
        cancel_active_epoch task_id (Some logical_epoch_id) (Some context_id) (Some provider_epoch_id)
          active_operation_ids (Some (session_id, turn_id)))
  | TaskEngineControl.Compact control_task_id _ =>
      for_task task_id control_task_id (
        _ ← queue_explicit_compaction task_id;
        request_safe_boundary task_id provider_epoch_id)
  | TaskEngineControl.Configure control_task_id control_id model effort permission_mode _ =>
      for_task task_id control_task_id
        (apply_configuration task_id provider_epoch_id control_id model effort permission_mode)
  | TaskEngineControl.Approval _ _ _ _ _ => fail TaskEngineErrorCode.Blocked
  | TaskEngineControl.Quiesce control_task_id _ =>
      for_task task_id control_task_id (
        _ ← with_runtime (rt_set_quiesce_after_checkpoint true);
        request_safe_boundary task_id provider_epoch_id)
  (* owner controls are processed before *)
  | TaskEngineControl.ClaimServiceCommand _ | TaskEngineControl.CompleteServiceCommand _ _ _
  | TaskEngineControl.Enqueue _ | TaskEngineControl.AdmitTrusted _
  | TaskEngineControl.ConfigureOwnerSession _ => mret tt
  end.

(** ** Ending an epoch *)

Definition active_operations : Eng (list ActiveOperation) :=
  gets (fun e => (map_to_list e.(en_work).(wk_operations)).*2).

Definition interrupt_and_block_epoch (task_id : TaskId) (epoch_id : EpochId)
    (provider_epoch_id : AgentEpochId) (reason : str) : Eng unit :=
  let block_if_needed :=
    snapshot ← task_snapshot task_id;
    if snapshot.(status) =?? TaskStatus.Blocked then mret tt else block_task task_id reason in
  snapshot ← task_snapshot task_id;
  if negb (snapshot.(active_epoch) =?? Some epoch_id) then block_if_needed
  else
    context_id ← runtime rt_context_id;
    _ ← port_interrupt context_id provider_epoch_id;
    snapshot ← task_snapshot task_id;
    operations ← active_operations;
    _ ← for_each operations (fun operation =>
      if operation_status snapshot operation.(ao_operation_id) =?? Some OperationStatus.Started
      then close_operation_with_evidence task_id operation.(ao_operation_id) OperationStatus.Uncertain reason
      else mret tt);
    _ ← finish_epoch_if_active task_id epoch_id reason;
    block_if_needed.

(** ** Effects *)

Definition record_started (task_id : TaskId) (epoch_id : EpochId) (operation_id : OperationId)
    (item_id : str) (effect_class : EffectClass) (request_digest : str) : Eng unit :=
  _ ← engine_append task_id
    (TaskEvent.OperationIntentRecorded operation_id epoch_id item_id effect_class request_digest);
  _ ← engine_append task_id
    (TaskEvent.OperationTransitioned operation_id OperationStatus.IntentRecorded OperationStatus.Started []);
  mret tt.

Definition tool_name (kind : AgentEffectKind) : option str :=
  match kind with
  | AgentEffectKind.Command => Some (lit "execute")
  | AgentEffectKind.FileChange => Some (lit "edit")
  | AgentEffectKind.Network | AgentEffectKind.External => None
  end.

(** Up to [attempts] random codes of ten characters. *)
Fixpoint create_task_remote_code (attempts : nat) (context : TaskEngineFrontendContext)
    (approval_id : ApprovalId) (provider_request_id : ProviderRequestId)
    (request_digest : Sha256Digest) (now : Z) : Eng str :=
  match attempts with
  | O => fail TaskEngineErrorCode.Storage
  | S attempts =>
      u ← new_id;
      let display_code := take 10 (uuid_simple u) in
      created ← attempt (store_conn (create_remote_code store_sha256
        {| nr_display_code := display_code; nr_kind := RemoteCodeKind.Approval;
           nr_external_session_id := context.(fc_external_session_id);
           nr_approval_id := Some approval_id; nr_provider_request_id := Some provider_request_id;
           nr_request_digest := request_digest; nr_actor_id := context.(fc_actor_id);
           nr_created_at := now; nr_expires_at := now + APPROVAL_LIFETIME |}));
      if is_ok created then mret display_code
      else create_task_remote_code attempts context approval_id provider_request_id request_digest now
  end.

Inductive ApprovalWait : Type :=
| WaitControl (control : option TaskEngineControl)
| WaitHardBudget.

(** [receive_control], and the wall time where the task has one. *)
Definition wait_for_approval (wall : bool) : Eng ApprovalWait :=
  installed ← gets en_controls;
  ready ← gets (fun e => out_ready e.(en_transcript));
  if wall && (negb installed || match ready with ReadyWall => true | _ => false end) then
    _ ← tell Exchange.WallTimeReached; mret WaitHardBudget
  else if negb installed then waiting
  else control ← receive_control; mret (WaitControl control).

(** What an approval that is awaited is bound to. *)
Record AwaitedApproval := {
  aw_context : TaskEngineFrontendContext;
  aw_approval_id : ApprovalId;
  aw_binding : BoundApprovalBinding;
  aw_provider_request_id : ProviderRequestId;
  aw_request : AgentEffectRequest;
  aw_operation_id : OperationId
}.

Definition consume_approval (awaited : AwaitedApproval) (display_code : str) (decision : EffectDecision)
    (session_id : SessionId) (turn_id : TurnId) : Eng unit :=
  let context := awaited.(aw_context) in
  if negb (session_id =? context.(fc_session_id)) || negb (turn_id =? context.(fc_turn_id))
  then fail TaskEngineErrorCode.InvalidTask
  else
    now ← utc_now;
    _ ← store_conn (consume_remote_bound_approval store_sha256
      {| cl_display_code := display_code; cl_kind := RemoteCodeKind.Approval;
         cl_external_session_id := context.(fc_external_session_id);
         cl_approval_id := Some awaited.(aw_approval_id);
         cl_provider_request_id := Some awaited.(aw_provider_request_id);
         cl_request_digest := awaited.(aw_request).(ae_request_digest);
         cl_actor_id := context.(fc_actor_id); cl_now := now |}
      awaited.(aw_binding)
      (match decision with EffectDecision.Allow => ApprovalStatus.Allowed
                         | EffectDecision.Deny => ApprovalStatus.Denied end));
    mret tt.

(** The owner answers. *)
Definition take_approval (task_id : TaskId) (awaited : AwaitedApproval) (control : TaskEngineControl)
    (display_code : str) (decision : EffectDecision) (session_id : SessionId) (turn_id : TurnId) :
    Eng EffectDecision :=
  let context := awaited.(aw_context) in
  let refuse reason :=
    _ ← fail_before_effect_dispatch task_id awaited.(aw_operation_id) reason;
    _ ← acknowledge control (Err TaskEngineErrorCode.Blocked);
    fail TaskEngineErrorCode.Blocked in
  consumed ← attempt (consume_approval awaited display_code decision session_id turn_id);
  if negb (is_ok consumed) then refuse (lit "approval validation failed before effect dispatch")
  else
    _ ← session_append context.(fc_session_id) context.(fc_turn_id)
      (Event.UserInput (match decision with
                        | EffectDecision.Allow => lit "/approve <redacted>"
                        | EffectDecision.Deny => lit "/deny <redacted>"
                        end));
    late ← match decision with
           | EffectDecision.Allow => hard_wall_deadline_reached task_id
           | EffectDecision.Deny => mret false
           end;
    if (late : bool)
    then refuse (lit "maximum task wall time exhausted before approved effect dispatch")
    else _ ← acknowledge control (Ok tt); mret decision.

(** A configuration that narrows the permission mode ends the wait. *)
Definition tighten_while_awaiting (task_id : TaskId) (epoch_id : EpochId) (operation_id : OperationId)
    (configured : result TaskEngineErrorCode unit) : Eng EffectDecision :=
  let reason :=
    if is_ok configured
    then lit "permission tightening interrupted an operation awaiting approval"
    else lit "permission tightening could not confirm interruption of an operation awaiting approval" in
  _ ← close_operation_with_evidence task_id operation_id OperationStatus.Uncertain reason;
  _ ← engine_append task_id
    (TaskEvent.EpochInterrupted epoch_id EpochInterruptReason.PermissionTightening);
  _ ← block_task task_id reason;
  fail TaskEngineErrorCode.Blocked.

Fixpoint await_decision (fuel : nat) (task_id : TaskId) (epoch_id : EpochId) (awaited : AwaitedApproval) :
    Eng EffectDecision :=
  match fuel with
  | O => waiting
  | S fuel =>
      let again := await_decision fuel task_id epoch_id awaited in
      let operation_id := awaited.(aw_operation_id) in
      let abandon reason :=
        _ ← fail_before_effect_dispatch task_id operation_id reason;
        fail TaskEngineErrorCode.Blocked in
      record ← get_task task_id;
      remaining ← remaining_wall_budget record;
      wait ← wait_for_approval (is_some remaining);
      match wait with
      | WaitControl None => abandon (lit "approval control channel closed before effect dispatch")
      | WaitHardBudget => abandon (lit "maximum task wall time exhausted while awaiting approval")
      | WaitControl (Some control) =>
          control ← process_owner_control control;
          match control with
          | None => again
          | Some control =>
              let apply := apply_control task_id epoch_id awaited.(aw_request).(ae_epoch_id)
                             [operation_id] control in
              match control with
              | TaskEngineControl.Approval display_code decision session_id turn_id _ =>
                  take_approval task_id awaited control display_code decision session_id turn_id
              | TaskEngineControl.Cancel _ _ _ _ _ =>
                  outcome ← attempt apply;
                  _ ← acknowledge control outcome;
                  _ ← from_result outcome;
                  mret EffectDecision.Deny
              | TaskEngineControl.Steer _ _ _ _ _ _ =>
                  _ ← acknowledge control (Err TaskEngineErrorCode.Blocked);
                  again
              | TaskEngineControl.Quiesce _ _ | TaskEngineControl.Compact _ _ =>
                  outcome ← attempt apply;
                  _ ← acknowledge control outcome;
                  _ ← from_result outcome;
                  again
              | TaskEngineControl.Configure _ _ _ _ _ _ =>
                  effective ← runtime rt_effective_permission_mode;
                  configured ← attempt apply;
                  _ ← acknowledge control configured;
                  if configuration_tightens control effective
                  then tighten_while_awaiting task_id epoch_id operation_id configured
                  else _ ← from_result configured; again
              | _ => again
              end
          end
      end
  end.

(** [permission_notices.send], within the wall time. *)
Definition deliver_notice (task_id : TaskId) (awaited : AwaitedApproval) (display_code : str) : Eng unit :=
  installed ← gets en_notices;
  if negb installed then mret tt
  else
    let context := awaited.(aw_context) in
    let request := awaited.(aw_request) in
    let notice :=
      {| pn_task_id := task_id; pn_operation_id := awaited.(aw_operation_id);
         pn_display_code := display_code; pn_summary := request.(ae_summary);
         pn_request_id := request.(ae_request_id); pn_session_id := context.(fc_session_id);
         pn_turn_id := context.(fc_turn_id);
         pn_external_session_id := context.(fc_external_session_id) |} in
    record ← get_task task_id;
    _ ← remaining_wall_budget record;
    delivered ← exchange (out_notice notice) (Exchange.Notice notice);
    if (delivered : bool) then mret tt
    else
      _ ← fail_before_effect_dispatch task_id awaited.(aw_operation_id)
            (lit "approval notice delivery failed or exceeded the task wall deadline");
      fail TaskEngineErrorCode.Blocked.

Definition propose_tool (context : TaskEngineFrontendContext) (tool_call_id : ToolCallId)
    (name summary : str) : Eng unit :=
  session_append context.(fc_session_id) context.(fc_turn_id)
    (Event.ToolProposed tool_call_id name (json_summary summary)).

Definition await_approval (fuel : nat) (task_id : TaskId) (epoch_id : EpochId)
    (request : AgentEffectRequest) (operation_id : OperationId)
    (frontend_tool_call_id : option ToolCallId) : Eng EffectDecision :=
  context ← gets en_frontend;
  context ← some_or context TaskEngineErrorCode.InvalidTask;
  tool_call_id ← some_or frontend_tool_call_id TaskEngineErrorCode.InvalidTask;
  match inspect (utf8 request.(ae_summary)), tool_name request.(ae_kind) with
  | Err _, _ | Ok _, None => mret EffectDecision.Deny
  | Ok _, Some name =>
      approval_id ← new_id;
      now ← utc_now;
      binding ← require (BoundApprovalBinding_new context.(fc_session_id) context.(fc_turn_id)
                           tool_call_id context.(fc_actor_id) request.(ae_request_digest) now
                           (now + APPROVAL_LIFETIME)) TaskEngineErrorCode.Storage;
      _ ← propose_tool context tool_call_id name request.(ae_summary);
      _ ← store_conn (create_bound_approval approval_id binding request.(ae_summary));
      _ ← session_append context.(fc_session_id) context.(fc_turn_id)
        (Event.ApprovalRequested approval_id tool_call_id request.(ae_summary));
      provider_request_id ← require (ProviderRequestId_try_from request.(ae_request_id))
                              TaskEngineErrorCode.InvalidTask;
      display_code ← create_task_remote_code 16 context approval_id provider_request_id
                       request.(ae_request_digest) now;
      _ ← push (TaskEngineUpdate.PermissionRequired request.(ae_request_id) request.(ae_summary));
      let awaited :=
        {| aw_context := context; aw_approval_id := approval_id; aw_binding := binding;
           aw_provider_request_id := provider_request_id; aw_request := request;
           aw_operation_id := operation_id |} in
      _ ← deliver_notice task_id awaited display_code;
      await_decision fuel task_id epoch_id awaited
  end.

(** ** Answering an effect *)

Definition supported (kind : AgentEffectKind) : bool := is_some (tool_name kind).

(** [resolve_effect] of the port; no answer when the wall time is reached first. *)
Definition port_resolve (wall : bool) (request_id : AgentRequestId) (decision : EffectDecision) :
    Eng (option (answered unit)) :=
  exchange (fun tr =>
      if wall && match out_ready tr with ReadyWall => true | _ => false end then None
      else Some (out_resolve_effect request_id decision tr))
    (Exchange.ResolveEffect request_id decision).

(** Closes the operation and blocks the task for the same reason. *)
Definition close_and_block {A} (task_id : TaskId) (operation_id : OperationId) (status : OperationStatus)
    (closing blocking : str) : Eng A :=
  _ ← close_operation_with_evidence task_id operation_id status closing;
  _ ← block_task task_id blocking;
  fail TaskEngineErrorCode.Blocked.

Definition provenance_status (error : AgentPortError) : OperationStatus :=
  match error.(port_provenance) with
  | AgentErrorProvenance.DefinitelyNotApplied => OperationStatus.Failed
  | AgentErrorProvenance.PossiblyApplied => OperationStatus.Uncertain
  end.

(** An allowed effect is not dispatched after the wall time. *)
Definition within_wall_time (task_id : TaskId) (operation_id : OperationId) (decision : EffectDecision)
    (reason : str) : Eng unit :=
  match decision with
  | EffectDecision.Deny => mret tt
  | EffectDecision.Allow =>
      late ← hard_wall_deadline_reached task_id;
      if (late : bool) then close_and_block task_id operation_id OperationStatus.Failed reason reason
      else mret tt
  end.

Definition authorize_dispatch (request : AgentEffectRequest) (decision : EffectDecision)
    (frontend_tool_call_id : option ToolCallId) : Eng unit :=
  effective ← runtime rt_effective_permission_mode;
  context ← gets en_frontend;
  match profile effective, decision, context, frontend_tool_call_id with
  | PermissionProfile.FullAccess, EffectDecision.Allow, Some context, Some tool_call_id =>
      match tool_name request.(ae_kind) with
      | Some name =>
          _ ← propose_tool context tool_call_id name request.(ae_summary);
          session_append context.(fc_session_id) context.(fc_turn_id)
            (Event.ToolDispatchAuthorized tool_call_id (Sha256Digest_display request.(ae_request_digest)) true)
      | None => mret tt
      end
  | _, _, _, _ => mret tt
  end.

Definition decide_effect (fuel : nat) (task_id : TaskId) (epoch_id : EpochId)
    (request : AgentEffectRequest) (operation_id : OperationId)
    (frontend_tool_call_id : option ToolCallId) : Eng EffectDecision :=
  if negb (supported request.(ae_kind)) || negb (is_ok (inspect (utf8 request.(ae_summary))))
  then mret EffectDecision.Deny
  else
    effective ← runtime rt_effective_permission_mode;
    context ← gets en_frontend;
    match profile effective with
    | PermissionProfile.FullAccess => mret EffectDecision.Allow
    | PermissionProfile.Approval =>
        if is_some context
        then await_approval fuel task_id epoch_id request operation_id frontend_tool_call_id
        else mret EffectDecision.Deny
    | PermissionProfile.ReadOnly => mret EffectDecision.Deny
    end.

Definition resolve_effect (fuel : nat) (task_id : TaskId) (epoch_id : EpochId)
    (request : AgentEffectRequest) (operation_id : OperationId)
    (frontend_tool_call_id : option ToolCallId) : Eng unit :=
  decision ← decide_effect fuel task_id epoch_id request operation_id frontend_tool_call_id;
  _ ← within_wall_time task_id operation_id decision
        (lit "maximum task wall time exhausted before effect dispatch");
  _ ← authorize_dispatch request decision frontend_tool_call_id;
  _ ← within_wall_time task_id operation_id decision
        (lit "maximum task wall time exhausted before allow dispatch");
  record ← get_task task_id;
  remaining ← remaining_wall_budget record;
  resolution ← port_resolve (is_some remaining) request.(ae_request_id) decision;
  match resolution with
  | None =>
      close_and_block task_id operation_id OperationStatus.Uncertain
        (lit "maximum task wall time exhausted during effect resolution")
        (lit "maximum task wall time exhausted during effect resolution")
  | Some (Err error) =>
      close_and_block task_id operation_id (provenance_status error)
        (lit "provider effect resolution failed") (lit "provider effect resolution failed")
  | Some (Ok _) =>
      match decision with
      | EffectDecision.Allow => mret tt
      | EffectDecision.Deny =>
          close_and_block task_id operation_id OperationStatus.Failed (lit "permission-denied")
            (lit "operation denied by permission policy")
      end
  end.

(** ** Events of the provider *)

Definition started_tool : Eng unit := checked_increase rt_started_tools rt_set_started_tools 1.
Definition completed_tool : Eng unit := checked_increase rt_completed_tools rt_set_completed_tools 1.

Definition operation_message (operation_id : OperationId) : str :=
  lit "carl-operation-id: " ++ uuid_to_string operation_id.

Definition insert_operation_entry (item_id : str) (operation : ActiveOperation) : Eng unit :=
  with_work (fun w => wk_set_operations (<[item_id := operation]> w.(wk_operations)) w).
Definition remove_operation_entry (item_id : str) : Eng unit :=
  with_work (fun w => wk_set_operations (delete item_id w.(wk_operations)) w).
Definition remove_item (item_id : str) : Eng unit :=
  with_work (fun w => wk_set_items (delete item_id w.(wk_items)) w).

Definition update_processes (item : AgentItem) (completed : bool) : Eng unit :=
  checked_runtime (update_running_processes item completed) TaskEngineErrorCode.Provider.

Definition start_item (item : AgentItem) : Eng unit :=
  let item_id := AgentItem_item_id item in
  items ← gets (fun e => e.(en_work).(wk_items));
  _ ← with_work (wk_set_items (<[item_id := item]> items));
  if is_some (items !! item_id) then fail TaskEngineErrorCode.Provider
  else
    _ ← update_processes item false;
    match engine_tool_kind item with
    | Some kind => push (TaskEngineUpdate.ToolStarted item_id kind)
    | None => mret tt
    end.

(** After the boundary an effect is recorded, denied and closed. *)
Definition deny_at_boundary (task_id : TaskId) (epoch_id : EpochId) (provider_epoch_id : AgentEpochId)
    (request : AgentEffectRequest) (item : AgentItem) (operation_id : OperationId) : Eng unit :=
  let item_id := request.(ae_item_id) in
  _ ← record_started task_id epoch_id operation_id item_id (classify_effect request item)
        (Sha256Digest_display request.(ae_request_digest));
  _ ← started_tool;
  _ ← insert_operation_entry item_id
    {| ao_operation_id := operation_id; ao_item := item; postcondition_paths := None;
       ao_frontend_tool_call_id := None |};
  context_id ← runtime rt_context_id;
  steered ← port_steer context_id provider_epoch_id (operation_message operation_id);
  _ ← require steered TaskEngineErrorCode.Provider;
  resolution ← port_resolve false request.(ae_request_id) EffectDecision.Deny;
  _ ← require (default (Ok tt) resolution) TaskEngineErrorCode.Provider;
  _ ← remove_operation_entry item_id;
  _ ← close_operation_with_evidence task_id operation_id OperationStatus.Failed
        (lit "soft-boundary-pending");
  _ ← completed_tool;
  _ ← update_processes item true;
  _ ← remove_item item_id;
  _ ← with_work (fun w => wk_set_denied (w.(wk_denied) ∪ {[item_id]}) w);
  push (TaskEngineUpdate.ToolCompleted item_id (engine_tool_status OperationStatus.Failed)).

Definition dispatch_effect (fuel : nat) (task_id : TaskId) (epoch_id : EpochId)
    (provider_epoch_id : AgentEpochId) (request : AgentEffectRequest) (item : AgentItem)
    (operation_id : OperationId) (effect_class : EffectClass) (paths : option (list str)) : Eng unit :=
  let item_id := request.(ae_item_id) in
  _ ← record_started task_id epoch_id operation_id item_id effect_class
        (Sha256Digest_display request.(ae_request_digest));
  _ ← started_tool;
  frontend ← gets en_frontend;
  tool_call_id ← match frontend with
    | Some _ => id ← new_id; mret (Some id)
    | None => mret None
    end;
  _ ← insert_operation_entry item_id
    {| ao_operation_id := operation_id; ao_item := item; postcondition_paths := paths;
       ao_frontend_tool_call_id := tool_call_id |};
  context_id ← runtime rt_context_id;
  steered ← port_steer context_id provider_epoch_id (operation_message operation_id);
  match steered with
  | Err error =>
      close_and_block task_id operation_id (provenance_status error)
        (lit "provider operation binding failed") (lit "provider operation binding failed")
  | Ok _ => resolve_effect fuel task_id epoch_id request operation_id tool_call_id
  end.

(** The item with its paths made relative, and the paths. *)
Definition trusted_paths (workspace : PathBuf) (item : AgentItem) : option (AgentItem * list str) :=
  item ← normalize_file_change_item_paths workspace item;
  paths ← validated_file_change_paths item;
  Some (item, paths).

Definition request_effect (fuel : nat) (task_id : TaskId) (epoch_id : EpochId)
    (provider_epoch_id : AgentEpochId) (boundary_requested : bool) (request : AgentEffectRequest) : Eng unit :=
  w ← gets en_work;
  item ← some_or (w.(wk_items) !! request.(ae_item_id)) TaskEngineErrorCode.Provider;
  if is_some (w.(wk_operations) !! request.(ae_item_id)) then fail TaskEngineErrorCode.Provider
  else
    operation_id ← new_id;
    if boundary_requested
    then deny_at_boundary task_id epoch_id provider_epoch_id request item operation_id
    else
      workspace ← runtime rt_workspace;
      let effect_class := classify_effect request item in
      match effect_class with
      | EffectClass.IdempotentMutation =>
          match trusted_paths workspace item with
          | Some (item', paths) =>
              dispatch_effect fuel task_id epoch_id provider_epoch_id request item' operation_id
                effect_class (Some paths)
          | None =>
              _ ← record_started task_id epoch_id operation_id request.(ae_item_id)
                    effect_class (Sha256Digest_display request.(ae_request_digest));
              close_and_block task_id operation_id OperationStatus.Failed
                (lit "file mutation paths are not trustworthy")
                (lit "file mutation paths are not trustworthy")
          end
      | _ => dispatch_effect fuel task_id epoch_id provider_epoch_id request item operation_id effect_class None
      end.

(** *** Completed items *)

Definition inspect_file (workspace : PathBuf) (path : str) : Eng (option (option Sha256Digest)) :=
  exchange (out_inspect workspace path) (Exchange.InspectFile workspace path).

Fixpoint capture_entries (workspace : PathBuf) (paths : list str) : Eng (list FilePostconditionEntry) :=
  match paths with
  | [] => mret []
  | path :: paths =>
      inspected ← inspect_file workspace path;
      digest ← some_or inspected TaskEngineErrorCode.Verification;
      entry ← require (FilePostconditionEntry_new path digest) TaskEngineErrorCode.Verification;
      entries ← capture_entries workspace paths;
      mret (entry :: entries)
  end.

Definition capture_file_postcondition (workspace : PathBuf) (paths : list str) : Eng FilePostcondition :=
  entries ← capture_entries workspace paths;
  require (FilePostcondition_new entries) TaskEngineErrorCode.Verification.

Definition inspect_file_postcondition (workspace : PathBuf) (expected : FilePostcondition) : Eng bool :=
  observed ← capture_file_postcondition workspace (relative_path <$> expected);
  mret (observed =?? expected).

Definition list_processes (context_id : AgentContextId) : Eng (list AgentProcess) :=
  answer ← exchange (out_processes context_id) (Exchange.ListProcesses context_id);
  observed ← require answer TaskEngineErrorCode.Provider;
  if existsb (fun process => negb (is_ok (AgentProcess_validate process))) observed
  then fail TaskEngineErrorCode.Provider else mret observed.

Definition reconcile_completed_process (item : AgentItem) : Eng unit :=
  match item with
  | AgentItem.Command item_id command cwd _ _ _ process_id =>
      _ ← with_runtime (fun r => rt_set_running_processes
            (filter (fun process => process.(ap_item_id) <> item_id) r.(rt_running_processes)) r);
      match process_id with
      | None => mret tt
      | Some process_id =>
          if negb out_capabilities.(background_processes) then mret tt
          else
            context_id ← runtime rt_context_id;
            observed ← list_processes context_id;
            let matching := filter (fun process =>
              ((process.(ap_process_id) =?? process_id) && (process.(ap_item_id) =?? item_id)
               && (process.(ap_command) =?? command) && (process.(ap_cwd) =?? cwd)) = true) observed in
            match matching with
            | [] =>
                if existsb (fun process => (process.(ap_process_id) =?? process_id)
                                           || (process.(ap_item_id) =?? item_id)) observed
                then fail TaskEngineErrorCode.Provider else mret tt
            | [process] =>
                with_runtime (fun r => rt_set_running_processes (r.(rt_running_processes) ++ [process]) r)
            | _ => fail TaskEngineErrorCode.Provider
            end
      end
  | _ => update_processes item true
  end.

(** An item that is not a tool ends as it started. *)
Definition complete_plain_item (item : AgentItem) : Eng unit :=
  let item_id := AgentItem_item_id item in
  w ← gets en_work;
  _ ← remove_item item_id;
  started ← some_or (w.(wk_items) !! item_id) TaskEngineErrorCode.Provider;
  if negb (started =?? item) || is_some (w.(wk_operations) !! item_id)
  then fail TaskEngineErrorCode.Provider
  else update_processes item true.

(** A command that asked for no effect is recorded as an observation when it ends. *)
Definition observe_command (task_id : TaskId) (epoch_id : EpochId) (item_id : str) : Eng ActiveOperation :=
  w ← gets en_work;
  started ← some_or (w.(wk_items) !! item_id) TaskEngineErrorCode.Provider;
  match out_capabilities.(pre_dispatch_effects), started with
  | true, AgentItem.Command _ _ _ _ _ _ _ =>
      operation_id ← new_id;
      digest ← some_or (normalized_item_digest started) TaskEngineErrorCode.Verification;
      _ ← record_started task_id epoch_id operation_id item_id EffectClass.Observation digest;
      _ ← started_tool;
      mret {| ao_operation_id := operation_id; ao_item := started; postcondition_paths := None;
              ao_frontend_tool_call_id := None |}
  | _, _ => fail TaskEngineErrorCode.Provider
  end.

Definition take_operation (task_id : TaskId) (epoch_id : EpochId) (item_id : str) : Eng ActiveOperation :=
  w ← gets en_work;
  match w.(wk_operations) !! item_id with
  | Some active => _ ← remove_operation_entry item_id; mret active
  | None => observe_command task_id epoch_id item_id
  end.

(** The files a successful change was to leave, as they are. *)
Definition capture_changed_files (workspace : PathBuf) (expected_paths : list str) (item : AgentItem) :
    Eng (AgentItem * FilePostcondition) :=
  match trusted_paths workspace item with
  | Some (item, paths) =>
      if paths =?? expected_paths then
        postcondition ← capture_file_postcondition workspace paths;
        mret (item, postcondition)
      else fail TaskEngineErrorCode.Verification
  | None => fail TaskEngineErrorCode.Verification
  end.

Definition bind_postcondition (task_id : TaskId) (active : ActiveOperation) (terminal : OperationStatus)
    (item : AgentItem) : Eng AgentItem :=
  match terminal, active.(postcondition_paths) with
  | OperationStatus.Succeeded, Some expected_paths =>
      workspace ← runtime rt_workspace;
      captured ← attempt (capture_changed_files workspace expected_paths item);
      match captured with
      | Err _ =>
          close_and_block task_id active.(ao_operation_id) OperationStatus.Uncertain
            (lit "file mutation postcondition could not be captured")
            (lit "file mutation postcondition could not be captured")
      | Ok (item, postcondition) =>
          _ ← engine_append task_id
            (TaskEvent.OperationFilePostconditionBound active.(ao_operation_id) postcondition);
          mret item
      end
  | _, _ => mret item
  end.

Definition complete_tool (task_id : TaskId) (active : ActiveOperation) (item : AgentItem) : Eng unit :=
  let item_id := AgentItem_item_id item in
  let operation_id := active.(ao_operation_id) in
  let terminal := terminal_status item in
  item ← bind_postcondition task_id active terminal item;
  result_digest ← some_or (normalized_item_digest item) TaskEngineErrorCode.Verification;
  frontend ← gets en_frontend;
  _ ← match frontend, active.(ao_frontend_tool_call_id) with
      | Some context, Some tool_call_id =>
          session_append context.(fc_session_id) context.(fc_turn_id)
            (Event.ToolCompleted tool_call_id (json_status (operation_status_name terminal)))
      | _, _ => mret tt
      end;
  evidence ← some_or (normalize_operation_evidence item terminal) TaskEngineErrorCode.Verification;
  _ ← engine_append task_id (TaskEvent.NormalizedOperationEvidenceRecorded operation_id evidence);
  _ ← engine_append task_id (TaskEvent.OperationEvidenceRecorded operation_id result_digest);
  evidence_sequence ← last_task_sequence task_id;
  _ ← engine_append task_id
    (TaskEvent.OperationTransitioned operation_id OperationStatus.Started terminal [evidence_sequence]);
  _ ← checked_runtime (retain_normalized_evidence operation_id item terminal) TaskEngineErrorCode.Verification;
  _ ← completed_tool;
  _ ← push (TaskEngineUpdate.ToolCompleted item_id (engine_tool_status terminal));
  _ ← reconcile_completed_process item;
  remove_item item_id.

Definition complete_item (task_id : TaskId) (epoch_id : EpochId) (item : AgentItem) : Eng unit :=
  let item_id := AgentItem_item_id item in
  denied ← gets (fun e => e.(en_work).(wk_denied));
  if bool_decide (item_id ∈ denied) then
    _ ← with_work (wk_set_denied (denied ∖ {[item_id]}));
    if terminal_status item =?? OperationStatus.Failed then mret tt else fail TaskEngineErrorCode.Provider
  else if negb (is_some (engine_tool_kind item)) then complete_plain_item item
  else
    active ← take_operation task_id epoch_id item_id;
    if AgentItem_item_id active.(ao_item) =?? item_id then complete_tool task_id active item
    else fail TaskEngineErrorCode.Provider.

(** *** Dispatch *)

(** [Some status] when the provider has ended its epoch. *)
Definition process_work_event (fuel : nat) (task_id : TaskId) (epoch_id : EpochId)
    (provider_epoch_id : AgentEpochId) (boundary_requested : bool) (event : AgentEvent) : Eng (option str) :=
  bound ← runtime rt_context_id;
  let here context_id observed (m : Eng unit) : Eng (option str) :=
    if (context_id =?? bound) && (observed =?? provider_epoch_id)
    then _ ← m; mret None else fail TaskEngineErrorCode.Provider in
  match event with
  | AgentEvent.ContextStarted _ => mret None
  | AgentEvent.EpochStarted context_id observed => here context_id observed (mret tt)
  | AgentEvent.ItemStarted context_id observed item => here context_id observed (start_item item)
  | AgentEvent.EffectRequested request =>
      here request.(ae_context_id) request.(ae_epoch_id)
        (request_effect fuel task_id epoch_id provider_epoch_id boundary_requested request)
  | AgentEvent.ItemCompleted context_id observed item =>
      here context_id observed (complete_item task_id epoch_id item)
  | AgentEvent.AssistantDelta context_id observed text =>
      here context_id observed (
        _ ← account_estimated_tokens (len text);
        _ ← with_work (fun w => wk_set_output (w.(wk_output) ++ text) w);
        push_live task_id (TaskEngineUpdate.AgentMessageChunk text))
  | AgentEvent.DiffUpdated context_id observed diff =>
      here context_id observed (
        _ ← account_estimated_tokens (len diff);
        push_live task_id (TaskEngineUpdate.DiffUpdated diff))
  | AgentEvent.UsageUpdated context_id observed usage =>
      here context_id observed (
        _ ← with_work (wk_set_usage_observed true);
        record_usage task_id epoch_id usage)
  | AgentEvent.EpochCompleted context_id observed status =>
      if (context_id =?? bound) && (observed =?? provider_epoch_id)
      then mret (Some status) else fail TaskEngineErrorCode.Provider
  | AgentEvent.CompactionStarted context_id _ | AgentEvent.CompactionCompleted context_id _ =>
      if context_id =?? bound then mret None else fail TaskEngineErrorCode.Provider
  | AgentEvent.ProviderFailed _ _ => fail TaskEngineErrorCode.Provider
  end.

(** ** The loop *)

Inductive Next : Type :=
| NextProvider (event : answered AgentEvent)
| NextBoundary
| NextHardBudget
| NextControl (control : option TaskEngineControl).

(** [tokio::select!] of the branches that are enabled. *)
Definition select_next (boundary_requested hard_wall_enabled : bool) : Eng Next :=
  controls_enabled ← gets en_controls;
  ready ← gets (fun e => out_ready e.(en_transcript));
  match ready, negb boundary_requested, hard_wall_enabled, controls_enabled with
  | ReadyTimer, true, _, _ => _ ← tell Exchange.TimerFired; mret NextBoundary
  | ReadyWall, _, true, _ => _ ← tell Exchange.WallTimeReached; mret NextHardBudget
  | ReadyControl, _, _, true => control ← receive_control; mret (NextControl control)
  | _, _, _, _ => event ← exchange out_event Exchange.NextEvent; mret (NextProvider event)
  end.

(** The variables of the loop. *)
Record Drain := {
  boundary_requested : bool;
  read_retries : Z;
  provider_events : Z;
  diff_bytes : Z
}.

Definition event_update_bytes (event : AgentEvent) : Z :=
  match event with
  | AgentEvent.AssistantDelta _ _ text => len text + 128
  | AgentEvent.DiffUpdated _ _ diff => len diff + 128
  | AgentEvent.ItemStarted _ _ item | AgentEvent.ItemCompleted _ _ item =>
      if is_some (engine_tool_kind item) then len (AgentItem_item_id item) + 128 else 0
  | _ => 0
  end.

Definition next_diff_bytes (diff_bytes : Z) (event : AgentEvent) : Z :=
  match event with AgentEvent.DiffUpdated _ _ diff => diff_bytes + len diff | _ => diff_bytes end.

Definition transcript_exceeded (output : str) (event : AgentEvent) : bool :=
  match event with
  | AgentEvent.AssistantDelta _ _ text => MAX_EPOCH_TRANSCRIPT_BYTES <? len output + len text
  | _ => false
  end.

Definition stream_bound_reason (provider_events diff_bytes : Z) (event : AgentEvent) (e : Engine) :
    option str :=
  if MAX_EPOCH_PROVIDER_EVENTS <? provider_events
  then Some (lit "maximum provider events exhausted during work epoch")
  else if transcript_exceeded e.(en_work).(wk_output) event
  then Some (lit "aggregate work transcript exceeded its bound")
  else if MAX_EPOCH_DIFF_BYTES <? next_diff_bytes diff_bytes event
  then Some (lit "aggregate diff stream exceeded its bound")
  else if negb (can_accumulate_update (event_update_bytes event) e)
  then Some (lit "accumulated engine updates exceeded their bound")
  else None.

Definition is_effect_request (event : AgentEvent) : bool :=
  match event with AgentEvent.EffectRequested _ => true | _ => false end.

Section Epoch.
Variables (task_id : TaskId) (epoch_id : EpochId) (provider_epoch_id : AgentEpochId).

Definition stop_epoch {A} (reason : str) : Eng A :=
  _ ← interrupt_and_block_epoch task_id epoch_id provider_epoch_id reason;
  fail TaskEngineErrorCode.Blocked.

Definition ask_boundary : Eng unit :=
  asked ← attempt (request_safe_boundary task_id provider_epoch_id);
  match asked with
  | Ok _ => mret tt
  | Err _ => stop_epoch (lit "provider rejected the soft epoch boundary request")
  end.

Definition tool_calls_exhausted (event : AgentEvent) : Eng bool :=
  if is_effect_request event then
    snapshot ← task_snapshot task_id;
    started ← runtime rt_started_tools;
    mret (reached snapshot.(budget).(tb_max_tool_calls) started)
  else mret false.

(** The provider ended its epoch. *)
Definition finish_work (terminal_status : str) : Eng WorkEpochOutput :=
  w ← gets en_work;
  if negb (bool_decide (w.(wk_operations) = ∅))
  then stop_epoch (lit "provider completed an epoch with operations still active")
  else
    estimated ← runtime rt_estimated_tokens_since_usage;
    _ ← (if negb w.(wk_usage_observed) || (0 <? estimated)
         then record_estimated_usage task_id epoch_id else mret tt);
    mret {| wo_transcript := w.(wk_output); wo_terminal_status := terminal_status;
            configuration_boundary := false |}.

(** One event; the loop goes on with the boundary requested or not. *)
Definition take_event (fuel : nat) (epoch_tool_start : Z) (d : Drain) (event : AgentEvent) :
    Eng (WorkEpochOutput + bool) :=
  if negb (is_ok (AgentEvent_validate event))
  then stop_epoch (lit "provider event validation failed after operation binding")
  else
    bound_reason ← gets (stream_bound_reason d.(provider_events) d.(diff_bytes) event);
    match bound_reason with
    | Some reason => stop_epoch reason
    | None =>
        exhausted ← tool_calls_exhausted event;
        if (exhausted : bool) then stop_epoch (lit "maximum tool calls exhausted during provider stream")
        else
          processed ← attempt (process_work_event fuel task_id epoch_id provider_epoch_id
                                 d.(boundary_requested) event);
          match processed with
          | Err _ => stop_epoch (lit "provider work event sequencing failed")
          | Ok (Some terminal_status) => output ← finish_work terminal_status; mret (inl output)
          | Ok None =>
              if d.(boundary_requested) then mret (inr true)
              else
                completed ← runtime rt_completed_tools;
                snapshot ← task_snapshot task_id;
                if snapshot.(budget).(soft_epoch_tool_calls) <=? Z.max 0 (completed - epoch_tool_start)
                then _ ← ask_boundary; mret (inr true)
                else mret (inr false)
          end
    end.

(** A control that failed. *)
Definition control_failed {A} (control : TaskEngineControl) (code : TaskEngineErrorCode) : Eng A :=
  snapshot_blocked ← match code with
    | TaskEngineErrorCode.Blocked =>
        snapshot ← task_snapshot task_id; mret (snapshot.(status) =?? TaskStatus.Blocked)
    | _ => mret false
    end;
  if (code =?? TaskEngineErrorCode.Cancelled) || snapshot_blocked then
    _ ← acknowledge control (Err code);
    fail code
  else
    _ ← interrupt_and_block_epoch task_id epoch_id provider_epoch_id (lit "provider work control failed");
    _ ← fail_task task_id (lit "provider work control failed");
    _ ← acknowledge control (Err code);
    fail code.

(** The permission mode was narrowed while operations run. *)
Definition tighten_running {A} : Eng A :=
  let reason := lit "permission tightening interrupted operations with uncertain outcome" in
  operations ← active_operations;
  _ ← for_each operations (fun operation =>
    close_operation_with_evidence task_id operation.(ao_operation_id) OperationStatus.Uncertain reason);
  _ ← engine_append task_id
    (TaskEvent.EpochInterrupted epoch_id EpochInterruptReason.PermissionTightening);
  _ ← block_task task_id reason;
  fail TaskEngineErrorCode.Blocked.

(** [None]: the loop goes on. *)
Definition take_control (control : TaskEngineControl) : Eng (option WorkEpochOutput) :=
  control ← process_owner_control control;
  match control with
  | None => mret None
  | Some control =>
      effective ← runtime rt_effective_permission_mode;
      operations ← active_operations;
      outcome ← attempt (apply_control task_id epoch_id provider_epoch_id
                           (ao_operation_id <$> operations) control);
      match outcome with
      | Err code => control_failed control code
      | Ok _ =>
          _ ← acknowledge control (Ok tt);
          if negb (configuration_tightens control effective) then mret None
          else if is_empty operations then
            mret (Some {| wo_transcript := []; wo_terminal_status := lit "interrupted";
                          configuration_boundary := true |})
          else tighten_running
      end
  end.

Definition with_boundary (b : bool) (d : Drain) : Drain :=
  {| boundary_requested := b; read_retries := d.(read_retries);
     provider_events := d.(provider_events); diff_bytes := d.(diff_bytes) |}.

Fixpoint drain_loop (fuel : nat) (hard_wall_enabled : bool) (epoch_tool_start : Z) (d : Drain) :
    Eng WorkEpochOutput :=
  match fuel with
  | O => waiting
  | S fuel =>
      let again := drain_loop fuel hard_wall_enabled epoch_tool_start in
      next ← select_next d.(boundary_requested) hard_wall_enabled;
      match next with
      | NextProvider (Err error) =>
          match error.(port_provenance) with
          | AgentErrorProvenance.DefinitelyNotApplied =>
              if d.(read_retries) =? 0
              then again {| boundary_requested := d.(boundary_requested); read_retries := 1;
                            provider_events := d.(provider_events); diff_bytes := d.(diff_bytes) |}
              else stop_epoch (lit "provider event delivery failed with an ambiguous operation outcome")
          | AgentErrorProvenance.PossiblyApplied =>
              stop_epoch (lit "provider event delivery failed with an ambiguous operation outcome")
          end
      | NextProvider (Ok event) =>
          let d := {| boundary_requested := d.(boundary_requested); read_retries := 0;
                      provider_events := d.(provider_events) + 1; diff_bytes := d.(diff_bytes) |} in
          outcome ← take_event fuel epoch_tool_start d event;
          match outcome with
          | inl output => mret output
          | inr boundary_requested =>
              again {| boundary_requested := boundary_requested; read_retries := 0;
                       provider_events := d.(provider_events);
                       diff_bytes := next_diff_bytes d.(diff_bytes) event |}
          end
      | NextBoundary => _ ← ask_boundary; again (with_boundary true d)
      | NextHardBudget => stop_epoch (lit "maximum task wall time exhausted during provider stream")
      | NextControl (Some control) =>
          outcome ← take_control control;
          match outcome with
          | Some output => mret output
          | None => again d
          end
      | NextControl None =>
          _ ← close_controls;
          stop_epoch (lit "provider work control channel closed")
      end
  end.

Definition drain_work_epoch (fuel : nat) : Eng WorkEpochOutput :=
  _ ← with_work (fun _ => empty_work);
  epoch_tool_start ← runtime rt_completed_tools;
  _ ← with_runtime (rt_set_safe_boundary_requested false);
  record ← get_task task_id;
  remaining ← remaining_wall_budget record;
  quiesce ← runtime rt_quiesce_after_checkpoint;
  _ ← (if (quiesce : bool) then request_safe_boundary task_id provider_epoch_id else mret tt);
  drain_loop fuel (is_some remaining) epoch_tool_start
    {| boundary_requested := quiesce; read_retries := 0; provider_events := 0; diff_bytes := 0 |}.

End Epoch.

End Work.
