(* ===== verification/EngineRecover.v ===== *)
(** * Taking up a task again

    [src/runtime/task/engine.rs]: what the engine does with a task that it did not just
    create: it reads what a runtime holds from the journal, settles the epoch and the
    checkpoint a crash left unfinished, finds its provider context and background
    processes again, and takes controls between epochs. *)
From stdpp Require Import base gmap sets list sorting strings.
From S2P Require Import Prelude Ord Text Settings Policy TaskTypes Events Reducer SecretFilter Checkpoint Report Progress Context Service Live Server Database TaskStore Front Approvals StoreCheckpoint StoreConnect TaskQueries AgentPort Engine EngineOwner EngineWork.
From Stdlib Require Import ZArith Lia.
#[local] Open Scope list_scope.
#[local] Open Scope Z_scope.

(** ** The runtime of a task, from its journal *)

Definition lifecycle_of (envelope : EventEnvelope) : option (TaskId * TaskEvent) :=
  match envelope.(event) with Event.TaskLifecycle task_id event => Some (task_id, event) | _ => None end.
Definition task_events_of (events : list EventEnvelope) : list TaskEvent :=
  snd <$> omap lifecycle_of events.

(** The variables of the loop of [rehydrate_runtime]. *)
Record Rehydrated := {
  rh_workspace : option PathBuf;
  rh_progress : list ProgressAssessment;
  rh_recovery_attempts : list RecoveryAttempt;
  rh_pending_recovery : option PendingRecovery;
  rh_operation_evidence : list OperationEvidence;
  rh_steering_sequence : Z;
  rh_completed_tools : Z;
  rh_started_tools : Z;
  rh_provider_requests : Z;
  rh_observed_total_tokens : option Z;
  rh_observed_context_window : option Z;
  rh_last_provider_context : option str;
  rh_replacement_pending : bool;
  rh_replacement_bound_sequence : option Z;
  rh_explicit_compaction_requested : bool
}.

Definition nothing_rehydrated : Rehydrated :=
  Build_Rehydrated None [] [] None [] 0 0 0 0 None None None false None false.

(** Assignments. *)
Definition rh_set_workspace (v : option PathBuf) (r : Rehydrated) : Rehydrated :=
  let '(Build_Rehydrated _ a2 a3 a4 a5 a6 a7 a8 a9 a10 a11 a12 a13 a14 a15) := r in
  Build_Rehydrated v a2 a3 a4 a5 a6 a7 a8 a9 a10 a11 a12 a13 a14 a15.
Definition rh_set_progress (v : list ProgressAssessment) (r : Rehydrated) : Rehydrated :=
  let '(Build_Rehydrated a1 _ a3 a4 a5 a6 a7 a8 a9 a10 a11 a12 a13 a14 a15) := r in
  Build_Rehydrated a1 v a3 a4 a5 a6 a7 a8 a9 a10 a11 a12 a13 a14 a15.
Definition rh_set_recovery_attempts (v : list RecoveryAttempt) (r : Rehydrated) : Rehydrated :=
  let '(Build_Rehydrated a1 a2 _ a4 a5 a6 a7 a8 a9 a10 a11 a12 a13 a14 a15) := r in
  Build_Rehydrated a1 a2 v a4 a5 a6 a7 a8 a9 a10 a11 a12 a13 a14 a15.
Definition rh_set_pending_recovery (v : option PendingRecovery) (r : Rehydrated) : Rehydrated :=
  let '(Build_Rehydrated a1 a2 a3 _ a5 a6 a7 a8 a9 a10 a11 a12 a13 a14 a15) := r in
  Build_Rehydrated a1 a2 a3 v a5 a6 a7 a8 a9 a10 a11 a12 a13 a14 a15.
Definition rh_set_operation_evidence (v : list OperationEvidence) (r : Rehydrated) : Rehydrated :=
  let '(Build_Rehydrated a1 a2 a3 a4 _ a6 a7 a8 a9 a10 a11 a12 a13 a14 a15) := r in
  Build_Rehydrated a1 a2 a3 a4 v a6 a7 a8 a9 a10 a11 a12 a13 a14 a15.
Definition rh_set_steering_sequence (v : Z) (r : Rehydrated) : Rehydrated :=
  let '(Build_Rehydrated a1 a2 a3 a4 a5 _ a7 a8 a9 a10 a11 a12 a13 a14 a15) := r in
  Build_Rehydrated a1 a2 a3 a4 a5 v a7 a8 a9 a10 a11 a12 a13 a14 a15.
Definition rh_set_completed_tools (v : Z) (r : Rehydrated) : Rehydrated :=
  let '(Build_Rehydrated a1 a2 a3 a4 a5 a6 _ a8 a9 a10 a11 a12 a13 a14 a15) := r in
  Build_Rehydrated a1 a2 a3 a4 a5 a6 v a8 a9 a10 a11 a12 a13 a14 a15.
Definition rh_set_started_tools (v : Z) (r : Rehydrated) : Rehydrated :=
  let '(Build_Rehydrated a1 a2 a3 a4 a5 a6 a7 _ a9 a10 a11 a12 a13 a14 a15) := r in
  Build_Rehydrated a1 a2 a3 a4 a5 a6 a7 v a9 a10 a11 a12 a13 a14 a15.
Definition rh_set_provider_requests (v : Z) (r : Rehydrated) : Rehydrated :=
  let '(Build_Rehydrated a1 a2 a3 a4 a5 a6 a7 a8 _ a10 a11 a12 a13 a14 a15) := r in
  Build_Rehydrated a1 a2 a3 a4 a5 a6 a7 a8 v a10 a11 a12 a13 a14 a15.
Definition rh_set_observed_total_tokens (v : option Z) (r : Rehydrated) : Rehydrated :=
  let '(Build_Rehydrated a1 a2 a3 a4 a5 a6 a7 a8 a9 _ a11 a12 a13 a14 a15) := r in
  Build_Rehydrated a1 a2 a3 a4 a5 a6 a7 a8 a9 v a11 a12 a13 a14 a15.
Definition rh_set_observed_context_window (v : option Z) (r : Rehydrated) : Rehydrated :=
  let '(Build_Rehydrated a1 a2 a3 a4 a5 a6 a7 a8 a9 a10 _ a12 a13 a14 a15) := r in
  Build_Rehydrated a1 a2 a3 a4 a5 a6 a7 a8 a9 a10 v a12 a13 a14 a15.
Definition rh_set_last_provider_context (v : option str) (r : Rehydrated) : Rehydrated :=
  let '(Build_Rehydrated a1 a2 a3 a4 a5 a6 a7 a8 a9 a10 a11 _ a13 a14 a15) := r in
  Build_Rehydrated a1 a2 a3 a4 a5 a6 a7 a8 a9 a10 a11 v a13 a14 a15.
Definition rh_set_replacement_pending (v : bool) (r : Rehydrated) : Rehydrated :=
  let '(Build_Rehydrated a1 a2 a3 a4 a5 a6 a7 a8 a9 a10 a11 a12 _ a14 a15) := r in
  Build_Rehydrated a1 a2 a3 a4 a5 a6 a7 a8 a9 a10 a11 a12 v a14 a15.
Definition rh_set_replacement_bound_sequence (v : option Z) (r : Rehydrated) : Rehydrated :=
  let '(Build_Rehydrated a1 a2 a3 a4 a5 a6 a7 a8 a9 a10 a11 a12 a13 _ a15) := r in
  Build_Rehydrated a1 a2 a3 a4 a5 a6 a7 a8 a9 a10 a11 a12 a13 v a15.
Definition rh_set_explicit_compaction_requested (v : bool) (r : Rehydrated) : Rehydrated :=
  let '(Build_Rehydrated a1 a2 a3 a4 a5 a6 a7 a8 a9 a10 a11 a12 a13 a14 _) := r in
  Build_Rehydrated a1 a2 a3 a4 a5 a6 a7 a8 a9 a10 a11 a12 a13 a14 v.

Definition satisfied_clause_ids (snapshot : TaskSnapshot) : list str :=
  clause_id <$> filter (fun clause => clause.(clause_status) = ClauseStatus.Satisfied)
                  snapshot.(contract).(clauses).

Definition rehydrate_event (snapshot : TaskSnapshot) (h : Rehydrated) (envelope : EventEnvelope) :
    option Rehydrated :=
  '(_, event) ← lifecycle_of envelope;
  let epoch_ended :=
    if is_some_and h.(rh_replacement_bound_sequence) (fun bound => bound <? envelope.(sequence))
    then Some (rh_set_replacement_pending false (rh_set_replacement_bound_sequence None h))
    else Some h in
  match event with
  | TaskEvent.Created _ workspace _ _ _ _ _ => Some (rh_set_workspace (Some workspace) h)
  | TaskEvent.ProviderRequestRecorded _ _ _ _ =>
      Some (rh_set_provider_requests (saturating_add u64_max h.(rh_provider_requests) 1) h)
  | TaskEvent.ProviderContextLost context_id _ =>
      Some (rh_set_last_provider_context (Some context_id)
              (rh_set_replacement_pending true (rh_set_replacement_bound_sequence None h)))
  | TaskEvent.ProviderContextBound context_id =>
      let h := rh_set_last_provider_context (Some context_id) h in
      Some (if h.(rh_replacement_pending)
            then rh_set_replacement_bound_sequence (Some envelope.(sequence)) h else h)
  | TaskEvent.EpochFinished _ _ | TaskEvent.EpochInterrupted _ _ => epoch_ended
  | TaskEvent.UsageObserved _ total_tokens context_window =>
      let h := rh_set_observed_total_tokens (Some total_tokens) h in
      Some (if is_some context_window then rh_set_observed_context_window context_window h else h)
  | TaskEvent.CompactionRequested _ _ => Some (rh_set_explicit_compaction_requested true h)
  | TaskEvent.CompactionCompleted _ _ _ => Some (rh_set_explicit_compaction_requested false h)
  | TaskEvent.ProgressAssessed fingerprint stalled =>
      Some (rh_set_progress
        (h.(rh_progress) ++ [{| pa_fingerprint := fingerprint; new_information := negb stalled;
                                resolved_clause_ids := satisfied_clause_ids snapshot;
                                stall_count := if stalled then 1 else 0; recovery := None |}]) h)
  | TaskEvent.RecoveryAttemptStarted epoch_id strategy strategy_fingerprint =>
      if is_some h.(rh_pending_recovery) then None
      else Some (rh_set_pending_recovery
             (Some {| pd_epoch_id := epoch_id; pd_strategy := strategy;
                      pd_strategy_fingerprint := strategy_fingerprint |}) h)
  | TaskEvent.RecoveryAttemptRecorded epoch_id strategy strategy_fingerprint outcome =>
      if is_some_and h.(rh_pending_recovery) (fun pending =>
           (pending.(pd_epoch_id) =? epoch_id) && (pending.(pd_strategy) =?? strategy)
           && (pending.(pd_strategy_fingerprint) =?? strategy_fingerprint))
      then Some (rh_set_pending_recovery None (rh_set_recovery_attempts
             (h.(rh_recovery_attempts) ++ [{| ra_strategy := strategy;
                ra_strategy_fingerprint := strategy_fingerprint; ra_outcome := outcome |}]) h))
      else None
  | TaskEvent.NormalizedOperationEvidenceRecorded operation_id evidence =>
      Some (rh_set_completed_tools (saturating_add u64_max h.(rh_completed_tools) 1)
        (rh_set_operation_evidence
           (h.(rh_operation_evidence) ++ [operation_evidence_from_event operation_id evidence]) h))
  | TaskEvent.OperationIntentRecorded _ _ _ _ _ =>
      Some (rh_set_started_tools (saturating_add u64_max h.(rh_started_tools) 1) h)
  | TaskEvent.SteeringQueued steering_sequence _ =>
      Some (rh_set_steering_sequence
        (Z.max h.(rh_steering_sequence) (saturating_add u64_max steering_sequence 1)) h)
  | _ => Some h
  end.

Fixpoint rehydrate_events (snapshot : TaskSnapshot) (h : Rehydrated) (events : list EventEnvelope) :
    option Rehydrated :=
  match events with
  | [] => Some h
  | envelope :: events => h ← rehydrate_event snapshot h envelope; rehydrate_events snapshot h events
  end.

(** All of the pending fields, or none. *)
Definition pending_of (configuration : TaskConfigurationRecord) :
    option (option PendingTaskConfiguration) :=
  match configuration.(tc_pending_control_id), configuration.(tc_pending_model),
        configuration.(tc_pending_effort), configuration.(tc_pending_permission_mode) with
  | Some control_id, Some model, Some effort, Some permission_mode =>
      Some (Some {| pt_control_id := control_id; pt_model := model; pt_effort := effort;
                    pt_permission_mode := permission_mode |})
  | None, None, None, None => Some None
  | _, _, _, _ => None
  end.

Section Recover.
Context `{Uuids, Chrono, Serde, SqliteJson, CheckpointJson, ItemJson, Outside}.

Definition rehydrate_runtime (task_id : TaskId) (snapshot : TaskSnapshot) : Eng RuntimeTask :=
  events ← store_read (fun db => read_task_events db task_id);
  h ← some_or (rehydrate_events snapshot nothing_rehydrated events) TaskEngineErrorCode.Storage;
  workspace ← some_or h.(rh_workspace) TaskEngineErrorCode.InvalidTask;
  configuration ← store_read (fun db => load_task_configuration_record db task_id);
  configuration ← some_or configuration TaskEngineErrorCode.InvalidTask;
  pending_configuration ← some_or (pending_of configuration) TaskEngineErrorCode.Storage;
  previous_checkpoint ← store_read (get_latest_task_checkpoint task_id);
  context ← some_or (match snapshot.(provider_context) with
                     | Some context => Some context
                     | None => h.(rh_last_provider_context)
                     end) TaskEngineErrorCode.InvalidTask;
  context_id ← require (opaque_agent_id context) TaskEngineErrorCode.Provider;
  mret {|
    rt_workspace := workspace;
    rt_request := snapshot.(contract).(goal);
    rt_model := configuration.(tc_active_model);
    rt_effort := configuration.(tc_active_effort);
    rt_permission_mode := configuration.(tc_active_permission_mode);
    rt_effective_permission_mode := configuration.(tc_effective_permission_mode);
    rt_context_id := context_id;
    rt_next_objective :=
      match previous_checkpoint with
      | None => lit "Implement and explicitly verify: " ++ snapshot.(contract).(goal)
      | Some checkpoint => checkpoint.(next_objective)
      end;
    rt_previous_checkpoint := previous_checkpoint;
    rt_progress := h.(rh_progress);
    rt_recovery_attempts := h.(rh_recovery_attempts);
    rt_pending_recovery := h.(rh_pending_recovery);
    rt_fresh_context_diagnosis := h.(rh_replacement_pending);
    rt_provider_replacement_needed := negb (is_some snapshot.(provider_context));
    rt_running_processes := [];
    rt_provider_ready := false;
    rt_steering := [];
    rt_steering_sequence := h.(rh_steering_sequence);
    rt_operation_evidence := h.(rh_operation_evidence);
    rt_file_hashes :=
      match previous_checkpoint with
      | None => ∅
      | Some checkpoint => checkpoint.(repository).(file_hashes)
      end;
    rt_observed_total_tokens := h.(rh_observed_total_tokens);
    rt_observed_context_window := h.(rh_observed_context_window);
    rt_estimated_tokens_since_usage := 0;
    rt_completed_tools := h.(rh_completed_tools);
    rt_started_tools := h.(rh_started_tools);
    rt_provider_requests := h.(rh_provider_requests);
    rt_pending_configuration := pending_configuration;
    rt_quiesce_after_checkpoint := false;
    rt_safe_boundary_requested := false;
    rt_explicit_compaction_requested := h.(rh_explicit_compaction_requested)
  |}.

(** [let mut runtime = ..], the operation, and [self.tasks.insert(task_id, runtime)]
    whatever its result. *)
Definition with_task {A} (task_id : TaskId) (r : RuntimeTask) (m : Eng A) : Eng A :=
  _ ← with_runtime (fun _ => r);
  outcome ← attempt m;
  _ ← change (fun e => en_set_tasks (<[task_id := e.(en_runtime)]> e.(en_tasks)) e);
  from_result outcome.

(** ** Provider contexts *)

Definition created_configuration (events : list EventEnvelope) :
    option (PathBuf * ModelId * PermissionMode) :=
  head (omap (fun event => match event with
                           | TaskEvent.Created _ workspace _ _ model _ permission_mode =>
                               Some (workspace, model, permission_mode)
                           | _ => None
                           end) (task_events_of events)).

Definition start_context_for (events : list EventEnvelope) : Eng AgentContextId :=
  '(workspace, model, permission_mode) ← some_or (created_configuration events) TaskEngineErrorCode.InvalidTask;
  let request := {| sc_cwd := workspace; sc_model := model; sc_permission_mode := permission_mode |} in
  answer ← exchange (out_start_context request) (Exchange.StartContext request);
  require answer TaskEngineErrorCode.Provider.

Definition bind_context (task_id : TaskId) (context_id : AgentContextId) : Eng unit :=
  _ ← engine_append task_id (TaskEvent.ProviderContextBound context_id);
  mret tt.

Definition activate_queued_task (task_id : TaskId) : Eng unit :=
  events ← store_read (fun db => read_task_events db task_id);
  context_id ← start_context_for events;
  _ ← engine_append task_id
    (TaskEvent.StateTransitioned TaskStatus.Queued TaskStatus.Active
       (lit "startup activated a durable queued task"));
  bind_context task_id context_id.

Definition is_context_bound (event : TaskEvent) : bool :=
  match event with TaskEvent.ProviderContextBound _ => true | _ => false end.
(** What a provider may have acted on. *)
Definition is_provider_work (event : TaskEvent) : bool :=
  match event with
  | TaskEvent.EpochStarted _ _ | TaskEvent.ProviderRequestRecorded _ _ _ _
  | TaskEvent.ProviderEpochBound _ _ | TaskEvent.OperationIntentRecorded _ _ _ _ _
  | TaskEvent.OperationPostconditionBound _ _ | TaskEvent.OperationFilePostconditionBound _ _
  | TaskEvent.OperationTransitioned _ _ _ _ => true
  | _ => false
  end.

Definition bind_never_bound_active_context (task_id : TaskId) : Eng bool :=
  events ← store_read (fun db => read_task_events db task_id);
  if existsb is_context_bound (task_events_of events) then mret false
  else if existsb is_provider_work (task_events_of events) then
    _ ← block_task task_id (lit "provider binding is absent after provider work may have started");
    fail TaskEngineErrorCode.Blocked
  else
    context_id ← start_context_for events;
    _ ← bind_context task_id context_id;
    mret true.

Definition same_process (checkpoint : ProcessCheckpoint) (process : AgentProcess) : bool :=
  (process.(ap_process_id) =?? checkpoint.(pc_process_id))
  && (process.(ap_item_id) =?? checkpoint.(pc_item_id))
  && (text_digest process.(ap_command) =?? checkpoint.(pc_command_digest))
  && (sha256_hex process.(ap_cwd) =?? checkpoint.(pc_cwd_digest)).

Definition block_uncertain_process {A} (task_id : TaskId) (process_id : str) : Eng A :=
  _ ← block_task task_id (lit "background process reconciliation is uncertain: " ++ process_id);
  fail TaskEngineErrorCode.Blocked.

(** Each expected process is one that is observed. *)
Fixpoint recovered_processes (task_id : TaskId) (observed : list AgentProcess)
    (expected : list ProcessCheckpoint) : Eng (list AgentProcess) :=
  match expected with
  | [] => mret []
  | checkpoint :: expected =>
      match filter (fun process => same_process checkpoint process = true) observed with
      | [process] =>
          processes ← recovered_processes task_id observed expected;
          mret (process :: processes)
      | _ => block_uncertain_process task_id checkpoint.(pc_process_id)
      end
  end.

Definition reconcile_background_processes (task_id : TaskId) : Eng unit :=
  r ← runtime (fun r => r);
  match r.(rt_previous_checkpoint) ≫= (fun checkpoint => head checkpoint.(running_processes)) with
  | None => with_runtime (rt_set_running_processes [])
  | Some first =>
      if negb out_capabilities.(background_processes)
      then block_uncertain_process task_id first.(pc_process_id)
      else
        answer ← exchange (out_processes r.(rt_context_id)) (Exchange.ListProcesses r.(rt_context_id));
        observed ← require answer TaskEngineErrorCode.Provider;
        if existsb (fun process => negb (is_ok (AgentProcess_validate process))) observed then
          _ ← block_task task_id (lit "provider returned an invalid background process");
          fail TaskEngineErrorCode.Blocked
        else
          recovered ← recovered_processes task_id observed
            (match r.(rt_previous_checkpoint) with Some c => c.(running_processes) | None => [] end);
          with_runtime (rt_set_running_processes recovered)
  end.

Definition resume_request (r : RuntimeTask) : ResumeAgentContext :=
  {| re_context_id := r.(rt_context_id); re_cwd := r.(rt_workspace); re_model := r.(rt_model);
     re_permission_mode := r.(rt_permission_mode) |}.

(** A new provider context takes over. *)
Definition replace_provider_context (task_id : TaskId) (request : ResumeAgentContext)
    (package : ContextPackage) : Eng unit :=
  answer ← exchange (out_replace_context request package) (Exchange.ReplaceContext request package);
  recovery ← require answer TaskEngineErrorCode.Provider;
  match recovery with
  | ContextRecovery.Replaced context_id =>
      _ ← bind_context task_id context_id;
      _ ← with_runtime (fun r => rt_set_fresh_context_diagnosis true
            (rt_set_provider_replacement_needed false (rt_set_context_id context_id r)));
      _ ← push (TaskEngineUpdate.RecoveryStrategy task_id RecoveryStrategy.FreshContextDiagnosis);
      _ ← reconcile_background_processes task_id;
      with_runtime (rt_set_provider_ready true)
  | _ => fail TaskEngineErrorCode.Provider
  end.

Definition resume_provider_context (task_id : TaskId) : Eng unit :=
  r ← runtime (fun r => r);
  let request := resume_request r in
  if r.(rt_provider_replacement_needed) then
    package ← assemble_recovery_context_package task_id;
    replace_provider_context task_id request package
  else
    answer ← exchange (out_resume_context request) (Exchange.ResumeContext request);
    match answer with
    | Ok context_id =>
        _ ← with_runtime (rt_set_context_id context_id);
        _ ← reconcile_background_processes task_id;
        with_runtime (rt_set_provider_ready true)
    | Err error =>
        match error.(port_code) with
        | AgentPortErrorCode.UnavailableContext =>
            package ← assemble_recovery_context_package task_id;
            _ ← engine_append task_id
              (TaskEvent.ProviderContextLost request.(re_context_id)
                 (lit "provider reported the durable context unavailable"));
            replace_provider_context task_id request package
        | _ => fail TaskEngineErrorCode.Provider
        end
    end.

(** ** An epoch that a crash left running *)

Record AbandonedOperation := {
  ab_effect_class : EffectClass;
  ab_item_id : str;
  ab_postcondition : option FilePostcondition
}.

Definition abandoned_event (state : option PathBuf * gmap OperationId AbandonedOperation)
    (envelope : EventEnvelope) : option (option PathBuf * gmap OperationId AbandonedOperation) :=
  '(_, event) ← lifecycle_of envelope;
  let '(workspace, operations) := state in
  match event with
  | TaskEvent.Created _ workspace _ _ _ _ _ => Some (Some workspace, operations)
  | TaskEvent.OperationIntentRecorded operation_id _ item_id effect_class _ =>
      Some (workspace, <[operation_id := {| ab_effect_class := effect_class; ab_item_id := item_id;
                                            ab_postcondition := None |}]> operations)
  | TaskEvent.OperationFilePostconditionBound operation_id postcondition =>
      operation ← operations !! operation_id;
      if is_some operation.(ab_postcondition) then None
      else Some (workspace,
        <[operation_id := {| ab_effect_class := operation.(ab_effect_class);
                             ab_item_id := operation.(ab_item_id);
                             ab_postcondition := Some postcondition |}]> operations)
  | _ => Some state
  end.

Fixpoint abandoned_events (state : option PathBuf * gmap OperationId AbandonedOperation)
    (events : list EventEnvelope) : option (option PathBuf * gmap OperationId AbandonedOperation) :=
  match events with
  | [] => Some state
  | envelope :: events => state ← abandoned_event state envelope; abandoned_events state events
  end.

Definition record_restart_evidence (task_id : TaskId) (operation_id : OperationId) (text : str) : Eng Z :=
  _ ← engine_append task_id (TaskEvent.OperationEvidenceRecorded operation_id (text_digest text));
  last_task_sequence task_id.

Definition mark_reconciled (task_id : TaskId) (operation_id : OperationId) (evidence_sequence : Z) : Eng unit :=
  _ ← engine_append task_id
    (TaskEvent.OperationTransitioned operation_id OperationStatus.Uncertain OperationStatus.Reconciled
       [evidence_sequence]);
  mret tt.

Definition reconcile_observation (task_id : TaskId) (operation_id : OperationId) : Eng unit :=
  evidence_sequence ← record_restart_evidence task_id operation_id
    (lit "restart-observation-may-use-a-new-operation-id");
  mark_reconciled task_id operation_id evidence_sequence.

Definition reconcile_idempotent_postcondition (task_id : TaskId) (operation_id : OperationId)
    (workspace : PathBuf) (postcondition : option FilePostcondition) : Eng bool :=
  match postcondition with
  | None =>
      _ ← engine_append task_id (TaskEvent.OperationEvidenceRecorded operation_id
            (text_digest (lit "restart-postcondition-not-bound")));
      mret false
  | Some postcondition =>
      observed ← attempt (inspect_file_postcondition workspace postcondition);
      evidence_sequence ← record_restart_evidence task_id operation_id
        (match observed with
         | Ok true => lit "restart-postcondition-matched"
         | Ok false => lit "restart-postcondition-mismatched"
         | Err _ => lit "restart-postcondition-inspection-unavailable"
         end);
      match observed with
      | Ok true => _ ← mark_reconciled task_id operation_id evidence_sequence; mret true
      | _ => mret false
      end
  end.

(** [true]: what the operation did stays uncertain. *)
Definition reconcile_uncertain (task_id : TaskId) (workspace : PathBuf) (operation_id : OperationId)
    (operation : AbandonedOperation) : Eng bool :=
  match operation.(ab_effect_class) with
  | EffectClass.Observation => _ ← reconcile_observation task_id operation_id; mret false
  | EffectClass.IdempotentMutation =>
      reconciled ← reconcile_idempotent_postcondition task_id operation_id workspace
                     operation.(ab_postcondition);
      mret (negb reconciled)
  | EffectClass.AmbiguousConsequential => mret true
  end.

Definition reconcile_operation (task_id : TaskId) (workspace : PathBuf) (operation_id : OperationId)
    (operation : AbandonedOperation) : Eng bool :=
  snapshot ← task_snapshot task_id;
  status ← some_or (operation_status snapshot operation_id) TaskEngineErrorCode.Storage;
  match status with
  | OperationStatus.IntentRecorded =>
      _ ← engine_append task_id
        (TaskEvent.OperationTransitioned operation_id OperationStatus.IntentRecorded
           OperationStatus.Started []);
      _ ← close_operation_with_evidence task_id operation_id OperationStatus.Failed
            (lit "restart proved that the recorded intent was not dispatched");
      mret false
  | OperationStatus.Started =>
      _ ← close_operation_with_evidence task_id operation_id OperationStatus.Uncertain
            (lit "restart abandoned an active operation");
      reconcile_uncertain task_id workspace operation_id operation
  | OperationStatus.Uncertain => reconcile_uncertain task_id workspace operation_id operation
  | OperationStatus.Succeeded | OperationStatus.Failed | OperationStatus.Cancelled
  | OperationStatus.Reconciled => mret false
  end.

Fixpoint reconcile_operations (task_id : TaskId) (workspace : PathBuf)
    (operations : list (OperationId * AbandonedOperation)) : Eng (list OperationId) :=
  match operations with
  | [] => mret []
  | (operation_id, operation) :: operations =>
      uncertain ← reconcile_operation task_id workspace operation_id operation;
      others ← reconcile_operations task_id workspace operations;
      mret (if (uncertain : bool) then operation_id :: others else others)
  end.

Fixpoint join_comma (pieces : list str) : str :=
  match pieces with
  | [] => []
  | [piece] => piece
  | piece :: pieces => piece ++ 44 :: join_comma pieces
  end.

(** [true]: the task is blocked. *)
Definition reconcile_abandoned_epoch (task_id : TaskId) : Eng bool :=
  snapshot ← task_snapshot task_id;
  epoch_id ← some_or snapshot.(active_epoch) TaskEngineErrorCode.InvalidTask;
  events ← store_read (fun db => read_task_events db task_id);
  '(workspace, operations) ← some_or (abandoned_events (None, ∅) events) TaskEngineErrorCode.Storage;
  workspace ← some_or workspace TaskEngineErrorCode.InvalidTask;
  uncertain ← reconcile_operations task_id workspace (btree_iter operations);
  _ ← finish_epoch task_id epoch_id (lit "restart-reconciled-abandoned-epoch");
  if is_empty uncertain then mret false
  else
    _ ← block_task task_id
      (lit "restart blocked uncertain operations: " ++ join_comma (uuid_to_string <$> uncertain));
    mret true.

(** ** A checkpoint that a crash left uncommitted *)

Definition finished_sequences (events : list EventEnvelope) : list Z :=
  omap (fun envelope => match lifecycle_of envelope with
                        | Some (_, TaskEvent.EpochFinished _ _) => Some envelope.(sequence)
                        | _ => None
                        end) events.

Definition maximum_of (l : list Z) : option Z :=
  match l with [] => None | x :: l => Some (foldl Z.max x l) end.

Definition complete_task (task_id : TaskId) (reason : str) : Eng TaskSnapshot :=
  _ ← engine_append task_id (TaskEvent.StateTransitioned TaskStatus.Active TaskStatus.Completing reason);
  completed ← engine_append task_id TaskEvent.Completed;
  _ ← push_status task_id completed;
  mret completed.(snapshot).

(** [Some]: the result of the run. *)
Definition recover_checkpointing (task_id : TaskId) :
    Eng (option (result TaskEngineErrorCode TaskSnapshot)) :=
  previous ← runtime rt_previous_checkpoint;
  match previous with
  | None =>
      _ ← block_task task_id
        (lit "checkpoint transaction did not commit; completed work will not be repeated");
      mret (Some (Err TaskEngineErrorCode.Blocked))
  | Some checkpoint =>
      events ← store_read (fun db => read_task_events db task_id);
      latest ← some_or (maximum_of (finished_sequences events)) TaskEngineErrorCode.InvalidTask;
      if checkpoint.(source_sequence_end) <? latest then
        _ ← block_task task_id (lit "latest completed epoch is not covered by an atomic checkpoint");
        mret (Some (Err TaskEngineErrorCode.Blocked))
      else
        _ ← engine_append task_id
          (TaskEvent.StateTransitioned TaskStatus.Checkpointing TaskStatus.Active
             (lit "recovered atomically committed checkpoint"));
        if required_clauses_satisfied checkpoint.(ck_contract) then
          completed ← complete_task task_id (lit "recovered checkpoint has complete durable evidence");
          mret (Some (Ok completed))
        else
          _ ← push (TaskEngineUpdate.TaskStatus task_id TaskStatus.Active);
          mret None
  end.

(** ** Controls between epochs *)

Definition task_runtime (task_id : TaskId) : Eng RuntimeTask :=
  tasks ← gets en_tasks;
  some_or (tasks !! task_id) TaskEngineErrorCode.InvalidTask.
Definition set_task_runtime (task_id : TaskId) (r : RuntimeTask) : Eng unit :=
  change (fun e => en_set_tasks (<[task_id := r]> e.(en_tasks)) e).

Definition steer_controlled (task_id : TaskId) (text : str) (control_id : option str) : Eng unit :=
  _ ← validate_steering text;
  known ← match control_id with
    | Some control_id => gets (fun e => task_has_steering_control task_id control_id e.(en_database))
    | None => mret false
    end;
  if (known : bool) then mret tt
  else
    r ← task_runtime task_id;
    next ← some_or (checked_add u64_max r.(rt_steering_sequence) 1) TaskEngineErrorCode.InvalidTask;
    _ ← set_task_runtime task_id (rt_set_steering (r.(rt_steering) ++ [text]) (rt_set_steering_sequence next r));
    match control_id with
    | Some control_id =>
        revision ← current_revision task_id;
        now ← utc_now;
        event_id ← new_id;
        record ← store_tx (append_controlled_task_steering task_id revision r.(rt_steering_sequence)
                             (text_digest text) control_id now event_id);
        _ ← some_or record TaskEngineErrorCode.Storage;
        mret tt
    | None =>
        _ ← engine_append task_id (TaskEvent.SteeringQueued r.(rt_steering_sequence) (text_digest text));
        mret tt
    end.

Fixpoint terminate_processes (task_id : TaskId) (processes : list AgentProcess) : Eng unit :=
  match processes with
  | [] => mret tt
  | process :: processes =>
      r ← task_runtime task_id;
      answer ← exchange (out_terminate r.(rt_context_id) process.(ap_process_id))
                 (Exchange.TerminateProcess r.(rt_context_id) process.(ap_process_id));
      terminated ← require answer TaskEngineErrorCode.Provider;
      _ ← engine_append task_id (TaskEvent.BackgroundProcessTerminationRecorded
            process.(ap_process_id) process.(ap_item_id) terminated);
      if negb terminated then
        _ ← block_task task_id
          (lit "background process cleanup was not confirmed: " ++ process.(ap_process_id));
        fail TaskEngineErrorCode.Blocked
      else terminate_processes task_id processes
  end.

(** The provider epoch bound to the running epoch last. *)
Definition active_provider_epoch (task_id : TaskId) : Eng (option AgentEpochId) :=
  record ← store_read (fun db => load_task_record db task_id);
  match record ≫= (fun record => record.(snapshot).(active_epoch)) with
  | None => mret None
  | Some active_epoch =>
      events ← store_read (fun db => read_task_events db task_id);
      match last (omap (fun event => match event with
                                     | TaskEvent.ProviderEpochBound epoch_id provider_epoch_id =>
                                         if epoch_id =? active_epoch then Some provider_epoch_id else None
                                     | _ => None
                                     end) (task_events_of events)) with
      | None => mret None
      | Some provider_epoch_id =>
          id ← require (opaque_agent_id provider_epoch_id) TaskEngineErrorCode.Provider;
          mret (Some id)
      end
  end.

Definition cancel_controlled (task_id : TaskId) (control_id : option str) : Eng unit :=
  record ← get_task task_id;
  marker_exists ← match control_id with
    | Some control_id => store_read (task_has_control_marker task_id control_id TaskControlKind.Cancel)
    | None => mret false
    end;
  let current := record.(snapshot).(status) in
  if (current =?? TaskStatus.Cancelled) && (negb (is_some control_id) || marker_exists) then mret tt
  else if TaskStatus_is_terminal current then fail TaskEngineErrorCode.InvalidTask
  else
    _ ← match control_id with
        | Some control_id =>
            if (marker_exists : bool) then mret tt
            else mark_control_requested task_id control_id TaskControlKind.Cancel
        | None => mret tt
        end;
    tasks ← gets en_tasks;
    _ ← (if is_some (tasks !! task_id) then mret tt
         else
           r ← rehydrate_runtime task_id record.(snapshot);
           with_task task_id r (resume_provider_context task_id));
    r ← task_runtime task_id;
    _ ← terminate_processes task_id r.(rt_running_processes);
    r ← task_runtime task_id;
    _ ← set_task_runtime task_id (rt_set_running_processes [] r);
    provider_epoch_id ← active_provider_epoch task_id;
    outcome ← attempt (cancel_active_epoch task_id record.(snapshot).(active_epoch) (Some r.(rt_context_id))
      provider_epoch_id (started_operation_ids record.(snapshot)) None);
    match outcome with
    | Err TaskEngineErrorCode.Cancelled => mret tt
    | outcome => from_result outcome
    end.

Definition configure_controlled (task_id : TaskId) (control_id : str) (model : ModelId)
    (effort : ReasoningEffort) (permission_mode : PermissionMode) : Eng unit :=
  known ← store_read (task_has_configuration_control task_id control_id);
  if (known : bool) then mret tt
  else
    record ← get_task task_id;
    if TaskStatus_is_terminal record.(snapshot).(status) then fail TaskEngineErrorCode.InvalidTask
    else
      tasks ← gets en_tasks;
      match tasks !! task_id with
      | Some r => with_task task_id r (queue_configuration task_id control_id model effort permission_mode)
      | None =>
          _ ← engine_append task_id (TaskEvent.ConfigurationQueued control_id model effort permission_mode);
          mret tt
      end.

Definition compact_controlled (task_id : TaskId) : Eng unit :=
  snapshot ← task_snapshot task_id;
  if negb (snapshot.(status) =?? TaskStatus.Active) || is_some snapshot.(active_epoch)
  then fail TaskEngineErrorCode.InvalidTask
  else
    tasks ← gets en_tasks;
    r ← match tasks !! task_id with
        | Some r => mret r
        | None => rehydrate_runtime task_id snapshot
        end;
    with_task task_id r (queue_explicit_compaction task_id).

End Recover.
