(* ===== verification/EngineRun.v ===== *)
(** * Running a task

    [src/runtime/task/engine.rs]: planning the contract of a new task, the loop of work
    epochs with the checkpoint, the compaction and the decision after each, and the
    entry points that start, run and take up tasks. *)
From stdpp Require Import base gmap sets list sorting strings.
From S2P Require Import Prelude Ord Text Settings Policy TaskTypes Events Reducer SecretFilter Checkpoint Report Progress Context Service Live Server Database TaskStore Front Approvals StoreCheckpoint StoreConnect TaskQueries AgentPort Engine EngineOwner EngineWork EngineRecover.
From Stdlib Require Import ZArith Lia.
#[local] Open Scope list_scope.
#[local] Open Scope Z_scope.

(** [serde_json] on reports and on the structs that are hashed. *)
Class RunJson := {
  report_from_str : str -> option EpochReport;
  fingerprint_to_vec : Fingerprint -> option bytes;
  recovery_to_vec : RecoveryFingerprint -> bytes
}.

Section Run.
Context `{Uuids, Chrono, Serde, SqliteJson, CheckpointJson, ItemJson, Outside, RunJson}.

(** ** Starting a provider epoch *)

Definition record_attempt (task_id : TaskId) (epoch_id : EpochId) (attempt : RecoveryAttempt) : Eng unit :=
  _ ← engine_append task_id (TaskEvent.RecoveryAttemptRecorded epoch_id attempt.(ra_strategy)
        attempt.(ra_strategy_fingerprint) attempt.(ra_outcome));
  with_runtime (fun r => rt_set_recovery_attempts (r.(rt_recovery_attempts) ++ [attempt]) r).

Definition record_pending_recovery_failure (task_id : TaskId) (epoch_id : EpochId) : Eng unit :=
  pending ← runtime rt_pending_recovery;
  pending ← some_or pending TaskEngineErrorCode.InvalidTask;
  if negb (pending.(pd_epoch_id) =? epoch_id) then fail TaskEngineErrorCode.InvalidTask
  else
    _ ← with_runtime (rt_set_pending_recovery None);
    record_attempt task_id epoch_id
      {| ra_strategy := pending.(pd_strategy);
         ra_strategy_fingerprint := pending.(pd_strategy_fingerprint);
         ra_outcome := RecoveryAttemptOutcome.Failed |}.

(** Ends the epoch and blocks the task. *)
Definition finish_and_block {A} (task_id : TaskId) (epoch_id : EpochId) (digested reason : str) : Eng A :=
  _ ← finish_epoch task_id epoch_id digested;
  _ ← block_task task_id reason;
  fail TaskEngineErrorCode.Blocked.

Definition epoch_not_started (task_id : TaskId) (epoch_id : EpochId) (purpose : ProviderRequestPurpose) :
    Eng AgentEpochId :=
  _ ← finish_epoch task_id epoch_id (lit "provider-epoch-definitely-not-applied");
  pending ← runtime rt_pending_recovery;
  if is_some_and pending (fun pending => pending.(pd_epoch_id) =? epoch_id) then
    _ ← record_pending_recovery_failure task_id epoch_id;
    _ ← block_task task_id (lit "recovery provider epoch did not start");
    fail TaskEngineErrorCode.Blocked
  else
    match purpose with
    | ProviderRequestPurpose.ContractPlanning =>
        _ ← block_task task_id (lit "planning provider epoch did not start");
        fail TaskEngineErrorCode.Blocked
    | _ => fail TaskEngineErrorCode.Provider
    end.

Definition start_provider_epoch (task_id : TaskId) (epoch_id : EpochId)
    (purpose : ProviderRequestPurpose) (request : StartAgentEpoch) : Eng AgentEpochId :=
  record ← get_task task_id;
  exhausted ← provider_dispatch_budget_reason record;
  match exhausted with
  | Some reason => finish_and_block task_id epoch_id reason reason
  | None =>
      _ ← account_estimated_tokens (len request.(ep_input));
      request_sequence ← runtime rt_provider_requests;
      _ ← engine_append task_id (TaskEvent.ProviderRequestRecorded epoch_id purpose request_sequence
            (text_digest request.(ep_input)));
      _ ← checked_increase rt_provider_requests rt_set_provider_requests 1;
      answer ← exchange (out_start_epoch request) (Exchange.StartEpoch request);
      match answer with
      | Ok provider_epoch_id =>
          _ ← engine_append task_id (TaskEvent.ProviderEpochBound epoch_id provider_epoch_id);
          mret provider_epoch_id
      | Err error =>
          match error.(port_provenance) with
          | AgentErrorProvenance.DefinitelyNotApplied => epoch_not_started task_id epoch_id purpose
          | AgentErrorProvenance.PossiblyApplied =>
              finish_and_block task_id epoch_id (lit "provider-epoch-dispatch-uncertain")
                (lit "provider epoch dispatch is uncertain")
          end
      end
  end.

(** ** Planning *)

Section Planning.
Variables (task_id : TaskId) (epoch_id : EpochId) (provider_epoch_id : AgentEpochId).

Definition interrupt_planning_and_block {A} (reason : str) : Eng A :=
  context_id ← runtime rt_context_id;
  _ ← port_interrupt context_id provider_epoch_id;
  finish_and_block task_id epoch_id reason reason.

Definition apply_planning_control (control : TaskEngineControl) : Eng unit :=
  match control with
  | TaskEngineControl.Compact control_task_id _ =>
      for_task task_id control_task_id (queue_explicit_compaction task_id)
  | _ => apply_control task_id epoch_id provider_epoch_id [] control
  end.

Definition take_planning_control (control : TaskEngineControl) : Eng unit :=
  control ← process_owner_control control;
  match control with
  | None => mret tt
  | Some control =>
      outcome ← attempt (apply_planning_control control);
      _ ← acknowledge control outcome;
      match outcome with
      | Ok _ => mret tt
      | Err TaskEngineErrorCode.Cancelled => fail TaskEngineErrorCode.Cancelled
      | Err _ => interrupt_planning_and_block (lit "planning control delivery failed")
      end
  end.

(** One event, with the text so far and whether usage was observed. *)
Definition take_planning_event (output : str) (usage_observed : bool) (event : AgentEvent) :
    Eng (str + str * bool) :=
  bound ← runtime rt_context_id;
  let unexpected := interrupt_planning_and_block (lit "planning provider emitted an unexpected event") in
  let here context_id observed (m : Eng (str + str * bool)) : Eng (str + str * bool) :=
    if (context_id =?? bound) && (observed =?? provider_epoch_id) then m else unexpected in
  let go_on := mret (inr (output, usage_observed)) in
  match event with
  | AgentEvent.ContextStarted _ => go_on
  | AgentEvent.EpochStarted context_id observed => here context_id observed go_on
  | AgentEvent.AssistantDelta context_id observed text =>
      here context_id observed (
        _ ← account_estimated_tokens (len text);
        if MAX_CONTRACT_OUTPUT_BYTES <? len output + len text
        then interrupt_planning_and_block (lit "aggregate contract planning output exceeded its bound")
        else mret (inr (output ++ text, usage_observed)))
  | AgentEvent.UsageUpdated context_id observed usage =>
      here context_id observed (
        _ ← record_usage task_id epoch_id usage;
        mret (inr (output, true)))
  | AgentEvent.ItemStarted context_id observed item | AgentEvent.ItemCompleted context_id observed item =>
      match item with
      | AgentItem.Other _ _ | AgentItem.ContextCompaction _ => here context_id observed go_on
      | _ => unexpected
      end
  | AgentEvent.CompactionStarted context_id _ | AgentEvent.CompactionCompleted context_id _ =>
      if context_id =?? bound then go_on else unexpected
  | AgentEvent.EpochCompleted context_id observed _ =>
      here context_id observed (
        estimated ← runtime rt_estimated_tokens_since_usage;
        _ ← (if negb usage_observed || (0 <? estimated)
             then record_estimated_usage task_id epoch_id else mret tt);
        _ ← finish_epoch task_id epoch_id output;
        mret (inl output))
  | AgentEvent.ProviderFailed _ _ =>
      interrupt_planning_and_block (lit "planning provider reported failure")
  | AgentEvent.EffectRequested _ | AgentEvent.DiffUpdated _ _ _ => unexpected
  end.

Fixpoint planning_loop (fuel : nat) (hard_wall_enabled : bool) (provider_events : Z) (output : str)
    (usage_observed : bool) : Eng str :=
  match fuel with
  | O => waiting
  | S fuel =>
      next ← select_next true hard_wall_enabled;
      match next with
      | NextProvider (Err _) => interrupt_planning_and_block (lit "planning provider event delivery failed")
      | NextControl (Some control) =>
          _ ← take_planning_control control;
          planning_loop fuel hard_wall_enabled provider_events output usage_observed
      | NextControl None =>
          _ ← close_controls;
          interrupt_planning_and_block (lit "planning control channel closed")
      | NextHardBudget =>
          interrupt_planning_and_block (lit "maximum task wall time exhausted during contract planning")
      | NextBoundary => waiting
      | NextProvider (Ok event) =>
          if negb (is_ok (AgentEvent_validate event))
          then interrupt_planning_and_block (lit "planning provider event validation failed")
          else if MAX_EPOCH_PROVIDER_EVENTS <? provider_events + 1
          then interrupt_planning_and_block (lit "maximum provider events exhausted during contract planning")
          else
            outcome ← take_planning_event output usage_observed event;
            match outcome with
            | inl output => mret output
            | inr (output, usage_observed) =>
                planning_loop fuel hard_wall_enabled (provider_events + 1) output usage_observed
            end
      end
  end.

End Planning.

Definition run_planning_epoch (fuel : nat) (task_id : TaskId) (input : StartTask) (prompt objective : str) :
    Eng str :=
  epoch_id ← new_id;
  _ ← engine_append task_id (TaskEvent.EpochStarted epoch_id objective);
  _ ← push (TaskEngineUpdate.EpochObjective task_id epoch_id (lit "Derive the bounded completion contract"));
  context_id ← runtime rt_context_id;
  provider_epoch_id ← start_provider_epoch task_id epoch_id ProviderRequestPurpose.ContractPlanning
    {| ep_context_id := context_id; ep_input := prompt; ep_model := input.(st_model);
       ep_effort := input.(st_effort); ep_permission_mode := PermissionMode.Plan |};
  record ← get_task task_id;
  remaining ← remaining_wall_budget record;
  planning_loop task_id epoch_id provider_epoch_id fuel (is_some remaining) 0 [] false.

Definition plan_contract (fuel : nat) (task_id : TaskId) (input : StartTask) : Eng CompletionContract :=
  let tags := CONTRACT_OPEN ++ lit " JSON object " ++ CONTRACT_CLOSE in
  output ← run_planning_epoch fuel task_id input
    (lit "Read-only contract planning. Derive a bounded CompletionContract for this owner request without asking the owner to restate it. Return exactly one "
     ++ tags ++ lit ". Request: " ++ input.(st_request))
    (lit "Derive completion contract attempt 1");
  match parse_contract contract_from_str output with
  | Some contract => mret contract
  | None =>
      output ← run_planning_epoch fuel task_id input
        (lit "Repair the prior invalid contract. Return exactly one valid " ++ tags ++ lit "; no trailing prose.")
        (lit "Derive completion contract attempt 2");
      mret (default (fallback_contract input.(st_request)) (parse_contract contract_from_str output))
  end.

(** ** One round of the loop *)

(** [None]: the round ended before a provider was asked. *)
Definition apply_pending_configuration (task_id : TaskId) : Eng unit :=
  pending ← runtime rt_pending_configuration;
  match pending with
  | None => mret tt
  | Some configuration =>
      _ ← engine_append task_id (TaskEvent.ConfigurationApplied configuration.(pt_control_id));
      with_runtime (fun r =>
        rt_set_pending_configuration None
          (rt_set_effective_permission_mode configuration.(pt_permission_mode)
             (rt_set_permission_mode configuration.(pt_permission_mode)
                (rt_set_effort configuration.(pt_effort) (rt_set_model configuration.(pt_model) r)))))
  end.

Fixpoint send_steering (task_id : TaskId) (epoch_id : EpochId) (provider_epoch_id : AgentEpochId)
    (steering : list str) : Eng unit :=
  match steering with
  | [] => mret tt
  | text :: steering =>
      context_id ← runtime rt_context_id;
      steered ← port_steer context_id provider_epoch_id text;
      if is_ok steered then send_steering task_id epoch_id provider_epoch_id steering
      else
        (* no operation has started yet *)
        _ ← with_work (fun _ => empty_work);
        stop_epoch task_id epoch_id provider_epoch_id (lit "provider rejected queued steering")
  end.

(** Starts the next epoch and its provider. *)
Definition begin_epoch (task_id : TaskId) : Eng (EpochId * AgentEpochId) :=
  r ← runtime (fun r => r);
  let objective := recovery_objective r in
  epoch_id ← match r.(rt_pending_recovery) with
    | None => new_id
    | Some pending => mret pending.(pd_epoch_id)
    end;
  _ ← engine_append task_id (TaskEvent.EpochStarted epoch_id objective);
  _ ← push (TaskEngineUpdate.EpochObjective task_id epoch_id objective);
  provider_input ← assemble_epoch_context task_id objective;
  _ ← apply_pending_configuration task_id;
  r ← runtime (fun r => r);
  let purpose :=
    if is_some r.(rt_pending_recovery) || r.(rt_fresh_context_diagnosis)
    then ProviderRequestPurpose.Recovery else ProviderRequestPurpose.Work in
  provider_epoch_id ← start_provider_epoch task_id epoch_id purpose
    {| ep_context_id := r.(rt_context_id); ep_input := provider_input; ep_model := r.(rt_model);
       ep_effort := r.(rt_effort); ep_permission_mode := r.(rt_permission_mode) |};
  steering ← runtime rt_steering;
  _ ← with_runtime (rt_set_steering []);
  _ ← send_steering task_id epoch_id provider_epoch_id steering;
  mret (epoch_id, provider_epoch_id).

(** The permission mode was narrowed: the next round starts with it. *)
Definition end_at_configuration (task_id : TaskId) (epoch_id : EpochId) : Eng unit :=
  estimated ← runtime rt_estimated_tokens_since_usage;
  _ ← (if 0 <? estimated then record_estimated_usage task_id epoch_id else mret tt);
  _ ← engine_append task_id
    (TaskEvent.EpochInterrupted epoch_id EpochInterruptReason.PermissionTightening);
  mret tt.

Definition block_malformed {A} (task_id : TaskId) (epoch_id : EpochId) (transcript : str) : Eng A :=
  let reason := lit "provider returned a malformed terminal epoch report" in
  snapshot ← task_snapshot task_id;
  _ ← for_each (started_operation_ids snapshot) (fun operation_id =>
    close_operation_with_evidence task_id operation_id OperationStatus.Uncertain reason);
  _ ← finish_epoch_if_active task_id epoch_id transcript;
  _ ← block_task task_id reason;
  fail TaskEngineErrorCode.Blocked.

(** [runtime.pending_recovery.take().filter(..)], and what became of it. *)
Definition settle_recovery (task_id : TaskId) (epoch_id : EpochId) (terminal_status : str) : Eng unit :=
  pending ← runtime rt_pending_recovery;
  _ ← with_runtime (rt_set_pending_recovery None);
  match pending with
  | Some pending =>
      if pending.(pd_epoch_id) =? epoch_id then
        record_attempt task_id epoch_id
          {| ra_strategy := pending.(pd_strategy);
             ra_strategy_fingerprint := pending.(pd_strategy_fingerprint);
             ra_outcome := recovery_terminal_outcome terminal_status |}
      else mret tt
  | None => mret tt
  end.

Definition build_epoch_checkpoint (task_id : TaskId) (checkpoint_id : CheckpointId) (report : EpochReport) :
    Eng CanonicalCheckpoint :=
  r ← runtime (fun r => r);
  build_checkpoint task_id checkpoint_id report (report_next_objective report r).

(** The decision is taken on a tentative checkpoint. *)
Definition decide_epoch (task_id : TaskId) (checkpoint_id : CheckpointId) (report : EpochReport) :
    Eng CompletionDecision :=
  tentative ← build_epoch_checkpoint task_id checkpoint_id report;
  evidence ← runtime rt_operation_evidence;
  match decide_completion report tentative evidence with
  | Err _ =>
      _ ← block_task task_id (lit "provider completion evidence failed deterministic verification");
      fail TaskEngineErrorCode.Verification
  | Ok decision =>
      _ ← apply_clause_evidence task_id report tentative;
      mret decision
  end.

Definition assess_epoch (task_id : TaskId) (checkpoint_id : CheckpointId) (report : EpochReport) :
    Eng ProgressAssessment :=
  checkpoint ← build_epoch_checkpoint task_id checkpoint_id report;
  r ← runtime (fun r => r);
  assessment ← require (assess_progress_with_recovery_attempts store_sha256 fingerprint_to_vec recovery_to_vec
                          checkpoint report r.(rt_progress) r.(rt_recovery_attempts))
                 TaskEngineErrorCode.Verification;
  _ ← engine_append task_id
    (TaskEvent.ProgressAssessed assessment.(pa_fingerprint) (negb assessment.(new_information)));
  mret assessment.

(** [Store::commit_checkpoint]. *)
Definition store_commit (input : NewCheckpoint) (expected_revision : Z) (event_id : EventId) : Eng unit := fun e =>
  match store_commit_checkpoint e.(en_remembered) (out_data_version e.(en_transcript)) input
          expected_revision event_id e.(en_database) with
  | (db, remembered, Ok (Some _)) => (en_set_remembered remembered (en_set_database db e), Ok tt)
  | (db, remembered, _) =>
      (en_set_remembered remembered (en_set_database db e), Err (Failed TaskEngineErrorCode.Storage))
  end.

Definition commit_epoch (task_id : TaskId) (checkpoint_id : CheckpointId) (report : EpochReport) :
    Eng (CanonicalCheckpoint * ContextPackage) :=
  checkpoint ← build_epoch_checkpoint task_id checkpoint_id report;
  r ← runtime (fun r => r);
  engine ← require (context_engine r) TaskEngineErrorCode.Context;
  package ← require (assemble engine r checkpoint checkpoint.(next_objective)) TaskEngineErrorCode.Context;
  checkpoint_digest ← require (CanonicalCheckpoint_digest store_sha256 checkpoint_to_vec checkpoint)
                        TaskEngineErrorCode.Context;
  package_digest ← require (ContextPackage_digest store_sha256 store_package_to_vec package)
                     TaskEngineErrorCode.Context;
  expected_revision ← current_revision task_id;
  now ← utc_now;
  event_id ← new_id;
  _ ← store_commit
    {| nc_task_id := task_id; nc_checkpoint := checkpoint; nc_checkpoint_digest := checkpoint_digest;
       nc_context_package := package; nc_context_package_digest := package_digest;
       nc_created_at := now |} expected_revision event_id;
  _ ← push (TaskEngineUpdate.CheckpointCommitted task_id checkpoint_id checkpoint_digest);
  _ ← push (TaskEngineUpdate.CompletionClauses task_id checkpoint.(ck_contract).(clauses));
  _ ← with_runtime (rt_set_previous_checkpoint (Some checkpoint));
  mret (checkpoint, package).

(** *** Compaction *)

Definition compaction_pressure : Eng bool :=
  r ← runtime (fun r => r);
  match r.(rt_observed_total_tokens) with
  | None => mret false
  | Some total_tokens =>
      engine ← require (context_engine r) TaskEngineErrorCode.Context;
      mret (match ContextEngine_decide engine total_tokens with
            | CompactionDecision.Compact | CompactionDecision.ReplaceProviderContext => true
            | _ => false
            end)
  end.

(** The context the provider goes on with; [true] when it is another one. *)
Definition adopt_context (task_id : TaskId) (old_context : AgentContextId) (recovery : ContextRecovery) :
    Eng bool :=
  match recovery with
  | ContextRecovery.Resumed context_id | ContextRecovery.Compacted context_id =>
      _ ← with_runtime (rt_set_context_id context_id);
      mret false
  | ContextRecovery.Replaced context_id =>
      _ ← engine_append task_id (TaskEvent.ProviderContextLost old_context
            (lit "provider context replaced after compaction threshold"));
      _ ← bind_context task_id context_id;
      _ ← with_runtime (rt_set_context_id context_id);
      mret true
  end.

Definition compact_if_needed (task_id : TaskId) (checkpoint : CanonicalCheckpoint)
    (package : ContextPackage) : Eng unit :=
  explicit ← runtime rt_explicit_compaction_requested;
  pressure ← compaction_pressure;
  if negb explicit && negb pressure then mret tt
  else
    let generation := checkpoint.(compaction_generation) in
    _ ← (if (explicit : bool) then mret tt
         else
           _ ← engine_append task_id (TaskEvent.CompactionRequested generation
                 (lit "provider context pressure reached the durable threshold"));
           mret tt);
    r ← runtime (fun r => r);
    let request := resume_request r in
    answer ← exchange (out_compact_or_replace request package)
               (Exchange.CompactOrReplaceContext request package);
    recovery ← require answer TaskEngineErrorCode.Provider;
    replaced_provider ← adopt_context task_id r.(rt_context_id) recovery;
    _ ← engine_append task_id
      (TaskEvent.CompactionCompleted generation checkpoint.(ck_checkpoint_id) package.(package_id));
    _ ← push (TaskEngineUpdate.Compaction task_id generation replaced_provider);
    with_runtime (rt_set_explicit_compaction_requested false).

(** *** The decision *)

Definition block_with {A} (task_id : TaskId) (reason : str) : Eng A :=
  _ ← block_task task_id reason;
  fail TaskEngineErrorCode.Blocked.

Definition begin_recovery (task_id : TaskId) (assessment : ProgressAssessment) : Eng unit :=
  match assessment.(recovery) with
  | None => mret tt
  | Some strategy =>
      _ ← push (TaskEngineUpdate.RecoveryStrategy task_id strategy);
      recovery_epoch_id ← new_id;
      let strategy_fingerprint :=
        recovery_attempt_fingerprint store_sha256 recovery_to_vec assessment.(pa_fingerprint) strategy in
      _ ← engine_append task_id
        (TaskEvent.RecoveryAttemptStarted recovery_epoch_id strategy strategy_fingerprint);
      with_runtime (rt_set_pending_recovery
        (Some {| pd_epoch_id := recovery_epoch_id; pd_strategy := strategy;
                 pd_strategy_fingerprint := strategy_fingerprint |}))
  end.

(** [None]: the task goes on with another round. *)
Definition act_on_decision (task_id : TaskId) (decision : CompletionDecision)
    (assessment : ProgressAssessment) : Eng (option TaskSnapshot) :=
  match decision with
  | CompletionDecision.Complete =>
      _ ← engine_append task_id (TaskEvent.StateTransitioned TaskStatus.Checkpointing TaskStatus.Active
            (lit "checkpoint committed"));
      completed ← complete_task task_id (lit "every required clause has durable evidence");
      mret (Some completed)
  | CompletionDecision.Blocked reason => block_with task_id reason
  | CompletionDecision.Continue next_objective =>
      if assessment.(recovery) =?? Some RecoveryStrategy.DeclareBlocked
      then block_with task_id (lit "three materially distinct recovery attempts failed")
      else
        _ ← with_runtime (rt_set_next_objective next_objective);
        _ ← begin_recovery task_id assessment;
        active ← engine_append task_id
          (TaskEvent.StateTransitioned TaskStatus.Checkpointing TaskStatus.Active
             (lit "checkpoint committed; continuing autonomously"));
        _ ← push_status task_id active;
        quiesce ← runtime rt_quiesce_after_checkpoint;
        if (quiesce : bool) then
          _ ← with_runtime (rt_set_quiesce_after_checkpoint false);
          mret (Some active.(snapshot))
        else mret None
  end.

(** The provider ended its epoch with a report. *)
Definition conclude_epoch (task_id : TaskId) (epoch_id : EpochId) (output : WorkEpochOutput)
    (report : EpochReport) : Eng (option TaskSnapshot) :=
  _ ← finish_epoch task_id epoch_id output.(wo_transcript);
  _ ← with_runtime (rt_set_fresh_context_diagnosis false);
  _ ← settle_recovery task_id epoch_id output.(wo_terminal_status);
  checkpoint_id ← new_id;
  decision ← decide_epoch task_id checkpoint_id report;
  checkpointing ← engine_append task_id
    (TaskEvent.StateTransitioned TaskStatus.Active TaskStatus.Checkpointing
       (lit "safe epoch boundary reached"));
  _ ← push_status task_id checkpointing;
  assessment ← assess_epoch task_id checkpoint_id report;
  '(checkpoint, package) ← commit_epoch task_id checkpoint_id report;
  _ ← with_runtime (fun r => rt_set_progress (r.(rt_progress) ++ [assessment]) r);
  _ ← compact_if_needed task_id checkpoint package;
  act_on_decision task_id decision assessment.

Definition run_round (fuel : nat) (task_id : TaskId) (record : TaskRecord) : Eng (option TaskSnapshot) :=
  exhausted ← exhausted_budget_reason record;
  match exhausted with
  | Some reason => block_with task_id reason
  | None =>
      room ← gets (can_accumulate_update 0);
      if negb room then block_with task_id (lit "accumulated engine updates exceeded their bound")
      else
        '(epoch_id, provider_epoch_id) ← begin_epoch task_id;
        output ← drain_work_epoch task_id epoch_id provider_epoch_id fuel;
        if output.(configuration_boundary) then
          _ ← end_at_configuration task_id epoch_id;
          mret None
        else
          match parse_epoch_report report_from_str output.(wo_transcript) with
          | Err _ => block_malformed task_id epoch_id output.(wo_transcript)
          | Ok report => conclude_epoch task_id epoch_id output report
          end
  end.

Fixpoint run_loop (fuel : nat) (task_id : TaskId) : Eng TaskSnapshot :=
  match fuel with
  | O => waiting
  | S fuel =>
      record ← get_task task_id;
      if TaskStatus_is_terminal record.(snapshot).(status) then mret record.(snapshot)
      else
        outcome ← run_round fuel task_id record;
        match outcome with
        | Some snapshot => mret snapshot
        | None => run_loop fuel task_id
        end
  end.

(** ** Entry points *)

(** Brings a task that is not running to where a round can start; the flag says whether
    its provider context is known to be there. *)
Definition settle_task (task_id : TaskId) (record : TaskRecord) : Eng (TaskRecord * bool * bool) :=
  '(record, ready) ← match record.(snapshot).(status) with
    | TaskStatus.Queued =>
        _ ← activate_queued_task task_id;
        record ← get_task task_id;
        mret (record, true)
    | _ => mret (record, false)
    end;
  '(record, ready) ← match record.(snapshot).(status), record.(snapshot).(provider_context) with
    | TaskStatus.Active, None =>
        bound ← bind_never_bound_active_context task_id;
        if (bound : bool) then record ← get_task task_id; mret (record, true) else mret (record, ready)
    | _, _ => mret (record, ready)
    end;
  match record.(snapshot).(active_epoch) with
  | None => mret (record, ready, false)
  | Some _ =>
      blocked ← reconcile_abandoned_epoch task_id;
      if (blocked : bool) then mret (record, ready, true)
      else record ← get_task task_id; mret (record, ready, false)
  end.

Definition with_ready (ready : bool) (r : RuntimeTask) : RuntimeTask := rt_set_provider_ready ready r.

Definition run (fuel : nat) (task_id : TaskId) : Eng TaskSnapshot :=
  record ← get_task task_id;
  let current := record.(snapshot).(status) in
  if TaskStatus_is_terminal current then mret record.(snapshot)
  else if current =?? TaskStatus.Cancelling then fail TaskEngineErrorCode.Cancelled
  else if current =?? TaskStatus.Blocked then fail TaskEngineErrorCode.Blocked
  else
    '(record, ready, blocked) ← settle_task task_id record;
    if (blocked : bool) then fail TaskEngineErrorCode.Blocked
    else
      tasks ← gets en_tasks;
      r ← match tasks !! task_id with
          | Some r => mret r
          | None => r ← rehydrate_runtime task_id record.(snapshot); mret (with_ready ready r)
          end;
      _ ← change (fun e => en_set_tasks (delete task_id e.(en_tasks)) e);
      _ ← with_runtime (fun _ => r);
      recovered ← (if record.(snapshot).(status) =?? TaskStatus.Checkpointing
                   then recover_checkpointing task_id else mret None);
      r ← runtime (fun r => r);
      with_task task_id r
        (match recovered with
         | Some outcome => from_result outcome
         | None =>
             _ ← (if r.(rt_provider_ready) then mret tt else resume_provider_context task_id);
             run_loop fuel task_id
         end).

Definition new_runtime (input : StartTask) (context_id : AgentContextId) : RuntimeTask :=
  {| rt_workspace := input.(st_workspace);
     rt_request := input.(st_request);
     rt_model := input.(st_model);
     rt_effort := input.(st_effort);
     rt_permission_mode := input.(st_permission_mode);
     rt_effective_permission_mode := input.(st_permission_mode);
     rt_context_id := context_id;
     rt_next_objective :=
       lit "Implement and explicitly verify: " ++ normalized_contract_goal input.(st_request);
     rt_previous_checkpoint := None;
     rt_progress := [];
     rt_recovery_attempts := [];
     rt_pending_recovery := None;
     rt_fresh_context_diagnosis := false;
     rt_provider_replacement_needed := false;
     rt_running_processes := [];
     rt_provider_ready := true;
     rt_steering := [];
     rt_steering_sequence := 0;
     rt_operation_evidence := [];
     rt_file_hashes := ∅;
     rt_observed_total_tokens := None;
     rt_observed_context_window := None;
     rt_estimated_tokens_since_usage := 0;
     rt_completed_tools := 0;
     rt_started_tools := 0;
     rt_provider_requests := 0;
     rt_pending_configuration := None;
     rt_quiesce_after_checkpoint := false;
     rt_safe_boundary_requested := false;
     rt_explicit_compaction_requested := false |}.

Definition with_version (version : Z) (contract : CompletionContract) : CompletionContract :=
  {| version := version; goal := contract.(goal); constraints := contract.(constraints);
     clauses := contract.(clauses) |}.

Definition start_in_context (fuel : nat) (input : StartTask) (context_id : AgentContextId) : Eng TaskSnapshot :=
  _ ← validate_start input;
  let contract := fallback_contract input.(st_request) in
  now ← utc_now;
  id ← new_id;
  event_id ← new_id;
  tr ← gets en_transcript;
  created ← store_tx (create_task (out_canonicalize tr) (out_is_dir tr) (new_task input now) id event_id);
  let task_id := created.(snapshot).(TaskTypes.task_id) in
  active ← engine_append task_id (TaskEvent.StateTransitioned TaskStatus.Queued TaskStatus.Active
             (lit "autonomous execution started"));
  _ ← push_status task_id active;
  _ ← bind_context task_id context_id;
  planned ← with_task task_id (new_runtime input context_id) (plan_contract fuel task_id input);
  _ ← (if planned =?? contract then mret tt
       else
         _ ← engine_append task_id
           (TaskEvent.ContractRevised (with_version (saturating_add u32_max contract.(version) 1) planned));
         mret tt);
  run fuel task_id.

Definition start (fuel : nat) (input : StartTask) : Eng TaskSnapshot :=
  _ ← validate_start input;
  let request := {| sc_cwd := input.(st_workspace); sc_model := input.(st_model);
                    sc_permission_mode := input.(st_permission_mode) |} in
  answer ← exchange (out_start_context request) (Exchange.StartContext request);
  context_id ← require answer TaskEngineErrorCode.Provider;
  start_in_context fuel input context_id.

(** ** Startup *)

Definition created_workspaces (task_id : TaskId) (events : list EventEnvelope) : option (list PathBuf) :=
  workspaces ← mapM (fun envelope =>
    '(event_task_id, event) ← lifecycle_of envelope;
    if negb (event_task_id =? task_id) then None
    else Some (match event with TaskEvent.Created _ workspace _ _ _ _ _ => [workspace] | _ => [] end)) events;
  Some (concat workspaces).

Definition startup_workspace_is_trustworthy (task_id : TaskId) : Eng bool :=
  events ← store_read (fun db => read_task_events db task_id);
  match created_workspaces task_id events with
  | Some [workspace] =>
      tr ← gets en_transcript;
      mret (match out_canonicalize tr workspace with
            | None => false
            | Some canonical_workspace =>
                (canonical_workspace =?? workspace) && out_is_dir tr canonical_workspace
            end)
  | _ => fail TaskEngineErrorCode.Storage
  end.

Definition prepare_startup_task (task_id : TaskId) : Eng bool :=
  record ← get_task task_id;
  let current := record.(snapshot).(status) in
  if TaskStatus_is_terminal current || (current =?? TaskStatus.Blocked) || (current =?? TaskStatus.Cancelling)
  then mret false
  else
    trustworthy ← startup_workspace_is_trustworthy task_id;
    if negb trustworthy then
      _ ← block_task task_id (lit "startup workspace is unavailable or no longer canonical");
      mret false
    else
      '(record, ready, blocked) ← settle_task task_id record;
      if (blocked : bool) then mret false
      else
        r ← rehydrate_runtime task_id record.(snapshot);
        _ ← with_runtime (fun _ => with_ready ready r);
        recovered ← (if record.(snapshot).(status) =?? TaskStatus.Checkpointing
                     then recover_checkpointing task_id else mret None);
        match recovered with
        | Some (Ok _) => mret false
        | Some (Err code) => fail code
        | None =>
            _ ← (if (ready : bool) then mret tt else resume_provider_context task_id);
            _ ← change (fun e => en_set_tasks (<[task_id := e.(en_runtime)]> e.(en_tasks)) e);
            mret true
        end.

Fixpoint prepare_tasks (task_ids : list TaskId) : Eng (list TaskId) :=
  match task_ids with
  | [] => mret []
  | task_id :: task_ids =>
      outcome ← attempt (prepare_startup_task task_id);
      prepared ← match outcome with
        | Ok prepared => mret prepared
        | Err TaskEngineErrorCode.Blocked | Err TaskEngineErrorCode.Cancelled => mret false
        | Err code => fail code
        end;
      others ← prepare_tasks task_ids;
      mret (if (prepared : bool) then task_id :: others else others)
  end.

(** The tasks that were validated when the store was opened, if they are still there. *)
Definition reconcile_startup (cached : option (list TaskRecord)) : Eng (list TaskId) :=
  records ← store_read (fun db => list_resumable_tasks db cached);
  prepare_tasks ((fun record => record.(snapshot).(task_id)) <$> records).

End Run.
