(* ===== verification/StoreFrame.v ===== *)
(** * What later writes leave of earlier ones

    [later except db db'] says what a row that the engine relies on still tells in a
    later database: a context package is there, the intent of an operation is what it
    was, an approval that was consumed is what it was, and so is the configuration of a
    task, but for the tasks of [except].  Every operation of the store on tasks, and
    every operation on the frontends, is shown to lead to a later database. *)
From stdpp Require Import base gmap sets list sorting strings.
From S2P Require Import Prelude Ord Text Settings Policy TaskTypes Events Reducer Checkpoint Context Database TaskStore Front Approvals Grants StoreCheckpoint.
From Stdlib Require Import ZArith Lia.
#[local] Open Scope list_scope.
#[local] Open Scope Z_scope.

(** What of an operation never changes. *)
Definition intent_of (row : OperationRow) : str * str * str * str * str * Z :=
  (row.(or_task_id), row.(or_epoch_id), row.(or_item_id), row.(or_effect_class), row.(or_request_digest),
   row.(intent_sequence)).

Record later (except : str -> Prop) (db db' : Database) : Prop := {
  later_packages k : is_Some (db.(task_context_packages) !! k) -> is_Some (db'.(task_context_packages) !! k);
  later_operations k row : db.(task_operations) !! k = Some row ->
    exists row', db'.(task_operations) !! k = Some row' /\ intent_of row' = intent_of row;
  later_approvals k row : db.(front).(bound_approvals) !! k = Some row -> is_Some row.(bv_consumed_at) ->
    db'.(front).(bound_approvals) !! k = Some row;
  later_configuration k row : ~ except k -> db.(task_configuration_state) !! k = Some row ->
    db'.(task_configuration_state) !! k = Some row
}.

Lemma later_refl except db : later except db db.
Proof. split; eauto. Qed.

Lemma later_trans except db1 db2 db3 : later except db1 db2 -> later except db2 db3 -> later except db1 db3.
Proof.
  intros [P1 O1 A1 C1] [P2 O2 A2 C2]. split; [auto| |auto|auto].
  intros k row (row2 & H2 & E2)%O1. apply O2 in H2 as (row3 & H3 & E3). exists row3. split; [done|congruence].
Qed.

Lemma later_weaken (except except' : str -> Prop) db db' :
  (forall k, except k -> except' k) -> later except db db' -> later except' db db'.
Proof. intros Hs [P O A C]. split; auto. Qed.

(** The writes that change none of the three tables. *)
Lemma later_same except db0 db db' :
  db'.(task_context_packages) = db.(task_context_packages) -> db'.(task_operations) = db.(task_operations) ->
  db'.(front).(bound_approvals) = db.(front).(bound_approvals) ->
  db'.(task_configuration_state) = db.(task_configuration_state) -> later except db0 db -> later except db0 db'.
Proof. intros Hp Ho Ha Hc [P O A C]. split; rewrite ?Hp, ?Ho, ?Ha, ?Hc; auto. Qed.

(** The events that change the configuration of a task. *)
Definition configures (ev : TaskEvent) : bool :=
  match ev with TaskEvent.ConfigurationQueued _ _ _ _ | TaskEvent.ConfigurationApplied _ => true | _ => false end.

Create HintDb later discriminated.
#[export] Hint Constants Opaque : later.

Section Frame.
Context `{U : Uuids, C : Chrono, J : Serde, Q : SqliteJson, CJ : CheckpointJson}.
Context (except : str -> Prop) (db0 : Database).

#[local] Abbreviation lasts := (tx_keeps (later except db0)).
#[local] Ltac same :=
  intros; match goal with HL : later _ _ _ |- _ => refine (later_same _ _ _ _ _ _ _ _ HL); reflexivity end.
#[local] Ltac lasts := keeps; try same; auto with later.

Lemma package_lasts task seq now p c g json : lasts (insert_package task seq now p c g json).
Proof.
  apply tx_keeps_insert. intros db Hn [P O A Cf]. split; [|done|done|done]. intros k Hk%P. cbn.
  destruct (decide (uuid_to_string p = k)) as [->|Hne]; [by rewrite lookup_insert_eq|by rewrite lookup_insert_ne].
Qed.

Lemma insert_configuration_later db k v :
  db.(task_configuration_state) !! k = None -> later except db0 db ->
  later except db0 (set_configuration (<[k := v]> db.(task_configuration_state)) db).
Proof.
  intros Hn [P O A Cf]. split; [done|done|done|]. intros k' r Hk Hr. cbn. specialize (Cf k' r Hk Hr).
  by rewrite lookup_insert_ne by congruence.
Qed.

Lemma intent_lasts task seq now op ep item class digest :
  lasts (project_operation_intent task seq now op ep item class digest).
Proof.
  apply tx_keeps_insert. intros db Hn [P O A Cf]. split; [done| |done|done]. intros k r (r' & Hr & He)%O. cbn.
  exists r'. by rewrite lookup_insert_ne by congruence.
Qed.

Lemma transition_lasts task seq now op from_ to evidence :
  lasts (project_operation_transition task seq now op from_ to evidence).
Proof.
  unfold project_operation_transition. lasts. intros [P O A Cf]. split; [done| |done|done].
  intros k r (r' & Hr & He)%O. cbn. destruct (decide (uuid_to_string op = k)) as [<-|Hne].
  - rewrite lookup_insert_eq. rewrite Hr in H. injection H as ->. eexists. by split.
  - rewrite lookup_insert_ne by done. eauto.
Qed.

(** The configuration of a task that is excepted. *)
Lemma update_configuration_later db k v :
  except k -> later except db0 db -> later except db0 (set_configuration (<[k := v]> db.(task_configuration_state)) db).
Proof.
  intros Hx [P O A Cf]. split; [done|done|done|]. intros k' r Hk Hr. cbn. rewrite lookup_insert_ne; [by apply Cf|].
  by intros <-.
Qed.

Hint Resolve package_lasts intent_lasts transition_lasts : later.

Lemma append_event_lasts session turn ev now id : lasts (append_event_in_transaction session turn ev now id).
Proof.
  unfold append_event_in_transaction. keeps; intros db db' u; [unfold take_sequence|unfold insert_event].
  all: repeat case_match; intros; simplify_eq; same.
Qed.

Lemma child_lasts t env :
  (forall t' ev, env.(event) = Event.TaskLifecycle t' ev -> configures ev = true -> except (uuid_to_string t)) ->
  lasts (apply_task_child_projection t env).
Proof.
  intros Hx. unfold apply_task_child_projection, project_epoch_started, project_epoch_finished,
    project_epoch_interrupted, end_epoch, project_configuration_queued, project_configuration_applied,
    project_control_requested, insert_checkpoint, project_compaction_completed, project_steering_queued.
  destruct (event env) eqn:Hev; lasts.
  all: apply update_configuration_later, (Hx _ _ eq_refl eq_refl).
Qed.

Lemma update_task_lasts snapshot now : lasts (update_task_projection snapshot now).
Proof. unfold update_task_projection. lasts. Qed.

Hint Resolve append_event_lasts child_lasts update_task_lasts : later.

Lemma append_event_event session turn ev now id db db' env :
  append_event_in_transaction session turn ev now id db = Ok (db', env) -> env.(event) = ev.
Proof. unfold append_event_in_transaction. intros Ha. by tx_simpl. Qed.

(** The writes of an event of a task. *)
Lemma task_event_lasts {A} session t ev now id (reduced : EventEnvelope -> Tx TaskSnapshot) (k : TaskSnapshot -> EventEnvelope -> Tx A) :
  (configures ev = true -> except (uuid_to_string t)) ->
  (forall env, lasts (reduced env)) -> (forall snapshot env, lasts (k snapshot env)) ->
  lasts (envelope ← append_event_in_transaction session None (Event.TaskLifecycle t ev) now id;
         snapshot ← reduced envelope;
         _ ← apply_task_child_projection t envelope;
         k snapshot envelope).
Proof.
  intros Hx Hr Hk db db' a Ha HL. apply tx_bind_ok in Ha as (db1 & env & He & Ha).
  pose proof (append_event_event _ _ _ _ _ _ _ _ He) as Hev.
  apply (append_event_lasts _ _ _ _ _ _ _ _ He) in HL.
  clear He. revert db1 db' a Ha HL. change (lasts (snapshot ← reduced env; _ ← apply_task_child_projection t env; k snapshot env)).
  keeps; auto. apply child_lasts. intros t' ev' Hl Hc. apply Hx. congruence.
Qed.

Lemma append_task_event_lasts t expected ev now id :
  (configures ev = true -> except (uuid_to_string t)) -> lasts (append_task_event t expected ev now id).
Proof.
  intros Hx. unfold append_task_event, expected_task. apply tx_keeps_bind; [keeps|intros [current|]]; [|keeps].
  apply (task_event_lasts _ _ _ _ _ (fun env => from _) (fun snapshot env => _)); [done|intros; keeps|intros; lasts].
Qed.

Lemma append_in_transaction_lasts current ev now id :
  (configures ev = true -> except (uuid_to_string current.(snapshot).(task_id))) ->
  lasts (append_task_event_in_transaction current ev now id).
Proof.
  intros Hx. unfold append_task_event_in_transaction.
  apply (task_event_lasts _ _ _ _ _ (fun env => from _) (fun snapshot env => _)); [done|intros; keeps|intros; lasts].
Qed.

Lemma steering_lasts t expected n digest control now id :
  lasts (append_controlled_task_steering t expected n digest control now id).
Proof.
  unfold append_controlled_task_steering, expected_task. lasts.
  - by apply append_in_transaction_lasts.
  - intros db db' u. unfold bind_steering_control. repeat case_match; try done; intros [= <- _]; [done|same].
Qed.

Lemma append_lasts session turn ev now id : lasts (append session turn ev now id).
Proof. unfold append. lasts. Qed.

Lemma create_session_lasts id now : lasts (create_session id now).
Proof. unfold create_session. lasts. Qed.

Lemma create_inner_lasts canonicalize is_dir input receipt t id :
  lasts (create_task_inner canonicalize is_dir input receipt t id).
Proof. unfold create_task_inner, insert_task_projection, insert_task_receipt. lasts. by apply insert_configuration_later. Qed.

Lemma create_lasts canonicalize is_dir input t id : lasts (create_task canonicalize is_dir input t id).
Proof. apply create_inner_lasts. Qed.

Lemma create_idempotent_lasts canonicalize is_dir input key digest t id :
  lasts (create_task_idempotent canonicalize is_dir input key digest t id).
Proof. unfold create_task_idempotent. lasts. apply create_inner_lasts. Qed.

Lemma commit_lasts cached version input expected id : lasts (commit_checkpoint cached version input expected id).
Proof. unfold commit_checkpoint, expected_task, write_checkpoint, insert_checkpoint. lasts. Qed.

End Frame.

(** The operations on the frontends. *)
Lemma later_survives `{Uuids, Chrono} except db0 : survives (later except db0).
Proof.
  split; intros.
  1-8: match goal with HL : later _ _ _ |- _ => refine (later_same _ _ _ _ _ _ _ _ HL); reflexivity end.
  all: match goal with HL : later _ _ _ |- _ => destruct HL as [P O A Cf]; split; [done|done| |done] end;
    intros k r Hr Hs; specialize (A k r Hr Hs); cbn; rewrite lookup_insert_ne; [done|intros <-; simplify_eq].
  match goal with Hn : bv_consumed_at _ = None |- _ => rewrite Hn in Hs; by destruct Hs end.
Qed.
