(* ===== verification/EngineLogic.v ===== *)
(** * What every computation of the engine keeps

    A logic for invariants of the engine.  [kept I] lists the changes an invariant has
    to survive: assignments to the runtime that leave alone what the store also holds,
    exchanges with the outside, and the writes of the store.  Every function of the
    engine is then shown, once and for all such invariants, to keep them; the few
    functions that do more are hypotheses of the group they are used in. *)
From stdpp Require Import base gmap sets list sorting strings.
From S2P Require Import Prelude Ord Text Settings Policy TaskTypes Events Reducer SecretFilter Checkpoint Report Progress Context Service Live Server Database TaskStore Front Approvals Grants StoreCheckpoint StoreJournal StoreAuthority StoreOps StorePayload StoreConnect StoreFrame TaskQueries AgentPort Engine EngineOwner EngineWork EngineRecover EngineRun.
From Stdlib Require Import ZArith Lia.
#[local] Open Scope list_scope.
#[local] Open Scope Z_scope.

(** The models that controls carry have been parsed. *)
Definition control_ok (control : TaskEngineControl) : Prop :=
  match control with
  | TaskEngineControl.Configure _ _ model _ _ _ => model_ok model
  | TaskEngineControl.Enqueue input => model_ok input.(ot_model)
  | _ => True
  end.
Class OutsideLaws `{Outside} : Prop := {
  control_models tr control : out_control tr = Some control -> control_ok control
}.

(** The runtime changes in nothing that the store also holds. *)
Definition quiet_runtime (r r' : RuntimeTask) : Prop :=
  r'.(rt_effective_permission_mode) = r.(rt_effective_permission_mode)
  /\ r'.(rt_pending_configuration) = r.(rt_pending_configuration)
  /\ r'.(rt_provider_requests) = r.(rt_provider_requests).

(** The event changes nothing that a runtime also holds. *)
Definition quiet_event (ev : TaskEvent) : bool :=
  match ev with
  | TaskEvent.Created _ _ _ _ _ _ _
  | TaskEvent.ConfigurationQueued _ _ _ _ | TaskEvent.ConfigurationApplied _
  | TaskEvent.ProviderRequestRecorded _ _ _ _ => false
  | _ => true
  end.

(** Everything but leave for an effect and the start of an epoch of the provider. *)
Definition harmless (x : Exchange) : bool :=
  match x with
  | Exchange.ResolveEffect _ EffectDecision.Allow _ | Exchange.StartEpoch _ _ => false
  | _ => true
  end.

Definition log (x : Exchange) (e : Engine) : Engine :=
  en_set_transcript
    (e.(en_transcript) ++ [{| mo_database := e.(en_database); mo_exchange := x |}]) e.

(** A computation of the store that writes the tables of the frontends only. *)
Definition differs_in_front (db0 db : Database) : Prop :=
  later (fun _ => False) db0 db /\ exists tables, db = set_front tables db0.
Definition front_only {A} (c : Conn A) : Prop := forall db, differs_in_front db (c db).1.

Definition eng_keeps {A} (I : Engine -> Prop) (m : Eng A) : Prop := forall e, I e -> I (m e).1.

(** What else holds when a computation succeeds. *)
Definition eng_gives {A} (I : Engine -> Prop) (m : Eng A) (G : A -> Engine -> Prop) : Prop :=
  forall e, I e -> I (m e).1 /\ forall a, (m e).2 = Ok a -> G a (m e).1.

Lemma gives_bind {A B} I (m : Eng A) (k : A -> Eng B) G :
  eng_keeps I m -> (forall a, eng_gives I (k a) G) -> eng_gives I (m ≫= k) G.
Proof.
  intros Hm Hk e He. specialize (Hm e He). unfold mbind, eng_bind.
  destruct (m e) as [e' [a|s]]; [by apply Hk|done].
Qed.
Lemma gives_ret {A} (I : Engine -> Prop) (a : A) (G : A -> Engine -> Prop) :
  (forall e, I e -> G a e) -> eng_gives I (mret a) G.
Proof. intros Hg e He. split; [done|]. intros a' [= <-]. by apply Hg. Qed.
Lemma gives_fail {A} I code (G : A -> Engine -> Prop) : eng_gives I (fail code) G.
Proof. by intros e He. Qed.
Lemma gives_waiting {A} I (G : A -> Engine -> Prop) : eng_gives I waiting G.
Proof. by intros e He. Qed.
Lemma gives_attempt {A} I (m : Eng A) G :
  eng_gives I m G -> eng_gives I (attempt m) (fun r e => forall a, r = Ok a -> G a e).
Proof.
  intros Hm e He. specialize (Hm e He) as [Hi Hg]. unfold attempt.
  destruct (m e) as [e' [a|[code|]]]; (split; [done|]); intros r; [intros [= <-]|by intros [= <-]|done].
  intros a' [= <-]. by apply Hg.
Qed.
Lemma gives_iff {A} (I I' : Engine -> Prop) (m : Eng A) G :
  (forall e, I e <-> I' e) -> eng_gives I m G -> eng_gives I' m G.
Proof. intros Heq Hm e He. apply Heq in He. destruct (Hm e He) as [Hi Hg]. split; [by apply Heq|done]. Qed.
(** The rest of a computation may use what its first step gives. *)
Lemma gives_then {A B} I (m : Eng A) (k : A -> Eng B) G :
  eng_gives I m G -> (forall a, eng_keeps (fun e => I e /\ G a e) (k a)) -> eng_keeps I (m ≫= k).
Proof.
  intros Hm Hk e He. destruct (Hm e He) as [Hi Hg]. unfold mbind, eng_bind.
  destruct (m e) as [e' [a|s]]; [|done]. apply (Hk a). split; [done|by apply Hg].
Qed.
Lemma gives_bind_then {A B} I (m : Eng A) (k : A -> Eng B) G G' :
  eng_gives I m G -> (forall a, eng_gives (fun e => I e /\ G a e) (k a) G') -> eng_gives I (m ≫= k) G'.
Proof.
  intros Hm Hk e He. destruct (Hm e He) as [Hi Hg]. unfold mbind, eng_bind.
  destruct (m e) as [e' [a|s]]; [|done]. destruct (Hk a e') as [[? _] ?]; [split; [done|by apply Hg]|]. done.
Qed.

(** What a step gives may be a fact of its result alone. *)
Lemma gives_pure {A B} I (m : Eng A) (k : A -> Eng B) (phi : A -> Prop) G :
  eng_gives I m (fun a _ => phi a) -> (forall a, phi a -> eng_gives I (k a) G) -> eng_gives I (m ≫= k) G.
Proof.
  intros Hm Hk e He. destruct (Hm e He) as [Hi Hg]. unfold mbind, eng_bind.
  destruct (m e) as [e' [a|s]]; [|done]. by apply Hk; [apply Hg|].
Qed.

Lemma gives_require {A E} I (r : result E A) code : eng_gives I (require r code) (fun a _ => r = Ok a).
Proof. intros e He. destruct r; (split; [done|]); [|done]. by intros a' [= <-]. Qed.

(** *** Operations on the frontends *)

Lemma differs_survives `{Uuids, Chrono} db0 : survives (differs_in_front db0).
Proof.
  assert (forall tables db, (exists tables', db = set_front tables' db0) ->
            exists tables', set_front tables db = set_front tables' db0) as Hs.
  { intros tables db [tb ->]. by exists tables. }
  destruct (later_survives (fun _ => False) db0).
  split; intros; match goal with HD : differs_in_front _ _ |- _ => destruct HD as [HL HD] end; split; eauto; by apply Hs.
Qed.

Lemma differs_refl db : differs_in_front db db.
Proof. split; [apply later_refl|]. exists db.(front). by destruct db. Qed.

Lemma front_only_of {A} (c : Conn A) :
  (forall db0, conn_keeps (differs_in_front db0) c) -> front_only c.
Proof. intros Hc db. apply Hc, differs_refl. Qed.

Section FrontOnly.
Context `{Uuids, Chrono}.
Context (sha256 : bytes -> Sha256Digest) (canonicalize : PathBuf -> option PathBuf) (is_dir : PathBuf -> bool).

Lemma front_only_op {A} (op : FrontOp) (c : Conn A) :
  is_other op = false -> (forall db, (apply_op sha256 canonicalize is_dir (fun _ => true) op db).1 = (c db).1) ->
  front_only c.
Proof.
  intros Hop Hc db. rewrite <- Hc. apply front_only_of. intros db0. apply op_keeps; [apply differs_survives|by left].
Qed.

Lemma then_nothing_db {A B} (c : Conn A) (f : A -> B) db : (mbind (fun a => mret (f a)) c db).1 = (c db).1.
Proof. unfold mbind, conn_bind. by destruct (c db) as [db' [a|e]]. Qed.

#[local] Ltac by_op op := apply (front_only_op op); [done|intros db; apply then_nothing_db].

Lemma admit_message_front frontend actor channel workspace event now :
  front_only (admit_trusted_frontend_message sha256 canonicalize is_dir frontend actor channel workspace event now).
Proof. by_op (OpAdmitMessage frontend actor channel workspace event now). Qed.

Lemma recover_message_front frontend actor channel workspace event now :
  front_only (recover_or_admit_trusted_frontend_message sha256 canonicalize is_dir frontend actor channel
                workspace event now).
Proof.
  intros db. pose proof (admit_message_front frontend actor channel workspace event now db) as Ha.
  pose proof (differs_refl db) as Hr.
  unfold recover_or_admit_trusted_frontend_message, written_owner, mbind, conn_bind, refuse, read.
  repeat (case_match; simpl); simplify_eq/=; done.
Qed.

End FrontOnly.

Section FrontOnlyPlain.
Context `{Uuids, Chrono}.
(** Operations that need less of the outside. *)
#[local] Tactic Notation "by_plain_op" constr(sha256) constr(canonicalize) constr(is_dir) constr(op) :=
  apply (front_only_op sha256 canonicalize is_dir op); [done|intros db; apply then_nothing_db].

Lemma bind_session_front canonicalize is_dir input : front_only (bind_frontend_session canonicalize is_dir input).
Proof. by_plain_op (fun b : bytes => b) canonicalize is_dir (OpBindSession input). Qed.
Lemma configure_session_front id thread mode now : front_only (configure_frontend_session id thread mode now).
Proof. by_plain_op (fun b : bytes => b) (@Some PathBuf) (fun _ : PathBuf => true) (OpConfigureSession id thread mode now). Qed.
Lemma claim_channel_front id channel now : front_only (claim_frontend_channel id channel now).
Proof. by_plain_op (fun b : bytes => b) (@Some PathBuf) (fun _ : PathBuf => true) (OpClaimChannel id channel now). Qed.
Lemma create_bound_front id binding summary : front_only (create_bound_approval id binding summary).
Proof. by_plain_op (fun b : bytes => b) (@Some PathBuf) (fun _ : PathBuf => true) (OpCreateBound id binding summary). Qed.
Lemma create_code_front sha256 input : front_only (create_remote_code sha256 input).
Proof. by_plain_op sha256 (@Some PathBuf) (fun _ : PathBuf => true) (OpCreateCode input). Qed.
Lemma consume_remote_front sha256 claim binding status :
  front_only (consume_remote_bound_approval sha256 claim binding status).
Proof. by_plain_op sha256 (@Some PathBuf) (fun _ : PathBuf => true) (OpConsumeRemote claim binding status). Qed.

End FrontOnlyPlain.

Create HintDb eng discriminated.
#[export] Hint Constants Opaque : eng.

Section Logic.
Context `{U : Uuids, C : Chrono, J : Serde, Q : SqliteJson, CJ : CheckpointJson, IJ : ItemJson, O : Outside, RJ : RunJson}.

Definition written {A} (tx : Tx A) (e : Engine) : Engine :=
  en_set_database (transaction tx e.(en_database)).1 e.

Record kept (I : Engine -> Prop) : Prop := {
  k_runtime e r : quiet_runtime e.(en_runtime) r -> I e -> I (en_set_runtime r e);
  k_work e w : I e -> I (en_set_work w e);
  k_updates e u : I e -> I (en_set_updates u e);
  k_receipts e rs : I e -> I (en_set_receipts rs e);
  k_controls e : I e -> I (en_set_controls false e);
  k_exchange e x : harmless x = true -> I e -> I (log x e);
  k_append e t expected ev now id : quiet_event ev = true -> compaction_atomic e.(en_database) ev ->
    I e -> I (written (append_task_event t expected ev now id) e);
  k_session e session turn ev now id : I e -> I (written (append session turn ev now id) e);
  k_new_session e id now : I e -> I (written (create_session id now) e);
  k_create e canonicalize is_dir input key digest t id : model_ok input.(nt_model) -> I e ->
    I (written (create_task_idempotent canonicalize is_dir input key digest t id) e);
  k_create_plain e canonicalize is_dir input t id : model_ok input.(nt_model) -> I e ->
    I (written (create_task canonicalize is_dir input t id) e);
  k_steering e t expected n digest control now id : I e ->
    I (written (append_controlled_task_steering t expected n digest control now id) e);
  k_front e tables : later (fun _ => False) e.(en_database) (set_front tables e.(en_database)) -> I e -> I (en_set_database (set_front tables e.(en_database)) e);
  k_commit e input expected id : I e -> I (store_commit input expected id e).1
}.

Section Basic.
Context (I : Engine -> Prop).

Lemma ek_bind {A B} (m : Eng A) (k : A -> Eng B) :
  eng_keeps I m -> (forall a, eng_keeps I (k a)) -> eng_keeps I (m ≫= k).
Proof.
  intros Hm Hk e He. specialize (Hm e He). unfold mbind, eng_bind.
  destruct (m e) as [e' [a|s]]; [by apply Hk|done].
Qed.
Lemma ek_ret {A} (a : A) : eng_keeps I (mret a).
Proof. by intros e He. Qed.
Lemma ek_fail {A} code : eng_keeps I (fail code : Eng A).
Proof. by intros e He. Qed.
Lemma ek_waiting {A} : eng_keeps I (waiting : Eng A).
Proof. by intros e He. Qed.
Lemma ek_gets {A} (f : Engine -> A) : eng_keeps I (gets f).
Proof. by intros e He. Qed.
Lemma ek_runtime_read {A} (f : RuntimeTask -> A) : eng_keeps I (runtime f).
Proof. by intros e He. Qed.
Lemma ek_require {A E} (r : result E A) code : eng_keeps I (require r code).
Proof. intros e He. by destruct r. Qed.
Lemma ek_some_or {A} (o : option A) code : eng_keeps I (some_or o code).
Proof. intros e He. by destruct o. Qed.
Lemma ek_from_result {A} (r : result TaskEngineErrorCode A) : eng_keeps I (from_result r).
Proof. intros e He. by destruct r. Qed.
Lemma ek_store_read {A} (f : Database -> result CarlError A) : eng_keeps I (store_read f).
Proof. intros e He. unfold store_read. by destruct (f _). Qed.
Lemma ek_attempt {A} (m : Eng A) : eng_keeps I m -> eng_keeps I (attempt m).
Proof. intros Hm e He. specialize (Hm e He). unfold attempt. by destruct (m e) as [e' [a|[code|]]]. Qed.
Lemma ek_for_each {A} (l : list A) (body : A -> Eng unit) :
  (forall a, eng_keeps I (body a)) -> eng_keeps I (for_each l body).
Proof. intros Hb. induction l as [|a l IH]; [apply ek_ret|]. by apply ek_bind. Qed.
Lemma ek_change f : (forall e, I e -> I (f e)) -> eng_keeps I (change f).
Proof. intros Hf e He. by apply Hf. Qed.
(** A write that keeps the invariant, whatever comes of it. *)
Lemma ek_tx {A} (tx : Tx A) : (forall e, I e -> I (written tx e)) -> eng_keeps I (store_tx tx).
Proof.
  intros Hw e He. specialize (Hw e He). unfold written in Hw. unfold store_tx, store_conn, store_conn_as, execute.
  by destruct (transaction tx _) as [db [a|err]].
Qed.

Context (K : kept I).

Lemma ek_with_runtime f : (forall r, quiet_runtime r (f r)) -> eng_keeps I (with_runtime f).
Proof. intros Hf e He. by apply (k_runtime _ K). Qed.
Lemma ek_with_work f : eng_keeps I (with_work f).
Proof. intros e He. by apply (k_work _ K). Qed.
Lemma ek_checked_runtime f code :
  (forall r r', f r = Some r' -> quiet_runtime r r') -> eng_keeps I (checked_runtime f code).
Proof.
  intros Hf e He. unfold checked_runtime, runtime, gets, some_or, with_runtime, change.
  unfold mbind, eng_bind. destruct (f e.(en_runtime)) as [r|] eqn:Hr; [|done].
  apply (k_runtime _ K); [by apply Hf|done].
Qed.
Lemma ek_exchange {A} (answer : Transcript -> A) (what : A -> Exchange) :
  (forall a, harmless (what a) = true) -> eng_keeps I (exchange answer what).
Proof. intros Hw e He. by apply (k_exchange _ K). Qed.
Lemma ek_conn {A} code (c : Conn A) : front_only c -> eng_keeps I (store_conn_as code c).
Proof.
  intros Hc e He. destruct (Hc e.(en_database)) as [HL [tables Ht]]. unfold store_conn_as.
  rewrite Ht in HL. pose proof (k_front _ K e tables HL He) as Hf. rewrite <- Ht in Hf.
  by destruct (c _) as [db [a|err]].
Qed.
Lemma ek_store_commit input expected id : eng_keeps I (store_commit input expected id).
Proof. intros e He. by apply (k_commit _ K). Qed.

End Basic.

End Logic.

#[export] Hint Resolve ek_ret ek_fail ek_waiting ek_gets ek_runtime_read ek_require ek_some_or ek_from_result
  ek_store_read ek_with_work ek_store_commit : eng.
#[export] Hint Resolve bind_session_front configure_session_front claim_channel_front admit_message_front
  create_bound_front create_code_front consume_remote_front recover_message_front : eng.

Ltac quiet := intros; unfold quiet_runtime; cbn; repeat case_match; done.

(** Follows the code of a computation; what is left are the calls it does not know. *)
Ltac ek_step :=
  match goal with
  | |- eng_keeps _ (mbind _ _) => apply ek_bind; [|intros ?]
  | |- eng_keeps _ (match ?x with _ => _ end) => destruct x
  | |- eng_keeps _ (attempt _) => apply ek_attempt
  | |- eng_keeps _ (for_each _ _) => apply ek_for_each; intros ?
  | |- eng_keeps _ (with_runtime _) => apply ek_with_runtime; [assumption|quiet]
  | |- eng_keeps _ (store_conn _) => apply ek_conn; [assumption|solve [auto with eng]]
  | |- eng_keeps _ (store_conn_as _ _) => apply ek_conn; [assumption|solve [auto with eng]]
  | |- eng_keeps _ (exchange _ _) => apply ek_exchange; [assumption|done]
  | |- eng_keeps _ (tell _) => apply ek_exchange; [assumption|done]
  | |- _ => solve [eauto 4 with eng]
  end.
Ltac ek := intros; repeat (cbv zeta; ek_step).

(** The same, up to the steps that give more. *)
Ltac gives :=
  repeat (cbv zeta; match goal with
  | |- eng_gives _ (mbind _ _) _ => apply gives_bind; [solve [ek]|intros ?]
  | |- eng_gives _ (match ?x with _ => _ end) _ => destruct x
  | |- eng_gives _ (fail _) _ => apply gives_fail
  | |- eng_gives _ waiting _ => apply gives_waiting
  | |- _ => assumption
  end).

Section Functions.
Context `{U : Uuids, C : Chrono, J : Serde, Q : SqliteJson, CJ : CheckpointJson, IJ : ItemJson, O : Outside, RJ : RunJson}.
Context (I : Engine -> Prop) (K : kept I).

(** ** Primitives *)

Lemma ek_utc_now : eng_keeps I utc_now.
Proof. unfold utc_now. ek. Qed.
Lemma ek_new_id : eng_keeps I new_id.
Proof. unfold new_id. ek. Qed.
Lemma ek_port_steer c p text : eng_keeps I (port_steer c p text).
Proof. unfold port_steer. ek. Qed.
Lemma ek_port_interrupt c p : eng_keeps I (port_interrupt c p).
Proof. unfold port_interrupt. ek. Qed.
Lemma ek_get_task t : eng_keeps I (get_task t).
Proof. unfold get_task. ek. Qed.
Lemma ek_change_updates f : eng_keeps I (change (fun e => en_set_updates (f e) e)).
Proof. intros e He. by apply (k_updates _ K). Qed.
Lemma ek_push u : eng_keeps I (push u).
Proof. apply ek_change_updates. Qed.
#[local] Hint Resolve ek_utc_now ek_new_id ek_port_steer ek_port_interrupt ek_get_task ek_push : eng.

Lemma ek_push_live t u : eng_keeps I (push_live t u).
Proof.
  unfold push_live. ek; intros e He; by apply (k_updates _ K).
Qed.
(** An event whose append keeps the invariant. *)
Lemma ek_engine_append_with t ev :
  (forall e expected now id, I e -> I (written (append_task_event t expected ev now id) e)) ->
  eng_keeps I (engine_append t ev).
Proof. intros Ha. unfold engine_append, current_revision. ek. apply ek_tx. auto. Qed.
Lemma ek_engine_append_if t ev :
  quiet_event ev = true -> (forall e, I e -> compaction_atomic e.(en_database) ev) ->
  eng_keeps I (engine_append t ev).
Proof. intros Hq Hc. apply ek_engine_append_with. intros. apply (k_append _ K); auto. Qed.
(** Every event but the end of a compaction. *)
Lemma ek_engine_append t ev :
  quiet_event ev = true -> (forall db, compaction_atomic db ev) -> eng_keeps I (engine_append t ev).
Proof. intros Hq Hc. by apply ek_engine_append_if. Qed.
Lemma ek_session_append session turn ev : eng_keeps I (session_append session turn ev).
Proof. unfold session_append. ek. apply ek_tx. intros e He. by apply (k_session _ K). Qed.
#[local] Hint Resolve ek_push_live ek_session_append : eng.
#[local] Hint Extern 1 (eng_keeps _ (engine_append _ _)) => apply ek_engine_append; done : eng.

Lemma ek_task_snapshot t : eng_keeps I (task_snapshot t).
Proof. unfold task_snapshot. ek. Qed.
Lemma ek_current_revision t : eng_keeps I (current_revision t).
Proof. unfold current_revision. ek. Qed.
Lemma ek_last_task_sequence t : eng_keeps I (last_task_sequence t).
Proof. unfold last_task_sequence. ek. Qed.
Lemma ek_block_task t reason : eng_keeps I (block_task t reason).
Proof. unfold block_task, push_status. ek. Qed.
#[local] Hint Resolve ek_task_snapshot ek_current_revision ek_last_task_sequence ek_block_task : eng.
Lemma ek_fail_task t reason : eng_keeps I (fail_task t reason).
Proof. unfold fail_task, push_status. ek. Qed.
Lemma ek_close t op s reason : eng_keeps I (close_operation_with_evidence t op s reason).
Proof. unfold close_operation_with_evidence. ek. Qed.
#[local] Hint Resolve ek_fail_task ek_close : eng.
Lemma ek_fail_before t op reason : eng_keeps I (fail_before_effect_dispatch t op reason).
Proof. unfold fail_before_effect_dispatch. ek. Qed.
Lemma ek_block_uncertain t ops reason : eng_keeps I (block_uncertain_operation_ids t ops reason).
Proof. unfold block_uncertain_operation_ids. ek. Qed.
Lemma ek_finish_epoch t ep reason : eng_keeps I (finish_epoch t ep reason).
Proof. unfold finish_epoch. ek. Qed.
#[local] Hint Resolve ek_fail_before ek_block_uncertain ek_finish_epoch : eng.
Lemma ek_finish_if_active t ep reason : eng_keeps I (finish_epoch_if_active t ep reason).
Proof. unfold finish_epoch_if_active. ek. Qed.
Lemma ek_turn_interrupted turn reason : eng_keeps I (record_turn_interrupted turn reason).
Proof. unfold record_turn_interrupted. ek. Qed.
Lemma ek_mark_control t c k : eng_keeps I (mark_control_requested t c k).
Proof. unfold mark_control_requested. ek. Qed.
Lemma ek_remaining record : eng_keeps I (remaining_wall_budget record).
Proof. unfold remaining_wall_budget. ek. Qed.
#[local] Hint Resolve ek_finish_if_active ek_turn_interrupted ek_mark_control ek_remaining : eng.
Lemma ek_deadline t : eng_keeps I (hard_wall_deadline_reached t).
Proof. unfold hard_wall_deadline_reached. ek. Qed.
Lemma ek_dispatch_reason record : eng_keeps I (provider_dispatch_budget_reason record).
Proof. unfold provider_dispatch_budget_reason, wall_time_exhausted. ek. Qed.
#[local] Hint Resolve ek_deadline ek_dispatch_reason : eng.
Lemma ek_exhausted_reason record : eng_keeps I (exhausted_budget_reason record).
Proof. unfold exhausted_budget_reason. ek. Qed.

End Functions.

#[export] Hint Resolve ek_utc_now ek_new_id ek_port_steer ek_port_interrupt ek_get_task ek_push ek_push_live
  ek_session_append ek_task_snapshot ek_current_revision ek_last_task_sequence ek_block_task ek_fail_task
  ek_close ek_fail_before ek_block_uncertain ek_finish_epoch ek_finish_if_active ek_turn_interrupted
  ek_mark_control ek_remaining ek_deadline ek_dispatch_reason ek_exhausted_reason : eng.
#[export] Hint Extern 1 (eng_keeps _ (engine_append _ _)) => apply ek_engine_append; [assumption|done|done] : eng.
#[export] Hint Extern 1 (eng_keeps _ (checked_runtime _ _)) => apply ek_checked_runtime; [assumption|] : eng.

(** A change of one counter of the runtime. *)
Ltac quiet_counter := intros r r'; destruct (checked_add _ _ _); intros; simplify_option_eq; quiet.

Section Functions2.
Context `{U : Uuids, C : Chrono, J : Serde, Q : SqliteJson, CJ : CheckpointJson, IJ : ItemJson, O : Outside, RJ : RunJson}.
Context (I : Engine -> Prop) (K : kept I).

(** ** Usage, checkpoints and contexts *)

Lemma ek_increase get set amount :
  (forall n r, quiet_runtime r (set n r)) -> eng_keeps I (checked_increase get set amount).
Proof.
  intros Hs. apply ek_checked_runtime; [done|]. intros r r'.
  destruct (checked_add _ _ _); intros; simplify_option_eq. apply Hs.
Qed.
Lemma ek_estimated n : eng_keeps I (account_estimated_tokens n).
Proof. unfold account_estimated_tokens. ek. by apply ek_increase. Qed.
Lemma ek_observe_usage t ep n w : eng_keeps I (observe_usage t ep n w).
Proof. unfold observe_usage. ek. Qed.
#[local] Hint Resolve ek_estimated ek_observe_usage : eng.
Lemma ek_record_usage t ep usage : eng_keeps I (record_usage t ep usage).
Proof. unfold record_usage. ek. Qed.
Lemma ek_record_estimated t ep : eng_keeps I (record_estimated_usage t ep).
Proof. unfold record_estimated_usage. ek. Qed.
Lemma ek_build_checkpoint t c report objective : eng_keeps I (build_checkpoint t c report objective).
Proof. unfold build_checkpoint. ek. Qed.
#[local] Hint Resolve ek_record_usage ek_record_estimated ek_build_checkpoint : eng.
Lemma ek_or_block {A} t (m : Eng A) reason : eng_keeps I m -> eng_keeps I (or_block t m reason).
Proof. intros Hm. unfold or_block. ek. Qed.
Lemma ek_epoch_context t objective : eng_keeps I (assemble_epoch_context t objective).
Proof. unfold assemble_epoch_context. ek; apply ek_or_block; ek. Qed.
Lemma ek_recovery_package t : eng_keeps I (assemble_recovery_context_package t).
Proof. unfold assemble_recovery_context_package. ek. Qed.
Lemma ek_clause_evidence t report c : eng_keeps I (apply_clause_evidence t report c).
Proof. unfold apply_clause_evidence. ek. Qed.

(** ** Controls of the owner *)

Lemma ek_new_session : eng_keeps I new_session.
Proof. unfold new_session. ek. apply ek_tx. intros e He. by apply (k_new_session _ K). Qed.
Lemma ek_validate_start input : eng_keeps I (validate_start input).
Proof. unfold validate_start. ek. Qed.
#[local] Hint Resolve ek_new_session ek_validate_start : eng.
Lemma ek_enqueue input receipt : model_ok input.(st_model) -> eng_keeps I (enqueue_with_receipt input receipt).
Proof.
  intros Hm. unfold enqueue_with_receipt. ek. apply ek_tx. intros e He.
  destruct receipt as [[key digest]|]; [by apply (k_create _ K)|by apply (k_create_plain _ K)].
Qed.
Lemma ek_canonical w b : eng_keeps I (canonical_workspace_of w b).
Proof. unfold canonical_workspace_of. ek. Qed.
Lemma ek_admit_message admission channel workspace now :
  eng_keeps I (admit_message admission channel workspace now).
Proof. unfold admit_message. destruct admission.(recover_existing); ek. Qed.
#[local] Hint Resolve ek_enqueue ek_canonical ek_admit_message : eng.
Lemma ek_admit_owner input : eng_keeps I (admit_owner_message input).
Proof. unfold admit_owner_message. ek. Qed.
Lemma ek_bind_new f x w m c s now : eng_keeps I (bind_new_session f x w m c s now).
Proof. unfold bind_new_session. ek. Qed.
#[local] Hint Resolve ek_admit_owner ek_bind_new : eng.
Lemma ek_configure_owner input : eng_keeps I (configure_owner_session input).
Proof. unfold configure_owner_session. ek. Qed.
Lemma ek_enqueue_owner input : model_ok input.(ot_model) -> eng_keeps I (enqueue_owner_task input).
Proof.
  intros Hm. unfold enqueue_owner_task, admit_task, known_session, fresh_session. ek.
Qed.
#[local] Hint Resolve ek_configure_owner ek_enqueue_owner : eng.
Lemma ek_set_receipts rs : eng_keeps I (change (en_set_receipts rs)).
Proof. intros e He. by apply (k_receipts _ K). Qed.
#[local] Hint Resolve ek_set_receipts : eng.
Lemma ek_owner_control control : control_ok control -> eng_keeps I (process_owner_control control).
Proof.
  intros Hc. unfold process_owner_control, claim_command, complete_command, answer.
  destruct control; simpl in Hc; ek.
Qed.
Lemma ek_acknowledge control outcome : eng_keeps I (acknowledge control outcome).
Proof. unfold acknowledge. ek. Qed.
Lemma ek_close_controls : eng_keeps I close_controls.
Proof. intros e He. by apply (k_controls _ K). Qed.

End Functions2.

#[export] Hint Resolve ek_estimated ek_observe_usage ek_record_usage ek_record_estimated ek_build_checkpoint
  ek_epoch_context ek_recovery_package ek_clause_evidence ek_new_session ek_validate_start ek_enqueue
  ek_owner_control ek_acknowledge ek_close_controls : eng.
#[export] Hint Extern 1 (eng_keeps _ (checked_increase _ _ _)) => apply ek_increase; [assumption|quiet] : eng.

(** ** What the transcript holds *)

(** The provider has sent the event. *)
Definition received (event : AgentEvent) (e : Engine) : Prop :=
  exists db, {| mo_database := db; mo_exchange := Exchange.NextEvent (Ok event) |} ∈ e.(en_transcript).
Abbreviation delivered request := (received (AgentEvent.EffectRequested request)).

(** A property that a longer transcript cannot end. *)
Definition grows (D : Engine -> Prop) : Prop :=
  forall e e', e.(en_transcript) `prefix_of` e'.(en_transcript) -> D e -> D e'.

Lemma received_grows event : grows (received event).
Proof. intros e e' [l Hl] [db Hd]. exists db. rewrite Hl. apply elem_of_app. by left. Qed.

Section Grows.
Context `{U : Uuids, C : Chrono, J : Serde, Q : SqliteJson, CJ : CheckpointJson, IJ : ItemJson, O : Outside, RJ : RunJson}.

Lemma store_commit_transcript input expected id e :
  (store_commit input expected id e).1.(en_transcript) = e.(en_transcript).
Proof. unfold store_commit. by repeat case_match. Qed.

Lemma kept_and (I D : Engine -> Prop) : kept I -> grows D -> kept (fun e => I e /\ D e).
Proof.
  intros K G. destruct K.
  split; intros; match goal with H : I ?e /\ D ?e |- _ => destruct H as [HI HD]; split; [by auto|apply (G e _); [|done]] end.
  6: by apply prefix_app_r.
  all: try done. by rewrite store_commit_transcript.
Qed.

(** A property of the database that no write of the engine ends. *)
Definition lasting (P : Database -> Prop) : Prop :=
  forall db db', later (fun _ => False) db db' -> P db -> P db'.

Lemma transaction_later {A} except (tx : Tx A) db :
  tx_keeps (later except db) tx -> later except db (transaction tx db).1.
Proof.
  intros Hk. unfold transaction. destruct (tx db) as [[db' a]|err] eqn:Hr; [|apply later_refl].
  apply (Hk _ _ _ Hr), later_refl.
Qed.

Lemma store_commit_later input expected id e :
  later (fun _ => False) e.(en_database) (store_commit input expected id e).1.(en_database).
Proof.
  unfold store_commit, store_commit_checkpoint.
  set (tx := commit_checkpoint _ _ _ _ _).
  pose proof (transaction_later (fun _ => False) tx e.(en_database) (commit_lasts _ _ _ _ _ _ _)) as HL.
  destruct (transaction tx e.(en_database)) as [db [[[record authority]|]|err]]; exact HL.
Qed.

Lemma kept_lasting (I : Engine -> Prop) (P : Database -> Prop) :
  kept I -> lasting P -> kept (fun e => I e /\ P e.(en_database)).
Proof.
  intros K G. assert (forall (I' : Prop) db db', later (fun _ => False) db db' -> I' -> P db -> I' /\ P db') as Hl by eauto.
  destruct K; split; intros; match goal with H : I ?e /\ P ?db |- _ => destruct H as [HI HP] end.
  1-6: split; by auto.
  all: eapply Hl; [|by auto|exact HP].
  all: first [done|apply store_commit_later|apply transaction_later].
  - apply append_task_event_lasts. destruct ev; done.
  - apply append_lasts.
  - apply create_session_lasts.
  - apply create_idempotent_lasts.
  - apply create_lasts.
  - apply steering_lasts.
Qed.

Lemma store_commit_runtime input expected id e :
  (store_commit input expected id e).1.(en_runtime) = e.(en_runtime)
  /\ (store_commit input expected id e).1.(en_tasks) = e.(en_tasks).
Proof. unfold store_commit. by repeat case_match. Qed.

(** What the runtimes have to do with the database. *)
Lemma kept_facts (I : Engine -> Prop) (B : RuntimeTask -> gmap TaskId RuntimeTask -> Database -> Prop) :
  kept I -> (forall r r' ts db, quiet_runtime r r' -> B r ts db -> B r' ts db) ->
  (forall r ts, lasting (B r ts)) -> kept (fun e => I e /\ B e.(en_runtime) e.(en_tasks) e.(en_database)).
Proof.
  intros KI Hq Hl. assert (forall r ts, kept (fun e => I e /\ B r ts e.(en_database))) as K.
  { intros r ts. by apply kept_lasting. }
  split; intros e.
  { intros r Hr [Hi Hb]. split; [by apply (k_runtime _ KI)|by eapply Hq]. }
  13: { intros input expected id Hp. destruct (store_commit_runtime input expected id e) as [-> ->].
        exact (k_commit _ (K e.(en_runtime) e.(en_tasks)) e input expected id Hp). }
  all: first [exact (k_work _ (K e.(en_runtime) e.(en_tasks)) e)
             |exact (k_updates _ (K e.(en_runtime) e.(en_tasks)) e)
             |exact (k_receipts _ (K e.(en_runtime) e.(en_tasks)) e)
             |exact (k_controls _ (K e.(en_runtime) e.(en_tasks)) e)
             |exact (k_exchange _ (K e.(en_runtime) e.(en_tasks)) e)
             |exact (k_append _ (K e.(en_runtime) e.(en_tasks)) e)
             |exact (k_session _ (K e.(en_runtime) e.(en_tasks)) e)
             |exact (k_new_session _ (K e.(en_runtime) e.(en_tasks)) e)
             |exact (k_create _ (K e.(en_runtime) e.(en_tasks)) e)
             |exact (k_create_plain _ (K e.(en_runtime) e.(en_tasks)) e)
             |exact (k_steering _ (K e.(en_runtime) e.(en_tasks)) e)
             |exact (k_front _ (K e.(en_runtime) e.(en_tasks)) e)].
Qed.

End Grows.

Section Work.
Context `{U : Uuids, C : Chrono, J : Serde, Q : SqliteJson, CJ : CheckpointJson, IJ : ItemJson, O : Outside, RJ : RunJson}.
Context `{!OutsideLaws}.

Lemma ek_receive {A} (I : Engine -> Prop) (k : option TaskEngineControl -> Eng A) :
  kept I -> eng_keeps I (k None) -> (forall control, control_ok control -> eng_keeps I (k (Some control))) ->
  eng_keeps I (receive_control ≫= k).
Proof.
  intros K Hn Hs e He. unfold receive_control, exchange, mbind, eng_bind.
  assert (I (log (Exchange.ControlReceived (out_control e.(en_transcript))) e)) as Hl by by apply (k_exchange _ K).
  destruct (out_control _) as [control|] eqn:Hc; [|by apply Hn].
  apply (Hs control); [|done]. by eapply control_models.
Qed.

Lemma owner_control_given control e e' c : process_owner_control control e = (e', Ok (Some c)) -> c = control.
Proof.
  assert (forall A reply (m : Eng A), answer control reply m e = (e', Ok (Some c)) -> c = control) as Ha.
  { intros A reply m. unfold answer, attempt, tell, exchange, mbind, eng_bind, mret, eng_ret.
    by destruct (m e) as [e1 [a|[code|]]]. }
  destruct control; simpl; eauto; by intros [= _ <-].
Qed.

Lemma gives_owner (I : Engine -> Prop) control :
  kept I -> control_ok control ->
  eng_gives I (process_owner_control control) (fun o _ => forall c, o = Some c -> c = control).
Proof.
  intros K Hc e He. split; [by apply ek_owner_control|]. intros o Ho c ->.
  eapply owner_control_given. by rewrite <- Ho, <- surjective_pairing.
Qed.

Lemma ek_owner {A} (I : Engine -> Prop) control (k : option TaskEngineControl -> Eng A) :
  kept I -> control_ok control -> eng_keeps I (k None) -> eng_keeps I (k (Some control)) ->
  eng_keeps I (process_owner_control control ≫= k).
Proof.
  intros K Hc Hn Hs e He. pose proof (ek_owner_control I K control Hc e He) as Hk.
  unfold mbind, eng_bind. destruct (process_owner_control control e) as [e' [[c|]|s]] eqn:Hp; [|by apply Hn|done].
  apply owner_control_given in Hp as ->. by apply Hs.
Qed.

Context (t : TaskId).

(** What a group of functions leaves open for an invariant of a running task. *)
Record loud (I : Engine -> Prop) : Prop := {
  l_queue c m effort mode : model_ok m -> eng_keeps I (queue_configuration t c m effort mode);
  l_dispatch fuel ep pep request item op class paths :
    eng_keeps (fun e => I e /\ delivered request e) (dispatch_effect fuel t ep pep request item op class paths);
  l_apply : eng_keeps I (apply_pending_configuration t);
  l_start ep purpose request : eng_keeps I (start_provider_epoch t ep purpose request)
}.

Section Controls.
Context (I : Engine -> Prop) (K : kept I).
Context (Lq : forall c m effort mode, model_ok m -> eng_keeps I (queue_configuration t c m effort mode)).
#[local] Hint Resolve Lq : eng.

Lemma ek_safe_boundary p : eng_keeps I (request_safe_boundary t p).
Proof. unfold request_safe_boundary. ek. Qed.
Lemma ek_queue_compaction : eng_keeps I (queue_explicit_compaction t).
Proof. unfold queue_explicit_compaction. ek. Qed.
Lemma ek_cancel_active ep c p ops turn : eng_keeps I (cancel_active_epoch t ep c p ops turn).
Proof. unfold cancel_active_epoch, push_status. ek. Qed.
#[local] Hint Resolve ek_safe_boundary ek_queue_compaction ek_cancel_active : eng.
Lemma ek_steering p text c s turn : eng_keeps I (apply_steering t p text c s turn).
Proof.
  unfold apply_steering, validate_steering. ek. apply ek_tx. intros e He. by apply (k_steering _ K).
Qed.
Lemma ek_configuration p c m effort mode : model_ok m -> eng_keeps I (apply_configuration t p c m effort mode).
Proof. intros Hm. unfold apply_configuration. ek. Qed.
#[local] Hint Resolve ek_steering ek_configuration : eng.
Lemma ek_apply_control ep p ops control : control_ok control -> eng_keeps I (apply_control t ep p ops control).
Proof. intros Hc. unfold apply_control, for_task. destruct control; simpl in Hc; ek. Qed.
Lemma ek_interrupt_and_block ep p reason : eng_keeps I (interrupt_and_block_epoch t ep p reason).
Proof. unfold interrupt_and_block_epoch, active_operations. ek. Qed.
#[local] Hint Resolve ek_apply_control ek_interrupt_and_block : eng.

(** ** Approvals *)

Lemma ek_remote_code n context a pr d now : eng_keeps I (create_task_remote_code n context a pr d now).
Proof. induction n; simpl; ek. Qed.
Lemma ek_wait {A} wall (k : ApprovalWait -> Eng A) :
  eng_keeps I (k WaitHardBudget) -> eng_keeps I (k (WaitControl None)) ->
  (forall control, control_ok control -> eng_keeps I (k (WaitControl (Some control)))) ->
  eng_keeps I (wait_for_approval wall ≫= k).
Proof.
  intros Hh Hn Hs e He. unfold wait_for_approval, tell, exchange, waiting, gets, mbind, eng_bind, mret, eng_ret.
  destruct (wall && _); [by apply Hh, (k_exchange _ K)|].
  destruct (negb _); [done|].
  apply (ek_receive I (fun control => k (WaitControl control)) K Hn Hs e He).
Qed.
Lemma gives_wait wall :
  eng_gives I (wait_for_approval wall)
    (fun wait _ => match wait with WaitControl (Some control) => control_ok control | _ => True end).
Proof.
  intros e He. unfold wait_for_approval, tell, receive_control, exchange, waiting, gets, mbind, eng_bind, mret, eng_ret.
  destruct (wall && _); [|destruct (negb _)]; cbn; (split; [by first [done|apply (k_exchange _ K)]|]);
    [by intros w [= <-]|done|]. intros w [= <-]. destruct (out_control _) eqn:Hc; [|done]. by eapply control_models.
Qed.
Lemma ek_take_approval awaited control code d s turn : eng_keeps I (take_approval t awaited control code d s turn).
Proof. unfold take_approval, consume_approval. ek. Qed.
Lemma ek_tighten_awaiting ep op r : eng_keeps I (tighten_while_awaiting t ep op r).
Proof. unfold tighten_while_awaiting. ek. Qed.
#[local] Hint Resolve ek_remote_code ek_take_approval ek_tighten_awaiting : eng.
Lemma ek_await_decision fuel ep awaited : eng_keeps I (await_decision fuel t ep awaited).
Proof.
  induction fuel as [|fuel IH]; simpl; [ek|].
  apply ek_bind; [ek|intros record]. apply ek_bind; [ek|intros remaining].
  apply ek_wait; [ek|ek|]. intros control Hc. apply ek_owner; [done|done|ek|].
  destruct control; simpl in Hc; ek.
Qed.

#[local] Hint Resolve ek_await_decision : eng.
Lemma ek_deliver_notice awaited code : eng_keeps I (deliver_notice t awaited code).
Proof. unfold deliver_notice. ek. Qed.
#[local] Hint Resolve ek_deliver_notice : eng.
Lemma ek_await_approval fuel ep request op call : eng_keeps I (await_approval fuel t ep request op call).
Proof. unfold await_approval, propose_tool. ek. Qed.
#[local] Hint Resolve ek_await_approval : eng.
Lemma ek_decide_effect fuel ep request op call : eng_keeps I (decide_effect fuel t ep request op call).
Proof. unfold decide_effect. ek. Qed.
Lemma ek_close_and_block {A} op s closing blocking : eng_keeps I (close_and_block t op s closing blocking : Eng A).
Proof. unfold close_and_block. ek. Qed.
#[local] Hint Resolve ek_close_and_block : eng.
Lemma ek_within_wall op d reason : eng_keeps I (within_wall_time t op d reason).
Proof. unfold within_wall_time. ek. Qed.
Lemma ek_authorize request d call : eng_keeps I (authorize_dispatch request d call).
Proof. unfold authorize_dispatch, propose_tool. ek. Qed.
Lemma ek_port_deny wall r : eng_keeps I (port_resolve wall r EffectDecision.Deny).
Proof. unfold port_resolve. ek. Qed.
#[local] Hint Resolve ek_decide_effect ek_within_wall ek_authorize ek_port_deny : eng.

(** An invariant that any exchange keeps is kept by an effect that is allowed. *)
Lemma ek_resolve_effect fuel ep request op call :
  (forall r answer e, I e -> I (log (Exchange.ResolveEffect r EffectDecision.Allow answer) e)) ->
  eng_keeps I (resolve_effect fuel t ep request op call).
Proof.
  intros Hx. assert (forall wall r d, eng_keeps I (port_resolve wall r d)) as Hp.
  { intros wall r []; [|ek]. intros e He. by apply Hx. }
  unfold resolve_effect. ek; apply Hp.
Qed.

(** ** Items *)

Lemma ek_record_started ep op item class digest : eng_keeps I (record_started t ep op item class digest).
Proof. unfold record_started. ek. Qed.
Lemma ek_started_tool : eng_keeps I started_tool.
Proof. unfold started_tool. ek. Qed.
Lemma ek_completed_tool : eng_keeps I completed_tool.
Proof. unfold completed_tool. ek. Qed.
Lemma quiet_processes item b r r' : update_running_processes item b r = Some r' -> quiet_runtime r r'.
Proof. unfold update_running_processes. intros. repeat case_match; simplify_eq; quiet. Qed.
Lemma ek_update_processes item b : eng_keeps I (update_processes item b).
Proof. apply ek_checked_runtime; [done|apply quiet_processes]. Qed.
#[local] Hint Resolve ek_record_started ek_started_tool ek_completed_tool ek_update_processes : eng.
Lemma ek_start_item item : eng_keeps I (start_item item).
Proof. unfold start_item. ek. Qed.
Lemma ek_deny_at_boundary ep p request item op : eng_keeps I (deny_at_boundary t ep p request item op).
Proof. unfold deny_at_boundary, insert_operation_entry, remove_operation_entry, remove_item. ek. Qed.
Lemma ek_capture w paths : eng_keeps I (capture_file_postcondition w paths).
Proof.
  unfold capture_file_postcondition. ek. induction paths; simpl; [ek|]. unfold inspect_file. ek.
Qed.
Lemma ek_list_processes c : eng_keeps I (list_processes c).
Proof. unfold list_processes. ek. Qed.
#[local] Hint Resolve ek_start_item ek_deny_at_boundary ek_capture ek_list_processes : eng.
Lemma ek_reconcile_completed item : eng_keeps I (reconcile_completed_process item).
Proof. unfold reconcile_completed_process. ek. Qed.
Lemma ek_bind_postcondition active s item : eng_keeps I (bind_postcondition t active s item).
Proof. unfold bind_postcondition, capture_changed_files. ek. Qed.
Lemma quiet_evidence op item s r r' : retain_normalized_evidence op item s r = Some r' -> quiet_runtime r r'.
Proof. unfold retain_normalized_evidence. intros. repeat case_match; simplify_option_eq; quiet. Qed.
Lemma ek_retain op item s code : eng_keeps I (checked_runtime (retain_normalized_evidence op item s) code).
Proof. apply ek_checked_runtime; [done|apply quiet_evidence]. Qed.
#[local] Hint Resolve ek_reconcile_completed ek_bind_postcondition ek_retain : eng.
Lemma ek_complete_tool active item : eng_keeps I (complete_tool t active item).
Proof. unfold complete_tool, remove_item. ek. Qed.
#[local] Hint Resolve ek_complete_tool : eng.
Lemma ek_complete_item ep item : eng_keeps I (complete_item t ep item).
Proof.
  unfold complete_item, complete_plain_item, take_operation, observe_command, remove_item, remove_operation_entry. ek.
Qed.

End Controls.

End Work.
