(* ===== verification/EngineKeeps.v ===== *)
(** * What a task that runs keeps

    The rules of [EngineLogic] followed through the functions that run a task: one
    epoch of work, planning, the rounds of the loop and the recovery of a task.  Each is
    proved once for every invariant that is [kept] and [loud]. *)
From stdpp Require Import base gmap sets list sorting strings.
From S2P Require Import Prelude Ord Text Settings Policy TaskTypes Events Reducer SecretFilter Checkpoint Report Progress Context Service Live Server Database TaskStore Front Approvals Grants StoreCheckpoint StoreJournal StoreAuthority StoreOps StorePayload StoreConnect StoreFrame TaskQueries AgentPort Engine EngineOwner EngineWork EngineRecover EngineRun EngineLogic.
From Stdlib Require Import ZArith Lia.
#[local] Open Scope list_scope.
#[local] Open Scope Z_scope.

#[export] Hint Resolve ek_safe_boundary ek_queue_compaction ek_cancel_active ek_steering ek_configuration
  ek_apply_control ek_interrupt_and_block ek_remote_code ek_take_approval ek_tighten_awaiting
  ek_await_decision ek_deliver_notice ek_await_approval ek_decide_effect ek_close_and_block ek_within_wall
  ek_authorize ek_port_deny ek_record_started ek_started_tool ek_completed_tool ek_update_processes
  ek_start_item ek_deny_at_boundary ek_capture ek_list_processes ek_reconcile_completed
  ek_bind_postcondition ek_retain ek_complete_tool ek_complete_item : eng.

Section Task.
Context `{U : Uuids, C : Chrono, J : Serde, Q : SqliteJson, CJ : CheckpointJson, IJ : ItemJson, O : Outside, RJ : RunJson}.
Context `{!OutsideLaws}.
Context (t : TaskId) (I : Engine -> Prop) (K : kept I) (L : loud t I).

#[local] Definition Lq := l_queue _ _ L.
#[local] Definition La := l_apply _ _ L.
#[local] Definition Ls := l_start _ _ L.
#[local] Hint Resolve Lq La Ls : eng.

(** ** Events *)

Lemma ek_request_effect fuel ep p b request :
  eng_keeps (fun e => I e /\ received (AgentEvent.EffectRequested request) e) (request_effect fuel t ep p b request).
Proof.
  assert (kept (fun e => I e /\ received (AgentEvent.EffectRequested request) e)) as K'
    by (apply kept_and; [done|apply received_grows]).
  unfold request_effect. ek; apply (l_dispatch _ _ L).
Qed.

Lemma ek_process_event fuel ep p b event :
  eng_keeps (fun e => I e /\ received event e) (process_work_event fuel t ep p b event).
Proof.
  assert (kept (fun e => I e /\ received event e)) as K' by (apply kept_and; [done|apply received_grows]).
  unfold process_work_event. destruct event; ek; apply ek_request_effect.
Qed.

(** The first step of a computation may use more than the invariant. *)
Lemma ek_first {A B} (D : Engine -> Prop) (m : Eng A) (k : A -> Eng B) :
  eng_keeps (fun e => I e /\ D e) m -> (forall a, eng_keeps I (k a)) ->
  forall e, I e -> D e -> I ((m ≫= k) e).1.
Proof.
  intros Hm Hk e He Hd. destruct (Hm e (conj He Hd)) as [He' _]. unfold mbind, eng_bind.
  destruct (m e) as [e' [a|s]]; [by apply Hk|done].
Qed.

Lemma ek_stop {A} ep p reason : eng_keeps I (stop_epoch t ep p reason : Eng A).
Proof. unfold stop_epoch. ek. Qed.
#[local] Hint Resolve ek_stop : eng.
Lemma ek_ask_boundary ep p : eng_keeps I (ask_boundary t ep p).
Proof. unfold ask_boundary. ek. Qed.
Lemma ek_calls_exhausted event : eng_keeps I (tool_calls_exhausted t event).
Proof. unfold tool_calls_exhausted. ek. Qed.
Lemma ek_finish_work ep p s : eng_keeps I (finish_work t ep p s).
Proof. unfold finish_work. ek. Qed.

End Task.

#[export] Hint Resolve ek_stop ek_ask_boundary ek_calls_exhausted ek_finish_work : eng.

Section Drain.
Context `{U : Uuids, C : Chrono, J : Serde, Q : SqliteJson, CJ : CheckpointJson, IJ : ItemJson, O : Outside, RJ : RunJson}.
Context `{!OutsideLaws}.
Context (t : TaskId) (I : Engine -> Prop) (K : kept I) (L : loud t I).
#[local] Hint Resolve l_queue l_apply l_start : eng.

Lemma ek_take_event fuel ep p start d event :
  eng_keeps (fun e => I e /\ received event e) (take_event t ep p fuel start d event).
Proof.
  assert (kept (fun e => I e /\ received event e)) as K' by (apply kept_and; [done|apply received_grows]).
  unfold take_event. ek. by apply ek_process_event.
Qed.

Lemma ek_select {A} b wall (k : Next -> Eng A) :
  (forall error, eng_keeps I (k (NextProvider (Err error)))) ->
  (forall event e, I e -> received event e -> I (k (NextProvider (Ok event)) e).1) ->
  eng_keeps I (k NextBoundary) -> eng_keeps I (k NextHardBudget) -> eng_keeps I (k (NextControl None)) ->
  (forall control, control_ok control -> eng_keeps I (k (NextControl (Some control)))) ->
  eng_keeps I (select_next b wall ≫= k).
Proof.
  intros He Hok Hb Hh Hn Hc.
  assert (eng_keeps I (event ← exchange out_event Exchange.NextEvent; k (NextProvider event))) as Hp.
  { intros e Hi. unfold exchange, mbind, eng_bind.
    assert (I (log (Exchange.NextEvent (out_event e.(en_transcript))) e)) as Hl by by apply (k_exchange _ K).
    destruct (out_event _) as [event|error] eqn:Ho; [|by apply He]. apply Hok; [done|].
    exists e.(en_database). apply elem_of_app. right. by apply list_elem_of_singleton. }
  assert (eng_keeps I (control ← receive_control; k (NextControl control))) as Hr by by apply ek_receive.
  assert (eng_keeps I (_ ← tell Exchange.TimerFired; k NextBoundary)) as Ht by ek.
  assert (eng_keeps I (_ ← tell Exchange.WallTimeReached; k NextHardBudget)) as Hw by ek.
  intros e Hi. specialize (Hp e Hi). specialize (Hr e Hi). specialize (Ht e Hi). specialize (Hw e Hi).
  unfold select_next, gets, receive_control, tell, exchange, mbind, eng_bind, mret, eng_ret in *. cbn in *.
  destruct (out_ready _), (negb b), wall; try match goal with |- context [if ?c then _ else _] => destruct c end;
    first [exact Hp|exact Hr|exact Ht|exact Hw].
Qed.

Lemma ek_control_failed {A} ep p control code : eng_keeps I (control_failed t ep p control code : Eng A).
Proof. unfold control_failed. ek. Qed.
Lemma ek_tighten_running {A} ep : eng_keeps I (tighten_running t ep : Eng A).
Proof. unfold tighten_running, active_operations. ek. Qed.
#[local] Hint Resolve ek_control_failed ek_tighten_running : eng.
Lemma ek_take_control ep p control : control_ok control -> eng_keeps I (take_control t ep p control).
Proof.
  intros Hc. unfold take_control. apply ek_owner; [done|done|ek|]. unfold active_operations.
  ek.
Qed.
#[local] Hint Resolve ek_take_control : eng.

Lemma ek_drain_loop fuel ep p wall start d : eng_keeps I (drain_loop t ep p fuel wall start d).
Proof.
  revert d. induction fuel as [|fuel IH]; intros d; cbn [drain_loop]; [ek|]. apply ek_select.
  - intros error. ek.
  - intros event e He Hr. apply (ek_first _ (received event)); [by apply ek_take_event| |done|done]. ek.
  - ek.
  - ek.
  - ek.
  - intros control Hc. ek.
Qed.
#[local] Hint Resolve ek_drain_loop : eng.
Lemma ek_drain ep p fuel : eng_keeps I (drain_work_epoch t ep p fuel).
Proof. unfold drain_work_epoch. ek. Qed.

#[local] Hint Resolve ek_drain : eng.

(** ** Planning *)

Lemma ek_finish_and_block {A} ep digested reason : eng_keeps I (finish_and_block t ep digested reason : Eng A).
Proof. unfold finish_and_block. ek. Qed.
#[local] Hint Resolve ek_finish_and_block : eng.
Lemma ek_interrupt_planning {A} ep p reason : eng_keeps I (interrupt_planning_and_block t ep p reason : Eng A).
Proof. unfold interrupt_planning_and_block. ek. Qed.
#[local] Hint Resolve ek_interrupt_planning : eng.
Lemma ek_planning_control ep p control : control_ok control -> eng_keeps I (take_planning_control t ep p control).
Proof.
  intros Hc. unfold take_planning_control. apply ek_owner; [done|done|ek|].
  unfold apply_planning_control, for_task. destruct control; ek.
Qed.
Lemma ek_planning_event ep p output b event : eng_keeps I (take_planning_event t ep p output b event).
Proof. unfold take_planning_event. destruct event; ek. Qed.
#[local] Hint Resolve ek_planning_control ek_planning_event : eng.
Lemma ek_planning_loop ep p fuel wall n output b : eng_keeps I (planning_loop t ep p fuel wall n output b).
Proof.
  revert n output b. induction fuel as [|fuel IH]; intros n output b; cbn [planning_loop]; [ek|]. apply ek_select.
  - intros error. ek.
  - intros event e He _. revert e He. match goal with |- forall e, I e -> I (?m e).1 => change (eng_keeps I m) end. ek.
  - ek.
  - ek.
  - ek.
  - intros control Hc. ek.
Qed.
#[local] Hint Resolve ek_planning_loop : eng.
Lemma ek_planning_epoch fuel input prompt objective : eng_keeps I (run_planning_epoch fuel t input prompt objective).
Proof. unfold run_planning_epoch. ek. Qed.
#[local] Hint Resolve ek_planning_epoch : eng.
Lemma ek_plan_contract fuel input : eng_keeps I (plan_contract fuel t input).
Proof. unfold plan_contract. ek. Qed.

End Drain.

#[export] Hint Resolve ek_drain ek_plan_contract ek_finish_and_block : eng.

(** ** Contexts and abandoned epochs *)

Section Recover.
Context `{U : Uuids, C : Chrono, J : Serde, Q : SqliteJson, CJ : CheckpointJson, IJ : ItemJson, O : Outside, RJ : RunJson}.
Context `{!OutsideLaws}.
Context (t : TaskId) (I : Engine -> Prop) (K : kept I).

Lemma ek_start_context events : eng_keeps I (start_context_for events).
Proof. unfold start_context_for. ek. Qed.
Lemma ek_bind_context context : eng_keeps I (bind_context t context).
Proof. unfold bind_context. ek. Qed.
#[local] Hint Resolve ek_start_context ek_bind_context : eng.
Lemma ek_activate : eng_keeps I (activate_queued_task t).
Proof. unfold activate_queued_task. ek. Qed.
Lemma ek_never_bound : eng_keeps I (bind_never_bound_active_context t).
Proof. unfold bind_never_bound_active_context. ek. Qed.
Lemma ek_recovered observed expected : eng_keeps I (recovered_processes t observed expected).
Proof. unfold block_uncertain_process. induction expected; cbn [recovered_processes]; unfold block_uncertain_process; ek. Qed.
#[local] Hint Resolve ek_recovered : eng.
Lemma ek_background : eng_keeps I (reconcile_background_processes t).
Proof. unfold reconcile_background_processes, block_uncertain_process. ek. Qed.
#[local] Hint Resolve ek_background : eng.
Lemma ek_replace_context request package : eng_keeps I (replace_provider_context t request package).
Proof. unfold replace_provider_context. ek. Qed.
#[local] Hint Resolve ek_replace_context : eng.
Lemma ek_resume_context : eng_keeps I (resume_provider_context t).
Proof. unfold resume_provider_context. ek. Qed.

Lemma ek_restart_evidence op text : eng_keeps I (record_restart_evidence t op text).
Proof. unfold record_restart_evidence. ek. Qed.
Lemma ek_mark_reconciled op n : eng_keeps I (mark_reconciled t op n).
Proof. unfold mark_reconciled. ek. Qed.
#[local] Hint Resolve ek_restart_evidence ek_mark_reconciled : eng.
Lemma ek_reconcile_uncertain w op operation : eng_keeps I (reconcile_uncertain t w op operation).
Proof.
  unfold reconcile_uncertain, reconcile_observation, reconcile_idempotent_postcondition,
    inspect_file_postcondition. ek.
Qed.
#[local] Hint Resolve ek_reconcile_uncertain : eng.
Lemma ek_reconcile_operation w op operation : eng_keeps I (reconcile_operation t w op operation).
Proof. unfold reconcile_operation. ek. Qed.
#[local] Hint Resolve ek_reconcile_operation : eng.
Lemma ek_reconcile_operations w operations : eng_keeps I (reconcile_operations t w operations).
Proof. induction operations as [|[op operation] l IH]; cbn [reconcile_operations]; ek. Qed.
#[local] Hint Resolve ek_reconcile_operations : eng.
Lemma ek_abandoned : eng_keeps I (reconcile_abandoned_epoch t).
Proof. unfold reconcile_abandoned_epoch. ek. Qed.

Lemma ek_complete_task reason : eng_keeps I (complete_task t reason).
Proof. unfold complete_task, push_status. ek. Qed.
#[local] Hint Resolve ek_complete_task : eng.
Lemma ek_checkpointing : eng_keeps I (recover_checkpointing t).
Proof. unfold recover_checkpointing. ek. Qed.

#[local] Hint Resolve ek_activate ek_never_bound ek_abandoned : eng.
Lemma ek_settle_task record : eng_keeps I (settle_task t record).
Proof. unfold settle_task. ek. Qed.
End Recover.

#[export] Hint Resolve ek_bind_context ek_resume_context ek_complete_task ek_checkpointing ek_settle_task : eng.

(** ** Rounds *)

Section Rounds.
Context `{U : Uuids, C : Chrono, J : Serde, Q : SqliteJson, CJ : CheckpointJson, IJ : ItemJson, O : Outside, RJ : RunJson}.
Context `{!OutsideLaws}.

(** The context package is stored. *)
Definition packaged (package : ContextPackage) (db : Database) : Prop :=
  is_Some (db.(task_context_packages) !! uuid_to_string package.(package_id)).

Lemma packaged_lasting package : lasting (packaged package).
Proof. intros db db' HL. apply (later_packages _ _ _ HL). Qed.

Lemma store_commit_packaged input expected id e e' :
  store_commit input expected id e = (e', Ok tt) -> packaged input.(nc_context_package) e'.(en_database).
Proof.
  unfold store_commit, store_commit_checkpoint, transaction.
  destruct (commit_checkpoint _ _ _ _ _ _) as [[db [[record authority]|]]|err] eqn:Hc; [|done|done].
  intros [= <-]. cbn. unfold commit_checkpoint, expected_task in Hc. tx_simpl. case_match; tx_simpl. case_match. tx_simpl.
  unfold write_checkpoint, insert_package, update_task_projection in *. tx_simpl.
  all: unfold packaged; cbn; rewrite lookup_insert_eq; eauto.
Qed.

Section Kept.
Context (t : TaskId) (I : Engine -> Prop) (K : kept I).

(** After a commit its package is stored. *)
Lemma gives_commit input expected id :
  eng_gives I (store_commit input expected id)
    (fun _ e => packaged input.(nc_context_package) e.(en_database)).
Proof.
  intros e He. split; [by apply (k_commit _ K)|]. intros [] Hc. apply (store_commit_packaged input expected id e).
  by rewrite <- Hc, <- surjective_pairing.
Qed.

Lemma ek_record_attempt ep attempt : eng_keeps I (record_attempt t ep attempt).
Proof. unfold record_attempt. ek. Qed.
#[local] Hint Resolve ek_record_attempt : eng.
Lemma ek_recovery_failure ep : eng_keeps I (record_pending_recovery_failure t ep).
Proof. unfold record_pending_recovery_failure. ek. Qed.
#[local] Hint Resolve ek_recovery_failure : eng.
Lemma ek_not_started ep purpose : eng_keeps I (epoch_not_started t ep purpose).
Proof. unfold epoch_not_started. ek. Qed.
Lemma ek_settle_recovery ep s : eng_keeps I (settle_recovery t ep s).
Proof. unfold settle_recovery. ek. Qed.
Lemma ek_epoch_checkpoint c report : eng_keeps I (build_epoch_checkpoint t c report).
Proof. unfold build_epoch_checkpoint. ek. Qed.
#[local] Hint Resolve ek_epoch_checkpoint : eng.
Lemma ek_decide_epoch c report : eng_keeps I (decide_epoch t c report).
Proof. unfold decide_epoch. ek. Qed.
Lemma ek_assess_epoch c report : eng_keeps I (assess_epoch t c report).
Proof. unfold assess_epoch. ek. Qed.
Lemma ek_at_configuration ep : eng_keeps I (end_at_configuration t ep).
Proof. unfold end_at_configuration. ek. Qed.
Lemma ek_malformed {A} ep text : eng_keeps I (block_malformed t ep text : Eng A).
Proof. unfold block_malformed. ek. Qed.
Lemma ek_block_with {A} reason : eng_keeps I (block_with t reason : Eng A).
Proof. unfold block_with. ek. Qed.
#[local] Hint Resolve ek_block_with : eng.
Lemma ek_begin_recovery assessment : eng_keeps I (begin_recovery t assessment).
Proof. unfold begin_recovery. ek. Qed.
#[local] Hint Resolve ek_begin_recovery : eng.
Lemma ek_act decision assessment : eng_keeps I (act_on_decision t decision assessment).
Proof. unfold act_on_decision, push_status. ek. Qed.

End Kept.

#[local] Hint Resolve ek_settle_recovery ek_epoch_checkpoint ek_decide_epoch ek_assess_epoch ek_at_configuration
  ek_malformed ek_block_with ek_act : eng.

Section Compact.
Context (t : TaskId) (I : Engine -> Prop) (K : kept I).

Lemma ek_compact checkpoint package :
  eng_keeps (fun e => I e /\ packaged package e.(en_database)) (compact_if_needed t checkpoint package).
Proof.
  assert (kept (fun e => I e /\ packaged package e.(en_database))) as K' by (by apply kept_lasting, packaged_lasting).
  unfold compact_if_needed, compaction_pressure, adopt_context. ek.
  all: apply ek_engine_append_if; [done|done|]; intros e [_ Hp]; by left.
Qed.

(** What follows a commit knows of its package. *)
Lemma gives_commit_epoch c report :
  eng_gives I (commit_epoch t c report) (fun committed e => packaged committed.2 e.(en_database)).
Proof.
  unfold commit_epoch. do 9 (apply gives_bind; [ek|intros ?]). eapply gives_bind_then; [by apply gives_commit|].
  intros []. cbn. set (P := fun e => _ /\ _).
  assert (kept P) as K' by (apply (kept_lasting I (packaged _)); [done|apply packaged_lasting]).
  do 3 (apply gives_bind; [ek|intros ?]). apply gives_ret. by intros e [_ Hp].
Qed.

Lemma ek_conclude ep output report : eng_keeps I (conclude_epoch t ep output report).
Proof.
  unfold conclude_epoch, push_status. do 8 (apply ek_bind; [ek|intros ?]).
  eapply gives_then; [apply gives_commit_epoch|]. intros [checkpoint package]. cbn [snd].
  assert (kept (fun e => I e /\ packaged package e.(en_database))) as K' by (by apply kept_lasting, packaged_lasting).
  ek. apply ek_compact.
Qed.
End Compact.

#[local] Hint Resolve ek_conclude : eng.

Section Loud.
Context (t : TaskId) (I : Engine -> Prop) (K : kept I) (L : loud t I).
#[local] Hint Resolve l_apply l_start : eng.

Lemma ek_send_steering ep p steering : eng_keeps I (send_steering t ep p steering).
Proof. induction steering; cbn [send_steering]; ek. Qed.
#[local] Hint Resolve ek_send_steering : eng.
Lemma ek_begin_epoch : eng_keeps I (begin_epoch t).
Proof. unfold begin_epoch. ek. Qed.
#[local] Hint Resolve ek_begin_epoch : eng.
Lemma ek_run_round fuel record : eng_keeps I (run_round fuel t record).
Proof. unfold run_round. ek. Qed.
#[local] Hint Resolve ek_run_round : eng.
Lemma ek_run_loop fuel : eng_keeps I (run_loop fuel t).
Proof. induction fuel; cbn [run_loop]; ek. Qed.

End Loud.
End Rounds.
