(* ===== verification/EngineStages.v ===== *)
(** * Idle and running

    Between two calls an engine is idle: it holds the runtimes of the tasks it has
    worked on.  A call takes one of them, or reads it from the journal, runs the task
    with it and puts it back.  [staged] says what an invariant of the idle engine, an
    invariant of the engine that runs a task, and the relation of a runtime to the
    database have to do with each other; every call of the engine is then shown to lead
    from idle to idle.  A call that waits for ever stays where the weaker property
    holds. *)
From stdpp Require Import base gmap sets list sorting strings.
From S2P Require Import Prelude Ord Text Settings Policy TaskTypes Events Reducer SecretFilter Checkpoint Report Progress Context Service Live Server Database TaskStore Front Approvals Grants StoreCheckpoint StoreJournal StoreAuthority StoreOps StorePayload StoreConnect StoreFrame TaskQueries AgentPort Engine EngineOwner EngineWork EngineRecover EngineRun EngineLogic EngineKeeps.
From Stdlib Require Import ZArith Lia.
#[local] Open Scope list_scope.
#[local] Open Scope Z_scope.

Section Stages.
Context `{U : Uuids, C : Chrono, J : Serde, Q : SqliteJson, CJ : CheckpointJson, IJ : ItemJson, O : Outside, RJ : RunJson}.
Context `{!OutsideLaws}.

Record staged (Idle Waits : Engine -> Prop) (Runs : TaskId -> Engine -> Prop)
    (Agrees : TaskId -> RuntimeTask -> Database -> Prop) : Prop := {
  g_idle : kept Idle;
  g_running t : kept (Runs t);
  g_loud t : loud t (Runs t);
  g_controls e b : Idle e -> Idle (en_set_controls b e);
  g_notices e b : Idle e -> Idle (en_set_notices b e);
  g_frontend e context : Idle e -> Idle (en_set_frontend context e);
  g_runtime e r : Idle e -> Idle (en_set_runtime r e);
  g_forget e t : Idle e -> Idle (en_set_tasks (delete t e.(en_tasks)) e);
  g_put e t r : Idle e -> Agrees t r e.(en_database) -> Idle (en_set_tasks (<[t := r]> e.(en_tasks)) e);
  g_known e t r : Idle e -> e.(en_tasks) !! t = Some r -> Agrees t r e.(en_database);
  g_quiet t r r' db : quiet_runtime r r' -> Agrees t r db -> Agrees t r' db;
  g_lasting t r : lasting (Agrees t r);
  g_rehydrate t s e r : Idle e -> (rehydrate_runtime t s e).2 = Ok r -> Agrees t r e.(en_database);
  g_created e input context canonicalize is_dir now t id db record :
    Idle e -> transaction (create_task canonicalize is_dir (new_task input now) t id) e.(en_database) = (db, Ok record) ->
    Agrees record.(snapshot).(task_id) (new_runtime input context) db;
  g_queue e t expected c m effort mode now id :
    model_ok m -> e.(en_tasks) !! t = None -> Idle e ->
    Idle (written (append_task_event t expected (TaskEvent.ConfigurationQueued c m effort mode) now id) e);
  g_enter e t r : Idle e -> Agrees t r e.(en_database) -> Runs t (en_set_runtime r e);
  g_leave e t : Runs t e -> Idle (en_set_tasks (<[t := e.(en_runtime)]> e.(en_tasks)) e);
  g_idle_waits e : Idle e -> Waits e;
  g_running_waits t e : Runs t e -> Waits e
}.

Context (Idle Waits : Engine -> Prop) (Runs : TaskId -> Engine -> Prop).
Context (Agrees : TaskId -> RuntimeTask -> Database -> Prop) (S : staged Idle Waits Runs Agrees).

#[local] Definition idle_kept : kept Idle := g_idle _ _ _ _ S.
#[local] Hint Resolve idle_kept : eng.

Definition stays {A} (P : Engine -> Prop) (m : Eng A) : Prop :=
  forall e, P e -> match (m e).2 with Err Waiting => Waits (m e).1 | _ => Idle (m e).1 end.

Lemma stays_keeps {A} (P : Engine -> Prop) (m : Eng A) :
  (forall e, P e -> Idle e) -> eng_keeps P m -> stays P m.
Proof.
  intros Hp Hm e He. specialize (Hp _ (Hm e He)). repeat case_match; try done. by apply (g_idle_waits _ _ _ _ S).
Qed.
Lemma stays_pre {A} (P P' : Engine -> Prop) (m : Eng A) : (forall e, P e -> P' e) -> stays P' m -> stays P m.
Proof. intros Hp Hm e He. by apply Hm, Hp. Qed.
Lemma stays_bind {A B} (P : Engine -> Prop) (m : Eng A) (k : A -> Eng B) :
  stays P m -> (forall a, stays Idle (k a)) -> stays P (m ≫= k).
Proof.
  intros Hm Hk e He. specialize (Hm e He). unfold mbind, eng_bind.
  destruct (m e) as [e' [a|s]]; [by apply Hk|done].
Qed.
Lemma stays_gives {A B} (P : Engine -> Prop) (m : Eng A) (k : A -> Eng B) G :
  (forall e, P e -> Idle e) -> eng_gives P m G -> (forall a, stays (fun e => P e /\ G a e) (k a)) ->
  stays P (m ≫= k).
Proof.
  intros Hp Hm Hk e He. destruct (Hm e He) as [Hi Hg]. unfold mbind, eng_bind.
  destruct (m e) as [e' [a|s]]; [by apply (Hk a); auto|].
  destruct s; [by apply Hp|by apply (g_idle_waits _ _ _ _ S), Hp].
Qed.
(** A step that keeps what is known. *)
Lemma stays_next {A B} (P : Engine -> Prop) (m : Eng A) (k : A -> Eng B) :
  (forall e, P e -> Idle e) -> eng_keeps P m -> (forall a, stays P (k a)) -> stays P (m ≫= k).
Proof.
  intros Hp Hm Hk. apply (stays_gives _ _ _ (fun _ _ => True)); [done| |].
  - intros e He. split; [by apply Hm|done].
  - intros a. apply (stays_pre _ P); [by intros e [? _]|done].
Qed.
Lemma stays_ret {A} (P : Engine -> Prop) (a : A) : (forall e, P e -> Idle e) -> stays P (mret a).
Proof. intros Hp. apply stays_keeps; [done|apply ek_ret]. Qed.

Lemma stays_attempt {A} (P : Engine -> Prop) (m : Eng A) : stays P m -> stays P (attempt m).
Proof. intros Hm e He. specialize (Hm e He). unfold attempt. by destruct (m e) as [e' [a|[code|]]]. Qed.

(** A task runs, and its runtime is put back. *)
Lemma stays_with_task {A} (P : Engine -> Prop) t r (m : Eng A) :
  (forall e, P e -> Idle e /\ Agrees t r e.(en_database)) -> eng_keeps (Runs t) m -> stays P (with_task t r m).
Proof.
  intros Hp Hm e He. destruct (Hp e He) as [Hi Ha]. pose proof (g_enter _ _ _ _ S e t r Hi Ha) as Hr.
  specialize (Hm _ Hr). unfold with_task, with_runtime, change, attempt, from_result, mbind, eng_bind. cbn.
  destruct (m _) as [e' [a|[code|]]]; cbn; [by apply (g_leave _ _ _ _ S)..|by apply (g_running_waits _ _ _ _ S t)].
Qed.

(** The runtime of the engine agrees with the database, though no task runs. *)
Definition poised (t : TaskId) (e : Engine) : Prop := Idle e /\ Agrees t e.(en_runtime) e.(en_database).

Lemma poised_kept t : kept (poised t).
Proof.
  apply (kept_facts Idle (fun r _ db => Agrees t r db)); [apply idle_kept| |].
  - intros. by eapply (g_quiet _ _ _ _ S).
  - intros r _. apply (g_lasting _ _ _ _ S).
Qed.
#[local] Hint Resolve poised_kept : eng.
Lemma poised_idle t e : poised t e -> Idle e.
Proof. by intros [? _]. Qed.

(** ** Runtimes that agree *)

Lemma gives_gets {A} (P : Engine -> Prop) (f : Engine -> A) : eng_gives P (gets f) (fun a e => a = f e).
Proof. intros e He. split; [done|]. by intros a [= <-]. Qed.

Lemma rehydrate_reads t s e : (rehydrate_runtime t s e).1 = e.
Proof.
  unfold rehydrate_runtime, store_read, some_or, require, mbind, eng_bind, mret, eng_ret.
  repeat (case_match; simplify_eq/=); done.
Qed.

Lemma gives_rehydrated t s : eng_gives Idle (rehydrate_runtime t s) (fun r e => Agrees t r e.(en_database)).
Proof. intros e He. rewrite rehydrate_reads. split; [done|]. intros r. by apply (g_rehydrate _ _ _ _ S). Qed.

Lemma gives_rehydrate t s (F : RuntimeTask -> RuntimeTask) :
  (forall r, quiet_runtime r (F r)) ->
  eng_gives Idle (r ← rehydrate_runtime t s; mret (F r)) (fun r e => Agrees t r e.(en_database)).
Proof.
  intros HF. eapply gives_bind_then; [apply gives_rehydrated|]. intros r. apply gives_ret.
  intros e [_ Ha]. by eapply (g_quiet _ _ _ _ S); [apply HF|].
Qed.

(** The runtime the engine holds, or the one it reads. *)
Lemma stays_runtime {A} t (m : Eng RuntimeTask) (k : RuntimeTask -> Eng A) :
  eng_gives Idle m (fun r e => Agrees t r e.(en_database)) ->
  (forall r, stays (fun e => Idle e /\ Agrees t r e.(en_database)) (k r)) ->
  stays Idle (tasks ← gets en_tasks; r ← match tasks !! t with Some r => mret r | None => m end; k r).
Proof.
  intros Hm Hk. apply (stays_gives Idle _ _ _ (fun _ He => He) (gives_gets Idle en_tasks)). intros tasks.
  destruct (tasks !! t) as [r|] eqn:Ht.
  - intros e [Hi ->]. apply (Hk r e). split; [done|by apply (g_known _ _ _ _ S)].
  - apply (stays_pre _ Idle); [by intros e [? _]|].
    by apply (stays_gives Idle m k (fun r e => Agrees t r e.(en_database))).
Qed.

(** Follows a call through the steps that keep it idle. *)
#[local] Ltac stay :=
  intros; pose proof idle_kept;
  repeat match goal with
  | |- stays _ (mbind _ (gets en_tasks)) => fail 1
  | |- stays _ (mbind _ (task_runtime _)) => fail 1
  | |- stays _ (match ?x with _ => _ end) => destruct x
  | |- stays Idle _ => solve [apply stays_keeps; [done|ek]]
  | |- stays Idle (mbind _ _) => apply stays_next; [done|solve [ek]|intros ?]
  end.

(** ** Calls *)

Lemma run_recovered_stays t (r : RuntimeTask) (checkpointing : bool) (k : option (result TaskEngineErrorCode TaskSnapshot) -> RuntimeTask -> Eng TaskSnapshot) :
  (forall o r, eng_keeps (Runs t) (k o r)) ->
  stays (fun e => Idle e /\ Agrees t r e.(en_database))
    (_ ← change (fun e => en_set_tasks (delete t e.(en_tasks)) e);
     _ ← with_runtime (fun _ => r);
     recovered ← (if checkpointing then recover_checkpointing t else mret None);
     r ← runtime (fun r => r);
     with_task t r (k recovered r)).
Proof.
  intros Hk e [Hi Ha].
  assert (poised t (en_set_runtime r (en_set_tasks (delete t e.(en_tasks)) e))) as Hp.
  { split; [by apply (g_runtime _ _ _ _ S), (g_forget _ _ _ _ S)|done]. }
  cut (stays (poised t) (recovered ← (if checkpointing then recover_checkpointing t else mret None);
                         r ← runtime (fun r => r); with_task t r (k recovered r))); [intros Hs; by apply Hs|].
  apply stays_next; [apply poised_idle|ek|intros recovered].
  eapply stays_gives; [apply poised_idle|apply (gives_gets _ (fun e => e.(en_runtime)))|intros r'].
  apply stays_with_task; [|done]. by intros e' [[? ?] ->].
Qed.

#[local] Definition running_kept t : kept (Runs t) := g_running _ _ _ _ S t.
#[local] Definition running_loud t : loud t (Runs t) := g_loud _ _ _ _ S t.
#[local] Hint Resolve running_kept running_loud ek_run_loop ek_plan_contract : eng.

Lemma run_stays fuel t : stays Idle (run fuel t).
Proof.
  unfold run. stay. apply stays_runtime; [by apply gives_rehydrate; quiet|intros r].
  apply (run_recovered_stays t r _ (fun recovered r => _)). intros o r'. ek.
Qed.

(** *** Starting *)

Lemma agrees_kept t r : kept (fun e => Idle e /\ Agrees t r e.(en_database)).
Proof. apply kept_lasting; [apply idle_kept|apply (g_lasting _ _ _ _ S)]. Qed.
#[local] Hint Resolve agrees_kept : eng.

Lemma gives_created input context canonicalize is_dir now t id :
  model_ok input.(st_model) ->
  eng_gives Idle (store_tx (create_task canonicalize is_dir (new_task input now) t id))
    (fun record e => Agrees record.(snapshot).(task_id) (new_runtime input context) e.(en_database)).
Proof.
  intros Hm e He. pose proof (k_create_plain _ idle_kept e canonicalize is_dir (new_task input now) t id Hm He) as Hk.
  pose proof (g_created _ _ _ _ S e input context canonicalize is_dir now t id) as Hg.
  unfold written in Hk. unfold store_tx, store_conn, store_conn_as, execute.
  destruct (transaction _ _) as [db [record|err]]; (split; [exact Hk|]); [|done].
  intros a [= <-]. by apply (Hg db record).
Qed.

(** What is known of a runtime stays while the engine is idle. *)
#[local] Ltac stay_known :=
  repeat match goal with
  | |- stays _ (match ?x with _ => _ end) => destruct x
  | |- stays _ (mbind _ (with_task _ _ _)) => fail 1
  | |- stays _ (mbind _ _) => apply stays_next; [by intros ? [? _]|solve [ek]|intros ?]
  end.

Lemma start_in_context_stays fuel input context :
  model_ok input.(st_model) -> stays Idle (start_in_context fuel input context).
Proof.
  intros Hm. unfold start_in_context, push_status. do 5 (apply stays_next; [done|solve [ek]|intros ?]).
  eapply stays_gives; [done|by apply (gives_created _ context)|]. intros record. cbv beta zeta.
  pose proof (agrees_kept record.(snapshot).(task_id) (new_runtime input context)) as K. stay_known.
  apply stays_bind; [apply stays_with_task; [done|ek]|]. intros planned. stay. apply run_stays.
Qed.

Lemma start_stays fuel input : model_ok input.(st_model) -> stays Idle (start fuel input).
Proof. intros Hm. unfold start. stay. by apply start_in_context_stays. Qed.

(** *** Startup *)

Lemma trustworthy_keeps t : eng_keeps Idle (startup_workspace_is_trustworthy t).
Proof. pose proof idle_kept. unfold startup_workspace_is_trustworthy. ek. Qed.
#[local] Hint Resolve trustworthy_keeps : eng.

Lemma change_put t : stays (poised t) (change (fun e => en_set_tasks (<[t := e.(en_runtime)]> e.(en_tasks)) e)).
Proof. intros e [Hi Ha]. by apply (g_put _ _ _ _ S). Qed.

Lemma prepare_startup_stays t : stays Idle (prepare_startup_task t).
Proof.
  unfold prepare_startup_task. stay.
  eapply stays_gives; [done|apply gives_rehydrated|]. intros r. match goal with |- stays _ (mbind ?k _) => cut (stays (poised t) (k tt)) end.
  { intros Hs e [Hi Ha]. apply (Hs (en_set_runtime _ e)). split; [by apply (g_runtime _ _ _ _ S)|].
    eapply (g_quiet _ _ _ _ S); [|done]. quiet. }
  pose proof (poised_kept t). apply stays_next; [apply poised_idle|ek|intros recovered].
  destruct recovered as [[o|code]|]; [by apply stays_ret, poised_idle|by apply stays_keeps; [apply poised_idle|ek]|].
  apply stays_next; [apply poised_idle|ek|intros ?].
  apply stays_bind; [apply change_put|]. stay.
Qed.

Lemma prepare_tasks_stays ts : stays Idle (prepare_tasks ts).
Proof.
  induction ts as [|t ts IH]; cbn [prepare_tasks]; [stay|].
  apply stays_bind; [by apply stays_attempt, prepare_startup_stays|]. intros outcome.
  apply stays_bind; [stay|]. intros prepared. apply stays_bind; [done|]. intros others. stay.
Qed.

Lemma reconcile_startup_stays cached : stays Idle (reconcile_startup cached).
Proof. unfold reconcile_startup. stay. apply prepare_tasks_stays. Qed.

(** *** Controls of a task that does not run *)

Lemma gives_task_runtime t : eng_gives Idle (task_runtime t) (fun r e => Agrees t r e.(en_database)).
Proof.
  intros e He. unfold task_runtime, gets, some_or, mbind, eng_bind.
  destruct (en_tasks e !! t) as [r|] eqn:Ht; [|done]. split; [done|]. intros a [= <-]. by apply (g_known _ _ _ _ S).
Qed.
Lemma task_runtime_keeps t : eng_keeps Idle (task_runtime t).
Proof. intros e He. by apply gives_task_runtime. Qed.
#[local] Hint Resolve task_runtime_keeps : eng.

Lemma set_task_stays t r r' :
  quiet_runtime r r' -> stays (fun e => Idle e /\ Agrees t r e.(en_database)) (set_task_runtime t r').
Proof. intros Hq e [Hi Ha]. apply (g_put _ _ _ _ S); [done|]. by eapply (g_quiet _ _ _ _ S). Qed.

Lemma steer_controlled_stays t text control : stays Idle (steer_controlled t text control).
Proof.
  unfold steer_controlled, validate_steering. stay.
  all: eapply stays_gives; [done|apply gives_task_runtime|]; intros r; cbv beta; pose proof (agrees_kept t r).
  all: stay_known; (apply stays_bind; [apply (set_task_stays t r); quiet|]); stay.
  apply stays_keeps; [done|]. ek. apply ek_tx. intros e He. by apply (k_steering _ idle_kept).
Qed.

Lemma terminate_keeps t processes : eng_keeps Idle (terminate_processes t processes).
Proof. pose proof idle_kept. induction processes; cbn [terminate_processes]; ek. Qed.
#[local] Hint Resolve terminate_keeps : eng.

Lemma active_epoch_keeps t : eng_keeps Idle (active_provider_epoch t).
Proof. pose proof idle_kept. unfold active_provider_epoch. ek. Qed.
#[local] Hint Resolve active_epoch_keeps : eng.

Lemma cancel_controlled_stays t control : stays Idle (cancel_controlled t control).
Proof.
  unfold cancel_controlled. stay. apply stays_next; [done|ek|intros tasks]. apply stays_bind.
  { stay. eapply stays_gives; [done|apply gives_rehydrated|]. intros r.
    apply stays_with_task; [done|]. pose proof (running_kept t). ek. }
  stay. apply stays_next; [done|ek|intros r]. stay.
  eapply stays_gives; [done|apply gives_task_runtime|]. intros r'.
  apply stays_bind; [apply (set_task_stays t r'); quiet|]. stay.
Qed.

Lemma queue_keeps t c m effort mode :
  model_ok m ->
  eng_keeps (fun e => Idle e /\ e.(en_tasks) !! t = None)
    (engine_append t (TaskEvent.ConfigurationQueued c m effort mode)).
Proof.
  intros Hm. apply ek_engine_append_with; [apply (kept_facts Idle (fun _ ts _ => ts !! t = None)); [apply idle_kept|done|by intros ? ? ? ?]|].
  intros e expected now id [Hi Ht]. split; [by apply (g_queue _ _ _ _ S)|done].
Qed.

Lemma configure_controlled_stays t c m effort mode :
  model_ok m -> stays Idle (configure_controlled t c m effort mode).
Proof.
  intros Hm. unfold configure_controlled. stay.
  eapply stays_gives; [done|apply (gives_gets Idle en_tasks)|]. intros tasks. destruct (tasks !! t) as [r|] eqn:Ht.
  - apply stays_with_task; [|by apply (l_queue _ _ (running_loud t))]. intros e [Hi ->].
    split; [done|by apply (g_known _ _ _ _ S)].
  - apply (stays_pre _ (fun e => Idle e /\ e.(en_tasks) !! t = None)); [by intros e [? ->]|].
    apply stays_next; [by intros e [? _]|by apply queue_keeps|intros ?]. apply stays_ret. by intros e [? _].
Qed.

Lemma compact_controlled_stays t : stays Idle (compact_controlled t).
Proof.
  unfold compact_controlled. stay. apply stays_runtime; [apply gives_rehydrated|intros r].
  apply stays_with_task; [done|]. pose proof (running_kept t). ek.
Qed.

Lemma idle_control_stays : stays Idle receive_owner_control_while_idle.
Proof.
  pose proof idle_kept. apply stays_keeps; [done|]. unfold receive_owner_control_while_idle.
  apply ek_bind; [ek|intros b]. destruct (negb b); [ek|]. apply ek_receive; [done|ek|]. intros control Hc. apply ek_owner; ek.
Qed.

Lemma install_frontend_stays t : stays Idle (install_owner_frontend_context t).
Proof.
  pose proof idle_kept. apply stays_keeps; [done|]. unfold install_owner_frontend_context. ek.
  all: intros e He; by apply (g_frontend _ _ _ _ S).
Qed.
End Stages.
