(* ===== verification/EngineCalls.v ===== *)
(** * The calls of an engine

    [src/runtime/task/engine.rs]: the calls that the service makes on a [TaskEngine], in
    any order, with the process stopped at any point and started again on what the
    store then holds.  What [EngineStages] shows of each call holds of every history. *)
From stdpp Require Import base gmap sets list sorting strings.
From S2P Require Import Prelude Ord Text Settings Policy TaskTypes Events Reducer SecretFilter Checkpoint Report Progress Context Service Live Server Database TaskStore Front Approvals Grants StoreCheckpoint StoreJournal StoreAuthority StoreOps StorePayload StoreConnect StoreFrame TaskQueries AgentPort Engine EngineOwner EngineWork EngineRecover EngineRun EngineLogic EngineKeeps EngineStages.
From Stdlib Require Import ZArith Lia.
#[local] Open Scope list_scope.
#[local] Open Scope Z_scope.

Definition no_updates : TaskEngineUpdates :=
  {| up_pending := []; up_sink := false; emitted_count := 0; emitted_bytes := 0 |}.

(** [TaskEngine::new]: an engine on a store that was just opened. *)
Definition new_engine (db : Database) (receipts : Receipts) (tr : Transcript) (r : RuntimeTask) : Engine :=
  {| en_database := db; en_remembered := ∅; en_receipts := receipts; en_transcript := tr;
     en_tasks := ∅; en_runtime := r; en_work := empty_work; en_updates := no_updates;
     en_controls := false; en_frontend := None; en_notices := false |}.

Definition take_updates : Eng (list TaskEngineUpdate) :=
  updates ← gets (fun e => e.(en_updates).(up_pending));
  _ ← change (fun e => en_set_updates {| up_pending := []; up_sink := e.(en_updates).(up_sink);
                                         emitted_count := 0; emitted_bytes := 0 |} e);
  mret updates.
Definition install_controls : Eng unit := change (fun e => en_set_notices true (en_set_controls true e)).
Definition install_update_sink : Eng unit :=
  change (fun e => en_set_updates {| up_pending := e.(en_updates).(up_pending); up_sink := true;
                                     emitted_count := e.(en_updates).(emitted_count);
                                     emitted_bytes := e.(en_updates).(emitted_bytes) |} e).
Definition install_frontend_context (context : TaskEngineFrontendContext) : Eng unit :=
  change (en_set_frontend (Some context)).

Inductive Call : Type :=
| Start (fuel : nat) (input : StartTask)
| StartInContext (fuel : nat) (input : StartTask) (context_id : AgentContextId)
| Run (fuel : nat) (task_id : TaskId)
| ReconcileStartup (cached : option (list TaskRecord))
| Steer (task_id : TaskId) (text : str) (control_id : option str)
| Cancel (task_id : TaskId) (control_id : option str)
| MarkControl (task_id : TaskId) (control_id : str) (kind : TaskControlKind)
| Configure (task_id : TaskId) (control_id : str) (model : ModelId) (effort : ReasoningEffort)
    (permission_mode : PermissionMode)
| Compact (task_id : TaskId)
| Enqueue (input : StartTask) (receipt : option (str * Sha256Digest))
| IdleControl
| TakeUpdates
| InstallControls
| InstallUpdateSink
| InstallFrontend (context : TaskEngineFrontendContext)
| InstallOwnerFrontend (task_id : TaskId)
(** The process stops after the exchange with this number, or now when there is none,
    and a new engine takes over the store; [receipts] is the table of receipts then. *)
| Crash (exchange : nat) (receipts : Receipts).

(** The models of a call have been parsed. *)
Definition call_ok (c : Call) : Prop :=
  match c with
  | Start _ input | StartInContext _ input _ | Enqueue input _ => model_ok input.(st_model)
  | Configure _ _ model _ _ => model_ok model
  | _ => True
  end.

Definition restarted (k : nat) (receipts : Receipts) (e : Engine) : Engine :=
  new_engine (default e.(en_database) (mo_database <$> e.(en_transcript) !! k)) receipts
    (take (S k) e.(en_transcript)) e.(en_runtime).

Section Calls.
Context `{U : Uuids, C : Chrono, J : Serde, Q : SqliteJson, CJ : CheckpointJson, IJ : ItemJson, O : Outside, RJ : RunJson}.

Definition discard {A} (m : Eng A) : Eng unit := _ ← m; mret tt.

Definition call (c : Call) : Eng unit :=
  match c with
  | Start fuel input => discard (start fuel input)
  | StartInContext fuel input context_id => discard (start_in_context fuel input context_id)
  | Run fuel task_id => discard (run fuel task_id)
  | ReconcileStartup cached => discard (reconcile_startup cached)
  | Steer task_id text control_id => steer_controlled task_id text control_id
  | Cancel task_id control_id => cancel_controlled task_id control_id
  | MarkControl task_id control_id kind => mark_control_requested task_id control_id kind
  | Configure task_id control_id model effort permission_mode =>
      configure_controlled task_id control_id model effort permission_mode
  | Compact task_id => compact_controlled task_id
  | Enqueue input receipt => discard (enqueue_with_receipt input receipt)
  | IdleControl => discard receive_owner_control_while_idle
  | TakeUpdates => discard take_updates
  | InstallControls => install_controls
  | InstallUpdateSink => install_update_sink
  | InstallFrontend context => install_frontend_context context
  | InstallOwnerFrontend task_id => install_owner_frontend_context task_id
  | Crash _ _ => mret tt
  end.

(** An engine, and whether its last call waits for ever: then it can only be stopped. *)
Definition perform (s : Engine * bool) (c : Call) : Engine * bool :=
  match c, s.2 with
  | Crash k receipts, _ => (restarted k receipts s.1, false)
  | _, true => s
  | _, false =>
      let '(e, r) := call c s.1 in
      (e, match r with Err Waiting => true | _ => false end)
  end.

Definition performed (cs : list Call) (e : Engine) : Engine := (foldl perform (e, false) cs).1.

Context `{!OutsideLaws}.
Context (Idle Waits : Engine -> Prop) (Runs : TaskId -> Engine -> Prop).
Context (Agrees : TaskId -> RuntimeTask -> Database -> Prop) (S : staged Idle Waits Runs Agrees).

#[local] Abbreviation stays := (stays Idle Waits).

Lemma discard_stays {A} (m : Eng A) : stays Idle m -> stays Idle (discard m).
Proof. intros Hm. eapply stays_bind; [done|]. intros a. by apply (stays_ret _ _ _ _ S). Qed.

Lemma call_stays c : call_ok c -> stays Idle (call c).
Proof.
  pose proof (g_idle _ _ _ _ S) as K. intros Hc. destruct c; simpl in Hc |- *.
  1: by eapply discard_stays, start_stays.
  1: by eapply discard_stays, start_in_context_stays.
  1: by eapply discard_stays, run_stays.
  1: by eapply discard_stays, reconcile_startup_stays.
  1: by eapply steer_controlled_stays.
  1: by eapply cancel_controlled_stays.
  2: by eapply configure_controlled_stays.
  2: by eapply compact_controlled_stays.
  3: by eapply discard_stays, idle_control_stays.
  7: by eapply install_frontend_stays.
  all: eapply stays_keeps; [done|done|]; unfold discard, take_updates, install_controls, install_update_sink,
    install_frontend_context; ek; intros e He; first [by apply (k_updates _ K)|by apply (g_frontend _ _ _ _ S)
    |by apply (g_notices _ _ _ _ S), (g_controls _ _ _ _ S)].
Qed.

Definition at_rest (s : Engine * bool) : Prop := if s.2 then Waits s.1 else Idle s.1.

Lemma performed_rest cs e :
  (forall k receipts e, Waits e -> Idle (restarted k receipts e)) ->
  Forall call_ok cs -> Idle e -> at_rest (foldl perform (e, false) cs).
Proof.
  intros Hcrash Hcs He. assert (at_rest (e, false)) as Hs by done. clear He. revert Hs. generalize (e, false).
  induction Hcs as [|c cs Hc _ IH]; intros [e0 waits] Hs; [done|]. apply IH. clear IH.
  assert (forall k receipts, Idle (restarted k receipts e0)) as Hr.
  { intros. apply Hcrash. destruct waits; [done|by apply (g_idle_waits _ _ _ _ S)]. }
  assert (at_rest (if waits then (e0, waits) else
    let '(e, r) := call c e0 in (e, match r with Err Waiting => true | _ => false end))) as Hcall.
  { destruct waits; [done|]. pose proof (call_stays c Hc e0 Hs) as Hst.
    destruct (call c e0) as [e' [[]|[code|]]]; done. }
  unfold perform. destruct c; try (destruct waits; exact Hcall). by destruct waits; apply Hr.
Qed.

End Calls.
