(* ===== verification/EngineDurable.v ===== *)
(** * The store survives the engine

    Whatever the service asks of an engine, whatever the provider and the owner answer,
    and wherever the process is stopped, the store passes the checks of [Store::open]
    again. *)
From stdpp Require Import base gmap sets list sorting strings relations.
From S2P Require Import Prelude Ord Text Settings Policy TaskTypes Events Reducer SecretFilter Checkpoint Report Progress Context Service Live Server Database TaskStore Front Approvals Grants StoreCheckpoint StoreJournal StoreAuthority StoreOps StorePayload StoreConnect StoreFrame TaskQueries AgentPort Engine EngineOwner EngineWork EngineRecover EngineRun EngineLogic EngineKeeps EngineStages EngineCalls.
From Stdlib Require Import ZArith Lia.
#[local] Open Scope list_scope.
#[local] Open Scope Z_scope.

Section Free.
Context `{U : Uuids, C : Chrono, J : Serde, Q : SqliteJson, CJ : CheckpointJson, IJ : ItemJson, O : Outside, RJ : RunJson}.
Context `{!OutsideLaws}.

(** An invariant that does not look at what the engine remembers of tasks. *)
Record free (I : Engine -> Prop) : Prop := {
  f_kept : kept I;
  f_runtime e r : I e -> I (en_set_runtime r e);
  f_tasks e ts : I e -> I (en_set_tasks ts e);
  f_controls e b : I e -> I (en_set_controls b e);
  f_notices e b : I e -> I (en_set_notices b e);
  f_frontend e context : I e -> I (en_set_frontend context e);
  f_exchange e x : I e -> I (log x e);
  f_append e t expected ev now id : models_ok ev -> compaction_atomic e.(en_database) ev ->
    I e -> I (written (append_task_event t expected ev now id) e)
}.

Context (I : Engine -> Prop) (F : free I).

Lemma free_append t ev : models_ok ev -> (forall db, compaction_atomic db ev) -> eng_keeps I (engine_append t ev).
Proof. intros Hm Hc. apply ek_engine_append_with; [apply F|]. intros. by apply (f_append _ F). Qed.

Lemma free_with_runtime f : eng_keeps I (with_runtime f).
Proof. intros e He. by apply (f_runtime _ F). Qed.

Lemma free_queue t c m effort mode : model_ok m -> eng_keeps I (queue_configuration t c m effort mode).
Proof.
  intros Hm. unfold queue_configuration. ek; [by apply free_append|apply free_with_runtime].
Qed.

Lemma free_apply t : eng_keeps I (apply_pending_configuration t).
Proof. unfold apply_pending_configuration. ek; [by apply free_append|apply free_with_runtime]. Qed.

Lemma free_dispatch t fuel ep p request item op class paths :
  eng_keeps I (dispatch_effect fuel t ep p request item op class paths).
Proof.
  pose proof (f_kept _ F) as K. unfold dispatch_effect, insert_operation_entry. ek.
  all: apply ek_resolve_effect; [done|intros; by apply free_queue|intros; by apply (f_exchange _ F)].
Qed.

Lemma free_start t ep purpose request : eng_keeps I (start_provider_epoch t ep purpose request).
Proof.
  pose proof (f_kept _ F) as K. unfold start_provider_epoch. ek.
  all: first [by apply free_append|by apply ek_not_started|intros e He; by apply (f_exchange _ F)|idtac].
  intros e He. unfold checked_increase, checked_runtime, runtime, gets, some_or.
  unfold mbind at 1, eng_bind at 1. cbn. case_match; [by apply (f_runtime _ F)|done].
Qed.

End Free.

Section Staged.
Context `{U : Uuids, C : Chrono, J : Serde, Q : SqliteJson, CJ : CheckpointJson, IJ : ItemJson, O : Outside, RJ : RunJson}.
Context `{!OutsideLaws}.

(** What has been exchanged stays so. *)
Lemma grows_free (D : Engine -> Prop) : grows D -> free D.
Proof.
  intros G. split; [|intros; by apply (G e)..|intros; apply (G e); [by apply prefix_app_r|done]
                   |intros; by apply (G e)].
  split; intros; try by apply (G e).
  - apply (G e); [by apply prefix_app_r|done].
  - apply (G e); [by rewrite store_commit_transcript|done].
Qed.

(** A property that no write at all ends. *)
Definition durable (P : Database -> Prop) : Prop := forall db db', later (fun _ => True) db db' -> P db -> P db'.

Lemma durable_lasting P : durable P -> lasting P.
Proof. intros D db db' HL. apply D. by eapply later_weaken; [|exact HL]. Qed.

Lemma kept_iff (I I' : Engine -> Prop) : (forall e, I e <-> I' e) -> kept I -> kept I'.
Proof. intros Heq K. destruct K. split; intros; apply Heq; match goal with H : I' _ |- _ => apply Heq in H end; auto. Qed.

Lemma durable_free P : durable P -> free (fun e => P e.(en_database)).
Proof.
  intros D. split; try done.
  - apply (kept_iff (fun e => True /\ P e.(en_database))); [by intros e; split; [intros [_ ?]|]|].
    apply kept_lasting; [by split|by apply durable_lasting].
  - intros e t expected ev now id _ _. apply D, transaction_later, append_task_event_lasts. done.
Qed.

Lemma keeps_and {A} (I D : Engine -> Prop) (m : Eng A) :
  eng_keeps I m -> eng_keeps D m -> eng_keeps (fun e => I e /\ D e) m.
Proof. intros Hi Hd e [He Hf]. split; [by apply Hi|by apply Hd]. Qed.

Lemma free_loud t I : free I -> loud t I.
Proof.
  intros F. split; [by intros; apply free_queue| |by apply free_apply|by intros; apply free_start].
  intros. apply keeps_and; [by apply free_dispatch|apply free_dispatch, grows_free, received_grows].
Qed.

Lemma free_staged I : free I -> staged I I (fun _ => I) (fun _ _ _ => True).
Proof.
  intros F. pose proof F as [K R T Cs N Fr X A]. split; try done; auto.
  - intros t. by apply free_loud.
  - intros. by apply A.
Qed.

(** ** Histories keep the store in order *)

Context `{!UuidLaws, !ChronoLaws, !SerdeLaws, !SqliteJsonLaws, !CheckpointJsonLaws}.

(** A world whose store opens. *)
Definition opened (w : World) : Prop := connected w /\ packages_atomic w.(w_database).

Lemma opened_step w w' : opened w ->
  connection_step w w' -> (forall js, world_ok js w -> exists js', world_ok js' w') -> opened w'.
Proof.
  intros [Hc Hat] Hstep Hok. split; [by eapply rtc_r|]. destruct (connected_ok w Hc Hat) as [js Hjs].
  destruct (Hok js Hjs) as [js' [_ Hp _]]. by apply payload_atomic.
Qed.

Lemma opened_write w n remembered db' : opened w -> w.(w_stores) !! n = Some remembered ->
  plain_step w.(w_database) db' -> opened {| w_database := db'; w_stores := w.(w_stores) |}.
Proof.
  intros Hw Hn Hp. eapply opened_step; [done|by eapply connection_write|]. intros js Hjs.
  eapply world_advanced; [done|]. eapply plain_advanced; [apply Hjs|apply Hjs|done].
Qed.

Lemma opened_append w n remembered t expected ev now id : opened w -> w.(w_stores) !! n = Some remembered ->
  models_ok ev -> compaction_atomic w.(w_database) ev ->
  opened {| w_database := (transaction (append_task_event t expected ev now id) w.(w_database)).1;
            w_stores := w.(w_stores) |}.
Proof.
  intros Hw Hn Hm Hat. eapply opened_step; [done|by eapply connection_append|]. intros js [Hok Hp Hr].
  eapply world_advanced; [done|]. unfold transaction.
  destruct (append_task_event _ _ _ _ _ _) as [[db' o]|err] eqn:Ha; [|by apply advanced_refl].
  by eapply append_task_event_advanced.
Qed.

Lemma opened_commit w n remembered version input expected id db' remembered' outcome :
  opened w -> w.(w_stores) !! n = Some remembered ->
  store_commit_checkpoint remembered version input expected id w.(w_database) = (db', remembered', outcome) ->
  opened {| w_database := db'; w_stores := <[n := remembered']> w.(w_stores) |}.
Proof.
  intros Hw Hn Hc. eapply opened_step; [done|by eapply connection_commit|]. intros js Hjs. by eapply commit_world.
Qed.

(** The engine is one of the connections to a store that opens. *)
Definition engine_connected (e : Engine) : Prop :=
  (exists n w, opened w /\ w.(w_database) = e.(en_database) /\ w.(w_stores) !! n = Some e.(en_remembered))
  /\ Forall (fun moment => exists w, opened w /\ w.(w_database) = moment.(mo_database)) e.(en_transcript).

Lemma engine_connected_free : free engine_connected.
Proof.
  assert (forall e x, engine_connected e -> engine_connected (log x e)) as Hx.
  { intros e x [(n & w & Hc & Hdb & Hs) Ht]. split; [by exists n, w|]. apply Forall_app. split; [done|].
    constructor; [by exists w|constructor]. }
  assert (forall e db, engine_connected e -> plain_step e.(en_database) db -> engine_connected (en_set_database db e)) as Hp.
  { intros e db [(n & w & Hc & Hdb & Hs) Ht] Hstep. split; [|done]. eexists n, _.
    split_and!; [eapply opened_write; [done|done|by rewrite Hdb]|done|done]. }
  assert (forall e t expected ev now id, models_ok ev -> compaction_atomic e.(en_database) ev ->
    engine_connected e -> engine_connected (written (append_task_event t expected ev now id) e)) as Ha.
  { intros e t expected ev now id Hm Hat [(n & w & Hc & Hdb & Hs) Ht]. split; [|done]. unfold written.
    rewrite <- Hdb in *. eexists n, _. split_and!; [by eapply opened_append|done|done]. }
  split; [split|..]; try done; auto.
  - intros e t expected ev now id Hq Hc He. apply Ha; [by destruct ev|done|done].
  - intros. apply Hp; [done|constructor].
  - intros. apply Hp; [done|constructor].
  - intros. apply Hp; [done|by constructor].
  - intros. apply Hp; [done|by constructor].
  - intros. apply Hp; [done|constructor].
  - intros e tables _ He. apply (Hp e); [done|]. apply (step_front _ tables).
  - intros e input expected id [(n & w & Hc & Hdb & Hs) Ht]. unfold store_commit. rewrite <- Hdb.
    destruct (store_commit_checkpoint _ _ _ _ _ _) as [[db remembered] outcome] eqn:Hcommit.
    pose proof (opened_commit w n _ _ _ _ _ _ _ _ Hc Hs Hcommit) as Hstep.
    destruct outcome as [[record|]|err]; (split; [|done]); eexists n, _; (split; [exact Hstep|]);
      (split; [done|]); apply lookup_insert_eq.
Qed.

(** A new engine opens the store it is given. *)
Lemma new_engine_connected w receipts tr r :
  opened w -> Forall (fun moment => exists w, opened w /\ w.(w_database) = moment.(mo_database)) tr ->
  engine_connected (new_engine w.(w_database) receipts tr r).
Proof.
  intros [Hc Hat] Ht. split; [|done]. destruct (connected_opens w Hc Hat) as (records & Ho).
  eexists 0%nat, _. split_and!; [split; [eapply rtc_r; [exact Hc|by eapply (connection_open w 0)]|exact Hat]|done|].
  apply lookup_insert_eq.
Qed.

Lemma engine_restarted k receipts e : engine_connected e -> engine_connected (restarted k receipts e).
Proof.
  intros [(n & w & Hc & Hdb & _) Ht]. unfold restarted.
  assert (exists w', opened w' /\ w'.(w_database) = default e.(en_database) (mo_database <$> e.(en_transcript) !! k))
    as (w' & Hc' & <-); [|by apply new_engine_connected; [|apply Forall_take]].
  destruct (en_transcript e !! k) as [moment|] eqn:Hk; [by apply (Forall_lookup_1 _ _ _ _ Ht Hk)|by exists w].
Qed.

(** C3: the store survives the engine.  From an engine on a store that connections have
    written and that opens, after any calls of the service in any order, with any answers
    of the provider, the owner, the clock and the file system, and with the process
    stopped and started again at any of its exchanges: the database that the engine has
    then, and the database at every exchange before (what a process that is stopped
    there leaves), passes the checks that open a store. *)
Theorem engine_store_opens cs w records receipts r :
  connected w -> open_store w.(w_database) = Ok records -> Forall call_ok cs ->
  let e := performed cs (new_engine w.(w_database) receipts [] r) in
  forall db, db = e.(en_database) \/ (exists x, {| mo_database := db; mo_exchange := x |} ∈ e.(en_transcript)) ->
  exists records', open_store db = Ok records'.
Proof.
  intros Hw Ho Hcs e db Hdb. assert (opened w) as Hop by (split; [done|by eapply open_store_atomic]).
  assert (engine_connected e) as [(n & w' & Hc & Heq & _) Ht].
  { pose proof (performed_rest _ _ _ _ (free_staged _ engine_connected_free) cs _ engine_restarted Hcs
      (new_engine_connected w receipts [] r Hop (List.Forall_nil _))) as Hr.
    unfold e, performed. unfold at_rest in Hr. by destruct (foldl _ _ _) as [e' []]. }
  destruct Hdb as [->|[x Hx]].
  - rewrite <- Heq. by apply connected_opens; apply Hc.
  - destruct (proj1 (Forall_forall _ _) Ht _ Hx) as (w1 & Hc1 & Hdb1). simpl in Hdb1. subst db.
    by apply connected_opens; apply Hc1.
Qed.
End Staged.
