(* ===== verification/EngineEffects.v ===== *)
(** * Which effects the engine allows

    The engine allows an effect only when the provider has asked for it, its intent is
    in the store, and either the stored permission mode of the task is full access or
    the owner has answered an approval that is bound to the digest of the request and
    that is used up.  The permission mode the engine decides by is in memory; that it is
    the stored one is an invariant of every history of calls. *)
From stdpp Require Import base gmap sets list sorting strings relations.
From S2P Require Import Prelude Ord Text Settings Policy TaskTypes Events Reducer SecretFilter Checkpoint Report Progress Context Service Live Server Database TaskStore Front Approvals Grants StoreCheckpoint StoreJournal StoreAuthority StoreOps StorePayload StoreConnect StoreFrame TaskQueries AgentPort Engine EngineOwner EngineWork EngineRecover EngineRun EngineLogic EngineKeeps EngineStages EngineCalls EngineDurable.
From Stdlib Require Import ZArith Lia.
#[local] Open Scope list_scope.
#[local] Open Scope Z_scope.

Section Effects.
Context `{U : Uuids, C : Chrono, J : Serde, Q : SqliteJson, CJ : CheckpointJson, IJ : ItemJson, O : Outside, RJ : RunJson}.

(** ** Runtimes and stored configurations *)

(** What a runtime holds of the configuration of its task is stored. *)
Definition agrees (t : TaskId) (r : RuntimeTask) (db : Database) : Prop :=
  exists row, db.(task_configuration_state) !! uuid_to_string t = Some row
    /\ PermissionMode_from_str row.(effective_permission_mode) = Ok r.(rt_effective_permission_mode)
    /\ forall p, r.(rt_pending_configuration) = Some p ->
       row.(pending_control_id) = Some p.(pt_control_id)
       /\ exists text, row.(pending_permission_mode) = Some text
          /\ PermissionMode_from_str text = Ok p.(pt_permission_mode).

Lemma agrees_quiet t r r' db : quiet_runtime r r' -> agrees t r db -> agrees t r' db.
Proof. intros (He & Hp & _) (row & Hr & Hm & Hpend). exists row. by rewrite He, Hp. Qed.

Lemma agrees_later except t r db db' :
  ~ except (uuid_to_string t) -> later except db db' -> agrees t r db -> agrees t r db'.
Proof.
  intros Hx HL (row & Hr & Hm). exists row. split; [|done]. by eapply (later_configuration _ _ _ HL).
Qed.

Lemma agrees_lasting t r : lasting (agrees t r).
Proof. intros db db'. apply agrees_later. by intros []. Qed.

(** The configuration after an event of the task. *)
Lemma appended_child t expected ev now id db db' record :
  append_task_event t expected ev now id db = Ok (db', Some record) ->
  exists env db1 db2, env.(event) = Event.TaskLifecycle t ev
    /\ db1.(task_configuration_state) = db.(task_configuration_state)
    /\ db1.(task_operations) = db.(task_operations)
    /\ apply_task_child_projection t env db1 = Ok (db2, tt)
    /\ db'.(task_configuration_state) = db2.(task_configuration_state)
    /\ db'.(task_operations) = db2.(task_operations).
Proof.
  unfold append_task_event, expected_task. intros Ha. tx_simpl. case_match; tx_simpl.
  match goal with He : append_event_in_transaction _ _ _ _ _ _ = Ok (?d, ?env), Hu : update_task_projection _ _ _ = _ |- _ =>
    exists env, d; apply append_event_inv in He as (? & ? & _ & -> & _ & _ & ->); unfold update_task_projection in Hu end.
  tx_simpl. eexists. split_and!; [done|done|done|done|done|done].
Qed.

Lemma agrees_queued t expected c m effort mode now id db db' record r :
  append_task_event t expected (TaskEvent.ConfigurationQueued c m effort mode) now id db = Ok (db', Some record) ->
  agrees t r db ->
  agrees t (rt_set_pending_configuration
              (Some {| pt_control_id := c; pt_model := m; pt_effort := effort; pt_permission_mode := mode |})
              (if permission_strength mode <? permission_strength r.(rt_effective_permission_mode)
               then rt_set_effective_permission_mode mode r else r)) db'.
Proof.
  intros (env & db1 & db2 & Hev & Hc1 & _ & Hp & Hc2 & _)%appended_child (row & Hr & Hm & _).
  apply (child_projection_effect _ _ _ _ _ _ Hev) in Hp as [_ (_ & row' & old & Hr' & Hold & Hcfg)].
  rewrite Hc1, Hr in Hr'. simplify_eq. unfold agrees. rewrite Hc2, Hcfg, lookup_insert_eq.
  eexists. split; [done|]. simpl. rewrite parse_mode_str.
  rewrite Hm in Hold. injection Hold as <-. destruct (_ <? _); (split; [done|]).
  all: intros p [= <-]; split; [done|]; eexists; (split; [done|]); apply parse_mode_str.
Qed.

Lemma agrees_applied t expected p now id db db' record r r' :
  append_task_event t expected (TaskEvent.ConfigurationApplied p.(pt_control_id)) now id db = Ok (db', Some record) ->
  agrees t r db -> r.(rt_pending_configuration) = Some p ->
  r'.(rt_pending_configuration) = None -> r'.(rt_effective_permission_mode) = p.(pt_permission_mode) ->
  agrees t r' db'.
Proof.
  intros (env & db1 & db2 & Hev & Hc1 & _ & Hp & Hc2 & _)%appended_child (row & Hr & _ & Hpend) Hsome Hn He.
  apply (child_projection_effect _ _ _ _ _ _ Hev) in Hp as [_ (_ & row' & Hr' & Hctl & Hcfg)].
  rewrite Hc1, Hr in Hr'. simplify_eq. unfold agrees. rewrite Hc2, Hcfg, lookup_insert_eq.
  destruct (Hpend p Hsome) as (_ & text & Ht & Hparse). eexists. split; [done|]. simpl. rewrite Ht, He, Hn. by split.
Qed.

(** ** Intents *)

(** The intent of the operation that a request is for is stored. *)
Definition intended (t : TaskId) (op : OperationId) (request : AgentEffectRequest) (db : Database) : Prop :=
  exists row, db.(task_operations) !! uuid_to_string op = Some row
    /\ row.(or_task_id) = uuid_to_string t
    /\ row.(or_item_id) = request.(ae_item_id)
    /\ row.(or_request_digest) = Sha256Digest_display request.(ae_request_digest).

Lemma intended_later except t op request db db' :
  later except db db' -> intended t op request db -> intended t op request db'.
Proof.
  intros HL (row & Hr & Ht & Hi & Hd). destruct (later_operations _ _ _ HL _ _ Hr) as (row' & Hr' & He).
  exists row'. split; [done|]. unfold intent_of in He. injection He. by intros _ -> _ -> _ ->.
Qed.

Lemma appended_intent t expected op ep class request now id db db' record :
  append_task_event t expected (TaskEvent.OperationIntentRecorded op ep request.(ae_item_id) class
    (Sha256Digest_display request.(ae_request_digest))) now id db = Ok (db', Some record) ->
  intended t op request db'.
Proof.
  intros (env & db1 & db2 & Hev & _ & _ & Hp & _ & Ho)%appended_child.
  unfold apply_task_child_projection, project_operation_intent in Hp. rewrite Hev in Hp. tx_simpl.
  unfold intended. rewrite Ho. cbn. rewrite lookup_insert_eq. by eexists.
Qed.

(** ** Approvals *)

(** The owner has allowed a request with this digest, and the approval is used up. *)
Definition approved (digest : Sha256Digest) (db : Database) : Prop :=
  exists id row, db.(front).(bound_approvals) !! id = Some row
    /\ row.(bv_status) = ApprovalStatus_as_str ApprovalStatus.Allowed
    /\ is_Some row.(bv_consumed_at)
    /\ Sha256Digest_parse row.(bv_request_digest) = Ok digest.

Lemma approved_later except digest db db' : later except db db' -> approved digest db -> approved digest db'.
Proof.
  intros HL (id & row & Hr & Hs & Hc & Hd). exists id, row. split; [|done]. by apply (later_approvals _ _ _ HL).
Qed.

Lemma consumed_approved sha256 claim binding db db' record :
  consume_remote_bound_approval sha256 claim binding ApprovalStatus.Allowed db = (db', Ok record) ->
  approved binding.(bb_request_digest) db'.
Proof.
  intros (id & code & row & approval & _ & _ & _ & _ & _ & _ & _ & _ & _ & _ & _ & _ & Hr & Hraw & Hb & _ & _ & _
    & code_row & code_row' & _ & _ & ->)%consume_remote_inv.
  exists (uuid_to_string id). cbn. rewrite lookup_insert_eq. eexists. split; [done|]. cbn. split; [done|]. split; [eauto|].
  unfold bound_record_from_raw in Hraw. carl_simpl. cbn. unfold BoundApprovalBinding_new in *. carl_simpl. done.
Qed.

(** ** The invariant *)

(** The stored effective permission mode of the task is full access. *)
Definition full_access (t : TaskId) (db : Database) : Prop :=
  exists row mode, db.(task_configuration_state) !! uuid_to_string t = Some row
    /\ PermissionMode_from_str row.(effective_permission_mode) = Ok mode
    /\ profile mode = PermissionProfile.FullAccess.

Definition permitted (t : TaskId) (request : AgentEffectRequest) (db : Database) : Prop :=
  supported request.(ae_kind) = true
  /\ (full_access t db \/ approved request.(ae_request_digest) db).

Lemma permitted_lasting t request : lasting (permitted t request).
Proof.
  intros db db' HL [Hs [(row & mode & Hr & Hm)|Ha]]; (split; [done|]).
  - left. exists row, mode. split; [|done]. apply (later_configuration _ _ _ HL); [by intros []|done].
  - right. by eapply approved_later.
Qed.

(** What has to be so when the request with this identifier is allowed: [before] is what
    was exchanged before, [db] the database at that moment. *)
Definition justified (before : Transcript) (db : Database) (request_id : AgentRequestId) : Prop :=
  exists t op request, request.(ae_request_id) = request_id
    /\ (exists db0, {| mo_database := db0;
                       mo_exchange := Exchange.NextEvent (Ok (AgentEvent.EffectRequested request)) |} ∈ before)
    /\ intended t op request db
    /\ permitted t request db.

Definition effects_justified (tr : Transcript) : Prop :=
  forall before db request_id answer after,
    tr = before ++ {| mo_database := db;
                      mo_exchange := Exchange.ResolveEffect request_id EffectDecision.Allow answer |} :: after ->
    justified before db request_id.

Lemma justified_prefix tr tr' : effects_justified (tr ++ tr') -> effects_justified tr.
Proof. intros Hj before db rid answer after ->. apply (Hj before db rid answer (after ++ tr')). by rewrite <- app_assoc. Qed.

Lemma justified_snoc tr db x :
  effects_justified tr ->
  (forall rid answer, x = Exchange.ResolveEffect rid EffectDecision.Allow answer -> justified tr db rid) ->
  effects_justified (tr ++ [{| mo_database := db; mo_exchange := x |}]).
Proof.
  intros Hj Hx before db' rid answer after Heq. destruct after as [|m after _] using rev_ind.
  - apply app_inj_tail in Heq as [-> [= -> ->]]. by eapply Hx.
  - rewrite app_comm_cons, app_assoc in Heq. apply app_inj_tail in Heq as [-> _]. by eapply Hj.
Qed.

Definition safe (e : Engine) : Prop := effects_justified e.(en_transcript).

Lemma safe_kept : kept safe.
Proof.
  split; try done.
  - intros e x Hx He. apply justified_snoc; [done|]. intros rid answer ->. done.
  - intros e input expected id He. unfold safe. by rewrite store_commit_transcript.
Qed.

Definition all_agree (ts : gmap TaskId RuntimeTask) (db : Database) : Prop :=
  forall t r, ts !! t = Some r -> agrees t r db.
Definition idle (e : Engine) : Prop := safe e /\ all_agree e.(en_tasks) e.(en_database).
Definition runs (t : TaskId) (e : Engine) : Prop :=
  safe e /\ (agrees t e.(en_runtime) e.(en_database) /\ all_agree (delete t e.(en_tasks)) e.(en_database)).

Lemma all_agree_lasting ts : lasting (all_agree ts).
Proof. intros db db' HL Ha t r Ht. eapply agrees_lasting; [done|by apply Ha]. Qed.

Lemma idle_kept : kept idle.
Proof.
  apply (kept_facts safe (fun _ ts db => all_agree ts db)); [apply safe_kept|done|]. intros _. apply all_agree_lasting.
Qed.

Lemma runs_kept t : kept (runs t).
Proof.
  apply (kept_facts safe (fun r ts db => agrees t r db /\ all_agree (delete t ts) db)); [apply safe_kept| |].
  - intros r r' ts db Hq [Ha Hall]. split; [by eapply agrees_quiet|done].
  - intros r ts db db' HL [Ha Hall]. split; [by eapply agrees_lasting|by eapply all_agree_lasting].
Qed.

(** ** What a running task does to it *)

Lemma set_database_same e : en_set_database e.(en_database) e = e.
Proof. by destruct e. Qed.

(** An append of the engine: exchanges, and then the write, or none. *)
Lemma engine_append_cases (I : Engine -> Prop) t ev e :
  kept I -> I e ->
  exists e1, I e1 /\ ((exists s, engine_append t ev e = (e1, Err s))
    \/ exists expected now id db' record,
         append_task_event t expected ev now id e1.(en_database) = Ok (db', Some record)
         /\ engine_append t ev e = (en_set_database db' e1, Ok record)).
Proof.
  intros K He. assert (eng_keeps I (current_revision t)) as Hr by ek. specialize (Hr e He).
  destruct (current_revision t e) as [e0 [expected|s]] eqn:Hcur; cbn in Hr.
  2: { exists e0. split; [done|]. left. exists s. unfold engine_append, mbind, eng_bind. by rewrite Hcur. }
  set (e1 := log (Exchange.Now (out_now e0.(en_transcript))) e0).
  assert (I e1) as H1 by by apply (k_exchange _ K).
  set (e2 := log (Exchange.Uuid (out_uuid e1.(en_transcript))) e1).
  assert (I e2) as H2 by by apply (k_exchange _ K).
  exists e2. split; [done|].
  assert (engine_append t ev e = (record ← store_tx (append_task_event t expected ev (out_now e0.(en_transcript))
            (out_uuid e1.(en_transcript))); some_or record TaskEngineErrorCode.Storage) e2) as ->.
  { unfold engine_append. unfold mbind at 1, eng_bind at 1. by rewrite Hcur. }
  generalize (out_now e0.(en_transcript)) (out_uuid e1.(en_transcript)). intros now id.
  unfold store_tx, store_conn, store_conn_as, execute, transaction, mbind, eng_bind, some_or.
  destruct (append_task_event t expected ev now id e2.(en_database)) as [[db' [record|]]|err] eqn:Ha.
  - right. by exists expected, now, id, db', record.
  - left. exists (Failed TaskEngineErrorCode.Storage).
    unfold append_task_event, expected_task in Ha. tx_simpl. case_match; tx_simpl. by rewrite set_database_same.
  - left. exists (Failed TaskEngineErrorCode.Storage). by rewrite set_database_same.
Qed.

(** An append and the assignments that follow it. *)
Lemma ek_append_then (I I' : Engine -> Prop) t ev f :
  kept I -> (forall e, I e -> I' e) ->
  (forall e expected now id db' record, I e ->
     append_task_event t expected ev now id e.(en_database) = Ok (db', Some record) ->
     I' (en_set_runtime (f e.(en_runtime)) (en_set_database db' e))) ->
  forall e, I e -> I' ((_ ← engine_append t ev; with_runtime f) e).1.
Proof.
  intros K Hi Hf e He. unfold mbind, eng_bind.
  destruct (engine_append_cases I t ev e K He) as (e1 & H1 & [[s ->]|(expected & now & id & db' & record & Ha & ->)]);
    [by apply Hi|]. exact (Hf e1 expected now id db' record H1 Ha).
Qed.

Lemma append_later t expected ev now id db db' o :
  append_task_event t expected ev now id db = Ok (db', o) -> later (fun k => k = uuid_to_string t) db db'.
Proof. intros Ha. by eapply (append_task_event_lasts _ db); [|exact Ha|apply later_refl]. Qed.

Context `{!UuidLaws}.

(** An event of a task leaves the configurations of the others. *)
Lemma others_agree t db db' ts :
  later (fun k => k = uuid_to_string t) db db' -> all_agree (delete t ts) db -> all_agree (delete t ts) db'.
Proof.
  intros HL Ha t' r Ht. eapply agrees_later; [|exact HL|by apply Ha]. intros Heq%uuid_inj.
  subst. by rewrite lookup_delete_eq in Ht.
Qed.

Lemma runs_queue t c m effort mode : eng_keeps (runs t) (queue_configuration t c m effort mode).
Proof.
  unfold queue_configuration. apply ek_bind; [ek|intros pending]. destruct (is_some_and _ _); [ek|].
  intros e He. apply (ek_append_then (runs t)); [apply runs_kept|done| |done]. clear e He.
  intros e expected now id db' record (Hs & Ha & Hall) Hap. split_and!; [done|by eapply agrees_queued|].
  eapply others_agree; [by eapply append_later|done].
Qed.

Lemma runs_apply t : eng_keeps (runs t) (apply_pending_configuration t).
Proof.
  intros e He. unfold apply_pending_configuration, runtime, gets. unfold mbind at 1, eng_bind at 1. cbv beta iota.
  case_match; [|exact He].
  eapply (ek_append_then (fun e => runs t e /\ e.(en_runtime).(rt_pending_configuration) = Some p)); [| | |done].
  - apply (kept_facts (runs t) (fun r _ _ => r.(rt_pending_configuration) = Some p)); [apply runs_kept| |].
    + by intros r r' _ _ (_ & -> & _).
    + by intros r _ db db' _.
  - by intros e0 [? _].
  - intros e0 expected now id db' record [(Hs & Ha & Hall) Hpend] Hap. split_and!; [done| |].
    + by eapply (agrees_applied t expected p now id).
    + eapply others_agree; [by eapply append_later|done].
Qed.

Lemma runs_append t ev : configures ev = false -> eng_keeps (runs t) (engine_append t ev).
Proof.
  intros Hev. apply ek_engine_append_with; [apply runs_kept|]. intros e expected now id (Hs & Ha & Hall).
  assert (later (fun _ => False) e.(en_database) (written (append_task_event t expected ev now id) e).(en_database)) as HL.
  { apply transaction_later, append_task_event_lasts. by rewrite Hev. }
  split_and!; [done|by eapply agrees_lasting|by eapply all_agree_lasting].
Qed.

Lemma runs_start t ep purpose request : eng_keeps (runs t) (start_provider_epoch t ep purpose request).
Proof.
  pose proof (runs_kept t) as K. unfold start_provider_epoch. ek.
  all: first [by apply runs_append|by apply ek_not_started|idtac].
  2: { intros e (Hs & Ha & Hall). split_and!; [|done|done]. by apply justified_snoc. }
  intros e (Hs & Ha & Hall). unfold checked_increase, checked_runtime, runtime, gets, some_or.
  unfold mbind at 1, eng_bind at 1. cbn. case_match; [|done]. split_and!; [done| |done].
  destruct (checked_add _ _ _); simplify_option_eq. exact Ha.
Qed.

(** ** An effect *)

(** What is known while a request is decided. *)
Definition deciding (t : TaskId) (op : OperationId) (request : AgentEffectRequest) (e : Engine) : Prop :=
  (runs t e /\ received (AgentEvent.EffectRequested request) e) /\ intended t op request e.(en_database).

Lemma intended_durable t op request : durable (intended t op request).
Proof. intros db db'. apply intended_later. Qed.
Lemma approved_durable digest : durable (approved digest).
Proof. intros db db'. apply approved_later. Qed.

Lemma deciding_kept t op request : kept (deciding t op request).
Proof.
  apply kept_lasting; [apply kept_and; [apply runs_kept|apply received_grows]|].
  apply durable_lasting, intended_durable.
Qed.

Context `{!OutsideLaws}.

Lemma deciding_queue t op request c m effort mode :
  model_ok m -> eng_keeps (deciding t op request) (queue_configuration t c m effort mode).
Proof.
  intros Hm. apply keeps_and; [apply keeps_and|].
  - apply runs_queue.
  - by apply free_queue; [apply grows_free, received_grows|].
  - by apply free_queue; [apply durable_free, intended_durable|].
Qed.

(** The owner allows: an approval of the digest is used up. *)
Definition allows (digest : Sha256Digest) (decision : EffectDecision) (db : Database) : Prop :=
  decision = EffectDecision.Allow -> approved digest db.

Lemma allows_lasting digest decision : lasting (allows digest decision).
Proof. intros db db' HL Ha Hd. eapply approved_later; [exact HL|auto]. Qed.

Lemma gives_consume (I : Engine -> Prop) awaited code decision session turn :
  kept I ->
  eng_gives I (consume_approval awaited code decision session turn)
    (fun _ e => allows awaited.(aw_binding).(bb_request_digest) decision e.(en_database)).
Proof.
  intros K. unfold consume_approval. destruct (_ || _); [apply gives_fail|].
  apply gives_bind; [ek|intros now]. eapply (gives_bind_then _ _ _
    (fun _ e => allows awaited.(aw_binding).(bb_request_digest) decision e.(en_database))).
  - intros e He. split; [by apply (ek_conn I K); [apply consume_remote_front|]|]. intros record.
    unfold store_conn, store_conn_as. destruct (consume_remote_bound_approval _ _ _ _ _) as [db [r|err]] eqn:Hc; [|done].
    intros _ ->. by eapply consumed_approved.
  - intros record. apply gives_ret. by intros e [_ Ha].
Qed.

Lemma gives_take_approval (I : Engine -> Prop) t awaited control code decision session turn :
  kept I ->
  eng_gives I (take_approval t awaited control code decision session turn)
    (fun d e => allows awaited.(aw_binding).(bb_request_digest) d e.(en_database)).
Proof.
  intros K. unfold take_approval. eapply gives_bind_then; [by apply gives_attempt, gives_consume|].
  intros consumed. destruct consumed as [[]|err]; simpl.
  - set (D := fun e => I e /\ allows awaited.(aw_binding).(bb_request_digest) decision e.(en_database)).
    assert (kept D) as K' by (apply kept_lasting; [done|apply allows_lasting]).
    apply (gives_iff D); [intros e; split; intros [He Ha]; (split; [done|]); [by intros [] _|by apply (Ha tt)]|].
    gives. apply gives_ret. by intros e [_ Ha].
  - apply (gives_iff I); [intros e; split; [done|by intros [? _]]|].
    gives.
Qed.

Lemma gives_await_decision (I : Engine -> Prop) fuel t ep awaited :
  kept I -> (forall c m effort mode, model_ok m -> eng_keeps I (queue_configuration t c m effort mode)) ->
  eng_gives I (await_decision fuel t ep awaited)
    (fun d e => allows awaited.(aw_binding).(bb_request_digest) d e.(en_database)).
Proof.
  intros K Lq. induction fuel as [|fuel IH]; cbn [await_decision]; [apply gives_waiting|]. cbv zeta.
  apply gives_bind; [ek|intros record]. apply gives_bind; [ek|intros remaining].
  eapply gives_pure; [by apply gives_wait|]. intros [[control|]|] Hc; [|gives|gives].
  eapply gives_pure; [by apply gives_owner|]. intros [c|] Ho; [|done]. specialize (Ho c eq_refl) as ->.
  destruct control; simpl in Hc; unfold tighten_while_awaiting; gives.
  - by apply gives_ret.
  - by apply gives_take_approval.
Qed.

Lemma gives_await_approval (I : Engine -> Prop) fuel t ep request op call :
  kept I -> (forall c m effort mode, model_ok m -> eng_keeps I (queue_configuration t c m effort mode)) ->
  eng_gives I (await_approval fuel t ep request op call)
    (fun d e => allows request.(ae_request_digest) d e.(en_database)).
Proof.
  intros K Lq. unfold await_approval, propose_tool. do 3 (apply gives_bind; [ek|intros ?]).
  destruct (inspect _); [destruct (tool_name _)|]; [|by apply gives_ret..].
  do 2 (apply gives_bind; [ek|intros ?]). eapply gives_pure; [apply gives_require|]. intros binding Hb.
  assert (binding.(bb_request_digest) = request.(ae_request_digest)) as Hd.
  { unfold BoundApprovalBinding_new in Hb. carl_simpl. done. }
  gives. rewrite <- Hd. by apply (gives_await_decision I fuel t ep (Build_AwaitedApproval _ _ _ _ _ _)).
Qed.

Lemma gives_decide t op request fuel ep call :
  eng_gives (deciding t op request) (decide_effect fuel t ep request op call)
    (fun d e => d = EffectDecision.Allow -> permitted t request e.(en_database)).
Proof.
  pose proof (deciding_kept t op request) as K. unfold decide_effect.
  destruct (supported _) eqn:Hs; [|by apply gives_ret]. destruct (negb (is_ok _)); [by apply gives_ret|]. simpl.
  intros e He. unfold runtime, gets, mbind, eng_bind. cbn.
  destruct (profile _) eqn:Hprofile; [by split; [|intros d [= <-]]| |].
  - case_match; [|by split; [|intros d [= <-]]].
    destruct (gives_await_approval (deciding t op request) fuel t ep request op call K
      ltac:(intros; by apply deciding_queue) e He) as [Hi Hg]. split; [done|].
    intros d Hd Hallow. split; [done|]. right. by apply (Hg d).
  - split; [done|]. intros d [= <-] _. split; [done|]. left.
    destruct He as [[(_ & (row & Hr & Hm & _) & _) _] _]. by exists row, (rt_effective_permission_mode e.(en_runtime)).
Qed.

(** An effect is resolved with leave only when it is permitted. *)
Lemma deciding_resolve t op request fuel ep call :
  eng_keeps (deciding t op request) (resolve_effect fuel t ep request op call).
Proof.
  pose proof (deciding_kept t op request) as K. unfold resolve_effect.
  eapply gives_then; [apply gives_decide|]. intros d. cbv beta.
  set (D := fun e => deciding t op request e /\ (d = EffectDecision.Allow -> permitted t request e.(en_database))).
  assert (kept D) as K'.
  { apply (kept_lasting (deciding t op request) (fun db => d = EffectDecision.Allow -> permitted t request db)); [done|].
    intros db db' HL Hp Hd. eapply permitted_lasting; [exact HL|auto]. }
  assert (forall wall, eng_keeps D (port_resolve wall request.(ae_request_id) d)) as Hport; [|destruct d; ek; apply Hport].
  intros wall e He. destruct d; [|by apply (k_exchange _ K')].
  destruct He as [[[(Hs & Hrest) Hrec] Hint] Hperm]. unfold D. split; [|done].
  split; [split; [split; [|done]|]|done].
  - apply justified_snoc; [done|]. intros rid answer [= <- _]. exists t, op, request. by split_and!; [| |done|apply Hperm].
  - eapply received_grows; [|exact Hrec]. by apply prefix_app_r.
Qed.

Lemma gives_record_started (I : Engine -> Prop) t ep op request class :
  kept I ->
  eng_gives I (record_started t ep op request.(ae_item_id) class (Sha256Digest_display request.(ae_request_digest)))
    (fun _ e => intended t op request e.(en_database)).
Proof.
  intros K. unfold record_started. eapply (gives_bind_then _ _ _ (fun _ e => intended t op request e.(en_database))).
  - intros e He. set (ev := TaskEvent.OperationIntentRecorded _ _ _ _ _).
    assert (eng_keeps I (engine_append t ev)) as Hk by ek. split; [by apply Hk|].
    destruct (engine_append_cases I t ev e K He) as (e1 & H1 & [[s ->]|(expected & now & id & db' & record & Ha & ->)]);
      [done|]. intros a _. by eapply appended_intent.
  - intros _. set (D := fun e => _).
    assert (kept D) as K' by (apply (kept_lasting I); [done|apply durable_lasting, intended_durable]).
    gives. apply gives_ret. by intros e [_ Hi].
Qed.

Lemma runs_dispatch t fuel ep p request item op class paths :
  eng_keeps (fun e => runs t e /\ received (AgentEvent.EffectRequested request) e)
    (dispatch_effect fuel t ep p request item op class paths).
Proof.
  assert (kept (fun e => runs t e /\ received (AgentEvent.EffectRequested request) e)) as K
    by (apply kept_and; [apply runs_kept|apply received_grows]).
  unfold dispatch_effect. eapply gives_then; [by apply gives_record_started|]. intros [].
  match goal with |- eng_keeps _ ?m => change (eng_keeps (deciding t op request) m) end.
  pose proof (deciding_kept t op request) as K'. unfold insert_operation_entry. ek; apply deciding_resolve.
Qed.

Lemma runs_loud t : loud t (runs t).
Proof.
  split; [intros; apply runs_queue|intros; apply runs_dispatch|apply runs_apply|intros; apply runs_start].
Qed.

(** ** Every history *)

Lemma stored_agrees t cfg r db :
  load_task_configuration_record db t = Ok (Some cfg) ->
  r.(rt_effective_permission_mode) = cfg.(tc_effective_permission_mode) ->
  pending_of cfg = Some r.(rt_pending_configuration) -> agrees t r db.
Proof.
  unfold load_task_configuration_record, transpose. destruct (_ !! _) as [row|] eqn:Hr; [|done].
  intros Hl He Hp. exists row. split; [done|]. rewrite He. unfold configuration_from_row in Hl. carl_simpl.
  split; [done|]. intros p Hpend. rewrite Hpend in Hp. unfold pending_of in Hp. cbn in Hp. repeat case_match; simplify_eq.
  split; [done|]. match goal with Hx : transpose _ (pending_permission_mode row) = Ok _ |- _ => rename Hx into Ht end.
  unfold transpose in Ht. destruct (pending_permission_mode row) as [text|]; [|done]. exists text. by carl_simpl.
Qed.

Lemma agrees_rehydrated t s e r : (rehydrate_runtime t s e).2 = Ok r -> agrees t r e.(en_database).
Proof.
  unfold rehydrate_runtime, store_read, some_or, require, mbind, eng_bind, mret, eng_ret. intros Hr.
  repeat (case_match; simplify_eq/=); by eapply stored_agrees.
Qed.

Lemma agrees_created canonicalize is_dir input context now t id db db' record :
  transaction (create_task canonicalize is_dir (new_task input now) t id) db = (db', Ok record) ->
  agrees record.(snapshot).(task_id) (new_runtime input context) db'.
Proof.
  unfold transaction. destruct (create_task _ _ _ _ _ _) as [[db1 r]|err] eqn:Hc; [|done].
  intros [= <- <-]. unfold create_task, create_task_inner in Hc. simpl in Hc. tx_simpl.
  match goal with Hx : existing_task None _ = Ok _ |- _ => injection Hx as <- end. tx_simpl.
  unfold insert_task_projection, insert_task_receipt in *. tx_simpl.
  eexists. cbn. split; [apply lookup_insert_eq|]. split; [apply parse_mode_str|done].
Qed.

Lemma effects_staged : staged idle safe runs agrees.
Proof.
  split.
  - apply idle_kept.
  - apply runs_kept.
  - apply runs_loud.
  - done.
  - done.
  - done.
  - done.
  - intros e t [Hs Ha]. split; [done|]. intros t' r Ht. cbn in Ht. apply Ha. by apply lookup_delete_Some in Ht as [_ ?].
  - intros e t r [Hs Ha] Hr. split; [done|]. intros t' r' Ht. cbn in Ht.
    apply lookup_insert_Some in Ht as [[<- <-]|[_ Ht]]; [done|by apply Ha].
  - intros e t r [Hs Ha] Ht. by apply Ha.
  - apply agrees_quiet.
  - apply agrees_lasting.
  - intros t s e r _. apply agrees_rehydrated.
  - intros e input context canonicalize is_dir now t id db record _. apply agrees_created.
  - intros e t expected c m effort mode now id _ Ht [Hs Ha]. split; [done|]. cbn.
    intros t' r Hr. eapply (agrees_later (fun k => k = uuid_to_string t)); [|by apply transaction_later, append_task_event_lasts|by apply Ha].
    intros Heq%uuid_inj. subst. cbn in Ht, Hr. congruence.
  - intros e t r [Hs Ha] Hr. split_and!; [done|done|]. intros t' r' Ht. cbn in Ht. apply Ha. by apply lookup_delete_Some in Ht as [_ ?].
  - intros e t (Hs & Hr & Ha). split; [done|]. intros t' r' Ht. cbn in Ht.
    apply lookup_insert_Some in Ht as [[<- <-]|[Hne Ht]]; [done|]. apply Ha. by rewrite lookup_delete_ne.
  - by intros e [Hs _].
  - by intros t e [Hs _].
Qed.

(** C2: the engine allows no effect on its own.  After any calls of the service in any
    order, with any answers of the provider, the owner and the clock, and with the
    process stopped and started again at any exchange: whenever the engine has told the
    provider that a request is allowed, the provider had sent a request with this
    identifier; at that moment the intent of an operation for the item and the digest
    of the request was in the store, for a task; and either the stored effective
    permission mode of this task was full access, or an approval bound to this digest
    had been resolved to allowed and used up. *)
Theorem effects_permitted cs db receipts r :
  Forall call_ok cs -> effects_justified (performed cs (new_engine db receipts [] r)).(en_transcript).
Proof.
  intros Hcs. assert (forall db tr r receipts, effects_justified tr -> idle (new_engine db receipts tr r)) as Hi.
  { by intros db' tr r' rs Hj. }
  pose proof (performed_rest _ _ _ _ effects_staged cs (new_engine db receipts [] r)) as Hr.
  assert (at_rest idle safe (foldl perform (new_engine db receipts [] r, false) cs)) as Hrest.
  { apply Hr; [|done|].
    - intros k rs e Hs. apply Hi. apply (justified_prefix _ (drop (S k) e.(en_transcript))). by rewrite take_drop.
    - apply Hi. intros before db' rid answer after Heq. by destruct before. }
  unfold performed. unfold at_rest in Hrest. destruct (foldl _ _ _) as [e []]; [exact Hrest|apply Hrest].
Qed.

End Effects.
