(* ===== verification/EngineLive.v ===== *)
(** * The engine comes to rest

    [src/runtime/task/engine.rs]: a task whose budget bounds its provider requests does
    not run for ever.  Every call of a function that has no loop over what the outside
    sends returns; an epoch ends because the events of a provider are counted; a task
    ends because every round of the loop uses up a request. *)
From stdpp Require Import base gmap sets list sorting strings.
From S2P Require Import Prelude Ord Text Settings Policy TaskTypes Events Reducer SecretFilter Checkpoint Report Progress Context Service Live Server Database TaskStore Front Approvals Grants StoreCheckpoint StoreJournal StoreAuthority StoreOps StoreBudget StorePayload StoreConnect StoreFrame TaskQueries AgentPort Engine EngineOwner EngineWork EngineRecover EngineRun EngineLogic EngineKeeps EngineStages EngineCalls EngineDurable.
From Stdlib Require Import ZArith Lia.
#[local] Open Scope list_scope.
#[local] Open Scope Z_scope.

(** ** Functions that return *)

Definition calm {A} (m : Eng A) : Prop := forall e, (m e).2 <> Err Waiting.

Create HintDb calm discriminated.
#[export] Hint Constants Opaque : calm.

Section Calm.
Context `{U : Uuids, C : Chrono, J : Serde, Q : SqliteJson, CJ : CheckpointJson, IJ : ItemJson, O : Outside, RJ : RunJson}.

Lemma calm_bind {A B} (m : Eng A) (k : A -> Eng B) : calm m -> (forall a, calm (k a)) -> calm (m ≫= k).
Proof.
  intros Hm Hk e. specialize (Hm e). unfold mbind, eng_bind. destruct (m e) as [e' [a|s]]; [apply Hk|].
  cbn in *. congruence.
Qed.
Lemma calm_attempt {A} (m : Eng A) : calm m -> calm (attempt m).
Proof. intros Hm e. specialize (Hm e). unfold attempt. by destruct (m e) as [e' [a|[code|]]]. Qed.
Lemma calm_for_each {A} (l : list A) (body : A -> Eng unit) : (forall a, calm (body a)) -> calm (for_each l body).
Proof. intros Hb. induction l as [|a l IH]; [done|]. by apply calm_bind. Qed.
Lemma calm_ret {A} (a : A) : calm (mret a).
Proof. done. Qed.
Lemma calm_fail {A} code : calm (fail code : Eng A).
Proof. done. Qed.
Lemma calm_gets {A} (f : Engine -> A) : calm (gets f).
Proof. done. Qed.
Lemma calm_change f : calm (change f).
Proof. done. Qed.
Lemma calm_require {A E} (r : result E A) code : calm (require r code).
Proof. intros e. by destruct r. Qed.
Lemma calm_some_or {A} (o : option A) code : calm (some_or o code).
Proof. intros e. by destruct o. Qed.
Lemma calm_from_result {A} (r : result TaskEngineErrorCode A) : calm (from_result r).
Proof. intros e. by destruct r. Qed.
Lemma calm_store_read {A} (f : Database -> result CarlError A) : calm (store_read f).
Proof. intros e. unfold store_read. by destruct (f _). Qed.
Lemma calm_conn {A} code (c : Conn A) : calm (store_conn_as code c).
Proof. intros e. unfold store_conn_as. by destruct (c _) as [db [a|err]]. Qed.
Lemma calm_exchange {A} (answer : Transcript -> A) (what : A -> Exchange) : calm (exchange answer what).
Proof. done. Qed.
Lemma calm_commit input expected id : calm (store_commit input expected id).
Proof. intros e. unfold store_commit. by repeat case_match. Qed.
End Calm.

#[export] Hint Resolve calm_ret calm_fail calm_gets calm_change calm_require calm_some_or calm_from_result
  calm_store_read calm_conn calm_exchange calm_commit : calm.

Ltac head_of t := match t with ?f _ => head_of f | _ => t end.
Ltac calm_step :=
  match goal with
  | |- calm (mbind _ _) => apply calm_bind; [|intros ?]
  | |- calm (match ?x with _ => _ end) => destruct x
  | |- calm (attempt _) => apply calm_attempt
  | |- calm (for_each _ _) => apply calm_for_each; intros ?
  | |- _ => solve [eauto 2 with calm]
  | |- calm ?m => let f := head_of m in unfold f
  end.
Ltac calm := intros; repeat (cbv zeta; calm_step).

Section Functions.
Context `{U : Uuids, C : Chrono, J : Serde, Q : SqliteJson, CJ : CheckpointJson, IJ : ItemJson, O : Outside, RJ : RunJson}.

Lemma calm_engine_append t ev : calm (engine_append t ev).
Proof. calm. Qed.
Lemma calm_block_task t reason : calm (block_task t reason).
Proof. calm. Qed.
#[local] Hint Resolve calm_engine_append calm_block_task : calm.
Lemma calm_capture w paths : calm (capture_entries w paths).
Proof. induction paths; cbn [capture_entries]; calm. Qed.
#[local] Hint Resolve calm_capture : calm.
Lemma calm_complete_item t ep item : calm (complete_item t ep item).
Proof. calm. Qed.
Lemma calm_interrupt t ep p reason : calm (interrupt_and_block_epoch t ep p reason).
Proof. calm. Qed.
Lemma calm_finish_work t ep p s : calm (finish_work t ep p s).
Proof. calm. Qed.
Lemma calm_ask_boundary t ep p : calm (ask_boundary t ep p).
Proof. calm. Qed.
Lemma calm_steering t ep p l : calm (send_steering t ep p l).
Proof. induction l; cbn [send_steering]; calm. Qed.
#[local] Hint Resolve calm_complete_item calm_interrupt calm_finish_work calm_ask_boundary calm_steering : calm.
Lemma calm_begin_epoch t : calm (begin_epoch t).
Proof. calm. Qed.
Lemma calm_conclude t ep output report : calm (conclude_epoch t ep output report).
Proof. calm. Qed.
Lemma calm_reconcile t w l : calm (reconcile_operations t w l).
Proof. induction l as [|[op o] l IH]; cbn [reconcile_operations]; calm. Qed.
#[local] Hint Resolve calm_reconcile : calm.
Lemma calm_settle t record : calm (settle_task t record).
Proof. calm. Qed.
Lemma calm_recovered t observed expected : calm (recovered_processes t observed expected).
Proof. induction expected; cbn [recovered_processes]; calm. Qed.
#[local] Hint Resolve calm_recovered : calm.
Lemma calm_resume t : calm (resume_provider_context t).
Proof. calm. Qed.
Lemma calm_rehydrate t s : calm (rehydrate_runtime t s).
Proof. calm. Qed.
Lemma calm_checkpointing t : calm (recover_checkpointing t).
Proof. calm. Qed.
End Functions.

#[export] Hint Resolve calm_engine_append calm_block_task calm_capture calm_complete_item calm_interrupt
  calm_finish_work calm_ask_boundary calm_steering calm_begin_epoch calm_conclude calm_settle calm_resume
  calm_rehydrate calm_checkpointing : calm.

(** ** A task that is left alone *)

(** The epochs the provider was asked to start. *)
Definition starts (tr : Transcript) : Z :=
  Zlen (omap (fun moment => match moment.(mo_exchange) with
                            | Exchange.StartEpoch request _ => Some request
                            | _ => None
                            end) tr).

Lemma starts_snoc tr moment :
  starts (tr ++ [moment])
  = starts tr + match moment.(mo_exchange) with Exchange.StartEpoch _ _ => 1 | _ => 0 end.
Proof. unfold starts. rewrite omap_app, Zlen_app. f_equal. simpl. by destruct (mo_exchange moment). Qed.

Section Alone.
Context `{U : Uuids, C : Chrono, J : Serde, Q : SqliteJson, CJ : CheckpointJson, IJ : ItemJson, O : Outside, RJ : RunJson}.
Context `{!OutsideLaws, !UuidLaws, !SerdeLaws}.
Context (t : TaskId) (B : TaskBudget) (n : Z) (Hn : B.(max_provider_requests) = Some n).

(** No control channel is installed; an approval is awaited only against the clock; and
    [c] bounds the epochs that were started. *)
Definition alone (c : Z) (e : Engine) : Prop :=
  e.(en_controls) = false
  /\ (e.(en_frontend) = None \/ is_Some B.(max_wall_time_seconds))
  /\ budgeted t B e.(en_database)
  /\ starts e.(en_transcript) <= c.

Lemma alone_written {A} c (tx : Tx A) e : tx_keeps (budgeted t B) tx -> alone c e -> alone c (written tx e).
Proof.
  intros Ht (Hc & Hf & Hb & Hs). split_and!; [done|done| |done]. cbn. unfold transaction.
  destruct (tx _) as [[db' a]|err] eqn:Hr; [|done]. by apply (Ht _ _ _ Hr).
Qed.

Lemma alone_log c x e :
  alone c e -> alone (c + match x with Exchange.StartEpoch _ _ => 1 | _ => 0 end) (log x e).
Proof.
  intros (Hc & Hf & Hb & Hs). split_and!; [done|done|done|].
  pose proof (starts_snoc e.(en_transcript) {| mo_database := e.(en_database); mo_exchange := x |}) as Hx.
  change (starts (log x e).(en_transcript) = starts e.(en_transcript) + match x with Exchange.StartEpoch _ _ => 1 | _ => 0 end) in Hx.
  lia.
Qed.

Lemma alone_quiet_log c x e :
  match x with Exchange.StartEpoch _ _ => false | _ => true end = true -> alone c e -> alone c (log x e).
Proof. intros Hx He. apply (alone_log _ x) in He. destruct x; try done; by rewrite Z.add_0_r in He. Qed.

Lemma alone_kept c : kept (alone c).
Proof.
  split; try (intros; done).
  - by intros e (_ & ?).
  - intros e x Hx. apply alone_quiet_log. by destruct x.
  - intros e t' expected ev now id _ _. apply alone_written, append_task_event_budgeted.
  - intros. by apply alone_written; [apply append_budgeted|].
  - intros. by apply alone_written; [apply create_session_budgeted|].
  - intros. by apply alone_written; [apply create_idempotent_budgeted|].
  - intros. by apply alone_written; [apply create_budgeted|].
  - intros. by apply alone_written; [apply steering_budgeted|].
  - intros e input expected id He. unfold store_commit, store_commit_checkpoint.
    pose proof (alone_written c (commit_checkpoint (e.(en_remembered) !! input.(nc_task_id)) (out_data_version e.(en_transcript)) input expected id) e
      (commit_budgeted _ _ _ _ _ _ _) He) as Hw. unfold written in Hw.
    destruct (transaction _ _) as [db [[[record authority]|]|err]]; exact Hw.
Qed.

(** ... and the requests that were counted are between [q] and [m], and the epochs that
    were started are at most [s] more. *)
Definition within (s m q : Z) (e : Engine) : Prop :=
  alone (s + e.(en_runtime).(rt_provider_requests)) e /\ q <= e.(en_runtime).(rt_provider_requests) <= m.

Lemma within_kept s m q : kept (within s m q).
Proof.
  split; intros e.
  { intros r (_ & _ & Hq) Hw. unfold within. cbn. rewrite Hq. exact Hw. }
  all: intros; match goal with Hw : within _ _ _ _ |- _ => destruct Hw as [Ha Hq] end.
  all: destruct (alone_kept (s + rt_provider_requests (en_runtime e))).
  13: { unfold within. destruct (store_commit_runtime input expected id e) as [-> _]. split; [by auto|done]. }
  all: split; [|exact Hq];
    match goal with |- alone _ ?e' => change (alone (s + rt_provider_requests (en_runtime e)) e') end; by auto.
Qed.

Lemma within_weaken s m q s' q' e : s' <= s -> q <= q' -> within s' m q' e -> within s m q e.
Proof. intros Hs Hq [(Hc & Hf & Hb & Hst) Hr]. split; [|lia]. split_and!; [done|done|done|lia]. Qed.

Lemma within_append s m q t' ev : eng_keeps (within s m q) (engine_append t' ev).
Proof.
  apply ek_engine_append_with; [apply within_kept|]. intros e expected now id [Ha Hq].
  split; [|done]. by apply alone_written; [apply append_task_event_budgeted|].
Qed.

Lemma within_runtime s m q f :
  (forall r, (f r).(rt_provider_requests) = r.(rt_provider_requests)) -> eng_keeps (within s m q) (with_runtime f).
Proof. intros Hf e Hw. unfold within, with_runtime, change. cbn. by rewrite Hf. Qed.

Lemma within_queue s m q c model effort mode : eng_keeps (within s m q) (queue_configuration t c model effort mode).
Proof.
  pose proof (within_kept s m q). unfold queue_configuration. ek; [apply within_append|].
  apply within_runtime. intros r. by repeat case_match.
Qed.

Lemma within_apply s m q : eng_keeps (within s m q) (apply_pending_configuration t).
Proof.
  pose proof (within_kept s m q). unfold apply_pending_configuration. ek; [apply within_append|by apply within_runtime].
Qed.

Lemma within_dispatch s m q fuel ep p request item op class paths :
  eng_keeps (within s m q) (dispatch_effect fuel t ep p request item op class paths).
Proof.
  pose proof (within_kept s m q) as K. unfold dispatch_effect, insert_operation_entry. ek.
  all: apply ek_resolve_effect; [done|intros; apply within_queue|].
  all: intros r answer e [Ha Hq]; (split; [|done]); by apply alone_quiet_log.
Qed.

(** From [P], a computation leads to [R], and to [G] where it succeeds. *)
Definition leads {A} (P R : Engine -> Prop) (m : Eng A) (G : A -> Engine -> Prop) : Prop :=
  forall e, P e -> R (m e).1 /\ forall a, (m e).2 = Ok a -> G a (m e).1.

Lemma leads_bind {A A'} P R (m : Eng A) (k : A -> Eng A') P' G :
  leads P R m P' -> (forall a, leads (P' a) R (k a) G) -> leads P R (m ≫= k) G.
Proof.
  intros Hm Hk e He. destruct (Hm e He) as [Hq Hp]. unfold mbind, eng_bind.
  destruct (m e) as [e' [a|s]]; [|done]. by apply (Hk a e'), Hp.
Qed.
Lemma leads_keeps {A} (P R : Engine -> Prop) (m : Eng A) :
  (forall e, P e -> R e) -> eng_keeps P m -> leads P R m (fun _ => P).
Proof. intros Hq Hm e He. split; [by apply Hq, Hm|]. intros a _. by apply Hm. Qed.
Lemma leads_gives {A} (P R : Engine -> Prop) (m : Eng A) G :
  (forall e, P e -> R e) -> eng_gives P m G -> leads P R m (fun a e => P e /\ G a e).
Proof. intros Hq Hm e He. destruct (Hm e He) as [Hp Hg]. split; [by apply Hq|]. intros a Ha. split; [done|by apply Hg]. Qed.
Lemma leads_pure {A A'} (P R : Engine -> Prop) (m : Eng A) (k : A -> Eng A') (phi : A -> Prop) G :
  (forall e, P e -> R e) -> eng_gives P m (fun a _ => phi a) -> (forall a, phi a -> leads P R (k a) G) ->
  leads P R (m ≫= k) G.
Proof.
  intros Hq Hm Hk e He. destruct (Hm e He) as [Hp Hg]. unfold mbind, eng_bind.
  destruct (m e) as [e' [a|s]]; [|by split; [apply Hq|]]. by apply (Hk a); [apply Hg|].
Qed.
Lemma leads_next {A A'} (P R : Engine -> Prop) (m : Eng A) (k : A -> Eng A') G :
  (forall e, P e -> R e) -> eng_keeps P m -> (forall a, leads P R (k a) G) -> leads P R (m ≫= k) G.
Proof. intros Hq Hm Hk. by eapply leads_bind; [apply leads_keeps|]. Qed.
Lemma leads_pre {A} (P P' R : Engine -> Prop) (m : Eng A) G :
  (forall e, P e -> P' e) -> leads P' R m G -> leads P R m G.
Proof. intros Hp Hm e He. by apply Hm, Hp. Qed.
Lemma gives_keeps {A} (I : Engine -> Prop) (m : Eng A) : eng_keeps I m -> eng_gives I m (fun _ => I).
Proof. intros Hm e He. split; [by apply Hm|]. intros a _. by apply Hm. Qed.

Lemma gives_task (I : Engine -> Prop) :
  kept I -> (forall e, I e -> budgeted t B e.(en_database)) ->
  eng_gives I (get_task t) (fun record _ => record.(snapshot).(budget) = B).
Proof.
  intros K Hb e He. split; [by apply ek_get_task|]. intros record.
  unfold get_task, store_read, some_or, mbind, eng_bind.
  destruct (load_task_record _ t) as [[r|]|err] eqn:Hl; [|done|done]. intros [= <-].
  by apply (budgeted_loaded t B) in Hl; [|apply Hb].
Qed.

Lemma within_budgeted s m q e : within s m q e -> budgeted t B e.(en_database).
Proof. by intros [(_ & _ & ? & _) _]. Qed.

(** A request is left as long as the count is below the budget. *)
Lemma gives_dispatch_reason s m q record :
  record.(snapshot).(budget) = B ->
  eng_gives (within s m q) (provider_dispatch_budget_reason record)
    (fun reason e => reason = None -> e.(en_runtime).(rt_provider_requests) < n).
Proof.
  intros Hb. unfold provider_dispatch_budget_reason. pose proof (within_kept s m q) as K.
  apply gives_bind; [unfold wall_time_exhausted; ek|intros exhausted]. destruct exhausted; [by apply gives_ret|].
  apply (gives_bind_then _ _ _ (fun requests e => requests = e.(en_runtime).(rt_provider_requests))).
  { apply gives_gets. }
  intros requests. apply gives_ret. intros e [_ ->]. rewrite Hb, Hn. unfold reached. case_match; [done|lia].
Qed.

Lemma checked_increase_eq get set amount e :
  checked_increase get set amount e
  = match checked_add u64_max (get e.(en_runtime)) amount with
    | Some c => (en_set_runtime (set c e.(en_runtime)) e, Ok tt)
    | None => (e, Err (Failed TaskEngineErrorCode.InvalidTask))
    end.
Proof.
  unfold checked_increase, checked_runtime, runtime, gets, some_or, with_runtime, change, mbind, eng_bind.
  by destruct (checked_add _ _ _).
Qed.

Lemma leads_increase s m q :
  n <= m ->
  leads (fun e => within s m q e /\ e.(en_runtime).(rt_provider_requests) < n) (within s m q)
    (checked_increase rt_provider_requests rt_set_provider_requests 1) (fun _ => within (s - 1) m (q + 1)).
Proof.
  intros Hm e [Hw Hlt]. rewrite checked_increase_eq. destruct (checked_add _ _ _) as [c|] eqn:Hadd; [|done].
  apply checked_add_some in Hadd as [_ ->]. destruct Hw as [(Hc & Hf & Hb & Hs) Hq]. set (r := rt_provider_requests e.(en_runtime)) in *.
  assert (forall s' q', starts e.(en_transcript) <= s' + (r + 1) -> q' <= r + 1 <= m ->
    within s' m q' (en_set_runtime (rt_set_provider_requests (r + 1) e.(en_runtime)) e)) as Hw.
  { intros s' q' Hs' Hq'. split; [by split_and!|done]. }
  split; [|intros _ _]; apply Hw; lia.
Qed.

(** Starting an epoch counts a request, before the provider hears of it. *)
Lemma leads_start s m q ep purpose request :
  n <= m ->
  leads (within s m q) (within s m q) (start_provider_epoch t ep purpose request) (fun _ => within s m (q + 1)).
Proof.
  intros Hm. unfold start_provider_epoch. pose proof (within_kept s m q) as K.
  eapply leads_pure; [done|apply gives_task; [done|apply within_budgeted]|]. intros record Hb.
  eapply leads_bind; [apply leads_gives; [done|by apply gives_dispatch_reason]|]. intros [reason|].
  { apply (leads_pre _ (within s m q)); [by intros e [? _]|]. intros e He. split; [by apply ek_finish_and_block|].
    unfold finish_and_block, mbind, eng_bind. by repeat case_match. }
  set (I := fun e => _ /\ _). assert (kept I) as KI.
  { apply (kept_facts _ (fun r _ _ => None = None -> r.(rt_provider_requests) < n)); [done| |].
    - by intros r r' _ _ (_ & _ & ->).
    - by intros r ts db db' _. }
  assert (forall e, I e -> within s m q e) as HI by (by intros e [? _]).
  apply leads_next; [done|ek|intros _]. apply leads_next; [done|ek|intros sequence]. apply leads_next; [done| |intros _].
  { apply ek_engine_append_with; [done|]. intros e expected now id [[Ha Hq] Hlt]. split; [|done]. split; [|done].
    by apply alone_written; [apply append_task_event_budgeted|]. }
  eapply leads_bind; [eapply leads_pre; [|by apply leads_increase]|intros ?; cbv beta].
  { intros e [? Hlt]. split; [done|by apply Hlt]. }
  apply (leads_bind _ _ _ _ (fun _ => within s m (q + 1))).
  { intros e [Ha Hq]. assert (within s m (q + 1) (log (Exchange.StartEpoch request (out_start_epoch request e.(en_transcript))) e)) as Hw.
    { split; [|done]. set (r := rt_provider_requests e.(en_runtime)) in *.
      change (alone (s + r) (log (Exchange.StartEpoch request (out_start_epoch request e.(en_transcript))) e)).
      replace (s + r) with (s - 1 + r + 1) by lia. exact (alone_log _ (Exchange.StartEpoch _ _) _ Ha). }
    split; [eapply within_weaken; [| |exact Hw]; lia|]. intros ? _. exact Hw. }
  intros answer. pose proof (within_kept s m (q + 1)) as K1. apply leads_keeps; [intros e; apply within_weaken; lia|].
  ek. by apply ek_not_started.
Qed.

Lemma within_loud s m q : n <= m -> loud t (within s m q).
Proof.
  intros Hm. split.
  - intros. apply within_queue.
  - intros. apply keeps_and; [apply within_dispatch|apply free_dispatch, grows_free, received_grows].
  - apply within_apply.
  - intros ep purpose request e He. by apply leads_start.
Qed.

Lemma leads_begin s m q :
  n <= m -> leads (within s m q) (within s m q) (begin_epoch t) (fun _ => within s m (q + 1)).
Proof.
  intros Hm. pose proof (within_kept s m q) as K. pose proof (within_kept s m (q + 1)) as K1. unfold begin_epoch.
  do 5 (apply leads_next; [done|ek|intros ?]). apply leads_next; [done|apply within_apply|intros ?].
  apply leads_next; [done|ek|intros r]. eapply leads_bind; [by apply leads_start|]. intros p. cbv beta.
  apply leads_keeps; [intros e; apply within_weaken; lia|]. ek. by apply ek_send_steering.
Qed.

(** ** An epoch ends *)

(** Started in [I], a computation returns. *)
Definition lives {A} (I : Engine -> Prop) (m : Eng A) : Prop := forall e, I e -> (m e).2 <> Err Waiting.

Lemma lives_calm {A} I (m : Eng A) : calm m -> lives I m.
Proof. intros Hm e _. apply Hm. Qed.
Lemma lives_bind {A A'} I (m : Eng A) (k : A -> Eng A') :
  eng_keeps I m -> lives I m -> (forall a, lives I (k a)) -> lives I (m ≫= k).
Proof.
  intros Hi Hm Hk e He. specialize (Hi e He). specialize (Hm e He). unfold mbind, eng_bind.
  destruct (m e) as [e' [a|s]]; [by apply Hk|]. cbn in *. congruence.
Qed.
Lemma lives_then {A A'} I (m : Eng A) (k : A -> Eng A') : lives I m -> (forall a, calm (k a)) -> lives I (m ≫= k).
Proof.
  intros Hm Hk e He. specialize (Hm e He). unfold mbind, eng_bind.
  destruct (m e) as [e' [a|s]]; [by apply Hk|]. cbn in *. congruence.
Qed.
Lemma lives_attempt {A} I (m : Eng A) : lives I m -> lives I (attempt m).
Proof. intros Hm e He. specialize (Hm e He). unfold attempt. by destruct (m e) as [e' [a|[code|]]]. Qed.
Lemma lives_pure {A A'} I (m : Eng A) (k : A -> Eng A') (phi : A -> Prop) :
  eng_gives I m (fun a _ => phi a) -> calm m -> (forall a, phi a -> lives I (k a)) -> lives I (m ≫= k).
Proof.
  intros Hm Hc Hk e He. destruct (Hm e He) as [Hi Hg]. specialize (Hc e). unfold mbind, eng_bind.
  destruct (m e) as [e' [a|s]]; [by apply (Hk a); [apply Hg|]|]. cbn in *. congruence.
Qed.

#[local] Ltac live :=
  repeat (cbv zeta; match goal with
  | |- lives _ (match ?x with _ => _ end) => destruct x
  | |- lives _ _ => solve [apply lives_calm; calm]
  | |- lives _ (mbind _ _) => apply lives_bind; [solve [ek]|apply lives_calm; solve [calm]|intros ?]
  end).

Section Epoch.
Context (s m q : Z) (Hm : n <= m).
#[local] Abbreviation W := (within s m q).
#[local] Definition K : kept W := within_kept s m q.

Lemma wait_alone e :
  e.(en_controls) = false -> wait_for_approval true e = (log Exchange.WallTimeReached e, Ok WaitHardBudget).
Proof. destruct e. cbn. by intros ->. Qed.

Lemma lives_await fuel ep awaited :
  is_Some B.(max_wall_time_seconds) -> lives W (await_decision (S fuel) t ep awaited).
Proof.
  intros [maximum Hwall]. cbn [await_decision]. cbv zeta.
  eapply lives_pure; [apply gives_task; [apply K|apply within_budgeted]|calm|]. intros record Hb.
  apply (lives_pure _ _ _ (fun remaining => is_some remaining = true)); [|calm|].
  { pose proof K. unfold remaining_wall_budget. rewrite Hb, Hwall. gives. by apply gives_ret. }
  intros remaining ->. intros e [(Hc & _) _]. unfold mbind at 1, eng_bind at 1. rewrite wait_alone by done.
  match goal with |- (?k _).2 <> _ => enough (calm k) as Hk by apply Hk end. calm.
Qed.

Lemma calm_remote_code k context a pr d now : calm (create_task_remote_code k context a pr d now).
Proof. induction k; cbn [create_task_remote_code]; calm. Qed.
#[local] Hint Resolve calm_remote_code : calm.

Lemma gives_frontend :
  eng_gives W (gets en_frontend) (fun context _ => is_some context = true -> is_Some B.(max_wall_time_seconds)).
Proof.
  intros e He. split; [done|]. intros context [= <-]. destruct He as [(_ & [Hf|Hw] & _) _]; [|done].
  destruct e. cbn in *. by subst.
Qed.

Lemma lives_approval fuel ep request op call :
  is_Some B.(max_wall_time_seconds) -> lives W (await_approval (S fuel) t ep request op call).
Proof. intros Hw. pose proof K. unfold await_approval, propose_tool. live. by apply lives_await. Qed.

Lemma lives_decide fuel ep request op call : lives W (decide_effect (S fuel) t ep request op call).
Proof.
  pose proof K. unfold decide_effect. case_match; [apply lives_calm; calm|].
  apply lives_bind; [ek|apply lives_calm; calm|intros effective].
  eapply lives_pure; [apply gives_frontend|calm|]. intros context Hw.
  cbv beta in Hw. destruct (is_some context) eqn:Hs; live. by apply lives_approval, Hw.
Qed.

Lemma lives_dispatch fuel ep p request item op class paths :
  lives W (dispatch_effect (S fuel) t ep p request item op class paths).
Proof.
  pose proof K. unfold dispatch_effect, insert_operation_entry. live.
  all: unfold resolve_effect; apply lives_then; [apply lives_decide|calm].
Qed.

Lemma lives_event fuel ep p start d event : lives W (take_event t ep p (S fuel) start d event).
Proof.
  pose proof K. unfold take_event. live. apply lives_then; [|calm]. apply lives_attempt.
  unfold process_work_event. live. apply lives_then; [|calm]. unfold request_effect. live. all: by apply lives_dispatch.
Qed.

(** An epoch goes on after an event only while the events are within their bound, and a
    boundary that was requested stays so. *)
Lemma event_goes_on ep p fuel start d event :
  eng_gives (fun _ => True) (take_event t ep p fuel start d event)
    (fun outcome _ => forall b, outcome = inr b ->
       d.(provider_events) <= MAX_EPOCH_PROVIDER_EVENTS /\ (d.(boundary_requested) = true -> b = true)).
Proof.
  unfold take_event, stop_epoch. case_match; [apply gives_bind; [done|intros; apply gives_fail]|].
  apply (gives_pure _ _ _ (fun o => o = None -> d.(provider_events) <= MAX_EPOCH_PROVIDER_EVENTS)).
  { intros e _. split; [done|]. intros o [= <-]. unfold stream_bound_reason. case_match; [done|]. lia. }
  intros [reason|] Hr; [apply gives_bind; [done|intros; apply gives_fail]|].
  specialize (Hr eq_refl). destruct (boundary_requested d) eqn:Hd.
  all: repeat match goal with
  | |- eng_gives _ (mbind _ _) _ => apply gives_bind; [done|intros ?]
  | |- eng_gives _ (fail _) _ => apply gives_fail
  | |- eng_gives _ (mret _) _ => apply gives_ret; intros ? _ ? [= <-]
  | |- eng_gives _ (match ?x with _ => _ end) _ => destruct x
  end; done.
Qed.

(** How often the loop of an epoch can still go round. *)
Definition rounds (d : Drain) : Z :=
  2 * (MAX_EPOCH_PROVIDER_EVENTS + 1 - d.(provider_events))
  + (if d.(read_retries) =? 0 then 1 else 0) + (if d.(boundary_requested) then 0 else 1).

Lemma lives_select {A} b wall (k : Next -> Eng A) :
  (forall error, lives W (k (NextProvider (Err error)))) ->
  (forall event e, W e -> received event e -> (k (NextProvider (Ok event)) e).2 <> Err Waiting) ->
  (b = false -> lives W (k NextBoundary)) -> lives W (k NextHardBudget) -> lives W (select_next b wall ≫= k).
Proof.
  intros He Hok Hb Hh e Hi. pose proof K as KW. assert (e.(en_controls) = false) as Hc by apply Hi.
  assert (((event ← exchange out_event Exchange.NextEvent; k (NextProvider event)) e).2 <> Err Waiting) as Hp.
  { unfold exchange, mbind, eng_bind.
    assert (W (log (Exchange.NextEvent (out_event e.(en_transcript))) e)) as Hl by by apply (k_exchange _ KW).
    destruct (out_event _) as [event|error] eqn:Ho; [|by apply He]. apply Hok; [done|].
    exists e.(en_database). apply elem_of_app. right. by apply list_elem_of_singleton. }
  assert (b = false -> ((_ ← tell Exchange.TimerFired; k NextBoundary) e).2 <> Err Waiting) as Ht.
  { intros Hf. apply (Hb Hf). by apply (k_exchange _ KW). }
  assert (((_ ← tell Exchange.WallTimeReached; k NextHardBudget) e).2 <> Err Waiting) as Hw.
  { apply Hh. by apply (k_exchange _ KW). }
  unfold select_next, gets, tell, exchange, mbind, eng_bind, mret, eng_ret in *. destruct e. cbn in *. subst.
  destruct (out_ready _), b, wall; cbn in *; auto.
Qed.

End Epoch.

(** The loop of an epoch ends, whatever the provider sends. *)
Lemma lives_drain s m q ep p wall start fuel d :
  n <= m -> d.(provider_events) <= MAX_EPOCH_PROVIDER_EVENTS + 1 -> rounds d + 1 < Z.of_nat fuel ->
  lives (within s m q) (drain_loop t ep p fuel wall start d).
Proof.
  intros Hm. pose proof (within_kept s m q) as K. revert d. induction fuel as [|fuel IH]; intros d Hd Hf.
  { exfalso. unfold rounds in Hf. repeat case_match; lia. }
  assert (exists fuel', fuel = S fuel') as [fuel' Hfuel].
  { destruct fuel; [|eauto]. exfalso. unfold rounds in Hf. repeat case_match; lia. }
  cbn [drain_loop]. apply lives_select.
  - intros error. destruct error.(port_provenance); [|apply lives_calm; calm].
    destruct (read_retries d =? 0) eqn:Hr; [|apply lives_calm; calm]. apply IH; [done|].
    unfold rounds in *. cbn. rewrite Hr in Hf. case_match; lia.
  - intros event e He Hrec. cbv zeta. set (d' := {| boundary_requested := _ |}).
    pose proof (event_goes_on ep p fuel start d' event e I) as [_ Hgo].
    pose proof (ek_take_event t (within s m q) K (within_loud s m q Hm) fuel ep p start d' event e (conj He Hrec)) as [Hi _].
    assert ((take_event t ep p fuel start d' event e).2 <> Err Waiting) as Hl by (subst fuel; by apply (lives_event s m q)).
    unfold mbind at 1, eng_bind at 1.
    destruct (take_event t ep p fuel start d' event e) as [e' [[output|b]|stop]]; cbn in *; [done| |congruence].
    destruct (Hgo _ eq_refl b eq_refl) as [Hle Hb]. apply IH; [cbn; lia| |exact Hi].
    unfold rounds in *. cbn. destruct d.(boundary_requested); [rewrite Hb by done|]; repeat case_match; lia.
  - intros Hb. apply lives_bind; [ek|apply lives_calm; calm|intros _]. apply IH; [done|].
    unfold rounds in *. cbn. rewrite Hb in Hf. case_match; lia.
  - apply lives_calm; calm.
Qed.

Lemma lives_work s m q ep p fuel :
  n <= m -> 2 * MAX_EPOCH_PROVIDER_EVENTS + 6 <= Z.of_nat fuel -> lives (within s m q) (drain_work_epoch t ep p fuel).
Proof.
  intros Hm Hf. pose proof (within_kept s m q). unfold drain_work_epoch. live.
  apply lives_drain; [done|cbn; unfold MAX_EPOCH_PROVIDER_EVENTS; lia|]. unfold rounds. cbn. case_match; lia.
Qed.

(** ** A task ends *)

Lemma gives_exhausted s m q record :
  record.(snapshot).(budget) = B ->
  eng_gives (within s m q) (exhausted_budget_reason record) (fun reason _ => reason = None -> q < n).
Proof.
  intros Hb. unfold exhausted_budget_reason. pose proof (within_kept s m q).
  apply (gives_pure _ _ _ (fun reason => reason = None -> q < n)).
  - intros e He. destruct (gives_dispatch_reason s m q record Hb e He) as [Hi Hg]. split; [done|].
    intros reason Hr Hnone. specialize (Hg reason Hr Hnone). destruct Hi as [_ Hq]. lia.
  - intros [reason|] Hr; [by apply gives_ret|]. gives. apply gives_ret. intros e _ _. by apply Hr.
Qed.

(** A round after which the loop goes on has used a request. *)
Lemma leads_round s m q fuel record :
  n <= m -> record.(snapshot).(budget) = B ->
  leads (within s m q) (within s m q) (run_round fuel t record)
    (fun outcome e => outcome = None -> q < n /\ within s m (q + 1) e).
Proof.
  intros Hm Hb. pose proof (within_kept s m q). pose proof (within_kept s m (q + 1)). unfold run_round.
  eapply leads_pure; [done|by apply gives_exhausted|]. intros [reason|] Hr.
  { intros e He. split; [by apply ek_block_with|]. unfold block_with, mbind, eng_bind. by repeat case_match. }
  apply leads_next; [done|ek|intros room]. destruct (negb room).
  { intros e He. split; [by apply ek_block_with|]. unfold block_with, mbind, eng_bind. by repeat case_match. }
  eapply leads_bind; [by apply leads_begin|]. intros [ep p]. cbv beta iota.
  pose proof (within_loud s m (q + 1) Hm) as L. intros e He.
  match goal with |- within _ _ _ (?round e).1 /\ _ => assert (eng_keeps (within s m (q + 1)) round) as Hk end.
  { ek; [by apply ek_at_configuration|by apply ek_conclude|by apply ek_malformed]. }
  specialize (Hk e He). split; [by eapply within_weaken; [| |exact Hk]; lia|]. intros o _ _. split; [by apply Hr|done].
Qed.

Lemma lives_round s m q fuel record :
  n <= m -> 2 * MAX_EPOCH_PROVIDER_EVENTS + 6 <= Z.of_nat fuel -> lives (within s m q) (run_round fuel t record).
Proof.
  intros Hm Hf. pose proof (within_kept s m q). unfold run_round. live.
  intros e He. destruct (leads_begin s m q Hm e He) as [_ Hb]. pose proof (calm_begin_epoch t e) as Hc.
  unfold mbind at 1, eng_bind at 1. destruct (begin_epoch t e) as [e' [[ep p]|stop]]; cbn in *; [|congruence].
  apply (lives_then (within s m (q + 1))); [by apply lives_work|calm|]. by apply (Hb (ep, p)).
Qed.

Lemma lives_loop s m q fuel :
  n <= m -> Z.max 0 (n - q) + 2 * MAX_EPOCH_PROVIDER_EVENTS + 7 <= Z.of_nat fuel ->
  lives (within s m q) (run_loop fuel t).
Proof.
  intros Hm. revert q. induction fuel as [|fuel IH]; intros q Hf; [unfold MAX_EPOCH_PROVIDER_EVENTS in Hf; lia|].
  cbn [run_loop]. pose proof (within_kept s m q).
  eapply lives_pure; [apply gives_task; [done|apply within_budgeted]|calm|]. intros record Hb. case_match; [by apply lives_calm|].
  intros e He. pose proof (lives_round s m q fuel record Hm ltac:(lia) e He) as Hl.
  destruct (leads_round s m q fuel record Hm Hb e He) as [_ Hr].
  unfold mbind, eng_bind. destruct (run_round fuel t record e) as [e' [[snapshot|]|stop]]; cbn in *; [done| |congruence].
  destruct (Hr None eq_refl eq_refl) as [Hq Hw]. apply (IH (q + 1)); [lia|done].
Qed.

(** An idle engine that is left alone; its counters are not negative. *)
Definition idle_alone (c : Z) (e : Engine) : Prop :=
  alone c e /\ forall r, e.(en_tasks) !! t = Some r -> 0 <= r.(rt_provider_requests).

Lemma idle_alone_kept c : kept (idle_alone c).
Proof.
  apply (kept_facts _ (fun _ ts _ => forall r, ts !! t = Some r -> 0 <= r.(rt_provider_requests))); [apply alone_kept|done|].
  by intros _ ts db db' _.
Qed.

(** From there the computation returns, and starts at most as many epochs as the budget
    has. *)
Definition rests {A} (c : Z) (m : Eng A) : Prop :=
  forall e, idle_alone c e -> (m e).2 <> Err Waiting /\ starts (m e).1.(en_transcript) <= c + Z.max 0 n.

Lemma rests_keeps {A} c (m : Eng A) : eng_keeps (idle_alone c) m -> calm m -> rests c m.
Proof. intros Hk Hc e He. split; [apply Hc|]. destruct (Hk e He) as [(_ & _ & _ & Hs) _]. lia. Qed.
Lemma rests_bind {A A'} c (m : Eng A) (k : A -> Eng A') (phi : A -> Prop) :
  eng_gives (idle_alone c) m (fun a _ => phi a) -> calm m -> (forall a, phi a -> rests c (k a)) -> rests c (m ≫= k).
Proof.
  intros Hm Hc Hk e He. destruct (Hm e He) as [Hi Hg]. specialize (Hc e). unfold mbind, eng_bind.
  destruct (m e) as [e' [a|stop]]; [by apply (Hk a); [apply Hg|]|]. cbn [fst snd] in *. split; [congruence|].
  destruct Hi as [(_ & _ & _ & Hs) _]. lia.
Qed.
Lemma rests_next {A A'} c (m : Eng A) (k : A -> Eng A') :
  eng_keeps (idle_alone c) m -> calm m -> (forall a, rests c (k a)) -> rests c (m ≫= k).
Proof. intros Hm Hc Hk. apply (rests_bind c m k (fun _ => True)); [|done|by intros]. intros e He. by split; [apply Hm|]. Qed.

Lemma rehydrated_requests snapshot events h h' :
  rehydrate_events snapshot h events = Some h' -> 0 <= h.(rh_provider_requests) -> 0 <= h'.(rh_provider_requests).
Proof.
  revert h. induction events as [|env events IH]; cbn [rehydrate_events]; intros h; [by intros [= <-]|].
  intros (h1 & Hev & Hrest)%bind_Some Hh. apply (IH h1 Hrest). clear IH Hrest. unfold rehydrate_event in Hev.
  destruct (lifecycle_of env) as [[t' ev]|]; [|done]. cbn in Hev. destruct ev; repeat case_match; simplify_eq/=.
  all: try done; repeat match goal with h : Rehydrated |- _ => destruct h end; cbn in *; try done.
  all: unfold saturating_add, u64_max; lia.
Qed.

Lemma gives_some_or {A} I (o : option A) code : eng_gives I (some_or o code) (fun a _ => o = Some a).
Proof. intros e He. destruct o; (split; [done|]); [|done]. by intros a' [= <-]. Qed.

Lemma gives_rehydrated_requests c snapshot :
  eng_gives (idle_alone c) (rehydrate_runtime t snapshot) (fun r _ => 0 <= r.(rt_provider_requests)).
Proof.
  pose proof (idle_alone_kept c). unfold rehydrate_runtime. apply gives_bind; [ek|intros events].
  eapply gives_pure; [apply gives_some_or|]. intros h Hh. gives. apply gives_ret; intros e _; cbn.
  eapply rehydrated_requests; [exact Hh|cbn; lia].
Qed.

(** A runtime that was read is put to work. *)
Lemma rests_with_runtime {A} c r (m : Eng A) :
  0 <= r.(rt_provider_requests) ->
  (forall s, eng_keeps (within s (Z.max n r.(rt_provider_requests)) r.(rt_provider_requests)) m) ->
  (forall s, lives (within s (Z.max n r.(rt_provider_requests)) r.(rt_provider_requests)) m) ->
  rests c (_ ← with_runtime (fun _ => r); m).
Proof.
  intros Hr Hk Hl e He. set (q := rt_provider_requests r) in *. set (e1 := en_set_runtime r e).
  change (((_ ← with_runtime (fun _ => r); m) e)) with (m e1).
  assert (within (c - q) (Z.max n q) q e1) as Hw.
  { split; [|change (q <= q <= Z.max n q); lia]. change (alone (c - q + q) e). replace (c - q + q) with c by lia. apply He. }
  split; [by eapply Hl|]. specialize (Hk _ _ Hw) as [(_ & _ & _ & Hs) Hq]. lia.
Qed.

Lemma gives_runtime c record ready :
  eng_gives (idle_alone c)
    (tasks ← gets en_tasks;
     match tasks !! t with
     | Some r => mret r
     | None => r ← rehydrate_runtime t record.(snapshot); mret (with_ready ready r)
     end) (fun r _ => 0 <= r.(rt_provider_requests)).
Proof.
  eapply gives_bind_then; [apply gives_gets|]. intros tasks. destruct (tasks !! t) as [r|] eqn:Ht.
  - apply gives_ret. intros e [[_ Hr] ->]. by apply Hr.
  - pose proof (idle_alone_kept c). intros e [He Heq].
    assert (eng_gives (idle_alone c) (r ← rehydrate_runtime t record.(snapshot); mret (with_ready ready r))
      (fun r _ => 0 <= r.(rt_provider_requests))) as Hg.
    { eapply gives_pure; [apply gives_rehydrated_requests|]. intros r Hr. by apply gives_ret. }
    destruct (Hg e He) as [Hi Hr]. split; [|done]. split; [done|].
    unfold mbind, eng_bind. pose proof (rehydrate_reads t record.(snapshot) e) as Hread.
    destruct (rehydrate_runtime _ _ e) as [e' [r|stop]]; cbn in *; by subst.
Qed.

Lemma rests_assoc {A1 A2 A3} c (m : Eng A1) (k : A1 -> Eng A2) (k' : A2 -> Eng A3) :
  rests c ((m ≫= k) ≫= k') -> rests c (m ≫= fun a => k a ≫= k').
Proof. intros Hr e He. specialize (Hr e He). unfold mbind, eng_bind in *. by destruct (m e) as [e' [a|stop]]. Qed.

Lemma keeps_with_task {A} (I : Engine -> Prop) (f : RuntimeTask -> Eng A) :
  (forall e ts, I e -> I (en_set_tasks ts e)) -> (forall r, eng_keeps I (f r)) ->
  eng_keeps I (r ← runtime (fun r => r); with_task t r (f r)).
Proof.
  intros Ht Hf e He. specialize (Hf e.(en_runtime) e He).
  assert (en_set_runtime e.(en_runtime) e = e) as Hsame by by destruct e.
  unfold with_task, runtime, gets, with_runtime, change, attempt, from_result, mbind, eng_bind. cbn. rewrite Hsame.
  destruct (f _ e) as [e' [a|[code|]]]; [by apply Ht..|done].
Qed.
Lemma lives_with_task {A} (I : Engine -> Prop) (f : RuntimeTask -> Eng A) :
  (forall r, lives I (f r)) -> lives I (r ← runtime (fun r => r); with_task t r (f r)).
Proof.
  intros Hf e He. specialize (Hf e.(en_runtime) e He).
  assert (en_set_runtime e.(en_runtime) e = e) as Hsame by by destruct e.
  unfold with_task, runtime, gets, with_runtime, change, attempt, from_result, mbind, eng_bind. cbn. rewrite Hsame.
  by destruct (f _ e) as [e' [a|[code|]]].
Qed.

Lemma run_rests c fuel :
  Z.max 0 n + 2 * MAX_EPOCH_PROVIDER_EVENTS + 7 <= Z.of_nat fuel -> rests c (run fuel t).
Proof.
  intros Hf. pose proof (idle_alone_kept c). unfold run. apply rests_next; [ek|calm|intros record].
  repeat (case_match; [by apply rests_keeps; [ek|calm]|]).
  apply rests_next; [ek|calm|intros [[record' ready] blocked]]. case_match; [by apply rests_keeps; [ek|calm]|].
  apply rests_assoc. eapply rests_bind; [apply gives_runtime|calm|]. intros r Hr. cbv beta in Hr.
  apply rests_next; [|calm|intros _].
  { intros e [Ha Hts]. split; [done|]. cbn. intros r'. by rewrite lookup_delete_eq. }
  set (q := rt_provider_requests r) in *. assert (n <= Z.max n q) as Hm by lia.
  apply rests_with_runtime; [done|..]; intros s; pose proof (within_kept s (Z.max n q) q) as K;
    pose proof (within_loud s (Z.max n q) q Hm) as L.
  - apply ek_bind; [ek|intros recovered].
    apply (keeps_with_task _ (fun r => match recovered with Some outcome => _ | None => _ end)); [done|].
    intros r'. ek. by apply ek_run_loop.
  - apply lives_bind; [ek|apply lives_calm; calm|intros recovered].
    apply (lives_with_task _ (fun r => match recovered with Some outcome => _ | None => _ end)). intros r'. live.
    all: apply lives_loop; [done|lia].
Qed.

End Alone.

(** C4: a task with a budget of provider requests comes to rest.  If no control channel
    is installed, and no frontend or a limit on the wall time, then [run] returns a
    snapshot or an error, whatever the provider answers and however long its stream of
    events would be, and it asks the provider to start at most as many epochs as the
    budget has.  The fuel that is enough is the budget and twice the number of events of
    an epoch, and a few. *)
Theorem run_comes_to_rest `{U : Uuids, C : Chrono, J : Serde, Q : SqliteJson, CJ : CheckpointJson, IJ : ItemJson, O : Outside, RJ : RunJson}
    `{!OutsideLaws, !UuidLaws, !SerdeLaws} t n fuel e record :
  load_task_record e.(en_database) t = Ok (Some record) ->
  record.(snapshot).(budget).(max_provider_requests) = Some n ->
  e.(en_controls) = false ->
  e.(en_frontend) = None \/ is_Some record.(snapshot).(budget).(max_wall_time_seconds) ->
  (forall r, e.(en_tasks) !! t = Some r -> 0 <= r.(rt_provider_requests)) ->
  Z.max 0 n + 2 * MAX_EPOCH_PROVIDER_EVENTS + 7 <= Z.of_nat fuel ->
  (exists outcome : result TaskEngineErrorCode TaskSnapshot, (run fuel t e).2 = map_err Failed outcome)
  /\ starts (run fuel t e).1.(en_transcript) <= starts e.(en_transcript) + Z.max 0 n.
Proof.
  intros Hl Hn Hc Hf Hr Hfuel.
  destruct (run_rests t record.(snapshot).(budget) n Hn (starts e.(en_transcript)) fuel Hfuel e) as [Hw Hs].
  { split; [|done]. split_and!; [done|done|by eapply loaded_budgeted|lia]. }
  split; [|done]. destruct (run fuel t e).2 as [s|[code|]]; [by exists (Ok s)|by exists (Err code)|done].
Qed.

