(* ===== verification/EngineStuck.v ===== *)
(** * Where a task gets stuck

    Places where [src/runtime/task/engine.rs] asks for what the modules under it refuse.
    It builds the checkpoints of a task with the model and the effort of its runtime,
    which an applied configuration changes, while [src/runtime/task/checkpoint.rs] accepts
    only those of the creation or of the checkpoint before.  And it starts the epoch of a
    pending recovery again when the epoch was interrupted, while the table of epochs in
    [src/storage/repository.rs] has it already. *)
From stdpp Require Import base gmap sets list sorting strings.
From S2P Require Import Prelude Ord Text Settings Policy TaskTypes Events Reducer SecretFilter Checkpoint Report Progress Context Service Live Server Database TaskStore Front Approvals Grants StoreCheckpoint StoreJournal StoreAuthority StoreOps StorePayload StoreConnect StoreFrame StoreExample TaskQueries AgentPort Engine EngineOwner EngineWork EngineRecover EngineRun EngineLogic StoreBudget.
From Stdlib Require Import ZArith Lia.
#[local] Open Scope list_scope.
#[local] Open Scope Z_scope.

Section Switch.
Context (model : ModelId) (effort : ReasoningEffort).

(** The journal creates its task with this model and effort. *)
Definition created_with (es : list EventEnvelope) : Prop :=
  Forall (fun env => match env.(event) with
    | Event.TaskLifecycle _ (TaskEvent.Created _ _ _ _ m f _) => m = model /\ f = effort
    | _ => True
    end) es.

(** The checkpoint before, if there is one, is one with this model and effort. *)
Definition continues_with (previous : option CanonicalCheckpoint) : Prop :=
  match previous with
  | Some c => c.(provider).(pv_model) = model /\ c.(provider).(pv_effort) = as_codex_value effort
      /\ 0 <= c.(source_sequence_end) <= i64_max
  | None => True
  end.

Definition expects (x : ExpectedProvider) : Prop :=
  (x.(expected_model) = None \/ x.(expected_model) = Some model)
  /\ (x.(expected_effort) = None \/ x.(expected_effort) = Some (as_codex_value effort)).

Lemma expects_fold es x y :
  created_with es -> expects x -> try_fold expect_provider x es = Ok y -> expects y.
Proof.
  intros Hes. revert x. induction Hes as [|env es Henv _ IH]; intros x Hx; cbn; [by intros [= <-]|].
  intros (z & Hz & Hy)%bind_ok. eapply IH; [|exact Hy]. revert Hz.
  unfold expect_provider. repeat case_match; intros; simplify_eq; try done.
  destruct Henv as [-> ->]. split; by right.
Qed.

Lemma metadata_expects provider' snapshot previous es u :
  created_with es -> continues_with previous ->
  validate_provider_metadata provider' snapshot previous es = Ok u ->
  provider'.(pv_model) = model /\ provider'.(pv_effort) = as_codex_value effort.
Proof.
  intros Hes Hp Hv. unfold validate_provider_metadata in Hv.
  apply bind_ok in Hv as (? & _ & Hv). apply bind_ok in Hv as (y & Hy & Hv).
  eapply expects_fold in Hy as [Hm Hf]; [|done|].
  2: { destruct previous as [c|]; cbn; [destruct Hp as (-> & -> & _)|]; split; cbn; eauto. }
  carl_simpl. destruct Hm as [Hm|Hm], Hf as [Hf|Hf]; rewrite Hm, Hf in *; carl_simpl; done.
Qed.

Context `{U : Uuids, C : Chrono, J : Serde, Q : SqliteJson, CJ : CheckpointJson, IJ : ItemJson, O : Outside, RJ : RunJson}.
Context `{!UuidLaws, !ChronoLaws, !SerdeLaws, !SqliteJsonLaws}.

Lemma built_expects sha to_vec input c :
  created_with input.(bi_events) -> continues_with input.(bi_previous_checkpoint) ->
  build sha to_vec input = Ok c ->
  input.(bi_provider).(pv_model) = model /\ input.(bi_provider).(pv_effort) = as_codex_value effort.
Proof.
  intros He Hp Hb. unfold build in Hb. carl_simpl.
  match goal with x : Z * Z |- _ => destruct x end. carl_simpl. eapply metadata_expects; [|done|eassumption].
  unfold created_with. unfold sort_by_key. by rewrite sort_by_perm.
Qed.

Lemma bound_ok {A B} (m : Eng A) (k : A -> Eng B) e b :
  ((m ≫= k) e).2 = Ok b -> exists a, (m e).2 = Ok a /\ (k a (m e).1).2 = Ok b.
Proof. unfold mbind, eng_bind. destruct (m e) as [e' [a|s]]; [by exists a|done]. Qed.
Lemma store_read_ok {A} (f : Database -> result CarlError A) e a :
  (store_read f e).2 = Ok a -> f e.(en_database) = Ok a /\ (store_read f e).1 = e.
Proof. unfold store_read. case_match; [|done]. by intros [= <-]. Qed.

Lemma built_is_expected t checkpoint_id report objective e es c :
  reachable e.(en_database) ->
  read_task_events e.(en_database) t = Ok es -> created_with es ->
  continues_with e.(en_runtime).(rt_previous_checkpoint) ->
  (build_checkpoint t checkpoint_id report objective e).2 = Ok c ->
  e.(en_runtime).(rt_model) = model /\ e.(en_runtime).(rt_effort) = effort.
Proof.
  intros [js Hok]%reachable_ok Hread Hes Hp Hb. rewrite (read_exact js _ _ Hok) in Hread. simplify_eq.
  apply bound_ok in Hb as (snapshot & _ & Hb). replace (task_snapshot t e).1 with e in Hb.
  2: { unfold task_snapshot, get_task, store_read, some_or, mbind, eng_bind. by repeat case_match; simplify_eq. }
  apply bound_ok in Hb as (r & [= <-] & Hb). cbn [fst runtime gets] in Hb.
  apply bound_ok in Hb as (after & [Ha ->]%store_read_ok & Hb).
  unfold require in Hb. case_match; [|done]. simplify_eq. rewrite (read_after_exact js _ _ _ Hok) in Ha.
  2: { revert Hp. unfold continues_with. case_match; [naive_solver|]. unfold i64_max. lia. }
  simplify_eq. match goal with Hb : build _ _ _ = Ok _ |- _ => eapply built_expects in Hb as [Hm Hf] end; [| |exact Hp].
  - split; [done|]. cbn in Hf. pose proof (parse_effort_str e.(en_runtime).(rt_effort)) as Hr.
    rewrite Hf, parse_effort_str in Hr. by simplify_eq.
  - apply Forall_forall. intros env [_ Hin]%list_elem_of_filter. by eapply Forall_forall in Hes.
Qed.

(** C33: a switch of the model or the effort ends the checkpoints of a task.  Its journal
    names the model and the effort it was created with, and so does the checkpoint before.
    Once the runtime has others, from a configuration that was applied, the engine builds
    no checkpoint of the task, and no context for another epoch of it. *)
Theorem model_switch_stops_checkpoints t checkpoint_id report objective e es :
  reachable e.(en_database) ->
  read_task_events e.(en_database) t = Ok es -> created_with es ->
  continues_with e.(en_runtime).(rt_previous_checkpoint) ->
  e.(en_runtime).(rt_model) <> model \/ e.(en_runtime).(rt_effort) <> effort ->
  (forall c, (build_checkpoint t checkpoint_id report objective e).2 <> Ok c)
  /\ (forall text, (assemble_epoch_context t objective e).2 <> Ok text).
Proof.
  intros Hr Hread Hes Hp Hne. split.
  - intros c Hb. eapply built_is_expected in Hb as [? ?]; [|done..]. naive_solver.
  - intros text Hb. apply bound_ok in Hb as (id & _ & Hb). apply bound_ok in Hb as (c & Hc & _).
    apply bound_ok in Hc as (outcome & Ha & Hc). destruct outcome as [c'|code].
    + unfold attempt in Ha. destruct (build_checkpoint _ _ _ _ _) as [e' r] eqn:Hb.
      assert (r = Ok c') as -> by (by destruct r as [|[]]; simplify_eq/=).
      eapply (built_is_expected t _ _ _ (new_id e).1) in Hr as [? ?]; [naive_solver|done..|by rewrite Hb].
    + apply bound_ok in Hc as (? & _ & Hc). done.
Qed.
End Switch.

(** ** Recovery epochs *)

Section Recovery.
Context `{U : Uuids, C : Chrono, J : Serde, Q : SqliteJson, CJ : CheckpointJson}.

Lemma appended_envelope session turn ev now id db db' env :
  append_event_in_transaction session turn ev now id db = Ok (db', env) ->
  env.(event) = ev /\ db'.(task_epochs) = db.(task_epochs).
Proof.
  unfold append_event_in_transaction, take_sequence, insert_event. intros Ha. tx_simpl.
  split; [done|]. by repeat case_match; simplify_eq/=.
Qed.

(** No epoch of the task can start. *)
Definition epochs_over (t : TaskId) (db : Database) : Prop :=
  exists record epoch strategy fingerprint, load_task_record db t = Ok (Some record)
    /\ record.(snapshot).(pending_recovery) = Some (epoch, strategy, fingerprint)
    /\ is_Some (db.(task_epochs) !! uuid_to_string epoch).

Lemma over_refused t revision epoch' objective now id db db' record' :
  epochs_over t db ->
  append_task_event t revision (TaskEvent.EpochStarted epoch' objective) now id db <> Ok (db', Some record').
Proof.
  intros (record & epoch & strategy & fingerprint & Hl & Hp & row & He) Ha. unfold append_task_event in Ha.
  apply tx_bind_ok in Ha as (db1 & o & [-> Ho]%expected_task_ok & Ha). rewrite Hl in Ho.
  destruct (_ =? _) in Ho; subst o; [|by tx_simpl].
  apply tx_bind_ok in Ha as (db1 & env & [Hev Hdb]%appended_envelope & Ha).
  apply tx_bind_ok in Ha as (db2 & s & [Hr ->]%from_ok & Ha).
  apply tx_bind_ok in Ha as (db3 & u & Hc & _).
  destruct (decide (epoch = epoch')) as [<-|Hne].
  - unfold apply_task_child_projection in Hc. rewrite Hev in Hc. tx_simpl.
    unfold project_epoch_started, insert_row in Hc. rewrite Hdb, He in Hc. done.
  - unfold reduce_task, reduce_existing in Hr. rewrite Hev in Hr. cbn in Hr. unfold epoch_started in Hr.
    rewrite Hp in Hr. cbn in Hr. rewrite bool_decide_false in Hr by done. carl_simpl.
Qed.

Context `{IJ : ItemJson, O : Outside, RJ : RunJson}.
Context (t : TaskId).

#[local] Abbreviation over := (fun e => epochs_over t e.(en_database)).
Definition refuses {A} (m : Eng A) : Prop := forall e a, over e -> (m e).2 <> Ok a.

Lemma refuses_head {A B} (m : Eng A) (k : A -> Eng B) : refuses m -> refuses (m ≫= k).
Proof. intros Hm e b He (a & Ha & _)%bound_ok. by eapply Hm. Qed.
Lemma refuses_next {A B} (m : Eng A) (k : A -> Eng B) :
  eng_keeps over m -> (forall a, refuses (k a)) -> refuses (m ≫= k).
Proof. intros Hm Hk e b He (a & Ha & Hb)%bound_ok. eapply Hk; [|exact Hb]. by apply Hm. Qed.
Lemma refuses_fails {A B} (m : Eng A) code : refuses (_ ← m; fail (A := B) code).
Proof. intros e b _ (a & _ & Hb)%bound_ok. done. Qed.

Lemma over_silent {A} (m : Eng A) : (forall e, (m e).1.(en_database) = e.(en_database)) -> eng_keeps over m.
Proof. intros Hm e. by rewrite Hm. Qed.
#[local] Ltac silent :=
  apply over_silent; intros []; cbv [mbind eng_bind]; cbn; unfold store_read, some_or; repeat case_match; simplify_eq/=; done.

Lemma refuses_start epoch objective : refuses (engine_append t (TaskEvent.EpochStarted epoch objective)).
Proof.
  unfold engine_append. apply refuses_next; [unfold current_revision, get_task; silent|intros revision].
  apply refuses_next; [silent|intros now]. apply refuses_next; [silent|intros id].
  intros e record He (o & Ho & Hr)%bound_ok. unfold some_or in Hr. destruct o as [record'|]; [|done].
  revert Ho. unfold store_tx, store_conn, store_conn_as, execute, transaction.
  destruct (append_task_event _ _ _ _ _ _) as [[db' o]|] eqn:Ha; cbn; [|done]. intros [= ->].
  by eapply over_refused in Ha.
Qed.

Lemma refuses_round fuel record : refuses (run_round fuel t record).
Proof.
  unfold run_round. apply refuses_next.
  { unfold exhausted_budget_reason, provider_dispatch_budget_reason, wall_time_exhausted. repeat first [silent|apply ek_bind; [|intros ?]|case_match]. }
  intros [reason|]; [apply refuses_fails|]. apply refuses_next; [silent|intros room].
  case_match; [apply refuses_fails|]. apply refuses_head. unfold begin_epoch.
  apply refuses_next; [silent|intros r]. apply refuses_next; [case_match; silent|intros epoch].
  apply refuses_head, refuses_start.
Qed.

(** C34: a task whose recovery was interrupted runs no epoch again.  While a recovery is
    pending whose epoch the store has already, the store accepts the start of no epoch
    of the task: not of that one, whose identifier it has, and not of another, which is
    not the one of the recovery.  So a task that is not over comes to no result. *)
Theorem interrupted_recovery_never_restarts record epoch strategy fingerprint e :
  load_task_record e.(en_database) t = Ok (Some record) ->
  TaskStatus_is_terminal record.(snapshot).(status) = false ->
  record.(snapshot).(pending_recovery) = Some (epoch, strategy, fingerprint) ->
  is_Some (e.(en_database).(task_epochs) !! uuid_to_string epoch) ->
  (forall epoch' objective record', (engine_append t (TaskEvent.EpochStarted epoch' objective) e).2 <> Ok record')
  /\ forall fuel snapshot, (run_loop fuel t e).2 <> Ok snapshot.
Proof.
  intros Hl Hs Hp He. assert (epochs_over t e.(en_database)) as Hover by (do 4 eexists; done).
  split; [intros; by apply refuses_start|]. intros [|fuel] s; [done|]. cbn [run_loop]. intros Hr.
  apply bound_ok in Hr as (record' & Hg & Hr).
  unfold get_task, store_read, some_or, mbind, eng_bind in Hg, Hr. rewrite Hl in Hg, Hr. cbn in Hg, Hr. simplify_eq.
  rewrite Hs in Hr. apply bound_ok in Hr as (o & Ho & _). by eapply refuses_round.
Qed.
End Recovery.
