(* ===== verification/EngineDoubt.v ===== *)
(** * An operation that stays in doubt

    The reducer of [src/runtime/task/reducer.rs] changes an operation only while the epoch
    of the operation runs, and the table of epochs in [src/storage/repository.rs] starts
    an epoch once.  So an operation that is uncertain when its epoch is over stays so,
    whatever is written to the store; and [cancel_controlled] of
    [src/runtime/task/engine.rs], which ends a cancellation only at a safe boundary, never
    cancels its task. *)
From stdpp Require Import base gmap sets list sorting strings.
From S2P Require Import Prelude Ord Text Settings Policy TaskTypes Events Reducer SecretFilter Checkpoint Report Progress Context Service Live Server Database TaskStore Front Approvals Grants StoreCheckpoint StoreJournal StoreAuthority StoreOps StorePayload StoreConnect StoreFrame TaskQueries AgentPort Engine EngineOwner EngineWork EngineRecover EngineRun EngineLogic EngineKeeps EngineStages EngineCalls EngineDurable EngineStuck.
From Stdlib Require Import ZArith Lia.
#[local] Open Scope list_scope.
#[local] Open Scope Z_scope.

(** ** The reducer *)

Section Reduced.
Context (op : OperationId).

(** The operation is uncertain, its epoch does not run, and the task is not cancelled. *)
Definition in_doubt (st : TaskSnapshot) (o : OperationSnapshot) : Prop :=
  st.(operations) !! op = Some o /\ o.(os_status) = OperationStatus.Uncertain
  /\ st.(active_epoch) <> Some o.(os_epoch_id) /\ st.(status) <> TaskStatus.Cancelled.

Lemma in_doubt_unsafe st o : in_doubt st o -> ~ safe_boundary st.
Proof. intros (Hop & Hst & _) [_ Hall]. specialize (Hall _ _ Hop). by rewrite Hst in Hall. Qed.

Lemma in_doubt_other st o id o' : in_doubt st o -> id <> op -> in_doubt (put_operation id o' st) o.
Proof. intros (Hop & Hrest) Hne. split; [|done]. simpl. by rewrite lookup_insert_ne. Qed.

Lemma in_doubt_not_running st o id o' : in_doubt st o -> running st id o' -> id <> op.
Proof. intros (Hop & _ & Ha & _) [Ho Hr] ->. simplify_eq. Qed.

Lemma in_doubt_step st o now ev st' :
  in_doubt st o -> task_step st now ev st' -> (forall objective, ev <> TaskEvent.EpochStarted o.(os_epoch_id) objective) ->
  in_doubt st' o.
Proof.
  intros Hd Hstep Hev. pose proof Hd as (Hop & Hst & Ha & Hc). pose proof (in_doubt_unsafe st o Hd) as Hsafe.
  destruct Hstep; try done; try (by split_and!); try (by apply in_doubt_other; [|eapply in_doubt_not_running]).
  - split_and!; try done. simpl. intros ->. by apply Hsafe, H0.
  - split_and!; try done. simpl. intros [= ->]. by eapply Hev.
  - apply in_doubt_other; [done|]. intros ->. simplify_eq.
Qed.

Lemma in_doubt_reduce st o env t ev st' :
  in_doubt st o -> env.(event) = Event.TaskLifecycle t ev -> reduce_task (Some st) env = Ok st' ->
  (forall objective, ev <> TaskEvent.EpochStarted o.(os_epoch_id) objective) ->
  in_doubt st' o /\ st'.(task_id) = st.(task_id).
Proof.
  intros Hd Hev (ev' & Hev' & _ & _ & _ & _ & st1 & Hstep & ->)%reduce_existing_spec Hne.
  rewrite Hev in Hev'. simplify_eq. assert (in_doubt st1 o) as Hd1 by (by eapply in_doubt_step).
  split; [exact Hd1|]. simpl. by destruct Hstep.
Qed.
End Reduced.

(** ** The store *)

Section Store.
Context `{U : Uuids, C : Chrono, J : Serde, Q : SqliteJson, CJ : CheckpointJson}.
Context `{!UuidLaws, !SerdeLaws}.
Context (t : TaskId) (op : OperationId).

(** The store has the task with the operation in doubt, and the epoch of the operation. *)
Definition doubt (db : Database) : Prop :=
  exists row st o, db.(agent_tasks) !! uuid_to_string t = Some row
    /\ snapshot_from_str row.(snapshot_json) = Some st /\ in_doubt op st o
    /\ is_Some (db.(task_epochs) !! uuid_to_string o.(os_epoch_id)).

(** The same, evaluated. *)
Definition doubts (db : Database) : bool :=
  match row ← db.(agent_tasks) !! uuid_to_string t; snapshot_from_str row.(snapshot_json) with
  | Some st =>
      is_some_and (st.(operations) !! op) (fun o =>
        (o.(os_status) =?? OperationStatus.Uncertain) && negb (st.(active_epoch) =?? Some o.(os_epoch_id))
        && negb (st.(status) =?? TaskStatus.Cancelled)
        && is_some (db.(task_epochs) !! uuid_to_string o.(os_epoch_id)))
  | None => false
  end.

Lemma doubts_ok db : doubts db = true -> doubt db.
Proof.
  unfold doubts, doubt. destruct (_ !! uuid_to_string t) as [row|]; simpl; [|done].
  destruct (snapshot_from_str _) as [st|] eqn:Hs; simpl; [|done].
  destruct (operations st !! op) as [o|] eqn:Ho; simpl; [|done].
  rewrite !andb_true_iff, !negb_true_iff, !bool_decide_eq_true, !bool_decide_eq_false. intros (((? & ?) & ?) & He).
  exists row, st, o. split_and!; try done. by destruct (_ !! uuid_to_string (os_epoch_id o)).
Qed.

#[local] Abbreviation lasts := (tx_keeps doubt).

Lemma doubt_same db db' :
  db'.(agent_tasks) = db.(agent_tasks) -> db'.(task_epochs) = db.(task_epochs) -> doubt db -> doubt db'.
Proof. unfold doubt. by intros -> ->. Qed.
#[local] Ltac same :=
  intros; match goal with HD : doubt _ |- _ => refine (doubt_same _ _ _ _ HD); reflexivity end.

Lemma doubt_epochs db k v : doubt db -> doubt (set_task_epochs (<[k := v]> db.(task_epochs)) db).
Proof.
  intros (row & st & o & Hr & Hs & Hd & He). exists row, st, o. split_and!; try done. simpl.
  destruct (decide (k = uuid_to_string o.(os_epoch_id))) as [->|Hne]; [by rewrite lookup_insert_eq|].
  by rewrite lookup_insert_ne.
Qed.

Lemma doubt_other_task db k v :
  k <> uuid_to_string t -> doubt db -> doubt (set_agent_tasks (<[k := v]> db.(agent_tasks)) db).
Proof.
  intros Hne (row & st & o & Hr & Hs & Hd & He). exists row, st, o. split_and!; try done. simpl.
  by rewrite lookup_insert_ne.
Qed.

Lemma doubt_new_task db k v :
  db.(agent_tasks) !! k = None -> doubt db -> doubt (set_agent_tasks (<[k := v]> db.(agent_tasks)) db).
Proof.
  intros Hn Hd. apply doubt_other_task; [|done]. destruct Hd as (row & _ & _ & Hr & _). intros ->. congruence.
Qed.

#[local] Ltac lasts := keeps; try same; auto using doubt_epochs, doubt_new_task.

Lemma append_event_doubt session turn ev now id : lasts (append_event_in_transaction session turn ev now id).
Proof.
  unfold append_event_in_transaction. keeps; intros db db' u; [unfold take_sequence|unfold insert_event].
  all: repeat case_match; intros; simplify_eq; same.
Qed.

Lemma package_doubt task seq now p c g json : lasts (insert_package task seq now p c g json).
Proof. unfold insert_package. lasts. Qed.
Lemma checkpoint_doubt task seq now c digest json : lasts (insert_checkpoint task seq now c digest json).
Proof. unfold insert_checkpoint. lasts. Qed.

Lemma child_doubt t' env : lasts (apply_task_child_projection t' env).
Proof.
  unfold apply_task_child_projection, project_epoch_started, project_epoch_finished,
    project_epoch_interrupted, end_epoch, project_configuration_queued, project_configuration_applied,
    project_control_requested, project_compaction_completed, project_steering_queued,
    project_operation_intent, project_operation_transition.
  destruct (event env); lasts; auto using package_doubt, checkpoint_doubt.
Qed.

(** An epoch stays in its table. *)
Lemma child_epochs k t' env : tx_keeps (fun db => is_Some (db.(task_epochs) !! k)) (apply_task_child_projection t' env).
Proof.
  assert (forall db k' v, is_Some (db.(task_epochs) !! k) ->
    is_Some ((set_task_epochs (<[k' := v]> db.(task_epochs)) db).(task_epochs) !! k)) as He.
  { intros db k' v Hs. simpl. destruct (decide (k' = k)) as [->|Hne]; [by rewrite lookup_insert_eq|].
    by rewrite lookup_insert_ne. }
  unfold apply_task_child_projection, project_epoch_started, project_epoch_finished,
    project_epoch_interrupted, end_epoch, project_configuration_queued, project_configuration_applied,
    project_control_requested, project_compaction_completed, project_steering_queued,
    project_operation_intent, project_operation_transition, insert_checkpoint, insert_package.
  destruct (event env); keeps; auto.
Qed.

Lemma record_snapshot t' row record :
  record_from_row t' row = Ok record ->
  snapshot_from_str row.(snapshot_json) = Some record.(snapshot) /\ record.(snapshot).(task_id) = t'.
Proof. unfold record_from_row. intros Hr. carl_simpl. simpl. split; [done|lia]. Qed.

Lemma uuid_string_inj u u' : uuid_to_string u = uuid_to_string u' -> u = u'.
Proof. intros He. pose proof (uuid_read u) as Hu. rewrite He, uuid_read in Hu. by simplify_eq. Qed.

(** The projection of the task is written, or that of another task. *)
Lemma update_task_doubt snapshot' now db db' o u :
  doubt db -> (snapshot'.(task_id) = t -> in_doubt op snapshot' o /\ is_Some (db.(task_epochs) !! uuid_to_string o.(os_epoch_id))) ->
  update_task_projection snapshot' now db = Ok (db', u) -> doubt db'.
Proof.
  intros Hd Ht Hu. unfold update_task_projection in Hu. tx_simpl.
  destruct (decide (snapshot'.(task_id) = t)) as [Heq|Hne].
  - destruct (Ht Heq) as [Hin He]. eexists _, snapshot', o. simpl. rewrite Heq, lookup_insert_eq.
    split_and!; [done| |done|done]. simpl. by apply snapshot_read.
  - apply doubt_other_task; [|done]. by intros ?%uuid_string_inj.
Qed.

(** An event of a task, with its projections. *)
Lemma event_doubt session t' ev now id current db db1 db2 db3 env snapshot' u u' :
  doubt db -> load_task_record db t' = Ok (Some current) ->
  append_event_in_transaction session None (Event.TaskLifecycle t' ev) now id db = Ok (db1, env) ->
  reduce_task (Some current.(snapshot)) env = Ok snapshot' ->
  apply_task_child_projection t' env db1 = Ok (db2, u) ->
  update_task_projection snapshot' now db2 = Ok (db3, u') -> doubt db3.
Proof.
  intros Hd Hl Ha Hr Hc Hu. pose proof (appended_envelope _ _ _ _ _ _ _ _ Ha) as [Hev Hep].
  pose proof (child_doubt _ _ _ _ _ Hc (append_event_doubt _ _ _ _ _ _ _ _ Ha Hd)) as Hd2.
  unfold load_task_record in Hl. destruct Hd as (row & st & o & Hrow & Hs & Hin & He).
  eapply update_task_doubt; [exact Hd2| |exact Hu]. intros Heq.
  assert (t' = t) as ->.
  { apply reduce_existing_spec in Hr as (ev' & Hev' & _ & _ & _ & _ & st1 & Hstep & ->). rewrite Hev in Hev'.
    simpl in Heq. assert (st1.(task_id) = current.(snapshot).(task_id)) as Hid by (by destruct Hstep). congruence. }
  rewrite Hrow in Hl. simpl in Hl. carl_simpl.
  match goal with Hr : record_from_row _ _ = Ok _ |- _ => apply record_snapshot in Hr as [Hr _] end.
  assert (current.(snapshot) = st) as Hst by congruence. rewrite Hst in *.
  split; [eapply in_doubt_reduce; [done|exact Hev|done|]|eapply child_epochs; [exact Hc|by rewrite Hep]].
  intros objective ->. unfold apply_task_child_projection in Hc. rewrite Hev in Hc. tx_simpl.
  unfold project_epoch_started, insert_row in Hc. rewrite Hep in Hc. destruct He as [x He]. by rewrite He in Hc.
Qed.

Lemma append_task_doubt t' expected ev now id : lasts (append_task_event t' expected ev now id).
Proof.
  intros db db' o Ha Hd. unfold append_task_event in Ha.
  apply tx_bind_ok in Ha as (db0 & current & [-> Hcur]%expected_task_ok & Ha).
  destruct (load_task_record db t') as [[record|]|] eqn:Hl; [|by subst; tx_simpl|done].
  destruct (_ =? _) in Hcur; subst current; [|by tx_simpl]. tx_simpl.
  eapply event_doubt; eassumption.
Qed.

Lemma append_in_transaction_doubt current ev now id db db' x :
  load_task_record db current.(snapshot).(task_id) = Ok (Some current) ->
  append_task_event_in_transaction current ev now id db = Ok (db', x) -> doubt db -> doubt db'.
Proof.
  intros Hl Ha Hd. unfold append_task_event_in_transaction in Ha. tx_simpl. eapply event_doubt; eassumption.
Qed.

Lemma steering_doubt t' expected n digest control now id :
  lasts (append_controlled_task_steering t' expected n digest control now id).
Proof.
  intros db db' o Ha Hd. unfold append_controlled_task_steering in Ha.
  apply tx_bind_ok in Ha as (db0 & u & [_ ->]%from_ok & Ha).
  apply tx_bind_ok in Ha as (db1 & current & [-> Hcur]%expected_task_ok & Ha).
  destruct (load_task_record db t') as [[record|]|] eqn:Hl; [|by subst; tx_simpl|done].
  destruct (_ =? _) in Hcur; subst current; [|by tx_simpl].
  apply tx_bind_ok in Ha as (db2 & [record' seq] & Hap & Ha).
  apply tx_bind_ok in Ha as (db3 & changed & Hb & Ha). tx_simpl.
  assert (doubt db2) as Hd2.
  { eapply append_in_transaction_doubt; [|exact Hap|exact Hd]. pose proof Hl as Hl'. unfold load_task_record in Hl'.
    destruct (_ !! uuid_to_string t') as [row|]; [|done]. simpl in Hl'. carl_simpl.
    match goal with Hr : record_from_row _ _ = Ok _ |- _ => apply record_snapshot in Hr as [_ ->] end. exact Hl. }
  revert Hb. unfold bind_steering_control. repeat case_match; try done; intros [= <- _]; [done|same].
Qed.

Lemma append_doubt session turn ev now id : lasts (append session turn ev now id).
Proof. unfold append. lasts. apply append_event_doubt. Qed.

Lemma create_session_doubt id now : lasts (create_session id now).
Proof. unfold create_session. lasts. Qed.

Lemma create_inner_doubt canonicalize is_dir input receipt t' id :
  lasts (create_task_inner canonicalize is_dir input receipt t' id).
Proof. unfold create_task_inner, insert_task_projection, insert_task_receipt. lasts. apply append_event_doubt. Qed.

Lemma create_idempotent_doubt canonicalize is_dir input key digest t' id :
  lasts (create_task_idempotent canonicalize is_dir input key digest t' id).
Proof. unfold create_task_idempotent. lasts. apply create_inner_doubt. Qed.

(** What is committed is the task that the store has. *)
Lemma commit_current db current input anchor current' v :
  load_task_record db input.(nc_task_id) = Ok (Some current) ->
  validate_commit db current input anchor = Ok (current', v) -> load_task_record db input.(nc_task_id) = Ok (Some current').
Proof.
  intros Hl Hv. unfold validate_commit in Hv. destruct anchor; [by carl_simpl|]. carl_simpl.
  match goal with Hj : validate_task_authority_from_journal _ _ = Ok ?p |- _ =>
    destruct p; unfold validate_task_authority_from_journal in Hj end. carl_simpl.
  repeat match goal with x : (_ * _)%type |- _ => destruct x end. carl_simpl.
  match goal with Hr : load_task_record _ _ = Ok (Some ?r) |- context [snapshot ?r] => rewrite Hr; by destruct r end.
Qed.

(** A task with an operation in doubt has no safe boundary to commit at. *)
Lemma doubt_no_checkpoint db current env c digest snapshot' :
  doubt db -> load_task_record db t = Ok (Some current) ->
  env.(event) = Event.TaskLifecycle t (TaskEvent.CheckpointCommitted c digest) ->
  reduce_task (Some current.(snapshot)) env <> Ok snapshot'.
Proof.
  intros (row & st & o & Hrow & Hs & Hin & _) Hl Hev Hr. unfold load_task_record in Hl. rewrite Hrow in Hl.
  simpl in Hl. carl_simpl. match goal with Hr : record_from_row _ _ = Ok _ |- _ => apply record_snapshot in Hr as [Hr _] end.
  assert (current.(snapshot) = st) as Hst by congruence. rewrite Hst in Hr.
  apply reduce_existing_spec in Hr as (ev & Hev' & _ & _ & _ & _ & st1 & Hstep & _). rewrite Hev in Hev'.
  injection Hev' as _ <-. apply (in_doubt_unsafe op st o Hin). inversion Hstep; simplify_eq; naive_solver.
Qed.

Lemma commit_doubt cached version input expected id : lasts (commit_checkpoint cached version input expected id).
Proof.
  intros db db' o Ha Hd. unfold commit_checkpoint in Ha.
  do 5 (apply tx_bind_ok in Ha as (? & ? & [_ ->]%from_ok & Ha)).
  apply tx_bind_ok in Ha as (db1 & current & [-> Hcur]%expected_task_ok & Ha).
  destruct (load_task_record db _) as [[record|]|] eqn:Hl; [|by subst; tx_simpl|done].
  destruct (_ =? _) in Hcur; subst current; [|by tx_simpl].
  apply tx_bind_ok in Ha as (db1 & [current v] & [Hv ->]%query_ok & Ha).
  apply commit_current in Hv; [|done]. tx_simpl.
  match goal with Hw : write_checkpoint _ _ _ _ _ _ = _ |- _ => unfold write_checkpoint in Hw end. tx_simpl.
  match goal with He : append_event_in_transaction _ _ _ _ _ _ = Ok (?d, ?env), Hr : reduce_task _ ?env = Ok _,
      Hc : insert_checkpoint _ _ _ _ _ _ _ = Ok _, Hp : insert_package _ _ _ _ _ _ _ _ = Ok _,
      Hu : update_task_projection _ _ _ = Ok _ |- _ =>
    pose proof (appended_envelope _ _ _ _ _ _ _ _ He) as [Hev _];
    pose proof (package_doubt _ _ _ _ _ _ _ _ _ _ Hp (checkpoint_doubt _ _ _ _ _ _ _ _ _ Hc
      (append_event_doubt _ _ _ _ _ _ _ _ He Hd))) as Hd2;
    eapply (update_task_doubt _ _ _ _ (fresh_operation 0 0)); [exact Hd2| |exact Hu]; intros Heq; exfalso;
    pose proof Hr as (ev' & Hev' & _ & _ & _ & _ & st1 & Hstep & ->)%reduce_existing_spec end.
  rewrite Hev in Hev'. injection Hev' as Hid _. simpl in Heq.
  assert (st1.(task_id) = current.(snapshot).(task_id)) as Hsame by (by destruct Hstep).
  assert (input.(nc_task_id) = t) as Ht by congruence. rewrite Ht in *. by eapply (doubt_no_checkpoint db current).
Qed.

End Store.

(** ** The engine *)

Section Cancelled.
Context `{U : Uuids, C : Chrono, J : Serde, Q : SqliteJson, CJ : CheckpointJson, IJ : ItemJson, O : Outside, RJ : RunJson}.
Context `{!UuidLaws, !SerdeLaws, !OutsideLaws}.
Context (t : TaskId) (op : OperationId).

(** The store is in this state, and was at every exchange. *)
Definition always (P : Database -> Prop) (e : Engine) : Prop :=
  P e.(en_database) /\ Forall (fun moment => P moment.(mo_database)) e.(en_transcript).

Lemma always_written {A} (P : Database -> Prop) (tx : Tx A) e : tx_keeps P tx -> always P e -> always P (written tx e).
Proof.
  intros Htx [Hp Ht]. split; [|done]. simpl. unfold transaction.
  destruct (tx e.(en_database)) as [[db' a]|err] eqn:Ha; [by apply (Htx _ _ _ Ha)|done].
Qed.

Lemma always_log (P : Database -> Prop) x e : always P e -> always P (log x e).
Proof. intros [Hp Ht]. split; [done|]. apply Forall_app. split; [done|]. by constructor. Qed.

#[local] Abbreviation over := (always (doubt t op)).

Lemma doubt_free : free over.
Proof.
  split; [split|..]; try done; intros; try (by apply always_log); try apply always_written; try done.
  - apply append_task_doubt.
  - apply append_doubt.
  - apply create_session_doubt.
  - apply create_idempotent_doubt.
  - apply create_inner_doubt.
  - apply steering_doubt.
  - match goal with HI : over _ |- _ => destruct HI as [Hp Ht] end.
    pose proof (always_written _ _ e (commit_doubt t op (e.(en_remembered) !! input.(nc_task_id))
      (out_data_version e.(en_transcript)) input expected id) (conj Hp Ht)) as [Hw _].
    unfold store_commit, store_commit_checkpoint. simpl in Hw.
    destruct (transaction _ _) as [db outcome]. simpl in Hw. by repeat case_match; simplify_eq/=.
  - apply append_task_doubt.
Qed.

(** A computation that does not report a cancellation. *)
Definition spares {A} (m : Eng A) : Prop := forall e, (m e).2 <> Err (Failed TaskEngineErrorCode.Cancelled).

Lemma spares_bind {A B} (m : Eng A) (k : A -> Eng B) : spares m -> (forall a, spares (k a)) -> spares (m ≫= k).
Proof. intros Hm Hk e. unfold mbind, eng_bind. specialize (Hm e). destruct (m e) as [e' [a|s]]; [apply Hk|].
  intros [= ->]. by destruct Hm. Qed.

Lemma spares_append t' ev : spares (engine_append t' ev).
Proof.
  unfold engine_append, current_revision, get_task, utc_now, new_id, exchange, some_or.
  repeat (apply spares_bind; [|intros ?]); intros e; unfold store_read, store_tx, store_conn, store_conn_as;
    cbn; repeat case_match; done.
Qed.
Lemma spares_push t' record : spares (push_status t' record).
Proof. by intros e. Qed.
Lemma spares_snapshot t' : spares (task_snapshot t').
Proof.
  unfold task_snapshot, get_task. repeat (apply spares_bind; [|intros ?]); intros e;
    unfold store_read, some_or; cbn; repeat case_match; done.
Qed.
Lemma spares_ret {A} (a : A) : spares (mret a).
Proof. by intros e. Qed.
Create HintDb spares.
#[local] Hint Resolve spares_append spares_push spares_snapshot spares_ret : spares.

Lemma spares_block t' reason : spares (block_task t' reason).
Proof. apply spares_bind; auto with spares. Qed.
Lemma spares_close t' o status reason : spares (close_operation_with_evidence t' o status reason).
Proof.
  apply spares_bind; [apply spares_append|intros _]. apply spares_bind; [|intros s; apply spares_bind; auto with spares].
  unfold last_task_sequence. repeat (apply spares_bind; [|intros ?]); intros e; unfold store_read, some_or; cbn;
    repeat case_match; done.
Qed.
Lemma spares_uncertain t' ops reason : spares (block_uncertain_operation_ids t' ops reason).
Proof.
  apply spares_bind; [|intros _; apply spares_block].
  induction ops as [|o ops IH]; [by intros e|]. apply spares_bind; [apply spares_close|intros _; apply IH].
Qed.
Lemma spares_finish t' epoch reason : spares (finish_epoch t' epoch reason).
Proof. apply spares_bind; auto with spares. Qed.
Lemma spares_finish_active t' epoch reason : spares (finish_epoch_if_active t' epoch reason).
Proof. apply spares_bind; [auto with spares|]. intros s. case_match; auto using spares_finish with spares. Qed.

(** A computation that neither succeeds nor reports a cancellation. *)
Definition hopeless {A} (m : Eng A) : Prop := forall e, over e ->
  (m e).2 <> Err (Failed TaskEngineErrorCode.Cancelled) /\ forall a, (m e).2 <> Ok a.

Lemma hopeless_next {A B} (m : Eng A) (k : A -> Eng B) :
  spares m -> eng_keeps over m -> (forall a, hopeless (k a)) -> hopeless (m ≫= k).
Proof.
  intros Hs Hm Hk e He. specialize (Hs e). specialize (Hm e He). unfold mbind, eng_bind.
  destruct (m e) as [e' [a|s]]; [by apply Hk|]. split; [|done]. intros [= ->]. by destruct Hs.
Qed.
Lemma hopeless_head {A B} (m : Eng A) (k : A -> Eng B) : hopeless m -> hopeless (m ≫= k).
Proof.
  intros Hm e He. specialize (Hm e He) as [Hs Hn]. unfold mbind, eng_bind.
  destruct (m e) as [e' [a|s]]; [by destruct (Hn a)|]. split; [|done]. intros [= ->]. by destruct Hs.
Qed.
Lemma hopeless_blocked {A} : hopeless (fail TaskEngineErrorCode.Blocked : Eng A).
Proof. by intros e He. Qed.

(** The store refuses the end of the cancellation. *)
Lemma end_refused revision from_ reason now id db db' record :
  doubt t op db ->
  append_task_event t revision (TaskEvent.StateTransitioned from_ TaskStatus.Cancelled reason) now id db
    <> Ok (db', Some record).
Proof.
  intros (row & st & o & Hrow & Hs & Hin & _) Ha. unfold append_task_event in Ha.
  apply tx_bind_ok in Ha as (db1 & current & [-> Hcur]%expected_task_ok & Ha).
  unfold load_task_record in Hcur. rewrite Hrow in Hcur. simpl in Hcur.
  destruct (record_from_row t row) as [record'|] eqn:Hr; [|done]. simpl in Hcur.
  destruct (_ =? _) in Hcur; subst current; [|by tx_simpl]. apply record_snapshot in Hr as [Hr _].
  apply tx_bind_ok in Ha as (db1 & env & [Hev _]%appended_envelope & Ha).
  apply tx_bind_ok in Ha as (db2 & st' & [Hred _]%from_ok & _).
  assert (record'.(snapshot) = st) as Hst by congruence. rewrite Hst in Hred.
  destruct (reduce_task (Some st) env) as [st2|] eqn:Hred2; [|done].
  apply reduce_existing_spec in Hred2 as (ev & Hev' & _ & _ & _ & _ & st1 & Hstep & _).
  rewrite Hev in Hev'. injection Hev' as _ <-. apply (in_doubt_unsafe op st o Hin).
  inversion Hstep; simplify_eq; naive_solver.
Qed.

Lemma hopeless_end from_ reason :
  hopeless (engine_append t (TaskEvent.StateTransitioned from_ TaskStatus.Cancelled reason)).
Proof.
  pose proof (f_kept _ doubt_free) as K. intros e He. split; [apply spares_append|]. revert e He. unfold engine_append.
  assert (forall A B (m : Eng A) (k : A -> Eng B), eng_keeps over m ->
    (forall a e, over e -> forall b, (k a e).2 <> Ok b) -> forall e, over e -> forall b, ((m ≫= k) e).2 <> Ok b) as Hnext.
  { intros A B m k Hm Hk e He b (a & Ha & Hb)%bound_ok. by eapply Hk; [apply Hm|]. }
  apply Hnext; [unfold current_revision, get_task; ek|intros revision]. apply Hnext; [ek|intros now].
  apply Hnext; [ek|intros id]. intros e [He _] record (o & Ho & Hr)%bound_ok.
  unfold some_or in Hr. destruct o as [record'|]; [|done]. revert Ho.
  unfold store_tx, store_conn, store_conn_as, execute, transaction.
  destruct (append_task_event _ _ _ _ _ _) as [[db' o]|] eqn:Ha; cbn; [|done]. intros [= ->].
  by eapply end_refused in Ha.
Qed.

Lemma hopeless_cancel epoch context provider ops :
  hopeless (cancel_active_epoch t epoch context provider ops None).
Proof.
  pose proof (f_kept _ doubt_free) as K. unfold cancel_active_epoch.
  apply hopeless_next; [apply spares_append|ek|intros cancelling].
  apply hopeless_next; [by intros e; repeat case_match|ek|intros [|]]; cbn [negb].
  - destruct (is_empty ops); cbn [negb].
    + apply hopeless_next; [destruct epoch; [apply spares_finish|by intros e]|ek|intros _].
      apply hopeless_head, hopeless_end.
    + apply hopeless_next; [apply spares_uncertain|ek|intros _].
      apply hopeless_next; [destruct epoch; [apply spares_finish_active|by intros e]|ek|intros _].
      apply hopeless_next; [by intros e|ek|intros _]. apply hopeless_blocked.
  - apply hopeless_next; [destruct (is_empty ops); [apply spares_block|apply spares_uncertain]|ek|intros _].
    apply hopeless_next; [destruct epoch; [apply spares_finish_active|by intros e]|ek|intros _].
    apply hopeless_next; [by intros e|ek|intros _]. apply hopeless_blocked.
Qed.

(** A computation that does not succeed. *)
Definition unsuccessful {A} (m : Eng A) : Prop := forall e, over e -> forall a, (m e).2 <> Ok a.

Lemma unsuccessful_next {A B} (m : Eng A) (k : A -> Eng B) :
  eng_keeps over m -> (forall a, unsuccessful (k a)) -> unsuccessful (m ≫= k).
Proof. intros Hm Hk e He b (a & Ha & Hb)%bound_ok. by eapply Hk; [apply Hm|]. Qed.

Lemma attempt_cancel epoch context provider ops :
  unsuccessful (outcome ← attempt (cancel_active_epoch t epoch context provider ops None);
    match outcome with
    | Err TaskEngineErrorCode.Cancelled => mret tt
    | outcome => from_result outcome
    end).
Proof.
  intros e He a. destruct (hopeless_cancel epoch context provider ops e He) as [Hs Hn].
  unfold mbind, eng_bind, attempt. destruct (cancel_active_epoch _ _ _ _ _ _ e) as [e' [u|[code|]]]; [by destruct (Hn u)| |done].
  simpl in *. by destruct code.
Qed.

Lemma keeps_tasks f : eng_keeps over (change (fun e => en_set_tasks (f e) e)).
Proof. intros e He. by apply (f_tasks _ doubt_free). Qed.

Lemma doubt_with_task {A} r (m : Eng A) : eng_keeps over m -> eng_keeps over (with_task t r m).
Proof.
  intros Hm. unfold with_task. apply ek_bind; [intros e He; by apply (f_runtime _ doubt_free)|intros _].
  apply ek_bind; [by apply ek_attempt|intros outcome]. apply ek_bind; [apply keeps_tasks|intros _].
  intros e He. by destruct outcome.
Qed.

Lemma keeps_terminate processes : eng_keeps over (terminate_processes t processes).
Proof. pose proof (f_kept _ doubt_free) as K. induction processes; cbn [terminate_processes]; unfold task_runtime; ek. Qed.

Lemma doubt_status db record :
  doubt t op db -> load_task_record db t = Ok (Some record) -> record.(snapshot).(status) <> TaskStatus.Cancelled.
Proof.
  intros (row & st & o & Hrow & Hs & (_ & _ & _ & Hc) & _) Hl. unfold load_task_record in Hl. rewrite Hrow in Hl.
  simpl in Hl. carl_simpl. match goal with Hr : record_from_row _ _ = Ok _ |- _ => apply record_snapshot in Hr as [Hr _] end.
  congruence.
Qed.

Lemma get_task_ok e record :
  (get_task t e).2 = Ok record -> load_task_record e.(en_database) t = Ok (Some record) /\ (get_task t e).1 = e.
Proof.
  unfold get_task. intros (o & [Hl He]%store_read_ok & Hs)%bound_ok. unfold mbind, eng_bind, store_read in *.
  rewrite Hl in *. simpl in *. unfold some_or in *. by destruct o; simplify_eq/=.
Qed.

Lemma cancel_unsuccessful control : unsuccessful (cancel_controlled t control).
Proof.
  pose proof (f_kept _ doubt_free) as K. intros e He a Hok. unfold cancel_controlled in Hok.
  apply bound_ok in Hok as (record & [Hl Hg]%get_task_ok & Hok). rewrite Hg in Hok.
  pose proof (doubt_status _ _ (proj1 He) Hl) as Hst. clear Hl Hg. revert e He a Hok.
  apply unsuccessful_next; [ek|intros marker]. rewrite bool_decide_false by done. cbn [andb].
  destruct (TaskStatus_is_terminal _); [done|]. apply unsuccessful_next; [ek|intros _].
  apply unsuccessful_next; [ek|intros tasks].
  apply unsuccessful_next.
  { case_match; [ek|]. apply ek_bind; [intros e He; by rewrite rehydrate_reads|intros r]. apply doubt_with_task. ek. }
  intros _. unfold task_runtime. apply unsuccessful_next; [ek|intros r].
  apply unsuccessful_next; [apply keeps_terminate|intros _].
  apply unsuccessful_next; [ek|intros r']. apply unsuccessful_next; [apply keeps_tasks|intros _].
  apply unsuccessful_next; [unfold active_provider_epoch; ek|intros provider]. apply attempt_cancel.
Qed.

Lemma doubt_restarted k receipts e : over e -> over (restarted k receipts e).
Proof.
  intros [Hp Ht]. split; [|by apply Forall_take]. simpl. destruct (en_transcript e !! k) as [moment|] eqn:Hk; [|done].
  by apply (Forall_lookup_1 _ _ _ _ Ht Hk).
Qed.

(** C35: a task with an operation that its epoch left in doubt is never cancelled.  Let
    an engine be on a store that has, now and at the exchanges since which a stop of the
    process is considered, a task that is not cancelled with an uncertain operation whose
    epoch does not run.  Then after any calls of the service in any order, with any
    answers of the provider, the owner, the clock and the file system, and with the
    process stopped and started again at any of its exchanges: the operation is as
    uncertain as it was, the task is not cancelled, and a cancellation of the task does
    not succeed, with or without a control identifier. *)
Theorem uncertain_task_never_cancelled cs e :
  always (doubt t op) e -> Forall call_ok cs ->
  let e' := performed cs e in
  doubt t op e'.(en_database)
  /\ (forall record, load_task_record e'.(en_database) t = Ok (Some record) ->
       record.(snapshot).(status) <> TaskStatus.Cancelled)
  /\ forall control, (cancel_controlled t control e').2 <> Ok tt.
Proof.
  intros Hd Hcs e'. assert (over e') as He.
  { pose proof (performed_rest _ _ _ _ (free_staged _ doubt_free) cs e doubt_restarted Hcs Hd) as Hr.
    unfold e', performed. unfold at_rest in Hr. by destruct (foldl _ _ _) as [e1 []]. }
  split_and!; [apply He|intros record; apply doubt_status, He|intros control; by apply cancel_unsuccessful].
Qed.
End Cancelled.
