(* ===== verification/EngineExample.v ===== *)
(** * An engine at work

    The outside world of [Engine] instantiated, and a history of an engine over it: a
    task with full access is enqueued and run, its provider starts a command and asks
    for leave, the process dies once the leave is given, and a new engine takes up what
    the store holds. *)
From stdpp Require Import base gmap sets list sorting strings relations.
From S2P Require Import Prelude Ord Text Settings Policy TaskTypes Events Reducer Journal Metrics SecretFilter Checkpoint Report Progress Context Service Live Server Database TaskStore Front Approvals Grants StoreCheckpoint StoreJournal StoreAuthority StoreOps StorePayload StoreConnect StoreFrame StoreExample TaskQueries AgentPort Engine EngineOwner EngineWork EngineRecover EngineRun EngineLogic EngineKeeps EngineStages EngineCalls EngineDurable EngineEffects StoreBudget EngineLive EngineStuck EngineDoubt.
From Stdlib Require Import ZArith Lia.
#[local] Open Scope list_scope.
#[local] Open Scope Z_scope.
#[local] Existing Instances example_uuids example_chrono example_uuid_laws example_chrono_laws.

(** ** The outside *)

Definition live_item : AgentItem :=
  AgentItem.Command (lit "item") (lit "cargo test") (utf8 (lit "/work")) (lit "in_progress") None None None.
Definition live_request : AgentEffectRequest :=
  {| ae_context_id := lit "context"; ae_epoch_id := lit "epoch"; ae_request_id := lit "request";
     ae_item_id := lit "item"; ae_kind := AgentEffectKind.Command; ae_summary := lit "cargo test";
     ae_request_digest := replicate 32 1 |}.

Definition events_seen (tr : Transcript) : nat :=
  length (omap (fun moment => match moment.(mo_exchange) with Exchange.NextEvent answer => Some answer | _ => None end) tr).

(** The clock and the identifiers count the exchanges; the provider starts an item,
    asks for leave for it, and fails. *)
#[local] Instance live_outside : Outside := {
  out_now tr := Z.of_nat (length tr);
  out_uuid tr := 100 + Z.of_nat (length tr);
  uuid_simple u := uuid_to_string u;
  out_ready _ := ReadyEvent;
  out_event tr :=
    match events_seen tr with
    | 0%nat => Ok (AgentEvent.ItemStarted (lit "context") (lit "epoch") live_item)
    | 1%nat => Ok (AgentEvent.EffectRequested live_request)
    | _ => Err {| port_code := AgentPortErrorCode.Transport; port_provenance := AgentErrorProvenance.PossiblyApplied |}
    end;
  out_control _ := None;
  out_capabilities := {| can_resume := true; can_compact := true; token_usage := true;
    pre_dispatch_effects := true; history_paging := true; background_processes := true |};
  out_start_context _ _ := Ok (lit "context");
  out_resume_context _ _ := Ok (lit "context");
  out_replace_context _ _ _ := Ok (ContextRecovery.Replaced (lit "context"));
  out_compact_or_replace _ _ _ := Ok (ContextRecovery.Compacted (lit "context"));
  out_start_epoch _ _ := Ok (lit "epoch");
  out_steer _ _ _ _ := Ok tt;
  out_interrupt _ _ _ := Ok tt;
  out_resolve_effect _ _ _ := Ok tt;
  out_processes _ _ := Ok [];
  out_terminate _ _ _ := Ok true;
  out_notice _ _ := true;
  out_inspect _ _ _ := Some None;
  out_uuid_from_bytes _ := 99;
  out_data_version _ := 1;
  out_canonicalize _ p := Some p;
  out_is_dir _ _ := true
}.

#[local] Instance live_outside_laws : OutsideLaws.
Proof. by constructor. Qed.

#[local] Instance live_items : ItemJson := {
  change_paths _ := None;
  with_change_paths changes _ := changes;
  changes_to_vec changes := Some (utf8 changes);
  item_to_vec _ := Some [];
  json_summary s := s;
  json_status s := s;
  json_object _ := false
}.

#[local] Instance live_reports : RunJson := {
  report_from_str _ := None;
  fingerprint_to_vec _ := Some [];
  recovery_to_vec _ := []
}.

(** ** The texts *)

Definition live_budget : TaskBudget :=
  {| max_wall_time_seconds := None; max_provider_requests := Some 2; tb_max_tool_calls := None;
     soft_epoch_seconds := DEFAULT_SOFT_EPOCH_SECONDS; soft_epoch_tool_calls := DEFAULT_SOFT_EPOCH_TOOL_CALLS |}.
Definition live_input : StartTask :=
  {| st_session_id := 5; st_workspace := utf8 (lit "/work"); st_request := lit "fix the parser";
     st_model := lit "model"; st_effort := ReasoningEffort.High;
     st_permission_mode := PermissionMode.FullAccess; st_budget := live_budget |}.

Definition live_digest : str := Sha256Digest_display (example_sha256 []).
Definition live_objective : str := recovery_objective (new_runtime live_input (lit "context")).

(** The events of the history, for the task with identifier 101. *)
Definition live_events : list TaskEvent :=
  [TaskEvent.Created 5 (utf8 (lit "/work")) (fallback_contract (lit "fix the parser"))
     live_budget (lit "model") ReasoningEffort.High PermissionMode.FullAccess;
   TaskEvent.StateTransitioned TaskStatus.Queued TaskStatus.Active (lit "startup activated a durable queued task");
   TaskEvent.ProviderContextBound (lit "context");
   TaskEvent.EpochStarted 108 live_objective;
   TaskEvent.ProviderRequestRecorded 108 ProviderRequestPurpose.Work 0 live_digest;
   TaskEvent.ProviderEpochBound 108 (lit "epoch");
   TaskEvent.OperationIntentRecorded 119 108 (lit "item") EffectClass.AmbiguousConsequential
     (Sha256Digest_display live_request.(ae_request_digest));
   TaskEvent.OperationTransitioned 119 OperationStatus.IntentRecorded OperationStatus.Started [];
   TaskEvent.OperationEvidenceRecorded 119 live_digest;
   TaskEvent.OperationTransitioned 119 OperationStatus.Started OperationStatus.Uncertain [9];
   TaskEvent.EpochFinished 108 live_digest;
   TaskEvent.Blocked (lit "restart blocked uncertain operations: " ++ uuid_to_string 119);
   TaskEvent.CancellationRequested].

(** Another course of the task: a recovery that is interrupted. *)
Definition interrupted_events : list TaskEvent :=
  [TaskEvent.StateTransitioned TaskStatus.Queued TaskStatus.Active (lit "started");
   TaskEvent.EpochStarted 201 (lit "work");
   TaskEvent.EpochFinished 201 live_digest;
   TaskEvent.StateTransitioned TaskStatus.Active TaskStatus.Checkpointing (lit "checkpoint");
   TaskEvent.RecoveryAttemptStarted 202 RecoveryStrategy.ReconstructFromEvidence live_digest;
   TaskEvent.StateTransitioned TaskStatus.Checkpointing TaskStatus.Active (lit "recovery");
   TaskEvent.EpochStarted 202 (lit "recovery");
   TaskEvent.EpochInterrupted 202 EpochInterruptReason.PermissionTightening].

Definition journal_with (events : list TaskEvent) : list EventEnvelope := imap (fun i ev =>
  {| ee_id := 1000 + Z.of_nat i; ee_session_id := 5; ee_turn_id := None; sequence := Z.of_nat (S i);
     timestamp := 1; event := Event.TaskLifecycle 101 ev |}) events.
Definition live_journal : list EventEnvelope := journal_with live_events.
Definition live_snapshots : list TaskSnapshot :=
  snapshots_of live_journal ++ snapshots_of (journal_with (take 1 live_events ++ interrupted_events)).

(** The texts the tables hold, also of the event that would end a cancellation. *)
Definition live_texts : list TaskEvent :=
  live_events ++ [TaskEvent.StateTransitioned TaskStatus.Cancelling TaskStatus.Cancelled
                    (lit "owner cancellation completed at a safe boundary")]
  ++ interrupted_events.

#[local] Instance live_serde : Serde := table_serde live_texts live_snapshots.
#[local] Instance live_sqlite : SqliteJson := table_sqlite live_texts live_snapshots.

#[local] Instance draft_checkpoints : CheckpointJson :=
  table_checkpoints live_texts live_snapshots example_checkpoint example_checkpoint no_package no_package.

(** The checkpoint that the engine makes before the epoch, and its package. *)
Definition live_checkpoint : CanonicalCheckpoint :=
  built_or example_checkpoint (build example_sha256 example_to_vec
    (checkpoint_input (new_runtime live_input (lit "context")) 111
       (pending_report (lit "Epoch has not run yet") live_objective) live_objective
       (default (example_snapshot 1) (live_snapshots !! 3%nat)) (take 4 live_journal))).

Definition live_package : ContextPackage :=
  let r := new_runtime live_input (lit "context") in
  match context_engine r with
  | Ok engine =>
      match ContextEngine_assemble example_sha256 (encode [live_checkpoint; live_checkpoint]) contract_to_string
        (fun _ => Some []) uuid_to_string out_uuid_from_bytes engine (context_input r live_checkpoint live_objective) with
      | Ok package => package
      | Err _ => no_package
      end
  | Err _ => no_package
  end.

#[local] Instance live_checkpoints : CheckpointJson :=
  table_checkpoints live_texts live_snapshots live_checkpoint live_checkpoint live_package live_package.

#[local] Instance live_serde_laws : SerdeLaws := table_serde_laws _ _.
#[local] Instance live_sqlite_laws : SqliteJsonLaws := table_sqlite_laws _ _.
#[local] Instance live_checkpoint_laws : CheckpointJsonLaws := table_checkpoint_laws _ _ _ _ _ _.

(** ** The history *)

Definition live_world : World :=
  {| w_database := (transaction (create_session 5 1) empty_database).1; w_stores := <[0%nat := ∅]> ∅ |}.

(** The process dies at the exchange that gives leave, and a new one takes up the
    store. *)
Definition live_calls : list Call :=
  [Enqueue live_input None; Run 40 101; Crash 25 ∅; ReconcileStartup None].

Definition live_start : Engine := new_engine live_world.(w_database) ∅ [] (new_runtime live_input (lit "context")).
Definition live_end : Engine := performed live_calls live_start.

Lemma live_connected : connected live_world.
Proof.
  set (w := {| w_database := empty_database; w_stores := <[0%nat := ∅]> ∅ |}).
  eapply (rtc_l _ empty_world w); [by apply (connection_open empty_world 0%nat [])|].
  apply rtc_once. eapply (connection_write w 0%nat ∅); [done|apply step_create_session].
Qed.

Lemma live_calls_ok : Forall call_ok live_calls.
Proof. repeat (constructor; [vm_compute; done|]). constructor. Qed.

(** ** The theorems at work *)

Lemma effects_permitted_witness :
  mo_exchange <$> live_end.(en_transcript) !! 25%nat
    = Some (Exchange.ResolveEffect (lit "request") EffectDecision.Allow (Some (Ok tt)))
  /\ effects_justified live_end.(en_transcript).
Proof.
  split; [vm_compute; reflexivity|].
  exact (effects_permitted live_calls live_world.(w_database) ∅ (new_runtime live_input (lit "context")) live_calls_ok).
Defined.

(** What the store says of a task. *)
Definition loaded (db : Database) : TaskRecord :=
  match load_task_record db 101 with
  | Ok (Some record) => record
  | _ => {| snapshot := example_snapshot 1; tk_revision := 0; tk_created_at := 0; tk_updated_at := 0 |}
  end.

Lemma engine_store_opens_witness :
  (loaded live_end.(en_database)).(snapshot).(status) = TaskStatus.Blocked
  /\ exists records, open_store live_end.(en_database) = Ok records.
Proof.
  split; [vm_compute; reflexivity|].
  exact (engine_store_opens live_calls live_world [] ∅ (new_runtime live_input (lit "context")) live_connected
    eq_refl live_calls_ok live_end.(en_database) (or_introl eq_refl)).
Defined.

(** The engine with the task enqueued. *)
Definition live_queued : Engine := performed (take 1 live_calls) live_start.
Lemma run_comes_to_rest_witness :
  (exists outcome : result TaskEngineErrorCode TaskSnapshot,
     (run (Z.to_nat 17000) 101 live_queued).2 = map_err Failed outcome)
  /\ starts (run (Z.to_nat 17000) 101 live_queued).1.(en_transcript) <= starts live_queued.(en_transcript) + 2.
Proof.
  apply (run_comes_to_rest 101 2 (Z.to_nat 17000) live_queued (loaded live_queued.(en_database))).
  - vm_compute. reflexivity.
  - vm_compute. reflexivity.
  - vm_compute. reflexivity.
  - left. vm_compute. reflexivity.
  - assert (live_queued.(en_tasks) !! 101 = None) as Hn by (vm_compute; reflexivity). intros r. rewrite Hn. discriminate.
  - rewrite Z2Nat.id; [unfold MAX_EPOCH_PROVIDER_EVENTS; lia|lia].
Defined.

(** The engine whose task got another model. *)
Definition live_switched : Engine :=
  en_set_runtime (rt_set_model (lit "other") (new_runtime live_input (lit "context"))) live_queued.

Lemma live_reachable : reachable live_switched.(en_database).
Proof.
  eapply (rtc_l _ _ live_world.(w_database)); [apply step_plain, step_create_session|].
  assert (live_switched.(en_database) = (transaction (create_task Some (fun _ => true)
    (new_task live_input 0) 101 102) live_world.(w_database)).1) as -> by (vm_compute; reflexivity).
  apply rtc_once, step_plain, step_create_task. vm_compute. reflexivity.
Qed.

(** The journal of the task. *)
Definition journal_of (db : Database) : list EventEnvelope :=
  match read_task_events db 101 with Ok es => es | Err _ => [] end.

Lemma model_switch_stops_checkpoints_witness :
  (forall c, (build_checkpoint 101 1 (pending_report [] []) [] live_switched).2 <> Ok c)
  /\ (forall text, (assemble_epoch_context 101 [] live_switched).2 <> Ok text).
Proof.
  apply (model_switch_stops_checkpoints (lit "model") ReasoningEffort.High 101 1 (pending_report [] []) [] live_switched
    (journal_of live_switched.(en_database))).
  - exact live_reachable.
  - vm_compute. reflexivity.
  - vm_compute. repeat constructor.
  - exact I.
  - left. vm_compute. discriminate.
Defined.

(** What a call leaves of the task, and what it answers. *)
Definition leaves {A} (m : Eng A) (e : Engine) : TaskStatus * result Stop A :=
  ((loaded (m e).1.(en_database)).(snapshot).(status), (m e).2).

(** The engine after the crash, taken back at most to the state it has then; and the
    calls that follow: the owner cancels the task, it is run, and the engine is started
    anew. *)
Definition live_blocked : Engine :=
  let still (moment : Moment) := {| mo_database := live_end.(en_database); mo_exchange := moment.(mo_exchange) |} in
  new_engine live_end.(en_database) ∅ (still <$> live_end.(en_transcript)) live_end.(en_runtime).
Definition live_cancels : list Call := [Cancel 101 None; Run 40 101; Crash 1000 ∅; ReconcileStartup None].

(** The cancellation is answered with a storage error and leaves the task cancelling, and
    so does another one after those calls. *)
Lemma uncertain_task_never_cancelled_witness :
  leaves (mret tt) live_blocked = (TaskStatus.Blocked, Ok tt)
  /\ leaves (cancel_controlled 101 None) live_blocked
     = (TaskStatus.Cancelling, Err (Failed TaskEngineErrorCode.Storage))
  /\ leaves (cancel_controlled 101 None) (performed live_cancels live_blocked)
     = (TaskStatus.Cancelling, Err (Failed TaskEngineErrorCode.Storage))
  /\ forall control, (cancel_controlled 101 control (performed live_cancels live_blocked)).2 <> Ok tt.
Proof.
  do 3 (split; [vm_compute; reflexivity|]).
  apply (uncertain_task_never_cancelled 101 119 live_cancels live_blocked).
  - assert (doubt 101 119 live_end.(en_database)) as Hd by (apply doubts_ok; vm_compute; reflexivity).
    split; [exact Hd|]. apply Forall_forall. intros moment (m & -> & _)%list_elem_of_fmap. exact Hd.
  - repeat (constructor; [vm_compute; done|]). constructor.
Defined.

(** The engine whose task was interrupted in a recovery. *)
Definition live_interrupted : Engine :=
  en_set_database
    (foldl (fun db '(i, ev) => (transaction (append_task_event 101 (1 + Z.of_nat i) ev 5 (2000 + Z.of_nat i)) db).1)
       live_queued.(en_database) (imap pair interrupted_events)) live_queued.

Lemma interrupted_recovery_never_restarts_witness :
  (forall epoch objective record, (engine_append 101 (TaskEvent.EpochStarted epoch objective) live_interrupted).2 <> Ok record)
  /\ forall fuel snapshot, (run_loop fuel 101 live_interrupted).2 <> Ok snapshot.
Proof.
  apply (interrupted_recovery_never_restarts 101 (loaded live_interrupted.(en_database)) 202
    RecoveryStrategy.ReconstructFromEvidence live_digest live_interrupted).
  - vm_compute. reflexivity.
  - vm_compute. reflexivity.
  - vm_compute. reflexivity.
  - vm_compute. by eexists.
Defined.
